(* ===== verification/_CoqProject ===== *)
-Q . S2P
Prelude.v
State.v
Spinlock.v
Queue.v
CString.v
Kalloc.v
Console.v
Vm.v
Kvm.v
Uvm.v
Mp.v
Boot.v
MachineExamples.v
Message.v
Container.v
Proc.v
Dispatch.v
Syscall.v
Sysproc.v
SysExamples.v
Sleeplock.v
Bio.v
Cache.v
Blocks.v
Log.v
Words.v
Journal.v
Commit.v
CacheSpec.v
Transact.v
Fs.v
Names.v
Content.v
FsExamples.v
Pipe.v
PipeSpec.v
File.v
Sysfile.v
Open.v
Input.v
InputSpec.v
InputExamples.v
Screen.v
Exec.v
Fork.v
ForkSpec.v
ForkExamples.v
Ide.v
Trap.v
Tables.v
Apic.v
User.v
Umalloc.v
UmallocSpec.v
UserSpec.v
Tools.v
ToolsSpec.v
GrepSpec.v
Shell.v
ShellSpec.v
ShellRound.v
UserExamples.v
Mkfs.v
MkfsBlocks.v
MkfsSpec.v
MkfsImage.v
Network.v
Kahn.v
Jacob.v
JacobGrid.v
JacobEvents.v
JacobSpec.v
Maekawa.v
MaekawaQueue.v
MaekawaSpec.v
MaekawaExamples.v
Sums.v
SumsSpec.v
SumsExamples.v
