(* ===== verification/Prelude.v ===== *)
(** * A verification of xv6 with containers

    The program is a small Unix: the teaching kernel xv6 (src/xv6), extended
    with message passing, signals and containers, and the user programs that
    run on it.  This library models the kernel and the main user programs as
    Rocq functions, file by file, and proves what makes them correct.

    ** How code is modelled

    Kernel code runs in the monad [M S A] of this file, on the record of all
    global variables ([kernel], in State.v).  A run ends in one of: [Ret], a
    value and a state; [Panic], the kernel's own [panic]; [Fault], an access
    outside an array or through a null pointer, which C leaves undefined;
    [Spin], a spinlock that another CPU holds; [Switch], the call of [swtch]
    with the continuation, which goes on in whatever state the CPU comes back
    with; [Diverge], a loop that used up its bound.  Integers are [Z] and wrap
    where the code can overflow ([u32], [i32]).  A pointer to an element of a
    static table is an index, a pointer into memory an address; user and
    kernel memory is a function from addresses to bytes.

    User code runs in the monad [U W A] of User.v, on a world [W] that one
    function, [trap], changes by performing a system call.  A run follows one
    process: it yields a value, leaves the program ([exit] or [exec]), crashes
    or runs out of fuel.

    Loops that wait for an event are bounded by [wakeups], a parameter (class
    [Fuel]); the theorems say how many rounds are enough, or hold for every
    bound.  Other loops are bounded by the size of the array or the string they
    go over, written at the definition.

    ** The parts, and where they are

    - Prelude, State: record updates, arrays, the monad and its tactics [mstep]
      and [run], loops; the constants and the global variables.
    - Spinlock (spinlock.c, mycpu and myproc of proc.c), Sleeplock
      (sleeplock.c).  [acquire_exclusive], [nest_balanced], [acquiresleep_spec]:
      who gets a lock, that nested sections restore the interrupt flag, that a
      sleeper misses no wakeup.
    - Queue (ring buffers and queue.c), Message (message.c): [queue_refines_fifo],
      [messages_refine_mailboxes]: bounded queues are lists, message passing is
      a table of private mailboxes over a bounded pool.
    - CString (string.c), Kalloc (kalloc.c): [memmove_as_if_buffered],
      [kalloc_refines_stack].
    - Vm (vm.c), Kvm, Uvm: page tables in byte memory.  Kvm composes [mappages]
      over the kernel's regions, [boot_maps_kernel]; Uvm the pages of a process,
      [copyuvm_copies] and [allocuvm_grows].
    - Boot (bootmain.c), Mp (mp.c), Apic (lapic.c, ioapic.c, picirq.c), Tables
      (the descriptors of mmu.h, seginit, tvinit): starting the machine and its
      registers, with what a device answers as a parameter; [bootmain_loads],
      [mpinit_table], [mpinit_unknown], [ioapic_routes], [cmostime_reads],
      [protection_tables].  The entries that the code writes for the I/O APIC and
      into the descriptor tables are read back field by field, as the data sheets
      lay them out.
    - Console (printint and cprintf of console.c), Screen (cgaputc and uart.c),
      Input (the rest of console.c, kbd.c), InputSpec: [screen_refines_tty], the
      display shows a terminal; [consoleintr_edits] and [consoleread_line], the
      console is a line editor.
    - Container (container_manager.c), Proc, Dispatch and Fork (proc.c), ForkSpec:
      the container table, the process table and the scheduler; [sleep_atomic],
      [wakeup_exact], [get_container_to_run_fair], and [scheduler_round_dispatch]:
      who runs next, with the signals delivered to it and the line of the logger.
      [fork_copies] puts [allocproc], [copyuvm], [filedup] and [idup] together.
      Several theorems pin down what the code does where it is wrong:
      [pick_pid_overflow], [destroy_container_processes_outcome],
      [sigraise_spec].
    - Syscall (syscall.c), Sysproc (sysproc.c), Sysfile and Open (sysfile.c),
      Exec (exec.c), Trap (trap.c): arguments, the handlers and the table;
      [argptr_spec], [argstr_spec], [join_leave_spec].
    - Bio (bio.c, memide.c), Ide (ide.c): the buffer cache is written against
      the interface [BlockDev] with the laws [DiskLaws], which the memory disk
      satisfies.  Cache and Blocks prove the list of buffers and the view the
      cache gives; CacheSpec concludes [cache_refines_blocks] and
      [binit_establishes]: the cache is an array of blocks.
    - Log (log.c), Words, Journal, Commit, Transact: Journal is the pure account
      of the disk writes of a commit and of their prefixes; Commit shows that
      the code performs exactly those writes; Transact composes [begin_op], any
      block updates, [end_op] and the commit.  [transaction_atomic],
      [crash_recovery], [recovery_preserves]: whatever prefix of the writes
      reaches the disk, and however often recovery is interrupted, the file
      system shows none or all of an operation.  [log_write_spec],
      [begin_op_admits]: when the log is full and who is admitted.
    - Fs and Names (fs.c), Content: inodes, directories and paths.  Content
      proves [bmap], [readi], [writei] and [iupdate] over the cache and the log:
      [file_write_atomic].  The allocation of new blocks, [balloc], and the
      directories have definitions and no theorem.
    - Pipe (pipe.c), PipeSpec, File (file.c): [pipe_refines_stream], a pipe is a
      stream of bytes; [pipewrite_full], what a writer does that has to wait.
    - User (ulib.c, printf.c), UserSpec: the C library over the system calls.
      [printf_agrees_with_cprintf], the same text but for the case of hexadecimal
      digits, and [atoi_printint].  The streams a program
      reads and writes are the interface [Streams].
    - Umalloc (umalloc.c), UmallocSpec: [allocator_sound], for any client whose
      requests are below 2^31 - 16 bytes.
    - Tools (cat.c, wc.c, grep.c, ls.c, echo.c, kill.c, ln.c, mkdir.c, rm.c,
      zombie.c, init.c), ToolsSpec, GrepSpec: [match_decides], [wc_counts],
      [grep_prints] and [grep_forgets], however the kernel splits the input.
    - Shell (sh.c), ShellSpec, ShellRound: [parsecmd_show], [runline_leaves],
      [parsecmd_typed]: the parser is total, safe and inverse to printing.
    - Mkfs (mkfs.c), MkfsBlocks, MkfsSpec, MkfsImage: [mkfs_formats], the image
      is a file system that holds the files.
    - Network: programs as trees of system calls, and the step relation of the
      processes that run them, with pipes and mailboxes between them.  Kahn: in
      a network whose pipes have one writer and one reader each, what a process
      does is the same under every schedule.
      Jacob (jacob.c), JacobGrid, JacobEvents, JacobSpec: [jacob_parallel], for
      grids of at most 34 rows; the arithmetic is a parameter, whose laws IEEE
      single precision satisfies ([binary32_laws] of SumsExamples).
    - Sums (assig1_8.c and sum_10k.c), SumsSpec: processes with mailboxes, a
      buffer for multicasts, loops that wait for a flag, and handlers of signals
      that are entered between any two steps; [sums_parallel].
    - Maekawa (maekawa.c), MaekawaQueue, MaekawaSpec, MaekawaExamples:
      [maekawa_exclusion], and two schedules that show where the algorithm as
      written goes wrong, [maekawa_not_exclusive] and [maekawa_deadlocks].
    - The files whose names end in Examples: concrete machines, disks, images
      and schedules on which the theorems' hypotheses hold.

    ** What is not modelled

    main.c: [main] calls the initialisation of the components in order, and the
    start of the other processors waits for what they write into shared memory;
    assembly (the .S files), which saves and restores registers.  Interrupts are
    not interleaved with kernel code: another CPU shows as a lock that is held
    and as the state a [Switch] comes back with.  The TLB is left out, and the
    effect of a new page directory on user addresses.  The programs that exchange
    messages are run in networks of their own, Network and Sums, in which a
    receive is one step and a message is the value sent: [sys_recv] can miss a
    wakeup between its test and its sleep, and copies 60 bytes whatever the size of
    the variable.  Entering a handler saves the address to return to and no
    registers; the code that was interrupted is taken to go on as it was.  The
    test programs
    (usertests.c and the small programs around it) and the Linux versions of
    the demonstrations are programs that exercise the kernel, or another
    system. *)

From stdpp Require Export base gmap list strings.
From Stdlib Require Export ZArith Lia.

#[export] Set Default Goal Selector "!".

(** ** Functional record update

    [r <| f := v |>] is [r] with field [f] replaced, [r <| f ::= g |>] applies
    [g] to the field.  A record type gets both from one [Eta] instance, its
    eta-expansion through its own projections. *)

Class Eta (R : Type) := mkEta { eta_expand : R -> R }.

Class Upd {R F : Type} (proj : R -> F) := mkUpd {
  upd : (F -> F) -> R -> R;
  upd_get : forall f r, proj (upd f r) = f (proj r);
  upd_upd : forall f g r, upd f (upd g r) = upd (fun x => f (g x)) r }.
Arguments mkUpd {R F} proj _ _ _.
Arguments upd_get {R F} proj {_} _ _.
Arguments upd_upd {R F} proj {_} _ _ _.
Arguments upd {R F} proj {_} _ _ : simpl never.

Ltac derive_upd :=
  match goal with
  | |- @Upd ?R ?F ?proj =>
      let inst := constr:(_ : Eta R) in
      let inst := eval hnf in inst in
      match inst with
      | mkEta _ ?e =>
          let e := eval cbv beta in e in
          let p := eval pattern proj in e in
          match p with
          | ?g _ =>
              let t := eval cbv beta in (fun f : F -> F => g (fun r => f (proj r))) in
              exact (mkUpd proj t (fun f r => @eq_refl F (f (proj r)))
                (fun f1 f2 r => @eq_refl R (t (fun x => f1 (f2 x)) r)))
          end
      end
  end.

#[export] Hint Extern 0 (Upd _) => derive_upd : typeclass_instances.

Declare Scope record_scope.
Open Scope record_scope.

Notation "r <| f := v |>" := (upd f (fun _ => v) r)
  (at level 1, left associativity, format "r  <| f  :=  v |>") : record_scope.
Notation "r <| f ::= g |>" := (upd f g r)
  (at level 1, left associativity, format "r  <| f  ::=  g |>") : record_scope.

(** Replace a term by a convertible one, with a local conversion step. *)
Ltac subst_conv a b :=
  let H := fresh in assert (H : a = b) by reflexivity; rewrite H; clear H.

(** [rsimpl] computes projections of updated records. *)
Ltac rsimpl_term p q f r :=
  first [ constr_eq p q; let t := eval cbv beta in (f (p r)) in
          subst_conv (p (upd q f r)) t
        | subst_conv (p (upd q f r)) (p r) ].
Ltac rsimpl :=
  repeat match goal with
  | |- context [?p (@upd _ _ ?q _ ?f ?r)] => rsimpl_term p q f r
  end.
Ltac rsimpl_in H :=
  repeat match type of H with
  | context [?p (@upd _ _ ?q _ ?f ?r)] =>
      first [ constr_eq p q; let t := eval cbv beta in (f (p r)) in
              change (p (upd q f r)) with t in H
            | change (p (upd q f r)) with (p r) in H ]
  end.
(** Records equal field by field. *)
Ltac req := unfold upd; cbn beta iota; f_equal.

(** [lia] with division and remainder. *)
Ltac dlia := Z.to_euclidean_division_equations; lia.

(** ** Machine integers *)

(** [unsigned int] arithmetic wraps modulo 2^32; [int] is its two's-complement
    reading. *)
Definition u32 (z : Z) : Z := (z `mod` 2 ^ 32)%Z.
Definition i32 (z : Z) : Z :=
  let m := u32 z in if (m <? 2 ^ 31)%Z then m else (m - 2 ^ 32)%Z.

Lemma u32_small z : (0 <= z < 2 ^ 32)%Z -> u32 z = z.
Proof. apply Z.mod_small. Qed.
Lemma i32_small z : (0 <= z < 2 ^ 31)%Z -> i32 z = z.
Proof. intros H. unfold i32. rewrite u32_small by lia. destruct (Z.ltb_spec z (2 ^ 31)); lia. Qed.

(** [within a n x]: [x] is one of the [n] addresses from [a]. *)
Definition within (a n x : Z) : bool := ((a <=? x) && (x <? a + n))%Z.

Lemma within_spec a n x : BoolSpec (a <= x < a + n)%Z (~ (a <= x < a + n))%Z (within a n x).
Proof.
  unfold within. destruct (Z.leb_spec a x), (Z.ltb_spec x (a + n)); constructor; lia.
Qed.

Lemma within_true a n x : (a <= x < a + n)%Z -> within a n x = true.
Proof. by destruct (within_spec a n x). Qed.

Lemma within_false a n x : ~ (a <= x < a + n)%Z -> within a n x = false.
Proof. by destruct (within_spec a n x). Qed.

(** ** Arrays indexed by C integers

    A C array is a list; an index is any [Z].  [aget] and [aset] are partial:
    an index outside the array is visible to the caller. *)

Section arrays.
Context {A : Type}.
Implicit Types (l : list A) (i : Z) (x : A).

Definition alen l : Z := Z.of_nat (length l).

Definition aget l i : option A :=
  if (0 <=? i)%Z then l !! Z.to_nat i else None.

Definition aset l i x : option (list A) :=
  if ((0 <=? i) && (i <? alen l))%Z then Some (<[Z.to_nat i := x]> l) else None.

Lemma alen_nonneg l : (0 <= alen l)%Z.
Proof. unfold alen. lia. Qed.

Lemma alen_cons x l : alen (x :: l) = (1 + alen l)%Z.
Proof. unfold alen. simpl. lia. Qed.

Lemma alen_app l l' : alen (l ++ l') = (alen l + alen l')%Z.
Proof. unfold alen. rewrite length_app. lia. Qed.

Lemma aget_nat l (n : nat) : aget l (Z.of_nat n) = l !! n.
Proof. unfold aget. destruct (Z.leb_spec 0 (Z.of_nat n)); [|lia]. by rewrite Nat2Z.id. Qed.

Lemma aget_lt l i x : aget l i = Some x -> (0 <= i < alen l)%Z.
Proof.
  unfold aget, alen. destruct (Z.leb_spec 0 i); [|done].
  intros Hl%lookup_lt_Some. lia.
Qed.

Lemma aget_is_Some l i : (0 <= i < alen l)%Z -> is_Some (aget l i).
Proof.
  intros [H1 H2]. unfold aget, alen in *. destruct (Z.leb_spec 0 i); [|lia].
  apply lookup_lt_is_Some_2. lia.
Qed.

Lemma aget_None l i : ~ (0 <= i < alen l)%Z -> aget l i = None.
Proof.
  intros H. unfold aget, alen in *. destruct (Z.leb_spec 0 i); [|done].
  apply lookup_ge_None_2. lia.
Qed.

Lemma aset_Some l i x :
  (0 <= i < alen l)%Z -> aset l i x = Some (<[Z.to_nat i := x]> l).
Proof.
  intros [H1 H2]. unfold aset.
  destruct (Z.leb_spec 0 i), (Z.ltb_spec i (alen l)); simpl; by (done || lia).
Qed.

Lemma aset_None l i x : ~ (0 <= i < alen l)%Z -> aset l i x = None.
Proof.
  intros H. unfold aset.
  destruct (Z.leb_spec 0 i), (Z.ltb_spec i (alen l)); simpl; by (done || lia).
Qed.

Lemma aset_inv l i x l' :
  aset l i x = Some l' -> (0 <= i < alen l)%Z /\ l' = <[Z.to_nat i := x]> l.
Proof.
  unfold aset.
  destruct (Z.leb_spec 0 i), (Z.ltb_spec i (alen l)); simpl; intros [= <-]; by (done || lia).
Qed.

Lemma alen_insert l (n : nat) x : alen (<[n := x]> l) = alen l.
Proof. unfold alen. by rewrite length_insert. Qed.

Lemma aget_insert_eq l i x :
  (0 <= i < alen l)%Z -> aget (<[Z.to_nat i := x]> l) i = Some x.
Proof.
  intros [H1 H2]. unfold aget, alen in *. destruct (Z.leb_spec 0 i); [|lia].
  apply list_lookup_insert_eq. lia.
Qed.

Lemma aget_insert_ne l i j x :
  (0 <= i)%Z -> i <> j -> aget (<[Z.to_nat i := x]> l) j = aget l j.
Proof.
  intros H1 H2. unfold aget. destruct (Z.leb_spec 0 j); [|done].
  apply list_lookup_insert_ne. lia.
Qed.

Lemma aget_insert l i j x :
  (0 <= i < alen l)%Z ->
  aget (<[Z.to_nat i := x]> l) j = if decide (i = j) then Some x else aget l j.
Proof.
  intros H. case_decide as Hij; [subst; by apply aget_insert_eq|].
  apply aget_insert_ne; [lia|done].
Qed.

Lemma aget_nil i : aget [] i = @None A.
Proof. unfold aget. by destruct (0 <=? i)%Z. Qed.

Lemma aget_app l l' i :
  (0 <= i)%Z -> aget (l ++ l') i = if decide (i < alen l)%Z then aget l i else aget l' (i - alen l).
Proof.
  intros H. unfold aget. destruct (Z.leb_spec 0 i); [|lia]. case_decide; unfold alen in *; [by rewrite lookup_app_l by lia|].
  rewrite lookup_app_r by lia. destruct (Z.leb_spec 0 (i - Z.of_nat (length l))); [|lia]. f_equal. lia.
Qed.

Lemma aget_replicate (n : nat) i x :
  (0 <= i < Z.of_nat n)%Z -> aget (replicate n x) i = Some x.
Proof.
  intros H. unfold aget. destruct (Z.leb_spec 0 i); [|lia].
  apply lookup_replicate_2. lia.
Qed.
End arrays.

Lemma aget_fmap {A B} (f : A -> B) l i : aget (f <$> l) i = f <$> aget l i.
Proof. unfold aget. destruct (0 <=? i)%Z; [|done]. apply list_lookup_fmap. Qed.

(** Replacing one of a list of lists changes the concatenation by that much. *)
Lemma concat_insert_perm {A} (ls : list (list A)) i l l' :
  ls !! i = Some l -> concat (<[i := l']> ls) ++ l ≡ₚ concat ls ++ l'.
Proof.
  revert i. induction ls as [|x ls IH]; intros [|i] H; simplify_eq/=.
  - solve_Permutation.
  - rewrite <- !(assoc_L (++)). by rewrite IH.
Qed.

(** ** The kernel monad

    Kernel code runs on a state [S].  A run ends in a value, in a call of
    [panic], in an access outside a C object ([Fault]), or in a spin loop whose
    condition only another CPU can change ([Spin]).  [swtch] hands the CPU to
    another context: [Switch s k] is the state at that point and the rest of
    the run, entered with whatever state the machine is in when this context
    is resumed.  [Diverge] is an exhausted loop bound. *)

Inductive res (S A : Type) : Type :=
| Ret (a : A) (s : S)
| Panic (why : string)
| Fault (why : string)
| Spin (why : string)
| Switch (s : S) (k : S -> res S A)
| Diverge.
Arguments Ret {S A} a s.
Arguments Panic {S A} why.
Arguments Fault {S A} why.
Arguments Spin {S A} why.
Arguments Switch {S A} s k.
Arguments Diverge {S A}.

Definition M (S A : Type) : Type := S -> res S A.

Fixpoint res_bind {S A B : Type} (f : A -> M S B) (r : res S A) : res S B :=
  match r with
  | Ret a s => f a s
  | Panic w => Panic w
  | Fault w => Fault w
  | Spin w => Spin w
  | Switch s k => Switch s (fun s' => res_bind f (k s'))
  | Diverge => Diverge
  end.

#[export] Instance M_ret (S : Type) : MRet (M S) := fun A a s => Ret a s.
#[export] Instance M_bind (S : Type) : MBind (M S) := fun A B f m s => res_bind f (m s).

(** Run [m], then ignore its result. *)
Notation "m ;;; k" := (mbind (M := M _) (fun _ => k) m)
  (at level 100, right associativity, only parsing).

Section monad.
Context {S : Type}.

Definition panic {A} (why : string) : M S A := fun _ => Panic why.
Definition fault {A} (why : string) : M S A := fun _ => Fault why.
Definition spin {A} (why : string) : M S A := fun _ => Spin why.
Definition get : M S S := fun s => Ret s s.
Definition gets {A} (f : S -> A) : M S A := fun s => Ret (f s) s.
Definition modify (f : S -> S) : M S unit := fun s => Ret tt (f s).

(** [when b m]: the C statement [if (b) m]. *)
Definition when (b : bool) (m : M S unit) : M S unit := if b then m else mret tt.

(** Reading [l[i]]; [what] names the array in the fault. *)
Definition rd {A} (what : string) (l : list A) (i : Z) : M S A :=
  match aget l i with Some a => mret a | None => fault what end.
(** The array after [l[i] = x]. *)
Definition wr {A} (what : string) (l : list A) (i : Z) (x : A) : M S (list A) :=
  match aset l i x with Some l' => mret l' | None => fault what end.

(** [for (i = lo; i < lo + n; i++) body(i)], where [Some a] leaves the loop. *)
Fixpoint for_ {A} (n : nat) (lo : Z) (body : Z -> M S (option A)) : M S (option A) :=
  match n with
  | O => mret None
  | Datatypes.S n' =>
      r ← body lo;
      match r with Some a => mret (Some a) | None => for_ n' (lo + 1)%Z body end
  end.

(** The same loop without an exit. *)
Fixpoint each (n : nat) (lo : Z) (body : Z -> M S unit) : M S unit :=
  match n with
  | O => mret tt
  | Datatypes.S n' => body lo ;;; each n' (lo + 1)%Z body
  end.

(** A loop that keeps an invariant indexed by the loop variable. *)
Lemma each_ind (P : Z -> S -> Prop) n lo (body : Z -> M S unit) s :
  P lo s ->
  (forall i s, (lo <= i < lo + Z.of_nat n)%Z -> P i s ->
    exists s', body i s = Ret tt s' /\ P (i + 1)%Z s') ->
  exists s', each n lo body s = Ret tt s' /\ P (lo + Z.of_nat n)%Z s'.
Proof.
  revert lo s. induction n as [|n IH]; intros lo s HP Hstep.
  - exists s. by rewrite Z.add_0_r.
  - destruct (Hstep lo s) as (s1 & Hb & HP1); [lia|done|].
    destruct (IH (lo + 1)%Z s1 HP1) as (s2 & He & HP2).
    { intros i s' Hi. apply Hstep. lia. }
    exists s2. cbn [each]. unfold mbind, M_bind. rewrite Hb. split; [done|].
    by replace (lo + Z.of_nat (Datatypes.S n))%Z with (lo + 1 + Z.of_nat n)%Z by lia.
Qed.

Lemma bind_Ret {A B} (m : M S A) (f : A -> M S B) s a s' :
  m s = Ret a s' -> (m ≫= f) s = f a s'.
Proof. intros H. unfold mbind, M_bind. by rewrite H. Qed.

Lemma bind_Panic {A B} (m : M S A) (f : A -> M S B) s w :
  m s = Panic w -> (m ≫= f) s = Panic w.
Proof. intros H. unfold mbind, M_bind. by rewrite H. Qed.

Lemma bind_Diverge {A B} (m : M S A) (f : A -> M S B) s : m s = Diverge -> (m ≫= f) s = Diverge.
Proof. intros H. unfold mbind, M_bind. by rewrite H. Qed.

Lemma bind_Fault {A B} (m : M S A) (f : A -> M S B) s w :
  m s = Fault w -> (m ≫= f) s = Fault w.
Proof. intros H. unfold mbind, M_bind. by rewrite H. Qed.

Lemma bind_Switch {A B} (m : M S A) (f : A -> M S B) s s' k :
  m s = Switch s' k -> (m ≫= f) s = Switch s' (fun t => res_bind f (k t)).
Proof. intros H. unfold mbind, M_bind. by rewrite H. Qed.

Lemma bind_inv {A B} (m : M S A) (f : A -> M S B) s b s' :
  (m ≫= f) s = Ret b s' -> exists a s1, m s = Ret a s1 /\ f a s1 = Ret b s'.
Proof.
  unfold mbind, M_bind. destruct (m s) as [a s1| | | | |] eqn:E; simpl; intros H; try done.
  eauto.
Qed.

Lemma rd_Some {A} what (l : list A) i x s :
  aget l i = Some x -> rd what l i s = Ret x s.
Proof. intros H. unfold rd. by rewrite H. Qed.

Lemma rd_None {A} what (l : list A) i s :
  ~ (0 <= i < alen l)%Z -> rd what l i s = Fault what.
Proof. intros H. unfold rd. by rewrite aget_None. Qed.

Lemma wr_Some {A} what (l : list A) i x s :
  (0 <= i < alen l)%Z -> wr what l i x s = Ret (<[Z.to_nat i := x]> l) s.
Proof. intros H. unfold wr. by rewrite aset_Some. Qed.

Lemma wr_None {A} what (l : list A) i x s :
  ~ (0 <= i < alen l)%Z -> wr what l i x s = Fault what.
Proof. intros H. unfold wr. by rewrite aset_None. Qed.

(** ** Total correctness up to resumption

    [wp G R Q r]: the run [r] never panics, faults or spins; whenever it
    hands over the CPU the state satisfies [G]; if every resumption state is
    related to the handed-over one by [R], it ends with [Q]. *)
Fixpoint wp {A} (G : S -> Prop) (R : S -> S -> Prop) (Q : A -> S -> Prop)
    (r : res S A) : Prop :=
  match r with
  | Ret a s => Q a s
  | Switch s k => G s /\ forall s', R s s' -> wp G R Q (k s')
  | _ => False
  end.

Lemma wp_bind {A B} G R (Q : B -> S -> Prop) (m : res S A) (f : A -> M S B) :
  wp G R (fun a s => wp G R Q (f a s)) m -> wp G R Q (res_bind f m).
Proof.
  induction m as [a s|w|w|w|s k IH|]; simpl; intros H; try done.
  destruct H as [HG Hk]. split; [done|]. intros s' Hs'. by apply IH, Hk.
Qed.

Lemma wp_mono {A} G R (Q Q' : A -> S -> Prop) (m : res S A) :
  (forall a s, Q a s -> Q' a s) -> wp G R Q m -> wp G R Q' m.
Proof.
  intros HQ. induction m as [a s|w|w|w|s k IH|]; simpl; intros H; try done.
  - by apply HQ.
  - destruct H as [HG Hk]. split; [done|]. intros s' Hs'. by apply IH, Hk.
Qed.
End monad.

(** ** Working on a part of the state

    [zoom g p what m] runs [m] on the part of the state that [g] reads and [p]
    writes back; [g] fails when the pointer that leads there is bad. *)

Section zoom.
Context {S T : Type} (g : S -> option T) (p : T -> S -> S) (what : string).

Fixpoint embed {A} (r : res T A) (s : S) : res S A :=
  match r with
  | Ret a t => Ret a (p t s)
  | Panic w => Panic w
  | Fault w => Fault w
  | Spin w => Spin w
  | Switch t k =>
      Switch (p t s) (fun s' =>
        match g s' with Some t' => embed (k t') s' | None => Fault what end)
  | Diverge => Diverge
  end.

Definition zoom {A} (m : M T A) : M S A := fun s =>
  match g s with Some t => embed (m t) s | None => Fault what end.

Lemma zoom_Ret {A} (m : M T A) s t a t' :
  g s = Some t -> m t = Ret a t' -> zoom m s = Ret a (p t' s).
Proof. intros Hg Hm. unfold zoom. by rewrite Hg, Hm. Qed.

Lemma zoom_None {A} (m : M T A) s : g s = None -> zoom m s = Fault what.
Proof. intros Hg. unfold zoom. by rewrite Hg. Qed.
End zoom.

(** ** Scans

    [scan f n lo] is the first [f i] that is [Some _], for [i] from [lo]
    upwards, [n] candidates: what a C loop with an early return computes. *)

Fixpoint scan {A} (f : Z -> option A) (n : nat) (lo : Z) : option A :=
  match n with
  | O => None
  | S n' => match f lo with Some a => Some a | None => scan f n' (lo + 1)%Z end
  end.

Section scan.
Context {A : Type}.
Implicit Types (f : Z -> option A) (n : nat) (lo : Z).

Lemma scan_Some f n lo a :
  scan f n lo = Some a <->
  exists i, (lo <= i < lo + Z.of_nat n)%Z /\ f i = Some a /\
    forall j, (lo <= j < i)%Z -> f j = None.
Proof.
  revert lo. induction n as [|n IH]; intros lo; simpl.
  - split; [done|]. intros (i & Hi & _). lia.
  - destruct (f lo) as [b|] eqn:Hf.
    + split.
      * intros [= ->]. exists lo. repeat split; try done; lia.
      * intros (i & Hi & Ha & Hj). destruct (decide (i = lo)) as [->|]; [congruence|].
        rewrite (Hj lo) in Hf; [done|lia].
    + rewrite IH. split.
      * intros (i & Hi & Ha & Hj). exists i. repeat split; try done; try lia.
        intros j ?. destruct (decide (j = lo)) as [->|]; [done|]. apply Hj. lia.
      * intros (i & Hi & Ha & Hj).
        assert (i <> lo) by congruence. exists i. repeat split; try done; try lia.
        intros j ?. apply Hj. lia.
Qed.

Lemma scan_None f n lo :
  scan f n lo = None <-> forall i, (lo <= i < lo + Z.of_nat n)%Z -> f i = None.
Proof.
  revert lo. induction n as [|n IH]; intros lo; simpl.
  - split; [|done]. intros _ i Hi. lia.
  - destruct (f lo) as [b|] eqn:Hf.
    + split; [done|]. intros H. rewrite H in Hf; [done|lia].
    + rewrite IH. split.
      * intros H i Hi. destruct (decide (i = lo)) as [->|]; [done|]. apply H. lia.
      * intros H i Hi. apply H. lia.
Qed.

Lemma scan_ext f g n lo :
  (forall i, (lo <= i < lo + Z.of_nat n)%Z -> f i = g i) -> scan f n lo = scan g n lo.
Proof.
  revert lo. induction n as [|n IH]; intros lo H; simpl; [done|].
  rewrite (H lo) by lia. destruct (g lo); [done|]. apply IH. intros i Hi. apply H. lia.
Qed.

(** A loop whose body only looks computes the scan. *)
Lemma for_scan {S} (body : Z -> M S (option A)) f n lo s :
  (forall i, (lo <= i < lo + Z.of_nat n)%Z -> body i s = Ret (f i) s) ->
  for_ n lo body s = Ret (scan f n lo) s.
Proof.
  revert lo. induction n as [|n IH]; intros lo H; simpl; [done|].
  rewrite (bind_Ret _ _ _ _ _ (H lo ltac:(lia))). destruct (f lo); [done|].
  apply IH. intros i Hi. apply H. lia.
Qed.
End scan.

(** Stepping through code: [mstep] runs a bind whose head computes, [run H]
    one whose head is described by the equation [H]. *)
Ltac mstep := erewrite bind_Ret; [|reflexivity]; cbv beta iota.
Tactic Notation "run" uconstr(lem) :=
  erewrite bind_Ret; [|eapply lem]; cbv beta iota.
