(* ===== verification/State.v ===== *)
(** * The kernel's global data

    The constants of [param.h], [types.h], [mmu.h] and [memlayout.h], the
    structures of [proc.h], [spinlock.h] and of the tables each C file keeps,
    and the record of all global variables that kernel code runs on.  A
    pointer to an element of a static table ([struct proc *], [queue *]) is
    the element's index; a pointer into memory is its address. *)

From S2P Require Import Prelude.
Open Scope Z_scope.

(** ** Constants *)

Definition NPROC : Z := 64.
Definition KSTACKSIZE : Z := 4096.
Definition NCPU : Z := 8.
Definition NOFILE : Z := 300.
Definition NCONTAINER : Z := 15.
Definition NUMOFMESSAGEQUEUES : Z := 64.
Definition NUMOFMESSAGEBUFFERS : Z := 5001.
Definition MessageSize : Z := 16.
Definition NSIG : Z := 8.
Definition SIGIGN : Z := 0.
Definition SIGDFL : Z := 1.
Definition SIGMSGSENT : Z := 4.
Definition PGSIZE : Z := 4096.
Definition KERNBASE : Z := 0x80000000.
Definition PHYSTOP : Z := 0xE000000.

(** ** CPUs and locks *)

(** [struct cpu] of [proc.h]: the interrupt bookkeeping and the running
    process.  The segment tables are not modelled; the saved scheduler
    context is the resumption of the scheduler's own [Switch]. *)
Record cpu := mkcpu {
  c_apicid : Z;
  c_ncli : Z;
  c_intena : bool;
  c_proc : option nat }.
#[export] Instance eta_cpu : Eta cpu :=
  mkEta _ (fun r => mkcpu (c_apicid r) (c_ncli r) (c_intena r) (c_proc r)).

(** [struct spinlock], without the debugging call stack. *)
Record spinlock := mklock {
  lk_name : string;
  lk_locked : bool;
  lk_cpu : option Z }.
#[export] Instance eta_spinlock : Eta spinlock :=
  mkEta _ (fun r => mklock (lk_name r) (lk_locked r) (lk_cpu r)).

(** A lock is named by the variable that holds it and its array index. *)
Abbreviation lockid := (string * Z)%type.

(** The executing processor's view: its local APIC id, its interrupt flag,
    the CPU table and every spinlock. *)
Record mach := mkmach {
  m_lapicid : Z;
  m_if : bool;
  m_ncpu : Z;
  m_cpus : list cpu;
  m_locks : gmap lockid spinlock }.
#[export] Instance eta_mach : Eta mach :=
  mkEta _ (fun r => mkmach (m_lapicid r) (m_if r) (m_ncpu r) (m_cpus r) (m_locks r)).

(** ** Processes ([proc.h]) *)

Inductive procstate := UNUSED | EMBRYO | SLEEPING | RUNNABLE | RUNNING | ZOMBIE.
#[export] Instance procstate_eq_dec : EqDecision procstate.
Proof. solve_decision. Defined.

(** Wait channels: an integer cast to a pointer (0 is the null channel), the
    address of a process structure, or the address of another kernel object. *)
Inductive chan := CInt (z : Z) | CProc (i : nat) | CObj (name : string) (i : Z).
#[export] Instance chan_eq_dec : EqDecision chan.
Proof. solve_decision. Defined.

(** [struct trapframe] of [x86.h]. *)
Record trapframe := mktf {
  tf_edi : Z; tf_esi : Z; tf_ebp : Z; tf_oesp : Z;
  tf_ebx : Z; tf_edx : Z; tf_ecx : Z; tf_eax : Z;
  tf_gs : Z; tf_fs : Z; tf_es : Z; tf_ds : Z;
  tf_trapno : Z; tf_err : Z; tf_eip : Z; tf_cs : Z;
  tf_eflags : Z; tf_esp : Z; tf_ss : Z }.
#[export] Instance eta_trapframe : Eta trapframe :=
  mkEta _ (fun r => mktf (tf_edi r) (tf_esi r) (tf_ebp r) (tf_oesp r)
    (tf_ebx r) (tf_edx r) (tf_ecx r) (tf_eax r)
    (tf_gs r) (tf_fs r) (tf_es r) (tf_ds r)
    (tf_trapno r) (tf_err r) (tf_eip r) (tf_cs r)
    (tf_eflags r) (tf_esp r) (tf_ss r)).

Definition tf0 : trapframe := mktf 0 0 0 0 0 0 0 0 0 0 0 0 0 0 0 0 0 0 0.

(** [struct context]. *)
Record context := mkctx { x_edi : Z; x_esi : Z; x_ebx : Z; x_ebp : Z; x_eip : Z }.
#[export] Instance eta_context : Eta context :=
  mkEta _ (fun r => mkctx (x_edi r) (x_esi r) (x_ebx r) (x_ebp r) (x_eip r)).

Definition ctx0 : context := mkctx 0 0 0 0 0.

(** [struct proc].  [p_tf] and [p_context] are the structures the pointers of
    the same name lead to, on the process's kernel stack. *)
Record proc := mkproc {
  p_sz : Z;
  p_pgdir : Z;
  p_kstack : Z;
  p_state : procstate;
  p_pid : Z;
  p_parent : option nat;
  p_tf : trapframe;
  p_context : context;
  p_chan : chan;
  p_killed : Z;
  p_ofile : list (option nat);
  p_cwd : option nat;
  p_name : list Z;
  p_signalHandlers : list Z;
  p_pendingSignals : list Z;
  p_msg_from_multicast : list Z;
  p_container_id : Z }.
#[export] Instance eta_proc : Eta proc :=
  mkEta _ (fun r => mkproc (p_sz r) (p_pgdir r) (p_kstack r) (p_state r) (p_pid r)
    (p_parent r) (p_tf r) (p_context r) (p_chan r) (p_killed r) (p_ofile r)
    (p_cwd r) (p_name r) (p_signalHandlers r) (p_pendingSignals r)
    (p_msg_from_multicast r) (p_container_id r)).

(** A zero-initialised entry of the static process table. *)
Definition proc0 : proc :=
  mkproc 0 0 0 UNUSED 0 None tf0 ctx0 (CInt 0) 0 (replicate (Z.to_nat NOFILE) None) None
    (replicate 16 0) (replicate (Z.to_nat NSIG) 0) (replicate (Z.to_nat NSIG) 0)
    (replicate (Z.to_nat MessageSize) 0) 0.

(** ** Containers ([container_manager.c]) *)

Record container := mkcont {
  ct_status : Z;
  ct_proc : list Z;
  ct_runstate : Z;
  ct_last_process : Z;
  ct_space_mapping : list Z;
  ct_last_space : Z;
  ct_files : list Z;
  ct_last_file_index : Z }.
#[export] Instance eta_container : Eta container :=
  mkEta _ (fun r => mkcont (ct_status r) (ct_proc r) (ct_runstate r) (ct_last_process r)
    (ct_space_mapping r) (ct_last_space r) (ct_files r) (ct_last_file_index r)).

Definition cont0 : container :=
  mkcont 0 (replicate (Z.to_nat NPROC) 0) 0 0 (replicate 100 0) 0 (replicate 100 0) 0.

(** ** Message queues ([queue.c], [message.c]) *)

Record queue := mkqueue {
  q_size : Z;
  q_data : list Z;
  q_head : Z;
  q_tail : Z }.
#[export] Instance eta_queue : Eta queue :=
  mkEta _ (fun r => mkqueue (q_size r) (q_data r) (q_head r) (q_tail r)).

(** The static variables of [queue.c] and [message.c].  [mg_message_queue]
    holds the pointers into [temp_queue] that [createqueue] returned. *)
Record msgs := mkmsgs {
  mg_temp_queue : list queue;
  mg_count_q : Z;
  mg_message_queue : list (option nat);
  mg_message_buffer : list (list Z);
  mg_from_array : list Z;
  mg_free_message_buffer : Z }.
#[export] Instance eta_msgs : Eta msgs :=
  mkEta _ (fun r => mkmsgs (mg_temp_queue r) (mg_count_q r) (mg_message_queue r)
    (mg_message_buffer r) (mg_from_array r) (mg_free_message_buffer r)).

(** ** The console ([console.c]) *)

(** The line-editing input buffer. *)
Record consin := mkconsin { in_buf : list Z; in_r : Z; in_w : Z; in_e : Z }.
#[export] Instance eta_consin : Eta consin :=
  mkEta _ (fun r => mkconsin (in_buf r) (in_r r) (in_w r) (in_e r)).

Definition INPUT_BUF : Z := 128.

(** ** The file system ([buf.h], [file.h], [fs.h], [log.c], [sleeplock.h]) *)

Definition NFILE : Z := 100.
Definition NINODE : Z := 50.
Definition NDEV : Z := 10.
Definition ROOTDEV : Z := 1.
Definition MAXARG : Z := 32.
Definition MAXOPBLOCKS : Z := 10.
Definition LOGSIZE : Z := MAXOPBLOCKS * 3.
Definition NBUF : Z := MAXOPBLOCKS * 3.
Definition FSSIZE : Z := 1000.
Definition BSIZE : Z := 512.
Definition NDIRECT : Z := 12.

(** [struct sleeplock], without its name; the spinlock inside it is the lock
    of the same identifier. *)
Record sleeplock := mksleep { sl_locked : Z; sl_pid : Z }.
#[export] Instance eta_sleeplock : Eta sleeplock :=
  mkEta _ (fun r => mksleep (sl_locked r) (sl_pid r)).

(** [struct buf].  A pointer to a buffer is its index in [bcache.buf], and
    index [NBUF] is [&bcache.head]. *)
Record buf := mkbuf {
  b_flags : Z;
  b_dev : Z;
  b_blockno : Z;
  b_refcnt : Z;
  b_prev : Z;
  b_next : Z;
  b_qnext : option Z;
  b_data : list Z }.
#[export] Instance eta_buf : Eta buf :=
  mkEta _ (fun r => mkbuf (b_flags r) (b_dev r) (b_blockno r) (b_refcnt r)
    (b_prev r) (b_next r) (b_qnext r) (b_data r)).

Definition buf0 : buf := mkbuf 0 0 0 0 0 0 None (replicate (Z.to_nat BSIZE) 0).

(** [struct log] with its header. *)
Record log := mklog {
  lg_start : Z;
  lg_size : Z;
  lg_outstanding : Z;
  lg_committing : Z;
  lg_dev : Z;
  lh_n : Z;
  lh_block : list Z }.
#[export] Instance eta_log : Eta log :=
  mkEta _ (fun r => mklog (lg_start r) (lg_size r) (lg_outstanding r) (lg_committing r)
    (lg_dev r) (lh_n r) (lh_block r)).

Record superblock := mksb {
  sb_size : Z; sb_nblocks : Z; sb_ninodes : Z; sb_nlog : Z;
  sb_logstart : Z; sb_inodestart : Z; sb_bmapstart : Z }.
#[export] Instance eta_superblock : Eta superblock :=
  mkEta _ (fun r => mksb (sb_size r) (sb_nblocks r) (sb_ninodes r) (sb_nlog r)
    (sb_logstart r) (sb_inodestart r) (sb_bmapstart r)).

(** [struct inode] of the inode cache. *)
Record inode := mkinode {
  i_dev : Z;
  i_inum : Z;
  i_ref : Z;
  i_valid : Z;
  i_type : Z;
  i_major : Z;
  i_minor : Z;
  i_nlink : Z;
  i_size : Z;
  i_addrs : list Z;
  i_container_id : Z }.
#[export] Instance eta_inode : Eta inode :=
  mkEta _ (fun r => mkinode (i_dev r) (i_inum r) (i_ref r) (i_valid r) (i_type r) (i_major r)
    (i_minor r) (i_nlink r) (i_size r) (i_addrs r) (i_container_id r)).

Definition inode0 : inode := mkinode 0 0 0 0 0 0 0 0 0 (replicate (Z.to_nat (NDIRECT + 1)) 0) 0.

(** [struct file]; the pipe is its address, the inode an index or null. *)
Inductive ftype := FD_NONE | FD_PIPE | FD_INODE.
#[export] Instance ftype_eq_dec : EqDecision ftype.
Proof. solve_decision. Defined.

Record file := mkfile {
  f_type : ftype;
  f_ref : Z;
  f_readable : Z;
  f_writable : Z;
  f_pipe : Z;
  f_ip : option nat;
  f_off : Z }.
#[export] Instance eta_file : Eta file :=
  mkEta _ (fun r => mkfile (f_type r) (f_ref r) (f_readable r) (f_writable r) (f_pipe r) (f_ip r) (f_off r)).

Definition file0 : file := mkfile FD_NONE 0 0 0 0 None 0.

(** ** All global variables *)

Record kernel := mkkernel {
  k_mach : mach;
  k_mem : Z -> Z;                  (* bytes of the installed address space *)
  k_use_lock : Z;                  (* kmem.use_lock *)
  k_freelist : Z;                  (* kmem.freelist *)
  k_end : Z;                       (* end[], set by the linker *)
  k_data : Z;                      (* data[], set by the linker *)
  k_trapret : Z;                   (* trapret, of trapasm.S *)
  k_forkret : Z;                   (* forkret *)
  k_kpgdir : Z;
  k_cr3 : Z;                       (* page directory base register *)
  k_console : list Z;              (* characters passed to consputc, newest last *)
  k_cons_locking : Z;              (* cons.locking *)
  k_input : consin;
  k_proc : list proc;              (* ptable.proc *)
  k_initproc : option nat;
  k_nextpid : Z;
  k_scheduler_logger : Z;
  k_container : list container;    (* container_table.container *)
  k_current_container : Z;
  k_memory_log : list Z;
  k_msgs : msgs;
  k_ticks : Z;
  k_sys_trace : Z;
  k_syscall_trace : list Z;
  k_sleep : gmap lockid sleeplock; (* the sleep locks *)
  k_buf : list buf;                (* bcache.buf, then bcache.head *)
  k_idequeue : option Z;
  k_havedisk1 : Z;
  k_disksize : Z;                  (* disksize of memide.c *)
  k_disk : list (list Z);          (* the blocks of disk 1 *)
  k_dtrace : list (Z * list Z);    (* the blocks written to it, newest last *)
  k_ports : list (Z * Z);          (* values written to I/O ports, newest last *)
  k_log : log;
  k_sb : superblock;
  k_inode : list inode;            (* icache.inode *)
  k_file : list file;              (* ftable.file *)
  k_devsw : list bool;             (* which entries of devsw hold the console's functions *)
  k_kbd_shift : Z }.               (* shift of kbdgetc *)
#[export] Instance eta_kernel : Eta kernel :=
  mkEta _ (fun r => mkkernel (k_mach r) (k_mem r) (k_use_lock r) (k_freelist r) (k_end r) (k_data r)
    (k_trapret r) (k_forkret r) (k_kpgdir r) (k_cr3 r)
    (k_console r) (k_cons_locking r) (k_input r) (k_proc r) (k_initproc r) (k_nextpid r) (k_scheduler_logger r)
    (k_container r) (k_current_container r) (k_memory_log r) (k_msgs r)
    (k_ticks r) (k_sys_trace r) (k_syscall_trace r) (k_sleep r) (k_buf r) (k_idequeue r) (k_havedisk1 r)
    (k_disksize r) (k_disk r) (k_dtrace r) (k_ports r) (k_log r) (k_sb r) (k_inode r) (k_file r) (k_devsw r)
    (k_kbd_shift r)).

(** The variables as the loader leaves them: zero, but for [nextpid], with one
    CPU described by the MP tables; [e] is the linker's [end], and the
    addresses of data and code are some of the kernel image. *)
Definition msgs0 : msgs :=
  mkmsgs (replicate (Z.to_nat NUMOFMESSAGEQUEUES)
            (mkqueue 0 (replicate (Z.to_nat NUMOFMESSAGEBUFFERS) 0) 0 0))
    0 (replicate (Z.to_nat NUMOFMESSAGEQUEUES) None)
    (replicate (Z.to_nat NUMOFMESSAGEBUFFERS) (replicate (Z.to_nat MessageSize) 0))
    (replicate (Z.to_nat NUMOFMESSAGEBUFFERS) 0) 0.

Definition kernel0 (e : Z) : kernel :=
  mkkernel (mkmach 0 false 1 [mkcpu 0 0 false None] ∅) (fun _ => 0) 0 0 e 0x80108000
    0x80105000 0x80103000 0 0 []
    0 (mkconsin (replicate (Z.to_nat INPUT_BUF) 0) 0 0 0)
    (replicate (Z.to_nat NPROC) proc0) None 1 0
    (replicate (Z.to_nat NCONTAINER) cont0) 0 (replicate (Z.to_nat NCONTAINER) 0)
    msgs0 0 0 (replicate 45 0)
    ∅ (replicate (Z.to_nat (NBUF + 1)) buf0) None 0 0 [] [] []
    (mklog 0 0 0 0 0 0 (replicate (Z.to_nat LOGSIZE) 0)) (mksb 0 0 0 0 0 0 0)
    (replicate (Z.to_nat NINODE) inode0) (replicate (Z.to_nat NFILE) file0)
    (replicate (Z.to_nat NDEV) false) 0.

(** Kernel code. *)
Abbreviation K := (M kernel).

(** [kst k mc]: [k] with the processor and the locks as in [mc]. *)
Definition kst (k : kernel) (mc : mach) : kernel := k <| k_mach := mc |>.

(** A value written to an I/O port. *)
Definition outb (port v : Z) : K unit := modify (fun k => k <| k_ports ::= fun o => o ++ [(port, v)] |>).

(** How many rounds a loop that depends on the outside world, by sleeping or by
    reading a device, is followed before its run is cut off. *)
Class Fuel := wakeups : nat.

(** The devices: a byte or a word read from an I/O port. *)
Class Ports := mkPorts { inb : Z -> K Z; ind : Z -> K Z }.

(** [ksimpl] reads fields of updated kernels. *)
Ltac ksimpl :=
  repeat first
    [ match goal with
      | |- context [k_mach (kst ?k ?mc)] => subst_conv (k_mach (kst k mc)) mc
      | |- context [?p (kst ?k ?mc)] => is_const p; subst_conv (p (kst k mc)) (p k)
      | |- context [?p (@upd _ _ ?q _ ?f ?r)] => is_const p; rsimpl_term p q f r
      end ].

(** Normal form of an updated kernel: the machine outermost, then one update
    per field in a fixed order of the fields. *)
Ltac field_rank p :=
  lazymatch p with
  | k_console => constr:(1) | k_mem => constr:(2) | k_freelist => constr:(3)
  | k_use_lock => constr:(4) | k_input => constr:(5) | k_cons_locking => constr:(6)
  | k_proc => constr:(7) | k_initproc => constr:(8) | k_nextpid => constr:(9)
  | k_scheduler_logger => constr:(10) | k_container => constr:(11)
  | k_current_container => constr:(12) | k_memory_log => constr:(13) | k_msgs => constr:(14)
  | k_kpgdir => constr:(18) | k_cr3 => constr:(19)
  | k_ticks => constr:(15) | k_sys_trace => constr:(16) | k_syscall_trace => constr:(17)
  | k_sleep => constr:(20) | k_buf => constr:(21) | k_idequeue => constr:(22)
  | k_havedisk1 => constr:(23) | k_disksize => constr:(24) | k_disk => constr:(25)
  | k_dtrace => constr:(26) | k_ports => constr:(27) | k_log => constr:(28) | k_sb => constr:(29)
  | k_inode => constr:(30) | k_file => constr:(31) | k_devsw => constr:(32) | k_kbd_shift => constr:(33)
  end.
Ltac knorm_step :=
  match goal with
  | |- context [kst (kst ?k ?a) ?b] => subst_conv (kst (kst k a) b) (kst k b)
  | |- context [@upd kernel _ ?q ?i ?f (kst ?k ?mc)] =>
      subst_conv (@upd kernel _ q i f (kst k mc)) (kst (@upd kernel _ q i f k) mc)
  | |- context [@upd ?R ?F ?q ?i ?f (@upd ?R ?F ?q ?j ?g ?r)] => rewrite (@upd_upd R F q i f g r)
  | |- context [@upd kernel ?F ?p ?i ?f (@upd kernel ?G ?q ?j ?g ?r)] =>
      let rp := field_rank p in let rq := field_rank q in
      let b := eval compute in (rq <? rp) in
      lazymatch b with
      | true => subst_conv (@upd kernel F p i f (@upd kernel G q j g r))
                           (@upd kernel G q j g (@upd kernel F p i f r))
      end
  end.
Ltac knorm := repeat knorm_step; ksimpl.
