(* ===== verification/Spinlock.v ===== *)
(** * Spinlocks and the interrupt-disable stack ([spinlock.c], [proc.c])

    [acquire] and [release] with their nested [pushcli]/[popcli], [mycpu],
    [cpuid], [myproc] and [holding].  The lemmas summarise a critical section
    by two functions on the machine: [acq l mc] is the machine after
    [acquire(l)], and [settle mc] the machine after the matching [release]. *)

From S2P Require Import Prelude State.
Open Scope Z_scope.

(** ** The code *)

Definition lock0 : spinlock := mklock "unnamed" false None.

Definition lock_of (l : lockid) (mc : mach) : spinlock := default lock0 (m_locks mc !! l).

Definition set_lock (l : lockid) (lk : spinlock) : K unit :=
  modify (fun k => k <| k_mach ::= fun mc => mc <| m_locks ::= <[l := lk]> |> |>).

Definition readeflags_if : K bool := gets (fun k => m_if (k_mach k)).
Definition cli : K unit := modify (fun k => k <| k_mach ::= fun mc => mc <| m_if := false |> |>).
Definition sti : K unit := modify (fun k => k <| k_mach ::= fun mc => mc <| m_if := true |> |>).

Definition mycpu : K Z :=
  fl ← readeflags_if;
  if (fl : bool) then panic "mycpu called with interrupts enabled"
  else
    mc ← gets k_mach;
    r ← for_ (Z.to_nat (m_ncpu mc)) 0 (fun i =>
      c ← rd "cpus" (m_cpus mc) i;
      mret (if c_apicid c =? m_lapicid mc then Some i else None));
    match r with Some i => mret i | None => panic "unknown apicid" end.

Definition cpuid : K Z := mycpu.

Definition cpu_at (i : Z) : K cpu := mc ← gets k_mach; rd "cpus" (m_cpus mc) i.
Definition cpu_set (i : Z) (c : cpu) : K unit :=
  mc ← gets k_mach;
  cs ← wr "cpus" (m_cpus mc) i c;
  modify (fun k => k <| k_mach ::= fun mc => mc <| m_cpus := cs |> |>).

Definition pushcli : K unit :=
  eflags ← readeflags_if;
  cli ;;;
  i ← mycpu;
  c ← cpu_at i;
  when (c_ncli c =? 0) (cpu_set i (c <| c_intena := eflags |>)) ;;;
  i ← mycpu;
  c ← cpu_at i;
  cpu_set i (c <| c_ncli ::= Z.add 1 |>).

Definition popcli : K unit :=
  fl ← readeflags_if;
  if (fl : bool) then panic "popcli - interruptible"
  else
    i ← mycpu;
    c ← cpu_at i;
    cpu_set i (c <| c_ncli ::= Z.pred |>) ;;;
    c ← cpu_at i;
    if c_ncli c <? 0 then panic "popcli"
    else when ((c_ncli c =? 0) && c_intena c) sti.

Definition myproc : K (option nat) :=
  pushcli ;;;
  i ← mycpu;
  c ← cpu_at i;
  popcli ;;;
  mret (c_proc c).

Definition holding (l : lockid) : K bool :=
  pushcli ;;;
  mc ← gets k_mach;
  i ← mycpu;
  popcli ;;;
  mret (lk_locked (lock_of l mc) && bool_decide (lk_cpu (lock_of l mc) = Some i)).

Definition initlock (l : lockid) (name : string) : K unit :=
  set_lock l (mklock name false None).

Definition acquire (l : lockid) : K unit :=
  pushcli ;;;
  h ← holding l;
  if (h : bool) then panic "acquire"
  else
    mc ← gets k_mach;
    let lk := lock_of l mc in
    if lk_locked lk then spin l.1
    else
      set_lock l (lk <| lk_locked := true |>) ;;;
      i ← mycpu;
      mc ← gets k_mach;
      set_lock l ((lock_of l mc) <| lk_cpu := Some i |>).

Definition release (l : lockid) : K unit :=
  h ← holding l;
  if negb h then panic "release"
  else
    mc ← gets k_mach;
    set_lock l ((lock_of l mc) <| lk_cpu := None |>) ;;;
    mc ← gets k_mach;
    set_lock l ((lock_of l mc) <| lk_locked := false |>) ;;;
    popcli.

(** ** The machine after each step *)

(** The executing CPU: the first one whose APIC id is the local one. *)
Definition cpu_of (mc : mach) : option Z :=
  scan (fun i => match aget (m_cpus mc) i with
                 | Some c => if c_apicid c =? m_lapicid mc then Some i else None
                 | None => None
                 end) (Z.to_nat (m_ncpu mc)) 0.

(** The executing CPU's index and structure exist, its nesting depth is not
    negative, and interrupts are off inside a [pushcli] section. *)
Definition on_cpu (mc : mach) (i : Z) (c : cpu) : Prop :=
  m_ncpu mc <= alen (m_cpus mc) /\ cpu_of mc = Some i /\ aget (m_cpus mc) i = Some c.

Definition mach_ok (mc : mach) : Prop :=
  exists i c, on_cpu mc i c /\ 0 <= c_ncli c /\ (0 < c_ncli c -> m_if mc = false).

Definition upd_cpu (i : Z) (c : cpu) (mc : mach) : mach :=
  mc <| m_cpus ::= <[Z.to_nat i := c]> |>.

(** Apply [f] to the executing CPU. *)
Definition at_cpu (mc : mach) (f : Z -> cpu -> mach) : mach :=
  match cpu_of mc with
  | Some i => match aget (m_cpus mc) i with Some c => f i c | None => mc end
  | None => mc
  end.

Definition push (mc : mach) : mach :=
  at_cpu mc (fun i c =>
    upd_cpu i (c <| c_intena := if c_ncli c =? 0 then m_if mc else c_intena c |>
                 <| c_ncli ::= Z.add 1 |>) (mc <| m_if := false |>)).

(** [settle mc]: [mc] after a balanced [pushcli]/[popcli] pair.  Outside any
    section the saved interrupt flag is refreshed; inside one nothing changes. *)
Definition settle (mc : mach) : mach :=
  at_cpu mc (fun i c =>
    if c_ncli c =? 0 then upd_cpu i (c <| c_intena := m_if mc |>) mc else mc).

Definition acq (l : lockid) (mc : mach) : mach :=
  (push mc) <| m_locks ::= <[l := mklock (lk_name (lock_of l mc)) true (cpu_of mc)]> |>.

(** An initialised lock nobody holds. *)
Definition lock_free (l : lockid) (mc : mach) : Prop :=
  exists nm, m_locks mc !! l = Some (mklock nm false None).

(** ** Steps of the code as steps of the machine *)

Section mach_facts.
Implicit Types (mc : mach) (k : kernel) (i : Z) (c : cpu) (l : lockid).

Lemma kst_mach k mc : k_mach (kst k mc) = mc.
Proof. reflexivity. Qed.

Lemma kst_twice k mc mc' : kst (kst k mc) mc' = kst k mc'.
Proof. reflexivity. Qed.

Lemma kst_id k : kst k (k_mach k) = k.
Proof. by destruct k. Qed.

Lemma cpu_of_upd mc i c c' :
  aget (m_cpus mc) i = Some c -> c_apicid c' = c_apicid c ->
  cpu_of (upd_cpu i c' mc) = cpu_of mc.
Proof.
  intros Hi Ha. pose proof (aget_lt _ _ _ Hi) as Hlt.
  apply scan_ext. intros j _. simpl. rewrite aget_insert by done.
  case_decide as Hij; [|done]. subst j. by rewrite Hi, Ha.
Qed.

Lemma on_cpu_upd mc i c c' :
  on_cpu mc i c -> c_apicid c' = c_apicid c -> on_cpu (upd_cpu i c' mc) i c'.
Proof.
  intros (Hn & Hc & Hi) Ha. pose proof (aget_lt _ _ _ Hi) as Hlt. split_and!.
  - simpl. by rewrite alen_insert.
  - by erewrite cpu_of_upd.
  - simpl. by apply aget_insert_eq.
Qed.

Lemma on_cpu_locks mc i c f : on_cpu (mc <| m_locks ::= f |>) i c <-> on_cpu mc i c.
Proof. done. Qed.

Lemma on_cpu_if mc i c b : on_cpu (mc <| m_if := b |>) i c <-> on_cpu mc i c.
Proof. done. Qed.

Lemma at_cpu_on mc i c f : on_cpu mc i c -> at_cpu mc f = f i c.
Proof. intros (_ & H1 & H2). unfold at_cpu. by rewrite H1, H2. Qed.

Lemma mycpu_ok k i c :
  m_if (k_mach k) = false -> on_cpu (k_mach k) i c -> mycpu k = Ret i k.
Proof.
  intros Hf (Hn & Hc & Hi). unfold mycpu. mstep. rewrite Hf. mstep.
  erewrite bind_Ret; [|apply for_scan with (f := fun i =>
    match aget (m_cpus (k_mach k)) i with
    | Some c => if c_apicid c =? m_lapicid (k_mach k) then Some i else None
    | None => None
    end)].
  - unfold cpu_of in Hc. by rewrite Hc.
  - intros j Hj. destruct (aget_is_Some (m_cpus (k_mach k)) j) as [c' Hc']; [lia|].
    run (rd_Some _ _ _ _ _ Hc'). by rewrite Hc'.
Qed.

Lemma cpu_at_ok k i c : on_cpu (k_mach k) i c -> cpu_at i k = Ret c k.
Proof. intros (_ & _ & Hi). unfold cpu_at. mstep. by apply rd_Some. Qed.

Lemma cpu_set_ok k i c c' :
  on_cpu (k_mach k) i c -> cpu_set i c' k = Ret tt (kst k (upd_cpu i c' (k_mach k))).
Proof.
  intros (_ & _ & Hi). unfold cpu_set. mstep.
  run wr_Some; [reflexivity|by eapply aget_lt].
Qed.

Lemma upd_cpu_id mc i c : aget (m_cpus mc) i = Some c -> upd_cpu i c mc = mc.
Proof.
  unfold aget, upd_cpu. destruct (0 <=? i); [|done]. intros Hi.
  destruct mc; cbn in *. unfold upd; cbn. f_equal. by apply list_insert_id.
Qed.

Lemma upd_cpu_twice mc i c c' : upd_cpu i c (upd_cpu i c' mc) = upd_cpu i c mc.
Proof.
  destruct mc. unfold upd_cpu, upd; cbn. f_equal. apply list_insert_insert_eq.
Qed.

Lemma push_on mc i c :
  on_cpu mc i c ->
  on_cpu (push mc) i (c <| c_intena := if c_ncli c =? 0 then m_if mc else c_intena c |>
                        <| c_ncli ::= Z.add 1 |>).
Proof.
  intros H. unfold push. rewrite (at_cpu_on _ _ _ _ H).
  by apply (on_cpu_upd (mc <| m_if := false |>) i c).
Qed.

Lemma pushcli_ok k :
  mach_ok (k_mach k) -> pushcli k = Ret tt (kst k (push (k_mach k))).
Proof.
  intros (i & c & Hon & Hn & Hif). unfold pushcli. mstep. mstep.
  run mycpu_ok; [|done|by apply on_cpu_if]. run cpu_at_ok; [|by apply on_cpu_if].
  unfold push. rewrite (at_cpu_on _ _ _ _ Hon).
  set (c1 := c <| c_intena := if c_ncli c =? 0 then m_if (k_mach k) else c_intena c |>).
  set (mc1 := upd_cpu i c1 ((k_mach k) <| m_if := false |>)).
  assert (Hon1 : on_cpu mc1 i c1) by by apply (on_cpu_upd ((k_mach k) <| m_if := false |>) i c).
  assert (Hw : when (c_ncli c =? 0) (cpu_set i (c <| c_intena := m_if (k_mach k) |>))
            (kst k ((k_mach k) <| m_if := false |>)) = Ret tt (kst k mc1)).
  { subst mc1 c1. destruct (c_ncli c =? 0) eqn:E; simpl.
    - by erewrite cpu_set_ok.
    - rewrite upd_cpu_id; [done|]. destruct Hon as (_ & _ & Hi). by destruct c. }
  run Hw. run mycpu_ok; [|done|exact Hon1]. run cpu_at_ok; [|exact Hon1].
  rewrite (cpu_set_ok _ i c1) by exact Hon1. f_equal. unfold kst at 2.
  subst mc1. by rewrite kst_mach, upd_cpu_twice.
Qed.

Lemma push_ok mc : mach_ok mc -> mach_ok (push mc).
Proof.
  intros (i & c & Hon & Hn & Hif). eexists i, _. split; [by apply push_on|].
  simpl. split; [lia|]. intros _. unfold push. by rewrite (at_cpu_on _ _ _ _ Hon).
Qed.

Lemma push_if mc : mach_ok mc -> m_if (push mc) = false.
Proof.
  intros (i & c & Hon & _). unfold push. by rewrite (at_cpu_on _ _ _ _ Hon).
Qed.

Lemma cpu_of_push mc : mach_ok mc -> cpu_of (push mc) = cpu_of mc.
Proof.
  intros (i & c & Hon & _). destruct (push_on _ _ _ Hon) as (_ & -> & _).
  by destruct Hon as (_ & -> & _).
Qed.

(** [popcli] inside any section entered by [pushcli]. *)
Lemma popcli_push k f mc :
  mach_ok mc -> k_mach k = (push mc) <| m_locks ::= f |> ->
  popcli k = Ret tt (kst k ((settle mc) <| m_locks ::= f |>)).
Proof.
  intros Hok Hk. pose proof (push_if _ Hok) as Hpif.
  destruct Hok as (i & c & Hon & Hn & Hif). pose proof (push_on _ _ _ Hon) as Hpon.
  unfold popcli. mstep. rewrite Hk. simpl. rewrite Hpif.
  run mycpu_ok; [|by rewrite Hk|rewrite Hk; by apply on_cpu_locks].
  run cpu_at_ok; [|rewrite Hk; by apply on_cpu_locks].
  run cpu_set_ok; [|rewrite Hk; by apply on_cpu_locks].
  match goal with |- context [upd_cpu i ?x _] => set (c' := x) end. rewrite Hk.
  run cpu_at_ok; [|eapply on_cpu_upd; [by apply on_cpu_locks|done]].
  unfold settle. rewrite (at_cpu_on _ _ _ _ Hon).
  unfold push. rewrite (at_cpu_on _ _ _ _ Hon). subst c'. simpl.
  replace (Z.pred (1 + c_ncli c)) with (c_ncli c) by lia.
  destruct (Z.ltb_spec (c_ncli c) 0); [lia|]. unfold when.
  assert (Hcs : aget (m_cpus mc) i = Some c) by apply Hon.
  destruct c as [ap n ie p], mc as [la fl nc cs lo]; cbn in *.
  unfold sti, modify, kst, upd_cpu, upd; cbn.
  replace (Z.pred (1 + n)) with n by lia. rewrite list_insert_insert_eq.
  destruct (Z.eqb_spec n 0); cbn.
  - by destruct fl.
  - unfold mret, M_ret. do 2 f_equal. rewrite Hif by lia. f_equal.
    apply list_insert_id. unfold aget in Hcs. by destruct (0 <=? i).
Qed.

Lemma settle_push mc : mach_ok mc -> settle (push mc) = push mc.
Proof.
  intros (i & c & Hon & Hn & _). unfold settle.
  rewrite (at_cpu_on _ _ _ _ (push_on _ _ _ Hon)). simpl.
  by destruct (Z.eqb_spec (1 + c_ncli c) 0); [lia|].
Qed.

Lemma settle_locks mc : m_locks (settle mc) = m_locks mc.
Proof.
  unfold settle, at_cpu. destruct (cpu_of mc); [|done].
  destruct (aget _ _); [|done]. by destruct (_ =? 0).
Qed.

Lemma settle_on mc i c :
  on_cpu mc i c -> exists c', on_cpu (settle mc) i c' /\ c_ncli c' = c_ncli c /\ c_proc c' = c_proc c.
Proof.
  intros Hon. unfold settle. rewrite (at_cpu_on _ _ _ _ Hon).
  destruct (_ =? 0); [|by eauto]. eexists. split; [by eapply on_cpu_upd|done].
Qed.

Lemma settle_ok mc : mach_ok mc -> mach_ok (settle mc).
Proof.
  intros (i & c & Hon & Hn & Hif). destruct (settle_on _ _ _ Hon) as (c' & Hon' & Hn' & _).
  exists i, c'. rewrite Hn'. split_and!; [done..|].
  intros Hlt. rewrite <- (Hif Hlt). unfold settle.
  rewrite (at_cpu_on _ _ _ _ Hon). by destruct (_ =? 0).
Qed.

Lemma settle_settle mc : mach_ok mc -> settle (settle mc) = settle mc.
Proof.
  intros (i & c & Hon & Hn & Hif). destruct (settle_on _ _ _ Hon) as (c' & Hon' & Hn' & _).
  unfold settle at 1. rewrite (at_cpu_on _ _ _ _ Hon'), Hn'. unfold settle in *.
  rewrite (at_cpu_on _ _ _ _ Hon) in *. destruct (_ =? 0); [|done].
  assert (Hc : c' = c <| c_intena := m_if mc |>).
  { destruct Hon' as (_ & _ & Hg), Hon as (_ & _ & Hi). simpl in Hg.
    rewrite aget_insert_eq in Hg by by eapply aget_lt. by injection Hg as <-. }
  subst c'. apply upd_cpu_twice.
Qed.

Lemma cpu_of_settle mc : mach_ok mc -> cpu_of (settle mc) = cpu_of mc.
Proof.
  intros (i & c & Hon & _). destruct (settle_on _ _ _ Hon) as (c' & (_ & -> & _) & _).
  by destruct Hon as (_ & -> & _).
Qed.

Lemma holding_ok k l :
  mach_ok (k_mach k) ->
  holding l k = Ret (lk_locked (lock_of l (k_mach k)) &&
                     bool_decide (lk_cpu (lock_of l (k_mach k)) = cpu_of (k_mach k)))
                    (kst k (settle (k_mach k))).
Proof.
  intros Hok. pose proof Hok as (i & c & Hon & Hn & Hif). unfold holding.
  run pushcli_ok; [|done]. mstep.
  run mycpu_ok; [|by apply push_if|by eapply push_on].
  erewrite bind_Ret; [|eapply (popcli_push _ id (k_mach k)); [done|by destruct (push _)]].
  rewrite !kst_mach. assert (lock_of l (push (k_mach k)) = lock_of l (k_mach k)) as ->.
  { unfold lock_of, push. by rewrite (at_cpu_on _ _ _ _ Hon). }
  destruct Hon as (_ & -> & _). unfold mret, M_ret. f_equal. unfold kst at 2.
  by destruct (settle (k_mach k)).
Qed.

Lemma push_locks mc : m_locks (push mc) = m_locks mc.
Proof.
  unfold push, at_cpu. destruct (cpu_of mc); [|done]. by destruct (aget _ _).
Qed.

Lemma lock_of_push mc l : lock_of l (push mc) = lock_of l mc.
Proof. unfold lock_of. by rewrite push_locks. Qed.

(** [acquire] of a free lock takes it and disables interrupts. *)
Lemma acquire_ok k l :
  mach_ok (k_mach k) -> lock_free l (k_mach k) ->
  acquire l k = Ret tt (kst k (acq l (k_mach k))).
Proof.
  intros Hok [nm Hl]. pose proof (push_ok _ Hok) as Hpok. unfold acquire.
  run pushcli_ok; [|done]. run holding_ok; [|done]. rewrite kst_mach, settle_push by done.
  rewrite lock_of_push. unfold lock_of at 1. rewrite Hl. simpl. mstep.
  rewrite !kst_mach, lock_of_push. unfold lock_of at 1. rewrite Hl. simpl. mstep.
  pose proof Hok as (i & c & Hon & _). pose proof (push_on _ _ _ Hon) as Hpon.
  run mycpu_ok; [|by apply push_if|by apply on_cpu_locks].
  mstep. unfold set_lock, modify, acq. f_equal.
  destruct Hon as (_ & -> & _). unfold lock_of. rewrite Hl. simpl.
  rewrite lookup_insert_eq. unfold kst, upd. simpl. do 2 f_equal.
  rewrite insert_insert_eq. done.
Qed.

(** [acquire] of a lock this CPU already holds panics. *)
Lemma acquire_held k l nm :
  mach_ok (k_mach k) -> m_locks (k_mach k) !! l = Some (mklock nm true (cpu_of (k_mach k))) ->
  acquire l k = Panic "acquire".
Proof.
  intros Hok Hl. pose proof (push_ok _ Hok) as Hpok. unfold acquire.
  run pushcli_ok; [|done]. run holding_ok; [|done]. rewrite kst_mach, lock_of_push.
  unfold lock_of. rewrite Hl, cpu_of_push by done. simpl. by rewrite bool_decide_true.
Qed.

(** [acquire] of a lock another CPU holds spins. *)
Lemma acquire_spin k l nm o :
  mach_ok (k_mach k) -> m_locks (k_mach k) !! l = Some (mklock nm true o) ->
  o <> cpu_of (k_mach k) -> acquire l k = Spin l.1.
Proof.
  intros Hok Hl Ho. pose proof (push_ok _ Hok) as Hpok. unfold acquire.
  run pushcli_ok; [|done]. run holding_ok; [|done]. rewrite kst_mach, lock_of_push.
  assert (Hlk : lock_of l (k_mach k) = mklock nm true o) by (unfold lock_of; by rewrite Hl).
  rewrite Hlk, cpu_of_push by done. simpl.
  rewrite bool_decide_false by done. mstep. rewrite kst_mach, settle_push by done.
  by rewrite lock_of_push, Hlk.
Qed.

Lemma push_upd_locks mc f : push (mc <| m_locks ::= f |>) = (push mc) <| m_locks ::= f |>.
Proof.
  unfold push, at_cpu. change (cpu_of (mc <| m_locks ::= f |>)) with (cpu_of mc).
  destruct (cpu_of mc); [|done]. simpl. by destruct (aget _ _).
Qed.

Lemma settle_upd_locks mc f :
  settle (mc <| m_locks ::= f |>) = (settle mc) <| m_locks ::= f |>.
Proof.
  unfold settle, at_cpu. change (cpu_of (mc <| m_locks ::= f |>)) with (cpu_of mc).
  destruct (cpu_of mc); [|done]. simpl. destruct (aget _ _); [|done]. by destruct (_ =? 0).
Qed.

Lemma acq_push mc l :
  acq l mc = (push mc) <| m_locks := <[l := mklock (lk_name (lock_of l mc)) true (cpu_of mc)]> (m_locks mc) |>.
Proof. unfold acq. rewrite <- (push_locks mc). reflexivity. Qed.

Lemma acq_ok mc l : mach_ok mc -> mach_ok (acq l mc).
Proof. intros H. destruct (push_ok _ H) as (i & c & ?). by exists i, c. Qed.

Lemma cpu_of_acq mc l : mach_ok mc -> cpu_of (acq l mc) = cpu_of mc.
Proof. intros H. by rewrite <- (cpu_of_push mc). Qed.

Lemma acq_locks mc l :
  m_locks (acq l mc) = <[l := mklock (lk_name (lock_of l mc)) true (cpu_of mc)]> (m_locks mc).
Proof. by rewrite acq_push. Qed.

Lemma settle_acq mc l : mach_ok mc -> settle (acq l mc) = acq l mc.
Proof.
  intros H. unfold acq. by rewrite settle_upd_locks, settle_push.
Qed.

Lemma lock_free_acq mc l l' : l <> l' -> lock_free l' mc -> lock_free l' (acq l mc).
Proof. intros Hne [nm H]. exists nm. by rewrite acq_locks, lookup_insert_ne. Qed.

Lemma lock_free_settle mc l : lock_free l mc -> lock_free l (settle mc).
Proof. intros [nm H]. exists nm. by rewrite settle_locks. Qed.

(** [release] of a lock held by this CPU inside a [pushcli] section. *)
Lemma release_gen k l mc f nm :
  mach_ok mc -> k_mach k = (push mc) <| m_locks ::= f |> ->
  f (m_locks mc) !! l = Some (mklock nm true (cpu_of mc)) ->
  release l k =
    Ret tt (kst k ((settle mc) <| m_locks := <[l := mklock nm false None]> (f (m_locks mc)) |>)).
Proof.
  intros Hok Hk Hl.
  assert (Hok' : mach_ok ((push mc) <| m_locks ::= f |>)).
  { destruct (push_ok _ Hok) as (i & c & ?). by exists i, c. }
  assert (Hset : settle ((push mc) <| m_locks ::= f |>) = (push mc) <| m_locks ::= f |>).
  { by rewrite settle_upd_locks, settle_push. }
  assert (Hlk : lock_of l ((push mc) <| m_locks ::= f |>) = mklock nm true (cpu_of mc)).
  { unfold lock_of. simpl. by rewrite push_locks, Hl. }
  unfold release. run holding_ok; [|by rewrite Hk]. rewrite Hk, Hlk, Hset. simpl.
  rewrite bool_decide_true by (symmetry; by apply cpu_of_push). simpl.
  mstep. mstep. mstep. mstep.
  erewrite (popcli_push _ (fun _ => <[l := mklock nm false None]> (f (m_locks mc))) mc); [|done|].
  - f_equal.
  - simpl. rewrite Hlk. unfold lock_of. simpl. rewrite lookup_insert_eq. simpl.
    req. cbn. by rewrite insert_insert_eq, push_locks.
Qed.

Lemma release_acq k l mc :
  mach_ok mc -> lock_free l mc -> k_mach k = acq l mc ->
  release l k = Ret tt (kst k (settle mc)).
Proof.
  intros Hok [nm Hl] Hk.
  rewrite (release_gen _ l mc _ nm Hok Hk).
  - do 2 f_equal. rewrite insert_insert_eq, insert_id by done.
    rewrite <- (settle_locks mc). by destruct (settle mc).
  - rewrite lookup_insert_eq. unfold lock_of. by rewrite Hl.
Qed.

(** Releasing the outer of two locks leaves the inner one held. *)
Lemma release_outer k a b mc :
  mach_ok mc -> lock_free a mc -> a <> b -> k_mach k = acq b (acq a mc) ->
  release a k = Ret tt (kst k (acq b (settle mc))).
Proof.
  intros Hok [nm Hl] Hab Hk. pose proof (push_ok _ Hok) as Hpok.
  assert (Hk' : k_mach k = (push (push mc)) <| m_locks ::= fun _ => m_locks (k_mach k) |>).
  { rewrite Hk, (acq_push (acq a mc)), (acq_push mc). simpl.
    rewrite (push_upd_locks (push mc)). reflexivity. }
  rewrite (release_gen _ a (push mc) _ nm Hpok Hk').
  - rewrite settle_push by done. do 2 f_equal.
    rewrite Hk, acq_locks, acq_locks, (acq_push (settle mc)), settle_locks.
    assert (push (settle mc) = push mc) as ->.
    { pose proof Hok as (i & c & Hon & Hn & Hif). unfold settle.
      rewrite (at_cpu_on _ _ _ _ Hon). destruct (Z.eqb_spec (c_ncli c) 0) as [E|]; [|done].
      assert (Hon' : on_cpu (upd_cpu i (c <| c_intena := m_if mc |>) mc) i
                       (c <| c_intena := m_if mc |>)) by by eapply on_cpu_upd.
      unfold push. rewrite (at_cpu_on _ _ _ _ Hon'), (at_cpu_on _ _ _ _ Hon). simpl. rewrite E. simpl.
      unfold upd_cpu, upd; simpl. f_equal. by rewrite list_insert_insert_eq. }
    rewrite cpu_of_acq, cpu_of_settle by done. unfold lock_of.
    rewrite settle_locks, acq_locks, lookup_insert_ne by done.
    unfold upd; simpl. f_equal.
    rewrite insert_insert_ne by done. rewrite insert_insert_eq, (insert_id (m_locks mc)) by done.
    done.
  - rewrite Hk, acq_locks, lookup_insert_ne by done.
    rewrite acq_locks, lookup_insert_eq, cpu_of_push by done. unfold lock_of. by rewrite Hl.
Qed.

(** [release] of a lock this CPU does not hold panics. *)
Lemma release_free k l :
  mach_ok (k_mach k) -> lock_free l (k_mach k) -> release l k = Panic "release".
Proof.
  intros Hok [nm Hl]. unfold release. run holding_ok; [|done].
  assert (lock_of l (k_mach k) = mklock nm false None) as -> by (unfold lock_of; by rewrite Hl).
  done.
Qed.

Definition cur_proc mc : option nat :=
  match cpu_of mc with
  | Some i => match aget (m_cpus mc) i with Some c => c_proc c | None => None end
  | None => None
  end.

Lemma myproc_ok k :
  mach_ok (k_mach k) -> myproc k = Ret (cur_proc (k_mach k)) (kst k (settle (k_mach k))).
Proof.
  intros Hok. pose proof Hok as (i & c & Hon & Hn & Hif). unfold myproc.
  run pushcli_ok; [|done].
  run mycpu_ok; [|by apply push_if|by eapply push_on].
  run cpu_at_ok; [|by eapply push_on].
  erewrite bind_Ret; [|eapply (popcli_push _ id (k_mach k)); [done|by destruct (push _)]].
  unfold cur_proc. destruct Hon as (_ & -> & ->). unfold mret, M_ret. f_equal.
  unfold kst at 2. by destruct (settle (k_mach k)).
Qed.

Lemma cur_proc_settle mc : mach_ok mc -> cur_proc (settle mc) = cur_proc mc.
Proof.
  intros (i & c & Hon & _). destruct (settle_on _ _ _ Hon) as (c' & (_ & Hc & Hi) & _ & Hp).
  unfold cur_proc. destruct Hon as (_ & -> & ->). by rewrite Hc, Hi.
Qed.

Lemma cur_proc_acq mc l : mach_ok mc -> cur_proc (acq l mc) = cur_proc mc.
Proof.
  intros (i & c & Hon & _). destruct (push_on _ _ _ Hon) as (_ & Hc & Hi).
  unfold cur_proc. change (cpu_of (acq l mc)) with (cpu_of (push mc)).
  change (m_cpus (acq l mc)) with (m_cpus (push mc)). rewrite Hc, Hi.
  by destruct Hon as (_ & -> & ->).
Qed.
(** The nesting depth of the executing CPU. *)
Definition depth mc : Z :=
  match cpu_of mc with
  | Some i => match aget (m_cpus mc) i with Some c => c_ncli c | None => 0 end
  | None => 0
  end.

Lemma depth_on mc i c : on_cpu mc i c -> depth mc = c_ncli c.
Proof. intros (_ & H1 & H2). unfold depth. by rewrite H1, H2. Qed.

Lemma depth_acq mc l : mach_ok mc -> depth (acq l mc) = depth mc + 1.
Proof.
  intros (i & c & Hon & _). rewrite (depth_on _ _ _ Hon).
  erewrite (depth_on (acq l mc)); [|apply on_cpu_locks, push_on, Hon]. simpl. lia.
Qed.

Lemma depth_settle mc : mach_ok mc -> depth (settle mc) = depth mc.
Proof.
  intros (i & c & Hon & _). destruct (settle_on _ _ _ Hon) as (c' & Hon' & Hn & _).
  by rewrite (depth_on _ _ _ Hon), (depth_on _ _ _ Hon').
Qed.

(** Inside a section nothing is left to settle. *)
Lemma settle_inside mc : mach_ok mc -> depth mc <> 0 -> settle mc = mc.
Proof.
  intros (i & c & Hon & _) Hd. rewrite (depth_on _ _ _ Hon) in Hd. unfold settle.
  rewrite (at_cpu_on _ _ _ _ Hon). by destruct (Z.eqb_spec (c_ncli c) 0).
Qed.

(** A machine outside any section with the interrupt flag set to [b]. *)
Lemma set_if_ok mc b : mach_ok mc -> depth mc = 0 -> mach_ok (mc <| m_if := b |>).
Proof.
  intros (i & c & Hon & Hn & _) Hd. rewrite (depth_on _ _ _ Hon) in Hd. exists i, c.
  split_and!; [by apply on_cpu_if|done|lia].
Qed.

(** The interrupt flag saved by the outermost section. *)
Lemma intena_acq mc l i c :
  on_cpu mc i c -> c_ncli c = 0 -> exists c', on_cpu (acq l mc) i c' /\ c_intena c' = m_if mc /\ c_ncli c' = 1.
Proof.
  intros Hon Hn. eexists. split; [apply on_cpu_locks, push_on, Hon|]. simpl. by rewrite Hn.
Qed.

(** Overwriting the saved flag is as if the section had been entered with
    that flag. *)
Lemma intena_set mc l i c b :
  on_cpu mc i c -> c_ncli c = 0 ->
  exists c', on_cpu (acq l mc) i c' /\
    upd_cpu i (c' <| c_intena := b |>) (acq l mc) = acq l (mc <| m_if := b |>).
Proof.
  intros Hon Hn. eexists. split; [apply on_cpu_locks, push_on, Hon|].
  assert (Hon' : on_cpu (mc <| m_if := b |>) i c) by by apply on_cpu_if.
  unfold acq, push. rewrite (at_cpu_on _ _ _ _ Hon), (at_cpu_on _ _ _ _ Hon').
  change (cpu_of (mc <| m_if := b |>)) with (cpu_of mc).
  change (lock_of l (mc <| m_if := b |>)) with (lock_of l mc).
  destruct mc, c. unfold upd_cpu, upd. simpl in *. subst. simpl. f_equal.
  by rewrite list_insert_insert_eq.
Qed.
End mach_facts.

Create HintDb mach.
#[export] Hint Resolve acq_ok settle_ok push_ok lock_free_acq lock_free_settle : mach.
#[export] Hint Extern 1 (_ <> _) => first [done | congruence | intros [=]; lia] : mach.

(** Side conditions on the machine: it stays well-formed, other locks stay
    free. *)
Ltac mach := ksimpl; eauto 10 with mach.

(** ** Lock discipline *)

(** A lock the functions of [spinlock.c] have left: its CPU is recorded
    exactly while it is held. *)
Definition lock_wf (lk : spinlock) : bool :=
  if lk_locked lk then bool_decide (lk_cpu lk <> None) else bool_decide (lk_cpu lk = None).

(** Who holds a lock, seen from this machine. *)
Inductive holder := Nobody | ThisCpu | OtherCpu.
Definition holder_of (l : lockid) (mc : mach) : holder :=
  let lk := lock_of l mc in
  if negb (lk_locked lk) then Nobody
  else if bool_decide (lk_cpu lk = cpu_of mc) then ThisCpu else OtherCpu.

Lemma lock_free_of l mc :
  is_Some (m_locks mc !! l) -> lock_wf (lock_of l mc) = true -> lk_locked (lock_of l mc) = false ->
  lock_free l mc.
Proof.
  intros [[nm b o] Hl]. unfold lock_wf, lock_of. rewrite Hl. simpl. intros Hw ->.
  exists nm. by apply bool_decide_eq_true in Hw as ->.
Qed.

Lemma settle_if mc : m_if (settle mc) = m_if mc.
Proof.
  unfold settle, at_cpu. destruct (cpu_of mc); [|done].
  destruct (aget _ _); [|done]. by destruct (_ =? 0).
Qed.

(** C20. Mutual exclusion: on every state of the machine [acquire] gets through
    exactly when nobody holds the lock, and then this CPU holds it with
    interrupts off; it panics when this CPU holds the lock already and spins
    when another one does. *)
Theorem acquire_exclusive (k : kernel) (l : lockid) :
  mach_ok (k_mach k) -> is_Some (m_locks (k_mach k) !! l) ->
  lock_wf (lock_of l (k_mach k)) = true ->
  match holder_of l (k_mach k) with
  | Nobody => exists k', acquire l k = Ret tt k' /\ holder_of l (k_mach k') = ThisCpu /\
                m_if (k_mach k') = false /\ mach_ok (k_mach k')
  | ThisCpu => acquire l k = Panic "acquire"
  | OtherCpu => acquire l k = Spin l.1
  end.
Proof.
  intros Hok Hsome Hwf. unfold holder_of. destruct (lk_locked (lock_of l (k_mach k))) eqn:E; simpl.
  - destruct Hsome as [[nm b o] Hl]. revert E Hwf. unfold lock_wf, lock_of. rewrite Hl. simpl.
    intros -> _. case_bool_decide as Hc; subst.
    + by eapply acquire_held.
    + by eapply acquire_spin.
  - eexists. split; [apply acquire_ok; [done|by apply lock_free_of]|].
    rewrite kst_mach. unfold lock_of. rewrite acq_locks, lookup_insert_eq. simpl.
    rewrite bool_decide_true by (symmetry; by apply cpu_of_acq).
    split_and!; [done|by apply push_if|by apply acq_ok].
Qed.

(** Take the locks of a list in order and give them back in reverse. *)
Fixpoint nest (ls : list lockid) : K unit :=
  match ls with
  | [] => mret tt
  | l :: ls' => acquire l ;;; nest ls' ;;; release l
  end.

Lemma nest_run ls k :
  mach_ok (k_mach k) -> NoDup ls -> Forall (fun l => lock_free l (k_mach k)) ls ->
  nest ls k = Ret tt (match ls with [] => k | _ => kst k (settle (k_mach k)) end).
Proof.
  revert k. induction ls as [|l ls IH]; intros k Hok Hnd Hfree; simpl; [done|].
  apply NoDup_cons in Hnd as [Hnl Hnd]. apply Forall_cons in Hfree as [Hl Hfree].
  run acquire_ok; [|done..]. run IH; [|simpl; by auto with mach|done|].
  - rewrite kst_mach, settle_acq, kst_twice by done.
    assert (match ls with [] => kst k (acq l (k_mach k)) | _ => kst k (acq l (k_mach k)) end =
      kst k (acq l (k_mach k))) as -> by by destruct ls.
    by rewrite (release_acq _ _ (k_mach k)).
  - rewrite kst_mach. apply Forall_forall. intros l' Hl'. rewrite Forall_forall in Hfree.
    apply lock_free_acq; [by intros ->|auto].
Qed.

(** C21. Nested critical sections are balanced: after any nesting of distinct
    free locks every lock is free again, the interrupt flag is what it was and
    the rest of the kernel state is untouched. *)
Theorem nest_balanced (ls : list lockid) (k : kernel) :
  mach_ok (k_mach k) -> NoDup ls -> Forall (fun l => lock_free l (k_mach k)) ls ->
  exists mc, nest ls k = Ret tt (kst k mc) /\
    m_locks mc = m_locks (k_mach k) /\ m_if mc = m_if (k_mach k) /\ mach_ok mc.
Proof.
  intros Hok Hnd Hfree. rewrite nest_run by done. destruct ls as [|l ls].
  - exists (k_mach k). by rewrite kst_id.
  - exists (settle (k_mach k)). rewrite settle_locks, settle_if. auto with mach.
Qed.

(** A machine with two CPUs, running on the second, with two free locks and
    one held by the first CPU. *)
Definition mach_demo : mach :=
  mkmach 7 true 2 [mkcpu 3 0 false None; mkcpu 7 0 false None]
    (<[("a", 0) := mklock "a" false None]> (<[("b", 1) := mklock "b" false None]>
      {[("c", 2) := mklock "c" true (Some 0)]})).
Definition kernel_demo : kernel := (kernel0 0x80110000) <| k_mach := mach_demo |>.

Lemma mach_demo_ok : mach_ok mach_demo.
Proof. exists 1, (mkcpu 7 0 false None). by split_and!. Qed.

Lemma acquire_exclusive_witness :
  acquire ("c", 2) kernel_demo = Spin "c" /\
  exists k', acquire ("a", 0) kernel_demo = Ret tt k' /\ holder_of ("a", 0) (k_mach k') = ThisCpu /\
    m_if (k_mach k') = false /\ mach_ok (k_mach k').
Proof.
  split.
  - apply (acquire_exclusive kernel_demo ("c", 2)); [exact mach_demo_ok|by eexists|done].
  - apply (acquire_exclusive kernel_demo ("a", 0)); [exact mach_demo_ok|by eexists|done].
Defined.

Lemma nest_balanced_witness :
  exists mc, nest [("a", 0); ("b", 1)] kernel_demo = Ret tt (kst kernel_demo mc) /\
    m_locks mc = m_locks mach_demo /\ m_if mc = true /\ mach_ok mc.
Proof.
  apply (nest_balanced [("a", 0); ("b", 1)] kernel_demo); [exact mach_demo_ok| |].
  - by apply (bool_decide_unpack _).
  - apply Forall_cons. split; [by eexists|]. apply Forall_singleton. by eexists.
Defined.
