(* ===== verification/Queue.v ===== *)
(** * Ring buffers, and the message-number queue ([queue.c])

    The list held by a circular array: [ring N data head n] are the [n]
    elements that start at index [head] and wrap around at [N].  The message
    queues, the pipes, the console input buffer and Maekawa's request queues
    all store their contents this way.

    The bounded circular queue of message-buffer numbers.  Each operation
    works on one [queue] structure; [createqueue] hands out the entries of the
    static array [temp_queue].  The main theorem is a refinement: every
    sequence of operations on a created queue answers exactly like a bounded
    first-in first-out list. *)

From S2P Require Import Prelude State.
Open Scope Z_scope.

Section ring.
Context {A : Type} (N : Z).
Implicit Types (data : list A) (head : Z) (n : nat) (x : A).

(** Element [j] of the array, as a list of at most one element. *)
Definition cell data (j : Z) : list A :=
  match aget data j with Some x => [x] | None => [] end.

Fixpoint ring data head n : list A :=
  match n with
  | O => []
  | S n' => cell data (head mod N) ++ ring data (head + 1) n'
  end.

Lemma ring_S_end data head n :
  ring data head (S n) = ring data head n ++ cell data ((head + Z.of_nat n) mod N).
Proof.
  revert head. induction n as [|n IH]; intros head.
  - simpl. rewrite app_nil_r. by rewrite Z.add_0_r.
  - cbn [ring] in *. rewrite IH. rewrite <- app_assoc. do 4 f_equal. lia.
Qed.

Lemma ring_mod data head n : ring data (head mod N) n = ring data head n.
Proof.
  revert head. induction n as [|n IH]; intros head; [done|]. cbn [ring].
  rewrite Zmod_mod. f_equal. rewrite <- (IH (head mod N + 1)), <- (IH (head + 1)).
  by rewrite Zplus_mod_idemp_l.
Qed.

Context (HN : 0 < N).

Lemma ring_length data head n : alen data = N -> length (ring data head n) = n.
Proof.
  intros Hl. revert head. induction n as [|n IH]; intros head; [done|].
  cbn [ring]. rewrite length_app, IH. unfold cell.
  destruct (aget_is_Some data (head mod N)) as [x ->]; [|done].
  rewrite Hl. by apply Z.mod_pos_bound.
Qed.

(** Writing a cell outside the window leaves the contents alone. *)
Lemma ring_insert_out data head n i x :
  (forall j, (j < n)%nat -> (head + Z.of_nat j) mod N <> i) -> 0 <= i ->
  ring (<[Z.to_nat i := x]> data) head n = ring data head n.
Proof.
  revert head. induction n as [|n IH]; intros head Hout Hi; [done|]. cbn [ring].
  f_equal.
  - unfold cell. rewrite aget_insert_ne; [done|done|].
    intros E. apply (Hout O); [lia|]. rewrite E. f_equal. lia.
  - apply IH; [|done]. intros j Hj. replace (head + 1 + Z.of_nat j) with (head + Z.of_nat (S j)) by lia.
    apply Hout. lia.
Qed.

Lemma mod_window a b : 0 <= b - a < N -> a mod N = b mod N -> a = b.
Proof.
  intros Hb E. pose proof (Z.div_mod a N ltac:(lia)). pose proof (Z.div_mod b N ltac:(lia)).
  rewrite E in H. assert (b - a = N * (b / N - a / N)) by lia.
  assert (b / N - a / N = 0) by nia. lia.
Qed.

(** Appending at the tail of a window that is not full. *)
Lemma ring_snoc data head n x :
  alen data = N -> Z.of_nat n < N ->
  ring (<[Z.to_nat ((head + Z.of_nat n) mod N) := x]> data) head (S n) = ring data head n ++ [x].
Proof.
  intros Hl Hn. pose proof (Z.mod_pos_bound (head + Z.of_nat n) N HN) as Hb.
  rewrite ring_S_end. f_equal.
  - apply ring_insert_out; [|lia]. intros j Hj E.
    apply mod_window in E; lia.
  - unfold cell. by rewrite aget_insert_eq by lia.
Qed.

(** Taking the element at the head. *)
Lemma ring_uncons data head n x :
  aget data (head mod N) = Some x -> ring data head (S n) = x :: ring data (head + 1) n.
Proof. intros Hx. cbn [ring]. unfold cell. by rewrite Hx. Qed.
End ring.

(** ** The code *)

Definition createqueue : M msgs nat :=
  count ← gets mg_count_q;
  when (NUMOFMESSAGEQUEUES <=? count) (modify (fun g => g <| mg_count_q := 0 |>)) ;;;
  count ← gets mg_count_q;
  qs ← gets mg_temp_queue;
  q ← rd "temp_queue" qs count;
  qs' ← wr "temp_queue" qs count (q <| q_size := 0 |> <| q_tail := 0 |> <| q_head := 0 |>);
  modify (fun g => g <| mg_temp_queue := qs' |>) ;;;
  modify (fun g => g <| mg_count_q ::= Z.add 1 |>) ;;;
  mret (Z.to_nat count).

Definition isEmpty : M queue Z :=
  q ← get;
  mret (if q_size q =? 0 then 1 else 0).

Definition enqueue (a : Z) : M queue Z :=
  q ← get;
  if q_size q =? NUMOFMESSAGEBUFFERS then mret (-1)
  else
    data ← wr "queue.data" (q_data q) (q_tail q) a;
    modify (fun q => q <| q_data := data |>) ;;;
    modify (fun q => q <| q_tail := Z.rem (q_tail q + 1) NUMOFMESSAGEBUFFERS |>) ;;;
    modify (fun q => q <| q_size ::= Z.add 1 |>) ;;;
    mret 0.

Definition getQueueSize : M queue Z := gets q_size.

Definition dequeue : M queue Z :=
  e ← isEmpty;
  if negb (e =? 0) then mret (-1)
  else
    q ← get;
    a ← rd "queue.data" (q_data q) (q_head q);
    modify (fun q => q <| q_head := Z.rem (q_head q + 1) NUMOFMESSAGEBUFFERS |>) ;;;
    modify (fun q => q <| q_size ::= fun n => n - 1 |>) ;;;
    mret a.

Definition isFull : M queue Z :=
  q ← get;
  mret (if q_size q =? NUMOFMESSAGEBUFFERS then 1 else 0).

(** ** Well-formed queues and what they hold *)

Record queue_wf (q : queue) : Prop := {
  qwf_len : alen (q_data q) = NUMOFMESSAGEBUFFERS;
  qwf_size : 0 <= q_size q <= NUMOFMESSAGEBUFFERS;
  qwf_head : 0 <= q_head q < NUMOFMESSAGEBUFFERS;
  qwf_tail : q_tail q = (q_head q + q_size q) mod NUMOFMESSAGEBUFFERS }.

Definition contents (q : queue) : list Z :=
  ring NUMOFMESSAGEBUFFERS (q_data q) (q_head q) (Z.to_nat (q_size q)).

(** ** The specification: a bounded first-in first-out list *)

Inductive qop := Enq (a : Z) | Deq | Empty | Full | Size.

Definition spec_step (o : qop) (l : list Z) : Z * list Z :=
  match o with
  | Enq a => if alen l =? NUMOFMESSAGEBUFFERS then (-1, l) else (0, l ++ [a])
  | Deq => match l with [] => (-1, []) | x :: l' => (x, l') end
  | Empty => (if alen l =? 0 then 1 else 0, l)
  | Full => (if alen l =? NUMOFMESSAGEBUFFERS then 1 else 0, l)
  | Size => (alen l, l)
  end.

Definition code_step (o : qop) : M queue Z :=
  match o with
  | Enq a => enqueue a
  | Deq => dequeue
  | Empty => isEmpty
  | Full => isFull
  | Size => getQueueSize
  end.

(** The answers to a sequence of operations. *)
Fixpoint spec_run (os : list qop) (l : list Z) : list Z * list Z :=
  match os with
  | [] => ([], l)
  | o :: os =>
      let '(r, l1) := spec_step o l in
      let '(rs, l2) := spec_run os l1 in (r :: rs, l2)
  end.

Fixpoint code_run (os : list qop) : M queue (list Z) :=
  match os with
  | [] => mret []
  | o :: os => r ← code_step o; rs ← code_run os; mret (r :: rs)
  end.

(** ** Proofs *)

Section facts.
Implicit Types (q : queue) (a : Z).

Lemma NB_pos : 0 < NUMOFMESSAGEBUFFERS.
Proof. done. Qed.

Lemma contents_length q : queue_wf q -> alen (contents q) = q_size q.
Proof.
  intros [Hl Hs _ _]. unfold alen, contents. rewrite ring_length; [lia|done..].
Qed.

Lemma enqueue_full q a :
  q_size q = NUMOFMESSAGEBUFFERS -> enqueue a q = Ret (-1) q.
Proof. intros E. unfold enqueue. mstep. by rewrite E. Qed.

Lemma enqueue_ok q a :
  queue_wf q -> q_size q < NUMOFMESSAGEBUFFERS ->
  exists q', enqueue a q = Ret 0 q' /\ queue_wf q' /\ contents q' = contents q ++ [a] /\
    q_size q' = q_size q + 1.
Proof.
  intros [Hl Hs Hh Ht] Hlt. unfold enqueue. mstep.
  destruct (Z.eqb_spec (q_size q) NUMOFMESSAGEBUFFERS); [lia|].
  pose proof (Z.mod_pos_bound (q_head q + q_size q) _ NB_pos) as Hb.
  run wr_Some; [|lia]. mstep. mstep. mstep. eexists. split; [done|]. split_and!.
  - split; simpl; [by rewrite alen_insert|lia|lia|].
    rewrite Z.rem_mod_nonneg, Ht by (pose proof NB_pos; lia).
    rewrite Zplus_mod_idemp_l. f_equal. lia.
  - unfold contents. simpl. replace (Z.to_nat (1 + q_size q)) with (S (Z.to_nat (q_size q))) by lia.
    rewrite Ht. rewrite <- (ring_snoc _ NB_pos) by lia. by rewrite Z2Nat.id by lia.
  - simpl. lia.
Qed.

Lemma dequeue_empty q : q_size q = 0 -> dequeue q = Ret (-1) q.
Proof. intros E. unfold dequeue, isEmpty. mstep. by rewrite E. Qed.

Lemma dequeue_ok q :
  queue_wf q -> 0 < q_size q ->
  exists x q', dequeue q = Ret x q' /\ queue_wf q' /\ contents q = x :: contents q' /\
    q_size q' = q_size q - 1.
Proof.
  intros [Hl Hs Hh Ht] Hlt. unfold dequeue, isEmpty. mstep.
  destruct (Z.eqb_spec (q_size q) 0); [lia|]. simpl. mstep.
  destruct (aget_is_Some (q_data q) (q_head q)) as [x Hx]; [lia|].
  run (rd_Some _ _ _ _ _ Hx). mstep. mstep. eexists x, _. split; [done|].
  pose proof NB_pos. split_and!.
  - split; simpl; [done|lia| |].
    + rewrite Z.rem_mod_nonneg by lia. by apply Z.mod_pos_bound.
    + rewrite Z.rem_mod_nonneg, Zplus_mod_idemp_l by lia. rewrite Ht. f_equal. lia.
  - unfold contents. simpl. rewrite Z.rem_mod_nonneg, ring_mod by lia.
    replace (Z.to_nat (q_size q)) with (S (Z.to_nat (q_size q - 1))) by lia.
    apply ring_uncons. by rewrite Z.mod_small.
  - done.
Qed.

(** One operation: same answer, and the contents follow the specification. *)
Lemma step_sim q o :
  queue_wf q ->
  exists q', code_step o q = Ret (spec_step o (contents q)).1 q' /\ queue_wf q' /\
    contents q' = (spec_step o (contents q)).2.
Proof.
  intros Hwf. pose proof (contents_length _ Hwf) as Hlen. destruct o as [a| | | |]; simpl.
  - rewrite Hlen. destruct (Z.eqb_spec (q_size q) NUMOFMESSAGEBUFFERS) as [E|E].
    + exists q. by rewrite enqueue_full.
    + destruct (enqueue_ok q a Hwf) as (q' & H1 & H2 & H3 & _); [destruct Hwf; lia|].
      exists q'. by rewrite H1.
  - destruct (Z.eq_dec (q_size q) 0) as [E|E].
    + exists q. rewrite dequeue_empty by done. destruct (contents q); [done|].
      unfold alen in Hlen; simpl in Hlen; lia.
    + destruct (dequeue_ok q Hwf) as (x & q' & H1 & H2 & H3 & _); [destruct Hwf; lia|].
      exists q'. by rewrite H1, H3.
  - exists q. by rewrite Hlen.
  - exists q. by rewrite Hlen.
  - exists q. by rewrite Hlen.
Qed.

Lemma createqueue_ok g count q :
  0 <= mg_count_q g ->
  count = (if NUMOFMESSAGEQUEUES <=? mg_count_q g then 0 else mg_count_q g) ->
  aget (mg_temp_queue g) count = Some q ->
  createqueue g = Ret (Z.to_nat count)
    (g <| mg_temp_queue ::= <[Z.to_nat count := q <| q_size := 0 |> <| q_tail := 0 |> <| q_head := 0 |>]> |>
       <| mg_count_q := 1 + count |>).
Proof.
  intros Hc -> Hq. unfold createqueue. mstep.
  destruct (Z.leb_spec NUMOFMESSAGEQUEUES (mg_count_q g)); simpl; mstep; mstep; mstep;
    (run (rd_Some _ _ _ _ _ Hq)); (run wr_Some; [|by eapply aget_lt]); mstep; by mstep.
Qed.
End facts.

(** Every sequence of queue operations, started on a well-formed queue,
    terminates without a fault and gives the answers of a FIFO list bounded by
    [NUMOFMESSAGEBUFFERS], with the queue holding the list at the end. *)
Theorem queue_refines_fifo (os : list qop) (q : queue) :
  queue_wf q ->
  exists q', code_run os q = Ret (spec_run os (contents q)).1 q' /\ queue_wf q' /\
    contents q' = (spec_run os (contents q)).2.
Proof.
  revert q. induction os as [|o os IH]; intros q Hwf; simpl; [by exists q|].
  destruct (step_sim q o Hwf) as (q1 & H1 & Hwf1 & H2).
  destruct (spec_step o (contents q)) as [r l1]; simpl in *; subst l1.
  destruct (IH q1 Hwf1) as (q2 & H3 & Hwf2 & H4).
  destruct (spec_run os (contents q1)) as [rs l2]; simpl in *.
  exists q2. run H1. by run H3.
Qed.

Definition queue0 : queue := mkqueue 0 (replicate (Z.to_nat NUMOFMESSAGEBUFFERS) 0) 0 0.

Lemma queue0_wf : queue_wf queue0.
Proof. split; [by vm_compute|done..]. Qed.

Lemma queue_refines_fifo_witness :
  queue_wf queue0 /\
  exists q', code_run [Deq; Enq 7; Enq 9; Deq; Size; Empty] queue0 = Ret [-1; 0; 0; 7; 1; 0] q' /\
    queue_wf q' /\ contents q' = [9].
Proof.
  split; [exact queue0_wf|].
  exact (queue_refines_fifo [Deq; Enq 7; Enq 9; Deq; Size; Empty] queue0 queue0_wf).
Defined.
