(* ===== verification/CString.v ===== *)
(** * Memory and the string routines ([string.c], [x86.h])

    Memory is a function from addresses to bytes.  The routines of [string.c]
    are transcribed as functions on it; [memset] goes through the string
    instructions [rep stosl] and [rep stosb] exactly when the source does.
    The loops over a string of unknown length are bounded by the size of the
    address space, 2^32, counted in binary. *)

From S2P Require Import Prelude State.
Open Scope Z_scope.

Definition mem : Type := Z -> Z.

(** ** Loads and stores *)

Definition byte (v : Z) : Z := v mod 256.

Definition store8 (m : mem) (a v : Z) : mem := fun x => if x =? a then byte v else m x.

(** Byte [i] of the 32-bit word [v], little endian. *)
Definition wbyte (v i : Z) : Z := byte (Z.shiftr v (8 * i)).

Definition store32 (m : mem) (a v : Z) : mem := fun x =>
  if within a 4 x then wbyte v (x - a) else m x.

Definition load32 (m : mem) (a : Z) : Z :=
  m a + 2 ^ 8 * m (a + 1) + 2 ^ 16 * m (a + 2) + 2 ^ 24 * m (a + 3).

(** A memory all of whose cells hold a byte. *)
Definition mem_ok (m : mem) : Prop := forall a, 0 <= m a < 256.

(** ** The string instructions of [x86.h] *)

Definition stosb (m : mem) (addr data cnt : Z) : mem := fun x =>
  if within addr cnt x then byte data else m x.

Definition stosl (m : mem) (addr data cnt : Z) : mem := fun x =>
  if within addr (4 * cnt) x then wbyte data ((x - addr) mod 4) else m x.

(** ** [string.c] *)

Definition memset (m : mem) (dst c n : Z) : mem :=
  if (Z.rem (i32 dst) 4 =? 0) && (n mod 4 =? 0) then
    let c := Z.land c 0xFF in
    stosl m dst (Z.lor (Z.lor (Z.lor (Z.shiftl c 24) (Z.shiftl c 16)) (Z.shiftl c 8)) c) (n / 4)
  else stosb m dst c n.

Fixpoint memcmp_loop (m : mem) (s1 s2 : Z) (n : nat) : Z :=
  match n with
  | O => 0
  | S n' => if negb (m s1 =? m s2) then m s1 - m s2 else memcmp_loop m (s1 + 1) (s2 + 1) n'
  end.
Definition memcmp (m : mem) (v1 v2 n : Z) : Z := memcmp_loop m v1 v2 (Z.to_nat n).

(** [while (n-- > 0) *d++ = *s++;] *)
Fixpoint copy_up (m : mem) (d s : Z) (n : nat) : mem :=
  match n with
  | O => m
  | S n' => copy_up (store8 m d (m s)) (d + 1) (s + 1) n'
  end.
(** [while (n-- > 0) *--d = *--s;] *)
Fixpoint copy_down (m : mem) (d s : Z) (n : nat) : mem :=
  match n with
  | O => m
  | S n' => copy_down (store8 m (d - 1) (m (s - 1))) (d - 1) (s - 1) n'
  end.
Definition memmove (m : mem) (dst src n : Z) : mem :=
  if (src <? dst) && (dst <? src + n) then copy_down m (dst + n) (src + n) (Z.to_nat n)
  else copy_up m dst src (Z.to_nat n).

Definition memcpy (m : mem) (dst src n : Z) : mem := memmove m dst src n.

Fixpoint strncmp_loop (m : mem) (p q : Z) (n : nat) : Z :=
  match n with
  | O => 0
  | S n' =>
      if negb (m p =? 0) && (m p =? m q) then strncmp_loop m (p + 1) (q + 1) n'
      else m p - m q
  end.
Definition strncmp (m : mem) (p q n : Z) : Z := strncmp_loop m p q (Z.to_nat n).

(** [while (n-- > 0) *s++ = 0;] *)
Fixpoint zero_fill (m : mem) (s : Z) (n : nat) : mem :=
  match n with
  | O => m
  | S n' => zero_fill (store8 m s 0) (s + 1) n'
  end.
(** The copying loop; it hands the remaining count to the filling loop. *)
Fixpoint strncpy_loop (m : mem) (s t : Z) (n : nat) : mem :=
  match n with
  | O => m
  | S n' =>
      let c := m t in
      let m' := store8 m s c in
      if byte c =? 0 then zero_fill m' (s + 1) n' else strncpy_loop m' (s + 1) (t + 1) n'
  end.
Definition strncpy (m : mem) (s t n : Z) : mem := strncpy_loop m s t (Z.to_nat n).

Fixpoint safestrcpy_loop (m : mem) (s t : Z) (n : nat) : mem :=
  match n with
  | O => store8 m s 0
  | S n' =>
      let c := m t in
      let m' := store8 m s c in
      if byte c =? 0 then store8 m' (s + 1) 0 else safestrcpy_loop m' (s + 1) (t + 1) n'
  end.
Definition safestrcpy (m : mem) (s t n : Z) : mem :=
  if n <=? 0 then m else safestrcpy_loop m s t (Z.to_nat (n - 1)).

(** Count the bytes before the first NUL, looking at up to [fuel] of them. *)
Fixpoint strlen_loop (fuel : positive) (m : mem) (s n : Z) : Z + Z :=
  match fuel with
  | xH => if m (s + n) =? 0 then inr n else inl (n + 1)
  | xO p => match strlen_loop p m s n with
            | inl n' => strlen_loop p m s n'
            | r => r
            end
  | xI p => if m (s + n) =? 0 then inr n
            else match strlen_loop p m s (n + 1) with
                 | inl n' => strlen_loop p m s n'
                 | r => r
                 end
  end.
Definition strlen (m : mem) (s : Z) : option Z :=
  match strlen_loop (2 ^ 32) m s 0 with inr n => Some n | inl _ => None end.

(** ** Facts *)

(** The bytes [s], none of them NUL, stand at [p] and are followed by a NUL. *)
Definition cstr (m : mem) (p : Z) (s : list Z) : Prop :=
  Forall (fun c => c <> 0) s /\
  (forall i c, s !! i = Some c -> m (p + Z.of_nat i) = c) /\ m (p + alen s) = 0.

Section facts.
Implicit Types (m : mem).

Lemma byte_range v : 0 <= byte v < 256.
Proof. unfold byte. by apply Z.mod_pos_bound. Qed.

Lemma byte_id v : 0 <= v < 256 -> byte v = v.
Proof. intros H. unfold byte. by apply Z.mod_small. Qed.

Lemma store8_eq m a v : store8 m a v a = byte v.
Proof. unfold store8. by rewrite Z.eqb_refl. Qed.

Lemma store8_ne m a v x : x <> a -> store8 m a v x = m x.
Proof. intros H. unfold store8. by destruct (Z.eqb_spec x a). Qed.

Lemma store8_ok m a v : mem_ok m -> mem_ok (store8 m a v).
Proof. intros H x. unfold store8. destruct (x =? a); [apply byte_range|apply H]. Qed.

Lemma wbyte_shift v i : 0 <= i -> wbyte v i = v / 2 ^ (8 * i) mod 256.
Proof. intros H. unfold wbyte, byte. by rewrite Z.shiftr_div_pow2 by lia. Qed.

Lemma load32_store32 m a v : 0 <= v < 2 ^ 32 -> load32 (store32 m a v) a = v.
Proof.
  intros Hv. unfold load32, store32.
  rewrite !within_true by lia.
  rewrite !wbyte_shift by lia.
  replace (a - a) with 0 by lia. replace (a + 1 - a) with 1 by lia.
  replace (a + 2 - a) with 2 by lia. replace (a + 3 - a) with 3 by lia.
  change (2 ^ (8 * 0)) with 1. change (2 ^ (8 * 1)) with 256.
  change (2 ^ (8 * 2)) with 65536. change (2 ^ (8 * 3)) with 16777216.
  change (2 ^ 8) with 256. change (2 ^ 16) with 65536. change (2 ^ 24) with 16777216.
  change (2 ^ 32) with 4294967296 in Hv.
  dlia.
Qed.

Lemma store32_out m a v x : ~ (a <= x < a + 4) -> store32 m a v x = m x.
Proof. intros H. unfold store32. by rewrite within_false. Qed.

Lemma load32_store32_ne m a b v :
  a + 4 <= b \/ b + 4 <= a -> load32 (store32 m a v) b = load32 m b.
Proof. intros H. unfold load32. rewrite !store32_out by lia. done. Qed.

Lemma load32_range m a : mem_ok m -> 0 <= load32 m a < 2 ^ 32.
Proof.
  intros H. unfold load32.
  pose proof (H a). pose proof (H (a + 1)). pose proof (H (a + 2)). pose proof (H (a + 3)). lia.
Qed.

(** The word built by [memset] holds the byte four times. *)
Lemma splat_byte c i :
  0 <= i < 4 ->
  wbyte (Z.lor (Z.lor (Z.lor (Z.shiftl (Z.land c 255) 24) (Z.shiftl (Z.land c 255) 16))
           (Z.shiftl (Z.land c 255) 8)) (Z.land c 255)) i = byte c.
Proof.
  intros Hi. change 255 with (Z.ones 8). rewrite Z.land_ones by lia.
  change (c mod 2 ^ 8) with (byte c). pose proof (byte_range c) as Hb.
  generalize dependent (byte c). intros b Hb.
  assert (Hall : forallb (fun b => forallb (fun i =>
    wbyte (Z.lor (Z.lor (Z.lor (Z.shiftl b 24) (Z.shiftl b 16)) (Z.shiftl b 8)) b) i =? b)
    [0; 1; 2; 3]) (seqZ 0 256) = true) by by vm_compute.
  rewrite forallb_forall in Hall. specialize (Hall b).
  rewrite forallb_forall in Hall. apply Z.eqb_eq, Hall.
  - apply list_elem_of_In, elem_of_seqZ. lia.
  - simpl. lia.
Qed.

(** The two code paths of [memset] both fill the range with the low byte. *)
Lemma memset_fill m dst c n x :
  0 <= n -> memset m dst c n x = if within dst n x then byte c else m x.
Proof.
  intros Hn. unfold memset. destruct (_ && _) eqn:E; [|done].
  apply andb_true_iff in E as [_ E%Z.eqb_eq]. unfold stosl.
  replace (4 * (n / 4)) with n by dlia.
  destruct (within _ _ _); [|done]. apply splat_byte. by apply Z.mod_pos_bound.
Qed.

Lemma copy_up_spec m d s n x :
  mem_ok m -> ~ (s < d < s + Z.of_nat n) ->
  copy_up m d s n x = if within d (Z.of_nat n) x then m (x - d + s) else m x.
Proof.
  revert m d s. induction n as [|n IH]; intros m d s Hm Hov; cbn [copy_up].
  { by rewrite within_false by lia. }
  rewrite IH by (by apply store8_ok || lia).
  destruct (decide (x = d)) as [->|Hne].
  - rewrite within_false, within_true by lia.
    rewrite store8_eq, byte_id by apply Hm. f_equal. lia.
  - destruct (within_spec (d + 1) (Z.of_nat n) x), (within_spec d (Z.of_nat (S n)) x);
      try lia; rewrite store8_ne by lia; [f_equal; lia|done].
Qed.

Lemma copy_down_spec m d s n x :
  mem_ok m -> s <= d ->
  copy_down m d s n x =
    if within (d - Z.of_nat n) (Z.of_nat n) x then m (x - d + s) else m x.
Proof.
  revert m d s. induction n as [|n IH]; intros m d s Hm Hov; cbn [copy_down].
  { by rewrite within_false by lia. }
  rewrite IH by (by apply store8_ok || lia).
  destruct (decide (x = d - 1)) as [->|Hne].
  - rewrite within_false, within_true by lia.
    rewrite store8_eq, byte_id by apply Hm. f_equal. lia.
  - destruct (within_spec (d - 1 - Z.of_nat n) (Z.of_nat n) x),
      (within_spec (d - Z.of_nat (S n)) (Z.of_nat (S n)) x);
      try lia; rewrite store8_ne by lia; [f_equal; lia|done].
Qed.

Lemma strncmp_loop_zero m p q s t n :
  cstr m p s -> cstr m q t -> strncmp_loop m p q n = 0 <-> take n s = take n t.
Proof.
  revert p q s t. induction n as [|n IH]; intros p q s t (Hs0 & Hs & Hse) (Ht0 & Ht & Hte);
    cbn [strncmp_loop]; [done|].
  assert (Hp : m p = match s with [] => 0 | c :: _ => c end).
  { destruct s as [|c s]; [by rewrite <- Hse; f_equal; unfold alen; simpl; lia|].
    rewrite <- (Hs 0%nat c eq_refl). f_equal. lia. }
  assert (Hq : m q = match t with [] => 0 | c :: _ => c end).
  { destruct t as [|c t]; [by rewrite <- Hte; f_equal; unfold alen; simpl; lia|].
    rewrite <- (Ht 0%nat c eq_refl). f_equal. lia. }
  rewrite Hp, Hq. destruct s as [|c s], t as [|d t]; cbn [take].
  - done.
  - inversion_clear Ht0. simpl. split; [lia|done].
  - inversion_clear Hs0. destruct (Z.eqb_spec c 0); simpl; (split; [lia|done]).
  - inversion_clear Hs0 as [|? ? Hc0 Hs0']. inversion_clear Ht0 as [|? ? Hd0 Ht0'].
    destruct (Z.eqb_spec c d) as [->|Hcd]; cycle 1.
    { rewrite andb_false_r. split; [lia|]. intros [= ?]. done. }
    destruct (Z.eqb_spec d 0); [done|]. simpl. rewrite (IH _ _ s t).
    + split; congruence.
    + split_and!; [done| |].
      * intros i b Hi. rewrite <- (Hs (S i) b Hi). f_equal. lia.
      * rewrite <- Hse. f_equal. unfold alen. simpl. lia.
    + split_and!; [done| |].
      * intros i b Hi. rewrite <- (Ht (S i) b Hi). f_equal. lia.
      * rewrite <- Hte. f_equal. unfold alen. simpl. lia.
Qed.

Lemma cstr_nonzero m p s i : cstr m p s -> 0 <= i < alen s -> m (p + i) <> 0.
Proof.
  intros (Hn & Hs & _) Hi. unfold alen in Hi.
  destruct (lookup_lt_is_Some_2 s (Z.to_nat i)) as [c Hc]; [lia|].
  pose proof (Hs _ _ Hc) as E. rewrite Z2Nat.id in E by lia. rewrite E.
  by eapply (Forall_lookup_1 _ _ _ _ Hn).
Qed.

Lemma strlen_loop_ok m p s fuel n :
  cstr m p s -> 0 <= n <= alen s ->
  strlen_loop fuel m p n = if alen s <? n + Z.pos fuel then inr (alen s) else inl (n + Z.pos fuel).
Proof.
  intros Hs. pose proof Hs as (_ & _ & Hend).
  assert (Hhead : forall n, 0 <= n <= alen s -> (m (p + n) =? 0) = (n =? alen s)).
  { intros j Hj. destruct (Z.eqb_spec j (alen s)) as [->|].
    - by rewrite Hend.
    - apply Z.eqb_neq, (cstr_nonzero _ _ _ _ Hs). lia. }
  revert n. induction fuel as [fuel IH|fuel IH|]; intros n Hn; cbn [strlen_loop].
  - rewrite Hhead by done. destruct (Z.eqb_spec n (alen s)) as [->|].
    + by destruct (Z.ltb_spec (alen s) (alen s + Z.pos fuel~1)); [|lia].
    + rewrite IH by lia. destruct (Z.ltb_spec (alen s) (n + 1 + Z.pos fuel)).
      * by destruct (Z.ltb_spec (alen s) (n + Z.pos fuel~1)); [|lia].
      * rewrite IH by lia. replace (n + 1 + Z.pos fuel + Z.pos fuel) with (n + Z.pos fuel~1) by lia.
        done.
  - rewrite IH by lia. destruct (Z.ltb_spec (alen s) (n + Z.pos fuel)).
    + by destruct (Z.ltb_spec (alen s) (n + Z.pos fuel~0)); [|lia].
    + rewrite IH by lia. by replace (n + Z.pos fuel + Z.pos fuel) with (n + Z.pos fuel~0) by lia.
  - rewrite Hhead by done. destruct (Z.eqb_spec n (alen s)) as [->|].
    + by destruct (Z.ltb_spec (alen s) (alen s + 1)); [|lia].
    + by destruct (Z.ltb_spec (alen s) (n + 1)); [lia|].
Qed.

Lemma strlen_ok m p s : cstr m p s -> alen s < 2 ^ 32 -> strlen m p = Some (alen s).
Proof.
  intros Hs Hl. unfold strlen. rewrite (strlen_loop_ok m p s) by (done || (unfold alen; lia)).
  change (0 + Z.pos (2 ^ 32)) with (2 ^ 32). by destruct (Z.ltb_spec (alen s) (2 ^ 32)); [|lia].
Qed.

(** The same bytes at another place, or in another memory. *)
Lemma cstr_move m m' p q s :
  cstr m p s -> (forall i, 0 <= i <= alen s -> m' (q + i) = m (p + i)) -> cstr m' q s.
Proof.
  intros (Hn & Hs & He) Hm. split_and!; [done| |].
  - intros i c Hc. rewrite Hm; [by apply Hs|]. apply lookup_lt_Some in Hc. unfold alen. lia.
  - rewrite Hm; [done|]. unfold alen. lia.
Qed.

Lemma cstr_frame m m' p s :
  cstr m p s -> (forall i, 0 <= i <= alen s -> m' (p + i) = m (p + i)) -> cstr m' p s.
Proof. apply cstr_move. Qed.

Lemma cstr_cons m p c s : cstr m p (c :: s) <-> c <> 0 /\ m p = c /\ cstr m (p + 1) s.
Proof.
  unfold cstr. rewrite Forall_cons, alen_cons. split.
  - intros ((Hc & Hn) & Hs & He). split_and!; [done| |done| |].
    + rewrite <- (Hs 0%nat c eq_refl). f_equal. lia.
    + intros i b Hi. rewrite <- (Hs (S i) b Hi). f_equal. lia.
    + rewrite <- He. f_equal. lia.
  - intros (Hc & Hp & Hn & Hs & He). split_and!; [done..| |].
    + intros [|i] b Hi; simpl in Hi.
      * simplify_eq. f_equal. lia.
      * rewrite <- (Hs i b Hi). f_equal. lia.
    + rewrite <- He. f_equal. lia.
Qed.

Lemma cstr_nil m p : cstr m p [] <-> m p = 0.
Proof.
  unfold cstr. rewrite Z.add_0_r. split; [by intros (_ & _ & ?)|]. by intros ?.
Qed.

(** [strncpy] of a whole string with its NUL, to a place that does not
    overlap it. *)
Lemma strncpy_whole m a t s x :
  mem_ok m -> cstr m t s -> a + alen s < t \/ t + alen s < a ->
  strncpy m a t (alen s + 1) x = if within a (alen s + 1) x then m (x - a + t) else m x.
Proof.
  intros Hm Hs Hd. unfold strncpy.
  assert (Z.to_nat (alen s + 1) = S (length s)) as -> by (unfold alen; lia).
  revert m a t Hm Hs Hd. induction s as [|c s IH]; intros m a t Hm Hs Hd.
  - apply cstr_nil in Hs. change (alen (@nil Z)) with 0 in *. cbn. rewrite Hs.
    change (byte 0 =? 0) with true. cbv iota. unfold store8.
    destruct (Z.eqb_spec x a) as [->|Hx]; [rewrite within_true by lia|by rewrite within_false by lia].
    replace (a - a + t) with t by lia. by rewrite Hs.
  - apply cstr_cons in Hs as (Hc & Hmt & Hs). rewrite alen_cons in *. pose proof (alen_nonneg s).
    assert (strncpy_loop m a t (S (length (c :: s))) =
      if byte (m t) =? 0 then zero_fill (store8 m a (m t)) (a + 1) (length (c :: s))
      else strncpy_loop (store8 m a (m t)) (a + 1) (t + 1) (S (length s))) as -> by done.
    rewrite (byte_id (m t)) by apply Hm.
    destruct (Z.eqb_spec (m t) 0); [congruence|].
    rewrite IH; [|by apply store8_ok| |lia].
    + destruct (within_spec (a + 1) (alen s + 1) x) as [Hw|Hw].
      * rewrite within_true, store8_ne by lia. f_equal. lia.
      * unfold store8. destruct (Z.eqb_spec x a) as [->|].
        { rewrite within_true, byte_id by (apply Hm || lia). f_equal. lia. }
        by rewrite within_false by lia.
    + eapply cstr_frame; [done|]. intros i Hi. apply store8_ne. lia.
Qed.

(** Appending two characters by hand. *)
Lemma cstr_append2 m a s c d :
  cstr m a s -> 0 < c < 256 -> 0 < d < 256 ->
  cstr (store8 (store8 (store8 m (a + alen s) c) (a + alen s + 1) d) (a + alen s + 2) 0) a (s ++ [c; d]).
Proof.
  intros Hs Hc Hd. revert a m Hs. induction s as [|b s IH]; intros a m Hs.
  - change (alen (@nil Z)) with 0. rewrite Z.add_0_r. simpl. rewrite !cstr_cons, cstr_nil.
    rewrite (store8_ne _ _ _ a), (store8_ne _ _ _ a), store8_eq by lia.
    rewrite (store8_ne _ _ _ (a + 1)), store8_eq by lia.
    replace (a + 1 + 1) with (a + 2) by lia. rewrite store8_eq, !byte_id by lia.
    split_and!; done || lia.
  - apply cstr_cons in Hs as (Hb & Hma & Hs). rewrite alen_cons. simpl. apply cstr_cons.
    pose proof (alen_nonneg s). split_and!; [done| |].
    + by rewrite !store8_ne by lia.
    + replace (a + (1 + alen s)) with (a + 1 + alen s) by lia. by apply IH.
Qed.
Lemma store32_ok m a v : mem_ok m -> mem_ok (store32 m a v).
Proof. intros H x. unfold store32. case_match; [apply byte_range|apply H]. Qed.

Lemma memset_ok m dst c n : 0 <= n -> mem_ok m -> mem_ok (memset m dst c n).
Proof. intros Hn Hm a. rewrite memset_fill by done. destruct (within dst n a); [by apply Z.mod_pos_bound|apply Hm]. Qed.
End facts.

(** [memmove] copies [n] bytes as if through a temporary buffer: every
    destination byte gets the source byte the memory held before the call,
    also when the two ranges overlap, and no other byte changes. *)
Theorem memmove_as_if_buffered (m : mem) (dst src n x : Z) :
  mem_ok m -> 0 <= n ->
  memmove m dst src n x = if within dst n x then m (x - dst + src) else m x.
Proof.
  intros Hm Hn. unfold memmove.
  destruct (Z.ltb_spec src dst), (Z.ltb_spec dst (src + n)); simpl.
  2-4: by rewrite copy_up_spec, Z2Nat.id by (done || lia).
  rewrite copy_down_spec, Z2Nat.id by (done || lia).
  replace (dst + n - n) with dst by lia.
  destruct (within dst n x); [f_equal; lia|done].
Qed.

Lemma memmove_as_if_buffered_witness :
  mem_ok (fun a => a mod 256) /\ 0 <= 4 /\
  memmove (fun a => a mod 256) 12 10 4 13 = 11.
Proof.
  assert (Hm : mem_ok (fun a => a mod 256)) by (intros a; by apply Z.mod_pos_bound).
  split; [exact Hm|]. split; [done|].
  exact (memmove_as_if_buffered (fun a => a mod 256) 12 10 4 13 Hm ltac:(done)).
Defined.

Lemma memmove_ok m dst src n : 0 <= n -> mem_ok m -> mem_ok (memmove m dst src n).
Proof. intros Hn Hm a. rewrite memmove_as_if_buffered by done. destruct (within dst n a); apply Hm. Qed.

(** [strncmp] answers 0 on two NUL-terminated strings exactly when they
    agree on their first [n] characters. *)
Theorem strncmp_zero_iff (m : mem) (p q n : Z) (s t : list Z) :
  cstr m p s -> cstr m q t ->
  strncmp m p q n = 0 <-> take (Z.to_nat n) s = take (Z.to_nat n) t.
Proof. apply strncmp_loop_zero. Qed.

(** Memory with a list of bytes at an address, zero elsewhere. *)
Definition mem_at (p : Z) (s : list Z) (m : mem) : mem := fun x =>
  if within p (alen s) x then default 0 (aget s (x - p)) else m x.

Lemma mem_at_ok p s m : Forall (fun c => 0 <= c < 256) s -> mem_ok m -> mem_ok (mem_at p s m).
Proof.
  intros Hs Hm x. unfold mem_at. destruct (within_spec p (alen s) x); [|apply Hm].
  destruct (aget_is_Some s (x - p)) as [c Hc]; [lia|]. rewrite Hc. simpl.
  unfold aget in Hc. destruct (0 <=? x - p); [|done]. by eapply (Forall_lookup_1 _ _ _ _ Hs).
Qed.

Lemma mem_at_cstr p s m : Forall (fun c => c <> 0) s -> cstr (mem_at p (s ++ [0]) m) p s.
Proof.
  intros Hs. split_and!; [done| |].
  - intros i c Hi. pose proof (lookup_lt_Some _ _ _ Hi). unfold mem_at.
    rewrite within_true by (rewrite alen_app; unfold alen; simpl; lia).
    replace (p + Z.of_nat i - p) with (Z.of_nat i) by lia. rewrite aget_nat.
    by rewrite (lookup_app_l_Some _ _ _ _ Hi).
  - unfold mem_at. rewrite within_true by (rewrite alen_app; unfold alen; simpl; lia).
    replace (p + alen s - p) with (alen s) by lia. unfold alen. rewrite aget_nat.
    by rewrite list_lookup_middle.
Qed.

Lemma mem_at_other p s m q t : 
  cstr m q t -> q + alen t < p \/ p + alen s <= q -> cstr (mem_at p s m) q t.
Proof.
  intros Ht Hd. eapply cstr_frame; [done|]. intros i Hi. unfold mem_at.
  by rewrite within_false by lia.
Qed.

Definition sh_mem : mem := mem_at 10 [115; 104; 0] (mem_at 20 [115; 104; 111; 0] (fun _ => 0)).

Lemma strncmp_zero_iff_witness :
  cstr sh_mem 10 [115; 104] /\ cstr sh_mem 20 [115; 104; 111] /\
  (strncmp sh_mem 10 20 2 = 0 <-> take 2 [115; 104] = take 2 [115; 104; 111]).
Proof.
  assert (H1 : cstr sh_mem 10 [115; 104]) by (apply (mem_at_cstr 10 [115; 104]); by repeat constructor).
  assert (H2 : cstr sh_mem 20 [115; 104; 111]).
  { apply mem_at_other; [|by right]. apply (mem_at_cstr 20 [115; 104; 111]). by repeat constructor. }
  split; [exact H1|]. split; [exact H2|].
  exact (strncmp_zero_iff sh_mem 10 20 2 _ _ H1 H2).
Defined.
