(* ===== verification/Kalloc.v ===== *)
(** * The physical page allocator ([kalloc.c])

    The free list is threaded through the free pages themselves: the first
    word of each free page is the address of the next.  [kfree] and [kalloc]
    are transcribed on the byte memory; the refinement theorem says that they
    behave as a stack of pages. *)

From S2P Require Import Prelude State Spinlock CString.
Open Scope Z_scope.

Definition kmem_lock : lockid := ("kmem", 0).

(** [V2P], [PGROUNDUP] and [PGROUNDDOWN] on [uint] values. *)
Definition V2P (a : Z) : Z := u32 (a - KERNBASE).
Definition P2V (a : Z) : Z := u32 (a + KERNBASE).
Definition PGROUNDUP (sz : Z) : Z := Z.land (u32 (sz + PGSIZE - 1)) (Z.lnot (PGSIZE - 1)).
Definition PGROUNDDOWN (a : Z) : Z := Z.land a (Z.lnot (PGSIZE - 1)).

(** ** The code *)

Definition kfree (v : Z) : K unit :=
  e ← gets k_end;
  if negb (v mod PGSIZE =? 0) || (v <? e) || (PHYSTOP <=? V2P v) then panic "kfree"
  else
    modify (fun k => k <| k_mem ::= fun m => memset m v 1 PGSIZE |>) ;;;
    ul ← gets k_use_lock;
    when (negb (ul =? 0)) (acquire kmem_lock) ;;;
    fl ← gets k_freelist;
    modify (fun k => k <| k_mem ::= fun m => store32 m v fl |>) ;;;
    modify (fun k => k <| k_freelist := v |>) ;;;
    ul ← gets k_use_lock;
    when (negb (ul =? 0)) (release kmem_lock).

Definition kalloc : K Z :=
  ul ← gets k_use_lock;
  when (negb (ul =? 0)) (acquire kmem_lock) ;;;
  r ← gets k_freelist;
  when (negb (r =? 0)) (modify (fun k => k <| k_freelist := load32 (k_mem k) r |>)) ;;;
  ul ← gets k_use_lock;
  when (negb (ul =? 0)) (release kmem_lock) ;;;
  mret r.

(** The loop of [freerange]; [fuel] bounds the pages that fit. *)
Fixpoint freerange_loop (fuel : nat) (p vend : Z) : K unit :=
  if p + PGSIZE <=? vend then
    match fuel with
    | O => fun _ => Diverge
    | S fuel' => kfree p ;;; freerange_loop fuel' (p + PGSIZE) vend
    end
  else mret tt.

Definition freerange (vstart vend : Z) : K unit :=
  freerange_loop (Z.to_nat (vend / PGSIZE + 1)) (PGROUNDUP vstart) vend.

Definition kinit1 (vstart vend : Z) : K unit :=
  initlock kmem_lock "kmem" ;;;
  modify (fun k => k <| k_use_lock := 0 |>) ;;;
  freerange vstart vend.

Definition kinit2 (vstart vend : Z) : K unit :=
  freerange vstart vend ;;;
  modify (fun k => k <| k_use_lock := 1 |>).

(** ** The free list as a list of pages *)

Fixpoint chain (m : mem) (p : Z) (l : list Z) : Prop :=
  match l with
  | [] => p = 0
  | x :: l' => p = x /\ chain m (load32 m x) l'
  end.

(** An address [kfree] accepts. *)
Definition page_ok (e v : Z) : Prop :=
  v mod PGSIZE = 0 /\ e <= v /\ V2P v < PHYSTOP /\ 0 < v < 2 ^ 32.

Record free_pages (k : kernel) (l : list Z) : Prop := {
  fp_chain : chain (k_mem k) (k_freelist k) l;
  fp_pages : Forall (page_ok (k_end k)) l;
  fp_nodup : NoDup l }.

(** Ready for [kmem.lock]: either the boot phase, or the lock is free. *)
Definition kmem_ready (k : kernel) : Prop :=
  k_use_lock k <> 0 -> mach_ok (k_mach k) /\ lock_free kmem_lock (k_mach k).

Definition kmem_mach (k : kernel) : mach :=
  if k_use_lock k =? 0 then k_mach k else settle (k_mach k).

(** The memory and free list after [kfree v]. *)
Definition free_mem (v : Z) (k : kernel) : kernel :=
  k <| k_mem ::= fun m => store32 (memset m v 1 PGSIZE) v (k_freelist k) |>
    <| k_freelist := v |>.

Section facts.
Implicit Types (k : kernel) (v : Z) (l : list Z).

Lemma kmem_enter k :
  kmem_ready k ->
  when (negb (k_use_lock k =? 0)) (acquire kmem_lock) k =
    Ret tt (kst k (if k_use_lock k =? 0 then k_mach k else acq kmem_lock (k_mach k))).
Proof.
  intros Hr. destruct (Z.eqb_spec (k_use_lock k) 0) as [E|E]; simpl; [by rewrite kst_id|].
  destruct (Hr E). by apply acquire_ok.
Qed.

Lemma kmem_leave k k0 :
  kmem_ready k0 -> k_use_lock k = k_use_lock k0 ->
  k_mach k = (if k_use_lock k0 =? 0 then k_mach k0 else acq kmem_lock (k_mach k0)) ->
  when (negb (k_use_lock k =? 0)) (release kmem_lock) k = Ret tt (kst k (kmem_mach k0)).
Proof.
  intros Hr Hu. rewrite Hu. unfold kmem_mach.
  destruct (Z.eqb_spec (k_use_lock k0) 0) as [E|E]; simpl.
  - intros <-. by rewrite kst_id.
  - intros Hm. destruct (Hr E). by apply release_acq.
Qed.

Lemma kfree_run k v :
  kmem_ready k -> page_ok (k_end k) v ->
  kfree v k = Ret tt (kst (free_mem v k) (kmem_mach k)).
Proof.
  intros Hr (Ha & He & Hp & _). unfold kfree. mstep.
  rewrite Ha. simpl. destruct (Z.ltb_spec v (k_end k)); [lia|].
  destruct (Z.leb_spec PHYSTOP (V2P v)); [lia|]. simpl. mstep. mstep.
  run kmem_enter; [|done]. mstep. mstep. mstep. mstep.
  rewrite (kmem_leave _ k); [done..|]. simpl. by destruct (_ =? 0).
Qed.

Lemma kfree_bad k v :
  v mod PGSIZE <> 0 \/ v < k_end k \/ PHYSTOP <= V2P v -> kfree v k = Panic "kfree".
Proof.
  intros H. unfold kfree. mstep.
  destruct (Z.eqb_spec (v mod PGSIZE) 0), (Z.ltb_spec v (k_end k)), (Z.leb_spec PHYSTOP (V2P v));
    simpl; by (done || lia).
Qed.

Lemma kalloc_run k :
  kmem_ready k ->
  kalloc k = Ret (k_freelist k)
    (kst (if k_freelist k =? 0 then k else k <| k_freelist := load32 (k_mem k) (k_freelist k) |>)
       (kmem_mach k)).
Proof.
  intros Hr. unfold kalloc. mstep. run kmem_enter; [|done]. mstep. simpl.
  destruct (Z.eqb_spec (k_freelist k) 0); simpl; mstep; mstep;
    (run (kmem_leave _ k); [|done..|by destruct (_ =? 0)]); done.
Qed.

Lemma chain_frame m m' p l :
  (forall x, x ∈ l -> load32 m' x = load32 m x) -> chain m p l -> chain m' p l.
Proof.
  revert p. induction l as [|x l IH]; intros p Hf; [done|]. intros [-> Hc]. split; [done|].
  rewrite Hf by set_solver. apply IH; [|done]. intros y Hy. apply Hf. set_solver.
Qed.

Lemma page_apart v x : v mod PGSIZE = 0 -> x mod PGSIZE = 0 -> v <> x -> v + PGSIZE <= x \/ x + PGSIZE <= v.
Proof. unfold PGSIZE. intros. dlia. Qed.

(** Memory outside the page is untouched by [kfree]. *)
Lemma free_mem_out k v x :
  ~ (v <= x < v + PGSIZE) -> k_mem (free_mem v k) x = k_mem k x.
Proof.
  intros H. unfold free_mem. simpl.
  rewrite store32_out, memset_fill, within_false; unfold PGSIZE in *; by (done || lia).
Qed.

Lemma free_mem_chain k v l :
  free_pages k l -> page_ok (k_end k) v -> v ∉ l -> 0 <= k_freelist k < 2 ^ 32 ->
  free_pages (free_mem v k) (v :: l).
Proof.
  intros [Hc Hp Hd] Hv Hn Hf. split; [|by constructor|by constructor].
  split; [done|]. simpl. rewrite load32_store32 by done.
  eapply chain_frame; [|exact Hc]. intros x Hx.
  assert (Hxp : page_ok (k_end k) x) by (rewrite Forall_forall in Hp; by apply Hp).
  assert (Hap : v + PGSIZE <= x \/ x + PGSIZE <= v).
  { apply page_apart; [apply Hv|apply Hxp|set_solver]. }
  unfold load32. pose proof (free_mem_out k v) as Ho. unfold free_mem in Ho. simpl in Ho.
  unfold PGSIZE in *. by rewrite !Ho by lia.
Qed.

(** Memory may change anywhere but in the links of the free pages. *)
Lemma free_pages_mem k m' l :
  free_pages k l -> (forall x, x ∈ l -> load32 m' x = load32 (k_mem k) x) ->
  free_pages (k <| k_mem := m' |>) l.
Proof. intros [Hc Hp Hd] Hm. split; [|done..]. simpl. by eapply chain_frame. Qed.

(** Taking the first free page. *)
Lemma free_pages_pop k a l :
  free_pages k (a :: l) ->
  k_freelist k = a /\ a <> 0 /\ page_ok (k_end k) a /\ (a ∉ l) /\
  free_pages (k <| k_freelist := load32 (k_mem k) a |>) l.
Proof.
  intros [[Ha Hc] Hp Hd]. apply Forall_cons in Hp as [Hpa Hp]. apply NoDup_cons in Hd as [Hna Hd].
  destruct Hpa as (? & ? & ? & ?). split_and!; try (done || lia).
Qed.

(** The link of a free page lies outside any page that is not free. *)
Lemma link_frame e m m' a l :
  page_ok e a -> Forall (page_ok e) l -> a ∉ l ->
  (forall x, ~ (a <= x < a + PGSIZE) -> m' x = m x) ->
  forall x, x ∈ l -> load32 m' x = load32 m x.
Proof.
  intros Ha Hl Hn Hm x Hx. rewrite Forall_forall in Hl. specialize (Hl x Hx).
  assert (a <> x) by by intros ->. destruct (page_apart a x) as [?|?]; [apply Ha|apply Hl|done|..];
    unfold load32, PGSIZE in *; by rewrite !Hm by lia.
Qed.

Lemma freelist_range k l : free_pages k l -> 0 <= k_freelist k < 2 ^ 32.
Proof.
  intros [Hc Hp _]. destruct l as [|x l]; simpl in Hc; [lia|]. destruct Hc as [-> _].
  apply Forall_cons in Hp as [(_ & _ & _ & ?) _]. lia.
Qed.
End facts.

(** ** The specification: a stack of pages *)

Inductive kop := KAlloc | KFree (v : Z).

Definition kop_code (o : kop) : K Z :=
  match o with KAlloc => kalloc | KFree v => kfree v ;;; mret 0 end.

Definition kop_spec (o : kop) (l : list Z) : Z * list Z :=
  match o with
  | KAlloc => match l with [] => (0, []) | x :: l' => (x, l') end
  | KFree v => (0, v :: l)
  end.

(** The caller's obligation: free only pages, and none that is free already. *)
Definition kop_pre (e : Z) (o : kop) (l : list Z) : Prop :=
  match o with KAlloc => True | KFree v => page_ok e v /\ v ∉ l end.

Fixpoint kops_code (os : list kop) : K (list Z) :=
  match os with
  | [] => mret []
  | o :: os => r ← kop_code o; rs ← kops_code os; mret (r :: rs)
  end.

Fixpoint kops_spec (os : list kop) (l : list Z) : list Z * list Z :=
  match os with
  | [] => ([], l)
  | o :: os =>
      let '(r, l1) := kop_spec o l in
      let '(rs, l2) := kops_spec os l1 in (r :: rs, l2)
  end.

Fixpoint kops_pre (e : Z) (os : list kop) (l : list Z) : Prop :=
  match os with
  | [] => True
  | o :: os => kop_pre e o l /\ kops_pre e os (kop_spec o l).2
  end.

Section refinement.
Implicit Types (k : kernel) (l : list Z).

Lemma free_pages_kst k mc l : free_pages (kst k mc) l <-> free_pages k l.
Proof. split; intros [H1 H2 H3]; by split. Qed.

Lemma kmem_ready_step k k' :
  kmem_ready k -> k_use_lock k' = k_use_lock k -> k_mach k' = kmem_mach k -> kmem_ready k'.
Proof.
  intros Hr Hu Hm Hne. rewrite Hu in Hne. rewrite Hm. destruct (Hr Hne) as [H1 H2].
  unfold kmem_mach. destruct (Z.eqb_spec (k_use_lock k) 0); [done|].
  split; [by apply settle_ok|by apply lock_free_settle].
Qed.

Lemma kop_sim k l o :
  kmem_ready k -> free_pages k l -> kop_pre (k_end k) o l ->
  exists k', kop_code o k = Ret (kop_spec o l).1 k' /\ kmem_ready k' /\
    free_pages k' (kop_spec o l).2 /\ k_end k' = k_end k.
Proof.
  intros Hr Hf Hp. destruct o as [|v]; simpl in *.
  - rewrite kalloc_run by done. destruct Hf as [Hc Hpg Hd].
    destruct l as [|x l]; simpl in *.
    + rewrite Hc. simpl. eexists. split; [done|]. split_and!.
      * by eapply kmem_ready_step.
      * by split.
      * done.
    + destruct Hc as [-> Hc]. apply Forall_cons in Hpg as [Hx Hpg]. apply NoDup_cons in Hd as [_ Hd].
      destruct (Z.eqb_spec x 0); [destruct Hx as (_ & _ & _ & ?); lia|].
      eexists. split; [done|]. split_and!.
      * by eapply (kmem_ready_step k).
      * by split.
      * done.
  - destruct Hp as [Hv Hn]. run kfree_run; [|done..]. eexists. split; [done|]. split_and!.
    + by eapply (kmem_ready_step k).
    + apply free_pages_kst, free_mem_chain; [done..|]. by eapply freelist_range.
    + done.
Qed.
End refinement.

(** The pages [freerange] frees, in the order it frees them. *)
Fixpoint page_run (p : Z) (n : nat) : list Z :=
  match n with O => [] | S n' => p :: page_run (p + PGSIZE) n' end.

Lemma page_run_elem p n x :
  x ∈ page_run p n -> exists j : Z, 0 <= j < Z.of_nat n /\ x = p + j * PGSIZE.
Proof.
  revert p. induction n as [|n IH]; intros p; cbn [page_run]; [by intros ?%not_elem_of_nil|].
  intros [->|Hx]%elem_of_cons; [exists 0; lia|].
  destruct (IH _ Hx) as (j & Hj & ->). exists (j + 1). lia.
Qed.

Lemma freerange_loop_ok n : forall fuel p vend k l,
  kmem_ready k -> free_pages k l -> p + Z.of_nat n * PGSIZE <= vend < p + Z.of_nat (S n) * PGSIZE ->
  (n <= fuel)%nat -> Forall (page_ok (k_end k)) (page_run p n) ->
  (forall x, x ∈ page_run p n -> x ∉ l) ->
  exists k', freerange_loop fuel p vend k = Ret tt k' /\
    free_pages k' (reverse (page_run p n) ++ l) /\ kmem_ready k' /\
    k' = kst (k <| k_mem := k_mem k' |> <| k_freelist := k_freelist k' |>) (k_mach k') /\
    (forall a, a < p -> k_mem k' a = k_mem k a).
Proof.
  induction n as [|n IH]; intros fuel p vend k l Hr Hf Hv Hn Hp Hd.
  - exists k. split_and!; [|done|done|by destruct k|done]. destruct fuel; simpl;
      by destruct (Z.leb_spec (p + PGSIZE) vend); [unfold PGSIZE in *; lia|].
  - destruct fuel as [|fuel]; [lia|]. cbn [freerange_loop page_run] in *.
    destruct (Z.leb_spec (p + PGSIZE) vend); [|unfold PGSIZE in *; lia].
    apply Forall_cons in Hp as [Hp Hps].
    run kfree_run; [|done..].
    edestruct (IH fuel (p + PGSIZE) vend (kst (free_mem p k) (kmem_mach k)) (p :: l))
      as (k' & H1 & H2 & H3 & H4 & H5).
    + by eapply (kmem_ready_step k).
    + apply free_pages_kst, free_mem_chain; [done..|set_solver|by eapply freelist_range].
    + lia.
    + lia.
    + done.
    + intros x Hx [->|Hl]%elem_of_cons; [|set_solver].
      apply page_run_elem in Hx as (j & Hj & E). unfold PGSIZE in E. lia.
    + exists k'. split_and!; [done|by rewrite reverse_cons, <- app_assoc|done|rewrite H4; by unfold free_mem; knorm|].
      intros a Ha. rewrite H5 by (unfold PGSIZE; lia). ksimpl. apply free_mem_out. lia.
Qed.

(** C22. Any sequence of [kalloc] and [kfree] calls in which the caller frees
    only valid pages that are not free already runs to the end and answers as a
    stack of pages does: [kalloc] pops the page freed last, 0 when none is
    left, so a page is never handed out twice without being freed between. *)
Theorem kalloc_refines_stack (os : list kop) (k : kernel) (l : list Z) :
  kmem_ready k -> free_pages k l -> kops_pre (k_end k) os l ->
  exists k', kops_code os k = Ret (kops_spec os l).1 k' /\ free_pages k' (kops_spec os l).2.
Proof.
  revert k l. induction os as [|o os IH]; intros k l Hr Hf Hp; simpl in *; [by exists k|].
  destruct Hp as [Hp Hps]. destruct (kop_sim k l o Hr Hf Hp) as (k1 & H1 & Hr1 & Hf1 & He).
  destruct (kop_spec o l) as [r l1]; simpl in *. rewrite <- He in Hps.
  destruct (IH k1 l1 Hr1 Hf1 Hps) as (k2 & H2 & Hf2).
  destruct (kops_spec os l1) as [rs l2]; simpl in *.
  exists k2. run H1. by run H2.
Qed.

Definition two_pages : list kop :=
  [KFree 0x80400000; KFree 0x80401000; KAlloc; KAlloc; KAlloc].

Lemma kalloc_refines_stack_witness :
  kmem_ready (kernel0 0x80400000) /\ free_pages (kernel0 0x80400000) [] /\
  kops_pre 0x80400000 two_pages [] /\
  exists k', kops_code two_pages (kernel0 0x80400000) = Ret [0; 0; 0x80401000; 0x80400000; 0] k' /\
    free_pages k' [].
Proof.
  assert (H1 : kmem_ready (kernel0 0x80400000)) by (intros H; by destruct H).
  assert (H2 : free_pages (kernel0 0x80400000) []) by (by repeat constructor).
  assert (H3 : kops_pre 0x80400000 two_pages []).
  { simpl. unfold page_ok. split_and!; try done; set_solver by done. }
  split; [exact H1|]. split; [exact H2|]. split; [exact H3|].
  exact (kalloc_refines_stack two_pages (kernel0 0x80400000) [] H1 H2 H3).
Defined.
