(* ===== verification/Console.v ===== *)
(** * Formatted console output ([console.c])

    [printint] and [cprintf].  A character handed to [consputc] is appended to
    the console; the serial port and the CGA memory behind it are the subject
    of [Screen].  The round-trip theorem says that what [printint] prints in base
    ten reads back as the number. *)

From Stdlib Require Import Ascii.
From S2P Require Import Prelude State Spinlock.
Open Scope Z_scope.

Definition cons_lock : lockid := ("cons", 0).

(** The bytes of a string literal. *)
Fixpoint bytes (s : string) : list Z :=
  match s with
  | EmptyString => []
  | String a s' => Z.of_N (N_of_ascii a) :: bytes s'
  end.

(** ** The code *)

Definition consputc (c : Z) : K unit := modify (fun k => k <| k_console ::= fun o => o ++ [c] |>).

Fixpoint consputs (s : list Z) : K unit :=
  match s with
  | [] => mret tt
  | c :: s' => consputc c ;;; consputs s'
  end.

Definition digits : list Z := bytes "0123456789abcdef".

(** [do { buf[i++] = digits[x % base]; } while ((x /= base) != 0);]  The
    buffer is kept newest first, the order in which it is printed. *)
Fixpoint print_digits (fuel : nat) (x base : Z) (buf : list Z) : option (list Z) :=
  match fuel with
  | O => None
  | S fuel' =>
      match aget digits (x mod base) with
      | Some d =>
          if x / base =? 0 then Some (d :: buf) else print_digits fuel' (x / base) base (d :: buf)
      | None => None
      end
  end.

(** The characters [printint] prints.  [buf] has 16 bytes; 33 rounds are more
    than a 32-bit number has digits in any base. *)
Definition printint_chars (xx base sign : Z) : option (list Z) :=
  let neg := negb (sign =? 0) && (i32 xx <? 0) in
  let x := u32 (if neg then - xx else xx) in
  match print_digits 33 x base [] with
  | Some ds =>
      let out := if neg then 45 :: ds else ds in
      if alen out <=? 16 then Some out else None
  | None => None
  end.

Definition printint (xx base sign : Z) : K unit :=
  match printint_chars xx base sign with
  | Some out => consputs out
  | None => fault "printint: buf"
  end.

(** A word of the variable argument list: a number, or a string by pointer. *)
Inductive carg := AInt (z : Z) | AStr (s : option (list Z)).

Fixpoint cprintf_loop (fmt : list Z) (args : list carg) : K unit :=
  match fmt with
  | [] => mret tt
  | c :: fmt' =>
      if negb (c =? 37) then consputc c ;;; cprintf_loop fmt' args
      else
        match fmt' with
        | [] => mret tt
        | c2 :: fmt'' =>
            if c2 =? 100 then
              match args with
              | AInt z :: args' => printint z 10 1 ;;; cprintf_loop fmt'' args'
              | _ => fault "cprintf: argument"
              end
            else if (c2 =? 120) || (c2 =? 112) then
              match args with
              | AInt z :: args' => printint z 16 0 ;;; cprintf_loop fmt'' args'
              | _ => fault "cprintf: argument"
              end
            else if c2 =? 115 then
              match args with
              | AStr s :: args' =>
                  consputs (default (bytes "(null)") s) ;;; cprintf_loop fmt'' args'
              | _ => fault "cprintf: argument"
              end
            else if c2 =? 37 then consputc 37 ;;; cprintf_loop fmt'' args
            else consputc 37 ;;; consputc c2 ;;; cprintf_loop fmt'' args
        end
  end.

Definition cprintf (fmt : list Z) (args : list carg) : K unit :=
  locking ← gets k_cons_locking;
  when (negb (locking =? 0)) (acquire cons_lock) ;;;
  cprintf_loop fmt args ;;;
  when (negb (locking =? 0)) (release cons_lock).

(** ** Facts *)

Section facts.
Implicit Types (k : kernel).

Lemma consputs_run s k : consputs s k = Ret tt (k <| k_console ::= fun o => o ++ s |>).
Proof.
  revert k. induction s as [|c s IH]; intros k; simpl.
  - unfold mret, M_ret. f_equal. destruct k; req. by rewrite app_nil_r.
  - mstep. rewrite IH. f_equal. destruct k; req. simpl. by rewrite <- (assoc_L (++)).
Qed.
End facts.

(** Reading digits back: the most significant comes first. *)
Definition digit_val (d : Z) : Z := if d <=? 57 then d - 48 else d - 87.
Definition digits_val (base : Z) (ds : list Z) : Z :=
  fold_left (fun acc d => acc * base + digit_val d) ds 0.

Lemma digit_val_get n d : aget digits n = Some d -> digit_val d = n.
Proof.
  intros H. pose proof (aget_lt _ _ _ H) as Hn. change (alen digits) with 16 in Hn.
  assert (Hall : forallb (fun n => match aget digits n with
    | Some d => digit_val d =? n | None => false end) (seqZ 0 16) = true) by by vm_compute.
  rewrite forallb_forall in Hall. specialize (Hall n). rewrite H in Hall.
  apply Z.eqb_eq, Hall, list_elem_of_In, elem_of_seqZ. lia.
Qed.

Lemma print_digits_val n fuel x base buf :
  2 <= base <= 16 -> (n < fuel)%nat -> 0 <= x < base ^ Z.of_nat (S n) ->
  exists ds, print_digits fuel x base buf = Some (ds ++ buf) /\ digits_val base ds = x /\
    (length ds <= S n)%nat.
Proof.
  intros Hb. revert fuel x buf. induction n as [|n IH]; intros [|fuel] x buf Hf Hx; try lia.
  all: destruct (aget_is_Some digits (x mod base)) as [d Hd];
    [change (alen digits) with 16; pose proof (Z.mod_pos_bound x base); lia|].
  all: simpl; rewrite Hd; pose proof (digit_val_get _ _ Hd) as Hv.
  - assert (x / base = 0) as -> by (apply Z.div_small; change (Z.of_nat 1) with 1 in Hx; lia).
    exists [d]. unfold digits_val. simpl. split; [done|]. split; [|lia].
    change (Z.of_nat 1) with 1 in Hx. rewrite Z.mod_small in Hv; lia.
  - pose proof (Z.div_mod x base ltac:(lia)) as Hdm.
    destruct (Z.eqb_spec (x / base) 0) as [E|E].
    + exists [d]. unfold digits_val. simpl. split; [done|]. split; [|lia].
      rewrite Hdm, E. lia.
    + destruct (IH fuel (x / base) (d :: buf)) as (ds & Hp & Hval & Hlen); [lia| |].
      { split; [apply Z.div_pos; lia|]. apply Z.div_lt_upper_bound; [lia|].
        rewrite (Nat2Z.inj_succ (S n)), Z.pow_succ_r in Hx; lia. }
      exists (ds ++ [d]). rewrite Hp, <- app_assoc. split; [done|]. split.
      * unfold digits_val in *. rewrite fold_left_app. simpl. rewrite Hval. lia.
      * rewrite length_app. simpl. lia.
Qed.

(** What [printint] prints, for the two bases the code uses. *)
Lemma printint_chars_ok xx base sign :
  base = 10 \/ base = 16 ->
  let neg := negb (sign =? 0) && (i32 xx <? 0) in
  exists ds, printint_chars xx base sign = Some (if neg then 45 :: ds else ds) /\
    digits_val base ds = u32 (if neg then - xx else xx) /\ alen ds <= 10.
Proof.
  intros Hb neg. unfold printint_chars. fold neg.
  set (x := u32 (if neg then - xx else xx)).
  assert (Hx : 0 <= x < 2 ^ 32) by (apply Z.mod_pos_bound; lia).
  destruct (print_digits_val 9 33 x base []) as (ds & Hp & Hv & Hl); [lia|lia| |].
  { split; [lia|]. eapply Z.lt_le_trans; [apply Hx|]. by destruct Hb as [-> | ->]. }
  exists ds. rewrite Hp, app_nil_r. assert (alen ds <= 10) by (unfold alen; lia).
  split; [|by split; [|]]. destruct (Z.leb_spec (alen (if neg then 45 :: ds else ds)) 16); [done|].
  assert (alen (if neg then 45 :: ds else ds) <= 1 + alen ds); [|lia].
  unfold alen. destruct neg; cbn [length]; lia.
Qed.

Lemma printint_run xx base sign k :
  base = 10 \/ base = 16 ->
  exists out, printint_chars xx base sign = Some out /\
    printint xx base sign k = Ret tt (k <| k_console ::= fun o => o ++ out |>).
Proof.
  intros Hb. destruct (printint_chars_ok xx base sign Hb) as (ds & H & _).
  eexists. split; [exact H|]. unfold printint. rewrite H. apply consputs_run.
Qed.

(** ** What [cprintf] prints *)

Definition emit (o : list Z) (m : option (list Z)) : option (list Z) := app o <$> m.

(** The text of a format string and its arguments, when they fit. *)
Fixpoint render (fmt : list Z) (args : list carg) : option (list Z) :=
  match fmt with
  | [] => Some []
  | c :: fmt' =>
      if negb (c =? 37) then emit [c] (render fmt' args)
      else
        match fmt' with
        | [] => Some []
        | c2 :: fmt'' =>
            if c2 =? 100 then
              match args with
              | AInt z :: args' => o ← printint_chars z 10 1; emit o (render fmt'' args')
              | _ => None
              end
            else if (c2 =? 120) || (c2 =? 112) then
              match args with
              | AInt z :: args' => o ← printint_chars z 16 0; emit o (render fmt'' args')
              | _ => None
              end
            else if c2 =? 115 then
              match args with
              | AStr s :: args' => app (default (bytes "(null)") s) <$> render fmt'' args'
              | _ => None
              end
            else if c2 =? 37 then emit [37] (render fmt'' args)
            else emit [37; c2] (render fmt'' args)
        end
  end.

Section render.
Implicit Types (k : kernel).

Lemma emit_Some o m s : emit o m = Some s -> exists s', m = Some s' /\ s = o ++ s'.
Proof. unfold emit. intros (s' & -> & ?)%fmap_Some. eauto. Qed.

Lemma console_app k s1 s2 :
  (k <| k_console ::= fun o => o ++ s1 |>) <| k_console ::= fun o => o ++ s2 |> =
  k <| k_console ::= fun o => o ++ s1 ++ s2 |>.
Proof. destruct k; req. simpl. by rewrite (assoc_L (++)). Qed.

Lemma cprintf_loop_run fmt args s k :
  render fmt args = Some s ->
  cprintf_loop fmt args k = Ret tt (k <| k_console ::= fun o => o ++ s |>).
Proof.
  revert args s k. induction fmt as [fmt IH] using (induction_ltof1 _ (@length Z)).
  unfold ltof in IH. intros args s k. destruct fmt as [|c fmt]; simpl.
  { intros [= <-]. apply (consputs_run []). }
  destruct (negb (c =? 37)).
  { intros (s' & Hs & ->)%emit_Some. mstep. erewrite IH by (done || simpl; lia).
    by rewrite console_app. }
  destruct fmt as [|c2 fmt]; [intros [= <-]; apply (consputs_run [])|].
  assert (Hint : forall base sign z args', (base = 10 \/ base = 16) ->
    (o ← printint_chars z base sign; emit o (render fmt args')) = Some s ->
    (printint z base sign ;;; cprintf_loop fmt args') k =
      Ret tt (k <| k_console ::= fun o => o ++ s |>)).
  { intros base sign z args' Hb. destruct (printint_run z base sign k Hb) as (o & -> & Hr).
    simpl. intros (s' & Hs & ->)%emit_Some. run Hr.
    erewrite IH by (done || simpl; lia). by rewrite console_app. }
  destruct (c2 =? 100); [destruct args as [|[z|z] args]; try done; apply Hint; by left|].
  destruct ((c2 =? 120) || (c2 =? 112));
    [destruct args as [|[z|z] args]; try done; apply Hint; by right|].
  destruct (c2 =? 115); [destruct args as [|[z|z] args]; try done|].
  { intros (s' & Hs & ->)%emit_Some. run consputs_run.
    erewrite IH by (done || simpl; lia). by rewrite console_app. }
  destruct (c2 =? 37); intros (s' & Hs & ->)%emit_Some.
  - mstep. erewrite IH by (done || simpl; lia). by rewrite console_app.
  - mstep. mstep. erewrite IH by (done || simpl; lia). by rewrite !console_app.
Qed.

(** The console is quiet: either it is not locking yet, or its lock is free. *)
Definition cons_ready k : Prop :=
  mach_ok (k_mach k) /\ (k_cons_locking k = 0 \/ lock_free cons_lock (k_mach k)).

Definition cons_mach k : mach := if k_cons_locking k =? 0 then k_mach k else settle (k_mach k).

Lemma cprintf_run fmt args s k :
  cons_ready k -> render fmt args = Some s ->
  cprintf fmt args k = Ret tt ((kst k (cons_mach k)) <| k_console ::= fun o => o ++ s |>).
Proof.
  intros [Hok Hl] Hs. unfold cprintf, cons_mach. mstep.
  destruct (Z.eqb_spec (k_cons_locking k) 0) as [E|E]; simpl.
  - mstep. erewrite bind_Ret by by apply cprintf_loop_run. by rewrite kst_id.
  - destruct Hl as [?|Hl]; [done|]. run acquire_ok; [|done..].
    erewrite bind_Ret by by apply cprintf_loop_run.
    by rewrite (release_acq _ _ (k_mach k)).
Qed.
End render.
