(* ===== verification/Vm.v ===== *)
(** * Page tables ([vm.c])

    Two-level page tables in kernel memory: [walkpgdir], [mappages], growing,
    shrinking, copying and freeing address spaces, and access to another
    process's memory through its page table.  Loading the page directory base
    register is recorded; the segment descriptors and the task state of [seginit]
    and [switchuvm] are in Tables.v. *)

From S2P Require Import Prelude State Spinlock CString Kalloc Console.
Open Scope Z_scope.

Definition PTE_P : Z := 1.
Definition PTE_W : Z := 2.
Definition PTE_U : Z := 4.
Definition EXTMEM : Z := 0x100000.
Definition DEVSPACE : Z := 0xFE000000.
Definition KERNLINK : Z := KERNBASE + EXTMEM.
Definition NPDENTRIES : Z := 1024.

Definition PDX (va : Z) : Z := Z.land (Z.shiftr va 22) 0x3FF.
Definition PTX (va : Z) : Z := Z.land (Z.shiftr va 12) 0x3FF.
Definition PGADDR (d t o : Z) : Z := u32 (Z.lor (Z.lor (Z.shiftl d 22) (Z.shiftl t 12)) o).
Definition PTE_ADDR (pte : Z) : Z := Z.land pte (Z.lnot 0xFFF).
Definition PTE_FLAGS (pte : Z) : Z := Z.land pte 0xFFF.

(** ** The code *)

(** [*(uint * )a] and its assignment. *)
Definition ld (a : Z) : K Z := k ← get; mret (load32 (k_mem k) a).
Definition st (a v : Z) : K unit := modify (fun k => k <| k_mem ::= fun m => store32 m a v |>).

Definition walkpgdir (pgdir va alloc : Z) : K Z :=
  let pde := pgdir + 4 * PDX va in
  v ← ld pde;
  if negb (Z.land v PTE_P =? 0) then mret (P2V (PTE_ADDR v) + 4 * PTX va)
  else if alloc =? 0 then mret 0
  else
    pgtab ← kalloc;
    if pgtab =? 0 then mret 0
    else
      modify (fun k => k <| k_mem ::= fun m => memset m pgtab 0 PGSIZE |>) ;;;
      st pde (Z.lor (Z.lor (Z.lor (V2P pgtab) PTE_P) PTE_W) PTE_U) ;;;
      mret (pgtab + 4 * PTX va).

(** The loop of [mappages]; [fuel] bounds the pages of an address space. *)
Fixpoint mappages_loop (fuel : nat) (pgdir a last pa perm : Z) : K Z :=
  match fuel with
  | O => fun _ => Diverge
  | S fuel' =>
      pte ← walkpgdir pgdir a 1;
      if pte =? 0 then mret (-1)
      else
        v ← ld pte;
        if negb (Z.land v PTE_P =? 0) then panic "remap"
        else
          st pte (Z.lor (Z.lor pa perm) PTE_P) ;;;
          if a =? last then mret 0
          else mappages_loop fuel' pgdir (u32 (a + PGSIZE)) last (u32 (pa + PGSIZE)) perm
  end.

Definition mappages (pgdir va size pa perm : Z) : K Z :=
  mappages_loop (Z.to_nat (2 ^ 20)) pgdir (PGROUNDDOWN va) (PGROUNDDOWN (u32 (va + size - 1))) pa perm.

(** [deallocuvm]: the loop over page addresses, skipping a whole directory
    entry when it has no page table. *)
Fixpoint deallocuvm_loop (fuel : nat) (pgdir a oldsz : Z) : K unit :=
  if a <? oldsz then
    match fuel with
    | O => fun _ => Diverge
    | S fuel' =>
        pte ← walkpgdir pgdir a 0;
        if pte =? 0 then deallocuvm_loop fuel' pgdir (u32 (PGADDR (PDX a + 1) 0 0 - PGSIZE + PGSIZE)) oldsz
        else
          v ← ld pte;
          when (negb (Z.land v PTE_P =? 0))
            (let pa := PTE_ADDR v in
             if pa =? 0 then panic "kfree"
             else kfree (P2V pa) ;;; st pte 0) ;;;
          deallocuvm_loop fuel' pgdir (u32 (a + PGSIZE)) oldsz
    end
  else mret tt.

Definition deallocuvm (pgdir oldsz newsz : Z) : K Z :=
  if oldsz <=? newsz then mret oldsz
  else
    deallocuvm_loop (Z.to_nat (2 ^ 20)) pgdir (PGROUNDUP newsz) oldsz ;;;
    mret newsz.

Fixpoint allocuvm_loop (fuel : nat) (pgdir a oldsz newsz : Z) : K Z :=
  if a <? newsz then
    match fuel with
    | O => fun _ => Diverge
    | S fuel' =>
        mem ← kalloc;
        if mem =? 0 then
          cprintf (bytes "allocuvm out of memory" ++ [10]) [] ;;;
          deallocuvm pgdir newsz oldsz ;;;
          mret 0
        else
          modify (fun k => k <| k_mem ::= fun m => memset m mem 0 PGSIZE |>) ;;;
          r ← mappages pgdir a PGSIZE (V2P mem) (Z.lor PTE_W PTE_U);
          if r <? 0 then
            cprintf (bytes "allocuvm out of memory (2)" ++ [10]) [] ;;;
            deallocuvm pgdir newsz oldsz ;;;
            kfree mem ;;;
            mret 0
          else allocuvm_loop fuel' pgdir (u32 (a + PGSIZE)) oldsz newsz
    end
  else mret newsz.

Definition allocuvm (pgdir oldsz newsz : Z) : K Z :=
  if KERNBASE <=? newsz then mret 0
  else if newsz <? oldsz then mret oldsz
  else allocuvm_loop (Z.to_nat (2 ^ 20)) pgdir (PGROUNDUP oldsz) oldsz newsz.

Definition freevm (pgdir : Z) : K unit :=
  if pgdir =? 0 then panic "freevm: no pgdir"
  else
    deallocuvm pgdir KERNBASE 0 ;;;
    each (Z.to_nat NPDENTRIES) 0 (fun i =>
      v ← ld (pgdir + 4 * i);
      when (negb (Z.land v PTE_P =? 0)) (kfree (P2V (PTE_ADDR v)))) ;;;
    kfree pgdir.

(** The entries of the static table [kmap]: virtual start, physical start and
    end, permissions. *)
Definition kmap (data : Z) : list (Z * Z * Z * Z) :=
  [(KERNBASE, 0, EXTMEM, PTE_W); (KERNLINK, V2P KERNLINK, V2P data, 0);
   (data, V2P data, PHYSTOP, PTE_W); (DEVSPACE, DEVSPACE, 0, PTE_W)].

Fixpoint map_kernel (pgdir : Z) (ms : list (Z * Z * Z * Z)) : K Z :=
  match ms with
  | [] => mret pgdir
  | (virt, ps, pe, perm) :: ms' =>
      r ← mappages pgdir virt (u32 (pe - ps)) ps perm;
      if r <? 0 then freevm pgdir ;;; mret 0 else map_kernel pgdir ms'
  end.

Definition setupkvm : K Z :=
  pgdir ← kalloc;
  if pgdir =? 0 then mret 0
  else
    modify (fun k => k <| k_mem ::= fun m => memset m pgdir 0 PGSIZE |>) ;;;
    if DEVSPACE <? P2V PHYSTOP then panic "PHYSTOP too high"
    else
      data ← gets k_data;
      map_kernel pgdir (kmap data).

Definition lcr3 (v : Z) : K unit := modify (fun k => k <| k_cr3 := v |>).

Definition switchkvm : K unit := pg ← gets k_kpgdir; lcr3 (V2P pg).

Definition kvmalloc : K unit :=
  pg ← setupkvm;
  modify (fun k => k <| k_kpgdir := pg |>) ;;;
  switchkvm.

(** The task state is set between the [pushcli] and the [popcli]. *)
Definition switchuvm (i : option nat) : K unit :=
  match i with
  | None => panic "switchuvm: no process"
  | Some i =>
      k ← get;
      p ← rd "proc" (k_proc k) (Z.of_nat i);
      if p_kstack p =? 0 then panic "switchuvm: no kstack"
      else if p_pgdir p =? 0 then panic "switchuvm: no pgdir"
      else
        pushcli ;;;
        mycpu ;;;
        lcr3 (V2P (p_pgdir p)) ;;;
        popcli
  end.

Definition inituvm (pgdir init sz : Z) : K unit :=
  if PGSIZE <=? sz then panic "inituvm: more than a page"
  else
    mem ← kalloc;
    modify (fun k => k <| k_mem ::= fun m => memset m mem 0 PGSIZE |>) ;;;
    mappages pgdir 0 PGSIZE (V2P mem) (Z.lor PTE_W PTE_U) ;;;
    modify (fun k => k <| k_mem ::= fun m => memmove m mem init sz |>).

Definition clearpteu (pgdir uva : Z) : K unit :=
  pte ← walkpgdir pgdir uva 0;
  if pte =? 0 then panic "clearpteu"
  else
    v ← ld pte;
    st pte (Z.land v (u32 (Z.lnot PTE_U))).

Fixpoint copyuvm_loop (fuel : nat) (pgdir d i sz : Z) : K Z :=
  if i <? sz then
    match fuel with
    | O => fun _ => Diverge
    | S fuel' =>
        pte ← walkpgdir pgdir i 0;
        if pte =? 0 then panic "copyuvm: pte should exist"
        else
          v ← ld pte;
          if Z.land v PTE_P =? 0 then panic "copyuvm: page not present"
          else
            let pa := PTE_ADDR v in
            let flags := PTE_FLAGS v in
            mem ← kalloc;
            if mem =? 0 then freevm d ;;; mret 0
            else
              modify (fun k => k <| k_mem ::= fun m => memmove m mem (P2V pa) PGSIZE |>) ;;;
              r ← mappages d i PGSIZE (V2P mem) flags;
              if r <? 0 then kfree mem ;;; freevm d ;;; mret 0
              else copyuvm_loop fuel' pgdir d (u32 (i + PGSIZE)) sz
    end
  else mret d.

Definition copyuvm (pgdir sz : Z) : K Z :=
  d ← setupkvm;
  if d =? 0 then mret 0 else copyuvm_loop (Z.to_nat (2 ^ 20)) pgdir d 0 sz.

(** The result of [walkpgdir] is not checked: without a page table the entry
    is read at address 0. *)
Definition uva2ka (pgdir uva : Z) : K Z :=
  pte ← walkpgdir pgdir uva 0;
  v ← ld pte;
  if Z.land v PTE_P =? 0 then mret 0
  else if Z.land v PTE_U =? 0 then mret 0
  else mret (P2V (PTE_ADDR v)).

(** [copy m dst o n] is the memory after [n] bytes of the source from offset
    [o] have been moved to [dst]. *)
Fixpoint copyout_loop (fuel : nat) (copy : mem -> Z -> Z -> Z -> mem) (pgdir va o len : Z) : K Z :=
  if 0 <? len then
    match fuel with
    | O => fun _ => Diverge
    | S fuel' =>
        let va0 := PGROUNDDOWN va in
        pa0 ← uva2ka pgdir va0;
        if pa0 =? 0 then mret (-1)
        else
          let n := PGSIZE - (va - va0) in
          let n := if len <? n then len else n in
          modify (fun k => k <| k_mem ::= fun m => copy m (pa0 + (va - va0)) o n |>) ;;;
          copyout_loop fuel' copy pgdir (u32 (va0 + PGSIZE)) (o + n) (len - n)
    end
  else mret 0.

(** From memory, and from a local variable of the caller. *)
Definition copyout (pgdir va p len : Z) : K Z :=
  copyout_loop (Z.to_nat (2 ^ 20 + 1)) (fun m dst o n => memmove m dst (p + o) n) pgdir va 0 len.
Definition copyout_local (pgdir va : Z) (bs : list Z) : K Z :=
  copyout_loop (Z.to_nat (2 ^ 20 + 1))
    (fun m dst o n => mem_at dst (take (Z.to_nat n) (drop (Z.to_nat o) bs)) m) pgdir va 0 (alen bs).

(** ** Address arithmetic *)

Section bits.
Implicit Types (v a d : Z).

Lemma land_ones_mod v n : 0 <= n -> Z.land v (2 ^ n - 1) = v mod 2 ^ n.
Proof. intros Hn. rewrite <- (Z.land_ones v n Hn), Z.ones_equiv. done. Qed.

Lemma PTE_ADDR_eq v : PTE_ADDR v = v / 4096 * 4096.
Proof.
  unfold PTE_ADDR. change 0xFFF with (Z.ones 12). rewrite <- Z.ldiff_land, Z.ldiff_ones_r by lia.
  by rewrite Z.shiftl_mul_pow2, Z.shiftr_div_pow2 by lia.
Qed.

Lemma PTE_FLAGS_eq v : PTE_FLAGS v = v mod 4096.
Proof. by apply (land_ones_mod v 12). Qed.

Lemma PGROUNDDOWN_eq v : PGROUNDDOWN v = v / 4096 * 4096.
Proof. apply PTE_ADDR_eq. Qed.

Lemma PTE_P_eq v : (Z.land v PTE_P =? 0) = (v mod 2 =? 0).
Proof. f_equal. by apply (land_ones_mod v 1). Qed.

Lemma PDX_eq v : PDX v = v / 2 ^ 22 mod 1024.
Proof. unfold PDX. rewrite Z.shiftr_div_pow2 by lia. by apply (land_ones_mod _ 10). Qed.

Lemma PTX_eq v : PTX v = v / 2 ^ 12 mod 1024.
Proof. unfold PTX. rewrite Z.shiftr_div_pow2 by lia. by apply (land_ones_mod _ 10). Qed.

(** Or-ing flags into a page address is addition. *)
Lemma lor_flags v fl : v mod 4096 = 0 -> 0 <= fl < 4096 -> Z.lor v fl = v + fl.
Proof.
  intros Hv Hf. rewrite Z.add_nocarry_lxor; [symmetry; apply Z.lxor_lor|];
    (apply Z.bits_inj'; intros n Hn; rewrite Z.land_spec, Z.bits_0;
     destruct (Z.ltb_spec n 12) as [Hl|Hl];
     [replace v with (v / 4096 * 2 ^ 12) by dlia; by rewrite Z.mul_pow2_bits_low
     |rewrite (Z.bits_above_log2 fl); [apply andb_false_r|lia|]]);
    (destruct (Z.eq_dec fl 0) as [->|]; [simpl; lia|]; apply (Z.lt_le_trans _ 12); [|done];
     apply Z.log2_lt_pow2; lia).
Qed.

Lemma V2P_P2V a : KERNBASE <= a < 2 ^ 32 -> V2P a = a - KERNBASE /\ P2V (V2P a) = a.
Proof.
  intros Ha. unfold V2P, P2V, u32, KERNBASE in *. change (2 ^ 32) with 4294967296 in *. dlia.
Qed.
End bits.

(** ** What a page table maps *)

(** The page table a directory entry leads to, and the entry for an address. *)
Definition pgtab (m : mem) (pgdir d : Z) : option Z :=
  let v := load32 m (pgdir + 4 * d) in
  if v mod 2 =? 0 then None else Some (P2V (PTE_ADDR v)).

Definition translate (m : mem) (pgdir va : Z) : option Z :=
  match pgtab m pgdir (PDX va) with
  | None => None
  | Some t => let v := load32 m (t + 4 * PTX va) in if v mod 2 =? 0 then None else Some v
  end.

(** The directory and its tables are distinct pages in use; [l] is the free
    list. *)
Record pt_ok (e : Z) (m : mem) (pgdir : Z) (l : list Z) : Prop := {
  pt_base : KERNBASE <= e;
  pt_dir : page_ok e pgdir;
  pt_dir_used : pgdir ∉ l;
  pt_tab : forall d t, 0 <= d < 1024 -> pgtab m pgdir d = Some t ->
    page_ok e t /\ t <> pgdir /\ t ∉ l;
  pt_inj : forall d d' t, 0 <= d < 1024 -> 0 <= d' < 1024 ->
    pgtab m pgdir d = Some t -> pgtab m pgdir d' = Some t -> d = d' }.

Section tables.
Implicit Types (k : kernel) (m : mem) (pgdir va d t x : Z).

Lemma PDX_range va : 0 <= PDX va < 1024.
Proof. rewrite PDX_eq. by apply Z.mod_pos_bound. Qed.

Lemma PTX_range va : 0 <= PTX va < 1024.
Proof. rewrite PTX_eq. by apply Z.mod_pos_bound. Qed.

(** Two addresses have the same indexes exactly when they are on one page. *)
Lemma same_page va va' :
  0 <= va < 2 ^ 32 -> 0 <= va' < 2 ^ 32 ->
  (PDX va' = PDX va /\ PTX va' = PTX va) <-> va' / 4096 = va / 4096.
Proof.
  rewrite !PDX_eq, !PTX_eq. change (2 ^ 32) with 4294967296. change (2 ^ 22) with 4194304.
  change (2 ^ 12) with 4096. intros H H'. split; intros E.
  - destruct E as [E1 E2]. dlia.
  - dlia.
Qed.

Lemma load32_out m a v x :
  x + 4 <= a \/ a + 4 <= x -> load32 (store32 m a v) x = load32 m x.
Proof. intros H. apply load32_store32_ne. lia. Qed.

Lemma page_far e x y : page_ok e x -> page_ok e y -> x <> y -> x + PGSIZE <= y \/ y + PGSIZE <= x.
Proof. intros Hx Hy. apply page_apart; [apply Hx|apply Hy]. Qed.

Lemma load32_ext m m' a : (forall i, 0 <= i < 4 -> m' (a + i) = m (a + i)) -> load32 m' a = load32 m a.
Proof.
  intros H. unfold load32. pose proof (H 0) as H0. rewrite Z.add_0_r in H0.
  by rewrite H0, (H 1), (H 2), (H 3) by lia.
Qed.

Lemma pgtab_ext m m' pgdir d :
  (forall i, 0 <= i < PGSIZE -> m' (pgdir + i) = m (pgdir + i)) -> 0 <= d < 1024 ->
  pgtab m' pgdir d = pgtab m pgdir d.
Proof.
  intros H Hd. unfold pgtab. assert (load32 m' (pgdir + 4 * d) = load32 m (pgdir + 4 * d)) as ->; [|done].
  apply load32_ext. intros i Hi. rewrite <- !Z.add_assoc. apply H. unfold PGSIZE. lia.
Qed.

(** Storing an entry into the table of [va]. *)
Lemma store_entry e m pgdir l va t v :
  pt_ok e m pgdir l -> pgtab m pgdir (PDX va) = Some t -> 0 <= v < 2 ^ 32 ->
  let m' := store32 m (t + 4 * PTX va) v in
  pt_ok e m' pgdir l /\ (forall d, 0 <= d < 1024 -> pgtab m' pgdir d = pgtab m pgdir d) /\
  forall va', translate m' pgdir va' =
    if decide (PDX va' = PDX va /\ PTX va' = PTX va)
    then (if v mod 2 =? 0 then None else Some v) else translate m pgdir va'.
Proof.
  intros [Hb Hdir Hdu Htab Hinj] Ht Hv m'. pose proof (PDX_range va) as Hd. pose proof (PTX_range va) as Hi.
  destruct (Htab _ _ Hd Ht) as (Htp & Htne & Htl).
  assert (Hpg : forall d, 0 <= d < 1024 -> pgtab m' pgdir d = pgtab m pgdir d).
  { intros d Hdr. apply pgtab_ext; [|done]. intros i Hir. apply store32_out.
    destruct (page_far e t pgdir) as [?|?]; try done; unfold PGSIZE in *; lia. }
  split; [|split; [done|]].
  - split; try done.
    + intros d t' Hdr. rewrite Hpg by done. by apply Htab.
    + intros d d' t' Hdr Hdr'. rewrite !Hpg by done. by apply Hinj.
  - intros va'. unfold translate. pose proof (PDX_range va') as Hd'. pose proof (PTX_range va') as Hi'.
    rewrite Hpg by done. case_decide as Hc.
    + destruct Hc as [-> ->]. rewrite Ht. subst m'. by rewrite load32_store32.
    + destruct (pgtab m pgdir (PDX va')) as [t'|] eqn:Ht'; [|done].
      assert (load32 m' (t' + 4 * PTX va') = load32 m (t' + 4 * PTX va')) as ->; [|done].
      apply load32_out. destruct (decide (t' = t)) as [->|Hne].
      * assert (PTX va' <> PTX va); [|lia]. intros E. apply Hc. split; [|done]. by apply (Hinj _ _ t).
      * destruct (Htab _ _ Hd' Ht') as (Htp' & _).
        destruct (page_far e t t') as [?|?]; try done; unfold PGSIZE in *; lia.
Qed.

(** The memory after [walkpgdir] has hung the zeroed page [x] into the
    directory. *)
Definition with_table m pgdir va x : mem :=
  store32 (memset m x 0 PGSIZE) (pgdir + 4 * PDX va)
    (Z.lor (Z.lor (Z.lor (V2P x) PTE_P) PTE_W) PTE_U).

Lemma table_entry x :
  KERNBASE <= x < 2 ^ 32 -> x mod PGSIZE = 0 ->
  Z.lor (Z.lor (Z.lor (V2P x) PTE_P) PTE_W) PTE_U = x - KERNBASE + 7.
Proof.
  intros Hx Ha. destruct (V2P_P2V x Hx) as [-> _].
  rewrite <- !Z.lor_assoc. change (Z.lor PTE_P (Z.lor PTE_W PTE_U)) with 7.
  apply lor_flags; [|lia]. unfold PGSIZE, KERNBASE in *. dlia.
Qed.

End tables.

Section new_table.
Context (e : Z) (m : mem) (pgdir : Z) (l : list Z) (va x : Z).
Context (Hpt : pt_ok e m pgdir (x :: l)) (Hx : page_ok e x) (Hxl : x ∉ l)
  (Hnone : pgtab m pgdir (PDX va) = None).
Let m' := with_table m pgdir va x.

Lemma new_table_range : KERNBASE <= x < 2 ^ 32.
Proof. destruct Hx as (_ & ? & _ & ?), Hpt. lia. Qed.

Lemma new_table_far : x + PGSIZE <= pgdir \/ pgdir + PGSIZE <= x.
Proof.
  destruct Hpt. apply (page_far e); [done..|]. intros ->. apply pt_dir_used0. by left.
Qed.

Lemma zeroed y : memset m x 0 PGSIZE y = if within x PGSIZE y then 0 else m y.
Proof. rewrite memset_fill by (unfold PGSIZE; lia). by destruct (within x PGSIZE y). Qed.

Lemma zeroed_far a : a + 4 <= x \/ x + PGSIZE <= a -> load32 (memset m x 0 PGSIZE) a = load32 m a.
Proof.
  intros H. apply load32_ext. intros i Hi. rewrite zeroed, within_false; [done|lia].
Qed.

Lemma with_table_pgtab d :
  0 <= d < 1024 -> pgtab m' pgdir d = if decide (d = PDX va) then Some x else pgtab m pgdir d.
Proof.
  intros Hd. pose proof new_table_range as Hr. pose proof new_table_far as Hf.
  pose proof Hx as (Ha & _). pose proof (V2P_P2V x Hr) as [Hv Hp].
  unfold pgtab, m', with_table. rewrite table_entry by done. case_decide as E.
  - subst d. rewrite load32_store32 by (unfold KERNBASE in *; lia).
    assert ((x - KERNBASE + 7) mod 2 = 1) as -> by (unfold PGSIZE, KERNBASE in *; dlia).
    simpl. f_equal. transitivity (P2V (V2P x)); [|done]. f_equal. rewrite PTE_ADDR_eq, Hv.
    unfold PGSIZE, KERNBASE in *. dlia.
  - rewrite load32_out by lia. rewrite zeroed_far by (unfold PGSIZE in *; lia). done.
Qed.

Lemma with_table_zero i : 0 <= i < 1024 -> load32 m' (x + 4 * i) = 0.
Proof.
  intros Hi. pose proof new_table_far as Hf. pose proof (PDX_range va). unfold m', with_table.
  rewrite load32_out by (unfold PGSIZE in *; lia). unfold load32.
  by rewrite !zeroed, !within_true by (unfold PGSIZE; lia).
Qed.

Lemma with_table_far a :
  a + 4 <= x \/ x + PGSIZE <= a -> a + 4 <= pgdir \/ pgdir + PGSIZE <= a ->
  load32 m' a = load32 m a.
Proof.
  intros H1 H2. pose proof (PDX_range va). unfold m', with_table.
  rewrite load32_out by (unfold PGSIZE in *; lia). by apply zeroed_far.
Qed.

(** The other tables lie elsewhere. *)
Lemma old_table d t :
  0 <= d < 1024 -> pgtab m pgdir d = Some t -> page_ok e t /\ t <> pgdir /\ t <> x /\ t ∉ l.
Proof.
  intros Hd Ht. destruct (pt_tab _ _ _ _ Hpt d t Hd Ht) as (H1 & H2 & H3).
  apply not_elem_of_cons in H3 as [H3 H4]. done.
Qed.

Lemma with_table_translate va' : translate m' pgdir va' = translate m pgdir va'.
Proof.
  pose proof (PDX_range va') as Hd'. pose proof (PTX_range va') as Hi'.
  unfold translate. rewrite with_table_pgtab by done. case_decide as E.
  - rewrite with_table_zero by done. by rewrite E, Hnone.
  - destruct (pgtab m pgdir (PDX va')) as [t|] eqn:Ht; [|done].
    destruct (old_table _ _ Hd' Ht) as (Htp & Hn1 & Hn2 & _).
    rewrite with_table_far; [done|..].
    + destruct (page_far e t x) as [?|?]; [done..| |]; unfold PGSIZE in *; lia.
    + destruct (page_far e t pgdir) as [?|?]; [done|apply Hpt|done| |]; unfold PGSIZE in *; lia.
Qed.

Lemma with_table_ok : pt_ok e m' pgdir l.
Proof.
  destruct Hpt as [Hb Hdir Hdu _ Hinj]. apply not_elem_of_cons in Hdu as [Hdx Hdl].
  split; try done.
  - intros d t Hd. rewrite with_table_pgtab by done. case_decide.
    + intros [= <-]. done.
    + intros Ht. destruct (old_table d t) as (? & ? & ? & ?); done.
  - intros d d' t Hd Hd'. rewrite !with_table_pgtab by done. repeat case_decide; try congruence.
    + intros [= <-] Ht. destruct (old_table d' x) as (? & ? & ? & ?); done.
    + intros Ht [= <-]. destruct (old_table d x) as (? & ? & ? & ?); done.
    + by apply Hinj.
Qed.
End new_table.

(** ** [walkpgdir] and [mappages] *)

Section walk.
Implicit Types (k : kernel) (pgdir va pa perm : Z) (l : list Z).

Lemma walk_hit k pgdir va alloc t :
  pgtab (k_mem k) pgdir (PDX va) = Some t -> walkpgdir pgdir va alloc k = Ret (t + 4 * PTX va) k.
Proof.
  unfold pgtab, walkpgdir. intros H. mstep. rewrite PTE_P_eq.
  destruct (_ mod 2 =? 0); [done|]. by injection H as <-.
Qed.

Lemma walk_miss k pgdir va :
  pgtab (k_mem k) pgdir (PDX va) = None -> walkpgdir pgdir va 0 k = Ret 0 k.
Proof.
  unfold pgtab, walkpgdir. intros H. mstep. rewrite PTE_P_eq. by destruct (_ mod 2 =? 0).
Qed.

Lemma walk_alloc k pgdir va :
  kmem_ready k -> pgtab (k_mem k) pgdir (PDX va) = None ->
  walkpgdir pgdir va 1 k =
    if k_freelist k =? 0 then Ret 0 (kst k (kmem_mach k))
    else Ret (k_freelist k + 4 * PTX va)
      (kst (k <| k_freelist := load32 (k_mem k) (k_freelist k) |>
              <| k_mem ::= fun m => with_table m pgdir va (k_freelist k) |>) (kmem_mach k)).
Proof.
  unfold pgtab, walkpgdir. intros Hr H. mstep. rewrite PTE_P_eq. destruct (_ mod 2 =? 0); [|done].
  cbn [negb]. change (1 =? 0) with false. cbv iota. run kalloc_run; [|done]. destruct (k_freelist k =? 0); [done|].
  mstep. mstep. by knorm.
Qed.

(** The last round of the loop of [mappages]: enter one page. *)
Definition enter_page (pgdir va pa perm : Z) : K Z :=
  pte ← walkpgdir pgdir va 1;
  if pte =? 0 then mret (-1)
  else
    v ← ld pte;
    if negb (Z.land v PTE_P =? 0) then panic "remap"
    else st pte (Z.lor (Z.lor pa perm) PTE_P) ;;; mret 0.

Lemma mappages_one k pgdir va pa perm :
  0 <= va < 2 ^ 32 -> va mod PGSIZE = 0 ->
  mappages pgdir va PGSIZE pa perm k = enter_page pgdir va pa perm k.
Proof.
  intros Hva Ha. unfold mappages. rewrite !PGROUNDDOWN_eq.
  assert (va / 4096 * 4096 = va) as -> by (unfold PGSIZE in *; dlia).
  assert (u32 (va + PGSIZE - 1) / 4096 * 4096 = va) as ->.
  { unfold u32, PGSIZE in *. change (2 ^ 32) with 4294967296 in *. dlia. }
  assert (Z.to_nat (2 ^ 20) = S (Z.to_nat (2 ^ 20 - 1))) as -> by (rewrite <- Z2Nat.inj_succ; [done|lia]).
  cbn [mappages_loop]. by rewrite Z.eqb_refl.
Qed.

(** The present bit of an entry [mappages] writes. *)
Lemma entry_range pa perm :
  0 <= pa < 2 ^ 32 -> pa mod PGSIZE = 0 -> 0 <= perm < PGSIZE ->
  0 <= Z.lor (Z.lor pa perm) PTE_P < 2 ^ 32 /\ Z.lor (Z.lor pa perm) PTE_P mod 2 = 1.
Proof.
  intros Hpa Ha Hp. rewrite <- Z.lor_assoc. unfold PGSIZE in *.
  assert (Hb : 0 <= Z.lor perm PTE_P < 4096).
  { split; [apply Z.lor_nonneg; unfold PTE_P; lia|].
    apply (Z.log2_lt_cancel _ (2 ^ 12)). rewrite Z.log2_pow2, Z.log2_lor by (unfold PTE_P; lia).
    assert (Z.log2 perm < 12); [|unfold PTE_P; simpl (Z.log2 1); lia].
    destruct (Z.eq_dec perm 0) as [->|]; [done|]. apply Z.log2_lt_pow2; lia. }
  rewrite lor_flags by done. change (2 ^ 32) with 4294967296 in *.
  assert (Hodd : Z.lor perm PTE_P mod 2 = 1).
  { change 2 with (2 ^ 1). rewrite <- Z.land_ones by lia. rewrite Z.land_lor_distr_l.
    change (Z.land PTE_P (Z.ones 1)) with 1. rewrite Z.land_ones by lia. change (2 ^ 1) with 2.
    destruct (Z.mod_pos_bound perm 2) as [? ?]; [lia|].
    assert (perm mod 2 = 0 \/ perm mod 2 = 1) as [-> | ->] by lia; done. }
  split; dlia.
Qed.
End walk.

(** The kernel and the page table [pgdir] in a usable state, [l] free. *)
Record vm_ready (k : kernel) (pgdir : Z) (l : list Z) : Prop := {
  vr_kmem : kmem_ready k;
  vr_free : free_pages k l;
  vr_pt : pt_ok (k_end k) (k_mem k) pgdir l }.

Section map_page.
Implicit Types (k : kernel) (pgdir va pa perm : Z) (l : list Z).

(** Storing an entry keeps the free list intact. *)
Lemma store_entry_ready k pgdir l va t v :
  vm_ready k pgdir l -> pgtab (k_mem k) pgdir (PDX va) = Some t -> 0 <= v < 2 ^ 32 ->
  vm_ready (k <| k_mem ::= fun m => store32 m (t + 4 * PTX va) v |>) pgdir l.
Proof.
  intros [Hk Hf Hp] Ht Hv. destruct (pt_tab _ _ _ _ Hp _ _ (PDX_range va) Ht) as (Htp & _ & Htl).
  split; [done| |by eapply store_entry]. apply free_pages_mem; [done|].
  eapply link_frame; [exact Htp|apply (fp_pages _ _ Hf)|done|].
  intros x Hx. apply store32_out. pose proof (PTX_range va). unfold PGSIZE in *. lia.
Qed.

(** Hanging a new table into the directory. *)
Lemma with_table_ready k pgdir va x l :
  vm_ready k pgdir (x :: l) -> pgtab (k_mem k) pgdir (PDX va) = None ->
  let k' := kst (k <| k_freelist := load32 (k_mem k) x |>
                   <| k_mem ::= fun m => with_table m pgdir va x |>) (kmem_mach k) in
  vm_ready k' pgdir l /\ pgtab (k_mem k') pgdir (PDX va) = Some x /\
  (forall va', translate (k_mem k') pgdir va' = translate (k_mem k) pgdir va').
Proof.
  intros [Hk Hf Hp] Hn k'. destruct (free_pages_pop _ _ _ Hf) as (Hfx & Hx0 & Hxp & Hxl & Hfl).
  pose proof (pt_dir_used _ _ _ _ Hp) as Hdu. apply not_elem_of_cons in Hdu as [Hdx Hdl].
  split_and!.
  - split; [by eapply (kmem_ready_step k)| |by apply with_table_ok].
    apply free_pages_kst, free_pages_mem; [done|]. intros y Hy.
    pose proof (fp_pages _ _ Hfl) as Hpl. rewrite Forall_forall in Hpl. specialize (Hpl y Hy).
    simpl in Hpl. eapply with_table_far; [done..| |].
    + destruct (page_far (k_end k) x y) as [?|?]; [done..|by intros ->| |]; unfold PGSIZE in *; lia.
    + destruct (page_far (k_end k) pgdir y) as [?|?];
        [apply (pt_dir _ _ _ _ Hp)|done|by intros ->| |]; unfold PGSIZE in *; lia.
  - simpl. erewrite with_table_pgtab; [|done..|apply PDX_range]. by rewrite decide_True.
  - intros va'. by eapply with_table_translate.
Qed.

(** Writing the entry, once the table is there. *)
Lemma enter_hit k pgdir va pa perm l t :
  vm_ready k pgdir l -> pgtab (k_mem k) pgdir (PDX va) = Some t ->
  translate (k_mem k) pgdir va = None ->
  0 <= va < 2 ^ 32 -> 0 <= pa < 2 ^ 32 -> pa mod PGSIZE = 0 -> 0 <= perm < PGSIZE ->
  let v := Z.lor (Z.lor pa perm) PTE_P in
  let k' := k <| k_mem ::= fun m => store32 m (t + 4 * PTX va) v |> in
  (v ← ld (t + 4 * PTX va); if negb (Z.land v PTE_P =? 0) then panic "remap"
    else st (t + 4 * PTX va) (Z.lor (Z.lor pa perm) PTE_P) ;;; mret 0) k = Ret 0 k' /\
  vm_ready k' pgdir l /\
  (forall va', 0 <= va' < 2 ^ 32 -> translate (k_mem k') pgdir va' =
     if decide (va' / PGSIZE = va / PGSIZE) then Some v else translate (k_mem k) pgdir va').
Proof.
  intros Hr Ht Htr Hva Hpa Hpaa Hperm v k'. destruct (entry_range pa perm) as [Hv Hodd]; [done..|].
  fold v in Hv, Hodd. split_and!.
  - mstep. unfold translate in Htr. rewrite Ht in Htr. rewrite PTE_P_eq.
    by destruct (load32 (k_mem k) (t + 4 * PTX va) mod 2 =? 0).
  - by apply store_entry_ready.
  - intros va' Hva'. destruct (store_entry _ _ _ _ va t v (vr_pt _ _ _ Hr) Ht Hv) as (_ & _ & Htra).
    simpl. rewrite Htra, Hodd. change (1 =? 0) with false. cbv iota. pose proof (same_page va va' Hva Hva') as Hsp.
    unfold PGSIZE. repeat case_decide; tauto.
Qed.
End map_page.

(** [mappages] on one page: an address that is mapped already panics with
    "remap"; without memory for a page table the call fails with -1 and
    nothing changes; otherwise the page is mapped to [pa] with [perm], every
    other address translates as before, and the page tables and the free list
    stay disjoint. *)
Theorem mappages_page (k : kernel) (pgdir va pa perm : Z) (l : list Z) :
  vm_ready k pgdir l -> 0 <= va < 2 ^ 32 -> va mod PGSIZE = 0 ->
  0 <= pa < 2 ^ 32 -> pa mod PGSIZE = 0 -> 0 <= perm < PGSIZE ->
  match translate (k_mem k) pgdir va, pgtab (k_mem k) pgdir (PDX va), l with
  | Some _, _, _ => mappages pgdir va PGSIZE pa perm k = Panic "remap"
  | None, None, [] => mappages pgdir va PGSIZE pa perm k = Ret (-1) (kst k (kmem_mach k))
  | None, tab, _ =>
      exists k', mappages pgdir va PGSIZE pa perm k = Ret 0 k' /\
        vm_ready k' pgdir (match tab with Some _ => l | None => tail l end) /\
        (forall va', 0 <= va' < 2 ^ 32 -> translate (k_mem k') pgdir va' =
           if decide (va' / PGSIZE = va / PGSIZE) then Some (Z.lor (Z.lor pa perm) PTE_P)
           else translate (k_mem k) pgdir va')
  end.
Proof.
  intros Hr Hva Ha Hpa Hpaa Hperm. rewrite mappages_one by done. unfold enter_page.
  pose proof (PTX_range va) as Hi. pose proof (vr_pt _ _ _ Hr) as Hpt.
  assert (Hnz : forall e x, KERNBASE <= e -> page_ok e x -> (x + 4 * PTX va =? 0) = false).
  { intros e x He (_ & ? & _). apply Z.eqb_neq. unfold KERNBASE in *. lia. }
  destruct (pgtab (k_mem k) pgdir (PDX va)) as [t|] eqn:Ht.
  - destruct (pt_tab _ _ _ _ Hpt _ _ (PDX_range va) Ht) as (Htp & _).
    rewrite (bind_Ret _ _ _ _ _ (walk_hit k pgdir va 1 t Ht)), (Hnz (k_end k)) by (done || apply Hpt).
    destruct (translate (k_mem k) pgdir va) as [v|] eqn:Htr.
    + mstep. unfold translate in Htr. rewrite Ht in Htr. rewrite PTE_P_eq.
      by destruct (load32 (k_mem k) (t + 4 * PTX va) mod 2 =? 0).
    + destruct (enter_hit k pgdir va pa perm l t) as (Hrun & Hr' & Htra); [done..|].
      eexists. split; [exact Hrun|]. done.
  - assert (translate (k_mem k) pgdir va = None) as -> by (unfold translate; by rewrite Ht).
    pose proof (walk_alloc k pgdir va (vr_kmem _ _ _ Hr) Ht) as Hw.
    destruct l as [|x l].
    + assert (Hf0 : k_freelist k = 0) by apply (vr_free _ _ _ Hr). rewrite Hf0 in Hw. by run Hw.
    + destruct (free_pages_pop _ _ _ (vr_free _ _ _ Hr)) as (Hfx & Hx0 & Hxp & _).
      rewrite Hfx in Hw. destruct (Z.eqb_spec x 0); [done|]. run Hw.
      rewrite (Hnz (k_end k)) by (done || apply Hpt).
      destruct (with_table_ready k pgdir va x l Hr Ht) as (Hr1 & Ht1 & Htr1).
      destruct (enter_hit _ pgdir va pa perm l x Hr1 Ht1) as (Hrun & Hr' & Htra); try done.
      { rewrite Htr1. unfold translate. by rewrite Ht. }
      eexists. split; [exact Hrun|]. split; [done|]. intros va' Hva'. by rewrite Htra, Htr1.
Qed.

(** An empty page directory and one free page. *)
Definition kernel_vm : kernel := (kernel0 0x80400000) <| k_freelist := 0x80401000 |>.

Lemma kernel_vm_ready : vm_ready kernel_vm 0x80400000 [0x80401000].
Proof.
  assert (Hp : forall v, v = 0x80400000 \/ v = 0x80401000 -> page_ok 0x80400000 v).
  { intros v [-> | ->]; unfold page_ok; by split_and!. }
  split; [by intros H|split|split; try done].
  - done.
  - apply Forall_singleton. apply Hp. by right.
  - apply NoDup_singleton.
  - apply not_elem_of_cons. split; [done|apply not_elem_of_nil].
Qed.

Lemma mappages_page_witness :
  exists k', mappages 0x80400000 0x1000 PGSIZE 0x5000 (Z.lor PTE_W PTE_U) kernel_vm = Ret 0 k' /\
    translate (k_mem k') 0x80400000 0x1234 = Some 0x5007 /\
    translate (k_mem k') 0x80400000 0x2000 = None.
Proof.
  destruct (mappages_page kernel_vm 0x80400000 0x1000 0x5000 (Z.lor PTE_W PTE_U) [0x80401000]
    kernel_vm_ready) as (k' & Hrun & _ & Htr); try done.
  exists k'. split; [exact Hrun|]. split; by rewrite Htr.
Defined.
