(* ===== verification/Kvm.v ===== *)
(** * The kernel's address space ([vm.c])

    [mappages] on a range of pages, [setupkvm] and [kvmalloc].  A call that maps
    pages [grows] the address space: it takes pages from the free list for page
    tables, one for each directory entry it fills, and memory outside the
    directory and the tables stays as it is.

    [boot_maps_kernel]: from the memory the boot loader leaves, [kinit1] and
    [kvmalloc] install a page table that translates the kernel's addresses as
    the comment on [kmap] says, and no others. *)

From S2P Require Import Prelude State Spinlock CString Kalloc Console Vm.
Open Scope Z_scope.

(** ** Growing an address space *)

(** How many of the directory entries [D] have no page table. *)
Definition need (m : mem) (pgdir : Z) (D : list Z) : nat := length (filter (fun d => pgtab m pgdir d = None) D).

(** The directory and the page tables. *)
Definition owned (m : mem) (pgdir a : Z) : Prop :=
  pgdir <= a < pgdir + PGSIZE \/ exists d t, 0 <= d < 1024 /\ pgtab m pgdir d = Some t /\ t <= a < t + PGSIZE.

Record grows (pgdir : Z) (D : list Z) (k : kernel) (l : list Z) (k' : kernel) (l' : list Z) : Prop := {
  gr_same : k' = kst (k <| k_mem := k_mem k' |> <| k_freelist := k_freelist k' |>) (k_mach k');
  gr_ready : vm_ready k' pgdir l';
  gr_suffix : l' `suffix_of` l;
  gr_tabs : forall d t, 0 <= d < 1024 -> pgtab (k_mem k) pgdir d = Some t -> pgtab (k_mem k') pgdir d = Some t;
  gr_new : forall d t, 0 <= d < 1024 -> pgtab (k_mem k') pgdir d = Some t -> pgtab (k_mem k) pgdir d = Some t \/ d ∈ D /\ t ∈ l;
  gr_need : (need (k_mem k) pgdir D + length l' = need (k_mem k') pgdir D + length l)%nat;
  gr_frame : forall a, ~ owned (k_mem k') pgdir a -> k_mem k' a = k_mem k a;
  gr_bytes : mem_ok (k_mem k) -> mem_ok (k_mem k');
  gr_mach : settle (k_mach k) = k_mach k -> k_mach k' = k_mach k }.

Section grows.
Implicit Types (k : kernel) (m : mem) (pgdir va pa perm d t : Z) (l D : list Z).

Lemma grows_refl pgdir D k l : vm_ready k pgdir l -> grows pgdir D k l k l.
Proof. intros H. split; try done; [by destruct k|by left]. Qed.

Lemma owned_mono m m' pgdir a :
  (forall d t, 0 <= d < 1024 -> pgtab m pgdir d = Some t -> pgtab m' pgdir d = Some t) -> owned m pgdir a -> owned m' pgdir a.
Proof. intros H [Ha|(d & t & Hd & Ht & Ha)]; [by left|]. right. exists d, t. auto. Qed.

Lemma grows_trans pgdir D k l k1 l1 k2 l2 : grows pgdir D k l k1 l1 -> grows pgdir D k1 l1 k2 l2 -> grows pgdir D k l k2 l2.
Proof.
  intros G1 G2. split.
  - rewrite (gr_same _ _ _ _ _ _ G2), (gr_same _ _ _ _ _ _ G1). by knorm.
  - apply G2.
  - by etrans; [apply G2|apply G1].
  - intros d t Hd Ht. apply G2; [done|]. by apply G1.
  - intros d t Hd Ht. destruct (gr_new _ _ _ _ _ _ G2 d t Hd Ht) as [H|[HD H]].
    + by apply G1.
    + right. split; [done|]. destruct (gr_suffix _ _ _ _ _ _ G1) as [ts ->]. set_solver.
  - pose proof (gr_need _ _ _ _ _ _ G1). pose proof (gr_need _ _ _ _ _ _ G2). lia.
  - intros a Ha. rewrite (gr_frame _ _ _ _ _ _ G2 a Ha). apply (gr_frame _ _ _ _ _ _ G1). intros H. apply Ha.
    eapply owned_mono; [|exact H]. apply G2.
  - intros H. by apply G2, G1.
  - intros H. pose proof (gr_mach _ _ _ _ _ _ G1 H) as H1. by rewrite (gr_mach _ _ _ _ _ _ G2), H1 by by rewrite H1.
Qed.

Lemma need_ext m m' pgdir D : (forall d, d ∈ D -> pgtab m' pgdir d = pgtab m pgdir d) -> need m' pgdir D = need m pgdir D.
Proof.
  unfold need. induction D as [|d D IH]; intros H; [done|]. rewrite !filter_cons, (H d) by set_solver.
  case_decide; cbn [length]; rewrite IH; set_solver.
Qed.

(** Filling one more directory entry. *)
Lemma need_fill m m' pgdir D d0 :
  NoDup D -> d0 ∈ D -> pgtab m pgdir d0 = None -> is_Some (pgtab m' pgdir d0) ->
  (forall d, d ∈ D -> d <> d0 -> pgtab m' pgdir d = pgtab m pgdir d) -> need m pgdir D = S (need m' pgdir D).
Proof.
  intros Hnd Hin Hn [t Ht] Ho. induction D as [|d D IH]; [by apply not_elem_of_nil in Hin|].
  apply NoDup_cons in Hnd as [Hd HD]. destruct (decide (d = d0)) as [->|Hne].
  - pose proof (need_ext m m' pgdir D) as He. unfold need in *. rewrite !filter_cons, decide_True, decide_False by (done || by rewrite Ht).
    cbn [length]. f_equal. symmetry. apply He. intros x Hx. apply Ho; [set_solver|by intros ->].
  - unfold need in *. rewrite !filter_cons, (Ho d) by set_solver. assert (d0 ∈ D) by set_solver. case_decide; cbn [length]; rewrite IH; set_solver.
Qed.

Lemma need_all m pgdir D : (forall d, d ∈ D -> pgtab m pgdir d = None) -> need m pgdir D = length D.
Proof. unfold need. induction D as [|d D IH]; intros H; [done|]. rewrite filter_cons, decide_True by set_solver. cbn [length]. f_equal. apply IH. set_solver. Qed.

Lemma need_zero m pgdir D : (forall d, d ∈ D -> pgtab m pgdir d <> None) -> need m pgdir D = 0%nat.
Proof. unfold need. induction D as [|d D IH]; intros H; [done|]. rewrite filter_cons, decide_False by set_solver. apply IH. set_solver. Qed.

Lemma need_pos m pgdir D d : d ∈ D -> pgtab m pgdir d = None -> (0 < need m pgdir D)%nat.
Proof.
  intros Hd Hn. unfold need. assert (H : d ∈ filter (fun d => pgtab m pgdir d = None) D) by (by apply list_elem_of_filter).
  destruct (filter _ D); [by apply not_elem_of_nil in H|cbn; lia].
Qed.

(** ** Mapping pages *)

(** Writing an entry into a table that is there. *)
Lemma entry_grows k pgdir l D va t v :
  vm_ready k pgdir l -> pgtab (k_mem k) pgdir (PDX va) = Some t -> 0 <= v < 2 ^ 32 -> Forall (fun d => 0 <= d < 1024) D ->
  let k' := k <| k_mem ::= fun m => store32 m (t + 4 * PTX va) v |> in
  grows pgdir D k l k' l /\ forall d, 0 <= d < 1024 -> pgtab (k_mem k') pgdir d = pgtab (k_mem k) pgdir d.
Proof.
  intros Hr Ht Hv HD k'. destruct (store_entry _ _ _ _ va t v (vr_pt _ _ _ Hr) Ht Hv) as (_ & Hpg & _). split; [|exact Hpg]. split.
  - by destruct k.
  - by apply store_entry_ready.
  - done.
  - intros d t' Hd. unfold k'. rsimpl. by rewrite Hpg.
  - intros d t' Hd. unfold k'. rsimpl. rewrite Hpg by done. by left.
  - f_equal. symmetry. apply need_ext. intros d Hd. apply Hpg. rewrite Forall_forall in HD. by apply HD.
  - intros a Ha. unfold k'. rsimpl. apply store32_out. intros Hin. apply Ha. right. exists (PDX va), t. pose proof (PDX_range va). pose proof (PTX_range va).
    split; [done|]. split; [unfold k'; rsimpl; by rewrite Hpg|unfold PGSIZE; lia].
  - apply store32_ok.
  - done.
Qed.

Lemma kmem_mach_settled k : settle (k_mach k) = k_mach k -> kmem_mach k = k_mach k.
Proof. intros H. unfold kmem_mach. by destruct (k_use_lock k =? 0). Qed.

(** Hanging a table into the directory. *)
Lemma table_grows k pgdir va x l D :
  vm_ready k pgdir (x :: l) -> pgtab (k_mem k) pgdir (PDX va) = None -> NoDup D -> PDX va ∈ D -> Forall (fun d => 0 <= d < 1024) D ->
  let k' := kst (k <| k_freelist := load32 (k_mem k) x |> <| k_mem ::= fun m => with_table m pgdir va x |>) (kmem_mach k) in
  grows pgdir D k (x :: l) k' l /\
  forall d, 0 <= d < 1024 -> pgtab (k_mem k') pgdir d = if decide (d = PDX va) then Some x else pgtab (k_mem k) pgdir d.
Proof.
  intros Hr Hn Hnd Hin HD k'. rewrite Forall_forall in HD. destruct (free_pages_pop _ _ _ (vr_free _ _ _ Hr)) as (_ & _ & Hxp & Hxl & _).
  assert (Hpg : forall d, 0 <= d < 1024 -> pgtab (k_mem k') pgdir d = if decide (d = PDX va) then Some x else pgtab (k_mem k) pgdir d).
  { intros d Hd. eapply with_table_pgtab; [apply Hr|done..]. }
  split; [|exact Hpg]. split.
  - by destruct k.
  - by apply with_table_ready.
  - by exists [x].
  - intros d t Hd Ht. rewrite Hpg by done. case_decide as E; [|done]. subst d. by rewrite Hn in Ht.
  - intros d t Hd. rewrite Hpg by done. case_decide as E; [|by left]. intros [= <-]. subst d. right. set_solver.
  - cbn [length]. rewrite (need_fill (k_mem k) (k_mem k') pgdir D (PDX va)); [lia|done..| |].
    + rewrite Hpg by apply PDX_range. rewrite decide_True by done. by eexists.
    + intros d Hd Hne. rewrite Hpg by by apply HD. by rewrite decide_False.
  - intros a Ha. unfold k'. ksimpl. unfold with_table. pose proof (PDX_range va) as Hd.
    rewrite store32_out, memset_fill, within_false; [done| |unfold PGSIZE; lia|].
    + intros H. apply Ha. right. exists (PDX va), x. rewrite Hpg, decide_True by done. done.
    + intros H. apply Ha. left. unfold PGSIZE. lia.
  - intros H. by apply store32_ok, memset_ok.
  - apply kmem_mach_settled.
Qed.

Lemma entry_nonzero k pgdir l va t : vm_ready k pgdir l -> pgtab (k_mem k) pgdir (PDX va) = Some t -> (t + 4 * PTX va =? 0) = false.
Proof.
  intros Hr Ht. pose proof (vr_pt _ _ _ Hr) as Hpt. destruct (pt_tab _ _ _ _ Hpt _ _ (PDX_range va) Ht) as ((_ & He & _) & _).
  pose proof (pt_base _ _ _ _ Hpt). pose proof (PTX_range va). apply Z.eqb_neq. unfold KERNBASE in *. lia.
Qed.

(** What [mappages] does with one page that is not mapped. *)
Lemma enter_page_run k pgdir va pa perm l D :
  vm_ready k pgdir l -> translate (k_mem k) pgdir va = None -> NoDup D -> PDX va ∈ D -> Forall (fun d => 0 <= d < 1024) D -> (need (k_mem k) pgdir D <= length l)%nat ->
  0 <= va < 2 ^ 32 -> 0 <= pa < 2 ^ 32 -> pa mod PGSIZE = 0 -> 0 <= perm < PGSIZE ->
  exists k' l', enter_page pgdir va pa perm k = Ret 0 k' /\ grows pgdir D k l k' l' /\
    (forall d, 0 <= d < 1024 -> is_Some (pgtab (k_mem k') pgdir d) <-> is_Some (pgtab (k_mem k) pgdir d) \/ d = PDX va) /\
    (forall va', 0 <= va' < 2 ^ 32 -> translate (k_mem k') pgdir va' =
       if decide (va' / PGSIZE = va / PGSIZE) then Some (Z.lor (Z.lor pa perm) PTE_P) else translate (k_mem k) pgdir va').
Proof.
  intros Hr Htr Hnd HinD HD Hneed Hva Hpa Hpaa Hperm. unfold enter_page. pose proof (vr_pt _ _ _ Hr) as Hpt. destruct (entry_range pa perm) as [Hv _]; [done..|].
  destruct (pgtab (k_mem k) pgdir (PDX va)) as [t|] eqn:Ht.
  - rewrite (bind_Ret _ _ _ _ _ (walk_hit k pgdir va 1 t Ht)), (entry_nonzero k pgdir l va t) by done.
    destruct (enter_hit k pgdir va pa perm l t) as (Hrun & _ & Htra); [done..|]. destruct (entry_grows k pgdir l D va t _ Hr Ht Hv HD) as [Hg Hpg].
    eexists _, l. split; [exact Hrun|]. split; [done|]. split; [|done]. intros d Hd. rewrite Hpg by done. split; [by left|]. intros [H|E]; [done|]. subst d. rewrite Ht. by eexists.
  - pose proof (need_pos _ _ _ _ HinD Ht) as Hpos. destruct l as [|x l]; [cbn in Hneed; lia|].
    destruct (free_pages_pop _ _ _ (vr_free _ _ _ Hr)) as (Hfx & Hx0 & Hxp & _). pose proof (walk_alloc k pgdir va (vr_kmem _ _ _ Hr) Ht) as Hw. rewrite Hfx, (proj2 (Z.eqb_neq x 0)) in Hw by done.
    destruct (with_table_ready k pgdir va x l Hr Ht) as (Hr1 & Ht1 & Htr1). destruct (table_grows k pgdir va x l D Hr Ht Hnd HinD HD) as [Hg1 Hpg1].
    rewrite (bind_Ret _ _ _ _ _ Hw), (entry_nonzero _ pgdir l va x Hr1 Ht1). destruct (enter_hit _ pgdir va pa perm l x Hr1 Ht1) as (Hrun & _ & Htra); [by rewrite Htr1|done..|].
    destruct (entry_grows _ pgdir l D va x _ Hr1 Ht1 Hv HD) as [Hg2 Hpg2].
    eexists _, l. split; [exact Hrun|]. split; [by eapply grows_trans|]. split; [|intros va' Hva'; by rewrite Htra, Htr1 by done].
    intros d Hd. rewrite Hpg2, Hpg1 by done. case_decide as E; [|tauto]. split; [by right|by eexists].
Qed.

(** A round of the loop of [mappages]. *)
Lemma mappages_round fuel pgdir va last pa perm k k1 :
  enter_page pgdir va pa perm k = Ret 0 k1 ->
  mappages_loop (S fuel) pgdir va last pa perm k =
    if va =? last then Ret 0 k1 else mappages_loop fuel pgdir (u32 (va + PGSIZE)) last (u32 (pa + PGSIZE)) perm k1.
Proof.
  unfold enter_page. cbn [mappages_loop]. unfold mbind, M_bind. destruct (walkpgdir pgdir va 1 k) as [pte k0| | | | |]; cbn [res_bind]; [|done..].
  destruct (pte =? 0); [by intros [= ]|]. change (ld pte k0) with (@Ret kernel Z (load32 (k_mem k0) pte) k0). cbn [res_bind]. destruct (Z.land (load32 (k_mem k0) pte) PTE_P =? 0); cbn; [|done]. intros [= <-]. by destruct (va =? last).
Qed.
End grows.

(** Pages [va], [va + PGSIZE], ... mapped to [pa], [pa + PGSIZE], ... *)
Definition page_entry (pa perm : Z) : Z := Z.lor (Z.lor pa perm) PTE_P.
Definition map_range (va n pa perm : Z) (f : Z -> option Z) (va' : Z) : option Z :=
  if decide (va <= va' < va + n * PGSIZE) then Some (page_entry (pa + (PGROUNDDOWN va' - va)) perm) else f va'.

Section ranges.
Implicit Types (k : kernel) (pgdir va pa perm d : Z) (l D : list Z) (n : nat).

Lemma mappages_loop_run pgdir perm D last : NoDup D -> Forall (fun d => 0 <= d < 1024) D -> 0 <= perm < PGSIZE ->
  forall n fuel va pa k l,
  vm_ready k pgdir l -> (need (k_mem k) pgdir D <= length l)%nat ->
  0 <= va -> va mod PGSIZE = 0 -> va + Z.of_nat (S n) * PGSIZE <= 2 ^ 32 -> last = va + Z.of_nat n * PGSIZE ->
  0 <= pa -> pa mod PGSIZE = 0 -> pa + Z.of_nat (S n) * PGSIZE <= 2 ^ 32 ->
  (forall i, 0 <= i <= Z.of_nat n -> PDX (va + i * PGSIZE) ∈ D) ->
  (forall va', va <= va' < va + Z.of_nat (S n) * PGSIZE -> translate (k_mem k) pgdir va' = None) ->
  exists k' l', mappages_loop (S n + fuel) pgdir va last pa perm k = Ret 0 k' /\ grows pgdir D k l k' l' /\
    (forall d, 0 <= d < 1024 -> is_Some (pgtab (k_mem k') pgdir d) <-> is_Some (pgtab (k_mem k) pgdir d) \/ exists i, 0 <= i <= Z.of_nat n /\ d = PDX (va + i * PGSIZE)) /\
    (forall va', 0 <= va' < 2 ^ 32 -> translate (k_mem k') pgdir va' = map_range va (Z.of_nat (S n)) pa perm (translate (k_mem k) pgdir) va').
Proof.
  intros Hnd HD Hperm. induction n as [|n IH]; intros fuel va pa k l Hr Hneed Hva Hal Hva2 Hlast Hpa Hpal Hpa2 HinD Hfree; unfold PGSIZE in Hva2, Hpa2.
  - destruct (enter_page_run k pgdir va pa perm l D) as (k' & l' & Hrun & Hg & Hpg & Htr); try (done || lia).
    { apply Hfree. unfold PGSIZE. lia. } { specialize (HinD 0). rewrite Z.mul_0_l, Z.add_0_r in HinD. apply HinD. lia. }
    exists k', l'. split; [|split; [done|split]].
    + cbn [Nat.add]. rewrite (mappages_round _ _ _ _ _ _ _ _ Hrun). by rewrite (proj2 (Z.eqb_eq va last)) by lia.
    + intros d Hd. rewrite Hpg by done. split; (intros [H|H]; [by left|right]); [exists 0; split; [lia|by rewrite Z.mul_0_l, Z.add_0_r]|].
      destruct H as (i & Hi & ->). replace i with 0 by lia. by rewrite Z.mul_0_l, Z.add_0_r.
    + intros va' Hva'. rewrite Htr by done. unfold map_range. rewrite PGROUNDDOWN_eq. unfold PGSIZE in *.
      destruct (decide (va' / 4096 = va / 4096)) as [E|E]; [rewrite decide_True by dlia|by rewrite decide_False by dlia].
      unfold page_entry. rewrite E. replace (pa + _) with pa by dlia. done.
  - destruct (enter_page_run k pgdir va pa perm l D) as (k1 & l1 & Hrun & Hg & Hpg & Htr); try (done || lia).
    { apply Hfree. unfold PGSIZE. lia. } { specialize (HinD 0). rewrite Z.mul_0_l, Z.add_0_r in HinD. apply HinD. lia. }
    destruct (IH fuel (va + PGSIZE) (pa + PGSIZE) k1 l1) as (k' & l' & Hrun' & Hg' & Hpg' & Htr'); clear IH; try (unfold PGSIZE in *; lia || dlia).
    { apply Hg. } { pose proof (gr_need _ _ _ _ _ _ Hg). lia. }
    { intros i Hi. replace (va + PGSIZE + i * PGSIZE) with (va + (i + 1) * PGSIZE) by lia. apply HinD. lia. }
    { intros va' Hva'. unfold PGSIZE in *. rewrite Htr by lia. rewrite decide_False by dlia. apply Hfree. lia. }
    exists k', l'. split; [|split; [by eapply grows_trans|split]].
    + cbn [Nat.add]. rewrite (mappages_round _ _ _ _ _ _ _ _ Hrun). unfold PGSIZE in *. rewrite (proj2 (Z.eqb_neq va last)) by lia.
      assert (Hu : forall x, 0 <= x < 2 ^ 32 -> u32 x = x) by (intros; by apply Z.mod_small). by rewrite !Hu by lia.
    + intros d Hd. rewrite Hpg', Hpg by done. split.
      * intros [[H|H]|(i & Hi & ->)]; [by left|right; exists 0; split; [lia|]; by rewrite Z.mul_0_l, Z.add_0_r|].
        right. exists (i + 1). split; [lia|]. f_equal. lia.
      * intros [H|(i & Hi & ->)]; [tauto|]. destruct (decide (i = 0)) as [->|]; [left; right; by rewrite Z.mul_0_l, Z.add_0_r|].
        right. exists (i - 1). split; [lia|]. f_equal. lia.
    + intros va' Hva'. rewrite Htr' by done. unfold map_range. rewrite Htr by done. rewrite PGROUNDDOWN_eq. unfold PGSIZE in *.
      destruct (decide (va + 4096 <= va' < _)) as [E|E]; [rewrite decide_True by lia; do 2 f_equal; lia|].
      destruct (decide (va' / 4096 = va / 4096)) as [E'|E']; [rewrite decide_True by dlia|by rewrite decide_False by dlia].
      unfold page_entry. rewrite E'. replace (pa + _) with pa by dlia. done.
Qed.

(** [mappages] on [n] pages that are not mapped. *)
Lemma mappages_run pgdir va size pa perm D k l n :
  NoDup D -> Forall (fun d => 0 <= d < 1024) D -> 0 <= perm < PGSIZE ->
  vm_ready k pgdir l -> (need (k_mem k) pgdir D <= length l)%nat ->
  size = Z.of_nat (S n) * PGSIZE -> 0 <= va -> va mod PGSIZE = 0 -> va + size <= 2 ^ 32 ->
  0 <= pa -> pa mod PGSIZE = 0 -> pa + size <= 2 ^ 32 ->
  (forall i, 0 <= i <= Z.of_nat n -> PDX (va + i * PGSIZE) ∈ D) ->
  (forall va', va <= va' < va + size -> translate (k_mem k) pgdir va' = None) ->
  exists k' l', mappages pgdir va size pa perm k = Ret 0 k' /\ grows pgdir D k l k' l' /\
    (forall d, 0 <= d < 1024 -> is_Some (pgtab (k_mem k') pgdir d) <-> is_Some (pgtab (k_mem k) pgdir d) \/ exists i, 0 <= i <= Z.of_nat n /\ d = PDX (va + i * PGSIZE)) /\
    (forall va', 0 <= va' < 2 ^ 32 -> translate (k_mem k') pgdir va' = map_range va (Z.of_nat (S n)) pa perm (translate (k_mem k) pgdir) va').
Proof.
  intros Hnd HD Hperm Hr Hneed -> Hva Hal Hva2 Hpa Hpal Hpa2 HinD Hfree. unfold mappages. unfold PGSIZE in Hva2, Hpa2. change (2 ^ 32) with (4096 * 1048576) in *.
  assert (Hf : Z.to_nat (2 ^ 20) = (S n + (Z.to_nat (2 ^ 20) - S n))%nat) by (change (2 ^ 20) with 1048576; lia). rewrite Hf.
  rewrite !PGROUNDDOWN_eq. replace (va / 4096 * 4096) with va by (unfold PGSIZE in *; dlia).
  apply mappages_loop_run; try (done || lia). unfold u32, PGSIZE in *. rewrite Z.mod_small by lia. dlia.
Qed.
End ranges.

(** ** The kernel's part of an address space *)

(** The page table entry for an address of the kernel. *)
Definition kernel_entry (data va : Z) : option Z :=
  if decide (KERNBASE <= va < KERNLINK) then Some (page_entry (V2P (PGROUNDDOWN va)) PTE_W)
  else if decide (KERNLINK <= va < data) then Some (page_entry (V2P (PGROUNDDOWN va)) 0)
  else if decide (data <= va < KERNBASE + PHYSTOP) then Some (page_entry (V2P (PGROUNDDOWN va)) PTE_W)
  else if decide (DEVSPACE <= va < 2 ^ 32) then Some (page_entry (PGROUNDDOWN va) PTE_W)
  else None.

(** The directory entries of the kernel. *)
Definition kernel_dirs : list Z := seqZ 512 56 ++ seqZ 1016 8.

(** The linker puts [data] on a page boundary, behind the code. *)
Definition data_ok (data : Z) : Prop := data mod PGSIZE = 0 /\ KERNLINK < data < KERNBASE + PHYSTOP.

Section kernel_map.
Implicit Types (k : kernel) (pgdir va pa perm d : Z) (l : list Z) (n : nat).

Lemma elem_kernel_dirs d : d ∈ kernel_dirs <-> 512 <= d < 568 \/ 1016 <= d < 1024.
Proof. unfold kernel_dirs. rewrite elem_of_app, !elem_of_seqZ. lia. Qed.
Lemma kernel_dirs_nodup : NoDup kernel_dirs.
Proof. unfold kernel_dirs. apply NoDup_app. split_and!; [apply NoDup_seqZ| |apply NoDup_seqZ]. intros d. rewrite !elem_of_seqZ. lia. Qed.
Lemma kernel_dirs_range : Forall (fun d => 0 <= d < 1024) kernel_dirs.
Proof. rewrite Forall_forall. intros d. rewrite elem_kernel_dirs. lia. Qed.

(** One entry of [kmap]. *)
Lemma kernel_range k pgdir va size pa perm l :
  vm_ready k pgdir l -> (need (k_mem k) pgdir kernel_dirs <= length l)%nat -> 0 <= perm < PGSIZE ->
  0 < size -> size mod PGSIZE = 0 -> va mod PGSIZE = 0 -> pa mod PGSIZE = 0 -> 0 <= pa -> pa + size <= 2 ^ 32 ->
  (KERNBASE <= va /\ va + size <= KERNBASE + PHYSTOP) \/ (DEVSPACE <= va /\ va + size <= 2 ^ 32) ->
  (forall va', va <= va' < va + size -> translate (k_mem k) pgdir va' = None) ->
  exists k' l', mappages pgdir va size pa perm k = Ret 0 k' /\ grows pgdir kernel_dirs k l k' l' /\ (need (k_mem k') pgdir kernel_dirs <= length l')%nat /\
    (forall va', 0 <= va' < 2 ^ 32 -> translate (k_mem k') pgdir va' = map_range va (size / PGSIZE) pa perm (translate (k_mem k) pgdir) va').
Proof.
  intros Hr Hneed Hperm Hs Hsa Hva Hpa Hpa0 Hpa2 Hrange Hfree. unfold KERNBASE, PHYSTOP, DEVSPACE, PGSIZE in *. change (2 ^ 32) with 4294967296 in *.
  assert (Hsz : size = Z.of_nat (S (Z.to_nat (size / 4096 - 1))) * 4096) by dlia.
  destruct (mappages_run pgdir va size pa perm kernel_dirs k l (Z.to_nat (size / 4096 - 1))) as (k' & l' & Hrun & Hg & _ & Htr);
    [apply kernel_dirs_nodup|apply kernel_dirs_range|done|done|done|exact Hsz|lia|done|change (2 ^ 32) with 4294967296; lia|done|done|change (2 ^ 32) with 4294967296; lia| |done|].
  - intros i Hi. apply elem_kernel_dirs. rewrite PDX_eq. unfold PGSIZE. change (2 ^ 22) with 4194304. dlia.
  - exists k', l'. split; [done|]. split; [done|]. split; [pose proof (gr_need _ _ _ _ _ _ Hg); lia|].
    intros va' Hva'. rewrite Htr by done. f_equal. dlia.
Qed.

(** An empty directory. *)
Lemma fresh_dir k x l :
  kmem_ready k -> free_pages k (x :: l) -> KERNBASE <= k_end k ->
  let k1 := kst (k <| k_freelist := load32 (k_mem k) x |> <| k_mem ::= fun m => memset m x 0 PGSIZE |>) (kmem_mach k) in
  vm_ready k1 x l /\ (forall d, 0 <= d < 1024 -> pgtab (k_mem k1) x d = None) /\
  (forall a, ~ (x <= a < x + PGSIZE) -> k_mem k1 a = k_mem k a).
Proof.
  intros Hk Hf He k1. destruct (free_pages_pop _ _ _ Hf) as (_ & _ & Hxp & Hxl & Hfl).
  assert (Hout : forall a, ~ (x <= a < x + PGSIZE) -> k_mem k1 a = k_mem k a).
  { intros a Ha. unfold k1. ksimpl. rewrite memset_fill by (unfold PGSIZE; lia). by rewrite within_false. }
  assert (Hnone : forall d, 0 <= d < 1024 -> pgtab (k_mem k1) x d = None).
  { intros d Hd. unfold pgtab, k1, load32. ksimpl. rewrite !memset_fill by (unfold PGSIZE; lia). by rewrite !within_true by (unfold PGSIZE; lia). }
  split; [|done]. split; [by eapply (kmem_ready_step k)| |].
  - apply free_pages_kst, free_pages_mem; [done|]. eapply link_frame; [exact Hxp|apply (fp_pages _ _ Hfl)|done|]. exact Hout.
  - split; [done|done|done| |]; intros d; [intros t Hd|intros d' t Hd _]; by rewrite Hnone.
Qed.

Lemma translate_fresh m pgdir va : (forall d, 0 <= d < 1024 -> pgtab m pgdir d = None) -> translate m pgdir va = None.
Proof. intros H. unfold translate. by rewrite H by apply PDX_range. Qed.

(** The sizes of the ranges of [kmap]. *)
Lemma kmap_sizes data : data_ok data ->
  V2P KERNLINK = EXTMEM /\ V2P data = data - KERNBASE /\
  u32 (EXTMEM - 0) = EXTMEM /\ u32 (V2P data - V2P KERNLINK) = data - KERNLINK /\
  u32 (PHYSTOP - V2P data) = KERNBASE + PHYSTOP - data /\ u32 (0 - DEVSPACE) = 2 ^ 32 - DEVSPACE.
Proof.
  intros [_ Hd]. unfold KERNLINK in *. assert (HV : V2P data = data - KERNBASE) by (apply V2P_P2V; unfold KERNBASE, EXTMEM, PHYSTOP in *; lia).
  rewrite HV. split_and!; try done; unfold u32, KERNBASE, EXTMEM, PHYSTOP in *; change (V2P _) with 0x100000; rewrite Z.mod_small; lia.
Qed.

(** The four ranges together. *)
Lemma kernel_map_eq data va : data_ok data -> 0 <= va < 2 ^ 32 ->
  map_range DEVSPACE ((2 ^ 32 - DEVSPACE) / PGSIZE) DEVSPACE PTE_W
    (map_range data ((KERNBASE + PHYSTOP - data) / PGSIZE) (V2P data) PTE_W
      (map_range KERNLINK ((data - KERNLINK) / PGSIZE) (V2P KERNLINK) 0
        (map_range KERNBASE (EXTMEM / PGSIZE) 0 PTE_W (fun _ => None)))) va = kernel_entry data va.
Proof.
  intros Hd Hva. destruct (kmap_sizes data Hd) as (HK & HD & _). destruct Hd as [Hal Hd].
  assert (HV : KERNBASE <= va -> V2P (PGROUNDDOWN va) = PGROUNDDOWN va - KERNBASE).
  { intros H. apply V2P_P2V. rewrite PGROUNDDOWN_eq. unfold KERNBASE in *. dlia. }
  unfold map_range, kernel_entry. rewrite HK, HD. unfold KERNLINK, KERNBASE, EXTMEM, PHYSTOP, DEVSPACE, PGSIZE in *. change (2 ^ 32) with 4294967296 in *.
  repeat (case_decide; try dlia); rewrite ?HV by lia; try done; do 2 f_equal; lia.
Qed.

Ltac kside := unfold KERNLINK, KERNBASE, EXTMEM, PHYSTOP, DEVSPACE, PGSIZE, PTE_W in *; change (2 ^ 32) with 4294967296 in *; first [lia|dlia].

Lemma map_range_out va (n : Z) pa perm f va' : ~ (va <= va' < va + n * PGSIZE) -> map_range va n pa perm f va' = f va'.
Proof. intros H. unfold map_range. by rewrite decide_False. Qed.

Lemma map_range_ext va (n : Z) pa perm f g va' : f va' = g va' -> map_range va n pa perm f va' = map_range va n pa perm g va'.
Proof. intros H. unfold map_range. by rewrite H. Qed.

Lemma map_kernel_step pgdir virt ps pe perm ms k k1 :
  mappages pgdir virt (u32 (pe - ps)) ps perm k = Ret 0 k1 -> map_kernel pgdir ((virt, ps, pe, perm) :: ms) k = map_kernel pgdir ms k1.
Proof. intros H. cbn [map_kernel]. by rewrite (bind_Ret _ _ _ _ _ H). Qed.

Lemma map_kernel_run k pgdir l data :
  vm_ready k pgdir l -> (forall d, 0 <= d < 1024 -> pgtab (k_mem k) pgdir d = None) -> (64 <= length l)%nat -> data_ok data ->
  exists k' l', map_kernel pgdir (kmap data) k = Ret pgdir k' /\ grows pgdir kernel_dirs k l k' l' /\
    (forall va, 0 <= va < 2 ^ 32 -> translate (k_mem k') pgdir va = kernel_entry data va).
Proof.
  intros Hr Hnone Hl Hd. destruct (kmap_sizes data Hd) as (HK & HD & Hs1 & Hs2 & Hs3 & Hs4). destruct (Hd) as [Hal Hd2].
  assert (Hn0 : (need (k_mem k) pgdir kernel_dirs <= length l)%nat).
  { unfold need. etrans; [apply length_filter|]. change (length kernel_dirs) with 64%nat. done. }
  unfold kmap. pose proof (fun va => translate_fresh (k_mem k) pgdir va Hnone) as Ht0.
  destruct (kernel_range k pgdir KERNBASE EXTMEM 0 PTE_W l) as (k1 & l1 & R1 & G1 & N1 & T1); try (done || by left). 
  destruct (kernel_range k1 pgdir KERNLINK (data - KERNLINK) (V2P KERNLINK) 0 l1) as (k2 & l2 & R2 & G2 & N2 & T2); [apply G1|done|rewrite ?HK; try kside..|].
  { intros va Hva. rewrite T1, map_range_out by kside. apply Ht0. }
  destruct (kernel_range k2 pgdir data (KERNBASE + PHYSTOP - data) (V2P data) PTE_W l2) as (k3 & l3 & R3 & G3 & N3 & T3); [apply G2|done|rewrite ?HD; try kside..|].
  { intros va Hva. rewrite T2, map_range_out, T1, map_range_out by kside. apply Ht0. }
  destruct (kernel_range k3 pgdir DEVSPACE (2 ^ 32 - DEVSPACE) DEVSPACE PTE_W l3) as (k4 & l4 & R4 & G4 & N4 & T4); [apply G3|done|try kside..|].
  { intros va Hva. rewrite T3, map_range_out, T2, map_range_out, T1, map_range_out by kside. apply Ht0. }
  exists k4, l4. rewrite <- Hs1 in R1. rewrite <- Hs2 in R2. rewrite <- Hs3 in R3. rewrite <- Hs4 in R4. split; [|split].
  - by rewrite (map_kernel_step _ _ _ _ _ _ _ _ R1), (map_kernel_step _ _ _ _ _ _ _ _ R2), (map_kernel_step _ _ _ _ _ _ _ _ R3), (map_kernel_step _ _ _ _ _ _ _ _ R4).
  - eapply grows_trans; [|exact G4]. eapply grows_trans; [|exact G3]. by eapply grows_trans.
  - intros va Hva. rewrite <- (kernel_map_eq data va Hd Hva), T4 by done. apply map_range_ext. rewrite T3 by done. apply map_range_ext. rewrite T2 by done. apply map_range_ext.
    rewrite T1 by done. apply map_range_ext. apply Ht0.
Qed.

(** Every directory entry of the kernel has its table. *)
Lemma kernel_need m pgdir data : data_ok data -> (forall va, 0 <= va < 2 ^ 32 -> translate m pgdir va = kernel_entry data va) -> need m pgdir kernel_dirs = 0%nat.
Proof.
  intros [Hal Hd] Htr. apply need_zero. intros d Hd1%elem_kernel_dirs Hn.
  assert (Hpdx : PDX (d * 2 ^ 22) = d) by (rewrite PDX_eq, Z.div_mul by done; apply Z.mod_small; lia).
  specialize (Htr (d * 2 ^ 22)). unfold translate in Htr. rewrite Hpdx, Hn in Htr. unfold kernel_entry in Htr. change (2 ^ 22) with 4194304 in *.
  change (2 ^ 32) with 4294967296 in *. unfold KERNLINK, KERNBASE, EXTMEM, PHYSTOP, DEVSPACE in *. repeat case_decide; try lia; specialize (Htr ltac:(lia)); done.
Qed.
End kernel_map.

(** The pages of [ps] hold the address [a]. *)
Definition in_pages (ps : list Z) (a : Z) : Prop := exists x, x ∈ ps /\ x <= a < x + PGSIZE.

Lemma setupkvm_run (k : kernel) l :
  kmem_ready k -> free_pages k l -> KERNBASE <= k_end k -> data_ok (k_data k) -> (65 <= length l)%nat ->
  exists k' pgdir, setupkvm k = Ret pgdir k' /\ head l = Some pgdir /\ vm_ready k' pgdir (drop 65 l) /\
    (forall va, 0 <= va < 2 ^ 32 -> translate (k_mem k') pgdir va = kernel_entry (k_data k) va) /\
    (forall a, ~ in_pages (take 65 l) a -> k_mem k' a = k_mem k a) /\
    (forall a, owned (k_mem k') pgdir a -> in_pages (take 65 l) a) /\
    k' = kst (k <| k_mem := k_mem k' |> <| k_freelist := k_freelist k' |>) (k_mach k') /\
    (mem_ok (k_mem k) -> mem_ok (k_mem k')) /\ (settle (k_mach k) = k_mach k -> k_mach k' = k_mach k).
Proof.
  intros Hk Hf He Hd Hl. destruct l as [|x l]; [cbn in Hl; lia|]. cbn [length] in Hl.
  destruct (fresh_dir k x l Hk Hf He) as (Hr1 & Hnone & Hout). destruct (free_pages_pop _ _ _ Hf) as (Hfx & Hx0 & _).
  destruct (map_kernel_run _ x l (k_data k) Hr1 Hnone) as (k' & l' & Hrun & Hg & Htr); [lia|done|]. exists k', x.
  assert (Hlen : (length l' + 64 = length l)%nat).
  { pose proof (gr_need _ _ _ _ _ _ Hg) as Hn. rewrite (kernel_need (k_mem k') x (k_data k)) in Hn by done.
    assert (Hn0 : need (k_mem (kst (k <| k_freelist := load32 (k_mem k) x |> <| k_mem ::= fun m => memset m x 0 PGSIZE |>) (kmem_mach k))) x kernel_dirs = 64%nat); [|lia].
    rewrite need_all; [done|]. intros d Hd'%elem_kernel_dirs. apply Hnone. lia. }
  destruct (gr_suffix _ _ _ _ _ _ Hg) as [ts ->]. rewrite length_app in Hlen. assert (Hts : length ts = 64%nat) by lia.
  cbn [take drop]. rewrite (take_app_length' ts), (drop_app_length' ts) by done.
  assert (Hown : forall a, owned (k_mem k') x a -> in_pages (x :: ts) a).
  { intros a [H|(d & t & Hdr & Ht & H)]; [exists x; split; [by left|done]|]. exists t. split; [|done]. right.
    destruct (gr_new _ _ _ _ _ _ Hg d t Hdr Ht) as [H'|[_ H']]; [by rewrite Hnone in H'|].
    apply elem_of_app in H' as [H'|H']; [done|]. by destruct (pt_tab _ _ _ _ (vr_pt _ _ _ (gr_ready _ _ _ _ _ _ Hg)) d t Hdr Ht) as (_ & _ & ?). }
  split_and!; try done.
  - unfold setupkvm. pose proof (kalloc_run k Hk) as Ha. rewrite Hfx in Ha. rewrite (proj2 (Z.eqb_neq x 0)) in Ha by done. run Ha. rewrite (proj2 (Z.eqb_neq x 0)) by done. mstep.
    change (DEVSPACE <? P2V PHYSTOP) with false. cbv iota. mstep. by rewrite <- Hrun.
  - apply Hg.
  - intros a Ha. rewrite (gr_frame _ _ _ _ _ _ Hg), Hout; [done| |intros H; by apply Ha, Hown]. intros H. apply Ha. exists x. split; [by left|done].
  - rewrite (gr_same _ _ _ _ _ _ Hg). by knorm.
  - intros H. apply (gr_bytes _ _ _ _ _ _ Hg). by apply memset_ok.
  - intros H. pose proof (kmem_mach_settled k H) as Hm. rewrite (gr_mach _ _ _ _ _ _ Hg); [exact Hm|]. ksimpl. by rewrite Hm.
Qed.

(** ** From the boot loader to the kernel's page table *)

Definition boot_top : Z := P2V (4 * 1024 * 1024).
(** The pages between the end of the kernel and [boot_top], the one freed last first. *)
Definition boot_pages (e : Z) : list Z := reverse (page_run (PGROUNDUP e) (Z.to_nat ((boot_top - PGROUNDUP e) / PGSIZE))).

Section boot.
Implicit Types (k : kernel) (e : Z).

Lemma PGROUNDUP_eq e : 0 <= e -> e + 4095 < 2 ^ 32 -> PGROUNDUP e = (e + 4095) / 4096 * 4096.
Proof. intros H1 H2. unfold PGROUNDUP, u32. rewrite Z.mod_small by (unfold PGSIZE; lia). replace (e + PGSIZE - 1) with (e + 4095) by (unfold PGSIZE; lia). apply PGROUNDDOWN_eq. Qed.

Lemma length_page_run n : forall p, length (page_run p n) = n.
Proof. induction n as [|n IH]; intros p; cbn; [done|by rewrite IH]. Qed.

Lemma kinit1_run k e :
  k_end k = e -> k_freelist k = 0 -> KERNBASE <= e <= boot_top ->
  exists k', kinit1 e boot_top k = Ret tt k' /\ free_pages k' (boot_pages e) /\ kmem_ready k' /\ k_use_lock k' = 0 /\
    k_end k' = e /\ k_data k' = k_data k /\ (forall a, a < e -> k_mem k' a = k_mem k a).
Proof.
  intros He Hf Hr. unfold kinit1, boot_pages. change boot_top with 0x80400000 in *. unfold KERNBASE in *.
  pose proof (PGROUNDUP_eq e ltac:(lia) ltac:(lia)) as HP. mstep. mstep. unfold freerange.
  match goal with |- exists k', freerange_loop _ _ _ ?k0 = _ /\ _ => set (k1 := k0) end.
  destruct (freerange_loop_ok (Z.to_nat ((0x80400000 - PGROUNDUP e) / PGSIZE)) (Z.to_nat (0x80400000 / PGSIZE + 1)) (PGROUNDUP e) 0x80400000 k1 [])
    as (k' & H1 & H2 & H3 & H4 & H5).
  - by intros H.
  - split; [|constructor..]. cbn. unfold k1. ksimpl. done.
  - rewrite HP. unfold PGSIZE. dlia.
  - rewrite HP. unfold PGSIZE. dlia.
  - rewrite Forall_forall. intros x (j & Hj & ->)%page_run_elem. unfold page_ok, k1. ksimpl. rewrite HP in *. rewrite He. unfold V2P, u32, KERNBASE, PHYSTOP, PGSIZE in *.
    change (2 ^ 32) with 4294967296 in *. split_and!; try dlia.
  - set_solver.
  - exists k'. rewrite app_nil_r in H2.
    pose proof (f_equal k_use_lock H4) as Hu. pose proof (f_equal k_end H4) as Hend. pose proof (f_equal k_data H4) as Hdata. unfold k1 in Hu, Hend, Hdata. split_and!; try done.
    + by rewrite Hend.
    + intros a Ha. rewrite H5 by (rewrite HP; dlia). done.
Qed.

(** C6. Entering the kernel's address space.  Let [end] leave at least 65 whole
    pages below the 4 Mbyte the boot page table maps, and let the linker have put
    [data] on a page boundary behind the start of the code.  Then [kinit1] and
    [kvmalloc] return; the page directory base register holds the new directory;
    the directory translates exactly the addresses of [kernel_entry] -- I/O space,
    read-only kernel text, data and memory up to [PHYSTOP], devices -- to the
    physical addresses and permissions listed there; the kernel image is
    untouched; and the pages not used for the tables stay in the free list. *)
Theorem boot_maps_kernel k :
  KERNBASE <= k_end k <= boot_top - 66 * PGSIZE -> k_freelist k = 0 -> data_ok (k_data k) ->
  exists k', (kinit1 (k_end k) boot_top ;;; kvmalloc) k = Ret tt k' /\
    k_cr3 k' = V2P (k_kpgdir k') /\
    (forall va, 0 <= va < 2 ^ 32 -> translate (k_mem k') (k_kpgdir k') va = kernel_entry (k_data k) va) /\
    (forall a, a < k_end k -> k_mem k' a = k_mem k a) /\
    vm_ready k' (k_kpgdir k') (drop 65 (boot_pages (k_end k))).
Proof.
  intros He Hf Hd. change boot_top with 0x80400000 in *. unfold KERNBASE, PGSIZE in He.
  destruct (kinit1_run k (k_end k)) as (k1 & H1 & Hfp & Hkr & _ & He1 & Hd1 & Hm1); [done..|change boot_top with 0x80400000; unfold KERNBASE; lia|].
  pose proof (PGROUNDUP_eq (k_end k) ltac:(lia) ltac:(lia)) as HP.
  destruct (setupkvm_run k1 (boot_pages (k_end k))) as (k2 & pg & H2 & Hh & Hr & Ht & Hm & _ & Hs & _ & _); [done|done|rewrite He1; unfold KERNBASE; lia|by rewrite Hd1| |].
  { unfold boot_pages. rewrite length_reverse, length_page_run, HP. change boot_top with 0x80400000. unfold PGSIZE. dlia. }
  exists (k2 <| k_kpgdir := pg |> <| k_cr3 := V2P pg |>). rewrite (bind_Ret _ _ _ _ _ H1). split; [|split_and!].
  - unfold kvmalloc. run H2. mstep. unfold switchkvm. mstep. done.
  - done.
  - intros va Hva. ksimpl. rewrite Ht by done. by rewrite Hd1.
  - intros a Ha. ksimpl. rewrite Hm, Hm1; [done|done|]. intros (x & Hx & Hin). pose proof (fp_pages _ _ Hfp) as Hp. rewrite Forall_forall in Hp.
    destruct (Hp x) as (_ & Hx2 & _); [|rewrite He1 in Hx2; lia]. rewrite <- (take_drop 65 (boot_pages (k_end k))). apply elem_of_app. by left.
  - ksimpl. destruct Hr as [? [? ? ?] ?]. split; [done|by split|done].
Qed.
End boot.

Lemma boot_maps_kernel_witness :
  exists k', (kinit1 0x80110000 boot_top ;;; kvmalloc) (kernel0 0x80110000) = Ret tt k' /\
    translate (k_mem k') (k_kpgdir k') 0x80100123 = Some 0x100001 /\
    translate (k_mem k') (k_kpgdir k') 0x80108000 = Some 0x108003 /\
    translate (k_mem k') (k_kpgdir k') 0xFEC00010 = Some 0xFEC00003 /\
    translate (k_mem k') (k_kpgdir k') 0x1000 = None.
Proof.
  destruct (boot_maps_kernel (kernel0 0x80110000)) as (k' & Hrun & _ & Ht & _).
  - change (k_end (kernel0 0x80110000)) with 0x80110000. change boot_top with 0x80400000. unfold KERNBASE, PGSIZE. lia.
  - done.
  - change (k_data (kernel0 0x80110000)) with 0x80108000. by split.
  - exists k'. split; [exact Hrun|]. change (k_data (kernel0 0x80110000)) with 0x80108000 in Ht. repeat split; rewrite Ht; (vm_compute; reflexivity) || (vm_compute; split; [discriminate|reflexivity]).
Defined.
