(* ===== verification/Uvm.v ===== *)
(** * User address spaces ([vm.c])

    [allocuvm] and [copyuvm] take pages from the free list, fill them and enter
    them into the page table.  [extends] is what such a sequence of steps does to
    memory; [alloc_page] is one step.

    [copyuvm_copies]: the child that [fork] makes sees the bytes its parent sees,
    in pages of its own. *)

From S2P Require Import Prelude State Spinlock CString Kalloc Console Vm Kvm.
Open Scope Z_scope.

(** ** Taking and mapping pages *)

(** From [k] to [k'] the pages [ts] were taken from the free list [ts ++ l'] for
    the address space [pgdir]; other memory outside its tables is unchanged. *)
Record extends (pgdir : Z) (k : kernel) (ts : list Z) (k' : kernel) (l' : list Z) : Prop := {
  ex_same : k' = kst (k <| k_mem := k_mem k' |> <| k_freelist := k_freelist k' |>) (k_mach k');
  ex_ready : vm_ready k' pgdir l';
  ex_tabs : forall d t, 0 <= d < 1024 -> pgtab (k_mem k) pgdir d = Some t -> pgtab (k_mem k') pgdir d = Some t;
  ex_new : forall d t, 0 <= d < 1024 -> pgtab (k_mem k') pgdir d = Some t -> pgtab (k_mem k) pgdir d = Some t \/ t ∈ ts;
  ex_frame : forall a, ~ in_pages ts a -> ~ owned (k_mem k) pgdir a -> k_mem k' a = k_mem k a;
  ex_bytes : mem_ok (k_mem k) -> mem_ok (k_mem k');
  ex_mach : settle (k_mach k) = k_mach k -> k_mach k' = k_mach k }.

(** A page in use that is not part of the page table. *)
Record user_page (k : kernel) (pgdir : Z) (l : list Z) (x : Z) : Prop := {
  up_ok : page_ok (k_end k) x;
  up_dir : x <> pgdir;
  up_tab : forall d t, 0 <= d < 1024 -> pgtab (k_mem k) pgdir d = Some t -> x <> t;
  up_used : x ∉ l }.

Section extends.
Implicit Types (k : kernel) (m : mem) (pgdir va x d t : Z) (l ts : list Z).

Lemma extends_refl pgdir k l : vm_ready k pgdir l -> extends pgdir k [] k l.
Proof. intros H. split; try done; [by destruct k|by left]. Qed.

Lemma in_pages_app ps qs a : in_pages (ps ++ qs) a <-> in_pages ps a \/ in_pages qs a.
Proof. unfold in_pages. setoid_rewrite elem_of_app. naive_solver. Qed.

Lemma extends_trans pgdir k ts k1 ts' k2 l1 l2 : extends pgdir k ts k1 l1 -> extends pgdir k1 ts' k2 l2 -> extends pgdir k (ts ++ ts') k2 l2.
Proof.
  intros G1 G2. split.
  - rewrite (ex_same _ _ _ _ _ G2), (ex_same _ _ _ _ _ G1). by knorm.
  - apply G2.
  - intros d t Hd Ht. apply G2; [done|]. by apply G1.
  - intros d t Hd Ht. destruct (ex_new _ _ _ _ _ G2 d t Hd Ht) as [H|H]; [|set_solver]. destruct (ex_new _ _ _ _ _ G1 d t Hd H); set_solver.
  - intros a Ha Ho. rewrite in_pages_app in Ha. rewrite (ex_frame _ _ _ _ _ G2); [apply (ex_frame _ _ _ _ _ G1); tauto|tauto|].
    intros [H|(d & t & Hd & Ht & H)]; [by apply Ho; left|]. destruct (ex_new _ _ _ _ _ G1 d t Hd Ht) as [H'|H'].
    + apply Ho. right. by exists d, t.
    + apply Ha. left. by exists t.
  - intros H. by apply G2, G1.
  - intros H. pose proof (ex_mach _ _ _ _ _ G1 H) as H1. by rewrite (ex_mach _ _ _ _ _ G2), H1 by by rewrite H1.
Qed.

Lemma grows_extends pgdir D k ts k' l' : grows pgdir D k (ts ++ l') k' l' -> extends pgdir k ts k' l'.
Proof.
  intros G. assert (Hnew : forall d t, 0 <= d < 1024 -> pgtab (k_mem k') pgdir d = Some t -> pgtab (k_mem k) pgdir d = Some t \/ t ∈ ts).
  { intros d t Hd Ht. destruct (gr_new _ _ _ _ _ _ G d t Hd Ht) as [H|[_ H]]; [by left|right]. apply elem_of_app in H as [H|H]; [done|].
    by destruct (pt_tab _ _ _ _ (vr_pt _ _ _ (gr_ready _ _ _ _ _ _ G)) d t Hd Ht) as (_ & _ & ?). }
  split; [apply G..|done| |apply G|apply G]. intros a Ha Ho. apply (gr_frame _ _ _ _ _ _ G). intros [H|(d & t & Hd & Ht & H)]; [by apply Ho; left|].
  destruct (Hnew d t Hd Ht) as [H'|H']; [apply Ho; right; by exists d, t|apply Ha; by exists t].
Qed.

(** Memory of a page that is not part of the table. *)
Lemma user_page_free k pgdir l x a : vm_ready k pgdir l -> user_page k pgdir l x -> x <= a < x + PGSIZE -> ~ owned (k_mem k) pgdir a /\ ~ in_pages l a.
Proof.
  intros Hr [Hx Hd Ht Hl] Ha. pose proof (vr_pt _ _ _ Hr) as Hp. split.
  - intros [H|(d & t & Hdr & Htt & H)].
    + destruct (page_far _ _ _ Hx (pt_dir _ _ _ _ Hp) Hd); lia.
    + destruct (pt_tab _ _ _ _ Hp d t Hdr Htt) as [Htp _]. destruct (page_far _ _ _ Hx Htp (Ht d t Hdr Htt)); lia.
  - intros (y & Hy & H). pose proof (fp_pages _ _ (vr_free _ _ _ Hr)) as Hpl. rewrite Forall_forall in Hpl.
    assert (x <> y) by (by intros ->). destruct (page_far _ _ _ Hx (Hpl y Hy)); [done|lia..].
Qed.

Lemma user_page_extends pgdir k ts k' l' x : extends pgdir k ts k' l' -> user_page k pgdir (ts ++ l') x -> user_page k' pgdir l' x.
Proof.
  intros G [Hx Hd Ht Hl]. split; [by rewrite (ex_same _ _ _ _ _ G)|done| |set_solver]. intros d t Hdr Htt. destruct (ex_new _ _ _ _ _ G d t Hdr Htt) as [H|H]; [by eapply Ht|]. intros ->. set_solver.
Qed.

(** Its contents stay. *)
Lemma user_page_bytes pgdir k ts k' l' x a : vm_ready k pgdir (ts ++ l') -> extends pgdir k ts k' l' -> user_page k pgdir (ts ++ l') x -> x <= a < x + PGSIZE -> k_mem k' a = k_mem k a.
Proof.
  intros Hr G Hx Ha. destruct (user_page_free _ _ _ _ _ Hr Hx Ha) as [H1 H2]. apply (ex_frame _ _ _ _ _ G); [|done]. rewrite in_pages_app in H2. tauto.
Qed.

(** Taking a page and filling it. *)
Lemma take_page k pgdir x l m' :
  vm_ready k pgdir (x :: l) -> (forall a, ~ (x <= a < x + PGSIZE) -> m' a = k_mem k a) -> (mem_ok (k_mem k) -> mem_ok m') ->
  let k1 := kst (k <| k_freelist := load32 (k_mem k) x |> <| k_mem := m' |>) (kmem_mach k) in
  extends pgdir k [x] k1 l /\ user_page k1 pgdir l x /\ (forall d, 0 <= d < 1024 -> pgtab (k_mem k1) pgdir d = pgtab (k_mem k) pgdir d) /\
  (forall va, translate (k_mem k1) pgdir va = translate (k_mem k) pgdir va).
Proof.
  intros Hr Hm Hb k1. pose proof (vr_pt _ _ _ Hr) as Hp. destruct (free_pages_pop _ _ _ (vr_free _ _ _ Hr)) as (_ & _ & Hxp & Hxl & Hfl).
  pose proof (pt_dir_used _ _ _ _ Hp) as Hdu. apply not_elem_of_cons in Hdu as [Hdx Hdl].
  assert (Hpg : forall d, 0 <= d < 1024 -> pgtab m' pgdir d = pgtab (k_mem k) pgdir d).
  { intros d Hd. apply pgtab_ext; [|done]. intros i Hi. apply Hm. destruct (page_far _ _ _ Hxp (pt_dir _ _ _ _ Hp)); [done|lia..]. }
  assert (Hold : forall d t, 0 <= d < 1024 -> pgtab (k_mem k) pgdir d = Some t -> page_ok (k_end k) t /\ t <> pgdir /\ t <> x /\ t ∉ l).
  { intros d t Hd Ht. destruct (pt_tab _ _ _ _ Hp d t Hd Ht) as (H1 & H2 & H3). apply not_elem_of_cons in H3 as [H3 H4]. done. }
  assert (Hr1 : vm_ready k1 pgdir l).
  { split; [eapply (kmem_ready_step k); [apply Hr|done..]| |].
    - apply free_pages_kst. apply (free_pages_mem (k <| k_freelist := load32 (k_mem k) x |>)); [done|]. eapply link_frame; [exact Hxp|apply (fp_pages _ _ Hfl)|done|exact Hm].
    - unfold k1. ksimpl. split; [apply Hp|apply Hp|done| |].
      + intros d t Hd. rewrite Hpg by done. intros Ht. destruct (Hold d t Hd Ht) as (? & ? & ? & ?). done.
      + intros d d' t Hd Hd'. rewrite !Hpg by done. by apply Hp. }
  split_and!.
  - split; [by destruct k|done| | | |done|apply kmem_mach_settled]; unfold k1; ksimpl.
    + intros d t Hd. by rewrite Hpg.
    + intros d t Hd. rewrite Hpg by done. by left.
    + intros a Ha _. apply Hm. intros H. apply Ha. exists x. split; [by left|done].
  - split; [done|done| |done]. intros d t Hd. unfold k1. ksimpl. rewrite Hpg by done. intros Ht. destruct (Hold d t Hd Ht) as (_ & _ & ? & _). done.
  - done.
  - intros va. unfold k1, translate. ksimpl. rewrite Hpg by apply PDX_range. destruct (pgtab (k_mem k) pgdir (PDX va)) as [t|] eqn:Ht; [|done].
    destruct (Hold _ _ (PDX_range va) Ht) as (Htp & _ & Htx & _). pose proof (PTX_range va).
    assert (load32 m' (t + 4 * PTX va) = load32 (k_mem k) (t + 4 * PTX va)) as ->; [|done]. apply load32_ext. intros i Hi. apply Hm.
    destruct (page_far _ _ _ Hxp Htp); unfold PGSIZE in *; [congruence|lia..].
Qed.
End extends.

(** The pages [i], ..., [i + n - 1] of an address space are [f i], ..., taken from
    [ts], with the flags [perm] and the bytes [content]. *)
Record filled (pgdir : Z) (k' : kernel) (ts : list Z) (i n : Z) (f perm : Z -> Z) (content : Z -> Z -> Z) : Prop := {
  fi_page : forall j, i <= j < i + n -> f j ∈ ts;
  fi_inj : forall j j', i <= j < i + n -> i <= j' < i + n -> f j = f j' -> j = j';
  fi_map : forall j o, i <= j < i + n -> 0 <= o < PGSIZE -> translate (k_mem k') pgdir (j * PGSIZE + o) = Some (page_entry (V2P (f j)) (perm j));
  fi_bytes : forall j o, i <= j < i + n -> 0 <= o < PGSIZE -> k_mem k' (f j + o) = content j o }.

Section alloc.
Implicit Types (k : kernel) (pgdir va x perm : Z) (l D : list Z).

(** A page, and then the others. *)
Lemma filled_cons pgdir k1 k' x ts1 ts2 l' i n f (perm : Z -> Z) (content : Z -> Z -> Z) :
  vm_ready k1 pgdir (ts2 ++ l') -> user_page k1 pgdir (ts2 ++ l') x -> extends pgdir k1 ts2 k' l' -> filled pgdir k' ts2 (i + 1) (Z.of_nat n) f perm content -> x ∉ ts2 ->
  (forall o, 0 <= o < PGSIZE -> translate (k_mem k') pgdir (i * PGSIZE + o) = Some (page_entry (V2P x) (perm i))) ->
  (forall o, 0 <= o < PGSIZE -> k_mem k1 (x + o) = content i o) ->
  filled pgdir k' ((x :: ts1) ++ ts2) i (Z.of_nat (S n)) (fun j => if decide (j = i) then x else f j) perm content.
Proof.
  intros Hr U G [P2 I2 M2 B2] Hx T C. split.
  - intros j Hj. case_decide; [by left|]. right. apply elem_of_app. right. apply P2. lia.
  - intros j j' Hj Hj'. assert (Hne : forall q, i <= q < i + Z.of_nat (S n) -> q <> i -> f q <> x) by (intros q Hq Hqi E; apply Hx; rewrite <- E; apply P2; lia).
    repeat case_decide; try congruence; intros E; [by destruct (Hne j')|by destruct (Hne j)|apply I2; lia || done].
  - intros j o Hj Ho. case_decide as E; [subst j; by apply T|apply M2; lia].
  - intros j o Hj Ho. case_decide as E; [subst j|apply B2; lia]. rewrite <- C by done. eapply user_page_bytes; [exact Hr|exact G|exact U|lia].
Qed.

(** One round of [allocuvm] or [copyuvm]: a page is taken, filled and mapped. *)
Lemma alloc_page k pgdir va perm x l D (fill : mem -> mem) :
  vm_ready k pgdir (x :: l) -> translate (k_mem k) pgdir va = None -> NoDup D -> PDX va ∈ D -> Forall (fun d => 0 <= d < 1024) D -> (need (k_mem k) pgdir D <= length l)%nat ->
  0 <= va < 2 ^ 32 -> va mod PGSIZE = 0 -> 0 <= perm < PGSIZE ->
  (forall a, ~ (x <= a < x + PGSIZE) -> fill (k_mem k) a = k_mem k a) -> (mem_ok (k_mem k) -> mem_ok (fill (k_mem k))) ->
  exists k1 k' ts l', kalloc k = Ret x k1 /\ k_mem k1 = k_mem k /\ x <> 0 /\ l = ts ++ l' /\
    mappages pgdir va PGSIZE (V2P x) perm (k1 <| k_mem ::= fill |>) = Ret 0 k' /\
    extends pgdir k (x :: ts) k' l' /\ user_page k' pgdir l' x /\ (need (k_mem k) pgdir D + length l' = need (k_mem k') pgdir D + length l)%nat /\
    (forall a, x <= a < x + PGSIZE -> k_mem k' a = fill (k_mem k) a) /\
    (forall va', 0 <= va' < 2 ^ 32 -> translate (k_mem k') pgdir va' = map_range va 1 (V2P x) perm (translate (k_mem k) pgdir) va').
Proof.
  intros Hr Htr Hnd HinD HD Hneed Hva Hal Hperm Hfill Hbytes. destruct (free_pages_pop _ _ _ (vr_free _ _ _ Hr)) as (Hfx & Hx0 & Hxp & Hxl & _).
  destruct (take_page k pgdir x l (fill (k_mem k)) Hr Hfill Hbytes) as (G1 & U1 & P1 & T1). set (k2 := kst _ _) in *.
  pose proof (pt_base _ _ _ _ (vr_pt _ _ _ Hr)) as Hb. destruct (V2P_P2V x) as [HV _]; [destruct Hxp as (_ & ? & _ & ?); lia|].
  assert (Hn2 : need (k_mem k2) pgdir D = need (k_mem k) pgdir D) by (apply need_ext; intros d Hd; apply P1; rewrite Forall_forall in HD; by apply HD).
  destruct (enter_page_run k2 pgdir va (V2P x) perm l D) as (k' & l' & Hrun & G2 & _ & T2); try done.
  { apply G1. } { by rewrite T1. } { by rewrite Hn2. } { rewrite HV. destruct Hxp as (_ & ? & _ & ?). unfold KERNBASE in *. lia. } { rewrite HV. destruct Hxp as (? & _). unfold KERNBASE, PGSIZE in *. dlia. }
  destruct (gr_suffix _ _ _ _ _ _ G2) as [ts Hl]. exists (kst (k <| k_freelist := load32 (k_mem k) x |>) (kmem_mach k)), k', ts, l'. rewrite Hl in G2. apply grows_extends in G2 as G2'.
  split_and!; try done.
  - rewrite kalloc_run by apply Hr. rewrite Hfx. by rewrite (proj2 (Z.eqb_neq x 0)).
  - rewrite mappages_one by done. rewrite <- Hrun. f_equal. 
  - apply (extends_trans pgdir k [x] k2 ts k' l l'); done.
  - eapply user_page_extends; [exact G2'|]. by rewrite <- Hl.
  - pose proof (gr_need _ _ _ _ _ _ G2) as Hn. rewrite <- Hl in Hn. lia.
  - intros a Ha. rewrite (user_page_bytes pgdir k2 ts k' l' x a); [done| |done| |done]; rewrite <- Hl; [apply G1|done].
  - intros va' Hva'. rewrite T2, T1 by done. unfold map_range. rewrite PGROUNDDOWN_eq. unfold PGSIZE in *.
    destruct (decide (va' / 4096 = va / 4096)) as [E|E]; [rewrite decide_True by dlia|by rewrite decide_False by dlia].
    rewrite E. unfold page_entry. by replace (V2P x + _) with (V2P x) by dlia.
Qed.
End alloc.

(** ** Copying an address space *)

(** The pages of the [sz] bytes of a process are in use. *)
Definition user_mem_ok (k : kernel) (pgdir : Z) (l : list Z) (sz : Z) : Prop :=
  forall va, 0 <= va < sz -> exists pte, translate (k_mem k) pgdir va = Some pte /\ page_ok (k_end k) (P2V (PTE_ADDR pte)) /\ P2V (PTE_ADDR pte) ∉ l.

Section copy.
Context (k0 : kernel) (pgdir : Z) (L0 : list Z) (sz : Z).
Context (Hr0 : vm_ready k0 pgdir L0) (Hu0 : user_mem_ok k0 pgdir L0 sz).
Implicit Types (k : kernel) (m : mem) (d va x : Z) (l ts : list Z).

(** Only memory of the pages that were free has changed. *)
Definition agrees m : Prop := forall a, ~ in_pages L0 a -> m a = k_mem k0 a.

Lemma page_outside x a : page_ok (k_end k0) x -> x ∉ L0 -> x <= a < x + PGSIZE -> ~ in_pages L0 a.
Proof.
  intros Hx Hl Ha (y & Hy & H). pose proof (fp_pages _ _ (vr_free _ _ _ Hr0)) as Hp. rewrite Forall_forall in Hp.
  destruct (page_far _ _ _ Hx (Hp y Hy)); [by intros ->|lia..].
Qed.

(** The parent's table is still there. *)
Lemma parent_entry m va : agrees m -> 0 <= va < sz ->
  exists t pte, translate (k_mem k0) pgdir va = Some pte /\ pgtab m pgdir (PDX va) = Some t /\ t + 4 * PTX va <> 0 /\ load32 m (t + 4 * PTX va) = pte /\ pte mod 2 <> 0 /\
    page_ok (k_end k0) (P2V (PTE_ADDR pte)) /\ P2V (PTE_ADDR pte) ∉ L0.
Proof.
  intros Hm Hva. destruct (Hu0 va Hva) as (pte & Htr & Hpage & Hnl). pose proof (vr_pt _ _ _ Hr0) as Hp. pose proof (PTX_range va) as Hi. pose proof (PDX_range va) as Hd.
  unfold translate in Htr. destruct (pgtab (k_mem k0) pgdir (PDX va)) as [t|] eqn:Ht; [|done].
  destruct (pt_tab _ _ _ _ Hp _ _ Hd Ht) as (Htp & _ & Htl). exists t, pte. unfold translate. rewrite Ht. split; [done|]. split_and!; try done.
  - rewrite <- Ht. apply pgtab_ext; [|done]. intros i Hi'. apply Hm. eapply page_outside; [apply (pt_dir _ _ _ _ Hp)|apply (pt_dir_used _ _ _ _ Hp)|lia].
  - pose proof (pt_base _ _ _ _ Hp). destruct Htp as (_ & ? & _). unfold KERNBASE in *. lia.
  - destruct (Z.eqb_spec (load32 (k_mem k0) (t + 4 * PTX va) mod 2) 0); [done|]. injection Htr as <-. apply load32_ext. intros i Hi'. apply Hm. eapply page_outside; [exact Htp|done|unfold PGSIZE; lia].
  - destruct (Z.eqb_spec (load32 (k_mem k0) (t + 4 * PTX va) mod 2) 0); [done|]. by injection Htr as <-.
Qed.

(** What a round of the loop needs to know. *)
Record copying (d : Z) (k : kernel) (l : list Z) : Prop := {
  cp_ready : vm_ready k d l;
  cp_end : k_end k = k_end k0;
  cp_bytes : mem_ok (k_mem k);
  cp_agrees : agrees (k_mem k);
  cp_own : forall a, owned (k_mem k) d a -> in_pages L0 a;
  cp_free : forall x, x ∈ l -> x ∈ L0 }.

Lemma copying_extends d k ts k' l' : copying d k (ts ++ l') -> extends d k ts k' l' -> copying d k' l'.
Proof.
  intros [Hr He Hb Ha Ho Hl] G. split; [apply G|by rewrite (ex_same _ _ _ _ _ G)|by apply G| | |set_solver].
  - intros a Hna. rewrite <- Ha by done. apply (ex_frame _ _ _ _ _ G); [|naive_solver]. intros (x & Hx & H). apply Hna. exists x. split; [|done]. apply Hl. set_solver.
  - intros a [H|(dd & t & Hd & Ht & H)]; [apply Ho; by left|]. destruct (ex_new _ _ _ _ _ G dd t Hd Ht) as [H'|H']; [apply Ho; right; by exists dd, t|]. exists t. split; [|done]. apply Hl. set_solver.
Qed.

(** One round. *)
Lemma copy_round D d k x l i fuel :
  copying d k (x :: l) -> NoDup D -> PDX (i * PGSIZE) ∈ D -> Forall (fun d => 0 <= d < 1024) D -> (need (k_mem k) d D <= length l)%nat ->
  0 <= i -> i * PGSIZE < sz -> sz <= KERNBASE -> translate (k_mem k) d (i * PGSIZE) = None ->
  exists k' ts l' pte, l = ts ++ l' /\
    copyuvm_loop (S fuel) pgdir d (i * PGSIZE) sz k = copyuvm_loop fuel pgdir d ((i + 1) * PGSIZE) sz k' /\
    translate (k_mem k0) pgdir (i * PGSIZE) = Some pte /\ extends d k (x :: ts) k' l' /\ user_page k' d l' x /\ (need (k_mem k) d D + length l' = need (k_mem k') d D + length l)%nat /\
    (forall o, 0 <= o < PGSIZE -> k_mem k' (x + o) = k_mem k0 (P2V (PTE_ADDR pte) + o)) /\
    (forall va, 0 <= va < 2 ^ 32 -> translate (k_mem k') d va = map_range (i * PGSIZE) 1 (V2P x) (PTE_FLAGS pte) (translate (k_mem k) d) va).
Proof.
  intros Hc Hnd HinD HD Hneed Hi Hsz Hk Htr. unfold KERNBASE in Hk. unfold PGSIZE in Hsz.
  destruct (parent_entry (k_mem k) (i * PGSIZE)) as (t & pte & Hp0 & Ht & Hnz & Hld & Hodd & Hpage & Hnl); [apply Hc|unfold PGSIZE; lia|].
  destruct (alloc_page k d (i * PGSIZE) (PTE_FLAGS pte) x l D (fun m => memmove m x (P2V (PTE_ADDR pte)) PGSIZE)) as (k1 & k' & ts & l' & Ha & Hm1 & Hx0 & -> & Hmap & G & U & Hn & Hcont & Htr');
    [apply Hc|done..|unfold PGSIZE; lia|unfold PGSIZE; dlia|rewrite PTE_FLAGS_eq; by apply Z.mod_pos_bound| | |].
  { intros a Hna. rewrite memmove_as_if_buffered by (apply Hc || done). by rewrite within_false. }
  { intros Hm. by apply memmove_ok. }
  exists k', ts, l', pte. split; [done|]. split; [|split_and!; try done].
  - cbn [copyuvm_loop]. rewrite (proj2 (Z.ltb_lt (i * PGSIZE) sz)) by (unfold PGSIZE; lia). run (walk_hit k pgdir (i * PGSIZE) 0 t Ht). rewrite (proj2 (Z.eqb_neq _ 0)) by done.
    mstep. rewrite Hld, PTE_P_eq, (proj2 (Z.eqb_neq _ 0)) by done. run Ha. rewrite (proj2 (Z.eqb_neq x 0)) by done. mstep. run Hmap. change (0 <? 0) with false. cbv iota. f_equal.
    unfold u32, PGSIZE. rewrite Z.mod_small by lia. lia.
  - intros o Ho. rewrite Hcont by lia. rewrite memmove_as_if_buffered by (apply Hc || done). rewrite within_true by lia. replace (x + o - x + P2V (PTE_ADDR pte)) with (P2V (PTE_ADDR pte) + o) by lia.
    apply (cp_agrees _ _ _ Hc). eapply page_outside; [exact Hpage|done|lia].
Qed.

(** The flags and the bytes of page [j] of the parent. *)
Definition parent_pte (j : Z) : Z := default 0 (translate (k_mem k0) pgdir (j * PGSIZE)).
Definition parent_flags (j : Z) : Z := PTE_FLAGS (parent_pte j).
Definition parent_bytes (j o : Z) : Z := k_mem k0 (P2V (PTE_ADDR (parent_pte j)) + o).

Lemma copyuvm_rounds D d : NoDup D -> Forall (fun d => 0 <= d < 1024) D -> sz <= KERNBASE -> forall n i fuel k l,
  copying d k l -> (need (k_mem k) d D + n <= length l)%nat -> (n < fuel)%nat -> 0 <= i -> sz <= (i + Z.of_nat n) * PGSIZE < sz + PGSIZE \/ n = O /\ sz <= i * PGSIZE ->
  (forall j, i <= j < i + Z.of_nat n -> PDX (j * PGSIZE) ∈ D) -> (forall va, i * PGSIZE <= va < KERNBASE -> translate (k_mem k) d va = None) ->
  exists k' ts l' f, l = ts ++ l' /\ copyuvm_loop fuel pgdir d (i * PGSIZE) sz k = Ret d k' /\ extends d k ts k' l' /\ filled d k' ts i (Z.of_nat n) f parent_flags parent_bytes /\
    (forall va, 0 <= va < 2 ^ 32 -> ~ (i * PGSIZE <= va < (i + Z.of_nat n) * PGSIZE) -> translate (k_mem k') d va = translate (k_mem k) d va).
Proof.
  intros Hnd HD Hk. induction n as [|n IH]; intros i fuel k l Hc Hneed Hfuel Hi Hn HinD Hfree.
  { exists k, [], l, id. split; [done|]. split_and!; [|by apply extends_refl, Hc|split; intros; lia|done].
    destruct fuel; cbn [copyuvm_loop]; by rewrite (proj2 (Z.ltb_ge _ _)) by lia. }
  destruct fuel as [|fuel]; [lia|]. destruct l as [|x l]; [cbn in Hneed; lia|]. cbn [length] in Hneed. assert (Hsz : i * PGSIZE < sz) by (unfold PGSIZE in *; lia). unfold KERNBASE, PGSIZE in Hk, Hsz.
  destruct (copy_round D d k x l i fuel) as (k1 & ts1 & l1 & pte & -> & Hrun1 & Hp1 & G1 & U1 & Hn1 & C1 & T1); [done|done|apply HinD; lia|done|lia|done|done|done|apply Hfree; unfold PGSIZE, KERNBASE; lia|].
  assert (Hc1 : copying d k1 l1) by (by eapply (copying_extends d k (x :: ts1))). rewrite length_app in Hneed, Hn1.
  destruct (IH (i + 1) fuel k1 l1) as (k' & ts2 & l' & f & -> & Hrun2 & G2 & F2 & T2); clear IH; [done|lia|lia|lia|unfold PGSIZE in *; lia|intros j Hj; apply HinD; lia| |].
  { intros va Hva. unfold KERNBASE, PGSIZE in *. rewrite T1 by lia. rewrite map_range_out by (unfold PGSIZE; lia). apply Hfree. lia. }
  exists k', ((x :: ts1) ++ ts2), l', (fun j => if decide (j = i) then x else f j).
  split; [cbn; by rewrite <- app_assoc|]. split; [by rewrite Hrun1|]. split; [by apply (extends_trans d k (x :: ts1) k1 ts2 k' (ts2 ++ l') l')|]. split.
  - unfold parent_flags, parent_bytes. eapply (filled_cons d k1); [apply Hc1|done|exact G2|exact F2|intros H; apply (up_used _ _ _ _ U1), elem_of_app; by left| |].
    + intros o Ho. unfold parent_pte. rewrite Hp1. unfold PGSIZE in *. rewrite T2, T1 by lia. unfold map_range. rewrite decide_True by (unfold PGSIZE; lia). rewrite PGROUNDDOWN_eq. unfold PGSIZE. cbn [default]. do 2 f_equal. dlia.
    + intros o Ho. unfold parent_pte. rewrite Hp1. by apply C1.
  - intros va Hva Hout. unfold PGSIZE in *. rewrite T2, T1 by lia. apply map_range_out. unfold PGSIZE. lia.
Qed.
End copy.

(** What a process sees at an address: the page and its flags, and the byte. *)
Definition frame (m : mem) (pgdir va : Z) : option Z := (fun pte => P2V (PTE_ADDR pte)) <$> translate m pgdir va.
Definition flags (m : mem) (pgdir va : Z) : option Z := PTE_FLAGS <$> translate m pgdir va.
Definition user_byte (m : mem) (pgdir va : Z) : option Z := (fun x => m (x + va mod PGSIZE)) <$> frame m pgdir va.

(** The pages of [sz] bytes, and the page tables for them. *)
Definition page_count (sz : Z) : nat := Z.to_nat ((sz + 4095) / 4096).
Definition table_count (sz : Z) : nat := Z.to_nat ((sz + 4194303) / 4194304).

Section entries.
Implicit Types (x pa fl : Z).

Lemma lor_odd fl : fl mod 2 <> 0 -> Z.lor fl PTE_P = fl.
Proof.
  intros H. apply Z.bits_inj'. intros n Hn. rewrite Z.lor_spec. destruct (decide (n = 0)) as [->|].
  - rewrite !Z.bit0_odd, (Zodd_mod fl). assert (fl mod 2 = 1) as -> by dlia. done.
  - rewrite (Z.bits_above_log2 PTE_P) by (unfold PTE_P; cbn; lia). by rewrite orb_false_r.
Qed.

Lemma page_entry_eq x fl : KERNBASE <= x < 2 ^ 32 -> x mod PGSIZE = 0 -> 0 <= fl < PGSIZE -> fl mod 2 <> 0 ->
  P2V (PTE_ADDR (page_entry (V2P x) fl)) = x /\ PTE_FLAGS (page_entry (V2P x) fl) = fl.
Proof.
  intros Hx Ha Hf Ho. destruct (V2P_P2V x Hx) as [HV HP]. unfold page_entry. rewrite <- Z.lor_assoc, lor_odd by done.
  rewrite lor_flags by (rewrite ?HV; unfold KERNBASE, PGSIZE in *; dlia || done). rewrite PTE_ADDR_eq, PTE_FLAGS_eq. unfold PGSIZE in *. split.
  - rewrite <- HP at 2. f_equal. rewrite HV. unfold KERNBASE. dlia.
  - rewrite HV. unfold KERNBASE. dlia.
Qed.

Lemma translate_page m pgdir va : 0 <= va < 2 ^ 32 -> translate m pgdir va = translate m pgdir (va / PGSIZE * PGSIZE).
Proof.
  intros Hva. unfold translate. destruct (same_page va (va / PGSIZE * PGSIZE)) as [_ H]; [done|unfold PGSIZE; dlia|].
  destruct H as [-> ->]; [unfold PGSIZE; dlia|done].
Qed.
End entries.

(** Pages that were filled, seen through the page table. *)
Lemma filled_view k k' pgdir ts i n f perm content va :
  filled pgdir k' ts i n f perm content -> (forall x, x ∈ ts -> page_ok (k_end k) x) -> KERNBASE <= k_end k ->
  0 <= va -> i <= va / PGSIZE < i + n -> 0 <= perm (va / PGSIZE) < PGSIZE -> perm (va / PGSIZE) mod 2 <> 0 ->
  frame (k_mem k') pgdir va = Some (f (va / PGSIZE)) /\ flags (k_mem k') pgdir va = Some (perm (va / PGSIZE)) /\
  user_byte (k_mem k') pgdir va = Some (content (va / PGSIZE) (va mod PGSIZE)).
Proof.
  intros F Hts He Hva Hj Hperm Hodd. assert (Ho : 0 <= va mod PGSIZE < PGSIZE) by (by apply Z.mod_pos_bound).
  pose proof (fi_map _ _ _ _ _ _ _ _ F _ _ Hj Ho) as Hm. pose proof (fi_bytes _ _ _ _ _ _ _ _ F _ _ Hj Ho) as Hb.
  replace (va / PGSIZE * PGSIZE + va mod PGSIZE) with va in Hm by (unfold PGSIZE; dlia).
  destruct (Hts (f (va / PGSIZE))) as (Hx1 & Hx2 & _ & Hx3); [by apply F|].
  destruct (page_entry_eq (f (va / PGSIZE)) (perm (va / PGSIZE))) as [E1 E2]; [lia|done|done|done|].
  unfold flags, user_byte, frame. rewrite Hm. cbn. rewrite E1, E2. by rewrite Hb.
Qed.

(** The child's pages. *)
Lemma copied_view k pgdir l sz d k' ts n f va :
  vm_ready k pgdir l -> user_mem_ok k pgdir l sz -> filled d k' ts 0 n f (parent_flags k pgdir) (parent_bytes k pgdir) -> (forall x, x ∈ ts -> page_ok (k_end k) x) ->
  0 <= va < sz -> sz <= KERNBASE -> va / PGSIZE < n ->
  frame (k_mem k') d va = Some (f (va / PGSIZE)) /\ flags (k_mem k') d va = flags (k_mem k) pgdir va /\ user_byte (k_mem k') d va = user_byte (k_mem k) pgdir va.
Proof.
  intros Hr Hu Hc Hts Hva Hsz Hn. unfold KERNBASE in Hsz. assert (Hj : 0 <= va / PGSIZE) by (apply Z.div_pos; unfold PGSIZE; lia).
  destruct (Hu va Hva) as (pte & Hp & _). assert (Hpte : parent_pte k pgdir (va / PGSIZE) = pte) by (unfold parent_pte; by rewrite <- translate_page, Hp by lia).
  assert (Hodd : PTE_FLAGS pte mod 2 <> 0).
  { unfold translate in Hp. destruct (pgtab (k_mem k) pgdir (PDX va)) as [t|]; [|done]. destruct (Z.eqb_spec (load32 (k_mem k) (t + 4 * PTX va) mod 2) 0); [done|]. injection Hp as <-. rewrite PTE_FLAGS_eq. dlia. }
  destruct (filled_view k k' d ts 0 n f _ _ va Hc Hts) as (H1 & H2 & H3); [apply (vr_pt _ _ _ Hr)|lia|lia|unfold parent_flags; rewrite PTE_FLAGS_eq; by apply Z.mod_pos_bound|unfold parent_flags; by rewrite Hpte|].
  unfold parent_flags, parent_bytes in *. rewrite Hpte in *. rewrite H1, H2, H3. unfold flags, user_byte, frame. by rewrite Hp.
Qed.

(** Copying an address space for [fork].  Let the [sz] bytes of the parent be
    mapped to pages in use and let there be enough free pages.  Then [copyuvm]
    returns a page directory through which the child sees, at every address below
    [sz], the byte its parent sees there, with the same permissions; the pages are
    the child's own: they were free, and no two of its pages are the same.  The
    child also has the kernel's mappings and no others, its tables and pages are
    no longer free, and memory outside the pages taken is unchanged -- so is what
    the parent sees. *)
Lemma copyuvm_copies (k : kernel) pgdir l sz :
  vm_ready k pgdir l -> mem_ok (k_mem k) -> data_ok (k_data k) -> user_mem_ok k pgdir l sz -> 0 <= sz <= KERNBASE ->
  (65 + page_count sz + table_count sz <= length l)%nat ->
  exists k' d ts l', copyuvm pgdir sz k = Ret d k' /\ l = ts ++ l' /\ vm_ready k' d l' /\
    (forall va, 0 <= va < sz -> user_byte (k_mem k') d va = user_byte (k_mem k) pgdir va /\ flags (k_mem k') d va = flags (k_mem k) pgdir va /\
       exists x, frame (k_mem k') d va = Some x /\ x ∈ ts) /\
    (forall va va', 0 <= va < sz -> 0 <= va' < sz -> frame (k_mem k') d va = frame (k_mem k') d va' -> va / PGSIZE = va' / PGSIZE) /\
    (forall va, Z.of_nat (page_count sz) * PGSIZE <= va < 2 ^ 32 -> translate (k_mem k') d va = kernel_entry (k_data k) va) /\
    (forall a, ~ in_pages ts a -> k_mem k' a = k_mem k a) /\
    k' = kst (k <| k_mem := k_mem k' |> <| k_freelist := k_freelist k' |>) (k_mach k') /\ (settle (k_mach k) = k_mach k -> k_mach k' = k_mach k).
Proof.
  intros Hr Hb Hd Hu Hsz Hl. pose proof (vr_pt _ _ _ Hr) as Hp. pose proof (pt_base _ _ _ _ Hp) as Hbase.
  destruct (setupkvm_run k l) as (k1 & d & H1 & Hh & Hr1 & Ht1 & Hm1 & Ho1 & Hs1 & Hb1 & Hmc1); [apply Hr|apply Hr|done|done|lia|].
  assert (Hc1 : copying k l d k1 (drop 65 l)).
  { split; [done|by rewrite Hs1|by apply Hb1| | |].
    - intros a Ha. apply Hm1. intros (x & Hx & H). apply Ha. exists x. split; [by apply (subseteq_take 65)|done].
    - intros a Ha. destruct (Ho1 a Ha) as (x & Hx & H). exists x. split; [by apply (subseteq_take 65)|done].
    - apply subseteq_drop. }
  unfold page_count, table_count in *. unfold KERNBASE in Hsz. set (D := seqZ 0 (Z.of_nat (Z.to_nat ((sz + 4194303) / 4194304)))).
  assert (Hneed : (need (k_mem k1) d D <= Z.to_nat ((sz + 4194303) / 4194304))%nat) by (unfold need, D; etrans; [apply length_filter|]; rewrite length_seqZ; lia).
  destruct (copyuvm_rounds k pgdir l sz Hr Hu D d) with (n := Z.to_nat ((sz + 4095) / 4096)) (i := 0) (fuel := Z.to_nat (2 ^ 20)) (k := k1) (l := drop 65 l) as (k' & ts & l' & f & Hl' & Hrun & G & Hc & Ht);
    [apply NoDup_seqZ| |unfold KERNBASE; lia|done|rewrite length_drop; lia|change (2 ^ 20) with 1048576; dlia|done| | | |].
  { unfold D. rewrite Forall_forall. intros q. rewrite elem_of_seqZ. dlia. }
  { unfold PGSIZE. destruct (decide (sz = 0)); [right|left]; dlia. }
  { intros j Hj. unfold D. rewrite elem_of_seqZ, PDX_eq. unfold PGSIZE. change (2 ^ 22) with 4194304. dlia. }
  { intros va Hva. unfold KERNBASE in Hva. rewrite Ht1 by lia. unfold kernel_entry, KERNLINK, KERNBASE, EXTMEM, PHYSTOP, DEVSPACE. destruct Hd as [_ Hd]. unfold KERNLINK, KERNBASE, EXTMEM in Hd. repeat case_decide; lia || done. }
  assert (Hview : forall va, 0 <= va < sz -> frame (k_mem k') d va = Some (f (va / PGSIZE)) /\ flags (k_mem k') d va = flags (k_mem k) pgdir va /\ user_byte (k_mem k') d va = user_byte (k_mem k) pgdir va).
  { intros va Hva. eapply copied_view; [done|done|exact Hc| |done|unfold KERNBASE; lia|unfold PGSIZE; dlia].
    intros x Hx. pose proof (fp_pages _ _ (vr_free _ _ _ Hr)) as Hpl. rewrite Forall_forall in Hpl. apply Hpl, (subseteq_drop 65). rewrite Hl'. apply elem_of_app. by left. }
  exists k', d, (take 65 l ++ ts), l'. rewrite <- app_assoc, <- Hl'. split; [|split; [symmetry; apply take_drop|split; [apply G|split_and!]]].
  - unfold copyuvm. run H1. rewrite (proj2 (Z.eqb_neq d 0)); [exact Hrun|]. destruct (pt_dir _ _ _ _ (vr_pt _ _ _ Hr1)) as (_ & _ & _ & ?). lia.
  - intros va Hva. destruct (Hview va Hva) as (H & H' & H''). split; [done|]. split; [done|]. exists (f (va / PGSIZE)). split; [done|]. apply elem_of_app. right. apply Hc. unfold PGSIZE. dlia.
  - intros va va' Hva Hva' E. destruct (Hview va Hva) as [Hf _]. destruct (Hview va' Hva') as [Hf' _]. rewrite Hf, Hf' in E. injection E as E. eapply fi_inj in E; [done|exact Hc|unfold PGSIZE; dlia..].
  - intros va Hva. unfold PGSIZE in Hva. rewrite Ht by (unfold PGSIZE; dlia). apply Ht1. dlia.
  - intros a Ha. rewrite in_pages_app in Ha. rewrite (ex_frame _ _ _ _ _ G); [apply Hm1; tauto|tauto|]. intros H. apply Ha. left. by apply Ho1.
  - rewrite (ex_same _ _ _ _ _ G), Hs1. by knorm.
  - intros H. specialize (Hmc1 H). by rewrite (ex_mach _ _ _ _ _ G), Hmc1 by by rewrite Hmc1.
Qed.

(** ** Growing a process *)

Section grow.
Implicit Types (k : kernel) (pgdir oldsz newsz : Z) (l D : list Z).

(** The flags of a user page. *)
Definition user_flags : Z := 7.
Lemma user_entry pa : page_entry pa (Z.lor PTE_W PTE_U) = page_entry pa user_flags.
Proof. unfold page_entry. by rewrite <- !Z.lor_assoc. Qed.

Lemma alloc_loop pgdir oldsz newsz D : NoDup D -> Forall (fun d => 0 <= d < 1024) D -> newsz < KERNBASE -> forall n i fuel k l,
  vm_ready k pgdir l -> (need (k_mem k) pgdir D + n <= length l)%nat -> (n < fuel)%nat -> 0 <= i ->
  newsz <= (i + Z.of_nat n) * PGSIZE < newsz + PGSIZE \/ n = O /\ newsz <= i * PGSIZE ->
  (forall j, i <= j < i + Z.of_nat n -> PDX (j * PGSIZE) ∈ D) -> (forall va, i * PGSIZE <= va < (i + Z.of_nat n) * PGSIZE -> translate (k_mem k) pgdir va = None) ->
  exists k' ts l' f, l = ts ++ l' /\ allocuvm_loop fuel pgdir (i * PGSIZE) oldsz newsz k = Ret newsz k' /\ extends pgdir k ts k' l' /\
    filled pgdir k' ts i (Z.of_nat n) f (fun _ => user_flags) (fun _ _ => 0) /\
    (forall va, 0 <= va < 2 ^ 32 -> ~ (i * PGSIZE <= va < (i + Z.of_nat n) * PGSIZE) -> translate (k_mem k') pgdir va = translate (k_mem k) pgdir va).
Proof.
  intros Hnd HD Hk. induction n as [|n IH]; intros i fuel k l Hr Hneed Hfuel Hi Hn HinD Hfree.
  { exists k, [], l, id. split; [done|]. split_and!; [|by apply extends_refl|split; intros; lia|done].
    destruct fuel; cbn [allocuvm_loop]; by rewrite (proj2 (Z.ltb_ge _ _)) by lia. }
  destruct fuel as [|fuel]; [lia|]. destruct l as [|x l]; [cbn in Hneed; lia|]. cbn [length] in Hneed. assert (Hsz : i * PGSIZE < newsz) by (unfold PGSIZE in *; lia). unfold KERNBASE, PGSIZE in Hk, Hsz.
  destruct (alloc_page k pgdir (i * PGSIZE) (Z.lor PTE_W PTE_U) x l D (fun m => memset m x 0 PGSIZE)) as (k0 & k1 & ts1 & l1 & Ha & _ & Hx0 & -> & Hmap & G1 & U1 & Hn1 & C1 & T1);
    [done|apply Hfree; unfold PGSIZE; lia|done|apply HinD; lia|done|lia|unfold PGSIZE; lia|unfold PGSIZE; dlia|done|intros a Hna; rewrite memset_fill by done; by rewrite within_false|by apply memset_ok|].
  rewrite length_app in Hneed, Hn1.
  destruct (IH (i + 1) fuel k1 l1) as (k' & ts2 & l' & f & -> & Hrun2 & G2 & F2 & T2); clear IH; [apply G1|lia|lia|lia|unfold PGSIZE in *; lia|intros j Hj; apply HinD; lia| |].
  { intros va Hva. unfold PGSIZE in *. rewrite T1 by lia. rewrite map_range_out by (unfold PGSIZE; lia). apply Hfree. lia. }
  exists k', ((x :: ts1) ++ ts2), l', (fun j => if decide (j = i) then x else f j).
  split; [cbn; by rewrite <- app_assoc|]. split; [|split; [by apply (extends_trans pgdir k (x :: ts1) k1 ts2 k' (ts2 ++ l') l')|split]].
  - cbn [allocuvm_loop]. rewrite (proj2 (Z.ltb_lt (i * PGSIZE) newsz)) by (unfold PGSIZE; lia). run Ha. rewrite (proj2 (Z.eqb_neq x 0)) by done. mstep. run Hmap. change (0 <? 0) with false. cbv iota.
    rewrite <- Hrun2. f_equal. unfold u32, PGSIZE. rewrite Z.mod_small by lia. lia.
  - eapply (filled_cons pgdir k1); [apply G1|done|exact G2|exact F2|intros H; apply (up_used _ _ _ _ U1), elem_of_app; by left| |].
    + intros o Ho. unfold PGSIZE in *. rewrite T2, T1 by lia. unfold map_range. rewrite decide_True by (unfold PGSIZE; lia). rewrite PGROUNDDOWN_eq, user_entry. unfold PGSIZE. do 2 f_equal. dlia.
    + intros o Ho. rewrite C1 by lia. rewrite memset_fill by done. by rewrite within_true by lia.
  - intros va Hva Hout. unfold PGSIZE in *. rewrite T2, T1 by lia. apply map_range_out. unfold PGSIZE. lia.
Qed.

(** The directory entries of the new pages. *)
Definition new_dirs (oldsz newsz : Z) : list Z :=
  let lo := Z.of_nat (page_count oldsz) / 1024 in seqZ lo ((Z.of_nat (page_count newsz) + 1023) / 1024 - lo).

(** C23. Growing a process.  Let the addresses from [oldsz], rounded up to a page,
    to [newsz] be free and let there be enough free pages for them and for the
    page tables that are missing.  Then [allocuvm] returns [newsz]; through the
    page table every new address reads as zero and is writable by the user, and
    the pages are distinct and come from the free list; every other address
    translates as before, and no memory outside the pages taken and the page table
    has changed, so the process finds its old bytes. *)
Theorem allocuvm_grows k pgdir l oldsz newsz :
  vm_ready k pgdir l -> 0 <= oldsz <= newsz -> newsz < KERNBASE ->
  (forall va, PGROUNDUP oldsz <= va < Z.of_nat (page_count newsz) * PGSIZE -> translate (k_mem k) pgdir va = None) ->
  (need (k_mem k) pgdir (new_dirs oldsz newsz) + (page_count newsz - page_count oldsz) <= length l)%nat ->
  exists k' ts l', allocuvm pgdir oldsz newsz k = Ret newsz k' /\ l = ts ++ l' /\ vm_ready k' pgdir l' /\
    (forall va, PGROUNDUP oldsz <= va < newsz -> user_byte (k_mem k') pgdir va = Some 0 /\ flags (k_mem k') pgdir va = Some user_flags /\
       exists x, frame (k_mem k') pgdir va = Some x /\ x ∈ ts) /\
    (forall va va', PGROUNDUP oldsz <= va < newsz -> PGROUNDUP oldsz <= va' < newsz -> frame (k_mem k') pgdir va = frame (k_mem k') pgdir va' -> va / PGSIZE = va' / PGSIZE) /\
    (forall va, 0 <= va < PGROUNDUP oldsz \/ Z.of_nat (page_count newsz) * PGSIZE <= va < 2 ^ 32 -> translate (k_mem k') pgdir va = translate (k_mem k) pgdir va) /\
    (forall va x, 0 <= va < PGROUNDUP oldsz -> frame (k_mem k) pgdir va = Some x -> user_page k pgdir l x -> user_byte (k_mem k') pgdir va = user_byte (k_mem k) pgdir va) /\
    (forall a, ~ in_pages ts a -> ~ owned (k_mem k) pgdir a -> k_mem k' a = k_mem k a).
Proof.
  intros Hr Hsz Hk Hfree Hneed. pose proof (PGROUNDUP_eq oldsz) as HP. unfold page_count, KERNBASE in *. rewrite HP in * by (change (2 ^ 32) with 4294967296; lia).
  destruct (alloc_loop pgdir oldsz newsz (new_dirs oldsz newsz)) with (n := (Z.to_nat ((newsz + 4095) / 4096) - Z.to_nat ((oldsz + 4095) / 4096))%nat) (i := (oldsz + 4095) / 4096) (fuel := Z.to_nat (2 ^ 20)) (k := k) (l := l)
    as (k' & ts & l' & f & -> & Hrun & G & F & T); [apply NoDup_seqZ| |unfold KERNBASE; lia|done|lia|change (2 ^ 20) with 1048576; dlia|dlia| | | |].
  { rewrite Forall_forall. intros q. unfold new_dirs, page_count. rewrite elem_of_seqZ. dlia. }
  { unfold PGSIZE. destruct (decide ((newsz + 4095) / 4096 = (oldsz + 4095) / 4096)); [right|left]; dlia. }
  { intros j Hj. unfold new_dirs, page_count. rewrite elem_of_seqZ, PDX_eq. unfold PGSIZE. change (2 ^ 22) with 4194304. dlia. }
  { intros va Hva. apply Hfree. unfold PGSIZE in *. dlia. }
  set (n := Z.of_nat (_ - _)) in *. assert (Hn : n = (newsz + 4095) / 4096 - (oldsz + 4095) / 4096) by (unfold n; dlia).
  assert (Hpage : forall va, (oldsz + 4095) / 4096 * 4096 <= va < newsz -> (oldsz + 4095) / 4096 <= va / PGSIZE < (oldsz + 4095) / 4096 + n) by (intros va Hva; clear -Hva Hn; unfold PGSIZE; dlia).
  assert (Hview : forall va, (oldsz + 4095) / 4096 * 4096 <= va < newsz ->
    frame (k_mem k') pgdir va = Some (f (va / PGSIZE)) /\ flags (k_mem k') pgdir va = Some user_flags /\ user_byte (k_mem k') pgdir va = Some 0).
  { intros va Hva. apply (filled_view k k' pgdir ts _ _ f (fun _ => user_flags) (fun _ _ => 0) va F); [|apply (vr_pt _ _ _ Hr)|clear -Hva Hsz; dlia|by apply Hpage|done|done].
    intros x Hx. pose proof (fp_pages _ _ (vr_free _ _ _ Hr)) as Hpl. rewrite Forall_forall in Hpl. apply Hpl, elem_of_app. by left. }
  assert (Hold : forall va, 0 <= va < (oldsz + 4095) / 4096 * 4096 \/ Z.of_nat (Z.to_nat ((newsz + 4095) / 4096)) * PGSIZE <= va < 2 ^ 32 -> translate (k_mem k') pgdir va = translate (k_mem k) pgdir va).
  { intros va Hva. change (2 ^ 32) with 4294967296 in *. unfold PGSIZE in *. apply T; change (2 ^ 32) with 4294967296; dlia. }
  exists k', ts, l'. split; [|split; [done|split; [apply G|split_and!]]].
  - unfold allocuvm. rewrite (proj2 (Z.leb_gt _ _)), (proj2 (Z.ltb_ge _ _)) by (unfold KERNBASE; lia). rewrite HP by (change (2 ^ 32) with 4294967296; lia). exact Hrun.
  - intros va Hva. destruct (Hview va Hva) as (H1 & H2 & H3). split; [done|]. split; [done|]. exists (f (va / PGSIZE)). split; [done|]. by apply F, Hpage.
  - intros va va' Hva Hva' E. destruct (Hview va Hva) as [Hf _]. destruct (Hview va' Hva') as [Hf' _]. rewrite Hf, Hf' in E. injection E as E. eapply fi_inj in E; [done|exact F|by apply Hpage..].
  - exact Hold.
  - intros va x Hva Hfr Hup. unfold user_byte, frame in *. rewrite Hold by (by left). destruct (translate (k_mem k) pgdir va) as [pte|]; [|done]. cbn in *. injection Hfr as ->.
    f_equal. eapply user_page_bytes; [exact Hr|exact G|exact Hup|]. assert (0 <= va mod PGSIZE < PGSIZE) by (by apply Z.mod_pos_bound). lia.
  - apply G.
Qed.
End grow.
