(* ===== verification/Mp.v ===== *)
(** * The multiprocessor tables ([mp.c], [mp.h])

    The firmware leaves a floating pointer structure somewhere in low memory; it
    leads to a configuration table with an entry for each processor, bus, I/O APIC
    and interrupt.  [mpinit] searches for them and fills in [cpus], [ncpu],
    [ioapicid] and [lapic]; the last two are its result.

    [mpinit_table]: the table's processors and I/O APIC are found, whatever other
    entries are between them.  [mpinit_unknown]: an entry of an unknown type is an
    infinite loop, since the [break] of its case leaves the switch, not the loop. *)

From S2P Require Import Prelude State Spinlock CString Kalloc Console.
Open Scope Z_scope.

Definition MPPROC : Z := 0x00.
Definition MPBUS : Z := 0x01.
Definition MPIOAPIC : Z := 0x02.
Definition MPIOINTR : Z := 0x03.
Definition MPLINTR : Z := 0x04.

(** [sizeof] of [struct mp], [mpconf], [mpproc] and [mpioapic]. *)
Definition sizeof_mp : Z := 16.
Definition sizeof_mpconf : Z := 44.
Definition sizeof_mpproc : Z := 20.
Definition sizeof_mpioapic : Z := 8.

Definition load16 (m : mem) (a : Z) : Z := m a + 2 ^ 8 * m (a + 1).

Fixpoint sum_loop (n : nat) (m : mem) (a sum : Z) : Z :=
  match n with
  | O => sum
  | S n' => sum_loop n' m (a + 1) (i32 (sum + m a))
  end.
(** The result is a [uchar]. *)
Definition sum (m : mem) (addr len : Z) : Z := byte (sum_loop (Z.to_nat len) m addr 0).

(** [memcmp(p, s, n) == 0] for a string constant. *)
Fixpoint spells (m : mem) (p : Z) (s : list Z) : bool :=
  match s with
  | [] => true
  | c :: s' => (m p =? c) && spells m (p + 1) s'
  end.

(** Is there a floating pointer structure at [p]? *)
Definition is_mp (m : mem) (p : Z) : bool := spells m p (bytes "_MP_") && (sum m p sizeof_mp =? 0).

Fixpoint search_loop (fuel : nat) (m : mem) (p e : Z) : option Z :=
  match fuel with
  | O => None
  | S fuel' => if p <? e then if is_mp m p then Some p else search_loop fuel' m (p + sizeof_mp) e else None
  end.
Definition mpsearch1 (m : mem) (a len : Z) : option Z :=
  let addr := P2V a in
  search_loop (Z.to_nat (len / sizeof_mp + 1)) m addr (addr + len).

Definition mpsearch (m : mem) : option Z :=
  let bda := P2V 0x400 in
  let p := Z.shiftl (Z.lor (Z.shiftl (m (bda + 0x0F)) 8) (m (bda + 0x0E))) 4 in
  let found :=
    if negb (p =? 0) then mpsearch1 m p 1024
    else
      let p := Z.lor (Z.shiftl (m (bda + 0x14)) 8) (m (bda + 0x13)) * 1024 in
      mpsearch1 m (u32 (p - 1024)) 1024 in
  match found with Some mp => Some mp | None => mpsearch1 m 0xF0000 0x10000 end.

(** [mp->physaddr], [mp->imcrp]; [conf->length], [conf->version], [conf->lapicaddr]. *)
Definition mp_physaddr (m : mem) (mp : Z) : Z := load32 m (mp + 4).
Definition mp_imcrp (m : mem) (mp : Z) : Z := m (mp + 12).
Definition conf_length (m : mem) (conf : Z) : Z := load16 m (conf + 4).
Definition conf_version (m : mem) (conf : Z) : Z := m (conf + 6).
Definition conf_lapicaddr (m : mem) (conf : Z) : Z := load32 m (conf + 36).

(** The floating pointer structure and the table. *)
Definition mpconfig (m : mem) : option (Z * Z) :=
  match mpsearch m with
  | None => None
  | Some mp =>
      if mp_physaddr m mp =? 0 then None
      else
        let conf := P2V (mp_physaddr m mp) in
        if negb (spells m conf (bytes "PCMP")) then None
        else if negb (conf_version m conf =? 1) && negb (conf_version m conf =? 4) then None
        else if negb (sum m conf (conf_length m conf) =? 0) then None
        else Some (mp, conf)
  end.

Section mpinit.
Context {ports : Ports}.

(** [ncpu < NCPU]: one more processor. *)
Definition add_cpu (apicid : Z) : K unit :=
  n ← gets (fun k => m_ncpu (k_mach k));
  when (n <? NCPU)
    (c ← cpu_at n;
     cpu_set n (c <| c_apicid := apicid |>) ;;;
     modify (fun k => k <| k_mach ::= fun mc => mc <| m_ncpu := n + 1 |> |>)).

(** The entries from [p] to [e]; gives [ismp] and [ioapicid]. *)
Fixpoint entries_loop (fuel : nat) (p e : Z) (ismp : bool) (ioapicid : Z) : K (bool * Z) :=
  if p <? e then
    match fuel with
    | O => fun _ => Diverge
    | S fuel' =>
        m ← gets k_mem;
        let t := m p in
        if t =? MPPROC then add_cpu (m (p + 1)) ;;; entries_loop fuel' (p + sizeof_mpproc) e ismp ioapicid
        else if t =? MPIOAPIC then entries_loop fuel' (p + sizeof_mpioapic) e ismp (m (p + 1))
        else if (t =? MPBUS) || (t =? MPIOINTR) || (t =? MPLINTR) then entries_loop fuel' (p + 8) e ismp ioapicid
        else entries_loop fuel' p e false ioapicid
    end
  else mret (ismp, ioapicid).

(** The values of [lapic] and [ioapicid]. *)
Definition mpinit : K (Z * Z) :=
  m ← gets k_mem;
  match mpconfig m with
  | None => panic "Expect to run on an SMP"
  | Some (mp, conf) =>
      let lapic := conf_lapicaddr m conf in
      '(ismp, ioapicid) ← entries_loop (Z.to_nat (conf_length m conf)) (conf + sizeof_mpconf) (conf + conf_length m conf) true 0;
      if negb ismp then panic "Didn't find a suitable machine"
      else
        when (negb (mp_imcrp m mp =? 0))
          (outb 0x22 0x70 ;;;
           v ← inb 0x23;
           outb 0x23 (Z.lor v 1)) ;;;
        mret (lapic, ioapicid)
  end.
End mpinit.

(** ** The table as a list of entries *)

(** The type byte is followed by the APIC's number, where there is one, and by
    bytes the kernel does not look at. *)
Inductive entry :=
| EProc (apicid : Z) (rest : list Z)
| EIoapic (apicno : Z) (rest : list Z)
| EOther (type : Z) (rest : list Z).

Definition entry_bytes (x : entry) : list Z :=
  match x with
  | EProc i r => MPPROC :: i :: r
  | EIoapic i r => MPIOAPIC :: i :: r
  | EOther t r => t :: r
  end.
Definition entry_ok (x : entry) : Prop :=
  match x with
  | EProc _ r => length r = 18%nat
  | EIoapic _ r => length r = 6%nat
  | EOther t r => (t = MPBUS \/ t = MPIOINTR \/ t = MPLINTR) /\ length r = 7%nat
  end.
Definition table (es : list entry) : list Z := concat (entry_bytes <$> es).

(** The bytes [bs] are at [a]. *)
Fixpoint holds (m : mem) (a : Z) (bs : list Z) : Prop :=
  match bs with
  | [] => True
  | b :: bs' => m a = b /\ holds m (a + 1) bs'
  end.

Definition apicids (es : list entry) : list Z := omap (fun x => match x with EProc i _ => Some i | _ => None end) es.
Definition last_ioapic (d : Z) (es : list entry) : Z := foldl (fun d x => match x with EIoapic i _ => i | _ => d end) d es.

(** The processors [ids] are entered, up to [NCPU]. *)
Fixpoint enter_cpus (ids : list Z) (mc : mach) : mach :=
  match ids with
  | [] => mc
  | i :: ids' =>
      enter_cpus ids'
        (match aget (m_cpus mc) (m_ncpu mc) with
         | Some c => mc <| m_cpus ::= <[Z.to_nat (m_ncpu mc) := c <| c_apicid := i |>]> |> <| m_ncpu := m_ncpu mc + 1 |>
         | None => mc
         end)
  end.

Section table.
Context {ports : Ports}.
Implicit Types (k : kernel) (m : mem) (es : list entry) (p e d : Z).

Definition cpus_ok (mc : mach) : Prop := alen (m_cpus mc) = NCPU /\ 0 <= m_ncpu mc <= NCPU.

Lemma enter_cpus_ok ids : forall mc, cpus_ok mc -> cpus_ok (enter_cpus ids mc).
Proof.
  induction ids as [|i ids IH]; intros mc [Hl Hn]; [done|]. cbn [enter_cpus]. apply IH. destruct (aget (m_cpus mc) (m_ncpu mc)) as [c|] eqn:E; [|done].
  apply aget_lt in E. split; rsimpl; [unfold alen in *; by rewrite length_insert|lia].
Qed.

Lemma add_cpu_run i k : cpus_ok (k_mach k) -> add_cpu i k = Ret tt (kst k (enter_cpus [i] (k_mach k))).
Proof.
  intros [Hl Hn]. unfold add_cpu. mstep. cbn [enter_cpus]. destruct (Z.ltb_spec (m_ncpu (k_mach k)) NCPU) as [Hlt|].
  - unfold when, cpu_at, cpu_set. destruct (aget_is_Some (m_cpus (k_mach k)) (m_ncpu (k_mach k))) as [c Hc]; [lia|]. rewrite Hc.
    assert (Hat : (mc ← gets k_mach; rd "cpus" (m_cpus mc) (m_ncpu (k_mach k))) k = Ret c k) by (mstep; by apply rd_Some). rewrite (bind_Ret _ _ _ _ _ Hat).
    assert (Hset : forall c', (mc ← gets k_mach; cs ← wr "cpus" (m_cpus mc) (m_ncpu (k_mach k)) c'; modify (fun k => k <| k_mach ::= fun mc => mc <| m_cpus := cs |> |>)) k =
      Ret tt (kst k ((k_mach k) <| m_cpus ::= <[Z.to_nat (m_ncpu (k_mach k)) := c']> |>))) by (intros c'; mstep; run wr_Some; [done|lia]).
    rewrite (bind_Ret _ _ _ _ _ (Hset _)). done.
  - rewrite aget_None by lia. by destruct k.
Qed.

Lemma holds_app m bs bs' : forall a, holds m a (bs ++ bs') <-> holds m a bs /\ holds m (a + Z.of_nat (length bs)) bs'.
Proof.
  induction bs as [|b bs IH]; intros a; cbn [app holds length]; [rewrite Z.add_0_r; tauto|]. rewrite IH. replace (a + Z.of_nat (S (length bs))) with (a + 1 + Z.of_nat (length bs)) by lia. tauto.
Qed.

Definition entry_size (x : entry) : Z := match x with EProc _ _ => sizeof_mpproc | EIoapic _ _ => sizeof_mpioapic | EOther _ _ => 8 end.
Lemma entry_size_eq x : entry_ok x -> Z.of_nat (length (entry_bytes x)) = entry_size x.
Proof. destruct x; cbn [entry_ok entry_bytes entry_size length]; [intros ->|intros ->|intros [_ ->]]; done. Qed.

Lemma table_length es : Forall entry_ok es -> (length es <= length (table es))%nat.
Proof.
  intros Hok. induction Hok as [|x es Hx _ IH]; [done|]. unfold table in *. cbn. rewrite length_app. pose proof (entry_size_eq x Hx). assert (0 < entry_size x) by (by destruct x). lia.
Qed.

(** One entry. *)
Lemma entry_run n m p e d k x : entry_ok x -> k_mem k = m -> holds m p (entry_bytes x) -> p < e -> cpus_ok (k_mach k) ->
  entries_loop (S n) p e true d k =
  entries_loop n (p + entry_size x) e true (last_ioapic d [x]) (kst k (enter_cpus (apicids [x]) (k_mach k))).
Proof.
  intros Hx <- Hh Hp Hc. cbn [entries_loop]. rewrite (proj2 (Z.ltb_lt p e)) by done. mstep. assert (Hid : kst k (k_mach k) = k) by (by destruct k).
  destruct x as [i r|i r|t r]; cbn [entry_bytes holds] in Hh.
  - destruct Hh as (-> & -> & _). cbn [Z.eqb MPPROC]. by rewrite (bind_Ret _ _ _ _ _ (add_cpu_run i k Hc)).
  - destruct Hh as (-> & -> & _). cbn [Z.eqb MPPROC MPIOAPIC Pos.eqb apicids omap list_omap enter_cpus]. by rewrite Hid.
  - destruct Hh as (-> & _). destruct Hx as [[->|[->| ->]] _]; cbn -[entries_loop]; by rewrite Hid.
Qed.

Lemma enter_cpus_app ids ids' : forall mc, enter_cpus (ids ++ ids') mc = enter_cpus ids' (enter_cpus ids mc).
Proof. induction ids as [|i ids IH]; intros mc; [done|]. cbn [app enter_cpus]. apply IH. Qed.

(** All entries of a table, and what comes after. *)
Lemma entries_run es : forall n m p e d k, Forall entry_ok es -> k_mem k = m -> holds m p (table es) -> p + Z.of_nat (length (table es)) <= e -> cpus_ok (k_mach k) ->
  entries_loop (length es + n) p e true d k =
  entries_loop n (p + Z.of_nat (length (table es))) e true (last_ioapic d es) (kst k (enter_cpus (apicids es) (k_mach k))).
Proof.
  induction es as [|x es IH]; intros n m p e d k Hok Hm Hh He Hc.
  { cbn. rewrite Z.add_0_r. by destruct k. }
  inversion Hok as [|? ? Hx Hes]; subst. unfold table in *. cbn [fmap list_fmap concat] in *. rewrite length_app, Nat2Z.inj_add, (entry_size_eq x Hx) in *. apply holds_app in Hh as [Hh1 Hh2].
  rewrite (entry_size_eq x Hx) in Hh2. assert (0 < entry_size x) by (by destruct x). cbn [length Nat.add]. rewrite (entry_run _ (k_mem k) p e d k x) by (done || lia).
  rewrite (IH n (k_mem k)); [|done|done|done|lia|ksimpl; by apply enter_cpus_ok].
  rewrite Z.add_assoc. f_equal. unfold apicids. change (x :: es) with ([x] ++ es). rewrite omap_app, enter_cpus_app. by destruct k.
Qed.

Definition apicid_at (mc : mach) (i : Z) : option Z := c_apicid <$> aget (m_cpus mc) i.

Lemma out_of_range a i b : ~ (a <= i < b) -> (a <=? i) && (i <? b) = false.
Proof. intros H. destruct (Z.leb_spec a i), (Z.ltb_spec i b); cbn; lia || done. Qed.
Lemma in_range a i b : a <= i < b -> (a <=? i) && (i <? b) = true.
Proof. intros H. destruct (Z.leb_spec a i), (Z.ltb_spec i b); cbn; lia || done. Qed.

Lemma enter_cpus_spec ids : forall mc, cpus_ok mc -> m_ncpu (enter_cpus ids mc) = Z.min NCPU (m_ncpu mc + alen ids) /\
  forall i, apicid_at (enter_cpus ids mc) i = if (m_ncpu mc <=? i) && (i <? Z.min NCPU (m_ncpu mc + alen ids)) then aget ids (i - m_ncpu mc) else apicid_at mc i.
Proof.
  induction ids as [|x ids IH]; intros mc [Hl Hn]; cbn [enter_cpus].
  { change (alen []) with 0. split; [lia|]. intros i. by rewrite out_of_range by lia. }
  rewrite alen_cons. pose proof (alen_nonneg ids) as Hids. destruct (aget (m_cpus mc) (m_ncpu mc)) as [c|] eqn:E.
  - pose proof (aget_lt _ _ _ E) as Hlt. set (mc1 := mc <| m_cpus ::= _ |> <| m_ncpu := _ |>).
    assert (Hc1 : cpus_ok mc1) by (split; unfold mc1; rsimpl; [unfold alen in *; by rewrite length_insert|lia]). destruct (IH mc1 Hc1) as [H1 H2].
    assert (Hn1 : m_ncpu mc1 = m_ncpu mc + 1) by done. rewrite Hn1 in H1, H2. split; [lia|]. intros i. rewrite H2.
    assert (Hat : apicid_at mc1 i = if decide (m_ncpu mc = i) then Some x else apicid_at mc i).
    { unfold apicid_at, mc1. rsimpl. rewrite aget_insert by lia. by case_decide. }
    rewrite Hat. destruct (decide (m_ncpu mc = i)) as [<-|Hne].
    + rewrite out_of_range, in_range, Z.sub_diag by lia. done.
    + destruct (Z.leb_spec (m_ncpu mc) i); [|by rewrite out_of_range by lia]. rewrite (proj2 (Z.leb_le _ i)) by lia. cbn [andb].
      replace (m_ncpu mc + (1 + alen ids)) with (m_ncpu mc + 1 + alen ids) by lia. case_match; [|done]. replace (i - m_ncpu mc) with (1 + (i - (m_ncpu mc + 1))) by lia.
      unfold aget. rewrite !(proj2 (Z.leb_le 0 _)) by lia. rewrite Z2Nat.inj_add by lia. done.
  - assert (~ (0 <= m_ncpu mc < alen (m_cpus mc))) by (intros H; by destruct (aget_is_Some _ _ H); congruence).
    destruct (IH mc) as [H1 H2]; [done|]. split; [lia|]. intros i. rewrite H2. by rewrite !out_of_range by lia.
Qed.
End table.

Section theorems.
Context {ports : Ports}.

(** C25. Detecting the processors.  If the tables the firmware left are found
    ([mpconfig]), they do not ask for the interrupt mode to be switched ([imcrp] is
    0), the configuration table consists of entries of the known types and no
    processor has been counted yet, then [mpinit] returns the addresses of the local APIC and the number of
    the last I/O APIC listed; [ncpu] is the number of processor entries, at most
    [NCPU], and [cpus] has their APIC numbers in the order of the table; nothing
    else of the kernel changes. *)
Theorem mpinit_table (k : kernel) mp conf es :
  mpconfig (k_mem k) = Some (mp, conf) -> mp_imcrp (k_mem k) mp = 0 ->
  Forall entry_ok es -> holds (k_mem k) (conf + sizeof_mpconf) (table es) -> conf_length (k_mem k) conf = sizeof_mpconf + alen (table es) ->
  alen (m_cpus (k_mach k)) = NCPU -> m_ncpu (k_mach k) = 0 ->
  exists mc, mpinit k = Ret (conf_lapicaddr (k_mem k) conf, last_ioapic 0 es) (kst k mc) /\
    m_ncpu mc = Z.min NCPU (alen (apicids es)) /\
    (forall i, 0 <= i < m_ncpu mc -> apicid_at mc i = aget (apicids es) i).
Proof.
  intros Hconf Himcr Hok Hh Hlen Hl Hn. assert (Hc : cpus_ok (k_mach k)) by (split; [done|]; rewrite Hn; done). exists (enter_cpus (apicids es) (k_mach k)).
  destruct (enter_cpus_spec (apicids es) (k_mach k) Hc) as [H1 H2]. rewrite Hn, Z.add_0_l in H1, H2. split; [|split; [done|]].
  - unfold mpinit. mstep. rewrite Hconf. replace (Z.to_nat (conf_length (k_mem k) conf)) with (length es + (Z.to_nat (conf_length (k_mem k) conf) - length es))%nat.
    + rewrite (bind_Ret _ _ _ (true, last_ioapic 0 es) (kst k (enter_cpus (apicids es) (k_mach k)))); [cbn [negb]; rewrite Himcr; cbn [Z.eqb negb when]; done|].
      rewrite (entries_run es _ (k_mem k)); [|done|done|done|unfold alen in Hlen; lia|done]. unfold alen in Hlen. destruct (_ - length es)%nat; cbn [entries_loop]; by rewrite (proj2 (Z.ltb_ge _ _)) by lia.
    + pose proof (table_length es Hok). unfold alen, sizeof_mpconf in Hlen. lia.
  - intros i Hi. rewrite H2, Z.sub_0_r. by rewrite in_range by lia.
Qed.

(** An entry of an unknown type. *)
Lemma unknown_loops n : forall p e d ismp (k : kernel), p < e -> ~ (0 <= k_mem k p <= 4) -> entries_loop n p e ismp d k = Diverge.
Proof.
  induction n as [|n IH]; intros p e d ismp k Hp Ht; cbn [entries_loop]; rewrite (proj2 (Z.ltb_lt p e)) by done; [done|]. mstep.
  rewrite !(proj2 (Z.eqb_neq _ _)) by (unfold MPPROC, MPIOAPIC, MPBUS, MPIOINTR, MPLINTR; lia). by apply IH.
Qed.

(** An entry of an unknown type makes [mpinit] loop forever: no number of
    rounds of the loop over the entries is enough, so that the message that no
    suitable machine was found is never printed. *)
Theorem mpinit_unknown (k : kernel) mp conf es t rest :
  mpconfig (k_mem k) = Some (mp, conf) -> Forall entry_ok es -> holds (k_mem k) (conf + sizeof_mpconf) (table es ++ t :: rest) ->
  conf_length (k_mem k) conf = sizeof_mpconf + alen (table es ++ t :: rest) -> ~ (0 <= t <= 4) -> cpus_ok (k_mach k) ->
  mpinit k = Diverge /\ forall n ismp d, entries_loop n (conf + sizeof_mpconf + alen (table es)) (conf + conf_length (k_mem k) conf) ismp d k = Diverge.
Proof.
  intros Hconf Hok Hh Hlen Ht Hc. apply holds_app in Hh as [Hh1 [Hht _]]. unfold alen in Hlen. rewrite length_app in Hlen. cbn [length] in Hlen.
  split; [|intros n ismp d; apply unknown_loops; unfold alen; [lia|by rewrite Hht]].
  unfold mpinit. mstep. rewrite Hconf. destruct (Nat.le_gt_cases (length es) (Z.to_nat (conf_length (k_mem k) conf))) as [Hle|Hgt].
  - rewrite <- (Nat.sub_add _ _ Hle), Nat.add_comm. apply bind_Diverge. rewrite (entries_run es _ (k_mem k)); [|done|done|done|lia|done]. apply unknown_loops; [lia|]. ksimpl. by rewrite Hht.
  - pose proof (table_length es Hok). unfold sizeof_mpconf in Hlen. lia.
Qed.
End theorems.
