(* ===== verification/Boot.v ===== *)
(** * The boot loader ([bootmain.c])

    The loader runs on physical memory, before the kernel: it reads the kernel's
    ELF file from the disk, sector by sector, and copies its segments to where
    their program headers say.  Sectors are read whole, so that a segment's first
    and last sector can spill over its ends.

    [bootmain_loads]: if the spill of a segment does not hit the header or a
    segment loaded before it, all segments are in memory when the kernel is
    entered. *)

From S2P Require Import Prelude State Spinlock CString Kalloc Console Mp.
Open Scope Z_scope.

Definition SECTSIZE : Z := 512.
Definition ELF_MAGIC : Z := 0x464C457F.

(** Memory, what was written to the ports, and how often the disk's status was read. *)
Record loader := mkloader {
  ld_mem : mem;
  ld_out : list (Z * Z);
  ld_polls : nat }.
#[export] Instance eta_loader : Eta loader :=
  mkEta _ (fun r => mkloader (ld_mem r) (ld_out r) (ld_polls r)).
Abbreviation B := (M loader).

(** The disk: its [n]-th status, and the bytes of the sector it transfers after
    what was written to its ports. *)
Class Ata := mkAta { ata_status : nat -> Z; ata_byte : list (Z * Z) -> Z -> Z }.

(** ** The code *)

Section boot.
Context {fuel : Fuel} {ata : Ata}.

(** [outb] takes an [uchar]. *)
Definition boot_outb (port v : Z) : B unit := modify (fun s => s <| ld_out ::= fun o => o ++ [(port, byte v)] |>).

Fixpoint waitdisk_loop (n : nat) : B unit :=
  match n with
  | O => fun _ => Diverge
  | S n' =>
      i ← gets ld_polls;
      modify (fun s => s <| ld_polls ::= S |>) ;;;
      if negb (Z.land (ata_status i) 0xC0 =? 0x40) then waitdisk_loop n' else mret tt
  end.
Definition waitdisk : B unit := waitdisk_loop wakeups.

Definition boot_insl (dst cnt : Z) : B unit :=
  o ← gets ld_out;
  modify (fun s => s <| ld_mem ::= fun m x => if within dst (4 * cnt) x then ata_byte o (x - dst) else m x |>).

Definition readsect (dst offset : Z) : B unit :=
  waitdisk ;;;
  boot_outb 0x1F2 1 ;;;
  boot_outb 0x1F3 offset ;;;
  boot_outb 0x1F4 (Z.shiftr offset 8) ;;;
  boot_outb 0x1F5 (Z.shiftr offset 16) ;;;
  boot_outb 0x1F6 (Z.lor (Z.shiftr offset 24) 0xE0) ;;;
  boot_outb 0x1F7 0x20 ;;;
  waitdisk ;;;
  boot_insl dst (SECTSIZE / 4).

Fixpoint readseg_loop (n : nat) (pa epa offset : Z) : B unit :=
  if pa <? epa then
    match n with
    | O => fun _ => Diverge
    | S n' => readsect pa offset ;;; readseg_loop n' (u32 (pa + SECTSIZE)) epa (u32 (offset + 1))
    end
  else mret tt.
Definition readseg (pa count offset : Z) : B unit :=
  let epa := u32 (pa + count) in
  let pa := u32 (pa - offset mod SECTSIZE) in
  let offset := offset / SECTSIZE + 1 in
  readseg_loop (Z.to_nat (count / SECTSIZE + 2)) pa epa offset.

(** The fields of [struct proghdr] at [ph]. *)
Definition ph_off (m : mem) (ph : Z) : Z := load32 m (ph + 4).
Definition ph_paddr (m : mem) (ph : Z) : Z := load32 m (ph + 12).
Definition ph_filesz (m : mem) (ph : Z) : Z := load32 m (ph + 16).
Definition ph_memsz (m : mem) (ph : Z) : Z := load32 m (ph + 20).

(** [n] program headers from [ph]. *)
Fixpoint load_loop (n : nat) (ph : Z) : B unit :=
  match n with
  | O => mret tt
  | S n' =>
      m ← gets ld_mem;
      let pa := ph_paddr m ph in
      readseg pa (ph_filesz m ph) (ph_off m ph) ;;;
      m ← gets ld_mem;
      when (ph_filesz m ph <? ph_memsz m ph)
        (modify (fun s => s <| ld_mem ::= fun m0 => stosb m0 (pa + ph_filesz m ph) 0 (ph_memsz m ph - ph_filesz m ph) |>)) ;;;
      load_loop n' (ph + 32)
  end.

(** [Some entry]: the kernel is entered there; [None]: back to [bootasm.S]. *)
Definition bootmain : B (option Z) :=
  let elf := 0x10000 in
  readseg elf 4096 0 ;;;
  m ← gets ld_mem;
  if negb (load32 m elf =? ELF_MAGIC) then mret None
  else
    load_loop (Z.to_nat (load16 m (elf + 44))) (elf + load32 m (elf + 28)) ;;;
    m ← gets ld_mem;
    mret (Some (load32 m (elf + 24))).
End boot.

(** ** The file on the disk *)

(** The command for reading a sector. *)
Definition read_command (s : Z) : list (Z * Z) :=
  [(0x1F2, 1); (0x1F3, s mod 256); (0x1F4, s / 2 ^ 8 mod 256); (0x1F5, s / 2 ^ 16 mod 256); (0x1F6, 0xE0 + s / 2 ^ 24); (0x1F7, 0x20)].

(** The disk is never busy for long, and from sector 1 on it holds [img]. *)
Record ata_ok {fuel : Fuel} {ata : Ata} (img : mem) : Prop := {
  ata_ready : forall n, exists j, (j < wakeups)%nat /\ Z.land (ata_status (n + j)) 0xC0 = 0x40;
  ata_holds : forall o q i, 0 <= q -> q + 1 < 2 ^ 28 -> 0 <= i < SECTSIZE -> ata_byte (o ++ read_command (q + 1)) i = img (q * SECTSIZE + i) }.

Section sectors.
Context {fuel : Fuel} {ata : Ata} (img : mem) (Hata : ata_ok img).
Implicit Types (s : loader) (m : mem).

Lemma waitdisk_run s : exists n, waitdisk s = Ret tt (s <| ld_polls := n |>).
Proof.
  destruct (ata_ready _ Hata (ld_polls s)) as (j & Hj & Hr). unfold waitdisk. revert s Hj Hr. generalize wakeups as w.
  induction j as [|j IH]; intros w s Hj Hr; (destruct w as [|w]; [lia|]); cbn [waitdisk_loop]; mstep; mstep.
  - rewrite Nat.add_0_r in Hr. rewrite Hr. cbn. eexists. by destruct s.
  - destruct (Z.land (ata_status (ld_polls s)) 0xC0 =? 0x40); cbn [negb]; [eexists; by destruct s|].
    destruct (IH w (s <| ld_polls ::= S |>)) as [n Hn]; [lia|rsimpl; by rewrite Nat.add_succ_comm|]. exists n. rewrite Hn. by destruct s.
Qed.

Lemma byte_lor_e0 x : 0 <= x < 16 -> byte (Z.lor x 0xE0) = 0xE0 + x.
Proof.
  intros Hx. assert (H : x = 0 \/ x = 1 \/ x = 2 \/ x = 3 \/ x = 4 \/ x = 5 \/ x = 6 \/ x = 7 \/ x = 8 \/ x = 9 \/ x = 10 \/ x = 11 \/ x = 12 \/ x = 13 \/ x = 14 \/ x = 15) by lia.
  by repeat destruct H as [->|H]; [..|subst].
Qed.

(** A sector. *)
Lemma readsect_run s dst q : 0 <= q -> q + 1 < 2 ^ 28 ->
  exists s', readsect dst (q + 1) s = Ret tt s' /\ forall x, ld_mem s' x = if within dst SECTSIZE x then img (q * SECTSIZE + (x - dst)) else ld_mem s x.
Proof.
  intros Hq Hq2. unfold readsect. destruct (waitdisk_run s) as [n1 H1]. run H1. repeat mstep.
  match goal with |- exists s', (waitdisk ;;; _) ?s0 = _ /\ _ => set (s1 := s0) end. destruct (waitdisk_run s1) as [n2 H2]. run H2. unfold boot_insl. mstep.
  assert (Hout : ld_out s1 = ld_out s ++ read_command (q + 1)).
  { unfold s1. rsimpl. rewrite <- !app_assoc. cbn [app]. unfold read_command. rewrite !Z.shiftr_div_pow2 by lia. change (2 ^ 28) with (2 ^ 24 * 16) in Hq2.
    rewrite byte_lor_e0; [done|]. split; [apply Z.div_pos; lia|apply Z.div_lt_upper_bound; lia]. }
  eexists. split; [done|]. intros x. rsimpl. rewrite Hout. change (4 * (SECTSIZE / 4)) with SECTSIZE. destruct (within_spec dst SECTSIZE x); [|done]. apply (ata_holds _ Hata); lia.
Qed.

(** The sectors of a part of the file. *)
Lemma readseg_loop_run n : forall f pa epa q s, (n <= f)%nat -> 0 <= pa -> pa + Z.of_nat n * SECTSIZE < 2 ^ 32 -> 0 <= q -> q + Z.of_nat n + 1 < 2 ^ 28 ->
  epa <= pa + Z.of_nat n * SECTSIZE < epa + SECTSIZE \/ n = O /\ epa <= pa ->
  exists s', readseg_loop f pa epa (q + 1) s = Ret tt s' /\ forall x, ld_mem s' x = if within pa (Z.of_nat n * SECTSIZE) x then img (q * SECTSIZE + (x - pa)) else ld_mem s x.
Proof.
  induction n as [|n IH]; intros f pa epa q s Hf Hpa Hpa2 Hq Hq2 Hn.
  { exists s. split; [destruct f; cbn [readseg_loop]; by rewrite (proj2 (Z.ltb_ge _ _)) by lia|]. intros x. by rewrite within_false by lia. }
  destruct f as [|f]; [lia|]. unfold SECTSIZE in Hn, Hpa2. change (2 ^ 32) with 4294967296 in *. change (2 ^ 28) with 268435456 in *.
  cbn [readseg_loop]. rewrite (proj2 (Z.ltb_lt pa epa)) by lia. destruct (readsect_run s pa q) as (s1 & H1 & M1); [done|lia|]. run H1.
  destruct (IH f (pa + SECTSIZE) epa (q + 1) s1) as (s' & H2 & M2); clear IH; [lia|unfold SECTSIZE; lia..|]. exists s'. split.
  - rewrite <- H2. unfold u32, SECTSIZE. by rewrite !Z.mod_small by lia.
  - intros x. rewrite M2, M1. unfold SECTSIZE. destruct (within_spec (pa + 512) (Z.of_nat n * 512) x).
    + rewrite within_true by lia. f_equal. lia.
    + destruct (within_spec pa 512 x); [by rewrite within_true by lia|by rewrite within_false by lia].
Qed.

(** [readseg] writes the sectors that hold the bytes from [offset] on. *)
Definition seg_lo (pa offset : Z) : Z := pa - offset mod SECTSIZE.
Definition seg_len (count offset : Z) : Z := (offset mod SECTSIZE + count + 511) / 512 * 512.

Lemma readseg_run s pa count offset : 0 <= count -> 0 <= offset < 2 ^ 32 -> 0 <= seg_lo pa offset -> pa + count + SECTSIZE < 2 ^ 32 ->
  exists s', readseg pa count offset s = Ret tt s' /\ forall x, ld_mem s' x = if within (seg_lo pa offset) (seg_len count offset) x then img (offset + (x - pa)) else ld_mem s x.
Proof.
  intros Hc Ho Hlo Hhi. unfold readseg, seg_lo, seg_len, SECTSIZE in *. change (2 ^ 32) with 4294967296 in *.
  assert (Hm : 0 <= offset mod 512 < 512) by (by apply Z.mod_pos_bound). set (n := Z.to_nat ((offset mod 512 + count + 511) / 512)).
  assert (Hn : Z.of_nat n = (offset mod 512 + count + 511) / 512) by (unfold n; rewrite Z2Nat.id; [done|apply Z.div_pos; lia]).
  destruct (readseg_loop_run n (Z.to_nat (count / 512 + 2)) (pa - offset mod 512) (pa + count) (offset / 512) s) as (s' & H1 & M1);
    [rewrite <- (Nat2Z.id n), Hn; apply Z2Nat.inj_le; dlia|lia|unfold SECTSIZE; change (2 ^ 32) with 4294967296; dlia|dlia|change (2 ^ 28) with 268435456; dlia| |].
  { unfold SECTSIZE. destruct (decide (offset mod 512 + count = 0)); [right|left]; dlia. }
  exists s'. split; [unfold u32; change (2 ^ 32) with 4294967296; rewrite (Z.mod_small (pa + count)), (Z.mod_small (pa - offset mod 512)) by lia; exact H1|]. intros x. rewrite M1, Hn. unfold SECTSIZE. destruct (within _ _ x); [|done]. f_equal. dlia.
Qed.
End sectors.

(** ** Segments *)

Record segment := mksegment { sg_pa : Z; sg_off : Z; sg_filesz : Z; sg_memsz : Z }.
Definition segment_at (m : mem) (ph : Z) : segment := mksegment (ph_paddr m ph) (ph_off m ph) (ph_filesz m ph) (ph_memsz m ph).
(** The [n] program headers at [o] in the file. *)
Fixpoint segments (m : mem) (n : nat) (o : Z) : list segment :=
  match n with O => [] | S n' => segment_at m o :: segments m n' (o + 32) end.

(** The segment's addresses, and all that are written when it is loaded. *)
Definition seg_holds (g : segment) (x : Z) : Prop := sg_pa g <= x < sg_pa g + Z.max (sg_filesz g) (sg_memsz g).
Definition seg_writes (g : segment) (x : Z) : Prop :=
  seg_lo (sg_pa g) (sg_off g) <= x < seg_lo (sg_pa g) (sg_off g) + seg_len (sg_filesz g) (sg_off g) \/
  sg_pa g + sg_filesz g <= x < sg_pa g + sg_memsz g.

(** A segment lies in memory, and loading it leaves the header alone. *)
Definition seg_fits (g : segment) : Prop :=
  0 <= seg_lo (sg_pa g) (sg_off g) /\ sg_pa g + Z.max (sg_filesz g) (sg_memsz g) + SECTSIZE < 2 ^ 32 /\
  forall x, seg_writes g x -> ~ (0x10000 <= x < 0x11000).
(** Loading a segment leaves the segments before it alone. *)
Fixpoint segs_apart (gs : list segment) : Prop :=
  match gs with
  | [] => True
  | g :: gs' => Forall (fun g' => forall x, seg_writes g' x -> ~ seg_holds g x) gs' /\ segs_apart gs'
  end.

(** The segment is in memory: the bytes of the file, then zeros. *)
Definition loaded (img m : mem) (g : segment) : Prop :=
  (forall o, 0 <= o < sg_filesz g -> m (sg_pa g + o) = img (sg_off g + o)) /\
  (forall o, sg_filesz g <= o < sg_memsz g -> m (sg_pa g + o) = 0).

(** The first 4096 bytes of the file are at 0x10000. *)
Definition header_in (img m : mem) : Prop := forall i, 0 <= i < 4096 -> m (0x10000 + i) = img i.

Section segments.
Context {fuel : Fuel} {ata : Ata} (img : mem) (Hata : ata_ok img) (Himg : mem_ok img).
Implicit Types (s : loader) (m : mem) (g : segment) (gs : list segment).

Lemma load32_shift m m' a b : (forall i, 0 <= i < 4 -> m (a + i) = m' (b + i)) -> load32 m a = load32 m' b.
Proof.
  intros H. unfold load32. pose proof (H 0) as H0. rewrite !Z.add_0_r in H0. by rewrite H0, (H 1), (H 2), (H 3) by lia.
Qed.

Lemma header_segment m o : header_in img m -> 0 <= o -> o + 32 <= 4096 -> segment_at m (0x10000 + o) = segment_at img o.
Proof.
  intros H Ho Ho2. unfold segment_at, ph_paddr, ph_off, ph_filesz, ph_memsz.
  f_equal; apply load32_shift; intros i Hi; rewrite <- !Z.add_assoc; apply H; lia.
Qed.

Lemma header_word m o : header_in img m -> 0 <= o -> o + 4 <= 4096 -> load32 m (0x10000 + o) = load32 img o.
Proof. intros H Ho Ho2. apply load32_shift. intros i Hi. rewrite <- Z.add_assoc. apply H. lia. Qed.
Lemma header_half m o : header_in img m -> 0 <= o -> o + 2 <= 4096 -> load16 m (0x10000 + o) = load16 img o.
Proof. intros H Ho Ho2. unfold load16. rewrite <- Z.add_assoc. by rewrite !H by lia. Qed.

Lemma loaded_keep m m' g : 0 <= sg_filesz g -> loaded img m g -> (forall x, seg_holds g x -> m' x = m x) -> loaded img m' g.
Proof. intros Hf [H1 H2] Hk. split; intros o Ho; (rewrite Hk; [auto|unfold seg_holds; lia]). Qed.

(** One program header. *)
Lemma load_segment n o s : header_in img (ld_mem s) -> 0 <= o -> o + 32 <= 4096 -> seg_fits (segment_at img o) ->
  exists s', load_loop (S n) (0x10000 + o) s = load_loop n (0x10000 + (o + 32)) s' /\ loaded img (ld_mem s') (segment_at img o) /\
    forall x, ~ seg_writes (segment_at img o) x -> ld_mem s' x = ld_mem s x.
Proof.
  intros Hh Ho Ho2 (Hlo & Hhi & Hapart). pose proof (header_segment _ _ Hh Ho Ho2) as Hg. remember (segment_at img o) as g eqn:Eg.
  assert (Hr : forall a, 0 <= load32 img a < 2 ^ 32) by (intros; by apply load32_range).
  assert (Hf : 0 <= sg_filesz g) by (rewrite Eg; apply Hr). assert (Hof : 0 <= sg_off g < 2 ^ 32) by (rewrite Eg; apply Hr).
  destruct (readseg_run img Hata s (sg_pa g) (sg_filesz g) (sg_off g) Hf Hof Hlo) as (s1 & H1 & M1); [lia|].
  assert (Hsame : forall x, ~ seg_writes g x -> ld_mem s1 x = ld_mem s x) by (intros x Hx; rewrite M1, within_false; [done|]; intros H; apply Hx; by left).
  assert (Hh1 : header_in img (ld_mem s1)) by (intros i Hi; rewrite Hsame; [by apply Hh|]; intros H; by apply (Hapart _ H); lia).
  pose proof (header_segment _ _ Hh1 Ho Ho2) as Hg1. rewrite <- Eg in Hg1. set (ph := 0x10000 + o) in *.
  assert (Hph : ph_filesz (ld_mem s1) ph = sg_filesz g /\ ph_memsz (ld_mem s1) ph = sg_memsz g) by (by rewrite <- Hg1). destruct Hph as [E1 E2].
  assert (Hin : forall x, seg_lo (sg_pa g) (sg_off g) <= x -> x < sg_pa g + sg_filesz g -> ld_mem s1 x = img (sg_off g + (x - sg_pa g))).
  { intros x Hx1 Hx2. rewrite M1, within_true; [done|]. split; [done|]. unfold seg_lo, seg_len, SECTSIZE in *. clear -Hx2. dlia. }
  cbn [load_loop]. mstep. assert (Hph : ph_paddr (ld_mem s) ph = sg_pa g /\ ph_filesz (ld_mem s) ph = sg_filesz g /\ ph_off (ld_mem s) ph = sg_off g) by (by rewrite <- Hg). destruct Hph as (-> & -> & ->).
  run H1. mstep. rewrite E1, E2. replace (0x10000 + (o + 32)) with (ph + 32) by (unfold ph; lia). destruct (Z.ltb_spec (sg_filesz g) (sg_memsz g)) as [Hlt|Hge]; cbn [when].
  - mstep. eexists. split; [done|]. unfold stosb. rsimpl. assert (Hm : 0 <= sg_off g mod SECTSIZE) by (by apply Z.mod_pos_bound). split; [split|].
    + intros i Hi. rewrite within_false by lia. rewrite Hin; [f_equal; lia|unfold seg_lo in *; lia|lia].
    + intros i Hi. by rewrite within_true by lia.
    + intros x Hx. rewrite within_false; [by apply Hsame|]. intros H. apply Hx. right. lia.
  - mstep. exists s1. split; [done|]. assert (Hm : 0 <= sg_off g mod SECTSIZE) by (by apply Z.mod_pos_bound). split; [split; [|lia]|done].
    intros i Hi. rewrite Hin; [f_equal; lia|unfold seg_lo in *; lia|lia].
Qed.

(** All of them. *)
Lemma load_loop_run n : forall o s, header_in img (ld_mem s) -> 0 <= o -> o + 32 * Z.of_nat n <= 4096 -> Forall seg_fits (segments img n o) -> segs_apart (segments img n o) ->
  exists s', load_loop n (0x10000 + o) s = Ret tt s' /\ Forall (loaded img (ld_mem s')) (segments img n o) /\
    forall x, Forall (fun g => ~ seg_writes g x) (segments img n o) -> ld_mem s' x = ld_mem s x.
Proof.
  induction n as [|n IH]; intros o s Hh Ho Ho2 Hfit Hap; cbn [segments segs_apart] in *; [by exists s|]. apply Forall_cons in Hfit as [Hf Hfs]. destruct Hap as [Ha Has].
  destruct (load_segment n o s) as (s1 & H1 & L1 & F1); [done|done|lia|done|].
  destruct (IH (o + 32) s1) as (s' & H2 & L2 & F2); [|lia|lia|done|done|].
  { intros i Hi. rewrite F1; [by apply Hh|]. intros H. destruct Hf as (_ & _ & Hf). apply (Hf _ H). lia. }
  exists s'. split; [by rewrite H1|]. split.
  - constructor; [|done]. eapply loaded_keep; [by apply load32_range|exact L1|]. intros x Hx. apply F2. eapply Forall_impl; [exact Ha|]. intros g Hg Hw. by apply (Hg x).
  - intros x Hx. apply Forall_cons in Hx as [Hx Hxs]. by rewrite F2, F1.
Qed.
End segments.

(** C24. The boot loader.  Let the disk hold an ELF file from its second sector on,
    with its program headers in the first 4096 bytes.  If loading a segment -- whole
    sectors, and the zeros behind the bytes of the file -- overwrites neither the
    header at 0x10000 nor a segment listed before it, then [bootmain] enters the
    kernel at the entry point of the ELF header, and every segment is in memory:
    its bytes from the file at its physical address, followed by zeros up to its
    size in memory. *)
Theorem bootmain_loads {fuel : Fuel} {ata : Ata} (img : mem) (s : loader) :
  ata_ok img -> mem_ok img -> load32 img 0 = ELF_MAGIC ->
  let gs := segments img (Z.to_nat (load16 img 44)) (load32 img 28) in
  load32 img 28 + 32 * load16 img 44 <= 4096 -> Forall seg_fits gs -> segs_apart gs ->
  exists s', bootmain s = Ret (Some (load32 img 24)) s' /\ Forall (loaded img (ld_mem s')) gs.
Proof.
  intros Hata Himg Hmagic gs Hph Hfit Hap. assert (Hr : forall a, 0 <= load32 img a < 2 ^ 32) by (intros; by apply load32_range).
  assert (H16 : 0 <= load16 img 44) by (unfold load16; pose proof (Himg 44); pose proof (Himg (44 + 1)); lia).
  destruct (readseg_run img Hata s 0x10000 4096 0) as (s1 & H1 & M1); [done..|].
  assert (Hh : header_in img (ld_mem s1)) by (intros i Hi; rewrite M1, within_true by (change (seg_lo 0x10000 0) with 0x10000; change (seg_len 4096 0) with 4096; lia); f_equal; lia).
  unfold bootmain. run H1. mstep. change (load32 (ld_mem s1) 0x10000) with (load32 (ld_mem s1) (0x10000 + 0)). rewrite (header_word _ _ 0 Hh), (header_word _ _ 28 Hh), (header_half _ _ 44 Hh), Hmagic, Z.eqb_refl by lia. cbn [negb].
  destruct (load_loop_run img Hata Himg (Z.to_nat (load16 img 44)) (load32 img 28) s1 Hh) as (s' & H2 & L & F); [apply Hr|lia|done|done|]. run H2. mstep. exists s'. split; [|done].
  unfold mret, M_ret. do 2 f_equal. apply load32_shift. intros i Hi. rewrite F; [rewrite <- Z.add_assoc; apply Hh; lia|].
  eapply Forall_impl; [exact Hfit|]. intros g (_ & _ & Hg) Hw. apply (Hg _ Hw). lia.
Qed.
