(* ===== verification/MachineExamples.v ===== *)
(** * Examples of a starting machine

    Configuration tables for [mpinit], and for the boot loader a disk that
    serves the bytes of a file, with two files: one for [bootmain_loads], and one
    with segments in increasing order of which the second destroys a part of the
    first. *)

From S2P Require Import Prelude State Spinlock CString Kalloc Console Mp Boot.
Open Scope Z_scope.

(** A memory with the given bytes at the given addresses, and zeros. *)
Fixpoint mem_of (l : list (Z * list Z)) : mem :=
  match l with
  | [] => fun _ => 0
  | (a, bs) :: l' => fun x => match aget bs (x - a) with Some b => b | None => mem_of l' x end
  end.

(** The checksum byte that makes a sum zero. *)
Definition check (bs : list Z) : Z := byte (- foldl Z.add 0 bs).

(** ** Two processors and an I/O APIC *)

Definition two_cpus : list entry :=
  [EProc 0 (replicate 18 0); EProc 3 (replicate 18 0); EOther MPBUS (replicate 7 0); EIoapic 2 (replicate 6 0); EOther MPIOINTR (replicate 7 0)].

Lemma two_cpus_ok : Forall entry_ok two_cpus.
Proof. repeat (apply Forall_cons; split; [cbn; auto|]). apply Forall_nil. done. Qed.

(** A configuration table with the given entries: signature, length, version,
    checksum, and the address of the local APIC at offset 36. *)
Definition conf_bytes (es : list Z) : list Z :=
  let len := sizeof_mpconf + alen es in
  let head c := bytes "PCMP" ++ [byte len; len / 256; 4; c] ++ replicate 28 0 ++ [0; 0; 0xE0; 0xFE] ++ replicate 4 0 in
  head (check (head 0 ++ es)) ++ es.
(** A floating pointer structure that leads to physical address [pa]. *)
Definition mp_bytes (pa : Z) : list Z :=
  let mp c := bytes "_MP_" ++ [wbyte pa 0; wbyte pa 1; wbyte pa 2; wbyte pa 3; 1; 4; c; 0; 0; 0; 0; 0] in
  mp (check (mp 0)).

(** The BIOS data area says that the extended data area is at 0x9FC00. *)
Definition firmware (es : list Z) : mem :=
  mem_of [(P2V 0x40E, [0xC0; 0x9F]); (P2V 0x9FC20, mp_bytes 0x9FD00); (P2V 0x9FD00, conf_bytes es)].
Definition kernel_start (es : list Z) : kernel :=
  (kernel0 0x80400000) <| k_mem := firmware es |> <| k_mach := mkmach 0 false 0 (replicate 8 (mkcpu 255 0 false None)) ∅ |>.

#[local] Instance no_ports : Ports := mkPorts (fun _ => mret 0) (fun _ => mret 0).

Lemma mpinit_table_witness : exists mc, mpinit (kernel_start (table two_cpus)) = Ret (0xFEE00000, 2) (kst (kernel_start (table two_cpus)) mc) /\
  m_ncpu mc = 2 /\ forall i, 0 <= i < m_ncpu mc -> apicid_at mc i = aget [0; 3] i.
Proof.
  exact (mpinit_table (kernel_start (table two_cpus)) (P2V 0x9FC20) (P2V 0x9FD00) two_cpus ltac:(vm_compute; reflexivity) ltac:(vm_compute; reflexivity)
    two_cpus_ok ltac:(vm_compute; repeat split) ltac:(vm_compute; reflexivity) ltac:(reflexivity) ltac:(reflexivity)).
Defined.

(** An entry of type 9. *)
Lemma mpinit_unknown_witness : mpinit (kernel_start (table two_cpus ++ [9; 0; 0; 0; 0; 0; 0; 0])) = Diverge /\
  forall n ismp d, entries_loop n (P2V 0x9FD00 + sizeof_mpconf + alen (table two_cpus)) (P2V 0x9FD00 + 116) ismp d (kernel_start (table two_cpus ++ [9; 0; 0; 0; 0; 0; 0; 0])) = Diverge.
Proof.
  exact (mpinit_unknown (kernel_start (table two_cpus ++ [9; 0; 0; 0; 0; 0; 0; 0])) (P2V 0x9FC20) (P2V 0x9FD00) two_cpus 9 (replicate 7 0) ltac:(vm_compute; reflexivity)
    two_cpus_ok ltac:(vm_compute; repeat split) ltac:(vm_compute; reflexivity) ltac:(lia) ltac:(split; [reflexivity|done])).
Defined.

(** The sector of the last command. *)
Definition command_sector (o : list (Z * Z)) : Z :=
  match reverse o with
  | _ :: (_, b6) :: (_, b5) :: (_, b4) :: (_, b3) :: _ => b3 + 2 ^ 8 * b4 + 2 ^ 16 * b5 + 2 ^ 24 * (b6 - 0xE0)
  | _ => 0
  end.
(** Busy every other time. *)
Definition disk_of (img : mem) : Ata :=
  mkAta (fun n => if Nat.even n then 0x80 else 0x50) (fun o i => img ((command_sector o - 1) * SECTSIZE + i)).

Lemma disk_of_ok img : @ata_ok 2%nat (disk_of img) img.
Proof.
  split.
  - intros n. cbn [ata_status disk_of]. destruct (Nat.even n) eqn:E; [exists 1%nat|exists O].
    + split; [unfold wakeups; lia|]. rewrite Nat.add_1_r, Nat.even_succ, <- Nat.negb_even, E. done.
    + split; [unfold wakeups; lia|]. by rewrite Nat.add_0_r, E.
  - intros o q i Hq Hq2 Hi. cbn [ata_byte disk_of]. f_equal. f_equal. f_equal. unfold command_sector. rewrite reverse_app. cbn. change (2 ^ 28) with 268435456 in *.
    change (2 ^ 8) with 256. change (2 ^ 16) with 65536. change (2 ^ 24) with 16777216. dlia.
Qed.

(** A little-endian word, an ELF header with [n] program headers at 52, and a program header. *)
Definition word (v : Z) : list Z := wbyte v <$> [0; 1; 2; 3].
Definition elf_header (n : Z) : list Z :=
  word ELF_MAGIC ++ replicate 12 0 ++ word 0x30002 ++ word 1 ++ word 0x10000C ++ word 52 ++ replicate 12 0 ++ [n; 0] ++ replicate 6 0.
Definition prog_header (off pa filesz memsz : Z) : list Z := word 1 ++ word off ++ word 0 ++ word pa ++ word filesz ++ word memsz ++ word 7 ++ word 4096.

(** From [base] on the file has [data]. *)
Definition file (hdr : list Z) (base : Z) (data : list Z) : mem := mem_at 0 hdr (mem_at base data (fun _ => 0)).
Lemma file_ok hdr base data : Forall (fun c => 0 <= c < 256) hdr -> Forall (fun c => 0 <= c < 256) data -> mem_ok (file hdr base data).
Proof. intros H1 H2. apply mem_at_ok; [done|]. apply mem_at_ok; [done|]. intros a. lia. Qed.

(** A kernel of two segments: ten bytes and six zeros, then, on the next sector, four bytes. *)
Definition small_kernel : mem :=
  file (elf_header 2 ++ prog_header 4096 0x100000 10 16 ++ prog_header 4608 0x100200 4 4) 4096 (replicate 20 7 ++ replicate 492 0 ++ [1; 2; 3; 4]).

Definition small_segments : list segment := [mksegment 0x100000 4096 10 16; mksegment 0x100200 4608 4 4].
Lemma small_segments_eq : segments small_kernel (Z.to_nat (load16 small_kernel 44)) (load32 small_kernel 28) = small_segments.
Proof. vm_compute. reflexivity. Qed.

Ltac seg_arith := unfold seg_fits, seg_writes, seg_holds, seg_lo, seg_len, SECTSIZE; cbn [sg_pa sg_off sg_filesz sg_memsz]; change (2 ^ 32) with 4294967296; split_and?; intros; dlia.

Lemma bootmain_loads_witness :
  let _ := disk_of small_kernel in let _ : Fuel := 2%nat in
  exists s', bootmain (mkloader (fun _ => 255) [] 0) = Ret (Some 0x10000C) s' /\ Forall (loaded small_kernel (ld_mem s')) small_segments.
Proof.
  intros d w. destruct (@bootmain_loads w d small_kernel (mkloader (fun _ => 255) [] 0)) as (s' & Hrun & Hl).
  - apply disk_of_ok.
  - apply file_ok; apply (bool_decide_unpack _); vm_compute; exact I.
  - vm_compute. reflexivity.
  - apply Z.leb_le. vm_compute. reflexivity.
  - rewrite small_segments_eq. unfold small_segments. rewrite !Forall_cons. split; [seg_arith|]. split; [seg_arith|by apply Forall_nil].
  - rewrite small_segments_eq. cbn [small_segments segs_apart]. rewrite !Forall_cons, !Forall_nil. split; [split; [seg_arith|done]|done].
  - exists s'. split; [exact Hrun|]. by rewrite small_segments_eq in Hl.
Defined.

(** A second segment right behind the zeros of the first, in the same sector. *)
Definition tight_kernel : mem :=
  file (elf_header 2 ++ prog_header 4096 0x100000 10 16 ++ prog_header 4112 0x100010 4 4) 4096 (replicate 20 7).

(** Segments in increasing order are not enough: reading the second segment's
    first sector whole puts bytes of the file over the zeros of the first. *)
Lemma bootmain_spills :
  let _ := disk_of tight_kernel in let _ : Fuel := 2%nat in
  segments tight_kernel 2 52 = [mksegment 0x100000 4096 10 16; mksegment 0x100010 4112 4 4] /\
  match bootmain (mkloader (fun _ => 255) [] 0) with
  | Ret e s' => e = Some 0x10000C /\ ld_mem s' 0x10000A = 7
  | _ => False
  end.
Proof. vm_compute. by split_and!. Qed.
