(* ===== verification/Message.v ===== *)
(** * Message passing ([message.c])

    A pool of [NUMOFMESSAGEBUFFERS] buffers, linked through their first word
    while free, and one queue of buffer numbers per process id.  The theorems
    show that [send_message], [receive_msg] and [isReceiverQueueEmpty] together
    implement a table of mailboxes: messages are delivered unchanged and in
    order, to the addressed process only, until the pool is exhausted, and
    what happens then. *)

From S2P Require Import Prelude State Spinlock Queue CString Console.
Open Scope Z_scope.

(** ** The code *)

(** [&queue_lock[i]] and [&message_buffer_lock[i]]. *)
Definition queue_lock (i : Z) : K lockid :=
  if within 0 NUMOFMESSAGEQUEUES i then mret ("queue_lock", i) else fault "queue_lock".
Definition message_buffer_lock (i : Z) : K lockid :=
  if within 0 NUMOFMESSAGEBUFFERS i then mret ("message_buffer_lock", i)
  else fault "message_buffer_lock".
Definition free_message_buffer_lock : lockid := ("free_message_buffer_lock", 0).

Definition set_msgs (f : msgs -> msgs) : K unit := modify (fun k => k <| k_msgs ::= f |>).

(** [message_buffer[n][j]] and its assignment. *)
Definition mb_get (n j : Z) : K Z :=
  k ← get;
  b ← rd "message_buffer" (mg_message_buffer (k_msgs k)) n;
  rd "MessageBuffer" b j.
Definition mb_set (n j v : Z) : K unit :=
  k ← get;
  b ← rd "message_buffer" (mg_message_buffer (k_msgs k)) n;
  b' ← wr "MessageBuffer" b j v;
  bs ← wr "message_buffer" (mg_message_buffer (k_msgs k)) n b';
  set_msgs (fun g => g <| mg_message_buffer := bs |>).

(** Following the pointer [message_queue[i]]. *)
Definition queue_at (i : Z) (k : kernel) : option queue :=
  match aget (mg_message_queue (k_msgs k)) i with
  | Some (Some n) => mg_temp_queue (k_msgs k) !! n
  | _ => None
  end.
Definition set_queue_at (i : Z) (q : queue) (k : kernel) : kernel :=
  match aget (mg_message_queue (k_msgs k)) i with
  | Some (Some n) => k <| k_msgs ::= fun g => g <| mg_temp_queue ::= <[n := q]> |> |>
  | _ => k
  end.
Definition with_queue {A} (i : Z) (m : M queue A) : K A :=
  zoom (queue_at i) (set_queue_at i) "message_queue" m.

Definition GetMessageBuffer : K Z :=
  acquire free_message_buffer_lock ;;;
  msg_no ← gets (fun k => mg_free_message_buffer (k_msgs k));
  l ← message_buffer_lock msg_no;
  acquire l ;;;
  when (negb (msg_no =? -1))
    (next ← mb_get msg_no 0; set_msgs (fun g => g <| mg_free_message_buffer := next |>)) ;;;
  release l ;;;
  release free_message_buffer_lock ;;;
  mret msg_no.

Definition FreeMessageBuffer (msg_no : Z) : K unit :=
  acquire free_message_buffer_lock ;;;
  l ← message_buffer_lock msg_no;
  acquire l ;;;
  head ← gets (fun k => mg_free_message_buffer (k_msgs k));
  mb_set msg_no 0 head ;;;
  set_msgs (fun g => g <| mg_free_message_buffer := msg_no |>) ;;;
  release l ;;;
  release free_message_buffer_lock.

(** The bodies of the two loops of [messageinit]. *)
Definition init_buffer (i : Z) : K unit :=
  mb_set i 0 (i + 1) ;;;
  l ← message_buffer_lock i;
  initlock l "msg".
Definition init_queue (i : Z) : K unit :=
  q ← zoom (fun k => Some (k_msgs k)) (fun g k => k <| k_msgs := g |>) "msgs" createqueue;
  k ← get;
  qs ← wr "message_queue" (mg_message_queue (k_msgs k)) i (Some q);
  set_msgs (fun g => g <| mg_message_queue := qs |>) ;;;
  l ← queue_lock i;
  initlock l "queue".

Definition messageinit : K unit :=
  each (Z.to_nat (NUMOFMESSAGEBUFFERS - 1)) 0 init_buffer ;;;
  l ← message_buffer_lock (NUMOFMESSAGEBUFFERS - 1);
  initlock l "msg" ;;;
  mb_set (NUMOFMESSAGEBUFFERS - 1) 0 (-1) ;;;
  set_msgs (fun g => g <| mg_free_message_buffer := 0 |>) ;;;
  each (Z.to_nat NUMOFMESSAGEQUEUES) 0 init_queue ;;;
  initlock free_message_buffer_lock "free_message_buff_lock".

(** [for (i = 1; i < MessageSize; i++)] of the two copying loops. *)
Definition copy_in (msg_no msg : Z) : K unit :=
  each (Z.to_nat (MessageSize - 1)) 1 (fun i =>
    k ← get;
    mb_set msg_no i (load32 (k_mem k) (msg + 4 * (i - 1)))).
Definition copy_out (msg_no msg : Z) : K unit :=
  each (Z.to_nat (MessageSize - 1)) 1 (fun i =>
    w ← mb_get msg_no i;
    modify (fun k => k <| k_mem ::= fun m => store32 m (msg + 4 * (i - 1)) w |>)).

Definition send_message (s_pid r_pid msg : Z) : K Z :=
  ql ← queue_lock r_pid;
  acquire ql ;;;
  full ← with_queue r_pid isFull;
  if full =? 1 then release ql ;;; mret (-1)
  else
    msg_no ← GetMessageBuffer;
    with_queue r_pid (enqueue msg_no) ;;;
    k ← get;
    fa ← wr "from_array" (mg_from_array (k_msgs k)) msg_no s_pid;
    set_msgs (fun g => g <| mg_from_array := fa |>) ;;;
    l ← message_buffer_lock msg_no;
    acquire l ;;;
    copy_in msg_no msg ;;;
    release l ;;;
    release ql ;;;
    mret 0.

(** The common body of [receive_msg] and [receive_message_temp]; the latter
    prints before it returns.  [copy] stores the message of a buffer at the
    place the caller gave. *)
Definition receive_gen (copy : Z -> K unit) (say : K unit) (myid : Z) : K Z :=
  ql ← queue_lock myid;
  acquire ql ;;;
  e ← with_queue myid isEmpty;
  if e =? 1 then release ql ;;; mret (-1)
  else
    msg_no ← with_queue myid dequeue;
    if msg_no <? 0 then release ql ;;; mret (-1)
    else
      l ← message_buffer_lock msg_no;
      acquire l ;;;
      copy msg_no ;;;
      release l ;;;
      FreeMessageBuffer msg_no ;;;
      say ;;;
      release ql ;;;
      mret 0.

Definition receive_msg (myid msg : Z) : K Z :=
  receive_gen (fun n => copy_out n msg) (mret tt) myid.
Definition receive_message_temp (myid msg : Z) : K Z :=
  receive_gen (fun n => copy_out n msg) (cprintf (bytes "after receiving size of queue[] is" ++ [10; 32]) []) myid.

Definition isReceiverQueueEmpty (myid : Z) : K Z :=
  ql ← queue_lock myid;
  acquire ql ;;;
  e ← with_queue myid isEmpty;
  release ql ;;;
  mret (if e =? 1 then 1 else 0).

(** ** The pool and the mailboxes *)

(** The free list from buffer [p], linked through word 0 and ended by -1. *)
Fixpoint links (bufs : list (list Z)) (p : Z) (l : list Z) : Prop :=
  match l with
  | [] => p = -1
  | x :: l' => p = x /\ exists b next, aget bufs x = Some b /\ aget b 0 = Some next /\ links bufs next l'
  end.

(** Every buffer is on the free list or in exactly one queue. *)
Record msgs_ok (g : msgs) (fl : list Z) : Prop := {
  mo_bufs : alen (mg_message_buffer g) = NUMOFMESSAGEBUFFERS;
  mo_buf : Forall (fun b => alen b = MessageSize) (mg_message_buffer g);
  mo_from : alen (mg_from_array g) = NUMOFMESSAGEBUFFERS;
  mo_ptrs : mg_message_queue g = Some <$> seq 0 (Z.to_nat NUMOFMESSAGEQUEUES);
  mo_qlen : alen (mg_temp_queue g) = NUMOFMESSAGEQUEUES;
  mo_qs : Forall queue_wf (mg_temp_queue g);
  mo_free : links (mg_message_buffer g) (mg_free_message_buffer g) fl;
  mo_part : fl ++ concat (contents <$> mg_temp_queue g) ≡ₚ seqZ 0 NUMOFMESSAGEBUFFERS }.

Definition msg_of (bufs : list (list Z)) (n : Z) : list Z := tail (default [] (aget bufs n)).

(** The mailbox of each process id: the messages in its queue, oldest first. *)
Definition boxes (g : msgs) : list (list (list Z)) :=
  (fun q => msg_of (mg_message_buffer g) <$> contents q) <$> mg_temp_queue g.

(** No lock of [message.c] is held. *)
Record msg_locks (mc : mach) : Prop := {
  ml_ok : mach_ok mc;
  ml_free : lock_free free_message_buffer_lock mc;
  ml_queue : forall i, 0 <= i < NUMOFMESSAGEQUEUES -> lock_free ("queue_lock", i) mc;
  ml_buf : forall i, 0 <= i < NUMOFMESSAGEBUFFERS -> lock_free ("message_buffer_lock", i) mc }.

(** The message in memory at [a], and memory with a message stored there. *)
Definition words (m : mem) (a : Z) : list Z :=
  (fun j => load32 m (a + 4 * j)) <$> seqZ 0 (MessageSize - 1).
Fixpoint write_words (m : mem) (a : Z) (ws : list Z) : mem :=
  match ws with
  | [] => m
  | w :: ws' => write_words (store32 m a w) (a + 4) ws'
  end.

Section facts.
Implicit Types (k : kernel) (g : msgs) (n : Z).

Lemma write_words_snoc m a ws w :
  write_words m a (ws ++ [w]) = store32 (write_words m a ws) (a + 4 * alen ws) w.
Proof.
  revert m a. induction ws as [|x ws IH]; intros m a; simpl.
  - unfold alen. simpl. by rewrite Z.add_0_r.
  - rewrite IH. f_equal. unfold alen. simpl. lia.
Qed.

Lemma queue_lock_ok i k :
  0 <= i < NUMOFMESSAGEQUEUES -> queue_lock i k = Ret ("queue_lock", i) k.
Proof. intros H. unfold queue_lock. by rewrite within_true. Qed.

Lemma message_buffer_lock_ok i k :
  0 <= i < NUMOFMESSAGEBUFFERS -> message_buffer_lock i k = Ret ("message_buffer_lock", i) k.
Proof. intros H. unfold message_buffer_lock. by rewrite within_true. Qed.

Lemma mb_get_ok k n j b w :
  aget (mg_message_buffer (k_msgs k)) n = Some b -> aget b j = Some w -> mb_get n j k = Ret w k.
Proof.
  intros Hb Hw. unfold mb_get. mstep. run (rd_Some _ _ _ _ _ Hb). by apply rd_Some.
Qed.

Lemma mb_set_ok k n j v b :
  aget (mg_message_buffer (k_msgs k)) n = Some b -> 0 <= j < alen b ->
  mb_set n j v k = Ret tt
    (k <| k_msgs ::= fun g => g <| mg_message_buffer ::= <[Z.to_nat n := <[Z.to_nat j := v]> b]> |> |>).
Proof.
  intros Hb Hj. unfold mb_set. mstep. run (rd_Some _ _ _ _ _ Hb). run wr_Some; [|done].
  run wr_Some; [done|by eapply aget_lt].
Qed.

Lemma links_frame bufs bufs' p l :
  (forall n, n ∈ l -> aget bufs' n = aget bufs n) -> links bufs p l -> links bufs' p l.
Proof.
  revert p. induction l as [|x l IH]; intros p H; simpl; [done|].
  intros (-> & b & next & Hb & Hn & Hl). split; [done|]. exists b, next.
  rewrite H by set_solver. split_and!; [done..|]. apply IH; [|done]. set_solver.
Qed.

(** Taking the buffer at the head of the free list. *)
Lemma GetMessageBuffer_ok k n b next :
  mach_ok (k_mach k) -> lock_free free_message_buffer_lock (k_mach k) ->
  lock_free ("message_buffer_lock", n) (k_mach k) -> 0 <= n < NUMOFMESSAGEBUFFERS ->
  mg_free_message_buffer (k_msgs k) = n ->
  aget (mg_message_buffer (k_msgs k)) n = Some b -> aget b 0 = Some next ->
  GetMessageBuffer k = Ret n
    (kst (k <| k_msgs ::= fun g => g <| mg_free_message_buffer := next |> |>) (settle (k_mach k))).
Proof.
  intros Hok Hfl Hbl Hn Hh Hb Hx. unfold GetMessageBuffer.
  run acquire_ok; [|done..]. mstep. ksimpl. rewrite Hh.
  run message_buffer_lock_ok; [|done]. run acquire_ok; [|mach..].
  destruct (Z.eqb_spec n (-1)); [lia|]. simpl when.
  erewrite bind_Ret; [|by run mb_get_ok; [|done..]]. ksimpl.
  erewrite bind_Ret by (apply release_acq; [| |reflexivity]; mach).
  erewrite bind_Ret.
  2: { apply (release_acq _ _ (k_mach k)); ksimpl; [mach..|]. by apply settle_acq. }
  done.
Qed.

(** Putting a buffer back. *)
Lemma FreeMessageBuffer_ok k n b :
  mach_ok (k_mach k) -> lock_free free_message_buffer_lock (k_mach k) ->
  lock_free ("message_buffer_lock", n) (k_mach k) -> 0 <= n < NUMOFMESSAGEBUFFERS ->
  aget (mg_message_buffer (k_msgs k)) n = Some b -> 0 < alen b ->
  FreeMessageBuffer n k = Ret tt
    (kst (k <| k_msgs ::= fun g => g
            <| mg_message_buffer ::= <[Z.to_nat n := <[0%nat := mg_free_message_buffer g]> b]> |>
            <| mg_free_message_buffer := n |> |>) (settle (k_mach k))).
Proof.
  intros Hok Hfl Hbl Hn Hb Hlen. unfold FreeMessageBuffer.
  run acquire_ok; [|done..]. run message_buffer_lock_ok; [|done]. run acquire_ok; [|mach..].
  mstep. run (mb_set_ok _ _ _ _ b); [|done|lia]. mstep. ksimpl.
  erewrite bind_Ret by (apply release_acq; [| |reflexivity]; mach).
  rewrite (release_acq _ _ (k_mach k)); ksimpl; [done|mach..|]. by apply settle_acq.
Qed.

Lemma words_get m a b :
  alen b = MessageSize ->
  (forall j, 1 <= j < MessageSize -> aget b j = Some (load32 m (a + 4 * (j - 1)))) ->
  tail b = words m a.
Proof.
  intros Hl H. apply list_eq. intros i. rewrite lookup_tail. unfold words.
  rewrite list_lookup_fmap. destruct (decide (Z.of_nat i < MessageSize - 1)) as [Hi|Hi].
  - rewrite lookup_seqZ_lt by lia. simpl. rewrite <- aget_nat, H by (unfold MessageSize in *; lia).
    do 3 f_equal. lia.
  - rewrite lookup_seqZ_ge by lia. simpl. apply lookup_ge_None_2. unfold alen in Hl. lia.
Qed.

Lemma copy_in_ok k n a b :
  aget (mg_message_buffer (k_msgs k)) n = Some b -> alen b = MessageSize ->
  exists b', copy_in n a k = Ret tt
      (k <| k_msgs ::= fun g => g <| mg_message_buffer ::= <[Z.to_nat n := b']> |> |>) /\
    alen b' = MessageSize /\ aget b' 0 = aget b 0 /\ tail b' = words (k_mem k) a.
Proof.
  intros Hb Hl. pose proof (aget_lt _ _ _ Hb) as Hn. unfold copy_in.
  set (upd_n := fun b' =>
    k <| k_msgs ::= fun g => g <| mg_message_buffer ::= <[Z.to_nat n := b']> |> |>).
  destruct (each_ind (fun i k' => exists b', k' = upd_n b' /\ alen b' = MessageSize /\
      aget b' 0 = aget b 0 /\
      (forall j, 1 <= j < i -> aget b' j = Some (load32 (k_mem k) (a + 4 * (j - 1)))))
    (Z.to_nat (MessageSize - 1)) 1 (fun i => k ← get; mb_set n i (load32 (k_mem k) (a + 4 * (i - 1)))) k)
    as (k' & Hrun & b' & -> & Hl' & H0 & Hj).
  - exists b. split_and!; [|done..|lia]. subst upd_n. cbv beta. unfold aget in Hb.
    destruct (0 <=? n); [|done]. destruct k as [], k_msgs; req. simpl in *. req. simpl.
    by rewrite list_insert_id.
  - intros i ? Hi (b' & -> & Hl' & H0 & Hj). mstep.
    erewrite mb_set_ok; [|subst upd_n; simpl; by apply aget_insert_eq|unfold MessageSize in *; lia].
    eexists. split; [done|]. exists (<[Z.to_nat i := load32 (k_mem k) (a + 4 * (i - 1))]> b').
    split_and!.
    + subst upd_n. cbv beta. destruct k as [], k_msgs. unfold upd. simpl. do 2 f_equal.
      by rewrite list_insert_insert_eq.
    + by rewrite alen_insert.
    + by rewrite aget_insert_ne by lia.
    + intros j ?. rewrite aget_insert by (unfold MessageSize in *; lia). case_decide; [by subst|].
      apply Hj. lia.
  - exists b'. split_and!; [done..|]. apply words_get; [done|]. intros j Hj'. apply Hj.
    unfold MessageSize in *. lia.
Qed.

Lemma copy_out_ok k n a b :
  aget (mg_message_buffer (k_msgs k)) n = Some b -> alen b = MessageSize ->
  copy_out n a k = Ret tt (k <| k_mem := write_words (k_mem k) a (tail b) |>).
Proof.
  intros Hb Hl. unfold copy_out.
  destruct (each_ind (fun i k' => k' =
      k <| k_mem := write_words (k_mem k) a (take (Z.to_nat (i - 1)) (tail b)) |>)
    (Z.to_nat (MessageSize - 1)) 1 (fun i => w ← mb_get n i;
      modify (fun k => k <| k_mem ::= fun m => store32 m (a + 4 * (i - 1)) w |>)) k)
    as (k' & Hrun & ->).
  - by destruct k.
  - intros i ? Hi ->. destruct (aget_is_Some b i) as [w Hw]; [unfold MessageSize in *; lia|].
    run mb_get_ok; [|done..]. eexists. split; [done|]. unfold modify.
    replace (Z.to_nat (i + 1 - 1)) with (S (Z.to_nat (i - 1))) by lia.
    assert (Ht : tail b !! Z.to_nat (i - 1) = Some w).
    { rewrite lookup_tail, <- aget_nat, <- Hw. f_equal. lia. }
    rewrite (take_S_r _ _ _ Ht), write_words_snoc. destruct k; req. simpl. f_equal.
    apply lookup_lt_Some in Ht. unfold alen. rewrite length_take. lia.
  - rewrite Hrun. do 2 f_equal. rewrite take_ge; [done|].
    destruct b; [done|]. unfold alen in Hl. simpl in *. lia.
Qed.

Definition queue_ptrs g : Prop :=
  mg_message_queue g = Some <$> seq 0 (Z.to_nat NUMOFMESSAGEQUEUES).

Lemma with_queue_ok {A} k i q (m : M queue A) r q' :
  queue_ptrs (k_msgs k) -> 0 <= i < NUMOFMESSAGEQUEUES ->
  mg_temp_queue (k_msgs k) !! Z.to_nat i = Some q -> m q = Ret r q' ->
  with_queue i m k =
    Ret r (k <| k_msgs ::= fun g => g <| mg_temp_queue ::= <[Z.to_nat i := q']> |> |>).
Proof.
  intros Hp Hi Hq Hm. unfold with_queue.
  assert (Hg : aget (mg_message_queue (k_msgs k)) i = Some (Some (Z.to_nat i))).
  { rewrite Hp. unfold aget. destruct (Z.leb_spec 0 i); [|lia].
    rewrite list_lookup_fmap, lookup_seq_lt by lia. done. }
  erewrite zoom_Ret; [|unfold queue_at; by rewrite Hg|done]. unfold set_queue_at. by rewrite Hg.
Qed.

(** A queue operation that only looks. *)
Lemma with_queue_ro {A} k i q (m : M queue A) r :
  queue_ptrs (k_msgs k) -> 0 <= i < NUMOFMESSAGEQUEUES ->
  mg_temp_queue (k_msgs k) !! Z.to_nat i = Some q -> m q = Ret r q ->
  with_queue i m k = Ret r k.
Proof.
  intros Hp Hi Hq Hm. rewrite (with_queue_ok _ _ q _ r q) by done. f_equal.
  destruct k as [], k_msgs; req. simpl in *. req. simpl. by rewrite list_insert_id.
Qed.

Lemma msgs_ok_range g fl n :
  msgs_ok g fl -> n ∈ fl \/ n ∈ concat (contents <$> mg_temp_queue g) ->
  exists b, 0 <= n < NUMOFMESSAGEBUFFERS /\ aget (mg_message_buffer g) n = Some b /\
    alen b = MessageSize.
Proof.
  intros [] Hn. assert (Hin : n ∈ seqZ 0 NUMOFMESSAGEBUFFERS).
  { rewrite <- mo_part0. apply elem_of_app. done. }
  apply elem_of_seqZ in Hin. destruct (aget_is_Some (mg_message_buffer g) n) as [b Hb]; [lia|].
  exists b. split_and!; [lia..|done|]. rewrite Forall_lookup in mo_buf0.
  unfold aget in Hb. destruct (0 <=? n); [|done]. eauto.
Qed.

Lemma msgs_ok_queue g fl i :
  msgs_ok g fl -> 0 <= i < NUMOFMESSAGEQUEUES ->
  exists q, mg_temp_queue g !! Z.to_nat i = Some q /\ queue_wf q.
Proof.
  intros [] Hi. destruct (lookup_lt_is_Some_2 (mg_temp_queue g) (Z.to_nat i)) as [q Hq].
  { unfold alen in mo_qlen0. lia. }
  exists q. split; [done|]. rewrite Forall_lookup in mo_qs0. eauto.
Qed.

Lemma concat_queue (qs : list queue) i q n :
  qs !! i = Some q -> n ∈ contents q -> n ∈ concat (contents <$> qs).
Proof.
  intros Hq Hn. rewrite list_elem_of_In, in_concat. exists (contents q).
  rewrite <- !list_elem_of_In. split; [|done]. apply list_elem_of_fmap. exists q.
  split; [done|]. by eapply list_elem_of_lookup_2.
Qed.

Lemma boxes_insert bufs bufs' (qs : list queue) i q' :
  (forall n, n ∈ concat (contents <$> qs) -> msg_of bufs' n = msg_of bufs n) ->
  (fun q => msg_of bufs' <$> contents q) <$> <[i := q']> qs =
  <[i := msg_of bufs' <$> contents q']> ((fun q => msg_of bufs <$> contents q) <$> qs).
Proof.
  intros H. rewrite list_fmap_insert. f_equal. apply list_fmap_ext. intros j q Hq.
  apply list_fmap_ext. intros j' n Hn. apply H. eapply concat_queue; [done|].
  by eapply list_elem_of_lookup_2.
Qed.

(** The tables after a send: buffer [n] has left the free list for queue [r]. *)
Lemma send_tables g n fl r q q' b b' next fa :
  msgs_ok g (n :: fl) -> mg_temp_queue g !! r = Some q ->
  queue_wf q' -> contents q' = contents q ++ [n] ->
  aget (mg_message_buffer g) n = Some b -> aget b 0 = Some next ->
  links (mg_message_buffer g) next fl ->
  alen b' = MessageSize -> alen fa = NUMOFMESSAGEBUFFERS ->
  let g' := g <| mg_free_message_buffer := next |> <| mg_temp_queue ::= <[r := q']> |>
              <| mg_from_array := fa |> <| mg_message_buffer ::= <[Z.to_nat n := b']> |> in
  msgs_ok g' fl /\
  boxes g' = <[r := (msg_of (mg_message_buffer g) <$> contents q) ++ [tail b']]> (boxes g).
Proof.
  intros Hok Hq Hwf' Hc Hb Hx Hl Hlb Hfa g'.
  pose proof (aget_lt _ _ _ Hb) as Hn.
  assert (Hnd : NoDup (n :: fl ++ concat (contents <$> mg_temp_queue g))).
  { change (n :: fl ++ ?x) with ((n :: fl) ++ x). rewrite (mo_part _ _ Hok). apply NoDup_seqZ. }
  apply NoDup_cons in Hnd as [Hnin Hnd]. rewrite elem_of_app in Hnin.
  assert (Hmsg : forall n', n' <> n ->
    msg_of (<[Z.to_nat n := b']> (mg_message_buffer g)) n' = msg_of (mg_message_buffer g) n').
  { intros n' Hne. unfold msg_of. by rewrite aget_insert_ne by lia. }
  split.
  - destruct Hok. subst g'. split; simpl; try done.
    + by rewrite alen_insert.
    + by apply Forall_insert.
    + by rewrite alen_insert.
    + by apply Forall_insert.
    + eapply links_frame; [|done]. intros n' Hn'. apply aget_insert_ne; [lia|set_solver].
    + rewrite list_fmap_insert, Hc.
      pose proof (concat_insert_perm (contents <$> mg_temp_queue g) r (contents q)
        (contents q ++ [n])) as Hp.
      rewrite list_lookup_fmap, Hq in Hp. specialize (Hp eq_refl).
      apply (Permutation_app_inv_r (contents q)). rewrite <- (assoc_L (++)), Hp.
      rewrite <- mo_part0. solve_Permutation.
  - subst g'. unfold boxes. simpl. rewrite (boxes_insert (mg_message_buffer g)).
    + f_equal. rewrite Hc, fmap_app. f_equal.
      * apply list_fmap_ext. intros j n' Hn'. apply Hmsg. intros ->.
        apply Hnin. right. eapply concat_queue; [done|]. by eapply list_elem_of_lookup_2.
      * simpl. unfold msg_of. by rewrite aget_insert_eq.
    + intros n' Hn'. apply Hmsg. intros ->. auto.
Qed.

Lemma recv_tables g n fl r q q' b :
  msgs_ok g fl -> mg_temp_queue g !! r = Some q ->
  queue_wf q' -> contents q = n :: contents q' ->
  aget (mg_message_buffer g) n = Some b -> alen b = MessageSize ->
  let g' := g <| mg_temp_queue ::= <[r := q']> |>
              <| mg_message_buffer ::= <[Z.to_nat n := <[0%nat := mg_free_message_buffer g]> b]> |>
              <| mg_free_message_buffer := n |> in
  msgs_ok g' (n :: fl) /\
  boxes g' = <[r := msg_of (mg_message_buffer g) <$> contents q']> (boxes g).
Proof.
  intros Hok Hq Hwf' Hc Hb Hlb g'. pose proof (aget_lt _ _ _ Hb) as Hn.
  assert (Hnd : NoDup (fl ++ concat (contents <$> mg_temp_queue g))).
  { rewrite (mo_part _ _ Hok). apply NoDup_seqZ. }
  assert (Hnfl : n ∉ fl).
  { apply NoDup_app in Hnd as (_ & Hd & _). intros Hin. apply (Hd n Hin).
    eapply concat_queue; [done|]. rewrite Hc. set_solver. }
  set (bufs' := <[Z.to_nat n := <[0%nat := mg_free_message_buffer g]> b]> (mg_message_buffer g)).
  assert (Hmsg : forall n', msg_of bufs' n' = msg_of (mg_message_buffer g) n').
  { intros n'. subst bufs'. unfold msg_of. rewrite aget_insert by done.
    case_decide; [subst n'|done]. rewrite Hb. simpl. by destruct b. }
  split.
  - destruct Hok. subst g' bufs'. split; simpl; try done.
    + by rewrite alen_insert.
    + apply Forall_insert; [done|]. by rewrite alen_insert.
    + by rewrite alen_insert.
    + by apply Forall_insert.
    + split; [done|]. eexists _, _. split; [by apply aget_insert_eq|]. split.
      { apply (aget_insert_eq _ 0). rewrite Hlb. done. }
      eapply links_frame; [|done]. intros n' Hn'. apply aget_insert_ne; [lia|set_solver].
    + rewrite list_fmap_insert.
      pose proof (concat_insert_perm (contents <$> mg_temp_queue g) r (contents q)
        (contents q')) as Hp.
      rewrite list_lookup_fmap, Hq in Hp. specialize (Hp eq_refl).
      rewrite <- mo_part0. apply (Permutation_app_inv_r (contents q')).
      rewrite <- (assoc_L (++) fl), <- Hp, Hc. solve_Permutation.
  - subst g'. unfold boxes. simpl. fold bufs'. rewrite (boxes_insert (mg_message_buffer g)) by auto.
    f_equal. by apply list_fmap_ext.
Qed.

Lemma send_ok k n fl s r a q :
  msg_locks (k_mach k) -> msgs_ok (k_msgs k) (n :: fl) -> 0 <= r < NUMOFMESSAGEQUEUES ->
  mg_temp_queue (k_msgs k) !! Z.to_nat r = Some q -> queue_wf q ->
  q_size q < NUMOFMESSAGEBUFFERS ->
  exists g', send_message s r a k = Ret 0 (kst (k <| k_msgs := g' |>) (settle (k_mach k))) /\
    msgs_ok g' fl /\
    boxes g' = <[Z.to_nat r := (msg_of (mg_message_buffer (k_msgs k)) <$> contents q) ++
                               [words (k_mem k) a]]> (boxes (k_msgs k)).
Proof.
  intros [Hok Hfl Hql Hbl] Hg Hr Hq Hwf Hsz.
  destruct (msgs_ok_range _ _ n Hg) as (b & Hn & Hb & Hlb); [set_solver|].
  pose proof (mo_free _ _ Hg) as (Hhead & b1 & next & Hb1 & Hx & Hlinks).
  rewrite Hb in Hb1. injection Hb1 as <-.
  destruct (enqueue_ok q n Hwf Hsz) as (q' & Henq & Hwf' & Hc & _).
  pose proof (mo_ptrs _ _ Hg) as Hp. pose proof (mo_from _ _ Hg) as Hf.
  unfold send_message. run queue_lock_ok; [|done]. run acquire_ok; [|mach..].
  run (with_queue_ro _ _ q); [|done..].
  destruct (Z.eqb_spec (q_size q) NUMOFMESSAGEBUFFERS); [lia|]. simpl (0 =? 1). cbv iota.
  run GetMessageBuffer_ok; [|mach..]. knorm. rewrite settle_acq by done.
  run (with_queue_ok _ _ q); [|done..]. knorm. mstep. run wr_Some; [|ksimpl; by rewrite Hf].
  mstep. knorm. run message_buffer_lock_ok; [|done]. run acquire_ok; [|mach..]. knorm.
  match goal with |- context [(copy_in n a ≫= _) ?k1] =>
    destruct (copy_in_ok k1 n a b) as (b' & Hcp & Hlb' & _ & Hw); [done..|] end.
  run Hcp. knorm. erewrite bind_Ret by (apply release_acq; [| |reflexivity]; mach).
  knorm. rewrite settle_acq by done.
  erewrite bind_Ret by (apply (release_acq _ _ (k_mach k)); mach). knorm. 
  assert (words (k_mem k) a = tail b') as -> by by symmetry.
  eexists. split; [reflexivity|].
  eapply send_tables; try done. by rewrite alen_insert.
Qed.

Lemma send_full k fl s r a q :
  msg_locks (k_mach k) -> msgs_ok (k_msgs k) fl -> 0 <= r < NUMOFMESSAGEQUEUES ->
  mg_temp_queue (k_msgs k) !! Z.to_nat r = Some q -> q_size q = NUMOFMESSAGEBUFFERS ->
  send_message s r a k = Ret (-1) (kst k (settle (k_mach k))).
Proof.
  intros [Hok Hfl Hql Hbl] Hg Hr Hq Hsz. pose proof (mo_ptrs _ _ Hg) as Hp.
  unfold send_message. run queue_lock_ok; [|done]. run acquire_ok; [|mach..].
  run (with_queue_ro _ _ q); [|done..]. rewrite Hsz. simpl (_ =? 1). cbv iota.
  erewrite bind_Ret by (apply (release_acq _ _ (k_mach k)); mach). by knorm.
Qed.

(** With no free buffer the code locks [message_buffer_lock[-1]]. *)
Lemma send_exhausted k s r a q :
  msg_locks (k_mach k) -> msgs_ok (k_msgs k) [] -> 0 <= r < NUMOFMESSAGEQUEUES ->
  mg_temp_queue (k_msgs k) !! Z.to_nat r = Some q -> q_size q < NUMOFMESSAGEBUFFERS ->
  send_message s r a k = Fault "message_buffer_lock".
Proof.
  intros [Hok Hfl Hql Hbl] Hg Hr Hq Hsz. pose proof (mo_ptrs _ _ Hg) as Hp.
  pose proof (mo_free _ _ Hg) as Hhead. simpl in Hhead.
  unfold send_message. run queue_lock_ok; [|done]. run acquire_ok; [|mach..].
  run (with_queue_ro _ _ q); [|done..].
  destruct (Z.eqb_spec (q_size q) NUMOFMESSAGEBUFFERS); [lia|]. simpl (0 =? 1). cbv iota.
  apply bind_Fault. unfold GetMessageBuffer. run acquire_ok; [|mach..]. mstep. knorm.
  rewrite Hhead. by apply bind_Fault.
Qed.

Lemma recv_ok k fl r a q :
  msg_locks (k_mach k) -> msgs_ok (k_msgs k) fl -> 0 <= r < NUMOFMESSAGEQUEUES ->
  mg_temp_queue (k_msgs k) !! Z.to_nat r = Some q -> queue_wf q -> 0 < q_size q ->
  exists n q' g', contents q = n :: contents q' /\
    receive_msg r a k = Ret 0 (kst (k <| k_msgs := g' |>
      <| k_mem ::= fun m => write_words m a (msg_of (mg_message_buffer (k_msgs k)) n) |>)
      (settle (k_mach k))) /\
    msgs_ok g' (n :: fl) /\
    boxes g' = <[Z.to_nat r := msg_of (mg_message_buffer (k_msgs k)) <$> contents q']> (boxes (k_msgs k)).
Proof.
  intros [Hok Hfl Hql Hbl] Hg Hr Hq Hwf Hsz.
  destruct (dequeue_ok q Hwf Hsz) as (n & q' & Hdeq & Hwf' & Hc & _).
  destruct (msgs_ok_range _ _ n Hg) as (b & Hn & Hb & Hlb).
  { right. eapply concat_queue; [done|]. rewrite Hc. set_solver. }
  pose proof (mo_ptrs _ _ Hg) as Hp. exists n, q'.
  unfold receive_msg, receive_gen. run queue_lock_ok; [|done]. run acquire_ok; [|mach..].
  run (with_queue_ro _ _ q); [|done..].
  destruct (Z.eqb_spec (q_size q) 0); [lia|]. simpl (0 =? 1). cbv iota.
  run (with_queue_ok _ _ q); [|done..]. knorm. destruct (Z.ltb_spec n 0); [lia|].
  run message_buffer_lock_ok; [|done]. run acquire_ok; [|mach..]. knorm.
  run (copy_out_ok _ n a b); [|done..]. knorm.
  erewrite bind_Ret by (apply release_acq; [| |reflexivity]; mach).
  knorm. rewrite settle_acq by done.
  run (FreeMessageBuffer_ok _ n b); [|mach..|done|by rewrite Hlb]. knorm. rewrite settle_acq by done.
  mstep. erewrite bind_Ret by (apply (release_acq _ _ (k_mach k)); mach). knorm.
  assert (msg_of (mg_message_buffer (k_msgs k)) n = tail b) as ->.
  { unfold msg_of. by rewrite Hb. }
  eexists. split; [done|]. split; [reflexivity|]. by apply (recv_tables (k_msgs k) n fl (Z.to_nat r) q q' b).
Qed.

Lemma recv_empty k fl r a q :
  msg_locks (k_mach k) -> msgs_ok (k_msgs k) fl -> 0 <= r < NUMOFMESSAGEQUEUES ->
  mg_temp_queue (k_msgs k) !! Z.to_nat r = Some q -> q_size q = 0 ->
  receive_msg r a k = Ret (-1) (kst k (settle (k_mach k))).
Proof.
  intros [Hok Hfl Hql Hbl] Hg Hr Hq Hsz. pose proof (mo_ptrs _ _ Hg) as Hp.
  unfold receive_msg, receive_gen. run queue_lock_ok; [|done]. run acquire_ok; [|mach..].
  run (with_queue_ro _ _ q); [|done..]. rewrite Hsz. simpl (_ =? 1). cbv iota.
  erewrite bind_Ret by (apply (release_acq _ _ (k_mach k)); mach). by knorm.
Qed.

Lemma isReceiverQueueEmpty_ok k fl r q :
  msg_locks (k_mach k) -> msgs_ok (k_msgs k) fl -> 0 <= r < NUMOFMESSAGEQUEUES ->
  mg_temp_queue (k_msgs k) !! Z.to_nat r = Some q ->
  isReceiverQueueEmpty r k =
    Ret (if q_size q =? 0 then 1 else 0) (kst k (settle (k_mach k))).
Proof.
  intros [Hok Hfl Hql Hbl] Hg Hr Hq. pose proof (mo_ptrs _ _ Hg) as Hp.
  unfold isReceiverQueueEmpty. run queue_lock_ok; [|done]. run acquire_ok; [|mach..].
  run (with_queue_ro _ _ q); [|done..].
  erewrite bind_Ret by (apply (release_acq _ _ (k_mach k)); mach). knorm.
  by destruct (_ =? 0).
Qed.

Lemma msg_locks_settle mc : msg_locks mc -> msg_locks (settle mc).
Proof. intros []. split; auto with mach. Qed.
End facts.

(** ** The specification: a table of mailboxes over a bounded pool *)

Inductive mop := Send (s_pid r_pid msg : Z) | Recv (myid msg : Z) | Poll (myid : Z).

(** The mailboxes and the memory messages are read from and written to. *)
Definition mailboxes : Type := list (list (list Z)) * mem.

(** An operation gives an answer and a new state, or names the array it
    indexes out of bounds.  A mailbox takes any number of messages until the
    pool of all mailboxes together is used up. *)
Definition mbox_step (o : mop) (st : mailboxes) : (Z * mailboxes) + string :=
  let '(B, m) := st in
  match o with
  | Send _ r a =>
      match aget B r with
      | None => inr "queue_lock"
      | Some bx =>
          if alen bx =? NUMOFMESSAGEBUFFERS then inl (-1, (B, m))
          else if alen (concat B) =? NUMOFMESSAGEBUFFERS then inr "message_buffer_lock"
          else inl (0, (<[Z.to_nat r := bx ++ [words m a]]> B, m))
      end
  | Recv i a =>
      match aget B i with
      | None => inr "queue_lock"
      | Some [] => inl (-1, (B, m))
      | Some (w :: bx) => inl (0, (<[Z.to_nat i := bx]> B, write_words m a w))
      end
  | Poll i =>
      match aget B i with
      | None => inr "queue_lock"
      | Some bx => inl (if alen bx =? 0 then 1 else 0, (B, m))
      end
  end.

Fixpoint mbox_run (os : list mop) (st : mailboxes) : (list Z * mailboxes) + string :=
  match os with
  | [] => inl ([], st)
  | o :: os' =>
      match mbox_step o st with
      | inl (r, st1) =>
          match mbox_run os' st1 with
          | inl (rs, st2) => inl (r :: rs, st2)
          | inr w => inr w
          end
      | inr w => inr w
      end
  end.

Definition msg_step (o : mop) : K Z :=
  match o with
  | Send s r a => send_message s r a
  | Recv i a => receive_msg i a
  | Poll i => isReceiverQueueEmpty i
  end.

Fixpoint msg_run (os : list mop) : K (list Z) :=
  match os with
  | [] => mret []
  | o :: os' => r ← msg_step o; rs ← msg_run os'; mret (r :: rs)
  end.

Section refinement.
Implicit Types (k : kernel) (g : msgs).

(** The kernel holds the given mailboxes. *)
Definition msg_inv k (st : mailboxes) : Prop :=
  msg_locks (k_mach k) /\ (exists fl, msgs_ok (k_msgs k) fl) /\ st = (boxes (k_msgs k), k_mem k).

Definition msg_post k k' (st : mailboxes) : Prop :=
  exists g' mc', k' = kst (k <| k_msgs := g' |> <| k_mem := st.2 |>) mc' /\ msg_inv k' st.

Lemma boxes_get g fl i :
  msgs_ok g fl ->
  match aget (boxes g) i with
  | None => ~ 0 <= i < NUMOFMESSAGEQUEUES
  | Some bx => 0 <= i < NUMOFMESSAGEQUEUES /\ exists q, mg_temp_queue g !! Z.to_nat i = Some q /\
      queue_wf q /\ bx = msg_of (mg_message_buffer g) <$> contents q /\ alen bx = q_size q
  end.
Proof.
  intros Hg. assert (Hlen : alen (boxes g) = NUMOFMESSAGEQUEUES).
  { unfold boxes, alen. rewrite length_fmap. apply (mo_qlen _ _ Hg). }
  destruct (decide (0 <= i < NUMOFMESSAGEQUEUES)) as [Hi|Hi].
  - destruct (msgs_ok_queue g fl i Hg Hi) as (q & Hq & Hwf). unfold aget.
    destruct (Z.leb_spec 0 i); [|lia]. unfold boxes. rewrite list_lookup_fmap, Hq. simpl.
    split; [done|]. exists q. split_and!; [done..|]. unfold alen. rewrite length_fmap.
    by apply contents_length.
  - by rewrite aget_None by (by rewrite Hlen).
Qed.

Lemma boxes_total g fl : msgs_ok g fl -> alen (concat (boxes g)) + alen fl = NUMOFMESSAGEBUFFERS.
Proof.
  intros Hg. pose proof (Permutation_length (mo_part _ _ Hg)) as Hp.
  rewrite length_app, length_seqZ in Hp.
  assert (length (concat (boxes g)) = length (concat (contents <$> mg_temp_queue g))).
  { unfold boxes. generalize (mg_message_buffer g) as bufs. intros bufs. clear Hp.
    induction (mg_temp_queue g) as [|q qs IH]; [done|].
    rewrite !fmap_cons. cbn [concat]. rewrite !length_app, length_fmap. lia. }
  unfold alen. unfold NUMOFMESSAGEBUFFERS in *. lia.
Qed.

Lemma queue_lock_bad i k : ~ 0 <= i < NUMOFMESSAGEQUEUES -> queue_lock i k = Fault "queue_lock".
Proof. intros H. unfold queue_lock. by rewrite within_false by lia. Qed.

Lemma msg_step_sim k st o :
  msg_inv k st ->
  match mbox_step o st with
  | inl (r, st') => exists k', msg_step o k = Ret r k' /\ msg_post k k' st'
  | inr w => msg_step o k = Fault w
  end.
Proof.
  intros (Hl & [fl Hg] & ->).
  assert (Hsame : msg_post k (kst k (settle (k_mach k))) (boxes (k_msgs k), k_mem k)).
  { exists (k_msgs k), (settle (k_mach k)). split; [by destruct k|].
    split_and!; [by apply msg_locks_settle|by exists fl|done]. }
  destruct o as [s r a|i a|i]; simpl.
  - pose proof (boxes_get _ _ r Hg) as Hget. destruct (aget (boxes (k_msgs k)) r) as [bx|].
    2: { apply bind_Fault, queue_lock_bad, Hget. }
    destruct Hget as (Hr & q & Hq & Hwf & -> & ->). pose proof (boxes_total _ _ Hg) as Htot.
    destruct (Z.eqb_spec (q_size q) NUMOFMESSAGEBUFFERS) as [E|E].
    { eexists. split; [by eapply send_full|done]. }
    assert (q_size q < NUMOFMESSAGEBUFFERS) by (destruct Hwf; lia).
    destruct (Z.eqb_spec (alen (concat (boxes (k_msgs k)))) NUMOFMESSAGEBUFFERS) as [Et|Et].
    { destruct fl as [|n fl]; [|rewrite alen_cons in Htot; pose proof (alen_nonneg fl); lia]. by eapply send_exhausted. }
    destruct fl as [|n fl]; [change (alen []) with 0 in Htot; lia|].
    destruct (send_ok k n fl s r a q) as (g' & Hrun & Hg' & Hb'); [done..|].
    eexists. split; [exact Hrun|]. exists g', (settle (k_mach k)). split; [by destruct k|].
    split_and!; [by apply msg_locks_settle|by exists fl|]. simpl. by rewrite Hb'.
  - pose proof (boxes_get _ _ i Hg) as Hget. destruct (aget (boxes (k_msgs k)) i) as [bx|].
    2: { apply bind_Fault, queue_lock_bad, Hget. }
    destruct Hget as (Hr & q & Hq & Hwf & -> & Hlen).
    destruct (decide (q_size q = 0)) as [E|E].
    { destruct (contents q); [|unfold alen in Hlen; simpl in Hlen; lia]. simpl.
      eexists. split; [by eapply recv_empty|done]. }
    destruct (recv_ok k fl i a q) as (n & q' & g' & Hc & Hrun & Hg' & Hb');
      [try done..|destruct Hwf; lia|].
    rewrite Hc. simpl. eexists. split; [exact Hrun|]. exists g', (settle (k_mach k)).
    split; [by destruct k|]. split_and!; [by apply msg_locks_settle|by exists (n :: fl)|].
    simpl. by rewrite Hb'.
  - pose proof (boxes_get _ _ i Hg) as Hget. destruct (aget (boxes (k_msgs k)) i) as [bx|].
    2: { apply bind_Fault, queue_lock_bad, Hget. }
    destruct Hget as (Hr & q & Hq & Hwf & -> & ->). eexists.
    split; [by eapply isReceiverQueueEmpty_ok|done].
Qed.
End refinement.

(** C28. Messages are delivered: whatever sequence of sends, receives and polls
    the processes issue, the kernel gives the answers of a table of mailboxes,
    each first-in first-out and private to its process, and ends holding those
    mailboxes, with memory changed only by the messages received.  It goes
    wrong exactly when the specification says so: on a process id outside the
    table, or on a send when all buffers are in use. *)
Theorem messages_refine_mailboxes (os : list mop) (k : kernel) (st : mailboxes) :
  msg_inv k st ->
  match mbox_run os st with
  | inl (rs, st') => exists k', msg_run os k = Ret rs k' /\ msg_post k k' st'
  | inr w => msg_run os k = Fault w
  end.
Proof.
  revert k st. induction os as [|o os IH]; intros k st Hinv; simpl.
  - exists k. split; [done|]. pose proof Hinv as (_ & _ & ->).
    exists (k_msgs k), (k_mach k). split; [by destruct k|done].
  - pose proof (msg_step_sim k st o Hinv) as Hs. destruct (mbox_step o st) as [[r st1]|w].
    2: { by apply bind_Fault. }
    destruct Hs as (k1 & Hrun & g1 & mc1 & Hk1 & Hinv1). run Hrun.
    specialize (IH k1 st1 Hinv1). destruct (mbox_run os st1) as [[rs st2]|w].
    2: { by apply bind_Fault. }
    destruct IH as (k2 & Hrun2 & g2 & mc2 & Hk2 & Hinv2). run Hrun2.
    exists k2. split; [done|]. exists g2, mc2. split; [|done]. by rewrite Hk2, Hk1.
Qed.

(** ** Initialisation *)

Section init.
Implicit Types (k : kernel) (g : msgs) (bufs : list (list Z)).

(** The static arrays as the loader leaves them. *)
Record msgs_raw g : Prop := {
  mr_bufs : alen (mg_message_buffer g) = NUMOFMESSAGEBUFFERS;
  mr_buf : Forall (fun b => alen b = MessageSize) (mg_message_buffer g);
  mr_from : alen (mg_from_array g) = NUMOFMESSAGEBUFFERS;
  mr_ptrs : alen (mg_message_queue g) = NUMOFMESSAGEQUEUES;
  mr_qlen : alen (mg_temp_queue g) = NUMOFMESSAGEQUEUES;
  mr_qs : Forall (fun q => alen (q_data q) = NUMOFMESSAGEBUFFERS) (mg_temp_queue g);
  mr_count : mg_count_q g = 0 }.

Definition word0 bufs (n : Z) : option Z := aget bufs n ≫= fun b => aget b 0.

Lemma links_seq bufs n lo :
  (forall j, lo <= j < lo + Z.of_nat n ->
     word0 bufs j = Some (if j + 1 =? lo + Z.of_nat n then -1 else j + 1)) ->
  links bufs (match n with O => -1 | _ => lo end) (seqZ lo (Z.of_nat n)).
Proof.
  revert lo. induction n as [|n IH]; intros lo H; [done|].
  rewrite seqZ_cons by lia. cbn [links]. split; [done|].
  specialize (H lo ltac:(lia)) as Hlo. unfold word0 in Hlo.
  destruct (aget bufs lo) as [b|] eqn:Hb; [|done]. simpl in Hlo.
  exists b, (match n with O => -1 | _ => lo + 1 end). split; [done|]. split.
  - rewrite Hlo. f_equal. destruct (Z.eqb_spec (lo + 1) (lo + Z.of_nat (S n))), n; lia.
  - replace (Z.pred (Z.of_nat (S n))) with (Z.of_nat n) by lia. apply (IH (Z.succ lo)).
    intros j Hj. rewrite H by lia. do 2 f_equal.
    destruct (Z.eqb_spec (j + 1) (lo + Z.of_nat (S n))), (Z.eqb_spec (j + 1) (Z.succ lo + Z.of_nat n)); lia.
Qed.

Definition free_lock (nm : string) : spinlock := mklock nm false None.

Lemma initlock_ok l nm k mc :
  initlock l nm (kst k mc) = Ret tt (kst k (mc <| m_locks ::= <[l := free_lock nm]> |>)).
Proof. reflexivity. Qed.

(** What the first loop has done before round [i]. *)
Definition init1 k (i : Z) (k' : kernel) : Prop :=
  exists bufs L, k' = kst (k <| k_msgs ::= fun g => g <| mg_message_buffer := bufs |> |>)
                          ((k_mach k) <| m_locks := L |>) /\
    alen bufs = NUMOFMESSAGEBUFFERS /\ Forall (fun b => alen b = MessageSize) bufs /\
    (forall j, 0 <= j < i -> word0 bufs j = Some (j + 1)) /\
    (forall j, 0 <= j < i -> L !! ("message_buffer_lock", j) = Some (free_lock "msg")).

Lemma bufs_get bufs n :
  alen bufs = NUMOFMESSAGEBUFFERS -> Forall (fun b => alen b = MessageSize) bufs ->
  0 <= n < NUMOFMESSAGEBUFFERS -> exists b, aget bufs n = Some b /\ alen b = MessageSize.
Proof.
  intros Hl Hf Hn. destruct (aget_is_Some bufs n) as [b Hb]; [lia|]. exists b. split; [done|].
  unfold aget in Hb. destruct (0 <=? n); [|done]. rewrite Forall_lookup in Hf. eauto.
Qed.

(** One round: set word 0 of buffer [i] and initialise its lock. *)
Lemma init1_set k i v k' :
  init1 k i k' -> 0 <= i < NUMOFMESSAGEBUFFERS ->
  exists bufs L, mb_set i 0 v k' = Ret tt
    (kst (k <| k_msgs ::= fun g => g <| mg_message_buffer := bufs |> |>)
         ((k_mach k) <| m_locks := L |>)) /\
    alen bufs = NUMOFMESSAGEBUFFERS /\ Forall (fun b => alen b = MessageSize) bufs /\
    word0 bufs i = Some v /\ (forall j, 0 <= j < i -> word0 bufs j = Some (j + 1)) /\
    (forall l, L !! l = m_locks (k_mach k') !! l) /\
    (forall j, 0 <= j < i -> L !! ("message_buffer_lock", j) = Some (free_lock "msg")).
Proof.
  intros (bufs & L & -> & Hl & Hf & Hw & HL) Hi.
  destruct (bufs_get bufs i Hl Hf Hi) as (b & Hb & Hlb).
  exists (<[Z.to_nat i := <[0%nat := v]> b]> bufs), L.
  erewrite mb_set_ok; [|ksimpl; exact Hb|by rewrite Hlb]. knorm.
  assert (Hw0 : forall j, 0 <= j -> word0 (<[Z.to_nat i := <[0%nat := v]> b]> bufs) j =
    if decide (i = j) then Some v else word0 bufs j).
  { intros j Hj. unfold word0. rewrite aget_insert by lia. case_decide; [|done]. simpl.
    apply (aget_insert_eq _ 0). by rewrite Hlb. }
  split_and!; [done|by rewrite alen_insert| | | |done|done].
  - apply Forall_insert; [done|]. by rewrite alen_insert.
  - rewrite Hw0 by lia. by case_decide.
  - intros j Hj. rewrite Hw0 by lia. case_decide; [lia|]. by apply Hw.
Qed.

Lemma init1_step k i k' :
  0 <= i < NUMOFMESSAGEBUFFERS -> init1 k i k' ->
  exists k'', init_buffer i k' = Ret tt k'' /\ init1 k (i + 1) k''.
Proof.
  intros Hi H. unfold init_buffer. destruct (init1_set k i (i + 1) k' H Hi) as (bufs & L & Hs & Hl & Hf & Hwi & Hw & _ & HL).
  run Hs. run message_buffer_lock_ok; [|done]. rewrite initlock_ok. eexists. split; [done|].
  exists bufs, (<[("message_buffer_lock", i) := free_lock "msg"]> L).
  split_and!; [done..| |]; intros j Hj; destruct (decide (j = i)) as [->|Hne].
  - done.
  - apply Hw. lia.
  - by rewrite lookup_insert_eq.
  - rewrite lookup_insert_ne by congruence. apply HL. lia.
Qed.

Definition empty_queue (q : queue) : Prop := queue_wf q /\ contents q = [].

(** What the second loop has done before round [i]. *)
Definition init2 k (i : Z) (k' : kernel) : Prop :=
  exists qs ps L, k' = kst (k <| k_msgs ::= fun g => g <| mg_temp_queue := qs |>
        <| mg_count_q := i |> <| mg_message_queue := ps |> |>) ((k_mach k) <| m_locks := L |>) /\
    alen qs = NUMOFMESSAGEQUEUES /\ alen ps = NUMOFMESSAGEQUEUES /\
    Forall (fun q => alen (q_data q) = NUMOFMESSAGEBUFFERS) qs /\
    (forall j, 0 <= j < i -> exists q, aget qs j = Some q /\ empty_queue q) /\
    (forall j, 0 <= j < i -> aget ps j = Some (Some (Z.to_nat j))) /\
    (forall j, 0 <= j < i -> L !! ("queue_lock", j) = Some (free_lock "queue")) /\
    (forall l, l.1 <> "queue_lock" -> L !! l = m_locks (k_mach k) !! l).

Lemma init2_step k i k' :
  0 <= i < NUMOFMESSAGEQUEUES -> init2 k i k' ->
  exists k'', init_queue i k' = Ret tt k'' /\ init2 k (i + 1) k''.
Proof.
  intros Hi (qs & ps & L & -> & Hlq & Hlp & Hd & Hq & Hp & HL & Hfr). unfold init_queue.
  destruct (aget_is_Some qs i) as [q Hqi]; [lia|].
  assert (Hdq : alen (q_data q) = NUMOFMESSAGEBUFFERS).
  { unfold aget in Hqi. destruct (0 <=? i); [|done]. rewrite Forall_lookup in Hd. eauto. }
  erewrite bind_Ret.
  2: { eapply zoom_Ret; [done|]. eapply (createqueue_ok _ i q); ksimpl; [lia| |done].
       by destruct (Z.leb_spec NUMOFMESSAGEQUEUES i); [lia|]. }
  knorm. mstep. run wr_Some; [|ksimpl; lia]. mstep. knorm. run queue_lock_ok; [|done].
  rewrite initlock_ok. eexists. split; [done|].
  exists (<[Z.to_nat i := q <| q_size := 0 |> <| q_tail := 0 |> <| q_head := 0 |>]> qs),
    (<[Z.to_nat i := Some (Z.to_nat i)]> ps), (<[("queue_lock", i) := free_lock "queue"]> L).
  split; [by rewrite (Z.add_comm i 1)|]. split_and!.
  - by rewrite alen_insert.
  - by rewrite alen_insert.
  - by apply Forall_insert.
  - intros j Hj. rewrite aget_insert by lia. case_decide; [|apply Hq; lia].
    eexists. split; [done|]. split; [|done]. by split.
  - intros j Hj. rewrite aget_insert by lia. case_decide; [by subst|]. apply Hp. lia.
  - intros j Hj. simpl. destruct (decide (j = i)) as [->|]; [by rewrite lookup_insert_eq|].
    rewrite lookup_insert_ne by congruence. apply HL. lia.
  - intros l Hl. simpl. rewrite lookup_insert_ne by (intros <-; done). by apply Hfr.
Qed.

(** What the tables satisfy once both loops are done. *)
Lemma init_tables g :
  alen (mg_message_buffer g) = NUMOFMESSAGEBUFFERS ->
  Forall (fun b => alen b = MessageSize) (mg_message_buffer g) ->
  alen (mg_from_array g) = NUMOFMESSAGEBUFFERS ->
  alen (mg_message_queue g) = NUMOFMESSAGEQUEUES -> alen (mg_temp_queue g) = NUMOFMESSAGEQUEUES ->
  mg_free_message_buffer g = 0 ->
  (forall j, 0 <= j < NUMOFMESSAGEBUFFERS -> word0 (mg_message_buffer g) j =
     Some (if j + 1 =? NUMOFMESSAGEBUFFERS then -1 else j + 1)) ->
  (forall j, 0 <= j < NUMOFMESSAGEQUEUES -> exists q, aget (mg_temp_queue g) j = Some q /\ empty_queue q) ->
  (forall j, 0 <= j < NUMOFMESSAGEQUEUES -> aget (mg_message_queue g) j = Some (Some (Z.to_nat j))) ->
  msgs_ok g (seqZ 0 NUMOFMESSAGEBUFFERS) /\
  boxes g = replicate (Z.to_nat NUMOFMESSAGEQUEUES) [].
Proof.
  intros Hlb Hb Hf Hlp Hlq Hfree Hw Hq Hp.
  assert (Hq' : Forall empty_queue (mg_temp_queue g)).
  { apply Forall_lookup. intros j q Hj. pose proof (lookup_lt_Some _ _ _ Hj).
    destruct (Hq (Z.of_nat j)) as (q' & Hq' & ?); [unfold alen in Hlq; lia|].
    rewrite aget_nat in Hq'. congruence. }
  assert (Hc : forall (F : queue -> list (list Z)), (forall q, contents q = [] -> F q = []) ->
    F <$> mg_temp_queue g = replicate (Z.to_nat NUMOFMESSAGEQUEUES) []).
  { intros F HF. apply list_eq. intros j. rewrite list_lookup_fmap.
    destruct (mg_temp_queue g !! j) as [q|] eqn:E.
    - rewrite Forall_lookup in Hq'. destruct (Hq' _ _ E) as [_ Hc].
      change (F <$> Some q) with (Some (F q)). rewrite (HF q Hc).
      symmetry. apply lookup_replicate_2. apply lookup_lt_Some in E. unfold alen in Hlq. lia.
    - symmetry. apply lookup_replicate_None. apply lookup_ge_None in E. unfold alen in Hlq. lia. }
  split; [split; try done|].
  - apply list_eq. intros j. rewrite list_lookup_fmap.
    destruct (decide (Z.of_nat j < NUMOFMESSAGEQUEUES)) as [Hj|Hj].
    + rewrite lookup_seq_lt, <- aget_nat, Hp by lia. by rewrite Nat2Z.id.
    + rewrite lookup_seq_ge by lia. apply lookup_ge_None. unfold alen in Hlp. lia.
  - eapply Forall_impl; [exact Hq'|]. by intros q [].
  - rewrite Hfree. apply (links_seq _ (Z.to_nat NUMOFMESSAGEBUFFERS) 0). exact Hw.
  - assert (concat (contents <$> mg_temp_queue g) = []) as ->; [|by rewrite app_nil_r].
    clear -Hq'. induction Hq' as [|q qs [_ Hc] _ IH]; [done|].
    rewrite fmap_cons. cbn [concat]. by rewrite Hc, IH.
  - apply Hc. by intros q ->.
Qed.

Lemma init1_last k k1 :
  init1 k (NUMOFMESSAGEBUFFERS - 1) k1 ->
  exists bufs L, initlock ("message_buffer_lock", NUMOFMESSAGEBUFFERS - 1) "msg" k1 =
      Ret tt (kst (k <| k_msgs ::= fun g => g <| mg_message_buffer := bufs |> |>)
                  ((k_mach k) <| m_locks := L |>)) /\
    init1 k (NUMOFMESSAGEBUFFERS - 1)
      (kst (k <| k_msgs ::= fun g => g <| mg_message_buffer := bufs |> |>)
           ((k_mach k) <| m_locks := L |>)) /\
    L !! ("message_buffer_lock", NUMOFMESSAGEBUFFERS - 1) = Some (free_lock "msg").
Proof.
  intros (bufs & L & -> & Hl & Hf & Hw & HL). rewrite initlock_ok. eexists bufs, _. split; [done|]. split; [|by rewrite lookup_insert_eq].
  eexists bufs, _. split_and!; [done..|].
  intros j Hj. simpl. rewrite lookup_insert_ne by (intros [=]; lia). by apply HL.
Qed.
End init.

(** [messageinit] turns the zeroed arrays into a pool with every buffer
    free and all mailboxes empty, and initialises every lock the message
    operations take; the rest of the kernel is unchanged. *)
Theorem messageinit_establishes (k : kernel) :
  msgs_raw (k_msgs k) -> mach_ok (k_mach k) ->
  exists g mc, messageinit k = Ret tt (kst (k <| k_msgs := g |>) mc) /\
    msgs_ok g (seqZ 0 NUMOFMESSAGEBUFFERS) /\
    boxes g = replicate (Z.to_nat NUMOFMESSAGEQUEUES) [] /\ msg_locks mc.
Proof.
  intros Hraw Hok. unfold messageinit.
  destruct (each_ind (init1 k) (Z.to_nat (NUMOFMESSAGEBUFFERS - 1)) 0 init_buffer k)
    as (k1 & Hrun1 & H1).
  { destruct Hraw. exists (mg_message_buffer (k_msgs k)), (m_locks (k_mach k)).
    split_and!; [|done..|lia|lia]. destruct k as []; by destruct k_mach, k_msgs. }
  { intros i k' Hi. apply init1_step. unfold NUMOFMESSAGEBUFFERS in *. lia. }
  run Hrun1. change (0 + _) with (NUMOFMESSAGEBUFFERS - 1) in H1.
  destruct (init1_last _ _ H1) as (bufs1 & L1 & Hrun2 & H2 & HL1).
  run message_buffer_lock_ok; [|done]. run Hrun2.
  destruct (init1_set _ _ (-1) _ H2) as (bufs & L & Hset & Hl & Hf & Hwl & Hw & HL & HLj); [done|].
  run Hset. mstep. knorm.
  match goal with |- context [(each _ _ _ ≫= _) ?k2] => set (k' := k2) end.
  destruct (each_ind (init2 k') (Z.to_nat NUMOFMESSAGEQUEUES) 0 init_queue k') as (k3 & Hrun3 & H3).
  { destruct Hraw. exists (mg_temp_queue (k_msgs k)), (mg_message_queue (k_msgs k)), L.
    split_and!; try lia; try done. subst k'. rewrite <- mr_count0.
    destruct k as []; by destruct k_mach, k_msgs. }
  { intros i k4 Hi. apply init2_step. lia. }
  run Hrun3. destruct H3 as (qs & ps & L3 & -> & Hlq & Hlp & Hdq & Hq & Hp & HLq & HLfr).
  subst k'. knorm. rewrite initlock_ok.
  match goal with |- exists g mc, Ret tt (kst (k <| k_msgs ::= ?f |>) ?mc1) = _ /\ _ =>
    exists (f (k_msgs k)), mc1; split; [reflexivity|] end.
  cbv beta. apply and_assoc. split.
  - apply init_tables; simpl; try done.
    + apply (mr_from _ Hraw).
    + intros j Hj. destruct (Z.eqb_spec (j + 1) NUMOFMESSAGEBUFFERS).
      * by replace j with (NUMOFMESSAGEBUFFERS - 1) by lia.
      * apply Hw. lia.
  - assert (Hbl : forall j, 0 <= j < NUMOFMESSAGEBUFFERS ->
      L3 !! ("message_buffer_lock", j) = Some (free_lock "msg")).
    { intros j Hj. rewrite HLfr by done. simpl.
      destruct (decide (j = NUMOFMESSAGEBUFFERS - 1)) as [->|]; [by rewrite HL|]. apply HLj. lia. }
    split; simpl.
    + destruct Hok as (i & c & ?). by exists i, c.
    + eexists. simpl. by rewrite lookup_insert_eq.
    + intros i Hi. eexists. simpl. rewrite lookup_insert_ne by done. by apply HLq.
    + intros i Hi. eexists. simpl. rewrite lookup_insert_ne by done. by apply Hbl.
Qed.

(** ** Concrete states *)

Lemma messageinit_establishes_witness :
  exists g mc, messageinit (kernel0 0x80110000) = Ret tt (kst ((kernel0 0x80110000) <| k_msgs := g |>) mc) /\
    msgs_ok g (seqZ 0 NUMOFMESSAGEBUFFERS) /\
    boxes g = replicate (Z.to_nat NUMOFMESSAGEQUEUES) [] /\ msg_locks mc.
Proof.
  apply (messageinit_establishes (kernel0 0x80110000)).
  - split; try (by vm_compute).
    + by apply Forall_replicate.
    + apply Forall_replicate. by vm_compute.
  - exists 0, (mkcpu 0 0 false None). by split_and!.
Defined.

Definition msgs_ready : msgs :=
  mkmsgs (replicate (Z.to_nat NUMOFMESSAGEQUEUES) queue0) NUMOFMESSAGEQUEUES
    (Some <$> seq 0 (Z.to_nat NUMOFMESSAGEQUEUES))
    ((fun i => (if i + 1 =? NUMOFMESSAGEBUFFERS then -1 else i + 1) :: replicate 15 0) <$>
       seqZ 0 NUMOFMESSAGEBUFFERS)
    (replicate (Z.to_nat NUMOFMESSAGEBUFFERS) 0) 0.

Definition lock_table (nm : string) (n : Z) : gmap lockid spinlock :=
  list_to_map ((fun i => ((nm, i), free_lock nm)) <$> seqZ 0 n).

Definition mach_msgs : mach :=
  mkmach 0 true 1 [mkcpu 0 0 false None]
    (<[free_message_buffer_lock := free_lock "free_message_buff_lock"]>
      (lock_table "queue_lock" NUMOFMESSAGEQUEUES ∪
       lock_table "message_buffer_lock" NUMOFMESSAGEBUFFERS)).

(** A kernel after boot with the words 1, 2, ... at address 0. *)
Definition kernel_msgs : kernel :=
  (kernel0 0x80110000) <| k_msgs := msgs_ready |> <| k_mach := mach_msgs |>
    <| k_mem := fun a => if (0 <=? a) && (a mod 4 =? 0) then byte (a / 4 + 1) else 0 |>.

Lemma lock_table_get nm n i :
  0 <= i < n -> lock_table nm n !! (nm, i) = Some (free_lock nm).
Proof.
  intros Hi. unfold lock_table. apply elem_of_list_to_map_1.
  - rewrite <- list_fmap_compose. apply NoDup_fmap_2; [|apply NoDup_seqZ]. intros x y [=]. done.
  - apply list_elem_of_fmap. exists i. split; [done|]. apply elem_of_seqZ. lia.
Qed.

Lemma lock_table_ne nm n l : l.1 <> nm -> lock_table nm n !! l = None.
Proof.
  intros Hl. apply not_elem_of_list_to_map_1. rewrite <- list_fmap_compose.
  intros (i & -> & _)%list_elem_of_fmap. done.
Qed.

Lemma mach_msgs_locks : msg_locks mach_msgs.
Proof.
  split; [exists 0, (mkcpu 0 0 false None); by split_and!|unfold lock_free..];
    unfold mach_msgs; cbn [m_locks].
  - eexists. by rewrite lookup_insert_eq.
  - intros i Hi. eexists. rewrite lookup_insert_ne by done.
    apply lookup_union_Some_l. by apply lock_table_get.
  - intros i Hi. eexists. rewrite lookup_insert_ne by done.
    rewrite lookup_union_r by by apply lock_table_ne. by apply lock_table_get.
Qed.

Lemma msgs_ready_ok :
  msgs_ok msgs_ready (seqZ 0 NUMOFMESSAGEBUFFERS) /\
  boxes msgs_ready = replicate (Z.to_nat NUMOFMESSAGEQUEUES) [].
Proof.
  apply init_tables; unfold msgs_ready; cbn [mg_message_buffer mg_from_array mg_message_queue
    mg_temp_queue mg_free_message_buffer]; try done; unfold alen;
    rewrite ?length_fmap, ?length_replicate, ?length_seqZ, ?length_seq; try done.
  - apply Forall_fmap, Forall_forall. intros i _. done.
  - intros j Hj. unfold word0, aget at 2.
    destruct (Z.leb_spec 0 j); [|lia]. rewrite list_lookup_fmap, lookup_seqZ_lt by lia. simpl.
    by replace (Z.of_nat (Z.to_nat j)) with j by lia.
  - intros j Hj. exists queue0. split; [|by split; [apply queue0_wf|]].
    apply aget_replicate. unfold NUMOFMESSAGEQUEUES in *. lia.
  - intros j Hj. unfold aget. destruct (Z.leb_spec 0 j); [|lia].
    by rewrite list_lookup_fmap, lookup_seq_lt by lia.
Qed.

Definition demo_ops : list mop :=
  [Send 3 5 0; Send 3 5 4; Poll 3; Recv 5 400; Recv 5 800; Recv 5 0].
Definition demo_boxes : mailboxes :=
  (replicate (Z.to_nat NUMOFMESSAGEQUEUES) [], k_mem kernel_msgs).

Lemma demo_answers :
  match mbox_run demo_ops demo_boxes with
  | inl (rs, (_, m)) => (rs, load32 m 400, load32 m 800)
  | inr _ => ([], 0, 0)
  end = ([0; 0; 1; 0; 0; -1], 1, 2).
Proof. by vm_compute. Qed.

(** Process 3 sends two messages to process 5, which receives them in order;
    process 3's own mailbox stays empty. *)
Lemma messages_refine_mailboxes_witness :
  exists k', msg_run demo_ops kernel_msgs = Ret [0; 0; 1; 0; 0; -1] k' /\
    load32 (k_mem k') 400 = 1 /\ load32 (k_mem k') 800 = 2.
Proof.
  assert (Hinv : msg_inv kernel_msgs demo_boxes).
  { split_and!; [exact mach_msgs_locks|eexists; apply msgs_ready_ok|].
    change (boxes (k_msgs kernel_msgs)) with (boxes msgs_ready). by rewrite (proj2 msgs_ready_ok). }
  pose proof (messages_refine_mailboxes demo_ops kernel_msgs demo_boxes Hinv) as H.
  pose proof demo_answers as Ha.
  destruct (mbox_run demo_ops demo_boxes) as [[rs [B m]]|w]; [|done].
  injection Ha as -> Ha1 Ha2. destruct H as (k' & Hrun & g' & mc' & -> & _).
  eexists. split; [exact Hrun|]. by split.
Defined.
