(* ===== verification/Container.v ===== *)
(** * Containers ([container_manager.c])

    The container table: allocation and destruction of containers, membership
    of processes, the round-robin choice of the container to run next, and the
    per-container lists of shared pages and files. *)

From S2P Require Import Prelude State Spinlock CString Kalloc.
Open Scope Z_scope.

Definition container_lock : lockid := ("container_table", 0).

(** ** The code *)

(** [container_table.container[i]] and assignment to one of its fields. *)
Definition ct_at (i : Z) : K container := k ← get; rd "container" (k_container k) i.
Definition ct_set (i : Z) (f : container -> container) : K unit :=
  c ← ct_at i;
  k ← get;
  cs ← wr "container" (k_container k) i (f c);
  modify (fun k => k <| k_container := cs |>).

(** [container[i].proc[j] = v] *)
Definition ct_set_proc (i j v : Z) : K unit :=
  c ← ct_at i;
  ps ← wr "container.proc" (ct_proc c) j v;
  ct_set i (fun c => c <| ct_proc := ps |>).

Definition container_init : K unit :=
  initlock container_lock "container_table" ;;;
  each (Z.to_nat NCONTAINER) 0 (fun i =>
    each (Z.to_nat NPROC) 0 (fun j => ct_set_proc i j 0) ;;;
    ct_set i (fun c => c <| ct_status := 0 |>) ;;;
    ct_set i (fun c => c <| ct_last_process := 0 |>) ;;;
    ct_set i (fun c => c <| ct_last_space := 0 |>) ;;;
    ct_set i (fun c => c <| ct_last_file_index := 0 |>)).

Definition get_container : K Z :=
  acquire container_lock ;;;
  r ← for_ (Z.to_nat (NCONTAINER - 1)) 1 (fun i =>
    c ← ct_at i;
    if ct_status c =? 0 then
      ct_set i (fun c => c <| ct_status := 1 |>) ;;;
      release container_lock ;;;
      mret (Some i)
    else mret None);
  match r with
  | Some i => mret i
  | None => release container_lock ;;; mret (-1)
  end.

Definition destroy_container_kernel (a : Z) : K Z :=
  acquire container_lock ;;;
  ct_set a (fun c => c <| ct_status := 0 |>) ;;;
  each (Z.to_nat NPROC) 0 (fun i => ct_set_proc a i 0) ;;;
  ct_set a (fun c => c <| ct_last_file_index := 0 |>) ;;;
  ct_set a (fun c => c <| ct_last_process := 0 |>) ;;;
  ct_set a (fun c => c <| ct_last_space := 0 |>) ;;;
  release container_lock ;;;
  mret (-1).

Definition set_process_to_container (pid cid : Z) : K Z :=
  acquire container_lock ;;;
  c ← ct_at cid;
  if ct_status c =? 0 then release container_lock ;;; mret (-1)
  else
    ct_set_proc cid pid 1 ;;;
    release container_lock ;;;
    mret 0.

Definition remove_process_from_container (pid cid : Z) : K Z :=
  acquire container_lock ;;;
  c ← ct_at cid;
  if ct_status c =? 0 then release container_lock ;;; mret (-1)
  else
    ct_set_proc cid pid 0 ;;;
    release container_lock ;;;
    mret 0.

(** The search loop of [get_container_to_run], [n] rounds from [cid]. *)
Fixpoint next_container (n : nat) (cid : Z) : K unit :=
  match n with
  | O => mret tt
  | S n' =>
      c ← ct_at cid;
      if ct_status c =? 1 then modify (fun k => k <| k_current_container := cid |>)
      else next_container n' (Z.rem (cid + 1) NCONTAINER)
  end.

Definition get_container_to_run : K Z :=
  cur ← gets k_current_container;
  let cid := Z.rem (cur + 1) NCONTAINER in
  acquire container_lock ;;;
  next_container (Z.to_nat NCONTAINER) cid ;;;
  release container_lock ;;;
  gets k_current_container.

(** The pointer this returns is the [proc] array of the container, so reads
    through it see later changes; it is represented by the container. *)
Definition get_container_processes_to_run (cid : Z) : K Z := ct_at cid ;;; mret cid.

Definition get_container_last_process (cid : Z) : K Z := c ← ct_at cid; mret (ct_last_process c).

Definition set_last_process_of_container (last_process cid : Z) : K unit :=
  acquire container_lock ;;;
  ct_set cid (fun c => c <| ct_last_process := last_process |>) ;;;
  release container_lock.

(** The page and, as the second result, the index stored through [t]. *)
Definition get_space_in_container (cid units : Z) : K (Z * Z) :=
  acquire container_lock ;;;
  c ← ct_at cid;
  let index := ct_last_space c in
  result ← kalloc;
  sm ← wr "space_mapping" (ct_space_mapping c) index result;
  ct_set cid (fun c => c <| ct_space_mapping := sm |>) ;;;
  ct_set cid (fun c => c <| ct_last_space ::= Z.add 1 |>) ;;;
  release container_lock ;;;
  mret (result, index).

Definition set_file_in_container (s cid : Z) : K unit :=
  acquire container_lock ;;;
  c ← ct_at cid;
  let fd := ct_last_file_index c in
  fs ← wr "files_of_container" (ct_files c) fd s;
  ct_set cid (fun c => c <| ct_files := fs |>) ;;;
  ct_set cid (fun c => c <| ct_last_file_index ::= Z.add 1 |>) ;;;
  release container_lock.

(** [strlen] as a call: it faults on a string without end. *)
Definition k_strlen (s : Z) : K Z :=
  k ← get;
  match strlen (k_mem k) s with Some n => mret n | None => fault "strlen" end.

Definition poke (a v : Z) : K unit := modify (fun k => k <| k_mem ::= fun m => store8 m a v |>).

Definition file_in_container (s cid : Z) : K Z :=
  stln ← k_strlen s;
  a ← kalloc;
  n ← k_strlen s;
  modify (fun k => k <| k_mem ::= fun m => strncpy m a s (n + 1) |>) ;;;
  when (negb (cid =? 0))
    (poke (a + stln) 36 ;;; poke (a + stln + 1) (cid + 48) ;;; poke (a + stln + 2) 0) ;;;
  acquire container_lock ;;;
  r ← for_ 100 0 (fun i =>
    c ← ct_at cid;
    if i <? ct_last_file_index c then
      f ← rd "files_of_container" (ct_files c) i;
      len ← k_strlen a;
      k ← get;
      mret (if strncmp (k_mem k) f a len =? 0 then Some 1 else None)
    else mret (Some 0));
  release container_lock ;;;
  mret (default 0 r).

(** ** The table *)

Section facts.
Implicit Types (k : kernel) (c : container) (i : Z).

(** The container lock is free and the table has its static size. *)
Record ct_ready k : Prop := {
  cr_ok : mach_ok (k_mach k);
  cr_lock : lock_free container_lock (k_mach k);
  cr_len : alen (k_container k) = NCONTAINER }.

Definition status_of k i : Z := match aget (k_container k) i with Some c => ct_status c | None => 0 end.

Lemma ct_at_ok k i c : aget (k_container k) i = Some c -> ct_at i k = Ret c k.
Proof. intros H. unfold ct_at. mstep. by apply rd_Some. Qed.

Lemma ct_set_ok k i c f :
  aget (k_container k) i = Some c ->
  ct_set i f k = Ret tt (k <| k_container ::= <[Z.to_nat i := f c]> |>).
Proof.
  intros H. unfold ct_set. run ct_at_ok; [|done]. mstep. run wr_Some; [done|by eapply aget_lt].
Qed.

Lemma ct_set_proc_ok k i j v c :
  aget (k_container k) i = Some c -> 0 <= j < alen (ct_proc c) ->
  ct_set_proc i j v k =
    Ret tt (k <| k_container ::= <[Z.to_nat i := c <| ct_proc := <[Z.to_nat j := v]> (ct_proc c) |>]> |>).
Proof.
  intros H Hj. unfold ct_set_proc. run ct_at_ok; [|done]. run wr_Some; [|done].
  by erewrite ct_set_ok.
Qed.

Lemma ct_get k i : ct_ready k -> 0 <= i < NCONTAINER -> exists c, aget (k_container k) i = Some c.
Proof. intros [_ _ Hl] Hi. apply aget_is_Some. lia. Qed.
End facts.

(** The loop of [get_container] over candidates that are all taken. *)
Lemma for_skip {S A} (body : Z -> M S (option A)) n lo s :
  (forall i, lo <= i < lo + Z.of_nat n -> body i s = Ret None s) ->
  for_ n lo body s = Ret None s.
Proof.
  revert lo. induction n as [|n IH]; intros lo H; simpl; [done|].
  run H; [|lia]. apply IH. intros i Hi. apply H. lia.
Qed.

Lemma for_found {S A} (body : Z -> M S (option A)) n lo i s a s' :
  lo <= i < lo + Z.of_nat n ->
  (forall j, lo <= j < i -> body j s = Ret None s) -> body i s = Ret (Some a) s' ->
  for_ n lo body s = Ret (Some a) s'.
Proof.
  revert lo. induction n as [|n IH]; intros lo Hi Hskip Hfound; simpl; [lia|].
  destruct (decide (lo = i)) as [->|].
  - by run Hfound.
  - run Hskip; [|lia]. apply IH; [lia| |done]. intros j Hj. apply Hskip. lia.
Qed.

(** [get_container] returns the lowest dead container id above 0 and marks
    it alive, changing nothing else; when every container is alive it returns
    -1 and changes nothing. *)
Theorem get_container_lowest (k : kernel) :
  ct_ready k ->
  (exists i c, 1 <= i < NCONTAINER /\ aget (k_container k) i = Some c /\ ct_status c = 0 /\
     (forall j, 1 <= j < i -> status_of k j <> 0) /\
     get_container k = Ret i (kst (k <| k_container ::= <[Z.to_nat i := c <| ct_status := 1 |>]> |>)
                                  (settle (k_mach k)))) \/
  ((forall j, 1 <= j < NCONTAINER -> status_of k j <> 0) /\
   get_container k = Ret (-1) (kst k (settle (k_mach k)))).
Proof.
  intros Hr. pose proof Hr as [Hok Hlk Hlen].
  set (k1 := kst k (acq container_lock (k_mach k))).
  assert (Hbusy : forall j, 1 <= j < NCONTAINER -> status_of k j <> 0 ->
    (c ← ct_at j; if ct_status c =? 0 then
       ct_set j (fun c => c <| ct_status := 1 |>) ;;; release container_lock ;;; mret (Some j)
     else mret None) k1 = Ret None k1).
  { intros j Hj Hs. destruct (ct_get k j Hr) as [c Hc]; [lia|]. run ct_at_ok; [|done].
    unfold status_of in Hs. rewrite Hc in Hs. by destruct (Z.eqb_spec (ct_status c) 0). }
  unfold get_container.
  destruct (scan (fun i => if status_of k i =? 0 then Some i else None) (Z.to_nat (NCONTAINER - 1)) 1)
    as [i|] eqn:E.
  - apply scan_Some in E as (i' & Hi & Hf & Hbefore). left.
    destruct (Z.eqb_spec (status_of k i') 0) as [Hst|]; [|done]. injection Hf as ->.
    assert (Hi' : 1 <= i < NCONTAINER) by (unfold NCONTAINER in *; lia).
    destruct (ct_get k i Hr) as [c Hc]; [lia|]. unfold status_of in Hst. rewrite Hc in Hst.
    assert (Hbefore' : forall j, 1 <= j < i -> status_of k j <> 0).
    { intros j Hj. specialize (Hbefore j Hj). by destruct (Z.eqb_spec (status_of k j) 0). }
    exists i, c. split_and!; [lia|lia|done|done|done|]. run acquire_ok; [|done..].
    erewrite bind_Ret; [|eapply (for_found _ _ _ i)]; [reflexivity|lia| |].
    + intros j Hj. apply Hbusy; [lia|]. by apply Hbefore'.
    + cbv beta. run ct_at_ok; [|done]. rewrite Hst. simpl (0 =? 0). cbv iota. run ct_set_ok; [|done]. knorm.
      erewrite bind_Ret by (apply (release_acq _ _ (k_mach k)); mach). by knorm.
  - right. rewrite scan_None in E.
    assert (Hall : forall j, 1 <= j < NCONTAINER -> status_of k j <> 0).
    { intros j Hj. specialize (E j ltac:(unfold NCONTAINER in *; lia)).
      by destruct (Z.eqb_spec (status_of k j) 0). }
    split; [done|]. run acquire_ok; [|done..]. run for_skip; [|].
    + erewrite bind_Ret by (apply (release_acq _ _ (k_mach k)); mach). by knorm.
    + intros j Hj. apply Hbusy; [unfold NCONTAINER in *; lia|].
      apply Hall. unfold NCONTAINER in *. lia.
Qed.

(** ** Membership and destruction *)

Section membership.
Implicit Types (k : kernel) (c : container).

(** [set_process_to_container] and [remove_process_from_container] are the
    same code storing 1 and 0. *)
Definition member_op (v pid cid : Z) : K Z :=
  if v =? 1 then set_process_to_container pid cid else remove_process_from_container pid cid.

Definition set_member k cid c pid v : kernel :=
  k <| k_container ::= <[Z.to_nat cid := c <| ct_proc := <[Z.to_nat pid := v]> (ct_proc c) |>]> |>.

(** The loop of [destroy_container_kernel] clears the slots. *)
Lemma clear_procs k a c :
  aget (k_container k) a = Some c -> alen (ct_proc c) = NPROC ->
  each (Z.to_nat NPROC) 0 (fun i => ct_set_proc a i 0) k =
    Ret tt (k <| k_container ::= <[Z.to_nat a := c <| ct_proc := replicate (Z.to_nat NPROC) 0 |>]> |>).
Proof.
  intros Hc Hl. pose proof (aget_lt _ _ _ Hc) as Ha.
  destruct (each_ind (fun i k' => exists ps, alen ps = NPROC /\
      (forall j, 0 <= j < i -> aget ps j = Some 0) /\
      k' = k <| k_container ::= <[Z.to_nat a := c <| ct_proc := ps |>]> |>)
    (Z.to_nat NPROC) 0 (fun i => ct_set_proc a i 0) k) as (k' & Hrun & ps & Hps & Hz & ->).
  - exists (ct_proc c). split_and!; [done|lia|]. destruct k; req. simpl in *.
    rewrite list_insert_id; [done|]. unfold aget in Hc. destruct (0 <=? a); [|done].
    rewrite Hc. by destruct c.
  - intros i ? Hi (ps & Hps & Hz & ->).
    erewrite ct_set_proc_ok; [|simpl; by apply aget_insert_eq|simpl; unfold NPROC in *; lia].
    eexists. split; [done|]. exists (<[Z.to_nat i := 0]> ps). split_and!.
    + by rewrite alen_insert.
    + intros j Hj. rewrite aget_insert by (unfold NPROC in *; lia). case_decide; [done|]. apply Hz. lia.
    + destruct k; req. simpl. by rewrite list_insert_insert_eq.
  - rewrite Hrun. assert (ps = replicate (Z.to_nat NPROC) 0) as ->; [|done].
    apply list_eq. intros j. destruct (decide (Z.of_nat j < NPROC)) as [Hj|Hj].
    + rewrite <- aget_nat, Hz by lia. symmetry. apply lookup_replicate_2. lia.
    + rewrite !lookup_ge_None_2; [done|rewrite length_replicate; lia|unfold alen in Hps; lia].
Qed.
End membership.

(** Joining and leaving a container: with a dead container both calls
    return -1 and change nothing; with an alive one they store 1 and 0 in the
    slot of the process and return 0.  The slot is indexed by the process id,
    so an id of [NPROC] or more is an access outside the table. *)
Lemma member_op_ok (k : kernel) (v pid cid : Z) (c : container) :
  ct_ready k -> v = 0 \/ v = 1 -> aget (k_container k) cid = Some c -> alen (ct_proc c) = NPROC ->
  member_op v pid cid k =
    if ct_status c =? 0 then Ret (-1) (kst k (settle (k_mach k)))
    else if within 0 NPROC pid then Ret 0 (kst (set_member k cid c pid v) (settle (k_mach k)))
    else Fault "container.proc".
Proof.
  intros [Hok Hlk Hlen] Hv Hc Hp.
  assert (Hgen : (acquire container_lock ;;; c ← ct_at cid;
    if ct_status c =? 0 then release container_lock ;;; mret (-1)
    else ct_set_proc cid pid v ;;; release container_lock ;;; mret 0) k =
    if ct_status c =? 0 then Ret (-1) (kst k (settle (k_mach k)))
    else if within 0 NPROC pid then Ret 0 (kst (set_member k cid c pid v) (settle (k_mach k)))
    else Fault "container.proc"); [|by destruct Hv as [-> | ->]].
  run acquire_ok; [|done..]. run ct_at_ok; [|done]. destruct (ct_status c =? 0).
  - erewrite bind_Ret by (apply (release_acq _ _ (k_mach k)); mach). by knorm.
  - destruct (within_spec 0 NPROC pid) as [Hw|Hw].
    + run (ct_set_proc_ok _ cid pid v c); [|done|lia]. knorm.
      erewrite bind_Ret by (apply (release_acq _ _ (k_mach k)); mach). by knorm.
    + apply bind_Fault. unfold ct_set_proc. run ct_at_ok; [|done]. apply bind_Fault, wr_None. lia.
Qed.

(** Destroying a container resets it to an unused one with no processes,
    no pages and no files, and leaves the other containers alone. *)
Theorem destroy_container_kernel_spec (k : kernel) (a : Z) (c : container) :
  ct_ready k -> aget (k_container k) a = Some c -> alen (ct_proc c) = NPROC ->
  destroy_container_kernel a k =
    Ret (-1) (kst (k <| k_container ::= <[Z.to_nat a :=
       c <| ct_status := 0 |> <| ct_proc := replicate (Z.to_nat NPROC) 0 |>
         <| ct_last_file_index := 0 |> <| ct_last_process := 0 |> <| ct_last_space := 0 |>]> |>)
       (settle (k_mach k))).
Proof.
  intros [Hok Hlk Hlen] Hc Hp. pose proof (aget_lt _ _ _ Hc) as Ha.
  assert (Hins : forall c', aget (<[Z.to_nat a := c']> (k_container k)) a = Some c').
  { intros c'. by apply aget_insert_eq. }
  unfold destroy_container_kernel. run acquire_ok; [|done..]. run (ct_set_ok _ a c); [|done]. knorm.
  run clear_procs; [|apply Hins|done]. knorm. 
  run ct_set_ok; [|ksimpl; apply aget_insert_eq; by rewrite alen_insert]. knorm.
  run ct_set_ok; [|ksimpl; apply aget_insert_eq; by rewrite !alen_insert]. knorm.
  run ct_set_ok; [|ksimpl; apply aget_insert_eq; by rewrite !alen_insert]. knorm.
  erewrite bind_Ret by (apply (release_acq _ _ (k_mach k)); mach). knorm.
  unfold mret, M_ret. f_equal. destruct k. unfold kst, upd. simpl. f_equal.
  by rewrite !list_insert_insert_eq.
Qed.

(** ** Round robin *)

Section round_robin.
Implicit Types (k : kernel) (cur d : Z).

Definition alive k cur : bool := status_of k cur =? 1.

(** The first alive container after [cur], going round the table once. *)
Definition next_alive k cur : option Z :=
  scan (fun j => let c := (cur + j) mod NCONTAINER in if alive k c then Some c else None)
    (Z.to_nat NCONTAINER) 1.

Lemma next_container_ok n : forall k j cur,
  alen (k_container k) = NCONTAINER -> 0 <= cur -> 0 <= j ->
  next_container n ((cur + j) mod NCONTAINER) k =
    Ret tt (k <| k_current_container ::= fun old => default old
      (scan (fun j => let c := (cur + j) mod NCONTAINER in if alive k c then Some c else None) n j) |>).
Proof.
  induction n as [|n IH]; intros k j cur Hlen Hcur Hj; simpl; [by destruct k|].
  assert (Hb : 0 <= (cur + j) mod NCONTAINER < NCONTAINER) by by apply Z.mod_pos_bound.
  destruct (aget_is_Some (k_container k) ((cur + j) mod NCONTAINER)) as [c Hc]; [lia|].
  run ct_at_ok; [|done]. unfold alive, status_of. rewrite Hc.
  destruct (ct_status c =? 1); [done|].
  assert (Z.rem ((cur + j) mod NCONTAINER + 1) NCONTAINER = (cur + (j + 1)) mod NCONTAINER) as ->.
  { rewrite Z.rem_mod_nonneg, Zplus_mod_idemp_l by (unfold NCONTAINER in *; lia). f_equal. lia. }
  by rewrite IH by lia.
Qed.

Lemma get_container_to_run_ok k :
  ct_ready k -> 0 <= k_current_container k < NCONTAINER ->
  let r := default (k_current_container k) (next_alive k (k_current_container k)) in
  get_container_to_run k = Ret r (kst (k <| k_current_container := r |>) (settle (k_mach k))).
Proof.
  intros [Hok Hlk Hlen] Hcur r. unfold get_container_to_run. mstep. run acquire_ok; [|done..].
  rewrite Z.rem_mod_nonneg by (unfold NCONTAINER in *; lia).
  run next_container_ok; [|done|lia|lia]. knorm.
  change (alive (kst k (acq container_lock (k_mach k)))) with (alive k).
  erewrite bind_Ret by (apply (release_acq _ _ (k_mach k)); mach). knorm. done.
Qed.

(** Steps from [cur] round to [d], not counting [cur] itself. *)
Definition distance cur d : Z := (d - cur - 1) mod NCONTAINER.

Lemma next_alive_closer k cur d :
  0 <= cur < NCONTAINER -> 0 <= d < NCONTAINER -> alive k d = true ->
  exists c, next_alive k cur = Some c /\ alive k c = true /\ 0 <= c < NCONTAINER /\
    (c = d \/ distance c d < distance cur d).
Proof.
  intros Hcur Hd Hal. unfold next_alive.
  destruct (scan _ _ 1) as [c|] eqn:E.
  - apply scan_Some in E as (j & Hj & Hf & Hbefore). cbv zeta in Hf.
    destruct (alive k ((cur + j) mod NCONTAINER)) eqn:Hc; [|done]. injection Hf as <-.
    exists ((cur + j) mod NCONTAINER). split_and!; [done|done|by apply Z.mod_pos_bound|by apply Z.mod_pos_bound|].
    assert (Hle : j <= distance cur d + 1).
    { destruct (decide (j <= distance cur d + 1)) as [|Hgt]; [done|exfalso].
      specialize (Hbefore (distance cur d + 1)). cbv zeta in Hbefore.
      assert ((cur + (distance cur d + 1)) mod NCONTAINER = d) as Heq.
      { unfold distance, NCONTAINER in *. dlia. }
      rewrite Heq, Hal in Hbefore. unfold distance, NCONTAINER in *.
      pose proof (Z.mod_pos_bound (d - cur - 1) 15). discriminate Hbefore. lia. }
    unfold distance, NCONTAINER in *. clear - Hj Hle Hcur Hd. dlia.
  - exfalso. rewrite scan_None in E. specialize (E (distance cur d + 1)). cbv zeta in E.
    assert ((cur + (distance cur d + 1)) mod NCONTAINER = d) as Heq.
    { unfold distance, NCONTAINER in *. dlia. }
    rewrite Heq, Hal in E. unfold distance, NCONTAINER in *.
    pose proof (Z.mod_pos_bound (d - cur - 1) 15). discriminate E. lia.
Qed.

(** The containers chosen by [n] successive calls. *)
Fixpoint choose (n : nat) : K (list Z) :=
  match n with
  | O => mret []
  | S n' => c ← get_container_to_run; cs ← choose n'; mret (c :: cs)
  end.

Lemma ct_ready_step k c :
  ct_ready k -> ct_ready (kst (k <| k_current_container := c |>) (settle (k_mach k))).
Proof. intros []. split; [apply settle_ok|apply lock_free_settle|]; done. Qed.

Lemma choose_serves n : forall k d,
  ct_ready k -> 0 <= k_current_container k < NCONTAINER ->
  0 <= d < NCONTAINER -> alive k d = true ->
  exists cs k', choose n k = Ret cs k' /\ length cs = n /\
    Forall (fun c => alive k c = true) cs /\ (distance (k_current_container k) d < Z.of_nat n -> d ∈ cs).
Proof.
  induction n as [|n IH]; intros k d Hr Hcur Hd Hal.
  - exists [], k. split_and!; try done. unfold distance, NCONTAINER. intros H.
    pose proof (Z.mod_pos_bound (d - k_current_container k - 1) 15). lia.
  - destruct (next_alive_closer k _ d Hcur Hd Hal) as (c & Hn & Hac & Hc & Hcl).
    pose proof (get_container_to_run_ok k Hr Hcur) as Hrun. rewrite Hn in Hrun. simpl in Hrun.
    destruct (IH _ d (ct_ready_step k c Hr)) as (cs & k' & Hch & Hlen & Hall & Hin); [done..|].
    exists (c :: cs), k'. cbn [choose]. run Hrun. run Hch. split_and!; [done|by simpl; f_equal| |].
    + by constructor.
    + intros Hlt. destruct Hcl as [->|Hcl]; [set_solver|]. apply elem_of_cons. right. apply Hin.
      rewrite Nat2Z.inj_succ in Hlt. ksimpl. lia.
Qed.
End round_robin.

(** C33. Round robin is fair: while the set of containers does not change, every
    alive container is chosen at least once in any [NCONTAINER] successive
    calls of [get_container_to_run], and only alive containers are chosen. *)
Theorem get_container_to_run_fair (k : kernel) (d : Z) :
  ct_ready k -> 0 <= k_current_container k < NCONTAINER ->
  0 <= d < NCONTAINER -> alive k d = true ->
  exists cs k', choose (Z.to_nat NCONTAINER) k = Ret cs k' /\ d ∈ cs /\
    Forall (fun c => alive k c = true) cs.
Proof.
  intros Hr Hcur Hd Hal.
  destruct (choose_serves (Z.to_nat NCONTAINER) k d) as (cs & k' & Hch & _ & Hall & Hin); [done..|].
  exists cs, k'. split_and!; [done|apply Hin|done]. by apply Z.mod_pos_bound.
Qed.

(** ** The files of a container *)

(** The name [file_in_container] looks for: "name" in container 0, and
    "name$c" with the digit [c] elsewhere. *)
Definition tagged (name : list Z) (cid : Z) : list Z :=
  if cid =? 0 then name else name ++ [36; cid + 48].

(** The [n] bytes from [p] lie outside the page [a]. *)
Definition off_page (a p n : Z) : Prop := p + n <= a \/ a + PGSIZE <= p.

Definition off_page_str (m : mem) (a p : Z) (s : list Z) : Prop :=
  cstr m p s /\ off_page a p (alen s + 1).

Section files.
Implicit Types (k : kernel) (a s cid : Z) (name : list Z).

Lemma k_strlen_ok k p str : cstr (k_mem k) p str -> alen str < 2 ^ 32 -> k_strlen p k = Ret (alen str) k.
Proof. intros H1 H2. unfold k_strlen. mstep. by rewrite (strlen_ok _ _ str). Qed.

Lemma off_page_frame m m' a p str :
  (forall x, ~ (a <= x < a + PGSIZE) -> m' x = m x) -> off_page_str m a p str -> off_page_str m' a p str.
Proof.
  intros Hm [Hs Ho]. split; [|done]. eapply cstr_frame; [done|]. intros i Hi. apply Hm.
  unfold off_page in Ho. lia.
Qed.

(** The buffer [file_in_container] builds in a fresh page. *)
Lemma tag_buffer m a s name cid :
  mem_ok m -> off_page_str m a s name -> alen name + 3 <= PGSIZE -> 0 <= cid < NCONTAINER ->
  let m1 := strncpy m a s (alen name + 1) in
  let m2 := if cid =? 0 then m1
            else store8 (store8 (store8 m1 (a + alen name) 36) (a + alen name + 1) (cid + 48))
                        (a + alen name + 2) 0 in
  cstr m2 a (tagged name cid) /\ (forall x, ~ (a <= x < a + PGSIZE) -> m2 x = m x).
Proof.
  intros Hm [Hs Ho] Hlen Hcid m1 m2. pose proof (alen_nonneg name).
  assert (Hd : a + alen name < s \/ s + alen name < a).
  { unfold off_page, PGSIZE in *. lia. }
  assert (Hm1 : forall x, m1 x = if within a (alen name + 1) x then m (x - a + s) else m x).
  { intros x. by apply strncpy_whole. }
  assert (Hs1 : cstr m1 a name).
  { eapply cstr_move; [exact Hs|]. intros i Hi. rewrite Hm1, within_true by lia. f_equal. lia. }
  subst m2. unfold tagged. destruct (Z.eqb_spec cid 0).
  - split; [done|]. intros x Hx. rewrite Hm1, within_false by lia. done.
  - split; [apply cstr_append2; [done|lia|unfold NCONTAINER in *; lia]|].
    intros x Hx. rewrite !store8_ne, Hm1, within_false by lia. done.
Qed.

Lemma strncmp_prefix m p q u v :
  cstr m p u -> cstr m q v -> (strncmp m p q (alen v) =? 0) = bool_decide (v `prefix_of` u).
Proof.
  intros Hu Hv. pose proof (strncmp_loop_zero m p q u v (length v) Hu Hv) as H.
  unfold strncmp, alen. rewrite Nat2Z.id. rewrite (take_ge v) in H by done.
  assert (Hpre : v `prefix_of` u <-> take (length v) u = v).
  { split; [intros [w ->]; by rewrite take_app_length|]. intros <-. apply prefix_take. }
  case_bool_decide as E; rewrite Hpre, <- H in E; [by apply Z.eqb_eq|by apply Z.eqb_neq].
Qed.

(** What the search loop over a table of names computes. *)
Lemma scan_names (P : list Z -> bool) (names : list (list Z)) :
  alen names <= 100 ->
  default 0 (scan (fun i => match aget names i with
                            | Some nm => if P nm then Some 1 else None
                            | None => Some 0
                            end) 100 0) = if existsb P names then 1 else 0.
Proof.
  intros Hlen. destruct (existsb P names) eqn:E.
  - apply existsb_exists in E as (nm & Hin & HP). apply list_elem_of_In, list_elem_of_lookup in Hin as [j Hj].
    pose proof (lookup_lt_Some _ _ _ Hj). unfold alen in Hlen.
    destruct (scan _ 100 0) as [b|] eqn:Es.
    + apply scan_Some in Es as (i & Hi & Hf & Hb). destruct (aget names i) as [nm'|] eqn:Hg.
      { destruct (P nm'); [by injection Hf as <-|done]. }
      assert (Hji : 0 <= Z.of_nat j < i).
      { split; [lia|]. destruct (decide (Z.of_nat j < i)); [done|].
        destruct (aget_is_Some names i) as [x Hx]; [unfold alen; lia|congruence]. }
      specialize (Hb _ Hji). rewrite aget_nat, Hj, HP in Hb. done.
    + rewrite scan_None in Es. specialize (Es (Z.of_nat j)). rewrite aget_nat, Hj, HP in Es.
      discriminate Es. lia.
  - assert (Hno : forall i nm, aget names i = Some nm -> P nm = false).
    { intros i nm Hg. apply not_true_is_false. intros HP.
      rewrite <- not_true_iff_false, existsb_exists in E. apply E. exists nm. split; [|done].
      apply list_elem_of_In. unfold aget in Hg. destruct (0 <=? i); [|done].
      by eapply list_elem_of_lookup_2. }
    destruct (scan _ 100 0) as [b|] eqn:Es; [|done].
    apply scan_Some in Es as (i & Hi & Hf & Hb). destruct (aget names i) as [nm'|] eqn:Hg.
    + by rewrite (Hno _ _ Hg) in Hf.
    + by injection Hf as <-.
Qed.

(** Container [cid] has registered the files [names], their names lying
    outside the page [a]. *)
Definition registered k a cid (names : list (list Z)) : Prop :=
  exists c, aget (k_container k) cid = Some c /\ ct_last_file_index c = alen names /\
    alen names <= 100 /\
    forall i nm, aget names i = Some nm -> alen nm < 2 ^ 32 /\
      exists p, aget (ct_files c) i = Some p /\ off_page_str (k_mem k) a p nm.

(** The state after the call: one page gone from the free list, its contents
    overwritten, and the locks as before. *)
Definition page_gone k k' a (l : list Z) : Prop :=
  free_pages k' l /\ (forall x, ~ (a <= x < a + PGSIZE) -> k_mem k' x = k_mem k x) /\
  k_container k' = k_container k /\ k_mach k' = settle (kmem_mach k).

Lemma kmem_mach_ok k : mach_ok (k_mach k) -> mach_ok (kmem_mach k).
Proof. intros H. unfold kmem_mach. destruct (_ =? 0); auto with mach. Qed.

Lemma kmem_mach_free k l : lock_free l (k_mach k) -> lock_free l (kmem_mach k).
Proof. intros H. unfold kmem_mach. destruct (_ =? 0); auto with mach. Qed.

(** The search loop. *)
Lemma search_ok k a cid names tg :
  registered k a cid names -> cstr (k_mem k) a tg -> alen tg < 2 ^ 32 ->
  for_ 100 0 (fun i =>
    c ← ct_at cid;
    if i <? ct_last_file_index c then
      f ← rd "files_of_container" (ct_files c) i;
      len ← k_strlen a;
      k ← get;
      mret (if strncmp (k_mem k) f a len =? 0 then Some 1 else None)
    else mret (Some 0)) k =
  Ret (scan (fun i => match aget names i with
                      | Some nm => if bool_decide (tg `prefix_of` nm) then Some 1 else None
                      | None => Some 0
                      end) 100 0) k.
Proof.
  intros (c & Hc & Hl & _ & Hf) Htg Hlen. apply for_scan. intros i Hi.
  run ct_at_ok; [|done]. rewrite Hl. destruct (Z.ltb_spec i (alen names)).
  - destruct (aget_is_Some names i) as [nm Hnm]; [lia|]. rewrite Hnm.
    destruct (Hf _ _ Hnm) as (Hnl & p & Hp & Hs & _).
    run (rd_Some _ _ _ _ _ Hp). run k_strlen_ok; [|done..]. mstep.
    by rewrite (strncmp_prefix _ _ _ nm tg).
  - by rewrite aget_None by lia.
Qed.
End files.

(** [file_in_container] answers whether the container has registered a file
    whose name starts with the tagged name; and each call takes a page from
    the free list that it never gives back. *)
Theorem file_in_container_spec (k : kernel) (s cid a : Z) (l : list Z) (name : list Z)
    (names : list (list Z)) :
  ct_ready k -> kmem_ready k -> mem_ok (k_mem k) -> free_pages k (a :: l) ->
  off_page_str (k_mem k) a s name -> alen name + 3 <= PGSIZE -> 0 <= cid < NCONTAINER ->
  registered k a cid names ->
  exists k', file_in_container s cid k =
      Ret (if existsb (fun nm => bool_decide (tagged name cid `prefix_of` nm)) names then 1 else 0) k' /\
    page_gone k k' a l.
Proof.
  intros [Hok Hlk Hlen] Hkm Hm Hfp Hs Hnl Hcid Hreg.
  pose proof (tag_buffer _ _ _ _ cid Hm Hs Hnl Hcid) as [Htg Hout].
  assert (Hnl32 : alen name < 2 ^ 32) by (unfold PGSIZE in *; lia).
  destruct (free_pages_pop _ _ _ Hfp) as (Hfa & Ha0 & Hpa & Hal & Hfl).
  unfold file_in_container. run (k_strlen_ok k s name); [|apply Hs|done].
  run kalloc_run; [|done]. rewrite Hfa. destruct (Z.eqb_spec a 0); [done|].
  run (k_strlen_ok _ s name); [|apply Hs|done]. mstep. knorm.
  set (m1 := strncpy (k_mem k) a s (alen name + 1)) in *. cbv zeta in Htg, Hout.
  set (m2 := if cid =? 0 then m1 else _) in *.
  assert (Hwhen : forall k0, k_mem k0 = m1 -> when (negb (cid =? 0))
      (poke (a + alen name) 36 ;;; poke (a + alen name + 1) (cid + 48) ;;; poke (a + alen name + 2) 0) k0 =
      Ret tt (k0 <| k_mem := m2 |>)).
  { intros k0 Hk0. subst m2. rewrite <- Hk0. destruct (cid =? 0); simpl.
    - unfold mret, M_ret. f_equal. by destruct k0.
    - mstep. by mstep. }
  run Hwhen; [|done]. knorm.
  run acquire_ok; [|ksimpl; auto using kmem_mach_ok, kmem_mach_free..]. knorm.
  run (search_ok _ a cid names (tagged name cid)); [| |done|].
  - erewrite bind_Ret by (apply (release_acq _ _ (kmem_mach k)); ksimpl;
      auto using kmem_mach_ok, kmem_mach_free). knorm.
    rewrite scan_names by by destruct Hreg as (? & _ & _ & ? & _).
    eexists. split; [done|]. split_and!; [|done..]. apply free_pages_kst.
    apply free_pages_mem; [done|]. by apply (link_frame (k_end k) _ _ a l Hpa (fp_pages _ _ Hfl) Hal).
  - destruct Hreg as (c & Hc & Hl & Hle & Hf). exists c. split_and!; [done..|].
    intros i nm Hi. destruct (Hf i nm Hi) as (Hb & p & Hp & Ho). split; [done|]. exists p.
    split; [done|]. ksimpl. by eapply off_page_frame.
  - unfold tagged. destruct (cid =? 0); [done|]. rewrite alen_app. unfold PGSIZE, alen in *. simpl. lia.
Qed.

(** A container with two files, "a$1" and "ab$1", and a free page. *)
Definition files_mem : mem :=
  mem_at 100 [97; 36; 49; 0] (mem_at 200 [97; 98; 36; 49; 0] (mem_at 300 [97; 98; 0] (fun _ => 0))).
Definition kernel_files : kernel :=
  (kernel0 0x80400000) <| k_mem := files_mem |> <| k_freelist := 0x80400000 |>
    <| k_container := [cont0; cont0 <| ct_status := 1 |> <| ct_last_file_index := 2 |>
         <| ct_files := 100 :: 200 :: replicate 98 0 |>] ++ replicate 13 cont0 |>
    <| k_mach ::= fun mc => mc <| m_locks := {[container_lock := mklock "container_table" false None]} |> |>.

Lemma kernel_files_ready : ct_ready kernel_files.
Proof. split; [by exists 0, (mkcpu 0 0 false None); split_and!|by eexists|done]. Qed.

Lemma get_container_lowest_witness :
  ct_ready kernel_files /\ exists k', get_container kernel_files = Ret 2 k'.
Proof.
  split; [exact kernel_files_ready|].
  destruct (get_container_lowest kernel_files kernel_files_ready)
    as [(i & c & Hi & Hc & Hs & Hj & Hrun)|[Hall _]].
  - assert (i = 2) as <-; [|by eexists].
    destruct (decide (i = 1)) as [->|]; [by injection Hc as <-|].
    destruct (decide (i = 2)) as [|]; [done|]. exfalso. apply (Hj 2); [lia|done].
  - exfalso. by apply (Hall 2).
Defined.

Lemma get_container_to_run_fair_witness :
  exists cs k', choose (Z.to_nat NCONTAINER) kernel_files = Ret cs k' /\ 1 ∈ cs /\
    Forall (fun c => alive kernel_files c = true) cs.
Proof. by apply (get_container_to_run_fair kernel_files 1 kernel_files_ready). Defined.

Lemma file_in_container_spec_witness :
  (exists k', file_in_container 300 1 kernel_files = Ret 1 k' /\
     page_gone kernel_files k' 0x80400000 []).
Proof.
  assert (H1 : cstr files_mem 100 [97; 36; 49]).
  { apply (mem_at_cstr 100 [97; 36; 49]). by repeat constructor. }
  assert (H2 : cstr files_mem 200 [97; 98; 36; 49]).
  { apply mem_at_other; [|by right]. apply (mem_at_cstr 200 [97; 98; 36; 49]). by repeat constructor. }
  assert (H3 : cstr files_mem 300 [97; 98]).
  { do 2 (apply mem_at_other; [|by right]). apply (mem_at_cstr 300 [97; 98]). by repeat constructor. }
  apply (file_in_container_spec kernel_files 300 1 0x80400000 [] [97; 98] [[97; 36; 49]; [97; 98; 36; 49]]);
    [exact kernel_files_ready|done| | | |done|done|].
  - do 3 (apply mem_at_ok; [by repeat constructor|]). done.
  - split; [done| |].
    + apply Forall_singleton. unfold page_ok. by split_and!.
    + apply NoDup_singleton.
  - split; [exact H3|by left].
  - eexists. split_and!; [done..|]. intros i nm Hi.
    pose proof (aget_lt _ _ _ Hi) as Hr. change (alen _) with 2 in Hr.
    assert (i = 0 \/ i = 1) as [-> | ->] by lia; injection Hi as <-;
      (split; [done|]); (eexists; split; [done|split; [done|by left]]).
Defined.

Lemma destroy_container_kernel_spec_witness :
  exists k', destroy_container_kernel 1 kernel_files = Ret (-1) k' /\ alive k' 1 = false.
Proof.
  eexists. split.
  - apply (destroy_container_kernel_spec kernel_files 1 _ kernel_files_ready eq_refl eq_refl).
  - done.
Defined.
