(* ===== verification/Proc.v ===== *)
(** * Processes and scheduling ([proc.c])

    The process table: sleeping and waking, killing, signals, the per-process
    message buffers, the scheduler and waiting for children.  [swtch] is the
    [Switch] outcome of the kernel monad: the code after it continues in
    whatever state the machine is in when the context is resumed. *)

From S2P Require Import Prelude State Spinlock CString Kalloc Console Vm Message Container.
Open Scope Z_scope.

Definition ptable_lock : lockid := ("ptable", 0).

Definition procbuffer_lock (i : Z) : K lockid :=
  if within 0 NPROC i then mret ("procbuffer_lock", i) else fault "procbuffer_lock".

(** ** Access to the table *)

Definition p_at (i : Z) : K proc := k ← get; rd "proc" (k_proc k) i.
Definition p_set (i : Z) (f : proc -> proc) : K unit :=
  p ← p_at i;
  k ← get;
  ps ← wr "proc" (k_proc k) i (f p);
  modify (fun k => k <| k_proc := ps |>).

(** A process pointer that may be null. *)
Definition deref (p : option nat) : K Z :=
  match p with Some i => mret (Z.of_nat i) | None => fault "null proc" end.

(** The bytes of [p->name] up to the NUL. *)
Fixpoint cname (s : list Z) : list Z :=
  match s with
  | [] => []
  | c :: s' => if c =? 0 then [] else c :: cname s'
  end.

Definition swtch : K unit := fun k => Switch k (fun k' => Ret tt k').

(** ** Initialisation and the built-in signal handlers *)

Definition pinit : K unit :=
  initlock ptable_lock "ptable" ;;;
  each (Z.to_nat NPROC) 0 (fun i => l ← procbuffer_lock i; initlock l "procbuffer").

Definition ignoreHandler : K unit := cprintf (bytes "this is ignore Handler" ++ [10]) [].
Definition dflHandler : K unit := cprintf (bytes "This is default handler" ++ [10]) [].

(** [receive_msg] is given the address of a one-byte local variable, so a
    message that arrives is stored outside it. *)
Definition receiverHandler : K unit :=
  c ← myproc;
  i ← deref c;
  p ← p_at i;
  recvCode ← receive_gen (fun _ => fault "temp_junk") (mret tt) (p_pid p);
  cprintf (bytes "%d" ++ [10]) [AInt recvCode] ;;;
  (if recvCode <? 0 then cprintf (bytes "Error is receiving message" ++ [10]) []
   else fault "temp_junk") ;;;
  cprintf (bytes "this is the default handler for receiving messages" ++ [10]) [].

(** ** Sleeping and waking *)

(** [p] is not dereferenced before the first two checks. *)
Definition sched : K unit :=
  c ← myproc;
  h ← holding ptable_lock;
  if negb h then panic "sched ptable.lock"
  else
    i ← mycpu;
    cp ← cpu_at i;
    if negb (c_ncli cp =? 1) then panic "sched locks"
    else
      pi ← deref c;
      p ← p_at pi;
      if bool_decide (p_state p = RUNNING) then panic "sched running"
      else
        fl ← readeflags_if;
        if (fl : bool) then panic "sched interruptible"
        else
          i ← mycpu;
          cp ← cpu_at i;
          let intena := c_intena cp in
          swtch ;;;
          i ← mycpu;
          cp ← cpu_at i;
          cpu_set i (cp <| c_intena := intena |>).

Definition yield : K unit :=
  acquire ptable_lock ;;;
  c ← myproc;
  i ← deref c;
  p_set i (fun p => p <| p_state := RUNNABLE |>) ;;;
  sched ;;;
  release ptable_lock.

Definition sleep (ch : chan) (lk : option lockid) : K unit :=
  c ← myproc;
  match c, lk with
  | None, _ => panic "sleep"
  | _, None => panic "sleep without lk"
  | Some i, Some lk =>
      let i := Z.of_nat i in
      when (bool_decide (lk <> ptable_lock)) (acquire ptable_lock ;;; release lk) ;;;
      p_set i (fun p => p <| p_chan := ch |>) ;;;
      p_set i (fun p => p <| p_state := SLEEPING |>) ;;;
      sched ;;;
      p_set i (fun p => p <| p_chan := CInt 0 |>) ;;;
      when (bool_decide (lk <> ptable_lock)) (release ptable_lock ;;; acquire lk)
  end.

Definition wakeup1 (ch : chan) : K unit :=
  each (Z.to_nat NPROC) 0 (fun i =>
    p ← p_at i;
    when (bool_decide (p_state p = SLEEPING /\ p_chan p = ch))
      (p_set i (fun p => p <| p_state := RUNNABLE |>))).

Definition wakeup (ch : chan) : K unit :=
  acquire ptable_lock ;;;
  wakeup1 ch ;;;
  release ptable_lock.

Definition kill (pid : Z) : K Z :=
  acquire ptable_lock ;;;
  r ← for_ (Z.to_nat NPROC) 0 (fun i =>
    p ← p_at i;
    if p_pid p =? pid then
      p_set i (fun p => p <| p_killed := 1 |>) ;;;
      when (bool_decide (p_state p = SLEEPING)) (p_set i (fun p => p <| p_state := RUNNABLE |>)) ;;;
      release ptable_lock ;;;
      mret (Some 0)
    else mret None);
  match r with
  | Some v => mret v
  | None => release ptable_lock ;;; mret (-1)
  end.

(** Installed as a handler by nobody: it drops and retakes the table lock. *)
Definition killHandler : K unit :=
  c ← myproc;
  release ptable_lock ;;;
  i ← deref c;
  p ← p_at i;
  kill (p_pid p) ;;;
  acquire ptable_lock.

Definition sleep_receiver : K Z :=
  acquire ptable_lock ;;;
  c ← myproc;
  i ← deref c;
  p ← p_at i;
  sleep (CInt (p_pid p)) (Some ptable_lock) ;;;
  release ptable_lock ;;;
  mret 0.

(** ** Signals *)

Definition signal (signal_number handler : Z) : K Z :=
  if (0 <=? signal_number) && (signal_number <? NSIG) then
    c ← myproc;
    i ← deref c;
    p ← p_at i;
    hs ← wr "signalHandlers" (p_signalHandlers p) signal_number handler;
    p_set i (fun p => p <| p_signalHandlers := hs |>) ;;;
    mret 0
  else mret (-1).

(** The first process whose pid is [pid]. *)
Definition find_pid (pid : Z) : K (option Z) :=
  for_ (Z.to_nat NPROC) 0 (fun i =>
    p ← p_at i;
    mret (if p_pid p =? pid then Some i else None)).

Definition sigraise (pid signal_number : Z) : K Z :=
  acquire ptable_lock ;;;
  r ← find_pid pid;
  match r with
  | None => release ptable_lock ;;; mret (-1)
  | Some i =>
      p ← p_at i;
      ps ← wr "pendingSignals" (p_pendingSignals p) signal_number 1;
      p_set i (fun p => p <| p_pendingSignals := ps |>) ;;;
      release ptable_lock ;;;
      mret 0
  end.

(** ** The per-process message buffer *)

(** When no process has the pid the loop leaves [p] one past the table. *)
Definition found_or_end (r : option Z) : Z := default NPROC r.

(** The two copying loops. *)
Definition buffer_in (i msg : Z) : K unit :=
  each (Z.to_nat (MessageSize - 1)) 1 (fun j =>
    k ← get;
    p ← p_at i;
    ws ← wr "msg_from_multicast" (p_msg_from_multicast p) j (load32 (k_mem k) (msg + 4 * (j - 1)));
    p_set i (fun p => p <| p_msg_from_multicast := ws |>)).
Definition buffer_out (i msg : Z) : K unit :=
  each (Z.to_nat (MessageSize - 1)) 1 (fun j =>
    p ← p_at i;
    w ← rd "msg_from_multicast" (p_msg_from_multicast p) j;
    modify (fun k => k <| k_mem ::= fun m => store32 m (msg + 4 * (j - 1)) w |>)).

Definition sent_to_proc_buffer (s_pid r_pid msg : Z) : K Z :=
  l ← procbuffer_lock r_pid;
  acquire l ;;;
  acquire ptable_lock ;;;
  r ← find_pid r_pid;
  buffer_in (found_or_end r) msg ;;;
  release ptable_lock ;;;
  release l ;;;
  mret 0.

Definition receive_from_procbuffer (myid msg : Z) : K Z :=
  l ← procbuffer_lock myid;
  acquire l ;;;
  acquire ptable_lock ;;;
  r ← find_pid myid;
  buffer_out (found_or_end r) msg ;;;
  release ptable_lock ;;;
  release l ;;;
  mret 0.

(** ** Containers of processes *)

Definition destroy_container_processes (pid a pcid : Z) : K Z :=
  acquire ptable_lock ;;;
  each (Z.to_nat NPROC) 0 (fun i =>
    p ← p_at i;
    when ((p_container_id p =? a) && negb (p_pid p =? pid)) (kill (p_pid p) ;;; mret tt)) ;;;
  release ptable_lock ;;;
  when (pcid =? a) (kill pid ;;; mret tt) ;;;
  mret 0.

Definition set_scheduler_logger (a : Z) : K unit :=
  modify (fun k => k <| k_scheduler_logger := a |>).

Definition ps_line (p : proc) : K unit :=
  cprintf (bytes "pid:%d name:%s" ++ [10]) [AInt (p_pid p); AStr (Some (cname (p_name p)))].

Definition print_ps (cid : Z) : K unit :=
  acquire ptable_lock ;;;
  each (Z.to_nat NPROC) 0 (fun i =>
    p ← p_at i;
    if bool_decide (p_state p <> UNUSED) && (p_container_id p =? cid) then ps_line p
    else when (bool_decide (p_state p <> UNUSED) && (cid =? 0)) (ps_line p)) ;;;
  release ptable_lock.

(** ** The process listing *)

(** The chain of return addresses from frame pointer [ebp], 10 at most. *)
Fixpoint pcs_from (n : nat) (m : mem) (ebp : Z) : list Z :=
  match n with
  | O => []
  | S n' =>
      if (ebp =? 0) || (ebp <? KERNBASE) || (ebp =? 0xffffffff) then replicate n 0
      else load32 m (ebp + 4) :: pcs_from n' m (load32 m ebp)
  end.
Definition getcallerpcs (v : Z) : K (list Z) :=
  k ← get; mret (pcs_from 10 (k_mem k) (u32 (v - 8))).

Fixpoint print_pcs (pcs : list Z) : K unit :=
  match pcs with
  | [] => mret tt
  | pc :: pcs' => if pc =? 0 then mret tt else cprintf (bytes " %p") [AInt pc] ;;; print_pcs pcs'
  end.

Definition state_name (s : procstate) : list Z :=
  match s with
  | UNUSED => bytes "unused"
  | EMBRYO => bytes "embryo"
  | SLEEPING => bytes "sleep "
  | RUNNABLE => bytes "runble"
  | RUNNING => bytes "run   "
  | ZOMBIE => bytes "zombie"
  end.

Definition procdump : K unit :=
  each (Z.to_nat NPROC) 0 (fun i =>
    p ← p_at i;
    if bool_decide (p_state p = UNUSED) then mret tt
    else
      cprintf (bytes "%d %s %s")
        [AInt (p_pid p); AStr (Some (state_name (p_state p))); AStr (Some (cname (p_name p)))] ;;;
      when (bool_decide (p_state p = SLEEPING))
        (pcs ← getcallerpcs (u32 (x_ebp (p_context p) + 8)); print_pcs pcs) ;;;
      cprintf [10] []).

(** ** The scheduler *)

(** Delivery of pending signal [j] to process [i], which is about to run. *)
Definition deliver (i j : Z) : K unit :=
  p ← p_at i;
  pend ← rd "pendingSignals" (p_pendingSignals p) j;
  when (0 <? pend)
    (h ← rd "signalHandlers" (p_signalHandlers p) j;
     (if h =? SIGIGN then ignoreHandler
      else if h =? SIGDFL then dflHandler
      else if h =? SIGMSGSENT then receiverHandler
      else
        virtual_address ← uva2ka (p_pgdir p) (tf_esp (p_tf p));
        let a2 := virtual_address + Z.land (u32 (tf_esp (p_tf p) - 4)) 0xFFF in
        st a2 (tf_eip (p_tf p)) ;;;
        p_set i (fun p => p <| p_tf ::= fun tf => tf <| tf_esp ::= fun e => u32 (e - 4) |> |>) ;;;
        p_set i (fun p => p <| p_tf ::= fun tf => tf <| tf_eip := h |> |>)) ;;;
     p ← p_at i;
     ps ← wr "pendingSignals" (p_pendingSignals p) j 0;
     p_set i (fun p => p <| p_pendingSignals := ps |>)).

(** Is process [p] eligible to run for container [cid]? *)
Definition eligible (cid : Z) (p : proc) : K bool :=
  if bool_decide (p_state p <> RUNNABLE) then mret false
  else
    c ← ct_at cid;
    m ← rd "container_processes" (ct_proc c) (p_pid p);
    mret (negb ((m =? 0) && negb (p_container_id p =? 0))).

(** Running process [i] from the scheduler of CPU [c]. *)
Definition run_process (c cid i : Z) : K unit :=
  p ← p_at i;
  lg ← gets k_scheduler_logger;
  when ((lg =? 1) && negb (p_container_id p =? 0))
    (cprintf (bytes "Container + %d : Scheduling process + %d" ++ [10]) [AInt cid; AInt (p_pid p)]) ;;;
  set_last_process_of_container i cid ;;;
  cp ← cpu_at c;
  cpu_set c (cp <| c_proc := Some (Z.to_nat i) |>) ;;;
  each (Z.to_nat NSIG) 0 (deliver i) ;;;
  switchuvm (Some (Z.to_nat i)) ;;;
  p_set i (fun p => p <| p_state := RUNNING |>) ;;;
  swtch ;;;
  switchkvm ;;;
  cp ← cpu_at c;
  cpu_set c (cp <| c_proc := None |>).

(** The search for a process, [n] candidates from [last_process]. *)
Fixpoint pick (n : nat) (cid last_process : Z) : K (option Z) :=
  match n with
  | O => mret None
  | S n' =>
      p ← p_at last_process;
      e ← eligible cid p;
      if (e : bool) then mret (Some last_process)
      else pick n' cid (Z.rem (last_process + 1) NPROC)
  end.

(** One round of the scheduler's endless loop. *)
Definition scheduler_round (c : Z) : K unit :=
  sti ;;;
  cid ← get_container_to_run;
  container_processes ← get_container_processes_to_run cid;
  last_process ← get_container_last_process cid;
  acquire ptable_lock ;;;
  r ← pick (Z.to_nat NPROC) container_processes (Z.rem (last_process + 1) NPROC);
  match r with Some i => run_process c cid i | None => mret tt end ;;;
  release ptable_lock.

(** [scheduler] never returns; [n] bounds the rounds. *)
Fixpoint scheduler_loop (n : nat) (c : Z) : K unit :=
  match n with
  | O => fun _ => Diverge
  | S n' => scheduler_round c ;;; scheduler_loop n' c
  end.
Definition scheduler (n : nat) : K unit :=
  c ← mycpu;
  cp ← cpu_at c;
  cpu_set c (cp <| c_proc := None |>) ;;;
  scheduler_loop n c.

(** ** Creating and reaping processes *)

(** The part of [allocproc] from the label [found] on. *)
Definition alloc_tail (i : Z) : K (option Z) :=
  p_set i (fun p => p <| p_state := EMBRYO |>) ;;;
  pid ← gets k_nextpid;
  p_set i (fun p => p <| p_pid := pid |>) ;;;
  modify (fun k => k <| k_nextpid := i32 (pid + 1) |>) ;;;
  release ptable_lock ;;;
  ks ← kalloc;
  p_set i (fun p => p <| p_kstack := ks |>) ;;;
  if ks =? 0 then p_set i (fun p => p <| p_state := UNUSED |>) ;;; mret None
  else
    let sp := ks + KSTACKSIZE - 76 - 4 in
    tr ← gets k_trapret;
    fr ← gets k_forkret;
    st sp tr ;;;
    p_set i (fun p => p <| p_context := ctx0 <| x_eip := fr |> |>) ;;;
    p_set i (fun p => p <| p_pendingSignals := replicate (Z.to_nat NSIG) 0 |>
                        <| p_signalHandlers :=
                             <[Z.to_nat SIGMSGSENT := SIGMSGSENT]> (replicate (Z.to_nat NSIG) SIGIGN) |>
                        <| p_msg_from_multicast := replicate (Z.to_nat MessageSize) 0 |>
                        <| p_container_id := 0 |>) ;;;
    mret (Some i).

Definition allocproc : K (option Z) :=
  acquire ptable_lock ;;;
  r ← for_ (Z.to_nat NPROC) 0 (fun i =>
    p ← p_at i; mret (if bool_decide (p_state p = UNUSED) then Some i else None));
  match r with
  | None => release ptable_lock ;;; mret None
  | Some i => alloc_tail i
  end.

Definition growproc (n : Z) : K Z :=
  c ← myproc;
  i ← deref c;
  p ← p_at i;
  let sz := p_sz p in
  r ← (if 0 <? n then
         s ← allocuvm (p_pgdir p) sz (u32 (sz + n)); mret (if s =? 0 then None else Some s)
       else if n <? 0 then
         s ← deallocuvm (p_pgdir p) sz (u32 (sz + n)); mret (if s =? 0 then None else Some s)
       else mret (Some sz));
  match r with
  | None => mret (-1)
  | Some sz =>
      p_set i (fun p => p <| p_sz := sz |>) ;;;
      switchuvm c ;;;
      mret 0
  end.

(** One scan of the table for an exited child of [me]: [inl pid] when one was
    reaped, otherwise whether there are children at all. *)
Definition reap (me : option nat) : K (Z + bool) :=
  (fix go (n : nat) (i : Z) (havekids : bool) : K (Z + bool) :=
    match n with
    | O => mret (inr havekids)
    | S n' =>
        p ← p_at i;
        if bool_decide (p_parent p <> me) then go n' (i + 1) havekids
        else if bool_decide (p_state p = ZOMBIE) then
          let pid := p_pid p in
          kfree (p_kstack p) ;;;
          p_set i (fun p => p <| p_kstack := 0 |>) ;;;
          freevm (p_pgdir p) ;;;
          p_set i (fun p => p <| p_pid := 0 |> <| p_parent := None |>) ;;;
          nm ← wr "name" (p_name p) 0 0;
          p_set i (fun p => p <| p_name := nm |> <| p_killed := 0 |> <| p_state := UNUSED |>) ;;;
          release ptable_lock ;;;
          mret (inl pid)
        else go n' (i + 1) true
    end) (Z.to_nat NPROC) 0 false.

Fixpoint wait_loop (fuel : nat) (me : option nat) : K Z :=
  match fuel with
  | O => fun _ => Diverge
  | S fuel' =>
      r ← reap me;
      match r with
      | inl pid => mret pid
      | inr false => release ptable_lock ;;; mret (-1)
      | inr true =>
          i ← deref me;
          p ← p_at i;
          if negb (p_killed p =? 0) then release ptable_lock ;;; mret (-1)
          else sleep (CProc (Z.to_nat i)) (Some ptable_lock) ;;; wait_loop fuel' me
      end
  end.

(** [fuel] bounds how often the caller is woken. *)
Definition wait (fuel : nat) : K Z :=
  c ← myproc;
  acquire ptable_lock ;;;
  wait_loop fuel c.

(** ** The table *)

Section table.
Implicit Types (k : kernel) (p : proc) (i : Z).

(** The table lock is free and the table has its static size. *)
Record pt_ready k : Prop := {
  pr_ok : mach_ok (k_mach k);
  pr_lock : lock_free ptable_lock (k_mach k);
  pr_len : alen (k_proc k) = NPROC }.

Lemma p_at_ok k i p : aget (k_proc k) i = Some p -> p_at i k = Ret p k.
Proof. intros H. unfold p_at. mstep. by apply rd_Some. Qed.

Lemma p_set_ok k i p f :
  aget (k_proc k) i = Some p -> p_set i f k = Ret tt (k <| k_proc ::= <[Z.to_nat i := f p]> |>).
Proof.
  intros H. unfold p_set. run p_at_ok; [|done]. mstep. run wr_Some; [done|by eapply aget_lt].
Qed.

Lemma proc_get k i : alen (k_proc k) = NPROC -> 0 <= i < NPROC -> exists p, aget (k_proc k) i = Some p.
Proof. intros Hl Hi. apply aget_is_Some. lia. Qed.

(** A loop over the table that updates each entry on its own. *)
Lemma each_procs k (f : proc -> proc) (body : Z -> K unit) :
  alen (k_proc k) = NPROC ->
  (forall i p k', aget (k_proc k') i = Some p ->
     body i k' = Ret tt (k' <| k_proc ::= <[Z.to_nat i := f p]> |>)) ->
  each (Z.to_nat NPROC) 0 body k = Ret tt (k <| k_proc ::= fmap f |>).
Proof.
  intros Hlen Hbody.
  destruct (each_ind (fun i k' => exists ps, k' = k <| k_proc := ps |> /\ alen ps = NPROC /\
      (forall j, 0 <= j < i -> aget ps j = f <$> aget (k_proc k) j) /\
      (forall j, i <= j -> aget ps j = aget (k_proc k) j))
    (Z.to_nat NPROC) 0 body k) as (k' & Hrun & ps & -> & Hl & Hlo & _).
  - exists (k_proc k). split_and!; [by destruct k|done|lia|done].
  - intros i ? Hi (ps & -> & Hl & Hlo & Hhi). destruct (aget_is_Some ps i) as [p Hp].
    { unfold NPROC in *. lia. }
    eexists. split; [by apply (Hbody i p)|]. exists (<[Z.to_nat i := f p]> ps). split_and!.
    + by destruct k.
    + by rewrite alen_insert.
    + intros j Hj. rewrite aget_insert by (unfold NPROC in *; lia). case_decide as E.
      * subst j. by rewrite <- (Hhi i), Hp by lia.
      * apply Hlo. lia.
    + intros j Hj. rewrite aget_insert_ne by lia. apply Hhi. lia.
  - rewrite Hrun. f_equal. destruct k; req. simpl in *. apply list_eq. intros j.
    rewrite list_lookup_fmap. destruct (decide (Z.of_nat j < NPROC)) as [Hj|Hj].
    + specialize (Hlo (Z.of_nat j) ltac:(lia)). by rewrite !aget_nat in Hlo.
    + rewrite !lookup_ge_None_2; [done|unfold alen in Hlen; lia|unfold alen in Hl; lia].
Qed.

(** What [wakeup(ch)] does to one process. *)
Definition wake (ch : chan) p : proc :=
  if bool_decide (p_state p = SLEEPING /\ p_chan p = ch) then p <| p_state := RUNNABLE |> else p.

Lemma insert_same {A} (l : list A) i x : aget l i = Some x -> <[Z.to_nat i := x]> l = l.
Proof. unfold aget. destruct (0 <=? i); [|done]. apply list_insert_id. Qed.

Lemma proc_insert_same k i p : aget (k_proc k) i = Some p -> k <| k_proc ::= <[Z.to_nat i := p]> |> = k.
Proof. intros H. destruct k; req. simpl in *. by rewrite insert_same. Qed.

Lemma wakeup1_ok ch k :
  alen (k_proc k) = NPROC -> wakeup1 ch k = Ret tt (k <| k_proc ::= fmap (wake ch) |>).
Proof.
  intros Hl. apply each_procs; [done|]. intros i p k' Hp. run p_at_ok; [|done]. unfold wake, when.
  case_bool_decide; [by apply p_set_ok|]. by rewrite proc_insert_same.
Qed.

Lemma wakeup_ok ch k :
  pt_ready k -> wakeup ch k = Ret tt (kst (k <| k_proc ::= fmap (wake ch) |>) (settle (k_mach k))).
Proof.
  intros [Hok Hlk Hlen]. unfold wakeup. run acquire_ok; [|done..]. run wakeup1_ok; [|done]. knorm.
  by rewrite (release_acq _ _ (k_mach k)) by mach.
Qed.
End table.

(** [wakeup] makes exactly the processes sleeping on the channel runnable:
    every other process, and every other field, stays as it was. *)
Theorem wakeup_exact (ch : chan) (k : kernel) :
  pt_ready k ->
  exists k', wakeup ch k = Ret tt k' /\
    k' = kst (k <| k_proc := k_proc k' |>) (settle (k_mach k)) /\
    forall i p, aget (k_proc k) i = Some p ->
      exists p', aget (k_proc k') i = Some p' /\
        (p_state p = SLEEPING /\ p_chan p = ch -> p' = p <| p_state := RUNNABLE |>) /\
        (~ (p_state p = SLEEPING /\ p_chan p = ch) -> p' = p).
Proof.
  intros Hpt. eexists. split; [by apply wakeup_ok|]. split; [by destruct k|].
  intros i p Hp. exists (wake ch p). split.
  - simpl. by rewrite aget_fmap, Hp.
  - unfold wake. split; intros H; [by rewrite bool_decide_true|by rewrite bool_decide_false].
Qed.

(** ** Finding a process by its id *)

Section find.
Implicit Types (k : kernel) (p : proc) (i pid : Z).

(** The first table index holding [pid]. *)
Definition index_of (ps : list proc) (pid : Z) : option Z :=
  scan (fun i => match aget ps i with
                 | Some p => if p_pid p =? pid then Some i else None
                 | None => None
                 end) (Z.to_nat NPROC) 0.

Lemma index_of_Some ps pid i :
  index_of ps pid = Some i ->
  0 <= i < NPROC /\ (exists p, aget ps i = Some p /\ p_pid p = pid) /\
  forall j p, 0 <= j < i -> aget ps j = Some p -> p_pid p <> pid.
Proof.
  intros H. apply scan_Some in H as (i' & Hi & Hf & Hb). cbv beta in *.
  destruct (aget ps i') as [p|] eqn:Hp; [|done].
  destruct (Z.eqb_spec (p_pid p) pid); [|done]. injection Hf as ->. split; [unfold NPROC in *; lia|].
  split; [by exists p|]. intros j q Hj Hq E. specialize (Hb j Hj). rewrite Hq, E, Z.eqb_refl in Hb. done.
Qed.

Lemma index_of_None ps pid :
  alen ps = NPROC -> index_of ps pid = None -> forall p, p ∈ ps -> p_pid p <> pid.
Proof.
  intros Hl H p Hp E. unfold index_of in H. rewrite scan_None in H.
  apply list_elem_of_lookup in Hp as [j Hj]. pose proof (lookup_lt_Some _ _ _ Hj).
  specialize (H (Z.of_nat j)). rewrite aget_nat, Hj, E, Z.eqb_refl in H.
  discriminate H. unfold alen, NPROC in *. lia.
Qed.

Lemma find_pid_ok k pid : alen (k_proc k) = NPROC -> find_pid pid k = Ret (index_of (k_proc k) pid) k.
Proof.
  intros Hl. apply for_scan. intros i Hi. destruct (proc_get k i Hl) as [p Hp]; [unfold NPROC in *; lia|].
  run p_at_ok; [|done]. by rewrite Hp.
Qed.

(** What [kill] does to its target. *)
Definition killed p : proc :=
  if bool_decide (p_state p = SLEEPING) then p <| p_killed := 1 |> <| p_state := RUNNABLE |>
  else p <| p_killed := 1 |>.

Lemma kill_ok k pid :
  pt_ready k ->
  kill pid k =
    match index_of (k_proc k) pid with
    | Some i => match aget (k_proc k) i with
                | Some p => Ret 0 (kst (k <| k_proc ::= <[Z.to_nat i := killed p]> |>) (settle (k_mach k)))
                | None => Fault "proc"
                end
    | None => Ret (-1) (kst k (settle (k_mach k)))
    end.
Proof.
  intros [Hok Hlk Hlen]. unfold kill. run acquire_ok; [|done..].
  set (k1 := kst k (acq ptable_lock (k_mach k))).
  assert (Hno : forall j, 0 <= j < NPROC -> (forall p, aget (k_proc k) j = Some p -> p_pid p <> pid) ->
    (p ← p_at j;
     if p_pid p =? pid then
       p_set j (fun p => p <| p_killed := 1 |>) ;;;
       when (bool_decide (p_state p = SLEEPING)) (p_set j (fun p => p <| p_state := RUNNABLE |>)) ;;;
       release ptable_lock ;;; mret (Some 0)
     else mret None) k1 = Ret None k1).
  { intros j Hj Hne. destruct (proc_get k j Hlen Hj) as [p Hp]. run p_at_ok; [|done].
    specialize (Hne p Hp). by destruct (Z.eqb_spec (p_pid p) pid). }
  destruct (index_of (k_proc k) pid) as [i|] eqn:E.
  - apply index_of_Some in E as (Hi & (p & Hp & Hpid) & Hbefore). rewrite Hp.
    erewrite bind_Ret; [|eapply (for_found _ _ _ i)]; [reflexivity|unfold NPROC in *; lia| |].
    + intros j Hj. apply Hno; [lia|]. intros q Hq. by apply (Hbefore j).
    + cbv beta. run p_at_ok; [|done]. rewrite Hpid, Z.eqb_refl.
      run p_set_ok; [|done]. unfold k1. knorm.
      pose proof (aget_lt _ _ _ Hp) as Hlt.
      assert (Hw : forall k2, aget (k_proc k2) i = Some (p <| p_killed := 1 |>) ->
        when (bool_decide (p_state p = SLEEPING)) (p_set i (fun p => p <| p_state := RUNNABLE |>)) k2 =
        Ret tt (k2 <| k_proc ::= <[Z.to_nat i := killed p]> |>)).
      { intros k2 Hk2. unfold killed, when. case_bool_decide; [by erewrite p_set_ok|].
        by rewrite proc_insert_same. }
      run Hw; [|ksimpl; by apply aget_insert_eq]. knorm.
      erewrite bind_Ret by (apply (release_acq _ _ (k_mach k)); mach). knorm.
      unfold mret, M_ret. f_equal. destruct k. unfold kst, upd. simpl. f_equal.
      apply list_insert_insert_eq.
  - run for_skip; [|].
    + erewrite bind_Ret by (apply (release_acq _ _ (k_mach k)); mach). by knorm.
    + intros j Hj. apply Hno; [unfold NPROC in *; lia|]. intros q Hq.
      apply (index_of_None _ _ Hlen E). unfold aget in Hq. destruct (0 <=? j); [|done].
      by eapply list_elem_of_lookup_2.
Qed.
End find.

(** [kill] marks the first process with the given pid as killed, and makes
    it runnable if it was sleeping, so that it will notice; without such a
    process it returns -1.  Nothing else changes. *)
Theorem kill_spec (k : kernel) (pid : Z) :
  pt_ready k ->
  (exists i p, aget (k_proc k) i = Some p /\ p_pid p = pid /\
     (forall j q, 0 <= j < i -> aget (k_proc k) j = Some q -> p_pid q <> pid) /\
     kill pid k = Ret 0 (kst (k <| k_proc ::= <[Z.to_nat i := killed p]> |>) (settle (k_mach k))) /\
     p_killed (killed p) = 1 /\ p_state (killed p) <> SLEEPING) \/
  ((forall p, p ∈ k_proc k -> p_pid p <> pid) /\ kill pid k = Ret (-1) (kst k (settle (k_mach k)))).
Proof.
  intros Hr. rewrite kill_ok by done. destruct (index_of (k_proc k) pid) as [i|] eqn:E.
  - left. apply index_of_Some in E as (Hi & (p & Hp & Hpid) & Hbefore). exists i, p. rewrite Hp.
    split_and!; try done; unfold killed; by case_bool_decide.
  - right. split; [|done]. apply index_of_None; [apply Hr|done].
Qed.

(** ** Destroying the processes of a container *)

Section destroy.
Implicit Types (k : kernel) (p : proc).

(** A loop whose body panics at its first visible effect. *)
Lemma each_panic {S} (body : Z -> M S unit) n lo i s w :
  lo <= i < lo + Z.of_nat n -> (forall j, lo <= j < i -> body j s = Ret tt s) ->
  body i s = Panic w -> each n lo body s = Panic w.
Proof.
  revert lo. induction n as [|n IH]; intros lo Hi Hskip Hp; [lia|]. cbn [each].
  destruct (decide (lo = i)) as [->|]; [by apply bind_Panic|].
  run Hskip; [|lia]. apply IH; [lia| |done]. intros j Hj. apply Hskip. lia.
Qed.

Lemma each_idle {S} (body : Z -> M S unit) n lo s :
  (forall j, lo <= j < lo + Z.of_nat n -> body j s = Ret tt s) -> each n lo body s = Ret tt s.
Proof.
  revert lo. induction n as [|n IH]; intros lo H; [done|]. cbn [each].
  run H; [|lia]. apply IH. intros j Hj. apply H. lia.
Qed.

(** [acquire] inside a critical section of the same lock. *)
Lemma acquire_again k l : 
  mach_ok (k_mach k) -> acquire l (kst k (acq l (k_mach k))) = Panic "acquire".
Proof.
  intros Hok. eapply acquire_held; ksimpl; [by apply acq_ok|].
  rewrite acq_locks, lookup_insert_eq, cpu_of_acq by done. done.
Qed.

Definition victim (pid a : Z) p : bool := (p_container_id p =? a) && negb (p_pid p =? pid).
End destroy.

(** C31. [destroy_container_processes] calls [kill] while it holds the table
    lock, and [kill] takes that lock again: as soon as another process belongs
    to the container the kernel panics instead of killing it; without one the
    call is harmless, and kills the caller if it is a member itself. *)
Theorem destroy_container_processes_outcome (k : kernel) (pid a pcid : Z) :
  pt_ready k ->
  if existsb (victim pid a) (k_proc k) then
    destroy_container_processes pid a pcid k = Panic "acquire"
  else
    destroy_container_processes pid a pcid k =
      (when (pcid =? a) (kill pid ;;; mret tt) ;;; mret 0) (kst k (settle (k_mach k))).
Proof.
  intros [Hok Hlk Hlen]. unfold destroy_container_processes.
  set (k1 := kst k (acq ptable_lock (k_mach k))).
  assert (Hbody : forall j p, aget (k_proc k) j = Some p ->
    (p ← p_at j; when (victim pid a p) (kill (p_pid p) ;;; mret tt)) k1 =
    if victim pid a p then Panic "acquire" else Ret tt k1).
  { intros j p Hp. run p_at_ok; [|done]. destruct (victim pid a p); [|done]. simpl.
    apply bind_Panic. unfold kill. apply bind_Panic. by apply acquire_again. }
  run acquire_ok; [|done..]. fold k1.
  destruct (scan (fun i => match aget (k_proc k) i with
      | Some p => if victim pid a p then Some i else None | None => None end) (Z.to_nat NPROC) 0) as [i|] eqn:E.
  - apply scan_Some in E as (i' & Hi & Hf & Hb). cbv beta in *.
    destruct (aget (k_proc k) i') as [p|] eqn:Hp; [|done]. destruct (victim pid a p) eqn:Hv; [|done].
    assert (existsb (victim pid a) (k_proc k) = true) as ->.
    { apply existsb_exists. exists p. split; [|done]. apply list_elem_of_In.
      unfold aget in Hp. destruct (0 <=? i'); [|done]. by eapply list_elem_of_lookup_2. }
    apply bind_Panic. eapply (each_panic _ _ _ i'); [done| |].
    + intros j Hj. destruct (proc_get k j Hlen) as [q Hq]; [unfold NPROC in *; lia|].
      etransitivity; [exact (Hbody j q Hq)|]. specialize (Hb j Hj). rewrite Hq in Hb. by destruct (victim pid a q).
    + etransitivity; [exact (Hbody i' p Hp)|]. by rewrite Hv.
  - rewrite scan_None in E.
    assert (Hno : forall j q, aget (k_proc k) j = Some q -> victim pid a q = false).
    { intros j q Hq. pose proof (aget_lt _ _ _ Hq). specialize (E j). rewrite Hq in E.
      destruct (victim pid a q); [|done]. discriminate E. unfold NPROC in *; lia. }
    assert (existsb (victim pid a) (k_proc k) = false) as ->.
    { apply not_true_is_false. intros (q & Hin & Hv)%existsb_exists.
      apply list_elem_of_In, list_elem_of_lookup in Hin as [j Hj].
      rewrite <- aget_nat in Hj. by rewrite (Hno _ _ Hj) in Hv. }
    run each_idle; [|].
    + erewrite bind_Ret by (apply (release_acq _ _ (k_mach k)); mach). unfold k1. by knorm.
    + intros j Hj. destruct (proc_get k j Hlen) as [q Hq]; [unfold NPROC in *; lia|].
      etransitivity; [exact (Hbody j q Hq)|]. by rewrite (Hno _ _ Hq).
Qed.

(** [sigraise] records a pending signal for the first process with the pid
    and fails with -1 without one; the signal number is not checked, so a
    number outside the table of signals is a write outside the array. *)
Theorem sigraise_spec (k : kernel) (pid n : Z) :
  pt_ready k -> Forall (fun p => alen (p_pendingSignals p) = NSIG) (k_proc k) ->
  match index_of (k_proc k) pid with
  | None => sigraise pid n k = Ret (-1) (kst k (settle (k_mach k)))
  | Some i =>
      exists p, aget (k_proc k) i = Some p /\ p_pid p = pid /\
        sigraise pid n k =
          if within 0 NSIG n then
            Ret 0 (kst (k <| k_proc ::= <[Z.to_nat i :=
                     p <| p_pendingSignals := <[Z.to_nat n := 1]> (p_pendingSignals p) |>]> |>)
                  (settle (k_mach k)))
          else Fault "pendingSignals"
  end.
Proof.
  intros [Hok Hlk Hlen] Hsig. unfold sigraise.
  rewrite (bind_Ret _ _ _ _ _ (acquire_ok k ptable_lock Hok Hlk)).
  rewrite (bind_Ret _ _ _ _ _ (find_pid_ok (kst k (acq ptable_lock (k_mach k))) pid Hlen)). ksimpl.
  destruct (index_of (k_proc k) pid) as [i|] eqn:E.
  - apply index_of_Some in E as (Hi & (p & Hp & Hpid) & _). exists p. split_and!; [done..|].
    run p_at_ok; [|done].
    assert (Hl : alen (p_pendingSignals p) = NSIG).
    { rewrite Forall_forall in Hsig. apply Hsig. unfold aget in Hp. destruct (0 <=? i); [|done].
      by eapply list_elem_of_lookup_2. }
    destruct (within_spec 0 NSIG n) as [Hn|Hn].
    + run wr_Some; [|lia]. run p_set_ok; [|done]. knorm.
      erewrite bind_Ret by (apply (release_acq _ _ (k_mach k)); mach). by knorm.
    + apply bind_Fault, wr_None. lia.
  - erewrite bind_Ret by (apply (release_acq _ _ (k_mach k)); mach). by knorm.
Qed.

(** ** What the scheduler chooses *)

Section pick.
Implicit Types (k : kernel) (p : proc) (cid i last : Z).

(** Process [i] may run for container [cid]: it is runnable, and belongs to no
    container or to this one. *)
Definition runs k cid i : bool :=
  match aget (k_proc k) i, aget (k_container k) cid with
  | Some p, Some c =>
      bool_decide (p_state p = RUNNABLE) &&
      ((p_container_id p =? 0) || negb (default 0 (aget (ct_proc c) (p_pid p)) =? 0))
  | _, _ => false
  end.

(** Every runnable process has a pid that fits the membership table. *)
Definition pids_fit k : Prop :=
  forall i p, aget (k_proc k) i = Some p -> p_state p = RUNNABLE -> 0 <= p_pid p < NPROC.

Definition first_after k cid last : option Z :=
  scan (fun j => let i := (last + j) mod NPROC in if runs k cid i then Some i else None)
    (Z.to_nat NPROC) 1.

Lemma first_after_ext k k' cid last :
  k_proc k' = k_proc k -> k_container k' = k_container k ->
  first_after k' cid last = first_after k cid last.
Proof. intros H1 H2. unfold first_after, runs. by rewrite H1, H2. Qed.

Lemma eligible_ok k cid i p c :
  aget (k_proc k) i = Some p -> aget (k_container k) cid = Some c -> alen (ct_proc c) = NPROC ->
  (p_state p = RUNNABLE -> 0 <= p_pid p < NPROC) ->
  eligible cid p k = Ret (runs k cid i) k.
Proof.
  intros Hp Hc Hl Hpid. unfold eligible, runs. rewrite Hp, Hc.
  destruct (decide (p_state p = RUNNABLE)) as [Hs|Hs].
  - rewrite bool_decide_false by (intros H; by apply H). rewrite bool_decide_true by done.
    destruct (aget_is_Some (ct_proc c) (p_pid p)) as [v Hv]; [rewrite Hl; by apply Hpid|].
    run ct_at_ok; [|done]. run (rd_Some _ _ _ _ _ Hv). rewrite Hv. simpl. unfold mret, M_ret. f_equal.
    by destruct (v =? 0), (p_container_id p =? 0).
  - by rewrite bool_decide_true, bool_decide_false by done.
Qed.

Lemma pick_scan k cid c last n : forall j,
  alen (k_proc k) = NPROC -> aget (k_container k) cid = Some c -> alen (ct_proc c) = NPROC ->
  pids_fit k -> 0 <= last -> 0 <= j ->
  pick n cid ((last + j) mod NPROC) k =
    Ret (scan (fun j => let i := (last + j) mod NPROC in if runs k cid i then Some i else None) n j) k.
Proof.
  induction n as [|n IH]; intros j Hl Hc Hcl Hfit Hlast Hj; simpl; [done|].
  assert (Hb : 0 <= (last + j) mod NPROC < NPROC) by by apply Z.mod_pos_bound.
  destruct (proc_get k _ Hl Hb) as [p Hp]. run p_at_ok; [|done].
  run (eligible_ok k cid ((last + j) mod NPROC) p c); [|done|done|done|by apply (Hfit _ _ Hp)].
  destruct (runs k cid ((last + j) mod NPROC)); [done|].
  assert (Z.rem ((last + j) mod NPROC + 1) NPROC = (last + (j + 1)) mod NPROC) as ->.
  { rewrite Z.rem_mod_nonneg, Zplus_mod_idemp_l by (unfold NPROC in *; lia). f_equal. lia. }
  by apply IH; [..|lia].
Qed.

Lemma pick_ok k cid c last :
  alen (k_proc k) = NPROC -> aget (k_container k) cid = Some c -> alen (ct_proc c) = NPROC ->
  pids_fit k -> 0 <= last < NPROC ->
  pick (Z.to_nat NPROC) cid (Z.rem (last + 1) NPROC) k = Ret (first_after k cid last) k.
Proof.
  intros Hl Hc Hcl Hfit Hlast. rewrite Z.rem_mod_nonneg by (unfold NPROC in *; lia).
  apply (pick_scan k cid c last); [done..|lia|lia].
Qed.

(** The choice is the nearest eligible process after [last], going round. *)
Lemma first_after_spec k cid last :
  0 <= last < NPROC -> alen (k_proc k) = NPROC ->
  match first_after k cid last with
  | Some i => runs k cid i = true /\ 0 <= i < NPROC /\
      exists j, 1 <= j <= NPROC /\ i = (last + j) mod NPROC /\
        forall j', 1 <= j' < j -> runs k cid ((last + j') mod NPROC) = false
  | None => forall i, 0 <= i < NPROC -> runs k cid i = false
  end.
Proof.
  intros Hlast Hl. unfold first_after. destruct (scan _ _ 1) as [i|] eqn:E.
  - apply scan_Some in E as (j & Hj & Hf & Hb). cbv zeta in *.
    destruct (runs k cid ((last + j) mod NPROC)) eqn:Hr; [|done]. injection Hf as <-.
    split; [done|]. split; [by apply Z.mod_pos_bound|]. exists j. split; [unfold NPROC in *; lia|].
    split; [done|]. intros j' Hj'. specialize (Hb j' Hj'). by destruct (runs k cid ((last + j') mod NPROC)).
  - rewrite scan_None in E. intros i Hi. specialize (E ((i - last - 1) mod NPROC + 1)). cbv zeta in E.
    assert ((last + ((i - last - 1) mod NPROC + 1)) mod NPROC = i) as Heq.
    { unfold NPROC in *. dlia. }
    rewrite Heq in E. destruct (runs k cid i); [|done]. discriminate E.
    pose proof (Z.mod_pos_bound (i - last - 1) NPROC). unfold NPROC in *. lia.
Qed.
End pick.

(** The scheduler's search is sound, complete and fair within a container:
    it returns the nearest process after the last one run that is runnable
    and belongs to the chosen container or to none, and finds none only when
    there is none. *)
Theorem pick_nearest (k : kernel) (cid last : Z) (c : container) :
  alen (k_proc k) = NPROC -> aget (k_container k) cid = Some c -> alen (ct_proc c) = NPROC ->
  pids_fit k -> 0 <= last < NPROC ->
  exists r, pick (Z.to_nat NPROC) cid (Z.rem (last + 1) NPROC) k = Ret r k /\
    match r with
    | Some i => runs k cid i = true /\ 0 <= i < NPROC /\
        exists j, 1 <= j <= NPROC /\ i = (last + j) mod NPROC /\
          forall j', 1 <= j' < j -> runs k cid ((last + j') mod NPROC) = false
    | None => forall i, 0 <= i < NPROC -> runs k cid i = false
    end.
Proof.
  intros Hl Hc Hcl Hfit Hlast. eexists. split; [by eapply pick_ok|]. by apply first_after_spec.
Qed.

(** A runnable process whose pid is [NPROC] or more makes the search read
    outside the membership table as soon as it is looked at; process ids are
    never reused, so the 64th process created is enough. *)
Theorem pick_pid_overflow (k : kernel) (cid i : Z) (p : proc) (c : container) (n : nat) :
  aget (k_proc k) i = Some p -> p_state p = RUNNABLE -> NPROC <= p_pid p ->
  aget (k_container k) cid = Some c -> alen (ct_proc c) = NPROC ->
  pick (S n) cid i k = Fault "container_processes".
Proof.
  intros Hp Hs Hpid Hc Hl. cbn [pick]. run p_at_ok; [|done]. apply bind_Fault. unfold eligible.
  rewrite bool_decide_false by (intros H; by apply H). run ct_at_ok; [|done].
  apply bind_Fault, rd_None. lia.
Qed.

(** ** Giving up the CPU *)

Section switching.
Implicit Types (k : kernel) (mc : mach) (p : proc) (i : nat).

(** A machine outside any critical section, on which the table lock is free. *)
Record resting mc : Prop := {
  rs_ok : mach_ok mc;
  rs_depth : depth mc = 0;
  rs_lock : lock_free ptable_lock mc }.

Lemma resting_settle mc : resting mc -> resting (settle mc).
Proof. intros [H1 H2 H3]. split; auto with mach. by rewrite depth_settle. Qed.

Lemma resting_if mc b : resting mc -> resting (mc <| m_if := b |>).
Proof. intros [H1 H2 H3]. split; [by apply set_if_ok|done|done]. Qed.

(** What [sched] does when it is resumed. *)
Definition resched (b : bool) : K unit :=
  i ← mycpu;
  cp ← cpu_at i;
  cpu_set i (cp <| c_intena := b |>).

Lemma sched_switch k mc i p :
  resting mc -> k_mach k = acq ptable_lock mc -> cur_proc mc = Some i ->
  aget (k_proc k) (Z.of_nat i) = Some p -> p_state p <> RUNNING ->
  sched k = Switch k (resched (m_if mc)).
Proof.
  intros [Hok Hd Hl] Hk Hc Hp Hs.
  assert (Hkk : kst k (acq ptable_lock mc) = k) by (rewrite <- Hk; apply kst_id).
  pose proof Hok as (ci & c & Hon & _). rewrite (depth_on _ _ _ Hon) in Hd.
  destruct (intena_acq _ ptable_lock _ _ Hon Hd) as (c' & Hon' & Hie & Hn').
  pose proof (push_if _ Hok) as Hif.
  unfold sched. run myproc_ok; [|rewrite Hk; by apply acq_ok].
  rewrite Hk, settle_acq, Hkk, cur_proc_acq, Hc by done.
  run holding_ok; [|rewrite Hk; by apply acq_ok]. rewrite Hk, settle_acq, Hkk by done.
  assert (lock_of ptable_lock (acq ptable_lock mc) =
    mklock (lk_name (lock_of ptable_lock mc)) true (cpu_of mc)) as ->.
  { unfold lock_of at 1. by rewrite acq_locks, lookup_insert_eq. }
  simpl lk_locked. simpl lk_cpu. rewrite bool_decide_true by (symmetry; by apply cpu_of_acq).
  cbn [andb negb lk_locked]. cbv iota.
  run mycpu_ok; [|by rewrite Hk|rewrite Hk; exact Hon']. run cpu_at_ok; [|rewrite Hk; exact Hon'].
  rewrite Hn'. change (negb (1 =? 1)) with false. cbv iota. mstep. run p_at_ok; [|done].
  rewrite bool_decide_false by done. mstep.
  assert (m_if (k_mach k) = false) as -> by (rewrite Hk; exact Hif).
  run mycpu_ok; [|by rewrite Hk|rewrite Hk; exact Hon']. run cpu_at_ok; [|rewrite Hk; exact Hon'].
  rewrite Hie. erewrite bind_Switch by done. done.
Qed.

(** Resumed with the table lock held, the thread gets its own interrupt flag
    back. *)
Lemma resched_ok k mc b :
  resting mc -> k_mach k = acq ptable_lock mc ->
  resched b k = Ret tt (kst k (acq ptable_lock (mc <| m_if := b |>))).
Proof.
  intros [Hok Hd Hl] Hk. pose proof Hok as (ci & c & Hon & _). rewrite (depth_on _ _ _ Hon) in Hd.
  destruct (intena_set _ ptable_lock _ _ b Hon Hd) as (c' & Hon' & Hset).
  unfold resched. run mycpu_ok; [|rewrite Hk; by apply push_if|rewrite Hk; exact Hon'].
  run cpu_at_ok; [|rewrite Hk; exact Hon'].
  rewrite (cpu_set_ok _ _ c') by (rewrite Hk; exact Hon'). by rewrite Hk, Hset.
Qed.
End switching.

(** [sleep] up to the switch, and from the resumption on. *)
Lemma sleep_ok (k : kernel) (mc : mach) (ch : chan) (lk : lockid) (i : nat) (p : proc) :
  resting mc -> lock_free lk mc -> lk <> ptable_lock -> k_mach k = acq lk mc ->
  cur_proc mc = Some i -> aget (k_proc k) (Z.of_nat i) = Some p ->
  exists s cont, sleep ch (Some lk) k = Switch s cont /\
    s = kst (k <| k_proc ::= <[i := p <| p_chan := ch |> <| p_state := SLEEPING |>]> |>)
            (acq ptable_lock (settle mc)) /\
    lock_free lk (k_mach s) /\ holder_of ptable_lock (k_mach s) = ThisCpu /\
    forall s' mc' p', resting mc' -> lock_free lk mc' -> k_mach s' = acq ptable_lock mc' ->
      aget (k_proc s') (Z.of_nat i) = Some p' ->
      cont s' = Ret tt (kst (s' <| k_proc ::= <[i := p' <| p_chan := CInt 0 |>]> |>)
                            (acq lk (settle (mc' <| m_if := m_if mc |>)))).
Proof.
  intros Hrest Hlk Hne Hk Hc Hp. pose proof Hrest as [Hok Hd Hl].
  pose proof (aget_lt _ _ _ Hp) as Hlt. pose proof (resting_settle _ Hrest) as Hrest'.
  assert (Hkk : kst k (acq lk mc) = k) by (rewrite <- Hk; apply kst_id).
  unfold sleep. rewrite (bool_decide_true (lk <> ptable_lock)) by done.
  run myproc_ok; [|rewrite Hk; by apply acq_ok]. rewrite Hk, settle_acq, Hkk, cur_proc_acq, Hc by done.
  assert (Hw : when true (acquire ptable_lock ;;; release lk) k =
    Ret tt (kst k (acq ptable_lock (settle mc)))).
  { simpl. run acquire_ok; [|rewrite Hk; mach..]. rewrite Hk.
    rewrite (release_outer _ lk ptable_lock mc) by mach. by knorm. }
  run Hw. run p_set_ok; [|done]. knorm. rewrite Nat2Z.id.
  run p_set_ok; [|ksimpl; rewrite <- (Nat2Z.id i) at 1; by apply aget_insert_eq]. knorm.
  rewrite Nat2Z.id.
  match goal with |- context [(sched ≫= _) ?k2] => set (s := k2) end.
  assert (Hs : s = kst (k <| k_proc ::= <[i := p <| p_chan := ch |> <| p_state := SLEEPING |>]> |>)
            (acq ptable_lock (settle mc))).
  { subst s. destruct k. unfold kst, upd. simpl. f_equal. apply list_insert_insert_eq. }
  assert (Hsw : sched s = Switch s (resched (m_if (settle mc)))).
  { eapply (sched_switch _ _ i (p <| p_chan := ch |> <| p_state := SLEEPING |>)); [done|by rewrite Hs| | |done].
    - by rewrite cur_proc_settle.
    - rewrite Hs. simpl. rewrite <- (Nat2Z.id i) at 1. by apply aget_insert_eq. }
  exists s. eexists. split; [by apply bind_Switch|]. rewrite settle_if. split; [done|]. split_and!.
  - rewrite Hs. mach.
  - rewrite Hs. unfold holder_of, lock_of. ksimpl. rewrite acq_locks, lookup_insert_eq. simpl.
    by rewrite bool_decide_true by (symmetry; apply cpu_of_acq; mach).
  - intros s' mc' p' Hr' Hl' Hs' Hp'. pose proof (resting_if _ (m_if mc) Hr') as Hr''.
    pose proof Hr'' as [Hok'' _ Hpl''].
    rewrite (resched_ok _ mc') by done. simpl res_bind. 
    run p_set_ok; [|done]. knorm. rewrite Nat2Z.id. simpl when.
    erewrite bind_Ret by (apply (release_acq _ _ (mc' <| m_if := m_if mc |>)); mach). knorm.
    rewrite acquire_ok; [|mach..]. by knorm.
Qed.

(** C29. [sleep] is atomic.  When it gives up the CPU the process is asleep on
    the channel, the caller's lock is free and the table lock is held, so no
    wakeup that follows can be missed; the other processes are untouched.
    When it is resumed with the table lock held and its own lock free, it
    returns holding its lock again, off the channel, with the interrupt flag
    it had before. *)
Theorem sleep_atomic (k : kernel) (mc : mach) (ch : chan) (lk : lockid) (i : nat) (p : proc) :
  resting mc -> lock_free lk mc -> lk <> ptable_lock -> k_mach k = acq lk mc ->
  cur_proc mc = Some i -> aget (k_proc k) (Z.of_nat i) = Some p ->
  exists s cont, sleep ch (Some lk) k = Switch s cont /\
    s = kst (k <| k_proc ::= <[i := p <| p_chan := ch |> <| p_state := SLEEPING |>]> |>)
            (acq ptable_lock (settle mc)) /\
    lock_free lk (k_mach s) /\ holder_of ptable_lock (k_mach s) = ThisCpu /\
    forall s' mc' p', resting mc' -> lock_free lk mc' -> k_mach s' = acq ptable_lock mc' ->
      aget (k_proc s') (Z.of_nat i) = Some p' ->
      cont s' = Ret tt (kst (s' <| k_proc ::= <[i := p' <| p_chan := CInt 0 |>]> |>)
                            (acq lk (settle (mc' <| m_if := m_if mc |>)))).
Proof. apply sleep_ok. Qed.

(** ** Allocating a process *)

Section alloc.
Implicit Types (k : kernel) (p : proc) (i : Z).

Definition first_unused (ps : list proc) : option Z :=
  scan (fun i => match aget ps i with
                 | Some p => if bool_decide (p_state p = UNUSED) then Some i else None
                 | None => None
                 end) (Z.to_nat NPROC) 0.

(** The entry [allocproc] fills in. *)
Definition embryo k p (pid ks : Z) : proc :=
  p <| p_state := EMBRYO |> <| p_pid := pid |> <| p_kstack := ks |>
    <| p_context := ctx0 <| x_eip := k_forkret k |> |>
    <| p_pendingSignals := replicate (Z.to_nat NSIG) 0 |>
    <| p_signalHandlers := <[Z.to_nat SIGMSGSENT := SIGMSGSENT]> (replicate (Z.to_nat NSIG) SIGIGN) |>
    <| p_msg_from_multicast := replicate (Z.to_nat MessageSize) 0 |> <| p_container_id := 0 |>.

Lemma unused_scan_ok k :
  alen (k_proc k) = NPROC ->
  for_ (Z.to_nat NPROC) 0 (fun i =>
    p ← p_at i; mret (if bool_decide (p_state p = UNUSED) then Some i else None)) k =
  Ret (first_unused (k_proc k)) k.
Proof.
  intros Hl. apply for_scan. intros i Hi. destruct (proc_get k i Hl) as [p Hp]; [unfold NPROC in *; lia|].
  run p_at_ok; [|done]. by rewrite Hp.
Qed.

(** Two updates of one entry are one update. *)
Lemma insert_twice (i : nat) p p' (ps : list proc) : <[i := p]> (<[i := p']> ps) = <[i := p]> ps.
Proof. apply list_insert_insert_eq. Qed.

Lemma p_put k i p f :
  aget (k_proc k) i = Some p ->
  p_set i f k = Ret tt (k <| k_proc := <[Z.to_nat i := f p]> (k_proc k) |>).
Proof. apply p_set_ok. Qed.

Lemma aget_put (ps : list proc) i p : 0 <= i < alen ps -> aget (<[Z.to_nat i := p]> ps) i = Some p.
Proof. apply aget_insert_eq. Qed.

Lemma i32_succ n : 0 <= n < 2 ^ 31 - 1 -> i32 (n + 1) = n + 1.
Proof.
  intros H. unfold i32, u32. rewrite Z.mod_small by lia.
  by destruct (Z.ltb_spec (n + 1) (2 ^ 31)); [|lia].
Qed.

(** What else [allocproc] leaves: the rest of the kernel, and the memory outside
    the page of the new kernel stack. *)
Record allocated k (l : list Z) (k' : kernel) : Prop := {
  al_same : k' = kst (k <| k_mem := k_mem k' |> <| k_freelist := k_freelist k' |> <| k_proc := k_proc k' |>
    <| k_nextpid := k_nextpid k' |>) (settle (k_mach k));
  al_frame : forall a, (forall ks, head l = Some ks -> ~ (ks <= a < ks + PGSIZE)) -> k_mem k' a = k_mem k a;
  al_pid : k_nextpid k' = k_nextpid k + 1;
  al_bytes : mem_ok (k_mem k) -> mem_ok (k_mem k') }.

Lemma kmem_mach_settle k mc : mach_ok mc -> kmem_mach (kst k (settle mc)) = settle mc.
Proof. intros H. unfold kmem_mach. ksimpl. by rewrite settle_settle; [destruct (_ =? 0)|]. Qed.

Lemma alloc_tail_ok k i p l :
  pt_ready k -> kmem_ready k -> free_pages k l -> aget (k_proc k) i = Some p ->
  0 <= k_nextpid k < 2 ^ 31 - 1 ->
  exists r k', alloc_tail i (kst k (acq ptable_lock (k_mach k))) = Ret r k' /\
    k_nextpid k' = k_nextpid k + 1 /\ free_pages k' (tail l) /\
    k_proc k' = <[Z.to_nat i := match l with
      | [] => p <| p_pid := k_nextpid k |> <| p_kstack := 0 |> <| p_state := UNUSED |>
      | ks :: _ => embryo k p (k_nextpid k) ks
      end]> (k_proc k) /\ r = match l with [] => None | _ => Some i end /\ allocated k l k'.
Proof.
  intros [Hok Hlk Hlen] Hkm Hfp Hp Hnp. pose proof (aget_lt _ _ _ Hp) as Hlt. unfold alloc_tail.
  run p_put; [|done]. knorm. mstep. ksimpl.
  run p_put; [|ksimpl; by apply aget_put]. knorm. rewrite insert_twice. mstep. knorm.
  erewrite bind_Ret by (apply (release_acq _ _ (k_mach k)); mach). knorm.
  rewrite i32_succ by done.
  match goal with |- context [(kalloc ≫= _) ?s] => set (k1 := s) end.
  assert (Hr1 : kmem_ready k1).
  { intros Hu. destruct (Hkm Hu). split; [by apply settle_ok|by apply lock_free_settle]. }
  run kalloc_run; [|done]. change (k_freelist k1) with (k_freelist k). destruct l as [|ks l].
  - assert (Hf0 : k_freelist k = 0) by apply Hfp. rewrite Hf0. change (0 =? 0) with true. cbv iota.
    subst k1. knorm. run p_put; [|ksimpl; by apply aget_put]. knorm. rewrite insert_twice.
    run p_put; [|ksimpl; by apply aget_put]. knorm. rewrite insert_twice.
    eexists _, _. split; [reflexivity|]. split_and!; [done| |done|done|].
    + apply free_pages_kst. by split; apply Hfp.
    + rewrite (kmem_mach_settle _ (k_mach k)) by done. by split; [destruct k|..].
  - destruct (free_pages_pop _ _ _ Hfp) as (Hf & Hks0 & Hksp & Hksl & Hfl). rewrite Hf.
    destruct (Z.eqb_spec ks 0); [done|]. subst k1. knorm.
    run p_put; [|ksimpl; by apply aget_put]. knorm. rewrite insert_twice. mstep. mstep. mstep. knorm.
    run p_put; [|ksimpl; by apply aget_put]. knorm. rewrite insert_twice.
    run p_put; [|ksimpl; by apply aget_put]. knorm. rewrite insert_twice.
    eexists _, _. split; [reflexivity|]. split_and!; [done| |done|done|].
    2: { rewrite (kmem_mach_settle _ (k_mach k)) by done. split; ksimpl; [by knorm| |done|apply store32_ok].
         intros a Ha. apply store32_out. specialize (Ha ks eq_refl). unfold KSTACKSIZE, PGSIZE in *. lia. }
    apply free_pages_kst.
    assert (Hfm : free_pages (k <| k_freelist := load32 (k_mem k) ks |>
      <| k_mem := store32 (k_mem k) (ks + KSTACKSIZE - 76 - 4) (k_trapret k) |>) l).
    { apply free_pages_mem; [done|]. eapply link_frame; [exact Hksp|apply (fp_pages _ _ Hfl)|done|].
      intros x Hx. apply store32_out. unfold KSTACKSIZE, PGSIZE in *. lia. }
    destruct Hfm as [H1 H2 H3]. by split.
Qed.
End alloc.

(** [allocproc] takes the lowest unused entry of the table and gives it a
    pid that no other process has, a kernel stack from the page allocator, the
    default signal handlers and no container.  Without an unused entry it
    returns none and changes nothing; without memory it returns none and the
    entry stays unused. *)
Lemma allocproc_spec (k : kernel) (l : list Z) :
  pt_ready k -> kmem_ready k -> free_pages k l ->
  0 <= k_nextpid k < 2 ^ 31 - 1 -> Forall (fun p => p_pid p < k_nextpid k) (k_proc k) ->
  match first_unused (k_proc k) with
  | None => allocproc k = Ret None (kst k (settle (k_mach k))) /\
      forall p, p ∈ k_proc k -> p_state p <> UNUSED
  | Some i =>
      exists p r k', aget (k_proc k) i = Some p /\ p_state p = UNUSED /\
        (forall j q, 0 <= j < i -> aget (k_proc k) j = Some q -> p_state q <> UNUSED) /\
        allocproc k = Ret r k' /\ r = match l with [] => None | _ => Some i end /\
        k_proc k' = <[Z.to_nat i := match l with
          | [] => p <| p_pid := k_nextpid k |> <| p_kstack := 0 |> <| p_state := UNUSED |>
          | ks :: _ => embryo k p (k_nextpid k) ks
          end]> (k_proc k) /\
        free_pages k' (tail l) /\ Forall (fun p => p_pid p < k_nextpid k') (k_proc k') /\
        (forall q, q ∈ k_proc k -> p_pid q <> k_nextpid k) /\ allocated k l k'
  end.
Proof.
  intros Hpt Hkm Hfp Hnp Hpids. pose proof Hpt as [Hok Hlk Hlen].
  assert (Hstart : allocproc k =
    (match first_unused (k_proc k) with
     | None => release ptable_lock ;;; mret None
     | Some i => alloc_tail i
     end) (kst k (acq ptable_lock (k_mach k)))).
  { unfold allocproc. run acquire_ok; [|done..]. by run unused_scan_ok; [|done]. }
  destruct (first_unused (k_proc k)) as [i|] eqn:E.
  - apply scan_Some in E as (i' & Hi & Hf & Hb). cbv beta in *.
    destruct (aget (k_proc k) i') as [p|] eqn:Hp; [|done]. case_bool_decide as Hs; [|done].
    injection Hf as ->.
    destruct (alloc_tail_ok k i p l) as (r & k' & Hrun & Hn & Hf & Hps & Hr & Hal); [done..|].
    exists p, r, k'. rewrite Hstart. split_and!; try done.
    + intros j q Hj Hq Hu. specialize (Hb j Hj). rewrite Hq, bool_decide_true in Hb by done. done.
    + rewrite Hps, Hn. apply Forall_insert.
      * eapply Forall_impl; [exact Hpids|]. simpl. lia.
      * destruct l; simpl; lia.
    + intros q Hq. rewrite Forall_forall in Hpids. specialize (Hpids q Hq). lia.
  - rewrite Hstart. split.
    + erewrite bind_Ret by (apply (release_acq _ _ (k_mach k)); mach). by knorm.
    + intros p (j & Hj)%list_elem_of_lookup Hs. unfold first_unused in E. rewrite scan_None in E.
      pose proof (lookup_lt_Some _ _ _ Hj). specialize (E (Z.of_nat j)).
      rewrite aget_nat, Hj, bool_decide_true in E by done. discriminate E.
      unfold alen, NPROC in *. lia.
Qed.

(** ** The per-process buffer *)

Section procbuffer.
Implicit Types (k : kernel) (p : proc) (i : Z).

Lemma buffer_in_ok k i p a :
  aget (k_proc k) i = Some p -> alen (p_msg_from_multicast p) = MessageSize ->
  exists ws, buffer_in i a k =
      Ret tt (k <| k_proc := <[Z.to_nat i := p <| p_msg_from_multicast := ws |>]> (k_proc k) |>) /\
    alen ws = MessageSize /\ tail ws = words (k_mem k) a.
Proof.
  intros Hp Hl. pose proof (aget_lt _ _ _ Hp) as Hlt. unfold buffer_in.
  set (upd_i := fun ws =>
    k <| k_proc := <[Z.to_nat i := p <| p_msg_from_multicast := ws |>]> (k_proc k) |>).
  destruct (each_ind (fun j k' => exists ws, k' = upd_i ws /\ alen ws = MessageSize /\
      (forall j', 1 <= j' < j -> aget ws j' = Some (load32 (k_mem k) (a + 4 * (j' - 1)))))
    (Z.to_nat (MessageSize - 1)) 1 (fun j => k ← get; p ← p_at i;
       ws ← wr "msg_from_multicast" (p_msg_from_multicast p) j (load32 (k_mem k) (a + 4 * (j - 1)));
       p_set i (fun p => p <| p_msg_from_multicast := ws |>)) k)
    as (k' & Hrun & ws & -> & Hlw & Hw).
  - exists (p_msg_from_multicast p). split_and!; [|done|lia]. subst upd_i. cbv beta.
    destruct k; req. simpl in *. rewrite insert_same; [done|]. rewrite Hp. by destruct p.
  - intros j ? Hj (ws & -> & Hlw & Hw). mstep.
    run p_at_ok; [|subst upd_i; simpl; by apply aget_insert_eq].
    run wr_Some; [|simpl; unfold MessageSize in *; lia].
    erewrite p_put; [|subst upd_i; simpl; by apply aget_insert_eq]. eexists. split; [done|].
    exists (<[Z.to_nat j := load32 (k_mem k) (a + 4 * (j - 1))]> ws). split_and!.
    + subst upd_i. destruct k; req. simpl. by rewrite insert_twice.
    + by rewrite alen_insert.
    + intros j' Hj'. rewrite aget_insert by (unfold MessageSize in *; lia). case_decide; [by subst|].
      apply Hw. lia.
  - exists ws. split_and!; [done..|]. apply words_get; [done|]. intros j Hj. apply Hw.
    unfold MessageSize in *. lia.
Qed.

Lemma buffer_out_ok k i p a :
  aget (k_proc k) i = Some p -> alen (p_msg_from_multicast p) = MessageSize ->
  buffer_out i a k = Ret tt (k <| k_mem := write_words (k_mem k) a (tail (p_msg_from_multicast p)) |>).
Proof.
  intros Hp Hl. unfold buffer_out. set (b := p_msg_from_multicast p) in *.
  destruct (each_ind (fun j k' => k' =
      k <| k_mem := write_words (k_mem k) a (take (Z.to_nat (j - 1)) (tail b)) |>)
    (Z.to_nat (MessageSize - 1)) 1 (fun j => p ← p_at i;
       w ← rd "msg_from_multicast" (p_msg_from_multicast p) j;
       modify (fun k => k <| k_mem ::= fun m => store32 m (a + 4 * (j - 1)) w |>)) k)
    as (k' & Hrun & ->).
  - by destruct k.
  - intros j ? Hj ->. destruct (aget_is_Some b j) as [w Hw]; [unfold MessageSize in *; lia|].
    run p_at_ok; [|done]. run (rd_Some _ _ _ _ _ Hw). eexists. split; [done|]. unfold modify.
    replace (Z.to_nat (j + 1 - 1)) with (S (Z.to_nat (j - 1))) by lia.
    assert (Ht : tail b !! Z.to_nat (j - 1) = Some w).
    { rewrite lookup_tail, <- aget_nat, <- Hw. f_equal. lia. }
    rewrite (take_S_r _ _ _ Ht), write_words_snoc. destruct k; req. simpl. f_equal.
    apply lookup_lt_Some in Ht. unfold alen. rewrite length_take. lia.
  - rewrite Hrun. do 2 f_equal. rewrite take_ge; [done|].
    destruct b; [done|]. unfold alen in Hl. simpl in *. lia.
Qed.
End procbuffer.

Lemma index_of_insert ps i p p' pid :
  aget ps i = Some p -> p_pid p' = p_pid p -> index_of (<[Z.to_nat i := p']> ps) pid = index_of ps pid.
Proof.
  intros Hp Hpid. pose proof (aget_lt _ _ _ Hp). apply scan_ext. intros j _.
  rewrite aget_insert by done. case_decide; [subst j; by rewrite Hp, Hpid|done].
Qed.

Lemma procbuffer_leave k mc r :
  mach_ok mc -> lock_free ptable_lock mc -> lock_free ("procbuffer_lock", r) mc ->
  k_mach k = acq ptable_lock (acq ("procbuffer_lock", r) mc) ->
  (release ptable_lock ;;; release ("procbuffer_lock", r) ;;; mret 0) k = Ret 0 (kst k (settle mc)).
Proof.
  intros Hok Hlk Hbl Hk.
  erewrite bind_Ret by (apply (release_acq _ _ (acq ("procbuffer_lock", r) mc)); mach).
  rewrite settle_acq by done.
  erewrite bind_Ret by (apply (release_acq _ _ mc); mach). by knorm.
Qed.

Lemma procbuffer_lock_ok r k :
  0 <= r < NPROC -> procbuffer_lock r k = Ret ("procbuffer_lock", r) k.
Proof. intros Hr. unfold procbuffer_lock. by rewrite within_true. Qed.

Lemma sent_to_proc_buffer_ok k s r a i p :
  pt_ready k -> 0 <= r < NPROC -> lock_free ("procbuffer_lock", r) (k_mach k) ->
  index_of (k_proc k) r = Some i -> aget (k_proc k) i = Some p ->
  alen (p_msg_from_multicast p) = MessageSize ->
  exists ws, sent_to_proc_buffer s r a k = Ret 0
      (kst (k <| k_proc := <[Z.to_nat i := p <| p_msg_from_multicast := ws |>]> (k_proc k) |>)
           (settle (k_mach k))) /\
    alen ws = MessageSize /\ tail ws = words (k_mem k) a.
Proof.
  intros [Hok Hlk Hlen] Hr Hbl Hi Hp Hl. unfold sent_to_proc_buffer.
  run procbuffer_lock_ok; [|done]. run acquire_ok; [|done..]. run acquire_ok; [|mach..].
  run find_pid_ok; [|done]. knorm. rewrite Hi. change (found_or_end (Some i)) with i.
  match goal with |- context [(buffer_in i a ≫= _) ?s] =>
    destruct (buffer_in_ok s i p a) as (ws & Hin & Hws & Htl); [done..|] end.
  exists ws. run Hin. knorm. by rewrite (procbuffer_leave _ (k_mach k)) by mach.
Qed.

Lemma receive_from_procbuffer_ok k r b i p :
  pt_ready k -> 0 <= r < NPROC -> lock_free ("procbuffer_lock", r) (k_mach k) ->
  index_of (k_proc k) r = Some i -> aget (k_proc k) i = Some p ->
  alen (p_msg_from_multicast p) = MessageSize ->
  receive_from_procbuffer r b k = Ret 0
    (kst (k <| k_mem := write_words (k_mem k) b (tail (p_msg_from_multicast p)) |>) (settle (k_mach k))).
Proof.
  intros [Hok Hlk Hlen] Hr Hbl Hi Hp Hl. unfold receive_from_procbuffer.
  run procbuffer_lock_ok; [|done]. run acquire_ok; [|done..]. run acquire_ok; [|mach..].
  run find_pid_ok; [|done]. knorm. rewrite Hi. change (found_or_end (Some i)) with i.
  run buffer_out_ok; [|done..]. knorm. by rewrite (procbuffer_leave _ (k_mach k)) by mach.
Qed.

(** The per-process buffer is a register: a message stored for a process is
    what that process then reads back, and nothing but the target memory
    changes.  If no process has the pid the code writes past the end of the
    process table. *)
Theorem procbuffer_roundtrip (k : kernel) (s r a b : Z) :
  pt_ready k -> 0 <= r < NPROC -> lock_free ("procbuffer_lock", r) (k_mach k) ->
  Forall (fun p => alen (p_msg_from_multicast p) = MessageSize) (k_proc k) ->
  match index_of (k_proc k) r with
  | None => sent_to_proc_buffer s r a k = Fault "proc"
  | Some _ => exists k1 k2, sent_to_proc_buffer s r a k = Ret 0 k1 /\
      receive_from_procbuffer r b k1 = Ret 0 k2 /\
      k_mem k2 = write_words (k_mem k) b (words (k_mem k) a)
  end.
Proof.
  intros Hpt Hr Hbl Hsz. pose proof Hpt as [Hok Hlk Hlen].
  destruct (index_of (k_proc k) r) as [i|] eqn:E.
  - pose proof E as (Hi & (p & Hp & Hpid) & _)%index_of_Some. pose proof (aget_lt _ _ _ Hp) as Hlt.
    assert (Hpl : alen (p_msg_from_multicast p) = MessageSize).
    { rewrite Forall_forall in Hsz. apply Hsz. unfold aget in Hp. destruct (0 <=? i); [|done].
      by eapply list_elem_of_lookup_2. }
    destruct (sent_to_proc_buffer_ok k s r a i p) as (ws & Hs & Hws & Htl); [done..|].
    eexists _, _. split; [exact Hs|]. split.
    + eapply (receive_from_procbuffer_ok _ r b i (p <| p_msg_from_multicast := ws |>)); [|done|..].
      * split; ksimpl; [by apply settle_ok|by apply lock_free_settle|by rewrite alen_insert].
      * ksimpl. by apply lock_free_settle.
      * ksimpl. by erewrite index_of_insert.
      * ksimpl. by apply aget_insert_eq.
      * done.
    + ksimpl. by rewrite Htl.
  - unfold sent_to_proc_buffer. run procbuffer_lock_ok; [|done]. run acquire_ok; [|done..].
    run acquire_ok; [|mach..]. run find_pid_ok; [|done]. ksimpl. rewrite E.
    apply bind_Fault. unfold buffer_in. change (found_or_end None) with NPROC.
    replace (Z.to_nat (MessageSize - 1)) with (S 14) by done. cbn [each].
    apply bind_Fault. mstep. apply bind_Fault. unfold p_at. mstep. apply rd_None. ksimpl. lia.
Qed.
