(* ===== verification/Dispatch.v ===== *)
(** * A round of the scheduler ([proc.c])

    What one round of the scheduler's loop does: it chooses a container, then
    a process of it, delivers the signals pending for it, and hands the CPU over
    with everything set up; or it finds nothing to run and goes round again. *)

From S2P Require Import Prelude State Spinlock CString Kalloc Console Vm Message Container Proc.
Open Scope Z_scope.

(** ** Delivering signals *)

(** The page of user memory that [va] is on, and the word there. *)
Definition user_page (m : mem) (pgdir va : Z) : option Z :=
  pte ← translate m pgdir va;
  if Z.land pte PTE_U =? 0 then None else Some (P2V (PTE_ADDR pte)).
Definition user_word (m : mem) (pgdir va : Z) : option Z :=
  page ← user_page m pgdir va;
  Some (load32 m (page + va mod PGSIZE)).

(** The signals of a process: how often each is pending, and its handler.  Those
    for a function of the program, in order, and what the kernel's own handlers
    print for the others. *)
Definition signals (p : proc) : list (Z * Z) := zip (p_pendingSignals p) (p_signalHandlers p).
Definition catches (x : Z * Z) : option Z := if (0 <? x.1) && negb (x.2 =? SIGIGN) && negb (x.2 =? SIGDFL) then Some x.2 else None.
Definition caught (l : list (Z * Z)) : list Z := omap catches l.
Definition tells (x : Z * Z) : list Z :=
  if negb (0 <? x.1) then []
  else if x.2 =? SIGIGN then bytes "this is ignore Handler" ++ [10]
  else if x.2 =? SIGDFL then bytes "This is default handler" ++ [10]
  else [].
Definition told (l : list (Z * Z)) : list Z := concat (tells <$> l).
Definition taken (v : Z) : Z := if 0 <? v then 0 else v.

(** The calls on the stack: where the process was, and all handlers but the last,
    which runs first. *)
Definition chain (p : proc) (l : list (Z * Z)) : list Z := tf_eip (p_tf p) :: caught l.

(** The process after the first [n] signals. *)
Definition signalled (n : nat) (p : proc) : proc :=
  let l := take n (signals p) in
  p <| p_pendingSignals := (taken <$> take n (p_pendingSignals p)) ++ drop n (p_pendingSignals p) |>
    <| p_tf := (p_tf p) <| tf_esp := tf_esp (p_tf p) - 4 * alen (caught l) |> <| tf_eip := default 0 (last (chain p l)) |> |>.

(** The stack pointer is far enough from the start of its page, which is mapped
    for the user and apart from the two entries that map it. *)
Record stack_fits (m : mem) (p : proc) (page : Z) : Prop := {
  sf_page : user_page m (p_pgdir p) (tf_esp (p_tf p)) = Some page;
  sf_room : 4 * alen (caught (signals p)) <= tf_esp (p_tf p) mod PGSIZE;
  sf_dir : let a := p_pgdir p + 4 * PDX (tf_esp (p_tf p)) in a + 4 <= page \/ page + PGSIZE <= a;
  sf_tab : forall t, pgtab m (p_pgdir p) (PDX (tf_esp (p_tf p))) = Some t ->
    let a := t + 4 * PTX (tf_esp (p_tf p)) in a + 4 <= page \/ page + PGSIZE <= a }.

(** The signals can be delivered.  [SIGMSGSENT] as a handler stands for
    [receiverHandler], which stores a message outside its variable. *)
Record signals_ok (m : mem) (p : proc) : Prop := {
  so_pending : alen (p_pendingSignals p) = NSIG;
  so_handlers : alen (p_signalHandlers p) = NSIG;
  so_words : 0 <= tf_esp (p_tf p) < 2 ^ 32 /\ Forall (fun v => 0 <= v < 2 ^ 32) (chain p (signals p));
  so_kind : SIGMSGSENT ∉ caught (signals p);
  so_stack : caught (signals p) <> [] -> exists page, stack_fits m p page }.

(** Memory [m'] is [m] with the calls of the signals [l] on the stack: seen by the
    process, and nothing else has changed. *)
Definition stack_top (m : mem) (p : proc) : Z :=
  default 0 (user_page m (p_pgdir p) (tf_esp (p_tf p))) + tf_esp (p_tf p) mod PGSIZE.
Record pushed (m : mem) (p : proc) (l : list (Z * Z)) (m' : mem) : Prop := {
  ps_words : forall t v, 0 <= t < alen (caught l) -> aget (chain p l) t = Some v ->
    user_word m' (p_pgdir p) (tf_esp (p_tf p) - 4 * (t + 1)) = Some v;
  ps_frame : forall a, ~ (stack_top m p - 4 * alen (caught l) <= a < stack_top m p) -> m' a = m a }.

Section signals.
Implicit Types (k : kernel) (m : mem) (p : proc) (l : list (Z * Z)) (n : nat).

Lemma user_page_same m m' pgdir va va' page t : 0 <= va < 2 ^ 32 -> 0 <= va' < 2 ^ 32 -> va' / 4096 = va / 4096 ->
  user_page m pgdir va = Some page -> pgtab m pgdir (PDX va) = Some t ->
  load32 m' (pgdir + 4 * PDX va) = load32 m (pgdir + 4 * PDX va) -> load32 m' (t + 4 * PTX va) = load32 m (t + 4 * PTX va) ->
  user_page m' pgdir va' = Some page.
Proof.
  intros H H' E Hp Ht Hd Hl. destruct (proj2 (same_page va va' H H') E) as [E1 E2]. unfold user_page, translate, pgtab in *. rewrite E1, E2, Hd.
  cbv zeta in *. destruct (_ mod 2 =? 0); [done|]. injection Ht as Ht. rewrite Ht in *. rewrite Hl. exact Hp.
Qed.

Lemma user_page_table m pgdir va page : user_page m pgdir va = Some page -> exists t, pgtab m pgdir (PDX va) = Some t.
Proof. unfold user_page, translate. destruct (pgtab m pgdir (PDX va)) as [t|]; [by exists t|done]. Qed.

Lemma uva2ka_ok k pgdir va page : user_page (k_mem k) pgdir va = Some page -> uva2ka pgdir va k = Ret page k.
Proof.
  intros Hp. destruct (user_page_table _ _ _ _ Hp) as [t Ht]. unfold uva2ka. run walk_hit; [|done]. mstep. rewrite PTE_P_eq.
  unfold user_page, translate in Hp. rewrite Ht in Hp. cbv zeta in Hp. destruct (_ mod 2 =? 0); [done|]. cbn [mbind option_bind] in Hp.
  destruct (Z.land _ PTE_U =? 0); [done|]. by injection Hp as <-.
Qed.

Lemma caught_snoc l x : caught (l ++ [x]) = caught l ++ option_list (catches x).
Proof. unfold caught. rewrite omap_app. f_equal. Qed.
Lemma told_snoc l x : told (l ++ [x]) = told l ++ tells x.
Proof. unfold told. rewrite fmap_app, concat_app. cbn. by rewrite app_nil_r. Qed.

Lemma caught_take l n : alen (caught (take n l)) <= alen (caught l).
Proof. rewrite <- (take_drop n l) at 2. unfold caught. rewrite omap_app, alen_app. pose proof (alen_nonneg (omap catches (drop n l))). lia. Qed.

Lemma sig_upd p a b a' f : ((p <| p_pendingSignals := a |> <| p_tf := b |>) <| p_pendingSignals := a' |> <| p_tf ::= f |>) = p <| p_pendingSignals := a' |> <| p_tf := f b |>.
Proof. by destruct p. Qed.
Lemma tf_upd (tf : trapframe) e ip f ip' : ((tf <| tf_esp := e |> <| tf_eip := ip |>) <| tf_esp ::= f |> <| tf_eip := ip' |>) = tf <| tf_esp := f e |> <| tf_eip := ip' |>.
Proof. by destruct tf. Qed.

(** The process after one more signal. *)
Lemma signalled_S n p v h : p_pendingSignals p !! n = Some v -> p_signalHandlers p !! n = Some h ->
  signalled (S n) p =
    (signalled n p) <| p_pendingSignals := <[n := taken v]> (p_pendingSignals (signalled n p)) |>
      <| p_tf ::= fun tf => match catches (v, h) with Some h => tf <| tf_esp ::= fun e => e - 4 |> <| tf_eip := h |> | None => tf end |>.
Proof.
  intros Hv Hh. assert (Hx : signals p !! n = Some (v, h)) by (unfold signals; apply lookup_zip_with_Some; eauto).
  unfold signalled. rewrite (take_S_r _ _ _ Hx), (take_S_r _ _ _ Hv). unfold chain. rewrite caught_snoc.
  assert (Hp : (taken <$> take n (p_pendingSignals p) ++ [v]) ++ drop (S n) (p_pendingSignals p) = <[n := taken v]> ((taken <$> take n (p_pendingSignals p)) ++ drop n (p_pendingSignals p))).
  { rewrite fmap_app, <- app_assoc, (drop_S _ _ _ Hv). pose proof (lookup_lt_Some _ _ _ Hv) as Hl.
    rewrite insert_app_r_alt by (rewrite length_fmap, length_take; lia).
    rewrite length_fmap, length_take. by replace (n - n `min` length (p_pendingSignals p))%nat with 0%nat by lia. }
  rewrite Hp. rewrite sig_upd. rsimpl. destruct (catches (v, h)) as [h'|]; [change (option_list (Some h')) with [h']|change (option_list None) with (@nil Z); by rewrite app_nil_r].
  rewrite alen_app. change (tf_eip (p_tf p) :: caught (take n (signals p)) ++ [h']) with ((tf_eip (p_tf p) :: caught (take n (signals p))) ++ [h']). rewrite last_snoc, tf_upd. rsimpl. change (alen [h']) with 1. cbn [default].
  replace (tf_esp (p_tf p) - 4 * (alen (caught (take n (signals p))) + 1)) with (tf_esp (p_tf p) - 4 * alen (caught (take n (signals p))) - 4) by lia. done.
Qed.

(** The same in terms of the kernel's addresses. *)
Record stacked (m : mem) (p : proc) (l : list (Z * Z)) (m' : mem) : Prop := {
  sk_words : forall t v, 0 <= t < alen (caught l) -> aget (chain p l) t = Some v -> load32 m' (stack_top m p - 4 * (t + 1)) = v;
  sk_frame : forall a, ~ (stack_top m p - 4 * alen (caught l) <= a < stack_top m p) -> m' a = m a }.

Lemma caught_range p l : Forall (fun v => 0 <= v < 2 ^ 32) (chain p (signals p)) -> l `prefix_of` signals p ->
  Forall (fun v => 0 <= v < 2 ^ 32) (chain p l).
Proof.
  intros H [l' E]. rewrite E in H. unfold chain, caught in *. rewrite omap_app, app_comm_cons in H. by apply Forall_app in H as [H _].
Qed.

Lemma stacked_user m p l m' page va : signals_ok m p -> stack_fits m p page -> l `prefix_of` signals p -> stacked m p l m' ->
  tf_esp (p_tf p) - 4 * alen (caught (signals p)) <= va <= tf_esp (p_tf p) -> user_page m' (p_pgdir p) va = Some page.
Proof.
  intros Hs [Hpg Hroom Hdir Htab] [l' E] [_ Hf] Hva. destruct Hs as [_ _ [Hesp _] _ _]. destruct (user_page_table _ _ _ _ Hpg) as [t Ht].
  unfold stack_top in Hf. rewrite Hpg in Hf. change (default 0 (Some page)) with page in Hf. unfold PGSIZE in *. cbv zeta in *. specialize (Htab t Ht).
  assert (Hl : 0 <= alen (caught l) <= alen (caught (signals p))).
  { rewrite E. unfold caught. rewrite omap_app, alen_app. pose proof (alen_nonneg (omap catches l)). pose proof (alen_nonneg (omap catches l')). lia. }
  assert (Hmod : 0 <= tf_esp (p_tf p) mod 4096 < 4096) by (by apply Z.mod_pos_bound).
  apply (user_page_same m m' _ (tf_esp (p_tf p)) va page t); [done| | |done|done| |].
  - clear -Hesp Hva Hroom Hl Hmod. pose proof (Z.mod_le (tf_esp (p_tf p)) 4096). lia.
  - clear -Hva Hroom Hmod. generalize dependent (alen (caught (signals p))). intros n Hr Hva. dlia.
  - apply load32_ext. intros i Hi. apply Hf. lia.
  - apply load32_ext. intros i Hi. apply Hf. lia.
Qed.

(** One more call on the stack. *)
Lemma stacked_S m p n v h m' page : signals_ok m p -> signals p !! n = Some (v, h) -> catches (v, h) = Some h -> stack_fits m p page ->
  let l := take n (signals p) in
  stacked m p l m' ->
  stacked m p (take (S n) (signals p)) (store32 m' (stack_top m p - 4 * (alen (caught l) + 1)) (default 0 (last (chain p l)))).
Proof.
  intros Hs Hx Hc Hfit l [Hw Hf]. rewrite (take_S_r _ _ _ Hx). fold l. assert (Hcs : caught (l ++ [(v, h)]) = caught l ++ [h]) by (rewrite caught_snoc, Hc; done).
  pose proof (alen_nonneg (caught l)) as Hl0. split.
  - intros t x Ht Hg. rewrite Hcs, alen_app in Ht. change (alen [h]) with 1 in Ht. unfold chain in Hg. rewrite Hcs, app_comm_cons in Hg.
    assert (Hlen : alen (chain p l) = alen (caught l) + 1) by (unfold chain; rewrite alen_cons; lia). fold (chain p l) in Hg.
    rewrite aget_app, decide_True in Hg by lia. destruct (Z.eq_dec t (alen (caught l))) as [->|Hne].
    + assert (Hlast : last (chain p l) = Some x). { rewrite last_lookup. unfold aget in Hg. destruct (Z.leb_spec 0 (alen (caught l))); [|lia]. rewrite <- Hg. f_equal. unfold alen in *. lia. }
      rewrite Hlast. cbn [default]. apply load32_store32. destruct Hs as [_ _ [_ Hr] _ _].
      assert (Hr' : Forall (fun v => 0 <= v < 2 ^ 32) (chain p l)) by (apply caught_range; [exact Hr|apply prefix_take]). rewrite Forall_forall in Hr'. apply Hr'.
      by eapply list_elem_of_lookup_2; rewrite last_lookup in Hlast.
    + rewrite load32_store32_ne by lia. apply Hw; [lia|done].
  - intros a Ha. rewrite Hcs, alen_app in Ha. change (alen [h]) with 1 in Ha. rewrite store32_out by lia. apply Hf. lia.
Qed.

Lemma stacked_none m p n v h m' : signals p !! n = Some (v, h) -> catches (v, h) = None -> stacked m p (take n (signals p)) m' -> stacked m p (take (S n) (signals p)) m'.
Proof.
  intros Hx Hc [Hw Hf]. rewrite (take_S_r _ _ _ Hx). assert (Hcs : caught (take n (signals p) ++ [(v, h)]) = caught (take n (signals p))) by (rewrite caught_snoc, Hc; apply app_nil_r).
  split; unfold chain in *; rewrite Hcs; [exact Hw|exact Hf].
Qed.

(** The kernel while signals are delivered to process [i]. *)
Definition during k (i : Z) p n m' : kernel :=
  k <| k_proc := <[Z.to_nat i := signalled n p]> (k_proc k) |> <| k_mem := m' |> <| k_console := k_console k ++ told (take n (signals p)) |>.

Lemma signalled_0 p : signalled 0 p = p.
Proof. unfold signalled. destruct p as [? ? ? ? ? ? [] ? ? ? ? ? ? ? ? ? ?]. unfold upd. cbn -[alen]. by rewrite Z.sub_0_r. Qed.

Lemma during_0 k i p : aget (k_proc k) i = Some p -> during k i p 0 (k_mem k) = k.
Proof.
  intros Hp. unfold during. rewrite signalled_0, list_insert_id by (unfold aget in Hp; by destruct (0 <=? i)). cbn [take told fmap list_fmap concat]. rewrite app_nil_r. by destruct k.
Qed.

Lemma signalled_pending n p v : p_pendingSignals p !! n = Some v -> aget (p_pendingSignals (signalled n p)) (Z.of_nat n) = Some v.
Proof.
  intros Hv. unfold signalled. rsimpl. pose proof (lookup_lt_Some _ _ _ Hv). unfold aget. rewrite (proj2 (Z.leb_le 0 _)), Nat2Z.id by lia.
  rewrite lookup_app_r by (rewrite length_fmap, length_take; lia). rewrite length_fmap, length_take, lookup_drop. rewrite <- Hv. f_equal. lia.
Qed.

Lemma cons_quiet k : settle (k_mach k) = k_mach k -> cons_mach k = k_mach k.
Proof. intros H. unfold cons_mach. rewrite H. by destruct (_ =? 0). Qed.

(** Clearing the pending signal. *)
Lemma deliver_clear k i n p v p' : aget (k_proc k) i = Some p' -> p_pendingSignals p' = p_pendingSignals (signalled n p) ->
  p_pendingSignals p !! n = Some v -> 0 < v ->
  (p ← p_at i; ps ← wr "pendingSignals" (p_pendingSignals p) (Z.of_nat n) 0; p_set i (fun p => p <| p_pendingSignals := ps |>)) k =
    Ret tt (k <| k_proc := <[Z.to_nat i := p' <| p_pendingSignals := <[n := taken v]> (p_pendingSignals (signalled n p)) |>]> (k_proc k) |>).
Proof.
  intros Hp' He Hv Hpos. run p_at_ok; [|done]. rewrite He. pose proof (signalled_pending n p v Hv) as Hg. run wr_Some; [|by eapply aget_lt].
  rewrite Nat2Z.id. rewrite (p_put _ _ p') by done. unfold taken. by rewrite (proj2 (Z.ltb_lt 0 v)).
Qed.

Lemma during_upd k ps m o ps' m' f :
  (k <| k_proc := ps |> <| k_mem := m |> <| k_console := o |>) <| k_console ::= f |> <| k_mem := m' |> <| k_proc := ps' |> =
  k <| k_proc := ps' |> <| k_mem := m' |> <| k_console := f o |>.
Proof. by destruct k. Qed.

(** The kernel after one more signal. *)
Lemma during_S k i p n v h m' m'' x o d : p_pendingSignals p !! n = Some v -> p_signalHandlers p !! n = Some h ->
  d = during k i p n m' -> x = signalled (S n) p -> tells (v, h) = o ->
  d <| k_console ::= fun c => c ++ o |> <| k_mem := m'' |> <| k_proc := <[Z.to_nat i := x]> (k_proc d) |> = during k i p (S n) m''.
Proof.
  intros Hv Hh -> -> <-. assert (Hx : signals p !! n = Some (v, h)) by (unfold signals; apply lookup_zip_with_Some; eauto).
  unfold during. rewrite (take_S_r _ _ _ Hx), told_snoc, app_assoc, during_upd. ksimpl. by rewrite list_insert_insert_eq.
Qed.

Lemma tf_same p a : p <| p_pendingSignals := a |> <| p_tf ::= fun tf => tf |> = p <| p_pendingSignals := a |>.
Proof. by destruct p. Qed.
Lemma mem_same k f ps : k <| k_console ::= f |> <| k_mem := k_mem k |> <| k_proc := ps |> = k <| k_console ::= f |> <| k_proc := ps |>.
Proof. by destruct k. Qed.
Lemma silent k m' ps : k <| k_console ::= fun c => c ++ [] |> <| k_mem := m' |> <| k_proc := ps |> = k <| k_mem := m' |> <| k_proc := ps |>.
Proof.
  trans (k <| k_console := k_console k ++ [] |> <| k_mem := m' |> <| k_proc := ps |>); [done|]. rewrite app_nil_r. by destruct k.
Qed.
Lemma pushed_upd k f ps ps' : k <| k_mem ::= f |> <| k_proc := ps |> <| k_proc := ps' |> = k <| k_mem := f (k_mem k) |> <| k_proc := ps' |>.
Proof. by destruct k. Qed.
Lemma call_upd p f h : p <| p_tf ::= fun tf => tf <| tf_esp ::= f |> |> <| p_tf ::= fun tf => tf <| tf_eip := h |> |> = p <| p_tf ::= fun tf => tf <| tf_esp ::= f |> <| tf_eip := h |> |>.
Proof. by destruct p. Qed.

Lemma proc_upd k m a b : k <| k_mem := m |> <| k_proc := a |> <| k_proc := b |> = k <| k_mem := m |> <| k_proc := b |>.
Proof. by destruct k. Qed.
Lemma call_exact p a h : u32 (tf_esp (p_tf p) - 4) = tf_esp (p_tf p) - 4 ->
  p <| p_tf ::= fun tf => tf <| tf_esp ::= fun e => u32 (e - 4) |> <| tf_eip := h |> |> <| p_pendingSignals := a |> =
  p <| p_pendingSignals := a |> <| p_tf ::= fun tf => tf <| tf_esp ::= fun e => e - 4 |> <| tf_eip := h |> |>.
Proof. intros H. trans (p <| p_pendingSignals := a |> <| p_tf := (p_tf p) <| tf_esp := u32 (tf_esp (p_tf p) - 4) |> <| tf_eip := h |> |>); [done|]. by rewrite H. Qed.

(** The call of a handler. *)
Lemma push_call k i p page h : aget (k_proc k) i = Some p -> user_page (k_mem k) (p_pgdir p) (tf_esp (p_tf p)) = Some page ->
  (virtual_address ← uva2ka (p_pgdir p) (tf_esp (p_tf p));
   let a2 := virtual_address + Z.land (u32 (tf_esp (p_tf p) - 4)) 0xFFF in
   st a2 (tf_eip (p_tf p)) ;;;
   p_set i (fun p => p <| p_tf ::= fun tf => tf <| tf_esp ::= fun e => u32 (e - 4) |> |>) ;;;
   p_set i (fun p => p <| p_tf ::= fun tf => tf <| tf_eip := h |> |>)) k =
  Ret tt (k <| k_mem := store32 (k_mem k) (page + Z.land (u32 (tf_esp (p_tf p) - 4)) 0xFFF) (tf_eip (p_tf p)) |>
    <| k_proc := <[Z.to_nat i := p <| p_tf ::= fun tf => tf <| tf_esp ::= fun e => u32 (e - 4) |> <| tf_eip := h |> |>]> (k_proc k) |>).
Proof.
  intros Hp Hpg. pose proof (aget_lt _ _ _ Hp) as Hi. run uva2ka_ok; [|done]. mstep. run p_put; [|done]. ksimpl.
  rewrite (p_put _ _ (p <| p_tf ::= fun tf => tf <| tf_esp ::= fun e => u32 (e - 4) |> |>)) by (ksimpl; by apply aget_put). ksimpl.
  rewrite list_insert_insert_eq, pushed_upd, call_upd. done.
Qed.

Lemma catches_eq v h : catches (v, h) = if (0 <? v) && negb (h =? SIGIGN) && negb (h =? SIGDFL) then Some h else None.
Proof. done. Qed.

Section one_signal.
Context k (i : Z) p n m' (v h : Z).
Context (Hp : aget (k_proc k) i = Some p) (Hs : signals_ok (k_mem k) p) (Hcons : cons_ready k) (Hset : settle (k_mach k) = k_mach k).
Context (Hv : p_pendingSignals p !! n = Some v) (Hh : p_signalHandlers p !! n = Some h) (Hst : stacked (k_mem k) p (take n (signals p)) m').
Local Abbreviation d := (during k i p n m').
(** The run [m] from [d] takes the signal. *)
Local Abbreviation takes_it m := (exists m'', m d = Ret tt (during k i p (S n) m'') /\ stacked (k_mem k) p (take (S n) (signals p)) m'').
Local Abbreviation clear_it := (p ← p_at i; ps ← wr "pendingSignals" (p_pendingSignals p) (Z.of_nat n) 0; p_set i (fun p => p <| p_pendingSignals := ps |>)).

Lemma one_sig : signals p !! n = Some (v, h).
Proof. unfold signals. apply lookup_zip_with_Some. eauto. Qed.
Lemma one_proc : aget (k_proc d) i = Some (signalled n p).
Proof. unfold during. ksimpl. apply aget_put. by eapply aget_lt. Qed.

Lemma deliver_quiet : v <= 0 -> takes_it (mret tt : K unit).
Proof.
  intros Hneg. apply Z.ltb_ge in Hneg. assert (Hc : catches (v, h) = None) by (rewrite catches_eq; by rewrite Hneg).
  assert (Ht : tells (v, h) = []) by (unfold tells; cbn [fst snd]; by rewrite Hneg).
  exists m'. split; [|by eapply stacked_none; [apply one_sig|..]]. unfold mret, M_ret. f_equal. unfold during. rewrite (take_S_r _ _ _ one_sig), told_snoc, Ht, app_nil_r. do 3 f_equal.
  rewrite (signalled_S n p v h Hv Hh), Hc. assert (Htk : taken v = v) by (unfold taken; by rewrite Hneg). rewrite Htk.
  rewrite (list_insert_id (p_pendingSignals (signalled n p)) n v) by (pose proof (signalled_pending n p v Hv) as Hg; by rewrite aget_nat in Hg). by destruct (signalled n p).
Qed.

Lemma deliver_tell s : 0 < v -> render s [] = Some s -> catches (v, h) = None -> tells (v, h) = s -> takes_it (cprintf s [] ;;; clear_it).
Proof.
  intros Hpos Hr Hc Ht. exists m'. split; [|by eapply stacked_none; [apply one_sig|..]]. pose proof (signalled_S n p v h Hv Hh) as Hsig. rewrite Hc, tf_same in Hsig.
  assert (Hrun : cprintf s [] d = Ret tt (d <| k_console ::= fun o => o ++ s |>)) by (erewrite cprintf_run; [|done|done]; rewrite cons_quiet by done; by rewrite kst_id).
  erewrite bind_Ret; [|exact Hrun]. rewrite (deliver_clear _ i n p v (signalled n p)); [|exact one_proc|done|done|lia]. f_equal.
  pose proof (during_S k i p n v h m' (k_mem d) (signalled (S n) p) s d Hv Hh eq_refl eq_refl Ht) as Hdur. rewrite mem_same, Hsig in Hdur. exact Hdur.
Qed.

(** Where the return address goes. *)
Lemma call_slot page : catches (v, h) = Some h -> stack_fits (k_mem k) p page ->
  let l := take n (signals p) in
  user_page (k_mem d) (p_pgdir (signalled n p)) (tf_esp (p_tf (signalled n p))) = Some page /\
  u32 (tf_esp (p_tf (signalled n p)) - 4) = tf_esp (p_tf (signalled n p)) - 4 /\
  page + Z.land (u32 (tf_esp (p_tf (signalled n p)) - 4)) 0xFFF = stack_top (k_mem k) p - 4 * (alen (caught l) + 1).
Proof.
  intros Hc Hfit l. change (tf_esp (p_tf (signalled n p))) with (tf_esp (p_tf p) - 4 * alen (caught l)). change (p_pgdir (signalled n p)) with (p_pgdir p). pose proof Hs as [_ _ [Hesp _] _ _].
  assert (Hlen : 0 <= alen (caught l) /\ alen (caught l) + 1 <= alen (caught (signals p))).
  { pose proof (caught_take (signals p) (S n)) as Hle. rewrite (take_S_r _ _ _ one_sig), caught_snoc, Hc, alen_app in Hle. split; [apply alen_nonneg|exact Hle]. }
  pose proof Hfit as [Hpg Hroom _ _]. assert (Hmod : tf_esp (p_tf p) mod PGSIZE <= tf_esp (p_tf p)) by (apply Z.mod_le; [lia|done]).
  assert (Hu : u32 (tf_esp (p_tf p) - 4 * alen (caught l) - 4) = tf_esp (p_tf p) - 4 * alen (caught l) - 4) by (apply u32_small; lia).
  split; [apply (stacked_user (k_mem k) p l m' page); [done|done|apply prefix_take|done|lia]|]. split; [done|].
  rewrite Hu. change 0xFFF with (2 ^ 12 - 1). rewrite land_ones_mod by lia. unfold stack_top. rewrite Hpg. change (default 0 (Some page)) with page.
  unfold PGSIZE in *. change (2 ^ 12) with 4096. clear -Hroom Hlen. generalize dependent (alen (caught (signals p))). intros N Hr Hn. dlia.
Qed.

Lemma deliver_call page : 0 < v -> catches (v, h) = Some h -> tells (v, h) = [] -> stack_fits (k_mem k) p page ->
  takes_it ((virtual_address ← uva2ka (p_pgdir (signalled n p)) (tf_esp (p_tf (signalled n p)));
    let a2 := virtual_address + Z.land (u32 (tf_esp (p_tf (signalled n p)) - 4)) 0xFFF in
    st a2 (tf_eip (p_tf (signalled n p))) ;;;
    p_set i (fun p => p <| p_tf ::= fun tf => tf <| tf_esp ::= fun e => u32 (e - 4) |> |>) ;;;
    p_set i (fun p => p <| p_tf ::= fun tf => tf <| tf_eip := h |> |>)) ;;; clear_it).
Proof.
  intros Hpos Hc Ht Hfit. destruct (call_slot page Hc Hfit) as (Hva & Hesp & Ha). pose proof (signalled_S n p v h Hv Hh) as Hsig. rewrite Hc in Hsig.
  eexists. split; [|apply (stacked_S _ _ _ v h m' page); [done|apply one_sig|done|done|done]].
  erewrite bind_Ret; [|apply push_call; [apply one_proc|exact Hva]]. rewrite Ha.
  rewrite (deliver_clear _ i n p v ((signalled n p) <| p_tf ::= fun tf => tf <| tf_esp ::= fun e => u32 (e - 4) |> <| tf_eip := h |> |>));
    [|ksimpl; apply aget_put; eapply aget_lt; apply one_proc|done|done|lia].
  f_equal. ksimpl. rewrite list_insert_insert_eq, proc_upd, call_exact by done. rewrite <- Hsig.
  rewrite <- (during_S k i p n v h m' _ (signalled (S n) p) [] d Hv Hh eq_refl eq_refl Ht), silent. reflexivity.
Qed.

Lemma deliver_one : takes_it (deliver i (Z.of_nat n)).
Proof.
  unfold deliver. erewrite bind_Ret; [|apply p_at_ok, one_proc]. erewrite bind_Ret; [|by apply rd_Some, signalled_pending].
  destruct (Z.ltb_spec 0 v) as [Hpos|Hneg]; cbn [when]; [|by apply deliver_quiet]. apply Z.ltb_lt in Hpos as Hb.
  erewrite bind_Ret; [|apply rd_Some; rewrite aget_nat; exact Hh].
  destruct (Z.eqb_spec h SIGIGN) as [E0|H0]; [|destruct (Z.eqb_spec h SIGDFL) as [E1|H1]].
  - apply deliver_tell; [done|done|rewrite catches_eq, E0; by rewrite andb_false_r|unfold tells; cbn [fst snd]; by rewrite Hb, E0].
  - apply deliver_tell; [done|done|rewrite catches_eq, E1; by rewrite andb_false_r|unfold tells; cbn [fst snd]; by rewrite Hb, E1].
  - apply Z.eqb_neq in H0, H1. assert (Hc : catches (v, h) = Some h) by (rewrite catches_eq; by rewrite Hb, H0, H1).
    assert (Hin : h ∈ caught (signals p)) by (apply list_elem_of_omap; exists (v, h); split; [eapply list_elem_of_lookup_2, one_sig|done]).
    destruct Hs as [_ _ _ Hkind Hstack]. destruct (Z.eqb_spec h SIGMSGSENT) as [E4|_]; [by rewrite E4 in Hin|].
    destruct Hstack as [page Hfit]; [by intros E; rewrite E in Hin; apply not_elem_of_nil in Hin|].
    apply (deliver_call page); [done|done|unfold tells; cbn [fst snd]; by rewrite Hb, H0, H1|done].
Qed.
End one_signal.

Lemma signals_all m p : signals_ok m p -> take (Z.to_nat NSIG) (signals p) = signals p.
Proof. intros [Hpl _ _ _ _]. apply firstn_all2. unfold signals. rewrite length_zip_with. unfold alen in Hpl. lia. Qed.

(** All signals. *)
Lemma deliver_all k i p :
  aget (k_proc k) i = Some p -> signals_ok (k_mem k) p -> cons_ready k -> settle (k_mach k) = k_mach k ->
  exists m', each (Z.to_nat NSIG) 0 (deliver i) k = Ret tt (during k i p (Z.to_nat NSIG) m') /\ pushed (k_mem k) p (signals p) m'.
Proof.
  intros Hp Hs Hcons Hset. pose proof Hs as [Hpl Hhl _ _ Hstack].
  destruct (each_ind (fun j s => exists m', s = during k i p (Z.to_nat j) m' /\ stacked (k_mem k) p (take (Z.to_nat j) (signals p)) m') (Z.to_nat NSIG) 0 (deliver i) k)
    as (s & Hrun & m' & -> & Hst).
  { exists (k_mem k). split; [by rewrite during_0|]. by split; [change (alen (caught (take (Z.to_nat 0) (signals p)))) with 0; lia|]. }
  { intros j s Hj (m' & -> & Hst). destruct (lookup_lt_is_Some_2 (p_pendingSignals p) (Z.to_nat j)) as [v Hv]; [unfold alen in Hpl; lia|].
    destruct (lookup_lt_is_Some_2 (p_signalHandlers p) (Z.to_nat j)) as [h Hh]; [unfold alen in Hhl; lia|].
    destruct (deliver_one k i p (Z.to_nat j) m' v h Hp Hs Hcons Hset Hv Hh Hst) as (m'' & Hrun & Hst').
    rewrite Z2Nat.id in Hrun by lia. eexists. split; [exact Hrun|]. exists m''. rewrite Z.add_1_r, Z2Nat.inj_succ by lia. done. }
  exists m'. split; [exact Hrun|]. change (Z.to_nat (0 + Z.of_nat (Z.to_nat NSIG))) with (Z.to_nat NSIG) in Hst.
  rewrite (signals_all _ _ Hs) in Hst. pose proof Hst as [Hw Hf]. split; [|exact Hf]. intros t v Ht Hv.
  destruct Hstack as [page Hfit]; [by intros E; rewrite E in Ht; change (alen (@nil Z)) with 0 in Ht; lia|].
  pose proof (stacked_user (k_mem k) p (signals p) m' page (tf_esp (p_tf p) - 4 * (t + 1)) Hs Hfit ltac:(done) Hst ltac:(lia)) as Hpage.
  unfold user_word. rewrite Hpage. cbn [mbind option_bind]. f_equal. rewrite <- (Hw t v Ht Hv). f_equal. unfold stack_top. destruct Hfit as [-> Hroom _ _].
  change (default 0 (Some page)) with page. unfold PGSIZE in *. clear -Hroom Ht. generalize dependent (alen (caught (signals p))). intros N Ht Hr. dlia.
Qed.
End signals.

Section dispatch.
Implicit Types (k : kernel) (mc : mach) (c cid i : Z).

(** [switchuvm] loads the page directory of the process. *)
Lemma switchuvm_ok k (i : nat) p :
  mach_ok (k_mach k) -> aget (k_proc k) (Z.of_nat i) = Some p -> p_kstack p <> 0 -> p_pgdir p <> 0 ->
  switchuvm (Some i) k = Ret tt (kst (k <| k_cr3 := V2P (p_pgdir p) |>) (settle (k_mach k))).
Proof.
  intros Hok Hp Hks Hpg. pose proof Hok as (ci & cp & Hon & _). unfold switchuvm. mstep.
  run (rd_Some _ _ _ _ _ Hp). destruct (Z.eqb_spec (p_kstack p) 0); [done|].
  destruct (Z.eqb_spec (p_pgdir p) 0); [done|]. run pushcli_ok; [|done].
  run mycpu_ok; [|by apply push_if|by eapply push_on]. mstep. knorm.
  rewrite (popcli_push _ id (k_mach k)); [|done|ksimpl; by destruct (push (k_mach k))].
  knorm. do 2 f_equal. by destruct (settle (k_mach k)).
Qed.

Lemma set_last_process_ok k v cid ct :
  mach_ok (k_mach k) -> lock_free container_lock (k_mach k) ->
  aget (k_container k) cid = Some ct ->
  set_last_process_of_container v cid k =
    Ret tt (kst (k <| k_container := <[Z.to_nat cid := ct <| ct_last_process := v |>]> (k_container k) |>)
                (settle (k_mach k))).
Proof.
  intros Hok Hl Hc. unfold set_last_process_of_container. run acquire_ok; [|done..].
  run ct_set_ok; [|done]. knorm. rewrite (release_acq _ _ (k_mach k)) by mach. by knorm.
Qed.

(** The machine of CPU [c] running process [i] inside the table lock. *)
Lemma running_mach mc c cp (i : nat) :
  resting mc -> on_cpu mc c cp ->
  exists cp', on_cpu (acq ptable_lock mc) c cp' /\
    let mc' := upd_cpu c (cp' <| c_proc := Some i |>) (acq ptable_lock mc) in
    mach_ok mc' /\ settle mc' = mc' /\ cur_proc mc' = Some i /\ holder_of ptable_lock mc' = ThisCpu.
Proof.
  intros [Hok Hd Hl] Hon. rewrite (depth_on _ _ _ Hon) in Hd.
  destruct (intena_acq _ ptable_lock _ _ Hon Hd) as (cp' & Hon' & _ & Hn). exists cp'. split; [done|].
  intros mc'. assert (Hon2 : on_cpu mc' c (cp' <| c_proc := Some i |>)) by by eapply on_cpu_upd.
  assert (Hok2 : mach_ok mc').
  { exists c, (cp' <| c_proc := Some i |>). split_and!; [done|simpl; lia|]. intros _. by apply push_if. }
  split_and!; [done| | |].
  - apply settle_inside; [done|]. rewrite (depth_on _ _ _ Hon2). simpl. lia.
  - unfold cur_proc. destruct Hon2 as (_ & -> & ->). done.
  - unfold holder_of, lock_of. change (m_locks mc') with (m_locks (acq ptable_lock mc)). rewrite acq_locks, lookup_insert_eq. simpl.
    rewrite bool_decide_true; [done|]. destruct Hon2 as (_ & -> & _). by destruct Hon as (_ & -> & _).
Qed.

(** Everything the scheduler relies on before a round. *)
Record sched_ready k c : Prop := {
  sr_rest : resting (k_mach k);
  sr_cpu : exists cp, on_cpu (k_mach k) c cp;
  sr_ct : ct_ready k;
  sr_len : alen (k_proc k) = NPROC;
  sr_cur : 0 <= k_current_container k < NCONTAINER;
  sr_conts : Forall (fun ct => alen (ct_proc ct) = NPROC /\ 0 <= ct_last_process ct < NPROC) (k_container k);
  sr_cons : k_cons_locking k = 0 \/ lock_free cons_lock (k_mach k);
  sr_pids : pids_fit k }.

(** The container of the round, and its process. *)
Definition round_container k : Z :=
  default (k_current_container k) (next_alive k (k_current_container k)).
Definition round_choice k : option Z :=
  match aget (k_container k) (round_container k) with
  | Some ct => first_after k (round_container k) (ct_last_process ct)
  | None => None
  end.

Lemma round_container_range k : ct_ready k -> 0 <= k_current_container k < NCONTAINER ->
  0 <= round_container k < NCONTAINER.
Proof.
  intros Hr Hc. unfold round_container, next_alive. destruct (scan _ _ 1) as [d|] eqn:E; [|done].
  apply scan_Some in E as (j & _ & Hf & _). cbv zeta in Hf.
  destruct (alive k _); [|done]. injection Hf as <-. by apply Z.mod_pos_bound.
Qed.

(** A round up to the choice of the process. *)
Lemma round_start k c :
  sched_ready k c ->
  let mc := settle ((k_mach k) <| m_if := true |>) in
  scheduler_round c k =
    (match round_choice k with Some i => run_process c (round_container k) i | None => mret tt end ;;;
     release ptable_lock)
    (kst (k <| k_current_container := round_container k |>) (acq ptable_lock mc)).
Proof.
  intros [Hrest Hcpu Hct Hlen Hcur Hconts _ Hpids] mc.
  pose proof (resting_if _ true Hrest) as Hrest1. pose proof (resting_settle _ Hrest1) as Hrest2.
  destruct Hct as [Hok Hclk Hclen].
  assert (Hct1 : ct_ready (k <| k_mach ::= fun mc => mc <| m_if := true |> |>)).
  { split; [apply Hrest1|done|done]. }
  pose proof (round_container_range k ltac:(done) Hcur) as Hrc.
  destruct (aget_is_Some (k_container k) (round_container k)) as [ct Hc]; [lia|].
  assert (Hctf : alen (ct_proc ct) = NPROC /\ 0 <= ct_last_process ct < NPROC).
  { rewrite Forall_lookup in Hconts. unfold aget in Hc. destruct (0 <=? round_container k); [|done].
    by apply (Hconts _ _ Hc). }
  unfold scheduler_round. mstep.
  erewrite bind_Ret; [|exact (get_container_to_run_ok _ Hct1 Hcur)].
  change (default _ _) with (round_container k).
  match goal with |- context [kst ?k1 (settle (k_mach ?k2))] =>
    change (kst k1 (settle (k_mach k2))) with (kst (k <| k_current_container := round_container k |>) mc) end.
  erewrite bind_Ret; [|by unfold get_container_processes_to_run; run ct_at_ok; [|done]].
  erewrite bind_Ret; [|by unfold get_container_last_process; run ct_at_ok; [|done]].
  run acquire_ok; [|ksimpl; apply Hrest2..]. knorm.
  run (pick_ok _ _ ct); [|done|done|apply Hctf|done|apply Hctf].
  unfold round_choice. rewrite Hc. by rewrite (first_after_ext k) by done.
Qed.

(** What the logger prints. *)
Definition dec (z : Z) : list Z := default [] (printint_chars z 10 1).
Definition logged k cid (p : proc) : list Z :=
  if (k_scheduler_logger k =? 1) && negb (p_container_id p =? 0) then
    bytes "Container + " ++ dec cid ++ bytes " : Scheduling process + " ++ dec (p_pid p) ++ [10]
  else [].

Lemma render_text s fmt args : forallb (fun c => negb (c =? 37)) s = true -> render (s ++ fmt) args = emit s (render fmt args).
Proof.
  induction s as [|c s IH]; intros H; [cbn [app]; unfold emit; by destruct (render fmt args)|]. cbn [forallb app] in *. apply andb_prop in H as [Hc H].
  cbn [render]. rewrite Hc, IH by done. unfold emit. by destruct (render fmt args).
Qed.
Lemma render_dec fmt z args o : printint_chars z 10 1 = Some o -> render (37 :: 100 :: fmt) (AInt z :: args) = emit o (render fmt args).
Proof. intros H. cbn [render negb Z.eqb Pos.eqb]. by rewrite H. Qed.

Lemma render_log a b :
  render (bytes "Container + %d : Scheduling process + %d" ++ [10]) [AInt a; AInt b] =
  Some (bytes "Container + " ++ dec a ++ bytes " : Scheduling process + " ++ dec b ++ [10]).
Proof.
  destruct (printint_chars_ok a 10 1) as (x & Hx & _); [by left|]. destruct (printint_chars_ok b 10 1) as (y & Hy & _); [by left|].
  change (bytes "Container + %d : Scheduling process + %d" ++ [10]) with (bytes "Container + " ++ 37 :: 100 :: bytes " : Scheduling process + " ++ 37 :: 100 :: [10]).
  rewrite render_text by reflexivity. rewrite (render_dec _ a _ _ Hx), render_text by reflexivity. rewrite (render_dec _ b _ _ Hy). unfold dec. rewrite Hx, Hy. reflexivity.
Qed.

(** What the CPU is handed over with. *)
Record dispatched k s c cid i (p : proc) : Prop := {
  di_proc : k_proc s = <[Z.to_nat i := (signalled (Z.to_nat NSIG) p) <| p_state := RUNNING |>]> (k_proc k);
  di_cur : cur_proc (k_mach s) = Some (Z.to_nat i);
  di_lock : holder_of ptable_lock (k_mach s) = ThisCpu;
  di_cr3 : k_cr3 s = V2P (p_pgdir p);
  di_cid : k_current_container s = cid;
  di_last : exists ct, aget (k_container s) cid = Some ct /\ ct_last_process ct = i;
  di_stack : pushed (k_mem k) p (signals p) (k_mem s);
  di_console : k_console s = k_console k ++ logged k cid p ++ told (signals p) }.

Lemma log_line_ok k cid p : cons_ready k -> settle (k_mach k) = k_mach k ->
  (when ((k_scheduler_logger k =? 1) && negb (p_container_id p =? 0))
     (cprintf (bytes "Container + %d : Scheduling process + %d" ++ [10]) [AInt cid; AInt (p_pid p)])) k =
  Ret tt (k <| k_console := k_console k ++ logged k cid p |>).
Proof.
  intros Hc Hset. unfold logged. destruct (_ && _); cbn [when].
  - erewrite cprintf_run; [|done|apply render_log]. by rewrite cons_quiet, kst_id by done.
  - rewrite app_nil_r. unfold mret, M_ret. by destruct k.
Qed.

Lemma run_process_switch k mc c cp cid ct i p :
  resting mc -> lock_free container_lock mc -> on_cpu mc c cp -> k_mach k = acq ptable_lock mc ->
  k_current_container k = cid -> aget (k_container k) cid = Some ct -> (k_cons_locking k = 0 \/ lock_free cons_lock mc) ->
  aget (k_proc k) i = Some p -> signals_ok (k_mem k) p -> p_kstack p <> 0 -> p_pgdir p <> 0 ->
  exists s cont, run_process c cid i k = Switch s cont /\ dispatched k s c cid i p.
Proof.
  intros Hrest Hcl Hon Hk Hcur Hct Hcons Hp Hsig Hks Hpg. pose proof Hrest as [Hok _ Hl].
  pose proof (aget_lt _ _ _ Hp) as Hi. pose proof (aget_lt _ _ _ Hct) as Hc.
  destruct (running_mach mc c cp (Z.to_nat i)) as (cp' & Hon' & Hok' & Hset & Hcp & Hhold); [done..|].
  assert (Hcons' : k_cons_locking k = 0 \/ lock_free cons_lock (acq ptable_lock mc)) by (destruct Hcons; [by left|right; by apply lock_free_acq]).
  unfold run_process. run p_at_ok; [|done]. mstep.
  erewrite bind_Ret; [|apply log_line_ok; [split; rewrite Hk; [mach|done]|rewrite Hk; by apply settle_acq]].
  run set_last_process_ok; [|ksimpl; rewrite Hk; mach..|done]. ksimpl. rewrite Hk, settle_acq by done.
  run cpu_at_ok; [|ksimpl; exact Hon']. run cpu_set_ok; [|ksimpl; exact Hon']. knorm. set (mc' := upd_cpu c _ _) in *.
  match goal with |- context [mbind _ (each _ _ _) ?k0] => assert (Hf : k_proc k0 = k_proc k /\ k_mem k0 = k_mem k /\ k_mach k0 = mc' /\ k_cons_locking k0 = k_cons_locking k /\ k_current_container k0 = cid /\
    k_console k0 = k_console k ++ logged k cid p /\ exists ct, aget (k_container k0) cid = Some ct /\ ct_last_process ct = i); [|generalize dependent k0] end.
  { ksimpl. split_and!; try done. eexists. split; [by apply aget_insert_eq|done]. }
  intros k0 (F1 & F2 & F3 & F4 & F5 & F6 & F7). rewrite <- F1 in Hp, Hi. rewrite <- F2 in Hsig.
  destruct (deliver_all k0 i p Hp Hsig) as (m' & Hdel & Hst); [split; rewrite F3, ?F4; [exact Hok'|exact Hcons']|by rewrite F3|].
  run Hdel. set (d := during k0 i p _ m'). assert (D1 : aget (k_proc d) i = Some (signalled (Z.to_nat NSIG) p)) by (unfold d, during; ksimpl; by apply aget_put).
  assert (D2 : k_mach d = mc') by exact F3. run (switchuvm_ok d (Z.to_nat i) (signalled (Z.to_nat NSIG) p)); [|by rewrite D2|by rewrite Z2Nat.id by lia|done|done].
  rewrite D2, Hset. run p_put; [|exact D1]. eexists _, _. split; [by apply bind_Switch|].
  split; ksimpl; try done.
  - unfold d, during. ksimpl. by rewrite list_insert_insert_eq, F1.
  - unfold d, during. ksimpl. by rewrite <- F2.
  - unfold d, during. ksimpl. by rewrite F6, <- app_assoc, (signals_all _ _ Hsig).
Qed.
End dispatch.

(** C30. A round of the scheduler: it runs the nearest eligible process after the
    last one of the next alive container.  The CPU is handed over with the
    table lock held, the process marked running and current on this CPU, its
    page directory loaded, and the choice recorded in the container, so the
    next search starts after it.  Its pending signals have been taken: for those
    with a handler in the program the process will enter the handlers, the last
    one first, and then go on where it was, with the return addresses on its own
    stack and no other byte of memory changed; the kernel's handlers, and the
    logger when it is on, have printed their lines.  When no process is eligible
    the round changes nothing but the current container.

    The console and the locks are free, process numbers of runnable processes are
    below [NPROC] (all in [sched_ready]); the process has a kernel stack and a page
    directory, [SIGMSGSENT] is not the handler of a pending signal, and its stack
    pointer is far enough above the start of a page mapped for the user for the
    return addresses ([signals_ok]). *)
Theorem scheduler_round_dispatch (k : kernel) (c : Z) :
  sched_ready k c ->
  match round_choice k with
  | None => (forall i, 0 <= i < NPROC -> runs k (round_container k) i = false) /\
      scheduler_round c k = Ret tt (kst (k <| k_current_container := round_container k |>)
        (settle ((k_mach k) <| m_if := true |>)))
  | Some i => runs k (round_container k) i = true /\
      forall p, aget (k_proc k) i = Some p -> signals_ok (k_mem k) p -> p_kstack p <> 0 -> p_pgdir p <> 0 ->
        exists s cont, scheduler_round c k = Switch s cont /\ dispatched k s c (round_container k) i p
  end.
Proof.
  intros Hr. pose proof (round_start k c Hr) as Hstart. cbv zeta in Hstart.
  destruct Hr as [Hrest [cp Hon] Hct Hlen Hcur Hconts Hcons Hpids].
  pose proof (resting_if _ true Hrest) as Hrest1. pose proof (resting_settle _ Hrest1) as Hrest2.
  pose proof (round_container_range k Hct Hcur) as Hrc.
  destruct (ct_get k _ Hct Hrc) as [ct Hc].
  assert (Hctf : alen (ct_proc ct) = NPROC /\ 0 <= ct_last_process ct < NPROC).
  { rewrite Forall_lookup in Hconts. unfold aget in Hc. destruct (0 <=? round_container k); [|done].
    by apply (Hconts _ _ Hc). }
  pose proof (first_after_spec k (round_container k) (ct_last_process ct) (proj2 Hctf) Hlen) as Hspec.
  unfold round_choice in *. rewrite Hc in *.
  destruct (first_after k (round_container k) (ct_last_process ct)) as [i|].
  - destruct Hspec as (Hruns & Hi & _). split; [done|]. intros p Hp Hsig Hks Hpg. rewrite Hstart.
    destruct (settle_on ((k_mach k) <| m_if := true |>) c cp) as (cp1 & Hon1 & _); [by apply on_cpu_if|].
    destruct (run_process_switch (kst (k <| k_current_container := round_container k |>)
      (acq ptable_lock (settle ((k_mach k) <| m_if := true |>))))
      (settle ((k_mach k) <| m_if := true |>)) c cp1 (round_container k) ct i p)
      as (s & cont & Hrun & Hd); try done.
    { apply lock_free_settle. apply Hct. }
    { destruct Hcons; [by left|right; by apply lock_free_settle]. }
    exists s. eexists. split; [by apply bind_Switch|]. destruct Hd. by split.
  - split; [done|]. rewrite Hstart. mstep.
    rewrite (release_acq _ _ (settle ((k_mach k) <| m_if := true |>))) by (ksimpl; try apply Hrest2; done).
    knorm. by rewrite settle_settle by apply Hrest1.
Qed.
