(* ===== verification/Syscall.v ===== *)
(** * System call arguments and dispatch ([syscall.c])

    A system call finds its arguments on the user stack.  The fetching
    routines check that what they read lies inside the process, and [syscall]
    counts the call when tracing is on and runs the handler the table holds
    for its number. *)

From S2P Require Import Prelude State Spinlock CString Kalloc Console Vm Message Container Proc.
Open Scope Z_scope.

(** [myproc()->...]: the current process, which must not be null. *)
Definition curproc : K Z := c ← myproc; deref c.
Definition me : K proc := i ← curproc; p_at i.

(** A C variable that is set only on success: reading it unset is a fault. *)
Definition the (v : option Z) : K Z :=
  match v with Some x => mret x | None => fault "uninitialised" end.

(** ** Arguments: [None] is the error return -1 *)

Definition fetchint (addr : Z) : K (option Z) :=
  p ← me;
  if (p_sz p <=? addr) || (p_sz p <? u32 (addr + 4)) then mret None
  else
    k ← get;
    mret (Some (i32 (load32 (k_mem k) addr))).

(** The position of the first NUL in [s, ep), [fuel] bytes at most. *)
Fixpoint find_nul (fuel : nat) (m : mem) (s ep : Z) : option Z :=
  match fuel with
  | O => None
  | S fuel' => if s <? ep then if m s =? 0 then Some s else find_nul fuel' m (s + 1) ep else None
  end.

(** The address and the length of the string. *)
Definition fetchstr (addr : Z) : K (option (Z * Z)) :=
  p ← me;
  if p_sz p <=? addr then mret None
  else
    k ← get;
    mret (match find_nul (Z.to_nat (p_sz p - addr)) (k_mem k) addr (p_sz p) with
          | Some s => Some (addr, s - addr)
          | None => None
          end).

Definition argint (n : Z) : K (option Z) :=
  p ← me;
  fetchint (u32 (tf_esp (p_tf p) + 4 + 4 * n)).

Definition argptr (n size : Z) : K (option Z) :=
  p ← me;
  i ← argint n;
  match i with
  | None => mret None
  | Some i =>
      if (size <? 0) || (p_sz p <=? u32 i) || (p_sz p <? u32 (u32 i + size)) then mret None
      else mret (Some (u32 i))
  end.

Definition argstr (n : Z) : K (option (Z * Z)) :=
  addr ← argint n;
  match addr with
  | None => mret None
  | Some addr => fetchstr (u32 addr)
  end.

(** ** Dispatch *)

(** [syscall_trace[num]+=1] *)
Definition count_call (num : Z) : K unit :=
  t ← gets k_syscall_trace;
  n ← rd "syscall_trace" t num;
  t' ← wr "syscall_trace" t num (i32 (n + 1));
  modify (fun k => k <| k_syscall_trace := t' |>).

Definition set_eax (i v : Z) : K unit :=
  p_set i (fun p => p <| p_tf ::= fun tf => tf <| tf_eax := u32 v |> |>).

(** The table has an entry for every number from 1 to 44. *)
Definition NELEM_syscalls : Z := 45.

Definition syscall (syscalls : Z -> option (K Z)) : K unit :=
  i ← curproc;
  p ← p_at i;
  let num := i32 (tf_eax (p_tf p)) in
  tr ← gets k_sys_trace;
  when (tr =? 1) (count_call num) ;;;
  match (if (0 <? num) && (num <? NELEM_syscalls) then syscalls num else None) with
  | Some f => v ← f; set_eax i v
  | None =>
      p ← p_at i;
      cprintf (bytes "%d %s: unknown sys call %d" ++ [10])
        [AInt (p_pid p); AStr (Some (cname (p_name p))); AInt num] ;;;
      set_eax i (-1)
  end.

(** ** What the checks guarantee *)

Section args.
Implicit Types (k : kernel) (p : proc).

(** Process [i], with structure [p], is the current one. *)
Record running k (i : nat) p : Prop := {
  rn_ok : mach_ok (k_mach k);
  rn_cur : cur_proc (k_mach k) = Some i;
  rn_proc : aget (k_proc k) (Z.of_nat i) = Some p }.

Lemma running_settle k i p : running k i p -> running (kst k (settle (k_mach k))) i p.
Proof. intros [Hok Hc Hp]. split; ksimpl; [by apply settle_ok|by rewrite cur_proc_settle|done]. Qed.

Lemma curproc_ok k i p :
  running k i p -> curproc k = Ret (Z.of_nat i) (kst k (settle (k_mach k))).
Proof. intros [Hok Hc Hp]. unfold curproc. run myproc_ok; [|done]. by rewrite Hc. Qed.

Lemma me_ok k i p : running k i p -> me k = Ret p (kst k (settle (k_mach k))).
Proof.
  intros Hr. unfold me. run curproc_ok; [|done]. apply p_at_ok. ksimpl. apply Hr.
Qed.

(** The address of argument [n], and its value if it lies in the process. *)
Definition arg_addr p (n : Z) : Z := u32 (tf_esp (p_tf p) + 4 + 4 * n).
Definition arg_word k p (n : Z) : option Z :=
  if arg_addr p n + 4 <=? p_sz p then Some (load32 (k_mem k) (arg_addr p n)) else None.

Definition user_proc p : Prop := 0 <= p_sz p <= KERNBASE.

Lemma argint_ok k i p n :
  running k i p -> user_proc p ->
  argint n k = Ret (i32 <$> arg_word k p n) (kst k (settle (k_mach k))).
Proof.
  intros Hr Hsz. unfold argint. run me_ok; [|done]. unfold fetchint.
  run me_ok; [|by apply running_settle]. knorm. rewrite settle_settle by apply Hr.
  fold (arg_addr p n). unfold arg_word.
  assert (Ha : 0 <= arg_addr p n < 2 ^ 32) by (unfold arg_addr, u32; dlia).
  unfold user_proc, KERNBASE in Hsz.
  destruct (Z.leb_spec (p_sz p) (arg_addr p n)).
  - rewrite orb_true_l. by destruct (Z.leb_spec (arg_addr p n + 4) (p_sz p)); [lia|].
  - rewrite orb_false_l. replace (u32 (arg_addr p n + 4)) with (arg_addr p n + 4) by (unfold u32; dlia).
    destruct (Z.leb_spec (arg_addr p n + 4) (p_sz p)), (Z.ltb_spec (p_sz p) (arg_addr p n + 4)); done || lia.
Qed.

Lemma u32_i32 z : u32 (i32 z) = u32 z.
Proof.
  unfold i32. cbv zeta. destruct (_ <? _); unfold u32; [by rewrite Z.mod_mod by lia|].
  replace (z mod 2 ^ 32 - 2 ^ 32) with (z mod 2 ^ 32 + -1 * 2 ^ 32) by lia.
  by rewrite Z.mod_add, Z.mod_mod by lia.
Qed.

Lemma find_nul_spec m fuel s ep :
  0 <= s -> ep - s <= Z.of_nat fuel ->
  match find_nul fuel m s ep with
  | Some e => s <= e < ep /\ m e = 0 /\ forall a, s <= a < e -> m a <> 0
  | None => forall a, s <= a < ep -> m a <> 0
  end.
Proof.
  revert s. induction fuel as [|fuel IH]; intros s Hs Hf; cbn [find_nul]; [intros; lia|].
  destruct (Z.ltb_spec s ep); [|intros; lia]. destruct (Z.eqb_spec (m s) 0).
  - split_and!; [lia..|done|intros; lia].
  - specialize (IH (s + 1) ltac:(lia) ltac:(lia)). destruct (find_nul fuel m (s + 1) ep) as [e|].
    + destruct IH as (? & ? & Hb). split_and!; [lia..|done|]. intros a Ha.
      destruct (decide (a = s)) as [->|]; [done|]. apply Hb. lia.
    + intros a Ha. destruct (decide (a = s)) as [->|]; [done|]. apply IH. lia.
Qed.
End args.

(** A system call's pointer argument is accepted exactly when the word it is
    read from and all the [size] bytes it points to lie inside the process, so
    the additions of the checks never wrap; fetching it changes nothing. *)
Theorem argptr_spec (k : kernel) (i : nat) (p : proc) (n size : Z) :
  running k i p -> user_proc p -> mem_ok (k_mem k) -> - 2 ^ 31 <= size < 2 ^ 31 ->
  argptr n size k =
    Ret (match arg_word k p n with
         | Some a => if (0 <=? size) && (a <? p_sz p) && (a + size <=? p_sz p) then Some a else None
         | None => None
         end) (kst k (settle (k_mach k))).
Proof.
  intros Hr Hsz Hm Hsize. unfold argptr. run me_ok; [|done].
  run argint_ok; [|by apply running_settle|done]. knorm. rewrite settle_settle by apply Hr.
  change (arg_word (kst k _) p n) with (arg_word k p n).
  destruct (arg_word k p n) as [a|] eqn:Ea; [|done].
  assert (Hra : 0 <= a < 2 ^ 32).
  { unfold arg_word in Ea. destruct (_ <=? _); [|done]. injection Ea as <-. by apply load32_range. }
  cbn [fmap option_fmap option_map]. rewrite u32_i32. unfold user_proc, KERNBASE in Hsz.
  replace (u32 a) with a by (unfold u32; dlia).
  destruct (Z.ltb_spec size 0), (Z.leb_spec 0 size), (Z.leb_spec (p_sz p) a), (Z.ltb_spec a (p_sz p));
    try (done || lia).
  replace (u32 (a + size)) with (a + size) by (unfold u32; dlia).
  destruct (Z.ltb_spec (p_sz p) (a + size)), (Z.leb_spec (a + size) (p_sz p)); done || lia.
Qed.

(** A system call's string argument is accepted exactly when it starts and is
    NUL-terminated inside the process, and the length returned is that of the
    string. *)
Theorem argstr_spec (k : kernel) (i : nat) (p : proc) (n : Z) :
  running k i p -> user_proc p -> mem_ok (k_mem k) ->
  exists r, argstr n k = Ret r (kst k (settle (k_mach k))) /\
    match r with
    | Some (a, len) => arg_word k p n = Some a /\ 0 <= len /\ a + len < p_sz p /\
        k_mem k (a + len) = 0 /\ forall j, 0 <= j < len -> k_mem k (a + j) <> 0
    | None => forall a e, arg_word k p n = Some a -> a <= e < p_sz p -> k_mem k e <> 0
    end.
Proof.
  intros Hr Hsz Hm. unfold argstr. run argint_ok; [|done..].
  destruct (arg_word k p n) as [a|] eqn:Ea; [|by eexists].
  assert (Hra : 0 <= a < 2 ^ 32).
  { unfold arg_word in Ea. destruct (_ <=? _); [|done]. injection Ea as <-. by apply load32_range. }
  cbn [fmap option_fmap option_map]. rewrite u32_i32. replace (u32 a) with a by (unfold u32; dlia).
  unfold fetchstr. run me_ok; [|by apply running_settle]. knorm. rewrite settle_settle by apply Hr.
  destruct (Z.leb_spec (p_sz p) a).
  { eexists. split; [done|]. intros a' e [= <-] He. lia. }
  mstep. eexists. split; [done|]. ksimpl.
  pose proof (find_nul_spec (k_mem k) (Z.to_nat (p_sz p - a)) a (p_sz p) ltac:(lia) ltac:(lia)) as Hf.
  destruct (find_nul _ _ _ _) as [e|].
  - destruct Hf as (? & Hz & Hb). split_and!; [done|lia..| |].
    + by replace (a + (e - a)) with e by lia.
    + intros j Hj. apply Hb. lia.
  - intros a' e [= <-] He. by apply Hf.
Qed.
