(* ===== verification/Sysproc.v ===== *)
(** * Process system calls ([sysproc.c])

    The handlers of the process, message, signal and container system calls.
    A handler that ignores an error of the argument fetching goes on with an
    unset variable. *)

From S2P Require Import Prelude State Spinlock CString Kalloc Console Vm Message Container Proc Syscall.
Open Scope Z_scope.

Definition tickslock : lockid := ("tickslock", 0).
Definition ticks_chan : chan := CObj "ticks" 0.

Section sysproc.
Context {fuel : Fuel}.

Definition sys_wait : K Z := wait wakeups.

Definition sys_kill : K Z :=
  pid ← argint 0;
  match pid with None => mret (-1) | Some pid => kill pid end.

Definition sys_getpid : K Z := p ← me; mret (p_pid p).

Definition sys_sbrk : K Z :=
  n ← argint 0;
  match n with
  | None => mret (-1)
  | Some n =>
      p ← me;
      let addr := i32 (p_sz p) in
      r ← growproc n;
      if r <? 0 then mret (-1) else mret addr
  end.

(** [ticks - ticks0 < n] compares as unsigned. *)
Fixpoint sleep_loop (f : nat) (ticks0 n : Z) : K Z :=
  match f with
  | O => fun _ => Diverge
  | S f' =>
      t ← gets k_ticks;
      if u32 (t - ticks0) <? u32 n then
        p ← me;
        if negb (p_killed p =? 0) then release tickslock ;;; mret (-1)
        else sleep ticks_chan (Some tickslock) ;;; sleep_loop f' ticks0 n
      else release tickslock ;;; mret 0
  end.

Definition sys_sleep : K Z :=
  n ← argint 0;
  match n with
  | None => mret (-1)
  | Some n =>
      acquire tickslock ;;;
      ticks0 ← gets k_ticks;
      sleep_loop wakeups ticks0 n
  end.

Definition sys_uptime : K Z :=
  acquire tickslock ;;;
  xticks ← gets k_ticks;
  release tickslock ;;;
  mret (i32 xticks).

(** ** Tracing *)

Definition sys_toggle : K unit :=
  tr ← gets k_sys_trace;
  if tr =? 0 then
    each 34 0 (fun i =>
      t ← gets k_syscall_trace;
      t' ← wr "syscall_trace" t i 0;
      modify (fun k => k <| k_syscall_trace := t' |>)) ;;;
    modify (fun k => k <| k_sys_trace := 1 |>)
  else modify (fun k => k <| k_sys_trace := 0 |>).

Definition numToCall : list string := [
  "random"; "sys_fork"; "sys_exit"; "sys_wait"; "sys_pipe"; "sys_read"; "sys_kill"; "sys_exec";
  "sys_fstat"; "sys_chdir"; "sys_dup"; "sys_getpid"; "sys_sbrk"; "sys_sleep"; "sys_uptime";
  "sys_open"; "sys_write"; "sys_mknod"; "sys_unlink"; "sys_link"; "sys_mkdir"; "sys_close";
  "sys_toggle"; "sys_add"; "sys_ps"; "sys_send"; "sys_recv"; "sys_print_count"; "sys_send_multi";
  "sys_signal"; "sys_sigraise"; "sys_halt"; "sys_recv_multi"; "sys_change_state";
  "sys_create_container"; "sys_destroy_container"; "sys_join_container"; "sys_leave_container";
  "sys_scheduler_log_on"; "sys_scheduler_log_off"; "sys_container_malloc"; "sys_memory_log_on";
  "sys_memory_log_off"; "sys_get_file_container_id"; "sys_get_container_id"].

Definition sys_print_count : K unit :=
  each 33 1 (fun i =>
    t ← gets k_syscall_trace;
    n ← rd "syscall_trace" t i;
    when (negb (n =? 0))
      (s ← rd "numToCall" numToCall i;
       cprintf (bytes "%s %d" ++ [10]) [AStr (Some (bytes s)); AInt n])).

Definition sys_add : K Z :=
  a ← argint 0;
  b ← argint 1;
  a ← the a;
  b ← the b;
  mret (i32 (a + b)).

Definition sys_ps : K Z := p ← me; print_ps (p_container_id p) ;;; mret 0.

Definition sys_halt : K Z := outb 0xf4 0 ;;; mret 0.

(** ** Messages *)

Definition sys_send : K Z :=
  sender_pid ← argint 0;
  rec_pid ← argint 1;
  p ← argptr 2 8;
  sender_pid ← the sender_pid;
  rec_pid ← the rec_pid;
  p ← the p;
  sendCode ← send_message sender_pid rec_pid p;
  wakeup (CInt rec_pid) ;;;
  mret sendCode.

Definition sys_recv : K Z :=
  p ← argptr 0 8;
  q ← me;
  e ← isReceiverQueueEmpty (p_pid q);
  if e =? 1 then
    sleep_receiver ;;;
    q ← me;
    p ← the p;
    receive_msg (p_pid q) p
  else
    q ← me;
    p ← the p;
    receive_msg (p_pid q) p.

Definition sys_change_state : K Z :=
  a ← argint 0;
  a ← the a;
  (if a =? 0 then sleep_receiver ;;; mret tt
   else q ← me; wakeup (CInt (p_pid q))) ;;;
  mret 0.

(** The body of the loop over the receivers. *)
Fixpoint send_each (n : nat) (i sender_pid rec_pid msg flag : Z) : K Z :=
  match n with
  | O => mret flag
  | S n' =>
      m ← gets k_mem;
      let r := i32 (load32 m (rec_pid + 4 * i)) in
      sendCode ← sent_to_proc_buffer sender_pid r msg;
      m ← gets k_mem;
      let r := i32 (load32 m (rec_pid + 4 * i)) in
      interruptCode ← sigraise r SIGMSGSENT;
      send_each n' (i + 1) sender_pid rec_pid msg
        (if (sendCode <? 0) || (interruptCode <? 0) then -1 else flag)
  end.

(** Two arrays of [len] words are put on the kernel stack. *)
Definition sys_send_multi : K Z :=
  sender_pid ← argint 0;
  len ← argint 3;
  lenv ← the len;
  rec_temp ← argptr 1 lenv;
  msg_temp ← argptr 2 MessageSize;
  rec_pid ← the rec_temp;
  if (lenv <? 0) || (KSTACKSIZE <? 8 * lenv) then fault "stack"
  else
    sender_pid ← (if 0 <? lenv then the sender_pid else mret 0);
    msg ← (if 0 <? lenv then the msg_temp else mret 0);
    send_each (Z.to_nat lenv) 0 sender_pid rec_pid msg 0.

Definition sys_recv_multi : K Z :=
  p ← argptr 0 8;
  q ← me;
  p ← the p;
  receive_from_procbuffer (p_pid q) p.

Definition sys_signal : K Z :=
  signummer ← argint 0;
  match signummer with
  | None => mret (-1)
  | Some signummer =>
      handler ← argint 1;
      match handler with
      | None => mret (-1)
      | Some handler => signal signummer (u32 handler)
      end
  end.

Definition sys_sigraise : K Z :=
  to ← argint 0;
  signummer ← argint 1;
  to ← the to;
  signummer ← the signummer;
  sigraise to signummer.

(** ** Containers *)

Definition sys_create_container : K Z := get_container.

Definition sys_destroy_container : K Z :=
  container_id ← argint 0;
  container_id ← the container_id;
  destroy_container_kernel container_id ;;;
  p ← me;
  q ← me;
  destroy_container_processes (p_pid p) container_id (p_container_id q) ;;;
  mret 0.

Definition sys_join_container : K Z :=
  container_id ← argint 0;
  i ← curproc;
  container_id ← the container_id;
  p_set i (fun p => p <| p_container_id := container_id |>) ;;;
  p ← me;
  set_process_to_container (p_pid p) container_id.

Definition sys_leave_container : K Z :=
  p ← me;
  if p_container_id p =? 0 then mret (-1)
  else
    p ← me;
    q ← me;
    stat ← remove_process_from_container (p_pid p) (p_container_id q);
    i ← curproc;
    p_set i (fun p => p <| p_container_id := 0 |>) ;;;
    mret stat.

Definition sys_scheduler_log_on : K Z := set_scheduler_logger 1 ;;; mret 0.
Definition sys_scheduler_log_off : K Z := set_scheduler_logger 0 ;;; mret 0.

Definition sys_container_malloc : K Z :=
  units ← argint 0;
  units ← the units;
  if units <? 4096 then
    p ← me;
    r ← get_space_in_container (p_container_id p) units;
    let '(addr, t) := r : Z * Z in
    p ← me;
    ml ← gets k_memory_log;
    lg ← rd "memory_log" ml (p_container_id p);
    when (lg =? 1)
      (p ← me;
       cprintf (bytes "Container %d : GVA %d -> HVA %p" ++ [10])
         [AInt (p_container_id p); AInt t; AInt addr]) ;;;
    mret addr
  else mret (-1).

Definition set_memory_log (v : Z) : K Z :=
  p ← me;
  ml ← gets k_memory_log;
  ml' ← wr "memory_log" ml (p_container_id p) v;
  modify (fun k => k <| k_memory_log := ml' |>) ;;;
  mret 0.
Definition sys_memory_log_on : K Z := set_memory_log 1.
Definition sys_memory_log_off : K Z := set_memory_log 0.

Definition sys_get_container_id : K Z := p ← me; mret (p_container_id p).
End sysproc.

(** ** Joining and leaving a container *)

Section containers.
Implicit Types (k : kernel) (p : proc).

(** Process [i] in container [cid]. *)
Definition in_container k (i : nat) p cid : kernel :=
  k <| k_proc := <[i := p <| p_container_id := cid |>]> (k_proc k) |>.

Lemma running_in_container k i p cid :
  running k i p -> running (in_container k i p cid) i (p <| p_container_id := cid |>).
Proof.
  intros [Hok Hc Hp]. pose proof (aget_lt _ _ _ Hp). split; [done..|].
  unfold in_container. ksimpl. rewrite aget_nat. apply list_lookup_insert_eq. unfold alen in *. lia.
Qed.

Lemma ct_ready_settle k : ct_ready k -> ct_ready (kst k (settle (k_mach k))).
Proof. intros [Hok Hl Hn]. split; ksimpl; [by apply settle_ok|by apply lock_free_settle|done]. Qed.

Lemma join_ok k i p w c :
  running k i p -> user_proc p -> ct_ready k -> arg_word k p 0 = Some w ->
  aget (k_container k) (i32 w) = Some c -> alen (ct_proc c) = NPROC ->
  let k1 := in_container k i p (i32 w) in
  sys_join_container k =
    if ct_status c =? 0 then Ret (-1) (kst k1 (settle (k_mach k)))
    else if within 0 NPROC (p_pid p) then
      Ret 0 (kst (set_member k1 (i32 w) c (p_pid p) 1) (settle (k_mach k)))
    else Fault "container.proc".
Proof.
  intros Hr Hsz Hct Hw Hc Hl k1. unfold sys_join_container. run argint_ok; [|done..]. rewrite Hw.
  cbn [fmap option_fmap option_map]. run curproc_ok; [|by apply running_settle]. knorm.
  rewrite settle_settle by apply Hr. mstep. run p_put; [|ksimpl; apply Hr]. knorm. rewrite Nat2Z.id.
  fold (in_container k i p (i32 w)). fold k1.
  run me_ok; [|apply (running_settle k1), running_in_container, Hr]. knorm. rewrite settle_settle by apply Hr.
  assert (Hct1 : ct_ready k1) by (destruct Hct; by split).
  pose proof (member_op_ok (kst k1 (settle (k_mach k))) 1 (p_pid p) (i32 w) c
    (ct_ready_settle k1 Hct1) (or_intror eq_refl) Hc Hl) as Hm.
  etransitivity; [exact Hm|]. unfold set_member. knorm. by rewrite settle_settle by apply Hr.
Qed.

Lemma leave_ok k i p c :
  running k i p -> ct_ready k -> p_container_id p <> 0 -> aget (k_container k) (p_container_id p) = Some c ->
  alen (ct_proc c) = NPROC -> ct_status c <> 0 -> 0 <= p_pid p < NPROC ->
  sys_leave_container k =
    Ret 0 (kst (in_container (set_member k (p_container_id p) c (p_pid p) 0) i p 0) (settle (k_mach k))).
Proof.
  intros Hr Hct Hn Hc Hl Hs Hpid. unfold sys_leave_container. run me_ok; [|done].
  destruct (Z.eqb_spec (p_container_id p) 0); [done|]. run me_ok; [|by apply running_settle]. knorm.
  rewrite settle_settle by apply Hr. run me_ok; [|by apply running_settle]. knorm.
  rewrite settle_settle by apply Hr.
  pose proof (member_op_ok (kst k (settle (k_mach k))) 0 (p_pid p) (p_container_id p) c
    (ct_ready_settle k Hct) (or_introl eq_refl) Hc Hl) as Hm.
  destruct (Z.eqb_spec (ct_status c) 0); [done|]. rewrite within_true in Hm by lia.
  erewrite bind_Ret by exact Hm. cbv beta. unfold set_member. knorm. rewrite settle_settle by apply Hr.
  run curproc_ok; [|apply (running_settle (set_member k (p_container_id p) c (p_pid p) 0)); split; apply Hr].
  knorm. rewrite settle_settle by apply Hr. run p_put; [|ksimpl; apply Hr]. knorm. by rewrite Nat2Z.id.
Qed.
End containers.

(** C34. Joining a container puts the process in it and returns 0 when it is
    alive; leaving it afterwards clears the membership and moves the process to
    container 0.  When the container is dead the call returns -1, but the
    process has already been moved; and a process id of [NPROC] or more is an
    access outside the membership table. *)
Theorem join_leave_spec (k : kernel) (i : nat) (p : proc) (w : Z) (c : container) :
  running k i p -> user_proc p -> ct_ready k -> arg_word k p 0 = Some w ->
  aget (k_container k) (i32 w) = Some c -> alen (ct_proc c) = NPROC ->
  if ct_status c =? 0 then
    exists k1, sys_join_container k = Ret (-1) k1 /\ k_container k1 = k_container k /\
      p_container_id <$> k_proc k1 !! i = Some (i32 w)
  else if within 0 NPROC (p_pid p) then
    exists k1, sys_join_container k = Ret 0 k1 /\
      k1 = kst (set_member (in_container k i p (i32 w)) (i32 w) c (p_pid p) 1) (settle (k_mach k)) /\
      (i32 w <> 0 -> exists k2, sys_leave_container k1 = Ret 0 k2 /\
        k2 = kst (set_member (in_container k i p 0) (i32 w) c (p_pid p) 0) (settle (k_mach k)))
  else sys_join_container k = Fault "container.proc".
Proof.
  intros Hr Hsz Hct Hw Hc Hl. pose proof (join_ok k i p w c Hr Hsz Hct Hw Hc Hl) as Hj. cbv zeta in Hj.
  pose proof (running_in_container k i p (i32 w) Hr) as Hr1.
  destruct (Z.eqb_spec (ct_status c) 0).
  { eexists. split; [exact Hj|]. ksimpl. split; [done|]. by rewrite <- aget_nat, (rn_proc _ _ _ Hr1). }
  destruct (within_spec 0 NPROC (p_pid p)) as [Hpid|]; [|done].
  eexists. split; [exact Hj|]. split; [done|]. intros Hn.
  pose proof (aget_lt _ _ _ Hc) as Hlt. pose proof (aget_lt _ _ _ (rn_proc _ _ _ Hr)) as Hi.
  set (k1 := set_member (in_container k i p (i32 w)) (i32 w) c (p_pid p) 1).
  assert (Hk1 : running k1 i (p <| p_container_id := i32 w |>)) by (destruct Hr1; by split).
  assert (Hct1 : ct_ready k1).
  { destruct Hct. split; [done..|]. unfold k1, set_member. ksimpl. by rewrite alen_insert. }
  eexists. split.
  - eapply (leave_ok _ i _ (c <| ct_proc := <[Z.to_nat (p_pid p) := 1]> (ct_proc c) |>)).
    + exact (running_settle k1 i _ Hk1).
    + exact (ct_ready_settle k1 Hct1).
    + done.
    + unfold k1, set_member. ksimpl. by apply aget_insert_eq.
    + rsimpl. by rewrite alen_insert.
    + done.
    + unfold NPROC in *. rsimpl. lia.
  - unfold k1, set_member, in_container. knorm. rewrite settle_settle by apply Hr.
    f_equal. destruct k. unfold upd. simpl. by rewrite !list_insert_insert_eq.
Qed.
