(* ===== verification/SysExamples.v ===== *)
(** * Concrete processes and system calls

    A small machine on which the hypotheses of the theorems of [Proc] and
    [Dispatch] hold, and with process 1 given a page of memory those of the
    theorems of [Syscall] and [Sysproc]. *)

From S2P Require Import Prelude State Spinlock CString Kalloc Console Vm Message Container Proc Dispatch Syscall.
From S2P Require Import Sysproc.
Open Scope Z_scope.

(** ** A concrete machine

    Process 1 runs, process 2 sleeps on channel 7 in container 1, process 3 is
    runnable in container 1; one page is free. *)

Definition proc_at (s : procstate) (pid cid : Z) : proc :=
  proc0 <| p_state := s |> <| p_pid := pid |> <| p_container_id := cid |>
    <| p_kstack := 0x80200000 |> <| p_pgdir := 0x80201000 |> <| p_chan := CInt 7 |>.

Definition mach_procs : mach :=
  mkmach 0 true 1 [mkcpu 0 0 false (Some 0%nat)]
    (<[ptable_lock := mklock "ptable" false None]> (<[container_lock := mklock "container_table" false None]>
     (<[("procbuffer_lock", 3) := mklock "procbuffer" false None]> {[("tickslock", 0) := mklock "time" false None]}))).

Definition kernel_procs : kernel :=
  (kernel0 0x80400000) <| k_mach := mach_procs |> <| k_freelist := 0x80400000 |> <| k_nextpid := 4 |>
    <| k_proc := [proc_at RUNNING 1 0; proc_at SLEEPING 2 1; proc_at RUNNABLE 3 1] ++
                 replicate 61 proc0 |>
    <| k_container := [cont0 <| ct_status := 1 |>;
                       cont0 <| ct_status := 1 |> <| ct_proc := <[3%nat := 1]> (replicate 64 0) |>] ++
                      replicate 13 cont0 |>
    <| k_mem := fun a => if (0 <=? a) && (a <? 4096) && (a mod 4 =? 0) then byte (a / 4 + 1) else 0 |>.

Lemma kernel_procs_ready : pt_ready kernel_procs.
Proof. split; [by exists 0, (mkcpu 0 0 false (Some 0%nat)); split_and!|by eexists|done]. Qed.

Lemma mach_procs_resting : resting mach_procs.
Proof. split; [apply kernel_procs_ready|reflexivity|by eexists]. Qed.

Lemma mach_procs_ticks : lock_free ("tickslock", 0) mach_procs.
Proof. by eexists. Qed.

Lemma kernel_procs_all (P : proc -> Prop) :
  P (proc_at RUNNING 1 0) -> P (proc_at SLEEPING 2 1) -> P (proc_at RUNNABLE 3 1) -> P proc0 ->
  Forall P (k_proc kernel_procs).
Proof. intros. change (Forall P ([proc_at RUNNING 1 0; proc_at SLEEPING 2 1; proc_at RUNNABLE 3 1] ++ replicate 61 proc0)).
  apply Forall_app. split; [by repeat constructor|by apply Forall_replicate]. Qed.

Lemma kernel_procs_pids : pids_fit kernel_procs.
Proof.
  intros i p Hp Hs. pose proof (aget_lt _ _ _ Hp) as Hi. change (alen (k_proc kernel_procs)) with 64 in Hi.
  destruct (decide (i = 0)) as [->|]; [by injection Hp as <-|].
  destruct (decide (i = 1)) as [->|]; [by injection Hp as <-|].
  destruct (decide (i = 2)) as [->|]; [injection Hp as <-; done|].
  unfold aget in Hp. destruct (Z.leb_spec 0 i); [|done]. unfold kernel_procs in Hp. ksimpl.
  change (k_proc _) with ([proc_at RUNNING 1 0; proc_at SLEEPING 2 1; proc_at RUNNABLE 3 1] ++ replicate 61 proc0) in Hp.
  rewrite lookup_app_r in Hp by (simpl; lia). apply lookup_replicate in Hp as [-> _]. done.
Qed.

Lemma wakeup_exact_witness :
  exists k', wakeup (CInt 7) kernel_procs = Ret tt k' /\
    p_state <$> aget (k_proc k') 1 = Some RUNNABLE /\ p_state <$> aget (k_proc k') 0 = Some RUNNING.
Proof.
  destruct (wakeup_exact (CInt 7) kernel_procs kernel_procs_ready) as (k' & Hrun & _ & Hp).
  exists k'. split; [exact Hrun|].
  destruct (Hp 0 _ eq_refl) as (p0 & H0 & _ & Hn0). destruct (Hp 1 _ eq_refl) as (p1 & H1 & Hw1 & _).
  rewrite H0, H1, Hn0, Hw1.
  - split; reflexivity.
  - split; reflexivity.
  - intros [H _]. discriminate H.
Defined.

Lemma kill_spec_witness :
  pt_ready kernel_procs /\ exists k', kill 2 kernel_procs = Ret 0 k'.
Proof.
  split; [exact kernel_procs_ready|].
  destruct (kill_spec kernel_procs 2 kernel_procs_ready) as [(i & p & _ & _ & _ & Hrun & _)|[Hno _]].
  - by eexists.
  - exfalso. apply (Hno (proc_at SLEEPING 2 1)); [|done]. right. by left.
Defined.

Lemma destroy_container_processes_outcome_witness :
  destroy_container_processes 1 1 0 kernel_procs = Panic "acquire".
Proof. exact (destroy_container_processes_outcome kernel_procs 1 1 0 kernel_procs_ready). Defined.

Lemma sigraise_spec_witness :
  sigraise 2 8 kernel_procs = Fault "pendingSignals" /\ exists k', sigraise 2 3 kernel_procs = Ret 0 k'.
Proof.
  assert (Hs : Forall (fun p => alen (p_pendingSignals p) = NSIG) (k_proc kernel_procs)).
  { by apply kernel_procs_all. }
  split.
  - destruct (sigraise_spec kernel_procs 2 8 kernel_procs_ready Hs) as (p & _ & _ & Hrun). exact Hrun.
  - destruct (sigraise_spec kernel_procs 2 3 kernel_procs_ready Hs) as (p & _ & _ & Hrun).
    eexists. exact Hrun.
Defined.

Lemma pick_nearest_witness :
  exists r, pick (Z.to_nat NPROC) 1 (Z.rem (0 + 1) NPROC) kernel_procs = Ret r kernel_procs /\ r <> None.
Proof.
  destruct (pick_nearest kernel_procs 1 0
    (cont0 <| ct_status := 1 |> <| ct_proc := <[3%nat := 1]> (replicate 64 0) |>)
    eq_refl eq_refl eq_refl kernel_procs_pids (conj (Z.le_refl 0) eq_refl)) as (r & Hrun & Hr).
  exists r. split; [exact Hrun|]. intros ->. specialize (Hr 2 ltac:(unfold NPROC; lia)).
  vm_compute in Hr. discriminate Hr.
Defined.

Lemma pick_pid_overflow_witness :
  pick 1 1 0 (kernel_procs <| k_proc := [proc_at RUNNABLE 64 0] |>) = Fault "container_processes".
Proof.
  apply (pick_pid_overflow (kernel_procs <| k_proc := [proc_at RUNNABLE 64 0] |>) 1 0
    (proc_at RUNNABLE 64 0) (cont0 <| ct_status := 1 |> <| ct_proc := <[3%nat := 1]> (replicate 64 0) |>) 0); done.
Defined.

Lemma sleep_atomic_witness :
  exists s cont, sleep (CObj "ticks" 0) (Some ("tickslock", 0))
      (kst kernel_procs (acq ("tickslock", 0) mach_procs)) = Switch s cont /\
    p_state <$> aget (k_proc s) 0 = Some SLEEPING /\ holder_of ptable_lock (k_mach s) = ThisCpu.
Proof.
  destruct (sleep_atomic (kst kernel_procs (acq ("tickslock", 0) mach_procs)) mach_procs (CObj "ticks" 0)
    ("tickslock", 0) 0 (proc_at RUNNING 1 0) mach_procs_resting mach_procs_ticks ltac:(discriminate)
    eq_refl eq_refl eq_refl) as (s & cont & Hrun & Hs & _ & Hh & _).
  exists s, cont. split; [exact Hrun|]. split; [|exact Hh]. rewrite Hs. reflexivity.
Defined.

Lemma kernel_procs_free : free_pages kernel_procs [0x80400000].
Proof.
  split; [by vm_compute|apply Forall_singleton|apply NoDup_singleton].
  unfold page_ok. split_and!; vm_compute; congruence.
Qed.

Lemma allocproc_spec_witness :
  exists k', allocproc kernel_procs = Ret (Some 3) k' /\ free_pages k' [].
Proof.
  assert (Hlt : Forall (fun p => p_pid p < k_nextpid kernel_procs) (k_proc kernel_procs))
    by (apply kernel_procs_all; reflexivity).
  destruct (allocproc_spec kernel_procs [0x80400000] kernel_procs_ready ltac:(intros H; by destruct H)
    kernel_procs_free ltac:(simpl; lia) Hlt) as (p & r & k' & _ & _ & _ & Hrun & Hr & _ & Hf & _).
  rewrite Hr in Hrun. exists k'. split; [exact Hrun|exact Hf].
Defined.

Lemma procbuffer_roundtrip_witness :
  exists k1 k2, sent_to_proc_buffer 1 3 0 kernel_procs = Ret 0 k1 /\
    receive_from_procbuffer 3 400 k1 = Ret 0 k2 /\
    k_mem k2 = write_words (k_mem kernel_procs) 400 (words (k_mem kernel_procs) 0).
Proof.
  apply (procbuffer_roundtrip kernel_procs 1 3 0 400 kernel_procs_ready); [done|by eexists|].
  by apply kernel_procs_all.
Defined.

(** Process 3 with two signals pending for handlers at 0x100 and 0x200, one for
    the kernel's, a stack in its first page, and the logger on. *)
Definition proc_sig : proc :=
  (proc_at RUNNABLE 3 1) <| p_pendingSignals := [0; 1; 0; 1; 1; 0; 0; 0] |> <| p_signalHandlers := [1; 1; 1; 0x100; 0x200; 1; 1; 1] |>
    <| p_tf := tf0 <| tf_esp := 0xffc |> <| tf_eip := 0x40 |> |>.
Definition mem_sig : mem := store32 (store32 (fun _ => 0) 0x80201000 0x202007) 0x80202000 0x203007.
Definition kernel_sig : kernel :=
  kernel_procs <| k_proc ::= <[2%nat := proc_sig]> |> <| k_mem := mem_sig |> <| k_scheduler_logger := 1 |>.

Lemma kernel_sig_sched : sched_ready kernel_sig 0.
Proof.
  split; [exact mach_procs_resting|by exists (mkcpu 0 0 false (Some 0%nat))| | |done| |by left|].
  - split; [change (mach_ok mach_procs); apply mach_procs_resting|change (lock_free container_lock mach_procs); by eexists|vm_compute; reflexivity].
  - vm_compute. reflexivity.
  - apply Forall_app with (l1 := firstn 2 (k_container kernel_procs)) (l2 := replicate 13 cont0). split.
    + by repeat constructor.
    + by apply Forall_replicate.
  - intros j p Hj Hr. change (k_proc kernel_sig) with (<[Z.to_nat 2 := proc_sig]> (k_proc kernel_procs)) in Hj.
    destruct (Z.eq_dec j 2) as [->|Hne]; [rewrite aget_insert_eq in Hj by (vm_compute; done); injection Hj as <-; vm_compute; done|].
    rewrite aget_insert_ne in Hj by lia. by apply (kernel_procs_pids j p).
Qed.

Lemma proc_sig_ok : signals_ok (k_mem kernel_sig) proc_sig.
Proof.
  split; [done|done|split; [vm_compute; done|repeat constructor; vm_compute; done]| |].
  - change (caught (signals proc_sig)) with [0x100; 0x200]. rewrite !not_elem_of_cons. split_and!; [done..|apply not_elem_of_nil].
  - intros _. exists 0x80203000. split; [vm_compute; reflexivity|vm_compute; done|vm_compute; by left|].
    intros t Ht. vm_compute in Ht. injection Ht as <-. vm_compute. by left.
Qed.

Lemma scheduler_round_dispatch_witness :
  exists s cont, scheduler_round 0 kernel_sig = Switch s cont /\ k_current_container s = 1 /\
    (p_state <$> aget (k_proc s) 2) = Some RUNNING /\ ((fun p => (tf_eip (p_tf p), tf_esp (p_tf p))) <$> aget (k_proc s) 2) = Some (0x200, 0xff4) /\
    user_word (k_mem s) 0x80201000 0xff8 = Some 0x40 /\ user_word (k_mem s) 0x80201000 0xff4 = Some 0x100 /\
    k_console s = bytes "Container + 1 : Scheduling process + 3" ++ [10] ++ bytes "This is default handler" ++ [10].
Proof.
  assert (H0 : 0 <= 0 < alen (caught (signals proc_sig))) by (change (alen (caught (signals proc_sig))) with 2; lia).
  assert (H1 : 0 <= 1 < alen (caught (signals proc_sig))) by (change (alen (caught (signals proc_sig))) with 2; lia).
  pose proof (scheduler_round_dispatch kernel_sig 0 kernel_sig_sched) as H.
  replace (round_choice kernel_sig) with (Some 2) in H by (vm_compute; reflexivity). destruct H as [_ H].
  destruct (H proc_sig eq_refl proc_sig_ok ltac:(discriminate) ltac:(discriminate)) as (s & cont & Hrun & Hd).
  exists s, cont. split; [exact Hrun|]. destruct Hd as [Hp _ _ _ Hc _ [Hw _] Ho]. rewrite Hp, Hc, Ho. split; [reflexivity|]. split; [vm_compute; reflexivity|]. split; [vm_compute; reflexivity|].
  split; [exact (Hw 0 0x40 H0 eq_refl)|]. split; [exact (Hw 1 0x100 H1 eq_refl)|]. vm_compute. reflexivity.
Defined.

(** Argument [n] is word [n] of memory, which holds [n + 1]. *)
Definition proc_sys : proc :=
  (proc_at RUNNING 1 0) <| p_sz := 4096 |> <| p_tf := tf0 <| tf_esp := 0xfffffffc |> |>.

Definition kernel_sys : kernel :=
  kernel_procs <| k_proc ::= <[0%nat := proc_sys]> |>.

Lemma kernel_sys_running : running kernel_sys 0 proc_sys.
Proof.
  split.
  - change (mach_ok mach_procs). apply mach_procs_resting.
  - change (cur_proc mach_procs = Some 0%nat). reflexivity.
  - vm_compute. reflexivity.
Qed.

Lemma proc_sys_user : user_proc proc_sys.
Proof. unfold user_proc, KERNBASE. simpl. lia. Qed.

Lemma kernel_sys_mem : mem_ok (k_mem kernel_sys).
Proof.
  intros a. change (k_mem kernel_sys a) with
    (if (0 <=? a) && (a <? 4096) && (a mod 4 =? 0) then byte (a / 4 + 1) else 0).
  destruct (_ && _); [apply byte_range|lia].
Qed.

Lemma kernel_sys_ct : ct_ready kernel_sys.
Proof.
  split.
  - change (mach_ok mach_procs). apply mach_procs_resting.
  - change (lock_free container_lock mach_procs). by eexists.
  - vm_compute. reflexivity.
Qed.

Lemma argptr_spec_witness :
  argptr 2 8 kernel_sys = Ret (Some 3) (kst kernel_sys (settle mach_procs)) /\
  argptr 2 4094 kernel_sys = Ret None (kst kernel_sys (settle mach_procs)).
Proof.
  split.
  - apply (argptr_spec kernel_sys 0 proc_sys 2 8 kernel_sys_running proc_sys_user kernel_sys_mem). lia.
  - apply (argptr_spec kernel_sys 0 proc_sys 2 4094 kernel_sys_running proc_sys_user kernel_sys_mem). lia.
Defined.

Lemma argstr_spec_witness :
  exists r, argstr 3 kernel_sys = Ret r (kst kernel_sys (settle mach_procs)) /\ r <> None.
Proof.
  destruct (argstr_spec kernel_sys 0 proc_sys 3 kernel_sys_running proc_sys_user kernel_sys_mem) as (r & Hrun & Hr).
  exists r. split; [exact Hrun|]. intros ->.
  apply (Hr 4 5 eq_refl); [simpl; lia|reflexivity].
Defined.

Lemma join_leave_spec_witness :
  exists k1 k2, sys_join_container kernel_sys = Ret 0 k1 /\ sys_leave_container k1 = Ret 0 k2.
Proof.
  destruct (join_leave_spec kernel_sys 0 proc_sys 1
    (cont0 <| ct_status := 1 |> <| ct_proc := <[3%nat := 1]> (replicate 64 0) |>)
    kernel_sys_running proc_sys_user kernel_sys_ct eq_refl eq_refl eq_refl) as (k1 & H1 & _ & H2).
  destruct H2 as (k2 & H2 & _); [discriminate|]. exists k1, k2. split; [exact H1|exact H2].
Defined.
