(* ===== verification/Sleeplock.v ===== *)
(** * Sleep locks ([sleeplock.c])

    Long-term locks: a process that finds one held sleeps instead of spinning.
    The lock word is protected by a spinlock of the same name. *)

From S2P Require Import Prelude State Spinlock CString Kalloc Console Vm Message Container Proc Syscall.
Open Scope Z_scope.

Definition sleep0 : sleeplock := mksleep 0 0.
Definition sl_at (l : lockid) : K sleeplock := gets (fun k => default sleep0 (k_sleep k !! l)).
Definition sl_set (l : lockid) (f : sleeplock -> sleeplock) : K unit :=
  modify (fun k => k <| k_sleep ::= fun m => <[l := f (default sleep0 (m !! l))]> m |>).

(** The address of the lock as a wait channel. *)
Definition sl_chan (l : lockid) : chan := CObj l.1 l.2.

Section sleeplock.
Context {fuel : Fuel}.

Definition initsleeplock (l : lockid) : K unit :=
  initlock l "sleep lock" ;;;
  sl_set l (fun s => s <| sl_locked := 0 |>) ;;;
  sl_set l (fun s => s <| sl_pid := 0 |>).

Fixpoint wait_unlocked (f : nat) (l : lockid) : K unit :=
  match f with
  | O => fun _ => Diverge
  | S f' =>
      s ← sl_at l;
      if negb (sl_locked s =? 0) then sleep (sl_chan l) (Some l) ;;; wait_unlocked f' l
      else mret tt
  end.

Definition acquiresleep (l : lockid) : K unit :=
  acquire l ;;;
  wait_unlocked wakeups l ;;;
  sl_set l (fun s => s <| sl_locked := 1 |>) ;;;
  p ← me;
  sl_set l (fun s => s <| sl_pid := p_pid p |>) ;;;
  release l.

Definition releasesleep (l : lockid) : K unit :=
  acquire l ;;;
  sl_set l (fun s => s <| sl_locked := 0 |>) ;;;
  sl_set l (fun s => s <| sl_pid := 0 |>) ;;;
  wakeup (sl_chan l) ;;;
  release l.

Definition holdingsleep (l : lockid) : K bool :=
  acquire l ;;;
  s ← sl_at l;
  r ← (if negb (sl_locked s =? 0) then p ← me; mret (sl_pid s =? p_pid p) else mret false);
  release l ;;;
  mret r.
End sleeplock.

(** ** Without contention *)

Section uncontended.
Context {fuel : Fuel}.
Implicit Types (k : kernel) (p : proc) (l : lockid).

Definition sl_of k l : sleeplock := default sleep0 (k_sleep k !! l).
Definition sl_put k l s : kernel := k <| k_sleep := <[l := s]> (k_sleep k) |>.

Lemma sl_set_ok k l f : sl_set l f k = Ret tt (sl_put k l (f (sl_of k l))).
Proof. done. Qed.

Lemma running_acq k i p l :
  running k i p -> running (kst k (acq l (k_mach k))) i p.
Proof. intros [Hok Hc Hp]. split; ksimpl; [by apply acq_ok|by rewrite cur_proc_acq|done]. Qed.

(** [acquiresleep] after its spinlock has been taken. *)
Definition take_sleep (f : nat) l : K unit :=
  wait_unlocked f l ;;;
  sl_set l (fun s => s <| sl_locked := 1 |>) ;;;
  p ← me;
  sl_set l (fun s => s <| sl_pid := p_pid p |>) ;;;
  release l.

Lemma take_sleep_ok k mc i p l f :
  (0 < f)%nat -> mach_ok mc -> lock_free l mc -> cur_proc mc = Some i -> k_mach k = acq l mc ->
  aget (k_proc k) (Z.of_nat i) = Some p -> sl_locked (sl_of k l) = 0 ->
  take_sleep f l k = Ret tt (kst (sl_put k l (mksleep 1 (p_pid p))) (settle mc)).
Proof.
  intros Hf Hok Hl Hc Hk Hp Hs. unfold take_sleep.
  assert (Hw : wait_unlocked f l k = Ret tt k).
  { destruct f as [|f]; [lia|]. cbn [wait_unlocked]. mstep. fold (sl_of k l). by rewrite Hs. }
  rewrite (bind_Ret _ _ _ _ _ Hw). run sl_set_ok. unfold sl_put.
  run me_ok; [|split; ksimpl; rewrite ?Hk; [by apply acq_ok|by rewrite cur_proc_acq|exact Hp]].
  knorm. rewrite Hk, settle_acq by done. run sl_set_ok. unfold sl_put, sl_of. knorm.
  rewrite (release_acq _ _ mc) by done. knorm.
  rewrite lookup_insert_eq. by rewrite insert_insert_eq.
Qed.

(** Taking a free lock records the process. *)
Lemma acquiresleep_ok k i p l :
  (0 < wakeups)%nat -> running k i p -> lock_free l (k_mach k) -> sl_locked (sl_of k l) = 0 ->
  acquiresleep l k = Ret tt (kst (sl_put k l (mksleep 1 (p_pid p))) (settle (k_mach k))).
Proof.
  intros Hf Hr Hl Hs. unfold acquiresleep. run acquire_ok; [|apply Hr|done].
  etransitivity; [apply (take_sleep_ok _ (k_mach k) i p); [done|apply Hr|done|apply Hr|done|apply Hr|done]|].
  unfold sl_put. by knorm.
Qed.

Lemma holdingsleep_ok k i p l :
  running k i p -> lock_free l (k_mach k) ->
  holdingsleep l k =
    Ret (negb (sl_locked (sl_of k l) =? 0) && (sl_pid (sl_of k l) =? p_pid p)) (kst k (settle (k_mach k))).
Proof.
  intros Hr Hl. unfold holdingsleep. run acquire_ok; [|apply Hr|done]. mstep. ksimpl.
  fold (sl_of k l). destruct (sl_locked (sl_of k l) =? 0); cbn [negb andb].
  - mstep. erewrite bind_Ret by (apply (release_acq _ _ (k_mach k)); [apply Hr|done..]). by knorm.
  - erewrite bind_Ret; [|run me_ok; [reflexivity|by apply running_acq]]. cbv beta. knorm.
    rewrite settle_acq by apply Hr.
    erewrite bind_Ret by (apply (release_acq _ _ (k_mach k)); [apply Hr|done..]). by knorm.
Qed.

(** Releasing it wakes the processes that wait for it. *)
Lemma releasesleep_ok k l :
  pt_ready k -> lock_free l (k_mach k) -> l <> ptable_lock ->
  releasesleep l k =
    Ret tt (kst ((sl_put k l (mksleep 0 0)) <| k_proc ::= fmap (wake (sl_chan l)) |>) (settle (k_mach k))).
Proof.
  intros Hpt Hl Hne. pose proof Hpt as [Hok Hlk Hlen]. unfold releasesleep. run acquire_ok; [|done..].
  run sl_set_ok. unfold sl_put. knorm. run sl_set_ok. unfold sl_put, sl_of. knorm.
  rewrite lookup_insert_eq, insert_insert_eq.
  run wakeup_ok; [|split; ksimpl; [by apply acq_ok|by apply lock_free_acq|done]].
  knorm. rewrite settle_acq by done. rewrite (release_acq _ _ (k_mach k)) by done. unfold sl_put. by knorm.
Qed.
End uncontended.

(** Sleep locks.  A free lock is taken at once, with the process recorded as
    its holder.  A held one puts the process to sleep on the lock's channel
    with the table lock held and the lock's spinlock free, so that the release
    cannot be missed; when the process is resumed and the lock is free, it
    takes it, and is its holder. *)
Theorem acquiresleep_spec {fuel : Fuel} (k : kernel) (i : nat) (p : proc) (l : lockid) :
  (1 < wakeups)%nat -> resting (k_mach k) -> running k i p -> lock_free l (k_mach k) -> l <> ptable_lock ->
  if sl_locked (sl_of k l) =? 0 then
    exists k', acquiresleep l k = Ret tt k' /\ k' = kst (sl_put k l (mksleep 1 (p_pid p))) (settle (k_mach k)) /\
      holdingsleep l k' = Ret true k'
  else
    exists s cont, acquiresleep l k = Switch s cont /\
      s = kst (k <| k_proc ::= <[i := p <| p_chan := sl_chan l |> <| p_state := SLEEPING |>]> |>)
              (acq ptable_lock (settle (k_mach k))) /\
      lock_free l (k_mach s) /\
      forall s' mc p', resting mc -> lock_free l mc -> cur_proc mc = Some i ->
        k_mach s' = acq ptable_lock mc -> aget (k_proc s') (Z.of_nat i) = Some p' -> sl_locked (sl_of s' l) = 0 ->
        exists k', cont s' = Ret tt k' /\ sl_of k' l = mksleep 1 (p_pid p') /\ lock_free l (k_mach k').
Proof.
  intros Hf Hrest Hr Hl Hne. destruct (Z.eqb_spec (sl_locked (sl_of k l)) 0) as [E|E].
  - eexists. split; [by apply (acquiresleep_ok k i p); [lia|..]|]. split; [done|].
    assert (Hr' : running (sl_put k l (mksleep 1 (p_pid p))) i p) by (destruct Hr; by split).
    rewrite (holdingsleep_ok _ i p); [|by apply (running_settle (sl_put k l (mksleep 1 (p_pid p))))
                                      |ksimpl; by apply lock_free_settle].
    unfold sl_of. ksimpl. rewrite settle_settle by apply Hr. unfold sl_put. ksimpl. rewrite lookup_insert_eq.
    cbn [default sl_locked sl_pid]. rewrite Z.eqb_refl. by knorm.
  - destruct (sleep_ok (kst k (acq l (k_mach k))) (k_mach k) (sl_chan l) l i p)
      as (s & cont & Hsw & Hs & Hls & _ & Hres); [done..|apply Hr|apply Hr|].
    destruct wakeups as [|f] eqn:Ef; [lia|]. exists s. eexists. split.
    { unfold acquiresleep. run acquire_ok; [|apply Hr|done]. rewrite Ef.
      cbn [wait_unlocked]. apply bind_Switch. mstep. ksimpl. fold (sl_of k l).
      destruct (Z.eqb_spec (sl_locked (sl_of k l)) 0); [done|]. cbn [negb]. by apply bind_Switch. }
    split; [rewrite Hs; by knorm|]. split; [done|]. intros s' mc p' Hrest' Hl' Hc' Hs' Hp' Hfree.
    pose proof (aget_lt _ _ _ Hp') as Hlt. pose proof (resting_if _ (m_if (k_mach k)) Hrest') as Hrest2.
    rewrite (Hres s' mc p') by done. cbn [res_bind]. destruct f as [|f]; [lia|]. eexists. split.
    + etransitivity; [apply (take_sleep_ok _ (settle (mc <| m_if := m_if (k_mach k) |>)) i
        (p' <| p_chan := CInt 0 |>) l (S f))|reflexivity]; ksimpl.
      * lia.
      * apply settle_ok, Hrest2.
      * apply lock_free_settle. exact Hl'.
      * rewrite cur_proc_settle by apply Hrest2. exact Hc'.
      * done.
      * rewrite aget_nat. apply list_lookup_insert_eq. unfold alen in Hlt. lia.
      * exact Hfree.
    + unfold sl_of, sl_put. ksimpl. rewrite lookup_insert_eq. split; [done|].
      apply lock_free_settle, lock_free_settle. exact Hl'.
Qed.
