(* ===== verification/Bio.v ===== *)
(** * The buffer cache ([bio.c]) and the memory disk ([memide.c])

    Thirty buffers on a doubly linked list, most recently used first.  The
    cache is written against the block device, an interface with the one
    operation [iderw]; [memide.c] is one implementation of it. *)

From S2P Require Import Prelude State Spinlock CString Kalloc Console Vm Message Container Proc Syscall Sleeplock.
Open Scope Z_scope.

Definition B_VALID : Z := 2.
Definition B_DIRTY : Z := 4.

Definition bcache_lock : lockid := ("bcache", 0).
Definition buf_lock (b : Z) : lockid := ("buffer", b).
(** [&bcache.head] *)
Definition HEAD : Z := NBUF.

Definition buf_at (b : Z) : K buf := k ← get; rd "buf" (k_buf k) b.
Definition buf_set (b : Z) (f : buf -> buf) : K unit :=
  r ← buf_at b;
  k ← get;
  bs ← wr "buf" (k_buf k) b (f r);
  modify (fun k => k <| k_buf := bs |>).

(** The disk driver: sync a buffer with the disk. *)
Class BlockDev := iderw : Z -> K unit.

Section bio.
Context {fuel : Fuel} {disk : BlockDev}.

(** Inserting [b] at the front of the list. *)
Definition link_front (b : Z) : K unit :=
  h ← buf_at HEAD;
  buf_set (b_next h) (fun x => x <| b_prev := b |>) ;;;
  buf_set HEAD (fun x => x <| b_next := b |>).

Definition binit : K unit :=
  initlock bcache_lock "bcache" ;;;
  buf_set HEAD (fun h => h <| b_prev := HEAD |>) ;;;
  buf_set HEAD (fun h => h <| b_next := HEAD |>) ;;;
  each (Z.to_nat NBUF) 0 (fun b =>
    h ← buf_at HEAD;
    buf_set b (fun x => x <| b_next := b_next h |>) ;;;
    buf_set b (fun x => x <| b_prev := HEAD |>) ;;;
    initsleeplock (buf_lock b) ;;;
    link_front b).

(** The two searches; [n] bounds the length of the list. *)
Fixpoint find_cached (n : nat) (dev blockno b : Z) : K (option Z) :=
  if b =? HEAD then mret None
  else
    match n with
    | O => fun _ => Diverge
    | S n' =>
        x ← buf_at b;
        if (b_dev x =? dev) && (b_blockno x =? blockno) then mret (Some b)
        else find_cached n' dev blockno (b_next x)
    end.
Fixpoint find_unused (n : nat) (b : Z) : K (option Z) :=
  if b =? HEAD then mret None
  else
    match n with
    | O => fun _ => Diverge
    | S n' =>
        x ← buf_at b;
        if (b_refcnt x =? 0) && (Z.land (b_flags x) B_DIRTY =? 0) then mret (Some b)
        else find_unused n' (b_prev x)
    end.

Definition bget (dev blockno : Z) : K Z :=
  acquire bcache_lock ;;;
  h ← buf_at HEAD;
  r ← find_cached (Z.to_nat NBUF) dev blockno (b_next h);
  match r with
  | Some b =>
      buf_set b (fun x => x <| b_refcnt ::= fun n => u32 (n + 1) |>) ;;;
      release bcache_lock ;;;
      acquiresleep (buf_lock b) ;;;
      mret b
  | None =>
      h ← buf_at HEAD;
      r ← find_unused (Z.to_nat NBUF) (b_prev h);
      match r with
      | Some b =>
          buf_set b (fun x => x <| b_dev := dev |>) ;;;
          buf_set b (fun x => x <| b_blockno := blockno |>) ;;;
          buf_set b (fun x => x <| b_flags := 0 |>) ;;;
          buf_set b (fun x => x <| b_refcnt := 1 |>) ;;;
          release bcache_lock ;;;
          acquiresleep (buf_lock b) ;;;
          mret b
      | None => panic "bget: no buffers"
      end
  end.

Definition bread (dev blockno : Z) : K Z :=
  b ← bget dev blockno;
  x ← buf_at b;
  when (Z.land (b_flags x) B_VALID =? 0) (iderw b) ;;;
  mret b.

Definition bwrite (b : Z) : K unit :=
  h ← holdingsleep (buf_lock b);
  if negb h then panic "bwrite"
  else
    buf_set b (fun x => x <| b_flags ::= fun f => Z.lor f B_DIRTY |>) ;;;
    iderw b.

Definition brelse (b : Z) : K unit :=
  h ← holdingsleep (buf_lock b);
  if negb h then panic "brelse"
  else
    releasesleep (buf_lock b) ;;;
    acquire bcache_lock ;;;
    buf_set b (fun x => x <| b_refcnt ::= fun n => u32 (n - 1) |>) ;;;
    x ← buf_at b;
    when (b_refcnt x =? 0)
      (buf_set (b_next x) (fun y => y <| b_prev := b_prev x |>) ;;;
       x ← buf_at b;
       buf_set (b_prev x) (fun y => y <| b_next := b_next x |>) ;;;
       h ← buf_at HEAD;
       buf_set b (fun y => y <| b_next := b_next h |>) ;;;
       buf_set b (fun y => y <| b_prev := HEAD |>) ;;;
       link_front b) ;;;
    release bcache_lock.
End bio.

(** ** The memory disk *)

Module Memide.

Definition ideinit : K unit := modify (fun k => k <| k_disksize := alen (k_disk k) |>).

Definition ideintr : K unit := mret tt.

Definition rw (b : Z) : K unit :=
  h ← holdingsleep (buf_lock b);
  if negb h then panic "iderw: buf not locked"
  else
    x ← buf_at b;
    if Z.land (b_flags x) (Z.lor B_VALID B_DIRTY) =? B_VALID then panic "iderw: nothing to do"
    else if negb (b_dev x =? 1) then panic "iderw: request not for disk 1"
    else
      size ← gets k_disksize;
      if u32 size <=? b_blockno x then panic "iderw: block out of range"
      else
        disk ← gets k_disk;
        (if negb (Z.land (b_flags x) B_DIRTY =? 0) then
           buf_set b (fun x => x <| b_flags ::= fun f => Z.land f (Z.lnot B_DIRTY) |>) ;;;
           d ← wr "memdisk" disk (b_blockno x) (b_data x);
           modify (fun k => k <| k_disk := d |> <| k_dtrace ::= fun t => t ++ [(b_blockno x, b_data x)] |>)
         else
           d ← rd "memdisk" disk (b_blockno x);
           buf_set b (fun x => x <| b_data := d |>)) ;;;
        buf_set b (fun x => x <| b_flags ::= fun f => Z.lor f B_VALID |>).

#[export] Instance memide : BlockDev := rw.
End Memide.
