(* ===== verification/Cache.v ===== *)
(** * The buffer cache, proved ([bio.c])

    The list of buffers is a circular doubly linked list in order of last use;
    no two buffers hold the same block; a buffer that nobody uses and that has
    no pending change holds what is on the disk. *)

From S2P Require Import Prelude State Spinlock CString Kalloc Console Vm Message Container Proc Syscall Sleeplock Bio.
Open Scope Z_scope.

(** ** Circular lists *)

Section links.
Implicit Types (N P : Z -> Z) (l : list Z) (a b z : Z).

Definition upf (f : Z -> Z) (x v : Z) : Z -> Z := fun y => if y =? x then v else f y.

Lemma upf_eq f x v : upf f x v x = v.
Proof. unfold upf. by rewrite Z.eqb_refl. Qed.
Lemma upf_ne f x v y : y <> x -> upf f x v y = f y.
Proof. intros H. unfold upf. by destruct (Z.eqb_spec y x). Qed.

(** From [a] through [l] to [z]: [N] is the next, [P] the previous one. *)
Fixpoint seg N P a l z : Prop :=
  match l with
  | [] => N a = z /\ P z = a
  | b :: l' => N a = b /\ P b = a /\ seg N P b l' z
  end.

Lemma seg_app N P a l1 b l2 z : seg N P a (l1 ++ b :: l2) z <-> seg N P a l1 b /\ seg N P b l2 z.
Proof.
  revert a. induction l1 as [|c l1 IH]; intros a; simpl; [tauto|]. rewrite IH. tauto.
Qed.

Lemma seg_rev N P a l z : seg N P a l z <-> seg P N z (rev l) a.
Proof.
  revert a. induction l as [|b l IH]; intros a; simpl; [tauto|].
  rewrite seg_app, IH. simpl. tauto.
Qed.

Lemma seg_ext N P N' P' a l z :
  (forall x, x ∈ a :: l -> N' x = N x) -> (forall x, x ∈ l ++ [z] -> P' x = P x) ->
  seg N P a l z -> seg N' P' a l z.
Proof.
  revert a. induction l as [|b l IH]; intros a HN HP; simpl.
  - rewrite HN, HP by set_solver. done.
  - intros (H1 & H2 & H3). rewrite HN, HP by set_solver. split_and!; [done..|].
    apply IH; [|by intros; apply HP; set_solver|done]. intros x Hx. apply HN. set_solver.
Qed.

(** Letting a segment end elsewhere. *)
Lemma seg_retarget N P a l b z :
  seg N P a l b -> NoDup (a :: l) -> z ∉ l -> seg (upf N (P b) z) (upf P z (P b)) a l z.
Proof.
  revert a. induction l as [|c l IH]; intros a; simpl.
  - intros [_ <-] _ _. by rewrite !upf_eq.
  - intros (H1 & H2 & H3) [Ha Hnd]%NoDup_cons Hz.
    assert (Hpb : P b ∈ c :: l).
    { clear -H3. revert c H3. induction l as [|d l IH]; intros c; simpl; [intros [_ <-]; set_solver|].
      intros (_ & _ & H). specialize (IH d H). set_solver. }
    split_and!.
    + rewrite upf_ne; [done|]. intros ->. done.
    + rewrite upf_ne; [done|]. intros ->. set_solver.
    + apply IH; [done..|set_solver].
Qed.

(** Taking [b] out. *)
Lemma seg_remove N P a l1 b l2 z :
  seg N P a (l1 ++ b :: l2) z -> NoDup (a :: l1 ++ b :: l2) -> z ∉ l1 ++ b :: l2 ->
  seg (upf N (P b) (N b)) (upf P (N b) (P b)) a (l1 ++ l2) z.
Proof.
  intros [H1 H2]%seg_app Hnd Hz.
  assert (Hnd1 : NoDup (a :: l1)).
  { apply (NoDup_app (a :: l1) (b :: l2)) in Hnd. apply Hnd. }
  assert (Hpb : P b ∈ a :: l1).
  { clear -H1. revert a H1. induction l1 as [|d l IH]; intros a; simpl; [intros [_ <-]; set_solver|].
    intros (_ & _ & H). specialize (IH d H). set_solver. }
  destruct l2 as [|c l2]; simpl in H2.
  - destruct H2 as [-> _]. rewrite app_nil_r. apply (seg_retarget _ _ _ _ b); [done..|set_solver].
  - destruct H2 as (-> & H2 & H3). apply seg_app. split.
    + apply (seg_retarget _ _ _ _ b); [done..|]. intros Hc.
      apply (NoDup_app (a :: l1) (b :: c :: l2)) in Hnd as (_ & Hd & _). apply (Hd c); set_solver.
    + apply (NoDup_app (a :: l1) (b :: c :: l2)) in Hnd as (_ & Hd & Hnd2).
      apply NoDup_cons in Hnd2 as [_ Hnd2]. apply NoDup_cons in Hnd2 as [Hc _].
      eapply seg_ext; [| |exact H3]; intros x Hx; apply upf_ne; intros ->.
      * apply (Hd (P b)); set_solver.
      * set_solver.
Qed.

(** Putting [b] in front. *)
Lemma seg_push N P a l b z :
  seg N P a l z -> b ∉ l -> b <> a -> b <> z -> NoDup (a :: l) -> z ∉ l ->
  seg (upf (upf N b (N a)) a b) (upf (upf P b a) (N a) b) a (b :: l) z.
Proof.
  intros H Hb Hba Hbz Hnd Hz. simpl. rewrite upf_eq.
  assert (Hna : N a ∈ l ++ [z]) by (destruct l; simpl in H; destruct H as [-> _]; set_solver).
  assert (N a <> b) by set_solver. split_and!; [done|rewrite upf_ne, upf_eq; done|].
  destruct l as [|c l]; simpl in *.
  - destruct H as [<- H2]. rewrite !upf_eq, upf_ne, upf_eq by done. done.
  - destruct H as (-> & H2 & H3). rewrite !upf_eq, (upf_ne _ a b b), upf_eq by done. split_and!; [done..|].
    apply NoDup_cons in Hnd as [Ha Hnd]. apply NoDup_cons in Hnd as [Hc _].
    eapply seg_ext; [| |exact H3]; intros x Hx.
    + rewrite !upf_ne; [done|set_solver|]. intros ->. set_solver.
    + rewrite !upf_ne; [done|set_solver|]. intros ->. set_solver.
Qed.
End links.

(** ** Buffers by index *)

Section bufs.
Implicit Types (k : kernel) (bs : list buf) (b c : Z) (x : buf).

Definition bfl bs b : buf := default buf0 (aget bs b).
Definition set_bfl bs b x : list buf := <[Z.to_nat b := x]> bs.
Definition bufs_ok bs : Prop := alen bs = NBUF + 1.

Lemma bfl_set bs b c x : bufs_ok bs -> 0 <= b <= NBUF -> bfl (set_bfl bs b x) c = if c =? b then x else bfl bs c.
Proof.
  intros Hl Hb. unfold bfl, set_bfl. destruct (Z.eqb_spec c b) as [->|Hne].
  - rewrite aget_insert_eq; [done|unfold bufs_ok in Hl; lia].
  - rewrite aget_insert_ne by lia. done.
Qed.

Lemma bufs_ok_set bs b x : bufs_ok bs -> bufs_ok (set_bfl bs b x).
Proof. unfold bufs_ok, set_bfl. by rewrite alen_insert. Qed.

Lemma aget_bfl bs b : bufs_ok bs -> 0 <= b <= NBUF -> aget bs b = Some (bfl bs b).
Proof.
  intros Hl Hb. unfold bfl. destruct (aget_is_Some bs b) as [x ->]; [unfold bufs_ok in Hl; lia|done].
Qed.

Lemma buf_at_ok k b : bufs_ok (k_buf k) -> 0 <= b <= NBUF -> buf_at b k = Ret (bfl (k_buf k) b) k.
Proof. intros Hl Hb. unfold buf_at. mstep. apply rd_Some. by apply aget_bfl. Qed.

Lemma buf_set_ok k b f :
  bufs_ok (k_buf k) -> 0 <= b <= NBUF ->
  buf_set b f k = Ret tt (k <| k_buf := set_bfl (k_buf k) b (f (bfl (k_buf k) b)) |>).
Proof.
  intros Hl Hb. unfold buf_set. run buf_at_ok; [|done..]. mstep.
  run wr_Some; [done|unfold bufs_ok in Hl; lia].
Qed.

Definition nxt bs b : Z := b_next (bfl bs b).
Definition prv bs b : Z := b_prev (bfl bs b).
Definition set_next bs b v : list buf := set_bfl bs b ((bfl bs b) <| b_next := v |>).
Definition set_prev bs b v : list buf := set_bfl bs b ((bfl bs b) <| b_prev := v |>).

(** What a buffer holds, apart from its place in the list and the queue. *)
Definition core x : Z * Z * Z * Z * list Z := (b_flags x, b_dev x, b_blockno x, b_refcnt x, b_data x).

Record same_bufs bs bs' (N P : Z -> Z) : Prop := {
  sb_ok : bufs_ok bs';
  sb_next : forall c, nxt bs' c = N c;
  sb_prev : forall c, prv bs' c = P c;
  sb_core : forall c, core (bfl bs' c) = core (bfl bs c) }.

Lemma same_bufs_refl bs : bufs_ok bs -> same_bufs bs bs (nxt bs) (prv bs).
Proof. intros. by split. Qed.

Lemma same_bufs_next bs bs' N P b v :
  same_bufs bs bs' N P -> 0 <= b <= NBUF -> same_bufs bs (set_next bs' b v) (upf N b v) P.
Proof.
  intros [Hok HN HP HC] Hb. unfold set_next. split; [by apply bufs_ok_set|intros c..];
    unfold nxt, prv; rewrite bfl_set by done; unfold upf; destruct (Z.eqb_spec c b) as [->|]; try done;
    first [apply HN|apply HP|apply HC].
Qed.

Lemma same_bufs_prev bs bs' N P b v :
  same_bufs bs bs' N P -> 0 <= b <= NBUF -> same_bufs bs (set_prev bs' b v) N (upf P b v).
Proof.
  intros [Hok HN HP HC] Hb. unfold set_prev. split; [by apply bufs_ok_set|intros c..];
    unfold nxt, prv; rewrite bfl_set by done; unfold upf; destruct (Z.eqb_spec c b) as [->|]; try done;
    first [apply HN|apply HP|apply HC].
Qed.

(** The buffers in order of last use. *)
Record lru bs (l : list Z) : Prop := {
  lru_seg : seg (nxt bs) (prv bs) HEAD l HEAD;
  lru_perm : l ≡ₚ seqZ 0 NBUF }.

Lemma lru_elem bs l b : lru bs l -> b ∈ l <-> 0 <= b < NBUF.
Proof. intros [_ Hp]. rewrite Hp, elem_of_seqZ. lia. Qed.

Lemma lru_nodup bs l : lru bs l -> NoDup (HEAD :: l).
Proof.
  intros H. apply NoDup_cons. split.
  - rewrite (lru_elem bs) by done. unfold HEAD. lia.
  - destruct H as [_ ->]. apply NoDup_seqZ.
Qed.

(** Moving [b] to the front of the list, as [brelse] does. *)
Definition unlink bs b : list buf :=
  let bs1 := set_prev bs (nxt bs b) (prv bs b) in set_next bs1 (prv bs1 b) (nxt bs1 b).
Definition push_front bs b : list buf :=
  let h := nxt bs HEAD in
  set_next (set_prev (set_prev (set_next bs b h) b HEAD) h b) HEAD b.

Lemma seg_range N P a l z (x : Z) :
  seg N P a l z -> (forall y, y ∈ a :: l -> 0 <= y <= NBUF) -> 0 <= z <= NBUF -> x ∈ a :: l ->
  0 <= N x <= NBUF.
Proof.
  revert a. induction l as [|b l IH]; intros a; simpl.
  - intros [H _] _ Hz ->%list_elem_of_singleton. lia.
  - intros (H1 & _ & H2) Hr Hz [->|Hx]%elem_of_cons; [rewrite H1; apply Hr; set_solver|].
    apply (IH b); [done| |done..]. intros y Hy. apply Hr. set_solver.
Qed.

Lemma lru_range bs l (x : Z) : lru bs l -> 0 <= x <= NBUF -> 0 <= nxt bs x <= NBUF /\ 0 <= prv bs x <= NBUF.
Proof.
  intros H Hx. pose proof (lru_seg _ _ H) as Hs.
  assert (Hxl : x ∈ HEAD :: l).
  { apply elem_of_cons. rewrite (lru_elem bs) by done. unfold HEAD. lia. }
  assert (Hall : forall y, y ∈ HEAD :: l -> 0 <= y <= NBUF).
  { intros y [->|Hy]%elem_of_cons; [unfold HEAD, NBUF, MAXOPBLOCKS; lia|].
    apply (lru_elem bs) in Hy; [lia|done]. }
  assert (0 <= HEAD <= NBUF) by (unfold HEAD, NBUF, MAXOPBLOCKS; lia). split.
  - by eapply (seg_range (nxt bs)).
  - apply seg_rev in Hs.
    assert (Hrev : forall y, y ∈ HEAD :: rev l <-> y ∈ HEAD :: l).
    { intros y. by rewrite !elem_of_cons, !list_elem_of_In, <- in_rev. }
    eapply (seg_range (prv bs)); [exact Hs| |done|by apply Hrev].
    intros y Hy. by apply Hall, Hrev.
Qed.

Lemma unlink_ok bs l1 b l2 :
  bufs_ok bs -> lru bs (l1 ++ b :: l2) ->
  same_bufs bs (unlink bs b) (upf (nxt bs) (prv bs b) (nxt bs b)) (upf (prv bs) (nxt bs b) (prv bs b)).
Proof.
  intros Hok Hl. assert (Hb : 0 <= b < NBUF) by (apply (lru_elem bs (l1 ++ b :: l2)); [done|set_solver]).
  destruct (lru_range bs _ b Hl) as [Hn Hp]; [lia|]. unfold unlink.
  pose proof (same_bufs_prev bs bs _ _ (nxt bs b) (prv bs b) (same_bufs_refl bs Hok) Hn) as H1.
  assert (Hpb : prv (set_prev bs (nxt bs b) (prv bs b)) b = prv bs b).
  { rewrite (sb_prev _ _ _ _ H1). unfold upf. by destruct (Z.eqb_spec b (nxt bs b)). }
  rewrite Hpb, (sb_next _ _ _ _ H1). by apply same_bufs_next.
Qed.

Lemma push_front_ok bs bs' N P b :
  same_bufs bs bs' N P -> 0 <= b < NBUF -> 0 <= N HEAD <= NBUF ->
  same_bufs bs (push_front bs' b) (upf (upf N b (N HEAD)) HEAD b) (upf (upf P b HEAD) (N HEAD) b).
Proof.
  intros H Hb Hh. unfold push_front. rewrite (sb_next _ _ _ _ H).
  repeat first [apply same_bufs_next|apply same_bufs_prev]; (done || unfold HEAD, NBUF, MAXOPBLOCKS in *; lia).
Qed.

(** Moving a buffer to the front keeps the list and what the buffers hold. *)
Lemma move_front_ok bs l1 b l2 :
  bufs_ok bs -> lru bs (l1 ++ b :: l2) ->
  bufs_ok (push_front (unlink bs b) b) /\ lru (push_front (unlink bs b) b) (b :: l1 ++ l2) /\
  forall c, core (bfl (push_front (unlink bs b) b) c) = core (bfl bs c).
Proof.
  intros Hok Hl. pose proof (lru_nodup _ _ Hl) as Hnd.
  assert (Hb : 0 <= b < NBUF) by (apply (lru_elem bs (l1 ++ b :: l2)); [done|set_solver]).
  pose proof (unlink_ok bs l1 b l2 Hok Hl) as Hu. set (N := upf (nxt bs) _ _) in Hu. set (P := upf (prv bs) _ _) in Hu.
  assert (Hseg : seg N P HEAD (l1 ++ l2) HEAD).
  { apply seg_remove; [apply Hl|done|]. by apply NoDup_cons in Hnd as [? _]. }
  assert (HnH : 0 <= N HEAD <= NBUF).
  { unfold N, upf. destruct (_ =? _); apply (lru_range _ _ _ Hl); unfold HEAD, NBUF, MAXOPBLOCKS in *; lia. }
  pose proof (push_front_ok bs _ N P b Hu Hb HnH) as Hp. split; [apply Hp|]. split; [|apply Hp]. split.
  - eapply seg_ext; [intros; apply (sb_next _ _ _ _ Hp)|intros; apply (sb_prev _ _ _ _ Hp)|].
    apply NoDup_cons in Hnd as [HH Hnd]. apply NoDup_app in Hnd as (Hn1 & Hd & Hn2).
    apply NoDup_cons in Hn2 as [Hb2 Hn2].
    apply seg_push; [done| | | | |]; [| unfold HEAD; lia..| |].
    + rewrite elem_of_app. intros [Hx|Hx]; [apply (Hd b); set_solver|done].
    + apply NoDup_cons. split; [set_solver|]. apply NoDup_app. split_and!; [done| |done].
      intros x Hx. specialize (Hd x Hx). set_solver.
    + set_solver.
  - rewrite <- (lru_perm _ _ Hl). by rewrite Permutation_middle.
Qed.
End bufs.

(** ** The two searches *)

Section search.
Implicit Types (k : kernel) (bs : list buf) (b : Z) (l : list Z).

Definition is_block dev n bs b : bool := (b_dev (bfl bs b) =? dev) && (b_blockno (bfl bs b) =? n).
Definition is_unused bs b : bool := (b_refcnt (bfl bs b) =? 0) && (Z.land (b_flags (bfl bs b)) B_DIRTY =? 0).

Lemma find_cached_ok dev n fuel a l k :
  bufs_ok (k_buf k) -> seg (nxt (k_buf k)) (prv (k_buf k)) a l HEAD ->
  (forall b, b ∈ l -> 0 <= b < NBUF) -> (length l <= fuel)%nat ->
  find_cached fuel dev n (nxt (k_buf k) a) k = Ret (find (is_block dev n (k_buf k)) l) k.
Proof.
  intros Hok. revert a fuel. induction l as [|b l IH]; intros a fuel; simpl.
  - intros [-> _] _ _. destruct fuel; cbn [find_cached]; by rewrite Z.eqb_refl.
  - intros (-> & _ & Hs) Hr Hf. destruct fuel as [|fuel]; [lia|]. cbn [find_cached].
    assert (Hb : 0 <= b < NBUF) by (apply Hr; set_solver).
    destruct (Z.eqb_spec b HEAD); [unfold HEAD in *; lia|]. run buf_at_ok; [|done|lia].
    unfold is_block at 1. destruct (_ && _); [done|]. apply IH; [done| |lia].
    intros c Hc. apply Hr. set_solver.
Qed.

Lemma find_unused_ok fuel a l k :
  bufs_ok (k_buf k) -> seg (prv (k_buf k)) (nxt (k_buf k)) a l HEAD ->
  (forall b, b ∈ l -> 0 <= b < NBUF) -> (length l <= fuel)%nat ->
  find_unused fuel (prv (k_buf k) a) k = Ret (find (is_unused (k_buf k)) l) k.
Proof.
  intros Hok. revert a fuel. induction l as [|b l IH]; intros a fuel; simpl.
  - intros [-> _] _ _. destruct fuel; cbn [find_unused]; by rewrite Z.eqb_refl.
  - intros (-> & _ & Hs) Hr Hf. destruct fuel as [|fuel]; [lia|]. cbn [find_unused].
    assert (Hb : 0 <= b < NBUF) by (apply Hr; set_solver).
    destruct (Z.eqb_spec b HEAD); [unfold HEAD in *; lia|]. run buf_at_ok; [|done|lia].
    unfold is_unused at 1. destruct (_ && _); [done|]. apply IH; [done| |lia].
    intros c Hc. apply Hr. set_solver.
Qed.

Lemma lru_length bs l : lru bs l -> length l = Z.to_nat NBUF.
Proof. intros [_ ->]. by rewrite length_seqZ. Qed.
End search.

(** ** Getting a buffer *)

(** Process [i] runs with the locks of the cache free. *)
Record fsctx k (i : nat) (p : proc) : Prop := {
  fc_run : running k i p;
  fc_state : p_state p = RUNNING;
  fc_pt : lock_free ptable_lock (k_mach k);
  fc_len : alen (k_proc k) = NPROC;
  fc_bc : lock_free bcache_lock (k_mach k);
  fc_bufs : forall b, 0 <= b < NBUF -> lock_free (buf_lock b) (k_mach k) }.

Section get.
Context {fuel : Fuel} {disk : BlockDev}.
Implicit Types (k : kernel) (bs : list buf) (b : Z) (l : list Z).

(** The buffer chosen for block [n], and what is stored in it. *)
Definition chosen dev n bs l : option (Z * buf) :=
  match find (is_block dev n bs) l with
  | Some b => Some (b, (bfl bs b) <| b_refcnt ::= fun r => u32 (r + 1) |>)
  | None =>
      match find (is_unused bs) (rev l) with
      | Some b => Some (b, (bfl bs b) <| b_dev := dev |> <| b_blockno := n |> <| b_flags := 0 |> <| b_refcnt := 1 |>)
      | None => None
      end
  end.

Lemma chosen_in dev n bs l b x : chosen dev n bs l = Some (b, x) -> b ∈ l.
Proof.
  unfold chosen. destruct (find _ l) as [c|] eqn:E.
  - intros [= <- _]. apply find_some in E as [E _]. by apply list_elem_of_In.
  - destruct (find _ (rev l)) as [c|] eqn:E2; [|done]. intros [= <- _].
    apply find_some in E2 as [E2 _]. by apply list_elem_of_In, in_rev.
Qed.

Lemma set_bfl_twice bs b x y : set_bfl (set_bfl bs b x) b y = set_bfl bs b y.
Proof. apply list_insert_insert_eq. Qed.

Lemma bget_ok k i p l dev n b x :
  (0 < wakeups)%nat -> fsctx k i p -> bufs_ok (k_buf k) -> lru (k_buf k) l ->
  chosen dev n (k_buf k) l = Some (b, x) -> sl_locked (sl_of k (buf_lock b)) = 0 ->
  bget dev n k = Ret b (kst (sl_put (k <| k_buf := set_bfl (k_buf k) b x |>) (buf_lock b) (mksleep 1 (p_pid p)))
                            (settle (k_mach k))).
Proof.
  intros Hf Hc Hok Hl Hch Hsl. pose proof (fc_run _ _ _ Hc) as Hr.
  pose proof (chosen_in _ _ _ _ _ _ Hch) as Hb. apply (lru_elem _ _ _ Hl) in Hb.
  assert (Hrange : forall c, c ∈ l -> 0 <= c < NBUF) by (intros c Hcl; by apply (lru_elem _ _ _ Hl)).
  pose proof (lru_length _ _ Hl) as Hlen. pose proof (lru_seg _ _ Hl) as Hseg.
  assert (Hfin : forall bs', (acquiresleep (buf_lock b) ;;; mret b) (kst (k <| k_buf := bs' |>) (settle (k_mach k))) =
    Ret b (kst (sl_put (k <| k_buf := bs' |>) (buf_lock b) (mksleep 1 (p_pid p))) (settle (k_mach k)))).
  { intros bs'. assert (Hr' : running (k <| k_buf := bs' |>) i p) by (destruct Hr; by split).
    erewrite bind_Ret; [|apply (acquiresleep_ok _ i p); [done|exact (running_settle _ _ _ Hr')
       |ksimpl; by apply lock_free_settle, Hc|exact Hsl]].
    unfold sl_put. knorm. by rewrite settle_settle by apply Hr. }
  assert (HH : 0 <= HEAD <= NBUF) by (unfold HEAD, NBUF, MAXOPBLOCKS; lia).
  unfold bget. run acquire_ok; [|apply Hr|apply Hc]. run buf_at_ok; [|ksimpl; done..].
  run find_cached_ok; [|ksimpl; done|exact Hseg|exact Hrange|by rewrite Hlen]. ksimpl.
  unfold chosen in Hch. destruct (find (is_block dev n (k_buf k)) l) as [c|].
  - injection Hch as -> <-. run buf_set_ok; [|done|lia]. knorm.
    erewrite bind_Ret by (apply (release_acq _ _ (k_mach k)); [apply Hr|apply Hc|done]). knorm. apply Hfin.
  - run buf_at_ok; [|ksimpl; done..].
    run find_unused_ok; [|ksimpl; done|apply seg_rev in Hseg; exact Hseg| |by rewrite length_rev, Hlen].
    2: { intros c Hcl. apply Hrange. by apply list_elem_of_In, in_rev, list_elem_of_In. }
    ksimpl. destruct (find (is_unused (k_buf k)) (rev l)) as [c|]; [|done]. injection Hch as -> <-.
    run buf_set_ok; [|done|lia]. knorm.
    run buf_set_ok; [|ksimpl; by apply bufs_ok_set|lia]. knorm. rewrite bfl_set, Z.eqb_refl, set_bfl_twice by (done || lia).
    run buf_set_ok; [|ksimpl; by apply bufs_ok_set|lia]. knorm. rewrite bfl_set, Z.eqb_refl, set_bfl_twice by (done || lia).
    run buf_set_ok; [|ksimpl; by apply bufs_ok_set|lia]. knorm. rewrite bfl_set, Z.eqb_refl, set_bfl_twice by (done || lia).
    erewrite bind_Ret by (apply (release_acq _ _ (k_mach k)); [apply Hr|apply Hc|done]). knorm. apply Hfin.
Qed.

(** With every buffer in use there is none to give. *)
Lemma bget_none k i p l dev n :
  fsctx k i p -> bufs_ok (k_buf k) -> lru (k_buf k) l -> chosen dev n (k_buf k) l = None ->
  bget dev n k = Panic "bget: no buffers".
Proof.
  intros Hc Hok Hl Hch. pose proof (fc_run _ _ _ Hc) as Hr.
  assert (Hrange : forall c, c ∈ l -> 0 <= c < NBUF) by (intros c Hcl; by apply (lru_elem _ _ _ Hl)).
  pose proof (lru_length _ _ Hl) as Hlen. pose proof (lru_seg _ _ Hl) as Hseg.
  assert (HH : 0 <= HEAD <= NBUF) by (unfold HEAD, NBUF, MAXOPBLOCKS; lia).
  unfold bget. run acquire_ok; [|apply Hr|apply Hc]. run buf_at_ok; [|ksimpl; done..].
  run find_cached_ok; [|ksimpl; done|exact Hseg|exact Hrange|by rewrite Hlen]. ksimpl.
  unfold chosen in Hch. destruct (find (is_block dev n (k_buf k)) l); [done|].
  run buf_at_ok; [|ksimpl; done..].
  run find_unused_ok; [|ksimpl; done|apply seg_rev in Hseg; exact Hseg| |by rewrite length_rev, Hlen].
  2: { intros c Hcl. apply Hrange. by apply list_elem_of_In, in_rev, list_elem_of_In. }
  ksimpl. by destruct (find (is_unused (k_buf k)) (rev l)).
Qed.
End get.

(** ** The disk driver's promise *)

Definition disk_sized (k : kernel) : Prop := k_disksize k = alen (k_disk k) /\ alen (k_disk k) < 2 ^ 32.

(** Without contention a driver syncs a buffer the caller has locked: an
    invalid one is read, a dirty one is written. *)
Class DiskLaws (disk : BlockDev) := {
  rw_read : forall k i p b d,
    fsctx k i p -> bufs_ok (k_buf k) -> 0 <= b < NBUF -> sl_of k (buf_lock b) = mksleep 1 (p_pid p) ->
    b_dev (bfl (k_buf k) b) = 1 -> b_flags (bfl (k_buf k) b) = 0 ->
    disk_sized k -> aget (k_disk k) (b_blockno (bfl (k_buf k) b)) = Some d ->
    iderw b k = Ret tt (kst (k <| k_buf := set_bfl (k_buf k) b
      ((bfl (k_buf k) b) <| b_data := d |> <| b_flags := B_VALID |>) |>) (settle (k_mach k)));
  rw_write : forall k i p b d,
    fsctx k i p -> bufs_ok (k_buf k) -> 0 <= b < NBUF -> sl_of k (buf_lock b) = mksleep 1 (p_pid p) ->
    b_dev (bfl (k_buf k) b) = 1 -> b_flags (bfl (k_buf k) b) = Z.lor B_VALID B_DIRTY ->
    disk_sized k -> aget (k_disk k) (b_blockno (bfl (k_buf k) b)) = Some d ->
    let n := b_blockno (bfl (k_buf k) b) in let v := b_data (bfl (k_buf k) b) in
    iderw b k = Ret tt (kst (k <| k_buf := set_bfl (k_buf k) b ((bfl (k_buf k) b) <| b_flags := B_VALID |>) |>
        <| k_disk := <[Z.to_nat n := v]> (k_disk k) |> <| k_dtrace := k_dtrace k ++ [(n, v)] |>)
      (settle (k_mach k))) }.

#[export] Instance memide_laws : DiskLaws Memide.memide.
Proof.
  split.
  - intros k i p b d Hc Hok Hb Hsl Hdev Hfl [Hsz Hlt] Hd. unfold iderw, Memide.memide, Memide.rw.
    pose proof (fc_run _ _ _ Hc) as Hr. pose proof (aget_lt _ _ _ Hd) as Hn.
    run (holdingsleep_ok k i p); [|done|by apply Hc]. rewrite Hsl. cbn [sl_locked sl_pid]. rewrite Z.eqb_refl.
    cbn [Z.eqb negb andb]. run buf_at_ok; [|done|lia]. ksimpl. rewrite Hfl, Hdev, Z.eqb_refl.
    change (Z.land 0 (Z.lor B_VALID B_DIRTY) =? B_VALID) with false. cbn [negb]. mstep. ksimpl.
    rewrite Hsz. replace (u32 (alen (k_disk k))) with (alen (k_disk k)) by (unfold u32; rewrite Z.mod_small; lia).
    destruct (Z.leb_spec (alen (k_disk k)) (b_blockno (bfl (k_buf k) b))); [lia|].
    mstep. ksimpl. change (Z.land 0 B_DIRTY =? 0) with true. cbn [negb].
    erewrite bind_Ret; [|run rd_Some; [apply buf_set_ok; [done|lia]|done]]. cbv beta.
    rewrite buf_set_ok; [|ksimpl; by apply bufs_ok_set|lia]. knorm.
    rewrite bfl_set, Z.eqb_refl, set_bfl_twice by (done || lia).
    set (x := bfl (k_buf k) b) in *. clearbody x. by destruct x; simpl in *; subst.
  - intros k i p b d Hc Hok Hb Hsl Hdev Hfl [Hsz Hlt] Hd n v. unfold iderw, Memide.memide, Memide.rw.
    pose proof (fc_run _ _ _ Hc) as Hr. pose proof (aget_lt _ _ _ Hd) as Hn.
    run (holdingsleep_ok k i p); [|done|by apply Hc]. rewrite Hsl. cbn [sl_locked sl_pid]. rewrite Z.eqb_refl.
    cbn [Z.eqb negb andb]. run buf_at_ok; [|done|lia]. ksimpl. rewrite Hfl, Hdev, Z.eqb_refl.
    change (Z.land (Z.lor B_VALID B_DIRTY) (Z.lor B_VALID B_DIRTY) =? B_VALID) with false.
    cbn [negb]. mstep. ksimpl.
    rewrite Hsz. replace (u32 (alen (k_disk k))) with (alen (k_disk k)) by (unfold u32; rewrite Z.mod_small; lia).
    destruct (Z.leb_spec (alen (k_disk k)) (b_blockno (bfl (k_buf k) b))); [lia|].
    mstep. ksimpl. change (Z.land (Z.lor B_VALID B_DIRTY) B_DIRTY =? 0) with false. cbn [negb].
    erewrite bind_Ret; [|run buf_set_ok; [run wr_Some; [reflexivity|exact Hn]|done|lia]]. cbv beta.
    rewrite buf_set_ok; [|ksimpl; by apply bufs_ok_set|lia]. knorm.
    rewrite bfl_set, Z.eqb_refl, set_bfl_twice by (done || lia). subst n v.
    set (x := bfl (k_buf k) b) in *. clearbody x. by destruct x; simpl in *; subst.
Qed.

(** ** Reading, writing and releasing *)

Section ops.
Context {fuel : Fuel} {disk : BlockDev} {laws : DiskLaws disk}.
Implicit Types (k : kernel) (bs : list buf) (b n : Z) (l : list Z) (x : buf).

(** Some sleeping processes made runnable. *)
Definition woken (ps ps' : list proc) : Prop :=
  Forall2 (fun p p' => p' = p \/ p_state p = SLEEPING /\ p' = p <| p_state := RUNNABLE |>) ps ps'.

Lemma woken_refl ps : woken ps ps.
Proof. induction ps; constructor; [by left|done]. Qed.

Lemma woken_trans ps1 ps2 ps3 : woken ps1 ps2 -> woken ps2 ps3 -> woken ps1 ps3.
Proof.
  intros H. revert ps3. induction H as [|p p' ps ps' Hp H IH]; intros ps3; inversion 1; subst; [constructor|].
  constructor; [|by apply IH]. destruct Hp as [->|[Hs ->]]; [done|]. right. split; [done|].
  match goal with H : _ \/ _ |- _ => destruct H as [->|[? ->]] end; [done|by destruct p].
Qed.

Lemma woken_wake ch ps : woken ps (wake ch <$> ps).
Proof.
  induction ps as [|p ps IH]; constructor; [|done]. unfold wake. case_bool_decide as E; [|by left].
  right. by destruct E.
Qed.

Lemma woken_awake ps ps' i p :
  woken ps ps' -> aget ps i = Some p -> p_state p <> SLEEPING -> aget ps' i = Some p.
Proof.
  unfold aget. destruct (0 <=? i); [|done]. intros H Hp Hs.
  destruct (Forall2_lookup_l _ _ _ _ _ H Hp) as (p' & Hp' & [->|[? _]]); done.
Qed.

Lemma fsctx_step k k' i p :
  fsctx k i p -> k_mach k' = settle (k_mach k) -> woken (k_proc k) (k_proc k') -> fsctx k' i p.
Proof.
  intros [[Hok Hc Hp] Hs Hpt Hl Hb Hbs] Hm Hw. split; rewrite ?Hm.
  - split; rewrite ?Hm; [by apply settle_ok|by rewrite cur_proc_settle|].
    eapply woken_awake; [done..|congruence].
  - done.
  - by apply lock_free_settle.
  - rewrite <- Hl. unfold alen. f_equal. symmetry. by eapply Forall2_length.
  - by apply lock_free_settle.
  - intros b Hb'. by apply lock_free_settle, Hbs.
Qed.

(** Buffer [b] holds [x] and is locked by the process. *)
Definition locked k b x (p : proc) : kernel :=
  kst (sl_put (k <| k_buf := set_bfl (k_buf k) b x |>) (buf_lock b) (mksleep 1 (p_pid p))) (settle (k_mach k)).

Lemma fsctx_locked k i p b x q : fsctx k i p -> fsctx (locked k b x q) i p.
Proof. intros H. eapply fsctx_step; [done|done|apply woken_refl]. Qed.

Lemma locked_sl k b x p : sl_of (locked k b x p) (buf_lock b) = mksleep 1 (p_pid p).
Proof. unfold sl_of, locked, sl_put. ksimpl. by rewrite lookup_insert_eq. Qed.

Lemma bread_ok k i p l n b x d :
  (0 < wakeups)%nat -> fsctx k i p -> bufs_ok (k_buf k) -> lru (k_buf k) l -> disk_sized k ->
  chosen 1 n (k_buf k) l = Some (b, x) -> sl_locked (sl_of k (buf_lock b)) = 0 ->
  (b_flags x = 0 /\ b_dev x = 1 /\ aget (k_disk k) (b_blockno x) = Some d \/ Z.land (b_flags x) B_VALID <> 0) ->
  bread 1 n k = Ret b (locked k b (if b_flags x =? 0 then x <| b_data := d |> <| b_flags := B_VALID |> else x) p).
Proof.
  intros Hf Hc Hok Hl Hds Hch Hsl Hx. pose proof (fc_run _ _ _ Hc) as Hr.
  pose proof (chosen_in _ _ _ _ _ _ Hch) as Hb. apply (lru_elem _ _ _ Hl) in Hb.
  unfold bread. run bget_ok; [|done..]. fold (locked k b x p).
  assert (Hbx : bfl (k_buf (locked k b x p)) b = x).
  { unfold locked, sl_put. ksimpl. by rewrite bfl_set, Z.eqb_refl by (done || lia). }
  assert (Hok' : bufs_ok (k_buf (locked k b x p))).
  { unfold locked, sl_put. ksimpl. by apply bufs_ok_set. }
  run buf_at_ok; [|done|lia]. rewrite Hbx. destruct Hx as [(Hfl & Hdev & Hd)|Hfl].
  - rewrite Hfl. change (Z.land 0 B_VALID =? 0) with true. rewrite Z.eqb_refl. cbn [when].
    erewrite bind_Ret; [|apply (rw_read _ i p b d); [by apply fsctx_locked|done|lia|apply locked_sl|by rewrite Hbx..
      |done|by rewrite Hbx]]. cbv beta. rewrite Hbx.
    unfold locked, sl_put. knorm. rewrite settle_settle by apply Hr. by rewrite set_bfl_twice.
  - destruct (Z.eqb_spec (Z.land (b_flags x) B_VALID) 0); [done|]. cbn [when].
    destruct (Z.eqb_spec (b_flags x) 0) as [E|]; [by rewrite E in Hfl|]. done.
Qed.

Lemma bwrite_ok k i p b d :
  fsctx k i p -> bufs_ok (k_buf k) -> 0 <= b < NBUF -> disk_sized k ->
  sl_of k (buf_lock b) = mksleep 1 (p_pid p) ->
  let x := bfl (k_buf k) b in
  b_dev x = 1 -> Z.lor (b_flags x) B_DIRTY = Z.lor B_VALID B_DIRTY -> aget (k_disk k) (b_blockno x) = Some d ->
  bwrite b k = Ret tt (kst (k <| k_buf := set_bfl (k_buf k) b (x <| b_flags := B_VALID |>) |>
      <| k_disk := <[Z.to_nat (b_blockno x) := b_data x]> (k_disk k) |>
      <| k_dtrace := k_dtrace k ++ [(b_blockno x, b_data x)] |>) (settle (k_mach k))).
Proof.
  intros Hc Hok Hb Hds Hsl x Hdev Hfl Hd. pose proof (fc_run _ _ _ Hc) as Hr. unfold bwrite.
  run (holdingsleep_ok k i p); [|done|by apply Hc]. rewrite Hsl. cbn [sl_locked sl_pid]. rewrite Z.eqb_refl.
  cbn [Z.eqb negb andb]. run buf_set_ok; [|done|lia]. knorm. fold x.
  assert (Hbx : bfl (set_bfl (k_buf k) b (x <| b_flags ::= fun f => Z.lor f B_DIRTY |>)) b =
    x <| b_flags ::= fun f => Z.lor f B_DIRTY |>) by (by rewrite bfl_set, Z.eqb_refl by (done || lia)).
  erewrite (rw_write _ i p b d); ksimpl; rewrite ?Hbx; try done.
  - rewrite settle_settle, set_bfl_twice by apply Hr. rsimpl.
    replace (x <| b_flags ::= fun f => Z.lor f B_DIRTY |> <| b_flags := B_VALID |>) with (x <| b_flags := B_VALID |>)
      by by destruct x.
    generalize (set_bfl (k_buf k) b (x <| b_flags := B_VALID |>)) (<[Z.to_nat (b_blockno x):=b_data x]> (k_disk k))
      (k_dtrace k ++ [(b_blockno x, b_data x)]) (settle (k_mach k)). by destruct k.
  - eapply fsctx_step; [done|done|apply woken_refl].
  - by apply bufs_ok_set.
Qed.

Lemma set_next_ok k b v :
  bufs_ok (k_buf k) -> 0 <= b <= NBUF ->
  buf_set b (fun y => y <| b_next := v |>) k = Ret tt (k <| k_buf := set_next (k_buf k) b v |>).
Proof. apply buf_set_ok. Qed.

Lemma set_prev_ok k b v :
  bufs_ok (k_buf k) -> 0 <= b <= NBUF ->
  buf_set b (fun y => y <| b_prev := v |>) k = Ret tt (k <| k_buf := set_prev (k_buf k) b v |>).
Proof. apply buf_set_ok. Qed.

Lemma at_next k b : bufs_ok (k_buf k) -> 0 <= b <= NBUF -> exists x,
  buf_at b k = Ret x k /\ b_next x = nxt (k_buf k) b /\ b_prev x = prv (k_buf k) b.
Proof. intros. eexists. split; [by apply buf_at_ok|done]. Qed.

(** The linking at the end of [brelse], on a list that has [b] in it. *)
Lemma relink_ok k l b x :
  bufs_ok (k_buf k) -> lru (k_buf k) l -> 0 <= b < NBUF ->
  b_next x = nxt (k_buf k) b -> b_prev x = prv (k_buf k) b ->
  (buf_set (b_next x) (fun y => y <| b_prev := b_prev x |>) ;;;
   x ← buf_at b;
   buf_set (b_prev x) (fun y => y <| b_next := b_next x |>) ;;;
   h ← buf_at HEAD;
   buf_set b (fun y => y <| b_next := b_next h |>) ;;;
   buf_set b (fun y => y <| b_prev := HEAD |>) ;;;
   link_front b) k = Ret tt (k <| k_buf := push_front (unlink (k_buf k) b) b |>).
Proof.
  intros Hok Hl Hb Hxn Hxp. remember (k_buf k) as bs eqn:Ebs.
  destruct (lru_range bs l b Hl) as [Hn Hp]; [lia|].
  assert (HH : 0 <= HEAD <= NBUF) by (unfold HEAD, NBUF, MAXOPBLOCKS; lia).
  destruct (list_elem_of_split l b) as (l1 & l2 & ->); [by apply (lru_elem bs)|].
  pose proof (unlink_ok bs l1 b l2 Hok Hl) as Hu. pose proof (sb_ok _ _ _ _ Hu) as Hoku.
  assert (HnH : 0 <= nxt (unlink bs b) HEAD <= NBUF).
  { rewrite (sb_next _ _ _ _ Hu). unfold upf. destruct (_ =? _); [done|]. by apply (lru_range bs _ _ Hl). }
  rewrite Hxn, Hxp. run set_prev_ok; [|by rewrite <- Ebs|done]. rewrite <- Ebs.
  assert (Hok1 : bufs_ok (set_prev bs (nxt bs b) (prv bs b))) by by apply bufs_ok_set.
  assert (Hpb : prv (set_prev bs (nxt bs b) (prv bs b)) b = prv bs b).
  { rewrite (sb_prev _ _ _ _ (same_bufs_prev bs bs _ _ _ _ (same_bufs_refl bs Hok) Hn)). unfold upf.
    by destruct (Z.eqb_spec b (nxt bs b)). }
  destruct (at_next (k <| k_buf := set_prev bs (nxt bs b) (prv bs b) |>) b) as (x1 & Hx1 & Hn1 & Hp1); [done|lia|].
  run Hx1. rewrite Hn1, Hp1. run set_next_ok; [|done|by ksimpl; rewrite Hpb]. knorm.
  fold (unlink bs b).
  destruct (at_next (k <| k_buf := unlink bs b |>) HEAD) as (h & Hh & Hnh & _); [done..|].
  run Hh. rewrite Hnh. ksimpl. run set_next_ok; [|done|lia]. knorm.
  run set_prev_ok; [|ksimpl; by apply bufs_ok_set|lia]. knorm. unfold link_front.
  assert (Hok3 : bufs_ok (set_prev (set_next (unlink bs b) b (nxt (unlink bs b) HEAD)) b HEAD)) by by do 2 apply bufs_ok_set.
  destruct (at_next (k <| k_buf := set_prev (set_next (unlink bs b) b (nxt (unlink bs b) HEAD)) b HEAD |>) HEAD)
    as (h2 & Hh2 & Hnh2 & _); [done..|]. run Hh2. rewrite Hnh2. ksimpl.
  assert (nxt (set_prev (set_next (unlink bs b) b (nxt (unlink bs b) HEAD)) b HEAD) HEAD = nxt (unlink bs b) HEAD) as ->.
  { unfold nxt, set_prev, set_next. rewrite !bfl_set by first [done|lia|by apply bufs_ok_set].
    destruct (Z.eqb_spec HEAD b); [unfold HEAD in *; lia|done]. }
  run set_prev_ok; [|done..]. knorm. rewrite set_next_ok; [|ksimpl; by apply bufs_ok_set|done]. by knorm.
Qed.

(** A released buffer: free, and at the front of the list. *)
Definition released k b : kernel :=
  kst (k <| k_proc ::= fmap (wake (sl_chan (buf_lock b))) |> <| k_sleep := <[buf_lock b := mksleep 0 0]> (k_sleep k) |>
       <| k_buf := push_front (unlink (set_bfl (k_buf k) b ((bfl (k_buf k) b) <| b_refcnt := 0 |>)) b) b |>)
      (settle (k_mach k)).

Lemma lru_ext bs bs' l :
  lru bs l -> (forall c, nxt bs' c = nxt bs c) -> (forall c, prv bs' c = prv bs c) -> lru bs' l.
Proof. intros [Hs Hp] HN HP. split; [|done]. eapply seg_ext; [by intros; apply HN|by intros; apply HP|done]. Qed.

Lemma lru_set bs b l x :
  bufs_ok bs -> 0 <= b <= NBUF -> b_next x = nxt bs b -> b_prev x = prv bs b -> lru bs l -> lru (set_bfl bs b x) l.
Proof.
  intros Hok Hb Hn Hp Hl. eapply lru_ext; [done|intros c..]; unfold nxt, prv; rewrite bfl_set by done;
    by destruct (Z.eqb_spec c b) as [->|].
Qed.

Lemma brelse_ok k i p l b :
  fsctx k i p -> bufs_ok (k_buf k) -> lru (k_buf k) l -> 0 <= b < NBUF ->
  sl_of k (buf_lock b) = mksleep 1 (p_pid p) -> b_refcnt (bfl (k_buf k) b) = 1 ->
  brelse b k = Ret tt (released k b).
Proof.
  intros Hc Hok Hl Hb Hsl Hrc. pose proof (fc_run _ _ _ Hc) as Hr. unfold brelse.
  run (holdingsleep_ok k i p); [|done|by apply Hc]. rewrite Hsl. cbn [sl_locked sl_pid]. rewrite Z.eqb_refl.
  cbn [Z.eqb negb andb].
  run releasesleep_ok; [|split; ksimpl; [apply settle_ok, Hr|apply lock_free_settle, Hc|apply Hc]
                        |ksimpl; apply lock_free_settle; by apply Hc|done].
  unfold sl_put. knorm. rewrite settle_settle by apply Hr.
  run acquire_ok; [|ksimpl; apply settle_ok, Hr|ksimpl; apply lock_free_settle, Hc]. knorm.
  run buf_set_ok; [|done|lia]. knorm. set (bs1 := set_bfl (k_buf k) b _).
  assert (Hok1 : bufs_ok bs1) by by apply bufs_ok_set.
  assert (Hb1 : bfl bs1 b = (bfl (k_buf k) b) <| b_refcnt := 0 |>).
  { unfold bs1. rewrite bfl_set, Z.eqb_refl by (done || lia). set (x := bfl (k_buf k) b) in *. clearbody x.
    destruct x. simpl in *. by subst. }
  assert (Hl1 : lru bs1 l) by (apply lru_set; [done|lia|done..]).
  assert (Hbs1 : bs1 = set_bfl (k_buf k) b ((bfl (k_buf k) b) <| b_refcnt := 0 |>)).
  { rewrite <- Hb1. unfold bs1. by rewrite bfl_set, Z.eqb_refl by (done || lia). }
  clearbody bs1. run buf_at_ok; [|done|lia]. ksimpl. rewrite Hb1. rsimpl. rewrite Z.eqb_refl. cbn [when].
  erewrite bind_Ret; [|eapply relink_ok; ksimpl; [done|exact Hl1|done|unfold nxt; by rewrite Hb1|unfold prv; by rewrite Hb1]].
  cbv beta. unfold released. rewrite <- Hbs1. ksimpl.
  generalize (push_front (unlink bs1 b) b). intros bs2. knorm.
  rewrite (release_acq _ _ (settle (k_mach k))); [|apply settle_ok, Hr|apply lock_free_settle, Hc|done].
  knorm. by rewrite settle_settle by apply Hr.
Qed.
End ops.
