(* ===== verification/Blocks.v ===== *)
(** * What the buffer cache promises

    To its client the cache is an array of blocks: [bread] hands out the
    current content of a block, [bwrite] stores it on the disk, [brelse] gives
    the buffer back.  The invariant ties the buffers to the disk; the view
    [blk] is the content a reader sees. *)

From S2P Require Import Prelude State Spinlock CString Kalloc Console Vm Message Container Proc Syscall.
From S2P Require Import Sleeplock Bio Cache.
Open Scope Z_scope.

Section view.
Implicit Types (k : kernel) (b c n m : Z) (x : buf).

Definition bf k b : buf := bfl (k_buf k) b.
Definition block k n : list Z := default [] (aget (k_disk k) n).

(** Buffer [b] is for block [n] of disk 1. *)
Definition holds k n b : bool := is_block 1 n (k_buf k) b.
Definition where_ k n : option Z := find (holds k n) (seqZ 0 NBUF).
Definition blk k n : list Z :=
  match where_ k n with Some b => b_data (bf k b) | None => block k n end.
(** A change of block [n] has not been written yet. *)
Definition DIRTY : Z := Z.lor B_VALID B_DIRTY.
Definition dirty k n : Prop := exists b, where_ k n = Some b /\ b_flags (bf k b) = DIRTY.

(** One buffer: free, with the content of the disk unless it is dirty, or in
    use by the process [pid]. *)
Record buf_inv k (pid b : Z) : Prop := {
  bi_data : alen (b_data (bf k b)) = BSIZE;
  bi_flags : b_flags (bf k b) = 0 \/ b_flags (bf k b) = B_VALID \/ b_flags (bf k b) = DIRTY;
  bi_home : b_flags (bf k b) <> 0 <-> b_dev (bf k b) = 1;
  bi_range : b_dev (bf k b) = 1 -> 0 <= b_blockno (bf k b) < alen (k_disk k);
  bi_use : (b_refcnt (bf k b) = 0 /\ sl_locked (sl_of k (buf_lock b)) = 0 /\
            (b_flags (bf k b) = B_VALID -> b_data (bf k b) = block k (b_blockno (bf k b)))) \/
           (b_refcnt (bf k b) = 1 /\ sl_of k (buf_lock b) = mksleep 1 pid /\ b_dev (bf k b) = 1) }.

Record cache_ok k (pid : Z) : Prop := {
  co_bufs : bufs_ok (k_buf k);
  co_lru : exists l, lru (k_buf k) l;
  co_uniq : forall b c n, 0 <= b < NBUF -> 0 <= c < NBUF -> holds k n b = true -> holds k n c = true -> b = c;
  co_inv : forall b, 0 <= b < NBUF -> buf_inv k pid b;
  co_disk : disk_sized k;
  co_blocks : Forall (fun d => alen d = BSIZE) (k_disk k) }.

Lemma holds_spec k n b : holds k n b = true <-> b_dev (bf k b) = 1 /\ b_blockno (bf k b) = n.
Proof. unfold holds, is_block, bf. by rewrite andb_true_iff, !Z.eqb_eq. Qed.

Lemma where_Some k n b : where_ k n = Some b -> 0 <= b < NBUF /\ holds k n b = true.
Proof.
  intros [H1 H2]%find_some. split; [|done]. apply list_elem_of_In, elem_of_seqZ in H1. lia.
Qed.

Lemma where_None k n b : where_ k n = None -> 0 <= b < NBUF -> holds k n b = false.
Proof.
  intros H Hb. apply (find_none _ _ H b). apply list_elem_of_In, elem_of_seqZ. lia.
Qed.

Lemma where_is k pid n b : cache_ok k pid -> 0 <= b < NBUF -> holds k n b = true -> where_ k n = Some b.
Proof.
  intros Hc Hb Hh. destruct (where_ k n) as [c|] eqn:E.
  - apply where_Some in E as [Hc' Hh']. f_equal. by apply (co_uniq _ _ Hc c b n).
  - by rewrite (where_None _ _ _ E Hb) in Hh.
Qed.

Lemma block_length k pid n : cache_ok k pid -> 0 <= n < alen (k_disk k) -> alen (block k n) = BSIZE.
Proof.
  intros Hc Hn. unfold block. destruct (aget_is_Some (k_disk k) n Hn) as [d Hd]. rewrite Hd. simpl.
  pose proof (co_blocks _ _ Hc) as Hb. rewrite Forall_forall in Hb. apply Hb.
  unfold aget in Hd. destruct (0 <=? n); [|done]. by eapply list_elem_of_lookup_2.
Qed.

Lemma aget_block k n : 0 <= n < alen (k_disk k) -> aget (k_disk k) n = Some (block k n).
Proof. intros Hn. unfold block. by destruct (aget_is_Some (k_disk k) n Hn) as [d ->]. Qed.

Lemma blk_length k pid n : cache_ok k pid -> 0 <= n < alen (k_disk k) -> alen (blk k n) = BSIZE.
Proof.
  intros Hc Hn. unfold blk. destruct (where_ k n) as [b|] eqn:E; [|by eapply block_length].
  apply where_Some in E as [Hb _]. apply (co_inv _ _ Hc b Hb).
Qed.

Lemma where_find k pid n l :
  cache_ok k pid -> lru (k_buf k) l -> find (is_block 1 n (k_buf k)) l = where_ k n.
Proof.
  intros Hc Hl. destruct (find (is_block 1 n (k_buf k)) l) as [b|] eqn:E.
  - apply find_some in E as [E1 E2]. symmetry. eapply where_is; [done| |done].
    by apply (lru_elem _ _ _ Hl), list_elem_of_In.
  - destruct (where_ k n) as [b|] eqn:E2; [|done]. apply where_Some in E2 as [Hb Hh].
    apply find_none with (x := b) in E; [unfold holds in Hh; congruence|].
    by apply list_elem_of_In, (lru_elem _ _ _ Hl).
Qed.
End view.

(** ** Steps of the cache *)

Section steps.
Implicit Types (k : kernel) (b c n m : Z) (x : buf) (p : proc).

(** The state without the buffers, their locks, the disk, the processes and the
    machine. *)
Definition rest k : kernel :=
  kst (k <| k_proc := [] |> <| k_sleep := ∅ |> <| k_buf := [] |> <| k_disk := [] |> <| k_dtrace := [] |>)
    (k_mach (kernel0 0)).

(** Only the buffers, their locks and the disk change, and sleeping processes
    may be woken. *)
Record bstep k k' : Prop := {
  bs_rest : rest k' = rest k;
  bs_mach : k_mach k' = k_mach k \/ k_mach k' = settle (k_mach k);
  bs_woken : woken (k_proc k) (k_proc k') }.

Lemma bstep_refl k : bstep k k.
Proof. split; [done|by left|apply woken_refl]. Qed.

Lemma bstep_trans k1 k2 k3 : mach_ok (k_mach k1) -> bstep k1 k2 -> bstep k2 k3 -> bstep k1 k3.
Proof.
  intros Hok [R M W] [R' M' W']. split; [congruence| |by eapply woken_trans].
  destruct M as [E|E], M' as [E'|E']; rewrite E', E; [by left|by right..|]. right. by apply settle_settle.
Qed.

Lemma fsctx_bstep k k' i p : fsctx k i p -> bstep k k' -> fsctx k' i p.
Proof.
  intros Hc [_ [Hm|Hm] Hw].
  - destruct Hc as [[Hok Hcur Hp] Hs Hpt Hl Hbc Hbs]. split; rewrite ?Hm; try done.
    + split; rewrite ?Hm; [done..|]. eapply woken_awake; [done..|congruence].
    + rewrite <- Hl. unfold alen. f_equal. symmetry. by eapply Forall2_length.
  - by eapply fsctx_step.
Qed.

(** The fields a step leaves alone. *)
Lemma bstep_log k k' : bstep k k' -> k_log k' = k_log k.
Proof. intros [R _ _]. exact (f_equal k_log R). Qed.
(** What the file system code above the cache and the log keeps itself. *)
Definition above k : list inode * mem * superblock := (k_inode k, k_mem k, k_sb k).
Lemma bstep_above k k' : bstep k k' -> above k' = above k.
Proof. intros [R _ _]. exact (f_equal above R). Qed.
Lemma bstep_size k k' : bstep k k' -> k_disksize k' = k_disksize k.
Proof. intros [R _ _]. exact (f_equal k_disksize R). Qed.

(** ** Taking a buffer *)

(** [k'] is [k] with buffer [b] taken for block [n]. *)
Record taken k n b k' : Prop := {
  tk_where : where_ k' n = Some b;
  tk_free : b_refcnt (bf k b) = 0;
  tk_held : b_refcnt (bf k' b) = 1;
  tk_blk : forall m, blk k' m = blk k m;
  tk_dirty : forall m, dirty k' m <-> dirty k m;
  tk_others : forall c, 0 <= c < NBUF -> c <> b -> bf k' c = bf k c;
  tk_disk : k_disk k' = k_disk k;
  tk_trace : k_dtrace k' = k_dtrace k }.

Lemma locked_bf k b x p c : bufs_ok (k_buf k) -> 0 <= b < NBUF ->
  bf (locked k b x p) c = if c =? b then x else bf k c.
Proof. intros Hok Hb. unfold bf, locked, sl_put. ksimpl. apply bfl_set; [done|lia]. Qed.

Lemma locked_sl_ne k b x p c : c <> b -> sl_of (locked k b x p) (buf_lock c) = sl_of k (buf_lock c).
Proof.
  intros Hne. unfold sl_of, locked, sl_put. ksimpl. rewrite lookup_insert_ne; [done|].
  unfold buf_lock. congruence.
Qed.

(** What the buffer of a block in use looks like. *)
Record fresh k n b x : Prop := {
  fr_dev : b_dev x = 1;
  fr_no : b_blockno x = n;
  fr_ref : b_refcnt x = 1;
  fr_data : b_data x = blk k n;
  fr_next : b_next x = b_next (bf k b);
  fr_prev : b_prev x = b_prev (bf k b);
  fr_flags : b_flags x = B_VALID \/ b_flags x = DIRTY;
  fr_from : where_ k n = Some b /\ b_flags x = b_flags (bf k b) \/
            where_ k n = None /\ b_flags x = B_VALID /\ b_flags (bf k b) <> DIRTY;
  fr_free : b_refcnt (bf k b) = 0 }.

Section locking.
Variables (k : kernel) (n b : Z) (x : buf) (p : proc).
Hypotheses (Hc : cache_ok k (p_pid p)) (Hb : 0 <= b < NBUF) (Hn : 0 <= n < alen (k_disk k))
  (Hx : fresh k n b x).
Let k' := locked k b x p.

Lemma fresh_bf c : bf k' c = if c =? b then x else bf k c.
Proof. apply locked_bf; [apply Hc|done]. Qed.

Lemma fresh_holds m c : 0 <= c < NBUF ->
  holds k' m c = if c =? b then m =? n else holds k m c.
Proof.
  intros Hcr. unfold holds, is_block. fold (bf k' c) (bf k c). rewrite fresh_bf.
  destruct (c =? b); [|done]. rewrite (fr_dev _ _ _ _ Hx), (fr_no _ _ _ _ Hx). simpl.
  by rewrite Z.eqb_sym.
Qed.

(** No other buffer is for the block. *)
Lemma fresh_only c : 0 <= c < NBUF -> holds k n c = true -> c = b.
Proof.
  intros Hcr Hh. pose proof (where_is _ _ _ _ Hc Hcr Hh) as Hw.
  destruct (fr_from _ _ _ _ Hx) as [[E _]|[E _]]; congruence.
Qed.

Lemma fresh_cache : cache_ok k' (p_pid p).
Proof.
  split.
  - unfold k', locked, sl_put. ksimpl. apply bufs_ok_set, Hc.
  - destruct (co_lru _ _ Hc) as [l Hl]. exists l. unfold k', locked, sl_put. ksimpl.
    apply lru_set; [apply Hc|lia|apply Hx|apply Hx|done].
  - intros c d m Hcr Hdr. rewrite !fresh_holds by done.
    destruct (Z.eqb_spec c b) as [->|], (Z.eqb_spec d b) as [->|]; try done.
    + intros ->%Z.eqb_eq Hh. symmetry. by apply fresh_only.
    + intros Hh ->%Z.eqb_eq. by apply fresh_only.
    + by apply (co_uniq _ _ Hc).
  - intros c Hcr. destruct (co_inv _ _ Hc c Hcr) as [Hd Hf Hh Hr Hu].
    split; rewrite ?fresh_bf; destruct (Z.eqb_spec c b) as [->|Hne]; try done.
    + rewrite (fr_data _ _ _ _ Hx). by eapply blk_length.
    + right. apply Hx.
    + rewrite (fr_dev _ _ _ _ Hx). split; [done|]. intros _.
      destruct (fr_flags _ _ _ _ Hx) as [-> | ->]; done.
    + rewrite (fr_no _ _ _ _ Hx). done.
    + right. split_and!; [apply Hx|apply locked_sl|apply Hx].
    + unfold k'. rewrite locked_sl_ne by done. exact Hu.
  - apply Hc.
  - apply Hc.
Qed.

Lemma fresh_where m : where_ k' m = if m =? n then Some b else
  match where_ k m with Some c => if c =? b then None else Some c | None => None end.
Proof.
  destruct (Z.eqb_spec m n) as [->|Hm].
  { apply (where_is _ _ _ _ fresh_cache Hb). rewrite fresh_holds by done. by rewrite !Z.eqb_refl. }
  assert (Hnone : forall c, 0 <= c < NBUF -> holds k' m c = true -> c <> b /\ where_ k m = Some c).
  { intros c Hcr. rewrite fresh_holds by done. destruct (Z.eqb_spec c b); [by intros ?%Z.eqb_eq|].
    intros Hh. split; [done|]. by eapply where_is. }
  destruct (where_ k m) as [c|] eqn:E.
  - pose proof (where_Some _ _ _ E) as [Hcr Hh]. destruct (Z.eqb_spec c b) as [->|Hne].
    + destruct (where_ k' m) as [d|] eqn:E2; [|done]. apply where_Some in E2 as [Hdr Hd].
      destruct (Hnone d Hdr Hd). congruence.
    + apply (where_is _ _ _ _ fresh_cache Hcr). rewrite fresh_holds by done.
      by destruct (Z.eqb_spec c b).
  - destruct (where_ k' m) as [d|] eqn:E2; [|done]. apply where_Some in E2 as [Hdr Hd].
    destruct (Hnone d Hdr Hd). congruence.
Qed.

(** If the buffer held another block, that block is on the disk. *)
Lemma fresh_evicted m : m <> n -> where_ k m = Some b -> blk k m = block k m /\ ~ dirty k m.
Proof.
  intros Hm Hw. pose proof (where_Some _ _ _ Hw) as [_ [Hdev Hno]%holds_spec].
  destruct (fr_from _ _ _ _ Hx) as [[E _]|(E & _ & Hnd)].
  { pose proof (where_Some _ _ _ E) as [_ [_ ?]%holds_spec]. congruence. }
  destruct (co_inv _ _ Hc b Hb) as [_ Hf Hh _ Hu]. assert (Hf0 : b_flags (bf k b) <> 0) by by apply Hh.
  assert (Hv : b_flags (bf k b) = B_VALID) by (destruct Hf as [|[|]]; done).
  destruct Hu as [(_ & _ & Hd)|(Hr & _)]; [|rewrite (fr_free _ _ _ _ Hx) in Hr; lia].
  unfold blk. rewrite Hw. split; [by rewrite Hd, Hno|]. intros (c & Hc' & Hd'). congruence.
Qed.

Lemma fresh_taken : taken k n b k'.
Proof.
  assert (Hbf : forall c, c <> b -> bf k' c = bf k c) by (intros; rewrite fresh_bf; by destruct (Z.eqb_spec c b)).
  assert (Hbb : bf k' b = x) by (by rewrite fresh_bf, Z.eqb_refl).
  split; try done.
  - by rewrite fresh_where, Z.eqb_refl.
  - apply Hx.
  - rewrite Hbb. apply Hx.
  - intros m. unfold blk at 1. rewrite fresh_where. destruct (Z.eqb_spec m n) as [->|Hm].
    { rewrite Hbb. apply Hx. }
    destruct (where_ k m) as [c|] eqn:E.
    + destruct (Z.eqb_spec c b) as [->|Hne].
      * symmetry. by apply fresh_evicted.
      * unfold blk. by rewrite E, Hbf.
    + unfold blk. by rewrite E.
  - intros m. unfold dirty. rewrite fresh_where. destruct (Z.eqb_spec m n) as [->|Hm].
    + destruct (fr_from _ _ _ _ Hx) as [[E Hf]|(E & Hf & _)]; rewrite E.
      * split; intros (c & [= <-] & Hd); exists b; (split; [done|]); rewrite Hbb in *; congruence.
      * split; [intros (c & [= <-] & Hd); rewrite Hbb, Hf in Hd; done|by intros (c & ? & _)].
    + destruct (where_ k m) as [c|] eqn:E; [|split; by intros (? & ? & _)].
      destruct (Z.eqb_spec c b) as [->|Hne].
      * split; [by intros (? & ? & _)|]. intros Hd. exfalso. apply (fresh_evicted m Hm E). unfold dirty.
        by rewrite E.
      * split; intros (d & [= <-] & Hd); exists c; (split; [done|]); by rewrite (Hbf c Hne) in Hd || rewrite (Hbf c Hne).
  - intros c _ Hne. by apply Hbf.
Qed.

Lemma fresh_step : bstep k k'.
Proof. split; [by destruct k|by right|apply woken_refl]. Qed.
End locking.

(** ** Changing a buffer in use *)

(** Buffer [b] and the disk are replaced. *)
Definition upd k b x (d : list (list Z)) (t : list (Z * list Z)) (mc : mach) : kernel :=
  kst (k <| k_buf := set_bfl (k_buf k) b x |> <| k_disk := d |> <| k_dtrace := t |>) mc.

(** The new content [x] of buffer [b], in use for block [n]. *)
Record edit k n b x (d : list (list Z)) : Prop := {
  ed_where : where_ k n = Some b;
  ed_held : b_refcnt (bf k b) = 1;
  ed_same : (b_dev x, b_blockno x, b_refcnt x, b_next x, b_prev x) =
            (b_dev (bf k b), b_blockno (bf k b), b_refcnt (bf k b), b_next (bf k b), b_prev (bf k b));
  ed_flags : b_flags x = B_VALID \/ b_flags x = DIRTY;
  ed_data : alen (b_data x) = BSIZE;
  ed_disk : d = k_disk k \/ d = <[Z.to_nat n := b_data x]> (k_disk k) }.

Section editing.
Variables (k : kernel) (pid n b : Z) (x : buf) (d : list (list Z)) (t : list (Z * list Z)) (mc : mach).
Hypotheses (Hc : cache_ok k pid) (Hx : edit k n b x d).
Let k' := upd k b x d t mc.

Lemma edit_range : 0 <= b < NBUF.
Proof. apply (where_Some k n), Hx. Qed.

Lemma edit_home : b_dev (bf k b) = 1 /\ b_blockno (bf k b) = n /\ 0 <= n < alen (k_disk k).
Proof.
  pose proof (where_Some k n b (ed_where _ _ _ _ _ Hx)) as [Hb [Hd Hn]%holds_spec].
  split_and!; [done|done|..]; pose proof (bi_range _ _ _ (co_inv _ _ Hc b Hb) Hd); lia.
Qed.

Lemma edit_bf c : bf k' c = if c =? b then x else bf k c.
Proof. unfold bf, k', upd. ksimpl. apply bfl_set; [apply Hc|pose proof edit_range; lia]. Qed.

Lemma edit_holds m c : holds k' m c = holds k m c.
Proof.
  unfold holds, is_block. fold (bf k' c) (bf k c). rewrite edit_bf. destruct (Z.eqb_spec c b) as [->|]; [|done].
  pose proof (ed_same _ _ _ _ _ Hx) as [= -> -> _ _ _]. done.
Qed.

Lemma edit_where m : where_ k' m = where_ k m.
Proof. unfold where_. induction (seqZ 0 NBUF) as [|c l IH]; [done|]. simpl. by rewrite edit_holds, IH. Qed.

Lemma edit_alen : alen d = alen (k_disk k).
Proof. destruct (ed_disk _ _ _ _ _ Hx) as [-> | ->]; [done|]. unfold alen. by rewrite length_insert. Qed.

Lemma edit_block m : m <> n -> block k' m = block k m.
Proof.
  intros Hne. unfold block, k', upd. ksimpl. pose proof edit_home as (_ & _ & Hn).
  destruct (ed_disk _ _ _ _ _ Hx) as [-> | ->]; [done|].
  rewrite aget_insert_ne; [done|lia..].
Qed.

Lemma edit_cache : cache_ok k' pid.
Proof.
  pose proof (ed_same _ _ _ _ _ Hx) as [= Ed En Er Enx Epr]. pose proof edit_range. pose proof edit_home as (Hdev & Hno & Hn).
  split.
  - apply bufs_ok_set, Hc.
  - destruct (co_lru _ _ Hc) as [l Hl]. exists l. apply lru_set; [apply Hc|lia|done..].
  - intros a c m Ha Hcr. rewrite !edit_holds. by apply (co_uniq _ _ Hc).
  - intros c Hcr. destruct (co_inv _ _ Hc c Hcr) as [Hd Hf Hh Hr Hu].
    change (k_disk k') with d in *.
    split; rewrite ?edit_bf; destruct (Z.eqb_spec c b) as [->|Hne]; try done.
    + apply Hx.
    + right. apply Hx.
    + rewrite Ed, Hdev. split; [done|]. intros _. destruct (ed_flags _ _ _ _ _ Hx) as [-> | ->]; done.
    + change (k_disk k') with d. by rewrite edit_alen, En, Hno.
    + change (k_disk k') with d. by rewrite edit_alen.
    + right. rewrite Er, Ed. split_and!; [apply Hx| |done].
      destruct Hu as [(Hu & _)|(_ & Hu & _)]; [|done]. rewrite (ed_held _ _ _ _ _ Hx) in Hu. done.
    + destruct Hu as [(H1 & H2 & H3)|Hu]; [left|by right]. split_and!; [done..|]. intros Hv.
      assert (Hf0 : b_dev (bf k c) = 1) by (apply Hh; rewrite Hv; done). specialize (Hr Hf0).
      rewrite edit_block; [auto|]. intros Heq. apply Hne, (co_uniq _ _ Hc c b n); [done..| |].
      * by apply holds_spec.
      * by apply holds_spec.
  - destruct (co_disk _ _ Hc) as [H1 H2]. unfold disk_sized. change (k_disk k') with d.
    change (k_disksize k') with (k_disksize k). by rewrite edit_alen.
  - change (k_disk k') with d. destruct (ed_disk _ _ _ _ _ Hx) as [-> | ->]; [apply Hc|].
    apply Forall_insert; [apply Hc|apply Hx].
Qed.

Lemma edit_blk m : blk k' m = if m =? n then b_data x else blk k m.
Proof.
  unfold blk. rewrite edit_where. destruct (Z.eqb_spec m n) as [->|Hne].
  { rewrite (ed_where _ _ _ _ _ Hx). by rewrite edit_bf, Z.eqb_refl. }
  destruct (where_ k m) as [c|] eqn:E; [|by apply edit_block].
  rewrite edit_bf. destruct (Z.eqb_spec c b) as [->|]; [|done].
  apply where_Some in E as [_ [_ E]%holds_spec]. pose proof edit_home. lia.
Qed.

Lemma edit_dirty m : dirty k' m <-> if m =? n then b_flags x = DIRTY else dirty k m.
Proof.
  unfold dirty. rewrite edit_where. destruct (Z.eqb_spec m n) as [->|Hne].
  { rewrite (ed_where _ _ _ _ _ Hx). split.
    - intros (c & [= <-] & Hf). by rewrite edit_bf, Z.eqb_refl in Hf.
    - intros Hf. exists b. by rewrite edit_bf, Z.eqb_refl. }
  destruct (where_ k m) as [c|] eqn:E; [|split; by intros (? & ? & _)].
  assert (c <> b).
  { intros ->. apply where_Some in E as [_ [_ E]%holds_spec]. pose proof edit_home. lia. }
  split; intros (? & [= <-] & Hf); exists c; (split; [done|]); rewrite edit_bf in *; by destruct (Z.eqb_spec c b).
Qed.

Lemma edit_step : mc = k_mach k \/ mc = settle (k_mach k) -> bstep k k'.
Proof. intros Hm. split; [by destruct k|done|apply woken_refl]. Qed.
End editing.

(** ** Giving a buffer back *)

Section releasing.
Variables (k : kernel) (n b : Z) (p : proc).
Hypotheses (Hc : cache_ok k (p_pid p)) (Hw : where_ k n = Some b) (Hh : b_refcnt (bf k b) = 1)
  (Hclean : b_flags (bf k b) = B_VALID -> b_data (bf k b) = block k n).
Let k' := released k b.
Let x0 := (bf k b) <| b_refcnt := 0 |>.

Lemma released_range : 0 <= b < NBUF.
Proof. by apply (where_Some k n). Qed.

(** The list is rearranged; the content of the buffers is not touched. *)
Lemma released_lru : exists l, bufs_ok (k_buf k') /\ lru (k_buf k') l /\
  forall c, core (bf k' c) = if c =? b then core x0 else core (bf k c).
Proof.
  pose proof released_range as Hb. destruct (co_lru _ _ Hc) as [l Hl].
  assert (Hl1 : lru (set_bfl (k_buf k) b x0) l) by (apply lru_set; [apply Hc|lia|done..]).
  assert (Hin : b ∈ l) by by apply (lru_elem _ _ _ Hl).
  apply list_elem_of_split in Hin as (l1 & l2 & ->).
  destruct (move_front_ok _ l1 b l2 (bufs_ok_set _ _ _ (co_bufs _ _ Hc)) Hl1) as (Hok & Hl2 & Hcore).
  eexists. split; [exact Hok|]. split; [exact Hl2|]. intros c. unfold bf at 1, k', released. ksimpl. fold (bf k b) x0.
  rewrite Hcore, bfl_set by (apply Hc || lia). by destruct (c =? b).
Qed.

Lemma released_core c :
  core (bf k' c) = (b_flags (bf k c), b_dev (bf k c), b_blockno (bf k c), if c =? b then 0 else b_refcnt (bf k c), b_data (bf k c)).
Proof.
  destruct released_lru as (_ & _ & _ & ->). by destruct (Z.eqb_spec c b) as [->|].
Qed.

Lemma released_holds m c : holds k' m c = holds k m c.
Proof.
  unfold holds, is_block. fold (bf k' c) (bf k c). by pose proof (released_core c) as [= _ -> -> _ _].
Qed.

Lemma released_where m : where_ k' m = where_ k m.
Proof. unfold where_. induction (seqZ 0 NBUF) as [|c l IH]; [done|]. simpl. by rewrite released_holds, IH. Qed.

Lemma released_blk m : blk k' m = blk k m.
Proof.
  unfold blk. rewrite released_where. destruct (where_ k m) as [c|]; [|done].
  by pose proof (released_core c) as [= _ _ _ _ ->].
Qed.

Lemma released_dirty m : dirty k' m <-> dirty k m.
Proof.
  unfold dirty. rewrite released_where.
  split; intros (c & E & Hf); exists c; (split; [done|]); pose proof (released_core c) as [= Ef _ _ _ _]; congruence.
Qed.

Lemma released_refcnt c : b_refcnt (bf k' c) = if c =? b then 0 else b_refcnt (bf k c).
Proof. by pose proof (released_core c) as [= _ _ _ -> _]. Qed.

Lemma released_sl c : sl_of k' (buf_lock c) = if c =? b then mksleep 0 0 else sl_of k (buf_lock c).
Proof.
  unfold sl_of, k', released. ksimpl. destruct (Z.eqb_spec c b) as [->|]; [by rewrite lookup_insert_eq|].
  rewrite lookup_insert_ne; [done|]. unfold buf_lock. congruence.
Qed.

Lemma released_cache : cache_ok k' (p_pid p).
Proof.
  pose proof released_range as Hb. split.
  - by destruct released_lru as (l & Hl & _).
  - destruct released_lru as (l & _ & Hl & _). eauto.
  - intros a c m Ha Hcr. rewrite !released_holds. by apply (co_uniq _ _ Hc).
  - intros c Hcr. destruct (co_inv _ _ Hc c Hcr) as [Hd Hf Hv Hr Hu].
    pose proof (released_core c) as [= Ef Ed En Er Edt].
    split; rewrite ?Ef, ?Ed, ?En, ?Edt; try done. rewrite Er, released_sl.
    destruct (Z.eqb_spec c b) as [->|]; [|exact Hu]. left. split_and!; [done..|].
    intros Hfl. rewrite Hclean by done. pose proof (where_Some _ _ _ Hw) as [_ [_ Hn]%holds_spec]. by rewrite Hn.
  - apply Hc.
  - apply Hc.
Qed.

Lemma released_step : bstep k k'.
Proof. split; [by destruct k|by right|apply woken_wake]. Qed.
End releasing.
End steps.

(** ** The operations, as a client sees them *)

(** The process holds exactly the buffers [hs]. *)
Record holding (k : kernel) (pid : Z) (hs : list Z) : Prop := {
  hd_cache : cache_ok k pid;
  hd_refs : forall c, 0 <= c < NBUF -> b_refcnt (bf k c) = if bool_decide (c ∈ hs) then 1 else 0 }.

(** There is a buffer for block [n]: its own, or one to evict. *)
Definition room (k : kernel) (hs : list Z) (n : Z) : Prop :=
  match where_ k n with
  | Some b => b ∉ hs
  | None => exists b, 0 <= b < NBUF /\ b ∉ hs /\ b_flags (bf k b) <> DIRTY
  end.

Section client.
Context {fuel : Fuel} {disk : BlockDev} {laws : DiskLaws disk}.
Implicit Types (k : kernel) (b c n m : Z) (hs : list Z).

Lemma not_dirty_flags f : f = 0 \/ f = B_VALID \/ f = DIRTY -> (Z.land f B_DIRTY =? 0) = true <-> f <> DIRTY.
Proof. by intros [-> | [-> | ->]]. Qed.

Lemma chosen_fresh k p hs n l :
  holding k (p_pid p) hs -> 0 <= n < alen (k_disk k) -> room k hs n -> lru (k_buf k) l ->
  exists b x d, chosen 1 n (k_buf k) l = Some (b, x) /\ 0 <= b < NBUF /\ b ∉ hs /\
    (b_flags x = 0 /\ b_dev x = 1 /\ aget (k_disk k) (b_blockno x) = Some d \/ Z.land (b_flags x) B_VALID <> 0) /\
    fresh k n b (if b_flags x =? 0 then x <| b_data := d |> <| b_flags := B_VALID |> else x).
Proof.
  intros [Hc Hr] Hn Hroom Hl. unfold chosen. rewrite (where_find _ _ _ _ Hc Hl). unfold room in Hroom.
  pose proof (aget_block k n Hn) as Hd. set (d := block k n) in *.
  destruct (where_ k n) as [b|] eqn:E.
  - pose proof (where_Some _ _ _ E) as [Hb [Hdev Hno]%holds_spec]. destruct (co_inv _ _ Hc b Hb) as [_ Hf Hh _ _].
    assert (Hf0 : b_flags (bf k b) <> 0) by by apply Hh. fold (bf k b).
    specialize (Hr b Hb). rewrite bool_decide_false in Hr by done.
    exists b, ((bf k b) <| b_refcnt ::= fun r => u32 (r + 1) |>), d. rsimpl.
    split_and!; [done|lia|lia|done|right; by destruct Hf as [|[-> | ->]]|].
    rewrite (proj2 (Z.eqb_neq _ _) Hf0). split; rsimpl; try done.
    + by rewrite Hr.
    + unfold blk. by rewrite E.
    + by destruct Hf.
    + by left.
  - destruct Hroom as (c & Hcr & Hch & Hcf).
    assert (Hcu : is_unused (k_buf k) c = true).
    { unfold is_unused. fold (bf k c). rewrite (Hr c Hcr), bool_decide_false by done. simpl.
      apply not_dirty_flags; [|done]. apply (co_inv _ _ Hc c Hcr). }
    destruct (find (is_unused (k_buf k)) (rev l)) as [b|] eqn:E2.
    2:{ apply find_none with (x := c) in E2; [congruence|]. apply in_rev. rewrite rev_involutive.
        by apply list_elem_of_In, (lru_elem _ _ _ Hl). }
    apply find_some in E2 as [Hb Hbu].
    assert (Hb' : 0 <= b < NBUF) by (apply (lru_elem _ _ _ Hl), list_elem_of_In; by apply in_rev).
    unfold is_unused in Hbu. fold (bf k b) in *. apply andb_prop in Hbu as [Hb1 Hb2].
    apply not_dirty_flags in Hb2; [|apply (co_inv _ _ Hc b Hb')]. apply Z.eqb_eq in Hb1.
    eexists b, _, d. rsimpl. split_and!; [done|lia|lia| |by left|].
    + intros Hin. rewrite (Hr b Hb'), bool_decide_true in Hb1 by done. done.
    + rewrite Z.eqb_refl. split; rsimpl; try done; [|by left|right; done].
      unfold blk. by rewrite E.
Qed.

(** Reading a block takes a buffer with the current content of the block, and
    changes no block. *)
Lemma bread_view k i p hs n :
  (0 < wakeups)%nat -> fsctx k i p -> holding k (p_pid p) hs -> 0 <= n < alen (k_disk k) -> room k hs n ->
  exists b k', bread 1 n k = Ret b k' /\ bstep k k' /\ holding k' (p_pid p) (b :: hs) /\ taken k n b k' /\ b ∉ hs.
Proof.
  intros Hf Hctx Hh Hn Hroom. destruct (co_lru _ _ (hd_cache _ _ _ Hh)) as [l Hl].
  destruct (chosen_fresh k p hs n l) as (b & x & d & Hch & Hb & Hbh & Hx & Hfr); [done..|].
  set (x' := if b_flags x =? 0 then _ else _) in *. pose proof Hh as [Hc Hr].
  assert (Ht : taken k n b (locked k b x' p)) by by apply fresh_taken.
  exists b, (locked k b x' p). split_and!; [|by eapply fresh_step| |done|done].
  - eapply bread_ok; try done; [apply Hc|apply Hc|].
    destruct (bi_use _ _ _ (co_inv _ _ Hc b Hb)) as [(_ & ? & _)|(Hr1 & _)]; [done|].
    rewrite (tk_free _ _ _ _ Ht) in Hr1. done.
  - split; [by eapply fresh_cache|]. intros c Hcr. destruct (decide (c = b)) as [->|Hne].
    + rewrite (tk_held _ _ _ _ Ht), bool_decide_true; [done|set_solver].
    + rewrite (tk_others _ _ _ _ Ht) by done. rewrite Hr by done. erewrite bool_decide_ext; [done|set_solver].
Qed.

(** A buffer in use stays where it is when another one is taken. *)
Lemma taken_keeps k n b k' pid hs m c :
  taken k n b k' -> holding k' pid hs -> where_ k m = Some c -> c <> b -> where_ k' m = Some c.
Proof.
  intros Ht Hh Hw Hne. apply where_Some in Hw as [Hc Hhc]. eapply where_is; [apply Hh|done|].
  unfold holds, is_block in *. fold (bf k' c) (bf k c) in *. by rewrite (tk_others _ _ _ _ Ht).
Qed.

(** What a change of the buffer of block [n] to [x] shows. *)
Record written k n x (d : list (list Z)) (t : list (Z * list Z)) k' : Prop := {
  wt_where : forall m, where_ k' m = where_ k m;
  wt_blk : forall m, blk k' m = if m =? n then b_data x else blk k m;
  wt_dirty : forall m, dirty k' m <-> if m =? n then b_flags x = DIRTY else dirty k m;
  wt_disk : k_disk k' = d;
  wt_trace : k_dtrace k' = t }.

Lemma upd_view k pid hs n b x d t mc :
  holding k pid hs -> edit k n b x d -> mc = k_mach k \/ mc = settle (k_mach k) ->
  bstep k (upd k b x d t mc) /\ holding (upd k b x d t mc) pid hs /\ written k n x d t (upd k b x d t mc) /\
  bf (upd k b x d t mc) b = x.
Proof.
  intros [Hc Hr] He Hm. pose proof (edit_bf k pid n b x d t mc Hc He) as Hbf. split_and!.
  - by eapply edit_step.
  - split; [by eapply edit_cache|]. intros c Hcr. rewrite Hbf. destruct (Z.eqb_spec c b) as [->|]; [|by apply Hr].
    pose proof (ed_same _ _ _ _ _ He) as [= _ _ -> _ _]. by apply Hr.
  - split; [by eapply edit_where|by eapply edit_blk|by eapply edit_dirty|done..].
  - by rewrite Hbf, Z.eqb_refl.
Qed.

Lemma held_flags k pid hs n b :
  holding k pid hs -> where_ k n = Some b -> b_flags (bf k b) = B_VALID \/ b_flags (bf k b) = DIRTY.
Proof.
  intros [Hc _] Hw. pose proof (where_Some _ _ _ Hw) as [Hb [Hd _]%holds_spec].
  destruct (co_inv _ _ Hc b Hb) as [_ Hf Hh _ _]. apply Hh in Hd. by destruct Hf.
Qed.

Lemma held_refcnt k pid hs n b : holding k pid hs -> where_ k n = Some b -> b ∈ hs -> b_refcnt (bf k b) = 1.
Proof.
  intros [_ Hr] Hw Hin. apply where_Some in Hw as [Hb _]. by rewrite (Hr b Hb), bool_decide_true.
Qed.

(** Storing to the data of a buffer in use. *)
Lemma data_view k pid hs n b d :
  holding k pid hs -> where_ k n = Some b -> b ∈ hs -> alen d = BSIZE ->
  exists k', buf_set b (fun x => x <| b_data := d |>) k = Ret tt k' /\ bstep k k' /\ holding k' pid hs /\
    written k n ((bf k b) <| b_data := d |>) (k_disk k) (k_dtrace k) k' /\ k_mach k' = k_mach k.
Proof.
  intros Hh Hw Hin Hd. set (x := (bf k b) <| b_data := d |>).
  destruct (upd_view k pid hs n b x (k_disk k) (k_dtrace k) (k_mach k)) as (H1 & H2 & H3 & _);
    [done| |by left|].
  { split; [done|by eapply held_refcnt|done|by eapply held_flags|done|by left]. }
  exists (upd k b x (k_disk k) (k_dtrace k) (k_mach k)). split_and!; [|done..].
  rewrite buf_set_ok; [|apply Hh|apply where_Some in Hw as [? _]; lia]. by destruct k.
Qed.

(** [bwrite] stores the buffer on the disk, and it is clean afterwards. *)
Lemma bwrite_view k i p hs n b :
  fsctx k i p -> holding k (p_pid p) hs -> where_ k n = Some b -> b ∈ hs ->
  exists k', bwrite b k = Ret tt k' /\ bstep k k' /\ holding k' (p_pid p) hs /\
    written k n ((bf k b) <| b_flags := B_VALID |>) (<[Z.to_nat n := blk k n]> (k_disk k))
      (k_dtrace k ++ [(n, blk k n)]) k'.
Proof.
  intros Hctx Hh Hw Hin. set (x := (bf k b) <| b_flags := B_VALID |>).
  assert (Hblk : blk k n = b_data (bf k b)) by (unfold blk; by rewrite Hw).
  set (d := <[_ := _]> (k_disk k)). set (t := k_dtrace k ++ _).
  pose proof (where_Some _ _ _ Hw) as [Hb [Hdev Hno]%holds_spec].
  pose proof (co_inv _ _ (hd_cache _ _ _ Hh) b Hb) as Hi.
  destruct (upd_view k (p_pid p) hs n b x d t (settle (k_mach k))) as (H1 & H2 & H3 & _); [done| |by right|].
  { split; [done|by eapply held_refcnt|done|by left|apply Hi|right]. unfold d. by rewrite Hblk. }
  exists (upd k b x d t (settle (k_mach k))). split_and!; [|done..].
  pose proof (bi_range _ _ _ Hi Hdev) as Hn. rewrite Hno in Hn.
  rewrite (bwrite_ok k i p b (block k n)); fold (bf k b); try done; try apply Hh.
  - rewrite Hno, <- Hblk. fold x d t. done.
  - destruct (bi_use _ _ _ Hi) as [(Hr & _)|(_ & ? & _)]; [|done].
    rewrite (held_refcnt _ _ _ _ _ Hh Hw Hin) in Hr. done.
  - by destruct (held_flags _ _ _ _ _ Hh Hw) as [-> | ->].
  - rewrite Hno. by apply aget_block.
Qed.

(** Nothing a client sees changes. *)
Record same_view k k' : Prop := {
  sv_where : forall m, where_ k' m = where_ k m;
  sv_blk : forall m, blk k' m = blk k m;
  sv_dirty : forall m, dirty k' m <-> dirty k m;
  sv_disk : k_disk k' = k_disk k;
  sv_trace : k_dtrace k' = k_dtrace k }.

(** A buffer is given back when its block is dirty or on the disk. *)
Lemma brelse_view k i p hs n b :
  fsctx k i p -> holding k (p_pid p) (b :: hs) -> where_ k n = Some b -> b ∉ hs ->
  (~ dirty k n -> blk k n = block k n) ->
  exists k', brelse b k = Ret tt k' /\ bstep k k' /\ holding k' (p_pid p) hs /\ same_view k k'.
Proof.
  intros Hctx Hh Hw Hnin Hcl. pose proof Hh as [Hc Hr]. pose proof (where_Some _ _ _ Hw) as [Hb _].
  assert (Hr1 : b_refcnt (bf k b) = 1) by (eapply held_refcnt; [done..|set_solver]).
  assert (Hcl' : b_flags (bf k b) = B_VALID -> b_data (bf k b) = block k n).
  { intros Hv. unfold blk in Hcl. rewrite Hw in Hcl. apply Hcl. intros (c & Hc' & Hf). simplify_eq.
    rewrite Hv in Hf. done. }
  destruct (co_lru _ _ Hc) as [l Hl]. exists (released k b). split_and!.
  - eapply brelse_ok; [done|apply Hc|done|done| |done].
    destruct (bi_use _ _ _ (co_inv _ _ Hc b Hb)) as [(H0 & _)|(_ & ? & _)]; [lia|done].
  - by eapply released_step.
  - split; [by eapply released_cache|]. intros c Hcr. erewrite released_refcnt by done.
    destruct (Z.eqb_spec c b) as [->|]; [by rewrite bool_decide_false|].
    rewrite Hr by done. erewrite bool_decide_ext; [done|set_solver].
  - split; [by eapply released_where|by eapply released_blk|by eapply released_dirty|done..].
Qed.
End client.

Section other.
Implicit Types (k : kernel) (m pid : Z) (hs : list Z) (f : log -> log).

(** A change of the log in memory is not seen by the cache. *)
Definition set_log k (f : log -> log) : kernel := k <| k_log ::= f |>.

Lemma fsctx_log k f i p : fsctx k i p -> fsctx (set_log k f) i p.
Proof. intros [[? ? ?] ? ? ? ? ?]. by split. Qed.

(** What the cache shows depends on the buffers, their locks and the disk. *)
Record same_cache k k' : Prop := {
  sc_buf : k_buf k' = k_buf k;
  sc_sleep : k_sleep k' = k_sleep k;
  sc_disk : k_disk k' = k_disk k;
  sc_size : k_disksize k' = k_disksize k }.

Lemma same_cache_view k k' : same_cache k k' ->
  (forall pid hs, holding k pid hs -> holding k' pid hs) /\
  (forall m, where_ k' m = where_ k m) /\ (forall m, blk k' m = blk k m) /\ (forall m, dirty k' m <-> dirty k m).
Proof.
  intros [H1 H2 H3 H4]. destruct k, k'. cbn in *. subst. split_and!; try done.
  intros pid hs [[C1 C2 C3 C4 C5 C6] Hr]. split; [|exact Hr]. split; [done..| |done|done].
  intros b Hb. by destruct (C4 b Hb).
Qed.

Lemma holding_log k f pid hs : holding k pid hs -> holding (set_log k f) pid hs.
Proof. by apply same_cache_view. Qed.

Lemma where_log k f m : where_ (set_log k f) m = where_ k m.
Proof. done. Qed.
Lemma blk_log k f m : blk (set_log k f) m = blk k m.
Proof. done. Qed.
Lemma dirty_log k f m : dirty (set_log k f) m <-> dirty k m.
Proof. done. Qed.
End other.

(** ** Initialisation *)

Section init.
Implicit Types (k : kernel) (b c j pid : Z).

Lemma link_front_ok k b :
  bufs_ok (k_buf k) -> 0 <= nxt (k_buf k) HEAD <= NBUF ->
  link_front b k = Ret tt (k <| k_buf := set_next (set_prev (k_buf k) (nxt (k_buf k) HEAD) b) HEAD b |>).
Proof.
  intros Hok Hn. assert (HH : 0 <= HEAD <= NBUF) by (unfold HEAD, NBUF, MAXOPBLOCKS; lia). unfold link_front.
  destruct (at_next k HEAD) as (h & Hh & Hnh & _); [done..|]. run Hh. rewrite Hnh.
  run set_prev_ok; [|done..]. rewrite set_next_ok; [|by apply bufs_ok_set|done]. by destruct k.
Qed.

Lemma initsleeplock_ok k l : exists mc,
  initsleeplock l k = Ret tt (kst (k <| k_sleep := <[l := mksleep 0 0]> (k_sleep k) |>) mc).
Proof.
  unfold initsleeplock. eexists. mstep. run sl_set_ok. rewrite sl_set_ok. unfold sl_put, sl_of. ksimpl.
  rewrite lookup_insert_eq, insert_insert_eq. by destruct k.
Qed.

(** The first [j] buffers are on the list, and their locks are free. *)
Record linked bs0 (d : list (list Z)) (z : Z) (t : list (Z * list Z)) j k : Prop := {
  lk_ok : bufs_ok (k_buf k);
  lk_seg : seg (nxt (k_buf k)) (prv (k_buf k)) HEAD (rev (seqZ 0 j)) HEAD;
  lk_core : forall c, core (bfl (k_buf k) c) = core (bfl bs0 c);
  lk_free : forall c, 0 <= c < j -> sl_of k (buf_lock c) = mksleep 0 0;
  lk_disk : k_disk k = d;
  lk_size : k_disksize k = z;
  lk_trace : k_dtrace k = t }.

Lemma rev_seqZ_S j : 0 <= j -> rev (seqZ 0 (j + 1)) = j :: rev (seqZ 0 j).
Proof. intros Hj. rewrite seqZ_app by lia. by rewrite rev_app_distr. Qed.

Lemma in_rev_seqZ c j : c ∈ rev (seqZ 0 j) <-> 0 <= c < j.
Proof. rewrite list_elem_of_In, <- in_rev, <- list_elem_of_In, elem_of_seqZ. lia. Qed.

(** One round of the loop of [binit]. *)
Lemma link_one bs0 d z t j k :
  linked bs0 d z t j k -> 0 <= j < NBUF ->
  exists k', (h ← buf_at HEAD;
    buf_set j (fun x => x <| b_next := b_next h |>) ;;;
    buf_set j (fun x => x <| b_prev := HEAD |>) ;;;
    initsleeplock (buf_lock j) ;;;
    link_front j) k = Ret tt k' /\ linked bs0 d z t (j + 1) k'.
Proof.
  intros [Hok Hs Hc Hf Hd Hz Ht] Hj. assert (HH : 0 <= HEAD <= NBUF) by (unfold HEAD, NBUF, MAXOPBLOCKS; lia).
  set (bs := k_buf k) in *.
  assert (Hn : 0 <= nxt bs HEAD <= NBUF).
  { eapply (seg_range (nxt bs)); [exact Hs| |done|by left].
    intros y [->|Hy%in_rev_seqZ]%elem_of_cons; [done|lia]. }
  destruct (at_next k HEAD) as (h & Hh & Hnh & _); [done..|]. fold bs in Hnh.
  set (bs2 := set_prev (set_next bs j (nxt bs HEAD)) j HEAD).
  assert (Hok2 : bufs_ok bs2) by by do 2 apply bufs_ok_set.
  destruct (initsleeplock_ok (k <| k_buf := bs2 |>) (buf_lock j)) as [mc Hi].
  assert (Hnh2 : nxt bs2 HEAD = nxt bs HEAD).
  { unfold bs2, nxt, set_prev, set_next. rewrite !bfl_set by first [done|lia|by apply bufs_ok_set].
    destruct (Z.eqb_spec HEAD j); [unfold HEAD in *; lia|done]. }
  set (k2 := kst _ mc) in Hi. exists (k2 <| k_buf := push_front bs j |>). split.
  - run Hh. rewrite Hnh. run set_next_ok; [|done|lia]. knorm. run set_prev_ok; [|by apply bufs_ok_set|lia]. knorm.
    fold bs. fold bs2. run Hi. change (k_buf k2) with bs2. rewrite link_front_ok; change (k_buf k2) with bs2;
      [|done|by rewrite Hnh2]. by rewrite Hnh2.
  - pose proof (push_front_ok bs bs _ _ j (same_bufs_refl bs Hok) Hj Hn) as Hp. split; try done.
    + apply Hp.
    + rewrite rev_seqZ_S by lia. change (k_buf (k2 <| k_buf := push_front bs j |>)) with (push_front bs j).
      eapply seg_ext; [intros; apply (sb_next _ _ _ _ Hp)|intros; apply (sb_prev _ _ _ _ Hp)|].
      apply seg_push; [done|rewrite in_rev_seqZ; lia|unfold HEAD; lia|unfold HEAD; lia| |].
      * apply NoDup_cons. rewrite in_rev_seqZ. split; [unfold HEAD; lia|].
        rewrite NoDup_ListNoDup. apply NoDup_rev. rewrite <- NoDup_ListNoDup. apply NoDup_seqZ.
      * rewrite in_rev_seqZ. unfold HEAD. lia.
    + intros c. etrans; [apply (sb_core _ _ _ _ Hp)|apply Hc].
    + intros c Hcr. unfold sl_of. change (k_sleep _) with (<[buf_lock j := mksleep 0 0]> (k_sleep k)).
      destruct (decide (c = j)) as [->|]; [by rewrite lookup_insert_eq|].
      rewrite lookup_insert_ne by (unfold buf_lock; congruence). apply Hf. lia.
Qed.

(** Thirty linked buffers without content are an empty cache. *)
Lemma linked_cold bs0 d z t k pid :
  linked bs0 d z t NBUF k -> (forall c, core (bfl bs0 c) = core buf0) -> disk_sized k ->
  Forall (fun x => alen x = BSIZE) (k_disk k) -> holding k pid [] /\ forall m, ~ dirty k m.
Proof.
  intros [Hok Hs Hc Hf _ _ _] Hb0 Hds Hbl.
  assert (Hcore : forall c, b_flags (bf k c) = 0 /\ b_dev (bf k c) = 0 /\ b_refcnt (bf k c) = 0 /\
    alen (b_data (bf k c)) = BSIZE).
  { intros c. pose proof (Hc c) as E. rewrite Hb0 in E. fold (bf k c) in E. by injection E as -> -> _ -> ->. }
  assert (Hno : forall n c, holds k n c = false).
  { intros n c. destruct (holds k n c) eqn:E; [|done]. apply holds_spec in E as [E _].
    destruct (Hcore c) as (_ & E' & _). congruence. }
  split.
  - split; [|intros c _; apply Hcore]. split; try done.
    + exists (rev (seqZ 0 NBUF)). split; [done|]. by rewrite <- Permutation_rev.
    + intros b c n _ _ Hh. by rewrite Hno in Hh.
    + intros b Hb. destruct (Hcore b) as (H1 & H2 & H3 & H4). split; rewrite ?H1, ?H2; try done; [by left|].
      left. split_and!; [done|by rewrite (Hf b Hb)|done].
  - intros m (b & Hw & _). apply where_Some in Hw as [_ Hw]. by rewrite Hno in Hw.
Qed.

Lemma binit_ok k pid :
  bufs_ok (k_buf k) -> (forall c, core (bfl (k_buf k) c) = core buf0) -> disk_sized k ->
  Forall (fun d => alen d = BSIZE) (k_disk k) ->
  exists k', binit k = Ret tt k' /\ holding k' pid [] /\ (forall m, ~ dirty k' m) /\
    k_disk k' = k_disk k /\ k_dtrace k' = k_dtrace k.
Proof.
  intros Hok Hb0 Hds Hf. assert (HH : 0 <= HEAD <= NBUF) by (unfold HEAD, NBUF, MAXOPBLOCKS; lia).
  set (bs1 := set_next (set_prev (k_buf k) HEAD HEAD) HEAD HEAD).
  pose proof (same_bufs_next _ _ _ _ HEAD HEAD
    (same_bufs_prev _ _ _ _ HEAD HEAD (same_bufs_refl _ Hok) HH) HH) as Hs. fold bs1 in Hs.
  assert (exists mc, initlock bcache_lock "bcache" k = Ret tt (kst k mc)) as [mc E1] by (eexists; reflexivity).
  set (k1 := (kst k mc) <| k_buf := bs1 |>).
  destruct (each_ind (linked (k_buf k) (k_disk k) (k_disksize k) (k_dtrace k)) (Z.to_nat NBUF) 0 (fun b =>
    h ← buf_at HEAD;
    buf_set b (fun x => x <| b_next := b_next h |>) ;;;
    buf_set b (fun x => x <| b_prev := HEAD |>) ;;;
    initsleeplock (buf_lock b) ;;;
    link_front b) k1) as (k' & E & Hl).
  - split; try done; [apply Hs| |apply Hs|intros c Hc; lia].
    simpl. rewrite (sb_next _ _ _ _ Hs), (sb_prev _ _ _ _ Hs), !upf_eq. done.
  - intros j k2 Hj Hl. apply link_one; [done|lia].
  - rewrite Z2Nat.id in Hl by done. rewrite Z.add_0_l in Hl. pose proof (lk_disk _ _ _ _ _ _ Hl) as Hd.
    destruct (linked_cold _ _ _ _ k' pid Hl) as [Hh Hnd]; [done| |by rewrite Hd|].
    { unfold disk_sized. by rewrite Hd, (lk_size _ _ _ _ _ _ Hl). }
    exists k'. split_and!; [|done..|by apply Hl]. unfold binit. run E1. run set_prev_ok; [|done..]. knorm.
    run set_next_ok; [|by apply bufs_ok_set|done]. knorm. exact E.
Qed.
End init.
