(* ===== verification/Log.v ===== *)
(** * The write-ahead log ([log.c])

    File system updates are collected in the buffer cache, and committed
    together: the changed blocks are copied to the log area of the disk, the
    header that names them is written, they are installed at their home
    locations and the header is cleared.  Booting replays a committed log. *)

From S2P Require Import Prelude State Spinlock CString Kalloc Console Vm Message Container Proc Syscall.
From S2P Require Import Sleeplock Bio.
Open Scope Z_scope.

(** ** Words and bytes of a block *)

Fixpoint le_bytes (n : nat) (v : Z) : list Z :=
  match n with O => [] | S n' => v mod 256 :: le_bytes n' (v / 256) end.
Fixpoint of_le (bs : list Z) : Z :=
  match bs with [] => 0 | b :: bs' => b + 256 * of_le bs' end.

(** [n] bytes of a block from offset [o], and storing some. *)
Definition sub_bytes (d : list Z) (o n : Z) : K (list Z) :=
  if (0 <=? o) && (0 <=? n) && (o + n <=? alen d) then mret (take (Z.to_nat n) (drop (Z.to_nat o) d))
  else fault "block".
Definition put_bytes (d : list Z) (o : Z) (bs : list Z) : K (list Z) :=
  if (0 <=? o) && (o + alen bs <=? alen d) then
    mret (take (Z.to_nat o) d ++ bs ++ drop (Z.to_nat o + length bs) d)
  else fault "block".

Definition word_at (d : list Z) (i : Z) : K Z := bs ← sub_bytes d (4 * i) 4; mret (of_le bs).
Definition put_word (b i v : Z) : K unit :=
  x ← buf_at b;
  d ← put_bytes (b_data x) (4 * i) (le_bytes 4 v);
  buf_set b (fun x => x <| b_data := d |>).

Definition log_lock : lockid := ("log", 0).
Definition log_chan : chan := CObj "log" 0.
Definition lg_set (f : log -> log) : K unit := modify (fun k => k <| k_log ::= f |>).

Section log.
Context {fuel : Fuel} {disk : BlockDev}.

(** [readsb] of [fs.c]. *)
Definition readsb (dev : Z) : K superblock :=
  b ← bread dev 1;
  x ← buf_at b;
  let d := b_data x in
  a0 ← word_at d 0; a1 ← word_at d 1; a2 ← word_at d 2; a3 ← word_at d 3;
  a4 ← word_at d 4; a5 ← word_at d 5; a6 ← word_at d 6;
  brelse b ;;;
  mret (mksb a0 a1 a2 a3 a4 a5 a6).

Definition install_one (tail : Z) : K unit :=
  lg ← gets k_log;
  lbuf ← bread (lg_dev lg) (u32 (lg_start lg + tail + 1));
  lg ← gets k_log;
  n ← rd "log.lh.block" (lh_block lg) tail;
  dbuf ← bread (lg_dev lg) (u32 n);
  l ← buf_at lbuf;
  buf_set dbuf (fun x => x <| b_data := b_data l |>) ;;;
  bwrite dbuf ;;;
  brelse lbuf ;;;
  brelse dbuf.

Definition write_one (tail : Z) : K unit :=
  lg ← gets k_log;
  to ← bread (lg_dev lg) (u32 (lg_start lg + tail + 1));
  lg ← gets k_log;
  n ← rd "log.lh.block" (lh_block lg) tail;
  from ← bread (lg_dev lg) (u32 n);
  f ← buf_at from;
  buf_set to (fun x => x <| b_data := b_data f |>) ;;;
  bwrite to ;;;
  brelse from ;;;
  brelse to.

(** A loop over the logged blocks: the bound [log.lh.n] is read in every
    round, and no round can be past the array. *)
Definition over_log (body : Z -> K unit) : K unit :=
  for_ (Z.to_nat LOGSIZE + 1) 0 (fun tail =>
    lg ← gets k_log;
    if tail <? lh_n lg then body tail ;;; mret None else mret (Some tt)) ;;;
  mret tt.

Definition install_trans : K unit := over_log install_one.
Definition write_log : K unit := over_log write_one.

Definition read_head : K unit :=
  lg ← gets k_log;
  b ← bread (lg_dev lg) (u32 (lg_start lg));
  x ← buf_at b;
  n ← word_at (b_data x) 0;
  lg_set (fun lg => lg <| lh_n := i32 n |>) ;;;
  over_log (fun i =>
    w ← word_at (b_data x) (i + 1);
    lg ← gets k_log;
    bl ← wr "log.lh.block" (lh_block lg) i (i32 w);
    lg_set (fun lg => lg <| lh_block := bl |>)) ;;;
  brelse b.

Definition write_head : K unit :=
  lg ← gets k_log;
  b ← bread (lg_dev lg) (u32 (lg_start lg));
  lg ← gets k_log;
  put_word b 0 (u32 (lh_n lg)) ;;;
  over_log (fun i =>
    lg ← gets k_log;
    n ← rd "log.lh.block" (lh_block lg) i;
    put_word b (i + 1) (u32 n)) ;;;
  bwrite b ;;;
  brelse b.

Definition recover_from_log : K unit :=
  read_head ;;;
  install_trans ;;;
  lg_set (fun lg => lg <| lh_n := 0 |>) ;;;
  write_head.

(** The header of 31 words is smaller than a block. *)
Definition initlog (dev : Z) : K unit :=
  if BSIZE <=? 4 * (1 + LOGSIZE) then panic "initlog: too big logheader"
  else
    initlock log_lock "log" ;;;
    sb ← readsb dev;
    lg_set (fun lg => lg <| lg_start := i32 (sb_logstart sb) |>) ;;;
    lg_set (fun lg => lg <| lg_size := i32 (sb_nlog sb) |>) ;;;
    lg_set (fun lg => lg <| lg_dev := dev |>) ;;;
    recover_from_log.

Fixpoint begin_loop (f : nat) : K unit :=
  match f with
  | O => fun _ => Diverge
  | S f' =>
      lg ← gets k_log;
      if negb (lg_committing lg =? 0) then sleep log_chan (Some log_lock) ;;; begin_loop f'
      else if LOGSIZE <? lh_n lg + (lg_outstanding lg + 1) * MAXOPBLOCKS then
        sleep log_chan (Some log_lock) ;;; begin_loop f'
      else
        lg_set (fun lg => lg <| lg_outstanding ::= Z.add 1 |>) ;;;
        release log_lock
  end.
Definition begin_op : K unit :=
  acquire log_lock ;;;
  begin_loop wakeups.

Definition commit : K unit :=
  lg ← gets k_log;
  when (0 <? lh_n lg)
    (write_log ;;;
     write_head ;;;
     install_trans ;;;
     lg_set (fun lg => lg <| lh_n := 0 |>) ;;;
     write_head).

Definition end_op : K unit :=
  acquire log_lock ;;;
  lg_set (fun lg => lg <| lg_outstanding ::= fun n => n - 1 |>) ;;;
  lg ← gets k_log;
  if negb (lg_committing lg =? 0) then panic "log.committing"
  else
    do_commit ← (if lg_outstanding lg =? 0 then
                   lg_set (fun lg => lg <| lg_committing := 1 |>) ;;; mret true
                 else wakeup log_chan ;;; mret false);
    release log_lock ;;;
    when do_commit
      (commit ;;;
       acquire log_lock ;;;
       lg_set (fun lg => lg <| lg_committing := 0 |>) ;;;
       wakeup log_chan ;;;
       release log_lock).

(** The index of block [n] in the header, or the number of entries. *)
Definition absorb (n : Z) : K Z :=
  r ← for_ (Z.to_nat LOGSIZE + 1) 0 (fun i =>
    lg ← gets k_log;
    if i <? lh_n lg then
      m ← rd "log.lh.block" (lh_block lg) i;
      mret (if u32 m =? n then Some i else None)
    else mret (Some i));
  match r with Some i => mret i | None => fault "log.lh.block" end.

Definition log_write (b : Z) : K unit :=
  lg ← gets k_log;
  if (LOGSIZE <=? lh_n lg) || (lg_size lg - 1 <=? lh_n lg) then panic "too big a transaction"
  else if lg_outstanding lg <? 1 then panic "log_write outside of trans"
  else
    acquire log_lock ;;;
    x ← buf_at b;
    i ← absorb (b_blockno x);
    lg ← gets k_log;
    bl ← wr "log.lh.block" (lh_block lg) i (i32 (b_blockno x));
    lg_set (fun lg => lg <| lh_block := bl |>) ;;;
    lg ← gets k_log;
    when (i =? lh_n lg) (lg_set (fun lg => lg <| lh_n ::= Z.add 1 |>)) ;;;
    buf_set b (fun x => x <| b_flags ::= fun f => Z.lor f B_DIRTY |>) ;;;
    release log_lock.
End log.
