(* ===== verification/Words.v ===== *)
(** * Words of a block

    The lemmas on little-endian words shared by the log header and the on-disk
    inodes: a word written at an index is read back there, and the words at
    other indices are untouched. *)

From S2P Require Import Prelude State Spinlock CString Kalloc Console Vm Message Container Proc Syscall.
From S2P Require Import Sleeplock Bio Log.
Open Scope Z_scope.

Section words.
Implicit Types (d bs : list Z) (o i j v : Z).

Lemma le_bytes_length n v : length (le_bytes n v) = n.
Proof. revert v. induction n as [|n IH]; intros v; simpl; [done|]. by rewrite IH. Qed.

Lemma alen_le (n : nat) v : alen (le_bytes n v) = Z.of_nat n.
Proof. unfold alen. by rewrite le_bytes_length. Qed.

Lemma alen_words ws : alen (concat (le_bytes 4 <$> ws)) = 4 * alen ws.
Proof.
  induction ws as [|x ws IH]; [done|]. change (concat (le_bytes 4 <$> x :: ws)) with (le_bytes 4 x ++ concat (le_bytes 4 <$> ws)).
  rewrite alen_app, alen_le, IH, alen_cons. lia.
Qed.

Lemma of_le_bytes n v : of_le (le_bytes n v) = v mod 256 ^ Z.of_nat n.
Proof.
  revert v. induction n as [|n IH]; intros v; [symmetry; apply Z.mod_1_r|].
  cbn [le_bytes of_le]. rewrite IH, Nat2Z.inj_succ, Z.pow_succ_r by lia.
  by rewrite (Z.rem_mul_r v 256) by lia.
Qed.

Lemma of_le_app bs bs' : of_le (bs ++ bs') = of_le bs + 256 ^ alen bs * of_le bs'.
Proof.
  unfold alen. induction bs as [|b bs IH].
  - cbn [app of_le length]. change (Z.of_nat 0) with 0. lia.
  - cbn [app of_le length]. rewrite IH, Nat2Z.inj_succ, Z.pow_succ_r by lia. lia.
Qed.

(** Bytes [o], [o + 1], ... replaced. *)
Definition splice d o bs : list Z := take (Z.to_nat o) d ++ bs ++ drop (Z.to_nat o + length bs) d.
Definition slice d o n : list Z := take (Z.to_nat n) (drop (Z.to_nat o) d).
(** The [i]-th word. *)
Definition wd d i : Z := of_le (slice d (4 * i) 4).

Lemma splice_length d o bs : 0 <= o -> o + alen bs <= alen d -> alen (splice d o bs) = alen d.
Proof.
  unfold splice, alen. intros Ho Hl. rewrite !length_app, length_take, length_drop. lia.
Qed.

Lemma aget_slice d o n i : 0 <= o -> 0 <= i < n -> aget (slice d o n) i = aget d (o + i).
Proof.
  intros Ho Hi. unfold slice, aget. rewrite !(proj2 (Z.leb_le _ _)) by lia. rewrite lookup_take_lt, lookup_drop by lia. f_equal. lia.
Qed.

Lemma put_bytes_ok d o bs (k : kernel) :
  0 <= o -> o + alen bs <= alen d -> put_bytes d o bs k = Ret (splice d o bs) k.
Proof.
  intros Ho Hl. unfold put_bytes. by rewrite (proj2 (Z.leb_le _ _) Ho), (proj2 (Z.leb_le _ _) Hl).
Qed.

Lemma sub_bytes_ok d o n (k : kernel) :
  0 <= o -> 0 <= n -> o + n <= alen d -> sub_bytes d o n k = Ret (slice d o n) k.
Proof.
  intros Ho Hn Hl. unfold sub_bytes.
  by rewrite (proj2 (Z.leb_le _ _) Ho), (proj2 (Z.leb_le _ _) Hn), (proj2 (Z.leb_le _ _) Hl).
Qed.

Lemma word_at_ok d i (k : kernel) : 0 <= i -> 4 * i + 4 <= alen d -> word_at d i k = Ret (wd d i) k.
Proof. intros Hi Hl. unfold word_at. run sub_bytes_ok; [done|lia..]. Qed.

Lemma slice_splice_eq d o bs : 0 <= o -> o + alen bs <= alen d -> slice (splice d o bs) o (alen bs) = bs.
Proof.
  unfold slice, splice, alen. intros Ho Hl. rewrite drop_app_length' by (rewrite length_take; lia).
  apply take_app_length'. lia.
Qed.

Lemma splice_lookup d o bs (x : nat) :
  0 <= o -> o + alen bs <= alen d ->
  splice d o bs !! x =
    if decide (o <= Z.of_nat x < o + alen bs) then bs !! (x - Z.to_nat o)%nat else d !! x.
Proof.
  unfold splice, alen. intros Ho Hl. destruct (decide (Z.of_nat x < o)).
  - rewrite decide_False by lia. rewrite lookup_app_l by (rewrite length_take; lia).
    apply lookup_take_lt. lia.
  - rewrite lookup_app_r by (rewrite length_take; lia). rewrite length_take.
    replace (Z.to_nat o `min` length d)%nat with (Z.to_nat o) by lia. case_decide.
    + apply lookup_app_l. lia.
    + rewrite lookup_app_r, lookup_drop by lia. f_equal. lia.
Qed.

Lemma slice_ext d d' o n :
  0 <= o -> (forall x : nat, o <= Z.of_nat x < o + n -> d !! x = d' !! x) -> slice d o n = slice d' o n.
Proof.
  intros Ho Hx. unfold slice. apply list_eq. intros x. destruct (decide (x < Z.to_nat n)%nat).
  - rewrite !lookup_take_lt, !lookup_drop by lia. apply Hx. lia.
  - by rewrite !lookup_take_ge by lia.
Qed.

Lemma aget_splice d o bs i : 0 <= o -> o + alen bs <= alen d -> 0 <= i ->
  aget (splice d o bs) i = if decide (o <= i < o + alen bs) then aget bs (i - o) else aget d i.
Proof.
  intros Ho Hl Hi. unfold aget at 1 3. destruct (Z.leb_spec 0 i); [|lia]. rewrite splice_lookup by done.
  case_decide; case_decide; unfold alen in *; try lia; [|done]. unfold aget. destruct (Z.leb_spec 0 (i - o)); [|lia]. f_equal. lia.
Qed.

Lemma slice_splice_ne d o bs o' n :
  0 <= o -> 0 <= o' -> o + alen bs <= alen d -> o' + n <= o \/ o + alen bs <= o' ->
  slice (splice d o bs) o' n = slice d o' n.
Proof.
  intros Ho Ho' Hl Hd. apply slice_ext; [done|]. intros x Hx. rewrite splice_lookup by done.
  rewrite decide_False; [done|lia].
Qed.

Lemma wd_splice d i j v :
  0 <= i -> 0 <= j -> 4 * j + 4 <= alen d -> 0 <= v < 2 ^ 32 ->
  wd (splice d (4 * j) (le_bytes 4 v)) i = if decide (i = j) then v else wd d i.
Proof.
  intros Hi Hj Hl Hv. assert (Hb : alen (le_bytes 4 v) = 4) by (unfold alen; by rewrite le_bytes_length).
  unfold wd. case_decide as Hij.
  - subst. rewrite <- Hb at 2. rewrite slice_splice_eq by lia. rewrite of_le_bytes.
    apply Z.mod_small. done.
  - rewrite slice_splice_ne by lia. done.
Qed.
End words.
