(* ===== verification/Journal.v ===== *)
(** * Crash safety of the log

    What [commit] and [recover_from_log] promise when the machine stops between
    any two disk writes.  The content of the file system on a disk is its
    blocks with the committed log replayed ([logical]); every prefix of the
    writes of a commit leaves the old content or the new one, and every prefix
    of the writes of a recovery leaves the content unchanged. *)

From S2P Require Import Prelude State Spinlock CString Kalloc Console Vm Message Container Proc Syscall.
From S2P Require Import Sleeplock Bio Cache Blocks Log Words.
Open Scope Z_scope.

(** ** Disks *)

Section disks.
Implicit Types (d : list (list Z)) (h : list Z) (l : list Z) (n m s sz : Z) (w : Z * list Z) (ws : list (Z * list Z)).

Definition at_ d n : list Z := default [] (aget d n).
Definition store d w : list (list Z) := <[Z.to_nat w.1 := w.2]> d.
Definition stores d ws : list (list Z) := foldl store d ws.

(** The block numbers in a header block. *)
Definition entries h : list Z := (fun j => i32 (wd h (j + 1))) <$> seqZ 0 (i32 (wd h 0)).

(** The content of block [n]: its copy in the log, if the header names it. *)
Definition replay d s l n : list Z :=
  match list_find (n =.) l with
  | Some (j, _) => at_ d (s + Z.of_nat j + 1)
  | None => at_ d n
  end.
Definition logical d s n : list Z := replay d s (entries (at_ d s)) n.

(** The log area: the header and [sz - 1] blocks. *)
Definition area s sz n : Prop := s <= n < s + sz.

(** A list of blocks that can be logged. *)
Record loggable s sz (D : Z) l : Prop := {
  lo_nodup : NoDup l;
  lo_home : forall m, m ∈ l -> 0 <= m < D /\ ~ area s sz m;
  lo_len : alen l < sz;
  lo_max : alen l <= LOGSIZE;
  lo_start : 0 <= s;
  lo_end : s + sz <= D;
  lo_size : D <= 2 ^ 31 }.

(** A disk a machine can boot from. *)
Record bootable s sz d : Prop := {
  bo_log : loggable s sz (alen d) (entries (at_ d s));
  bo_n : alen (entries (at_ d s)) = i32 (wd (at_ d s) 0);
  bo_blocks : Forall (fun b => alen b = BSIZE) d }.

Lemma at_store d n m x : 0 <= m < alen d -> at_ (store d (m, x)) n = if n =? m then x else at_ d n.
Proof.
  intros Hm. unfold at_, store. cbn [fst snd]. rewrite aget_insert by done.
  destruct (Z.eqb_spec n m) as [->|]; [by rewrite decide_True|]. by rewrite decide_False.
Qed.

Lemma store_length d w : alen (store d w) = alen d.
Proof. unfold alen, store. by rewrite length_insert. Qed.

Lemma stores_app d ws ws' : stores d (ws ++ ws') = stores (stores d ws) ws'.
Proof. apply foldl_app. Qed.

Lemma stores_snoc d ws w : stores d (ws ++ [w]) = store (stores d ws) w.
Proof. by rewrite stores_app. Qed.

Lemma stores_length d ws : alen (stores d ws) = alen d.
Proof.
  revert d. induction ws as [|w ws IH]; intros d; [done|]. unfold stores in *. simpl.
  by rewrite IH, store_length.
Qed.

Lemma at_stores_ne d ws n : (forall w, w ∈ ws -> 0 <= w.1 < alen d /\ w.1 <> n) -> at_ (stores d ws) n = at_ d n.
Proof.
  revert d. induction ws as [|[m x] ws IH]; intros d Hws; [done|]. unfold stores in *. simpl.
  destruct (Hws (m, x)) as [Hm Hne]; [set_solver|]. simpl in *.
  rewrite IH, at_store by (done || intros w Hw; rewrite ?store_length; apply Hws; set_solver).
  destruct (Z.eqb_spec n m); [congruence|done].
Qed.

Lemma stores_blocks d ws :
  Forall (fun b => alen b = BSIZE) d -> (forall w, w ∈ ws -> alen w.2 = BSIZE) ->
  Forall (fun b => alen b = BSIZE) (stores d ws).
Proof.
  revert d. induction ws as [|w ws IH]; intros d Hd Hws; [done|]. unfold stores in *. simpl.
  apply IH; [|intros; apply Hws; set_solver]. apply Forall_insert; [done|apply Hws; set_solver].
Qed.

(** ** The header block *)

Fixpoint fill h (j : Z) l : list Z :=
  match l with [] => h | m :: l' => fill (splice h (4 * (j + 1)) (le_bytes 4 (u32 m))) (j + 1) l' end.
Definition put_hdr h l : list Z := fill (splice h 0 (le_bytes 4 (u32 (alen l)))) 0 l.

Lemma le4 v : alen (le_bytes 4 v) = 4.
Proof. unfold alen. by rewrite le_bytes_length. Qed.

Lemma fill_length h j l : 0 <= j -> 4 * (j + 1 + alen l) <= alen h -> alen (fill h j l) = alen h.
Proof.
  revert h j. induction l as [|m l IH]; intros h j Hj Hl; [done|]. cbn [fill]. rewrite alen_cons in Hl.
  pose proof (alen_nonneg l).
  rewrite IH, splice_length by (rewrite ?splice_length; rewrite ?le4; lia). done.
Qed.

Lemma u32_range v : 0 <= u32 v < 2 ^ 32.
Proof. apply Z.mod_pos_bound. done. Qed.

Lemma fill_below h j l i :
  0 <= i <= j -> 4 * (j + 1 + alen l) <= alen h -> wd (fill h j l) i = wd h i.
Proof.
  revert h j. induction l as [|m l IH]; intros h j Hi Hl; [done|]. cbn [fill]. rewrite alen_cons in Hl.
  pose proof (alen_nonneg l).
  rewrite IH by (rewrite ?splice_length; rewrite ?le4; lia).
  rewrite wd_splice by (apply u32_range || lia). rewrite decide_False by lia. done.
Qed.

Lemma fill_wd h j l (x : nat) m :
  0 <= j -> 4 * (j + 1 + alen l) <= alen h -> l !! x = Some m ->
  wd (fill h j l) (j + Z.of_nat x + 1) = u32 m.
Proof.
  revert h j x. induction l as [|m' l IH]; intros h j x Hj Hl Hx; [done|]. cbn [fill]. rewrite alen_cons in Hl.
  pose proof (alen_nonneg l).
  destruct x as [|x].
  - injection Hx as ->. rewrite fill_below by (rewrite ?splice_length; rewrite ?le4; lia).
    rewrite wd_splice by (apply u32_range || lia). rewrite decide_True by lia. done.
  - simpl in Hx. replace (j + Z.of_nat (S x) + 1) with (j + 1 + Z.of_nat x + 1) by lia.
    apply IH; [lia|rewrite splice_length; rewrite ?le4; lia|done].
Qed.

Lemma i32_u32 v : 0 <= v < 2 ^ 31 -> i32 (u32 v) = v.
Proof.
  intros Hv. unfold i32, u32. rewrite Z.mod_mod by lia. rewrite (Z.mod_small v) by lia.
  destruct (Z.ltb_spec v (2 ^ 31)); lia.
Qed.

Lemma hdr_room h l :
  alen h = BSIZE -> alen l <= LOGSIZE -> 4 * (0 + 1 + alen l) <= alen (splice h 0 (le_bytes 4 (u32 (alen l)))).
Proof.
  unfold BSIZE, LOGSIZE, MAXOPBLOCKS. intros Hh Hl. rewrite splice_length; rewrite ?le4; lia.
Qed.

Lemma put_hdr_n h l : alen h = BSIZE -> alen l <= LOGSIZE -> i32 (wd (put_hdr h l) 0) = alen l.
Proof.
  intros Hh Hl. unfold put_hdr. rewrite fill_below by (done || by apply hdr_room).
  unfold BSIZE, LOGSIZE, MAXOPBLOCKS in *. pose proof (alen_nonneg l).
  transitivity (i32 (u32 (alen l))); [|apply i32_u32; lia]. f_equal.
  etrans; [apply (wd_splice h 0 0); (apply u32_range || lia)|done].
Qed.

Lemma entries_put_hdr h l :
  alen h = BSIZE -> alen l <= LOGSIZE -> (forall m, m ∈ l -> 0 <= m < 2 ^ 31) ->
  entries (put_hdr h l) = l.
Proof.
  intros Hh Hl Hm. unfold entries. rewrite put_hdr_n by done. apply list_eq. intros x. rewrite list_lookup_fmap.
  destruct (l !! x) as [m|] eqn:E.
  - pose proof (lookup_lt_Some _ _ _ E). rewrite lookup_seqZ_lt by (unfold alen; lia).
    cbn [fmap option_fmap option_map]. unfold put_hdr.
    rewrite (fill_wd _ 0 l x m) by (done || by apply hdr_room). f_equal. apply i32_u32, Hm.
    by eapply list_elem_of_lookup_2.
  - apply lookup_ge_None in E. by rewrite lookup_seqZ_ge by (unfold alen; lia).
Qed.

Lemma put_hdr_length h l : alen h = BSIZE -> alen l <= LOGSIZE -> alen (put_hdr h l) = BSIZE.
Proof.
  intros Hh Hl. unfold put_hdr, BSIZE, LOGSIZE, MAXOPBLOCKS in *.
  rewrite fill_length; rewrite ?splice_length; rewrite ?le4; unfold alen in *; lia.
Qed.

(** ** The writes of a commit *)

(** The changed blocks go to the log, the header names them, they go to their
    home locations, the header is cleared. *)
Definition log_writes s l (c : Z -> list Z) : list (Z * list Z) := imap (fun j m => (s + Z.of_nat j + 1, c m)) l.
Definition home_writes l (c : Z -> list Z) : list (Z * list Z) := (fun m => (m, c m)) <$> l.
Definition install_writes s h l c : list (Z * list Z) := home_writes l c ++ [(s, put_hdr h [])].
Definition commit_writes s h l c : list (Z * list Z) :=
  log_writes s l c ++ (s, put_hdr h l) :: install_writes s (put_hdr h l) l c.

Lemma at_stores_in d ws m x :
  NoDup ws.*1 -> (forall w, w ∈ ws -> 0 <= w.1 < alen d) -> (m, x) ∈ ws -> at_ (stores d ws) m = x.
Proof.
  revert d. induction ws as [|[n y] ws IH]; intros d Hnd Hr Hin; [set_solver|].
  cbn [fmap list_fmap fst] in Hnd. apply NoDup_cons in Hnd as [Hn Hnd]. unfold stores in *. cbn [foldl].
  apply elem_of_cons in Hin as [[= <- <-]|Hin].
  - fold (stores (store d (m, x)) ws). rewrite at_stores_ne, at_store, Z.eqb_refl; [done|apply (Hr (m, x)); set_solver|].
    intros w Hw. rewrite store_length. split; [apply Hr; set_solver|]. intros <-. apply Hn.
    by apply (list_elem_of_fmap_2 fst).
  - apply IH; [done|intros w Hw; rewrite store_length; apply Hr; set_solver|done].
Qed.

Lemma home_writes_fst l c : (home_writes l c).*1 = l.
Proof. unfold home_writes. rewrite <- list_fmap_compose. apply list_fmap_id. Qed.

Lemma log_writes_elem s l c w :
  w ∈ log_writes s l c -> exists j m, l !! j = Some m /\ w = (s + Z.of_nat j + 1, c m).
Proof. intros (j & m & -> & Hj)%elem_of_lookup_imap. eauto. Qed.

Lemma log_writes_nodup s l c : NoDup (log_writes s l c).*1.
Proof.
  apply NoDup_alt. intros x y n. unfold log_writes. rewrite !list_lookup_fmap, !list_lookup_imap.
  destruct (l !! x); [|done]. destruct (l !! y); [|done]. simpl. intros [= H1] [= H2]. lia.
Qed.

Lemma prefix_app_cases {A} (p a b : list A) :
  p `prefix_of` a ++ b -> p `prefix_of` a \/ exists p', p = a ++ p' /\ p' `prefix_of` b.
Proof.
  revert p. induction a as [|x a IH]; intros p H; [right; by exists p|].
  destruct p as [|y p]; [left; apply prefix_nil|]. apply prefix_cons_inv_1 in H as E. subst.
  apply prefix_cons_inv_2, IH in H as [H|(p' & -> & H)]; [left; by apply prefix_cons|right; by exists p'].
Qed.

Lemma prefix_elem {A} (p a : list A) x : p `prefix_of` a -> x ∈ p -> x ∈ a.
Proof. intros [q ->]. set_solver. Qed.

(** A disk whose header names [l], with the contents [c] in the log. *)
Record committed s sz d l (c : Z -> list Z) : Prop := {
  cm_boot : bootable s sz d;
  cm_entries : entries (at_ d s) = l;
  cm_copy : forall (j : nat) m, l !! j = Some m -> at_ d (s + Z.of_nat j + 1) = c m }.

Lemma replay_spec s sz d l c n :
  committed s sz d l c -> logical d s n = if bool_decide (n ∈ l) then c n else at_ d n.
Proof.
  intros [_ <- Hc]. unfold logical, replay. set (l := entries _) in *.
  destruct (list_find (n =.) l) as [[j m]|] eqn:E.
  - apply list_find_Some in E as (E & <- & _). rewrite bool_decide_true by by eapply list_elem_of_lookup_2.
    by apply Hc.
  - apply list_find_None in E. rewrite bool_decide_false; [done|]. intros Hin.
    rewrite Forall_forall in E. by apply (E n Hin).
Qed.

Section install.
Variables (s sz : Z) (d : list (list Z)) (l : list Z) (c : Z -> list Z).
Hypotheses (Hc : committed s sz d l c) (Hlen : forall m, m ∈ l -> alen (c m) = BSIZE).

Lemma inst_loggable : loggable s sz (alen d) l.
Proof. destruct Hc as [[H _ _] <- _]. exact H. Qed.

Lemma inst_elem ws w : ws `prefix_of` home_writes l c -> w ∈ ws -> w.1 ∈ l /\ w.2 = c w.1.
Proof. intros Hp Hw. eapply prefix_elem in Hw; [|done]. apply list_elem_of_fmap in Hw as (m & -> & Hm). done. Qed.

Lemma inst_ne ws n : ws `prefix_of` home_writes l c -> n ∉ l -> at_ (stores d ws) n = at_ d n.
Proof.
  intros Hp Hn. apply at_stores_ne. intros w Hw. destruct (inst_elem _ _ Hp Hw) as [Hin _].
  split; [by apply inst_loggable|congruence].
Qed.

Lemma inst_area ws n : ws `prefix_of` home_writes l c -> area s sz n -> at_ (stores d ws) n = at_ d n.
Proof. intros Hp Ha. apply inst_ne; [done|]. intros Hin. by apply inst_loggable in Hin as [_ ?]. Qed.

Lemma inst_prefix ws : ws `prefix_of` home_writes l c -> committed s sz (stores d ws) l c.
Proof.
  intros Hp. pose proof inst_loggable as Hl. pose proof (alen_nonneg l). pose proof (lo_len _ _ _ _ Hl).
  assert (Hs : at_ (stores d ws) s = at_ d s) by (apply inst_area; [done|unfold area; lia]).
  destruct Hc as [[Hb1 Hb2 Hb3] He Hcp]. split.
  - split; rewrite ?Hs, ?stores_length; [done..|]. apply stores_blocks; [done|].
    intros w Hw. destruct (inst_elem _ _ Hp Hw) as [Hin ->]. by apply Hlen.
  - by rewrite Hs.
  - intros j m Hj. rewrite <- (Hcp j m Hj). apply inst_area; [done|].
    apply lookup_lt_Some in Hj. unfold area, alen in *. lia.
Qed.

(** The header cleared after the installation. *)
Lemma inst_done :
  let d' := stores d (install_writes s (at_ d s) l c) in
  committed s sz d' [] c /\ forall n, ~ area s sz n -> at_ d' n = if bool_decide (n ∈ l) then c n else at_ d n.
Proof.
  intros d'. pose proof inst_loggable as Hl. pose proof (alen_nonneg l). pose proof (lo_len _ _ _ _ Hl).
  pose proof (lo_start _ _ _ _ Hl). pose proof (lo_end _ _ _ _ Hl).
  pose proof (inst_prefix (home_writes l c) (reflexivity _)) as Hin1. set (d1 := stores d (home_writes l c)) in *.
  assert (Hd' : d' = store d1 (s, put_hdr (at_ d s) [])) by apply stores_snoc.
  assert (Hr : 0 <= s < alen d1) by (unfold d1; rewrite stores_length; lia).
  assert (Hh : alen (at_ d s) = BSIZE).
  { destruct (aget_is_Some d s ltac:(lia)) as [h E]. unfold at_. rewrite E. simpl.
    destruct Hc as [[_ _ Hf] _ _]. rewrite Forall_forall in Hf. apply Hf.
    unfold aget in E. destruct (0 <=? s); [|done]. by eapply list_elem_of_lookup_2. }
  assert (He : at_ d' s = put_hdr (at_ d s) []) by (by rewrite Hd', at_store, Z.eqb_refl).
  assert (Hz : alen (@nil Z) <= LOGSIZE) by done.
  assert (Hent : entries (at_ d' s) = []) by (rewrite He, entries_put_hdr; [done..|set_solver]).
  split.
  - split; [|done|done]. destruct Hin1 as [[_ _ Hf] _ _]. split; rewrite ?Hent.
    + rewrite Hd', store_length. unfold d1. rewrite stores_length. destruct Hl.
      split; try done; [apply NoDup_nil_2|set_solver|unfold alen; simpl; lia].
    + by rewrite He, put_hdr_n.
    + rewrite Hd'. apply Forall_insert; [done|]. by apply put_hdr_length.
  - intros n Hn. rewrite Hd', at_store by done. destruct (Z.eqb_spec n s) as [->|]; [unfold area in Hn; lia|].
    case_bool_decide as Hin; [|by apply inst_ne]. apply at_stores_in.
    + rewrite home_writes_fst. apply Hl.
    + intros w Hw. destruct (inst_elem _ w (reflexivity _) Hw) as [Hi _]. by apply Hl.
    + by apply (list_elem_of_fmap_2 (fun m => (m, c m))).
Qed.

(** Installing never changes the content of the disk, nor does clearing the
    header afterwards. *)
Lemma install_prefix ws : ws `prefix_of` install_writes s (at_ d s) l c ->
  bootable s sz (stores d ws) /\
  forall n, ~ area s sz n -> logical (stores d ws) s n = if bool_decide (n ∈ l) then c n else at_ d n.
Proof.
  assert (Hhome : forall ws, ws `prefix_of` home_writes l c -> bootable s sz (stores d ws) /\
    forall n, ~ area s sz n -> logical (stores d ws) s n = if bool_decide (n ∈ l) then c n else at_ d n).
  { intros ws' Hp. pose proof (inst_prefix _ Hp) as Hc'. split; [apply Hc'|]. intros n Hn.
    rewrite (replay_spec _ _ _ _ _ _ Hc'). case_bool_decide; [done|by apply inst_ne]. }
  intros [Hp|(ws' & -> & Hp)]%prefix_app_cases; [by apply Hhome|].
  destruct ws' as [|w ws']; [rewrite app_nil_r; by apply Hhome|].
  pose proof (prefix_cons_inv_1 _ _ _ _ Hp) as ->. apply prefix_cons_inv_2, prefix_nil_inv in Hp as ->.
  destruct inst_done as [Hc' Hn']. split; [apply Hc'|]. intros n Hn. rewrite (replay_spec _ _ _ _ _ _ Hc').
  rewrite bool_decide_false by set_solver. by apply Hn'.
Qed.
End install.

Section logging.
Variables (s sz : Z) (d : list (list Z)) (l : list Z) (c : Z -> list Z).
Hypotheses (Hb : bootable s sz d) (He : entries (at_ d s) = []) (Hl : loggable s sz (alen d) l)
  (Hlen : forall m, m ∈ l -> alen (c m) = BSIZE).

Lemma log_elem ws w : ws `prefix_of` log_writes s l c -> w ∈ ws ->
  s < w.1 < s + sz /\ 0 <= w.1 < alen d /\ alen w.2 = BSIZE.
Proof.
  intros Hp Hw. eapply prefix_elem in Hw; [|done]. apply log_writes_elem in Hw as (j & m & Hj & ->). cbn [fst snd].
  pose proof (lookup_lt_Some _ _ _ Hj). destruct Hl. unfold alen in *.
  split_and!; try lia. apply Hlen. by eapply list_elem_of_lookup_2.
Qed.

Lemma log_ne ws n : ws `prefix_of` log_writes s l c -> n <= s \/ s + sz <= n -> at_ (stores d ws) n = at_ d n.
Proof.
  intros Hp Hn. apply at_stores_ne. intros w Hw. destruct (log_elem _ _ Hp Hw) as (? & ? & _). lia.
Qed.

Lemma log_blocks ws : ws `prefix_of` log_writes s l c -> Forall (fun b => alen b = BSIZE) (stores d ws).
Proof. intros Hp. apply stores_blocks; [apply Hb|]. intros w Hw. by destruct (log_elem _ _ Hp Hw) as (_ & _ & ?). Qed.

(** Until the header is written the content is the old one. *)
Lemma log_prefix ws : ws `prefix_of` log_writes s l c ->
  bootable s sz (stores d ws) /\ forall n, ~ area s sz n -> logical (stores d ws) s n = at_ d n.
Proof.
  intros Hp. assert (Hs : at_ (stores d ws) s = at_ d s) by (apply log_ne; [done|lia]).
  destruct Hb as [Hb1 Hb2 _]. split.
  - split; rewrite ?Hs, ?stores_length; [done..|by apply log_blocks].
  - intros n Hn. unfold logical. rewrite Hs, He. apply log_ne; [done|unfold area in Hn; lia].
Qed.

Lemma hdr_block : alen (at_ d s) = BSIZE.
Proof.
  destruct Hl, Hb as [_ _ Hf]. pose proof (alen_nonneg l). destruct (aget_is_Some d s ltac:(lia)) as [h E].
  unfold at_. rewrite E. simpl. rewrite Forall_forall in Hf. apply Hf.
  unfold aget in E. destruct (0 <=? s); [|done]. by eapply list_elem_of_lookup_2.
Qed.

(** Writing the header commits. *)
Lemma log_committed :
  let d' := store (stores d (log_writes s l c)) (s, put_hdr (at_ d s) l) in
  committed s sz d' l c /\ at_ d' s = put_hdr (at_ d s) l /\ forall n, ~ area s sz n -> at_ d' n = at_ d n.
Proof.
  intros d'. pose proof (alen_nonneg l). pose proof Hl as [Hnd Hhome Hlen' Hmax Hs0 Hend Hsz].
  assert (Hr : 0 <= s < alen (stores d (log_writes s l c))) by (rewrite stores_length; lia).
  assert (Hat : at_ d' s = put_hdr (at_ d s) l) by (unfold d'; by rewrite at_store, Z.eqb_refl).
  pose proof hdr_block as Hh.
  assert (Hent : entries (at_ d' s) = l).
  { rewrite Hat. apply entries_put_hdr; [done..|]. intros m Hm. destruct (Hhome m Hm). lia. }
  split_and!; [split|done|].
  - split; rewrite ?Hent.
    + unfold d'. by rewrite store_length, stores_length.
    + by rewrite Hat, put_hdr_n.
    + apply Forall_insert; [by apply log_blocks|by apply put_hdr_length].
  - done.
  - intros j m Hj. unfold d'. rewrite at_store by done. pose proof (lookup_lt_Some _ _ _ Hj).
    destruct (Z.eqb_spec (s + Z.of_nat j + 1) s); [lia|]. apply at_stores_in; [apply log_writes_nodup| |].
    + intros w Hw. by destruct (log_elem _ w (reflexivity _) Hw) as (_ & ? & _).
    + apply elem_of_lookup_imap. eauto.
  - intros n Hn. unfold d'. rewrite at_store by done. unfold area in Hn.
    destruct (Z.eqb_spec n s) as [->|]; [lia|]. apply log_ne; [done|lia].
Qed.

(** Whatever writes of the commit reach the disk, its content is the old one
    or the new one. *)
Lemma commit_prefix ws : ws `prefix_of` commit_writes s (at_ d s) l c ->
  bootable s sz (stores d ws) /\
  ((forall n, ~ area s sz n -> logical (stores d ws) s n = at_ d n) \/
   (forall n, ~ area s sz n -> logical (stores d ws) s n = if bool_decide (n ∈ l) then c n else at_ d n)).
Proof.
  intros Hp. apply prefix_app_cases in Hp as [Hp|(ws' & -> & Hp)].
  { destruct (log_prefix _ Hp) as [H1 H2]. split; [done|by left]. }
  destruct ws' as [|w ws'].
  { rewrite app_nil_r. destruct (log_prefix _ (reflexivity _)) as [H1 H2]. split; [done|by left]. }
  pose proof (prefix_cons_inv_1 _ _ _ _ Hp) as ->. apply prefix_cons_inv_2 in Hp.
  rewrite cons_middle, app_assoc, stores_app, stores_snoc.
  destruct log_committed as (Hc & Hs & Hne). set (d' := store _ _) in *.
  rewrite <- Hs in Hp. destruct (install_prefix _ _ _ _ _ Hc Hlen _ Hp) as [H1 H2]. split; [done|]. right.
  intros n Hn. rewrite H2 by done. case_bool_decide; [done|by apply Hne].
Qed.
End logging.
End disks.
