(* ===== verification/Commit.v ===== *)
(** * Commit and recovery

    The code of [log.c] performs the writes of [Journal.v], in that order, and
    leaves the buffer cache idle. *)

From S2P Require Import Prelude State Spinlock CString Kalloc Console Vm Message Container Proc Syscall.
From S2P Require Import Sleeplock Bio Cache Blocks Log Words Journal.
Open Scope Z_scope.
#[local] Opaque where_.

Lemma in_two (a b : Z) : b ∈ [a; b].
Proof. set_solver. Qed.
Lemma notin_one (a b : Z) : a <> b -> a ∉ [b].
Proof. set_solver. Qed.

Section idle.
Implicit Types (k : kernel) (b n m pid : Z) (hs : list Z).

Lemma dirty_flags k pid b : cache_ok k pid -> 0 <= b < NBUF -> b_flags (bf k b) = DIRTY ->
  dirty k (b_blockno (bf k b)).
Proof.
  intros Hc Hb Hf. exists b. split; [|done]. eapply where_is; [done..|]. apply holds_spec. split; [|done].
  apply (bi_home _ _ _ (co_inv _ _ Hc b Hb)). by rewrite Hf.
Qed.

(** When no buffer is in use, a block that is not dirty is on the disk. *)
Lemma idle_clean k pid n : holding k pid [] -> ~ dirty k n -> blk k n = at_ (k_disk k) n.
Proof.
  intros [Hc Hr] Hn. unfold blk. destruct (where_ k n) as [b|] eqn:E; [|done].
  pose proof (where_Some _ _ _ E) as [Hb [Hd Hno]%holds_spec].
  destruct (co_inv _ _ Hc b Hb) as [_ Hf Hh _ Hu]. specialize (Hr b Hb). rewrite bool_decide_false in Hr by set_solver.
  destruct Hu as [(_ & _ & Hv)|(H1 & _)]; [|lia]. rewrite Hv, Hno; [done|].
  destruct Hf as [Hf|[Hf|Hf]]; [by apply Hh in Hd|done|]. destruct Hn. by exists b.
Qed.

(** Fewer dirty blocks than buffers leave a buffer to evict. *)
Lemma some_clean k pid l :
  cache_ok k pid -> (forall m, dirty k m -> m ∈ l) -> alen l < NBUF ->
  exists b, 0 <= b < NBUF /\ b_flags (bf k b) <> DIRTY.
Proof.
  intros Hc Hd Hl.
  destruct (decide (Exists (fun b => b_flags (bf k b) <> DIRTY) (seqZ 0 NBUF))) as [(b & Hb & Hf)%Exists_exists|He].
  { exists b. apply elem_of_seqZ in Hb. split; [lia|done]. }
  exfalso. assert (Hall : forall b, 0 <= b < NBUF -> b_flags (bf k b) = DIRTY).
  { intros b Hb. destruct (decide (b_flags (bf k b) = DIRTY)); [done|]. destruct He. apply Exists_exists.
    exists b. split; [apply elem_of_seqZ; lia|done]. }
  assert (Hsub : (b_blockno ∘ bf k) <$> seqZ 0 NBUF ⊆+ l).
  { apply NoDup_submseteq.
    - apply NoDup_fmap_2_strong; [|apply NoDup_seqZ]. intros b c Hb%elem_of_seqZ Hc'%elem_of_seqZ Heq.
      destruct (dirty_flags k pid b Hc) as (b' & Hb' & _); [lia|apply Hall; lia|].
      destruct (dirty_flags k pid c Hc) as (c' & Hc'' & _); [lia|apply Hall; lia|].
      assert (forall x, 0 <= x < NBUF -> holds k (b_blockno (bf k x)) x = true) as Hh.
      { intros x Hx. apply holds_spec. split; [|done]. apply (bi_home _ _ _ (co_inv _ _ Hc x Hx)). by rewrite Hall. }
      apply (co_uniq _ _ Hc b c (b_blockno (bf k b))); [lia..|apply Hh; lia|].
      simpl in Heq. rewrite Heq. apply Hh. lia.
    - intros m (b & -> & Hb%elem_of_seqZ)%list_elem_of_fmap. apply Hd, (dirty_flags k pid); [done|lia|apply Hall; lia]. }
  apply submseteq_length in Hsub. rewrite length_fmap, length_seqZ in Hsub. unfold alen in Hl. lia.
Qed.

Lemma room_few k pid l n :
  holding k pid [] -> (forall m, dirty k m -> m ∈ l) -> alen l < NBUF -> room k [] n.
Proof.
  intros [Hc _] Hd Hl. unfold room. destruct (where_ k n); [set_solver|].
  destruct (some_clean k pid l) as (b & Hb & Hf); [done..|]. exists b. split_and!; [lia|lia|set_solver|done].
Qed.

Lemma holding_perm k pid hs hs' : hs ≡ₚ hs' -> holding k pid hs -> holding k pid hs'.
Proof.
  intros Hp [Hc Hr]. split; [done|]. intros c Hcr. rewrite Hr by done.
  erewrite bool_decide_ext; [done|]. by rewrite Hp.
Qed.
End idle.

(** ** Copying a block *)

(** [k'] is [k] with block [src] copied to block [dst] on the disk. *)
Record copied (k : kernel) (src dst : Z) (k' : kernel) : Prop := {
  cp_step : bstep k k';
  cp_blk : forall m, blk k' m = if m =? dst then blk k src else blk k m;
  cp_dirty : forall m, dirty k' m <-> m <> dst /\ dirty k m;
  cp_disk : k_disk k' = store (k_disk k) (dst, blk k src);
  cp_trace : k_dtrace k' = k_dtrace k ++ [(dst, blk k src)] }.

Section copy.
Context {fuel : Fuel} {disk : BlockDev} {laws : DiskLaws disk}.
Implicit Types (k : kernel) (a b n m src dst : Z).

Definition copy_code (a b : Z) : K unit :=
  l ← buf_at a;
  buf_set b (fun x => x <| b_data := b_data l |>) ;;;
  bwrite b ;;;
  brelse a ;;;
  brelse b.

(** Two blocks in hand. *)
Record two k (pid n1 b1 n2 b2 : Z) k' : Prop := {
  tw_step : bstep k k';
  tw_hold : holding k' pid [b2; b1];
  tw_ne : b1 <> b2;
  tw_1 : where_ k' n1 = Some b1;
  tw_2 : where_ k' n2 = Some b2;
  tw_blk : forall m, blk k' m = blk k m;
  tw_dirty : forall m, dirty k' m <-> dirty k m;
  tw_disk : k_disk k' = k_disk k;
  tw_trace : k_dtrace k' = k_dtrace k }.

Lemma fsctx_ok k i p : fsctx k i p -> mach_ok (k_mach k).
Proof. intros H. apply H. Qed.

Lemma two_breads k i p n1 n2 :
  (0 < wakeups)%nat -> fsctx k i p -> holding k (p_pid p) [] ->
  0 <= n1 < alen (k_disk k) -> 0 <= n2 < alen (k_disk k) -> n1 <> n2 ->
  room k [] n1 -> dirty k n2 \/ (forall m, ~ dirty k m) ->
  exists b1 b2 k1 k2, bread 1 n1 k = Ret b1 k1 /\ bstep k k1 /\ bread 1 n2 k1 = Ret b2 k2 /\
    two k (p_pid p) n1 b1 n2 b2 k2.
Proof.
  intros Hf Hctx Hh H1 H2 Hne Hroom Hd.
  destruct (bread_view k i p [] n1) as (b1 & k1 & E1 & S1 & Hh1 & T1 & _); [done..|].
  pose proof (fsctx_bstep _ _ _ _ Hctx S1) as Hctx1.
  assert (Hnb : where_ k1 n2 <> Some b1).
  { intros E. apply where_Some in E as [_ [_ E]%holds_spec].
    pose proof (where_Some _ _ _ (tk_where _ _ _ _ T1)) as [_ [_ E']%holds_spec]. congruence. }
  assert (Hroom1 : room k1 [b1] n2).
  { unfold room. destruct (where_ k1 n2) as [c|] eqn:E; [set_solver|]. destruct Hd as [Hd|Hd].
    { apply (tk_dirty _ _ _ _ T1) in Hd as (c & ? & _). congruence. }
    assert (forall c, 0 <= c < NBUF -> b_flags (bf k1 c) <> DIRTY).
    { intros c Hc Hfl. apply (Hd (b_blockno (bf k1 c))), (tk_dirty _ _ _ _ T1). eapply dirty_flags; [apply Hh1|done..]. }
    unfold NBUF, MAXOPBLOCKS in *. destruct (decide (b1 = 0)) as [->|].
    - exists 1. split_and!; [lia|lia|set_solver|auto with lia].
    - exists 0. split_and!; [lia|lia|set_solver|auto with lia]. }
  destruct (bread_view k1 i p [b1] n2) as (b2 & k2 & E2 & S2 & Hh2 & T2 & Hnin);
    [done..|by rewrite (tk_disk _ _ _ _ T1)|done|].
  exists b1, b2, k1, k2. split_and!; [done..|]. split.
  - eapply bstep_trans; [by eapply fsctx_ok|done..].
  - done.
  - set_solver.
  - eapply taken_keeps; [done..|apply T1|set_solver].
  - apply T2.
  - intros m. by rewrite (tk_blk _ _ _ _ T2), (tk_blk _ _ _ _ T1).
  - intros m. by rewrite (tk_dirty _ _ _ _ T2), (tk_dirty _ _ _ _ T1).
  - by rewrite (tk_disk _ _ _ _ T2), (tk_disk _ _ _ _ T1).
  - by rewrite (tk_trace _ _ _ _ T2), (tk_trace _ _ _ _ T1).
Qed.

Lemma where_disk k pid hs n b : holding k pid hs -> where_ k n = Some b -> 0 <= n < alen (k_disk k).
Proof.
  intros [Hc _] Hw. apply where_Some in Hw as [Hb [Hd <-]%holds_spec]. by apply (co_inv _ _ Hc b Hb).
Qed.

Lemma copy_view k i p src a dst b :
  fsctx k i p -> holding k (p_pid p) [a; b] -> a <> b ->
  where_ k src = Some a -> where_ k dst = Some b -> (~ dirty k src -> blk k src = block k src) ->
  exists k', copy_code a b k = Ret tt k' /\ holding k' (p_pid p) [] /\ copied k src dst k'.
Proof.
  intros Hctx Hh Hab Ha Hb Hcl. assert (Hsd : src <> dst) by congruence.
  pose proof (where_disk _ _ _ _ _ Hh Ha) as Hsr. pose proof (where_disk _ _ _ _ _ Hh Hb) as Hdr.
  assert (Hda : b_data (bf k a) = blk k src) by (unfold blk; by rewrite Ha).
  pose proof (in_two a b) as Hbin. pose proof (notin_one a b Hab) as Hna. pose proof (not_elem_of_nil b) as Hnb.
  assert (Hbl : alen (blk k src) = BSIZE) by (eapply blk_length; [apply Hh|done]).
  destruct (data_view k (p_pid p) [a; b] dst b (blk k src) Hh Hb Hbin Hbl) as (k1 & E1 & S1 & Hh1 & W1 & _).
  pose proof (fsctx_bstep _ _ _ _ Hctx S1) as C1.
  destruct (bwrite_view k1 i p [a; b] dst b) as (k2 & E2 & S2 & Hh2 & W2); [done..|by rewrite (wt_where _ _ _ _ _ _ W1)|done|].
  pose proof (fsctx_bstep _ _ _ _ C1 S2) as C2.
  assert (Hb1 : blk k1 dst = blk k src) by (rewrite (wt_blk _ _ _ _ _ _ W1), Z.eqb_refl; done). rewrite Hb1 in W2.
  assert (Hd2 : k_disk k2 = store (k_disk k) (dst, blk k src)).
  { rewrite (wt_disk _ _ _ _ _ _ W2), (wt_disk _ _ _ _ _ _ W1). done. }
  assert (Hw2 : forall m, where_ k2 m = where_ k m).
  { intros m. by rewrite (wt_where _ _ _ _ _ _ W2), (wt_where _ _ _ _ _ _ W1). }
  assert (Hblk2 : forall m, blk k2 m = if m =? dst then blk k src else blk k m).
  { intros m. rewrite (wt_blk _ _ _ _ _ _ W2), (wt_blk _ _ _ _ _ _ W1). destruct (Z.eqb_spec m dst) as [->|]; [|done].
    cbn. unfold blk in Hb1. by rewrite (wt_where _ _ _ _ _ _ W1), Hb in Hb1. }
  assert (Hdt2 : forall m, dirty k2 m <-> m <> dst /\ dirty k m).
  { intros m. rewrite (wt_dirty _ _ _ _ _ _ W2). destruct (Z.eqb_spec m dst) as [->|]; [split; [done|by intros []]|].
    rewrite (wt_dirty _ _ _ _ _ _ W1). destruct (Z.eqb_spec m dst); [done|tauto]. }
  assert (Hat2 : forall m, block k2 m = if m =? dst then blk k src else block k m).
  { intros m. unfold block. rewrite Hd2. by apply at_store. }
  destruct (brelse_view k2 i p [b] src a) as (k3 & E3 & S3 & Hh3 & V3); [done..|by rewrite Hw2|done| |].
  { rewrite Hblk2, Hat2. destruct (Z.eqb_spec src dst); [done|]. intros Hnd. apply Hcl. intros ?. by apply Hnd, Hdt2. }
  pose proof (fsctx_bstep _ _ _ _ C2 S3) as C3.
  destruct (brelse_view k3 i p [] dst b) as (k4 & E4 & S4 & Hh4 & V4);
    [done..|by rewrite (sv_where _ _ V3), Hw2|done| |].
  { intros _. rewrite (sv_blk _ _ V3), Hblk2, Z.eqb_refl. unfold block. rewrite (sv_disk _ _ V3), Hd2.
    symmetry. etrans; [by apply at_store|]. by rewrite Z.eqb_refl. }
  pose proof (fsctx_ok _ _ _ Hctx) as Hok. exists k4. split_and!; [|done|].
  - unfold copy_code. run buf_at_ok; [|apply Hh|apply where_Some in Ha as [? _]; lia].
    fold (bf k a). rewrite Hda. run E1. run E2. run E3. exact E4.
  - split.
    + eauto using bstep_trans.
    + intros m. by rewrite (sv_blk _ _ V4), (sv_blk _ _ V3).
    + intros m. by rewrite (sv_dirty _ _ V4), (sv_dirty _ _ V3).
    + by rewrite (sv_disk _ _ V4), (sv_disk _ _ V3).
    + rewrite (sv_trace _ _ V4), (sv_trace _ _ V3), (wt_trace _ _ _ _ _ _ W2). by rewrite (wt_trace _ _ _ _ _ _ W1).
Qed.
End copy.

(** ** Loops over the log *)

(** The log in memory: on disk 1 from block [s], holding the block numbers [l]. *)
Record log_is (k : kernel) (s : Z) (l : list Z) : Prop := {
  li_dev : lg_dev (k_log k) = 1;
  li_start : lg_start (k_log k) = s;
  li_n : lh_n (k_log k) = alen l;
  li_blocks : take (length l) (lh_block (k_log k)) = l;
  li_len : alen (lh_block (k_log k)) = LOGSIZE }.

(** [k'] is [k] after copying the blocks of [cs], in that order. *)
Record ran (k : kernel) (pid : Z) (cs : list (Z * Z)) (k' : kernel) : Prop := {
  rn_step : bstep k k';
  rn_hold : holding k' pid [];
  rn_disk : k_disk k' = stores (k_disk k) ((fun c => (c.2, blk k c.1)) <$> cs);
  rn_trace : k_dtrace k' = k_dtrace k ++ ((fun c => (c.2, blk k c.1)) <$> cs);
  rn_blk : forall m, m ∉ cs.*2 -> blk k' m = blk k m;
  rn_dirty : forall m, dirty k' m <-> m ∉ cs.*2 /\ dirty k m }.

Section loops.
Context {fuel : Fuel} {disk : BlockDev} {laws : DiskLaws disk}.
Implicit Types (k : kernel) (s sz m : Z) (l : list Z).

Lemma over_log_ok (body : Z -> K unit) (I : nat -> kernel -> Prop) (n : nat) k :
  Z.of_nat n <= LOGSIZE -> I O k ->
  (forall j k1, I j k1 -> lh_n (k_log k1) = Z.of_nat n) ->
  (forall j k1, (j < n)%nat -> I j k1 -> exists k2, body (Z.of_nat j) k1 = Ret tt k2 /\ I (S j) k2) ->
  exists k', over_log body k = Ret tt k' /\ I n k'.
Proof.
  intros Hn H0 Hlh Hstep. unfold over_log.
  assert (Hfor : forall r (j : nat) k1, (j <= n < j + r)%nat -> I j k1 ->
    exists k', for_ r (Z.of_nat j) (fun tail => lg ← gets k_log;
      if tail <? lh_n lg then body tail ;;; mret None else mret (Some tt)) k1 = Ret (Some tt) k' /\ I n k').
  { induction r as [|r IH]; intros j k1 Hj HI; [lia|]. cbn [for_].
    destruct (Z.ltb_spec (Z.of_nat j) (Z.of_nat n)) as [Hlt|Hge].
    - destruct (Hstep j k1) as (k2 & E & HI2); [lia|done|].
      destruct (IH (S j) k2) as (k' & E' & HI'); [lia|done|]. exists k'. split; [|done].
      erewrite bind_Ret; [|mstep; rewrite (Hlh _ _ HI), (proj2 (Z.ltb_lt _ _) Hlt); run E; done].
      cbv beta iota. by replace (Z.of_nat j + 1) with (Z.of_nat (S j)) by lia.
    - assert (j = n) as -> by lia. exists k1. split; [|done].
      erewrite bind_Ret; [|mstep; rewrite (Hlh _ _ HI), Z.ltb_irrefl; reflexivity]. done. }
  destruct (Hfor (Z.to_nat LOGSIZE + 1)%nat O k) as (k' & E & HI'); [lia|done|].
  exists k'. split; [|done]. by run E.
Qed.

Lemma ran_nil k pid : holding k pid [] -> ran k pid [] k.
Proof.
  intros Hh. split; [apply bstep_refl|done|done|by rewrite app_nil_r|done|]. intros m. split; [|by intros []].
  split; [set_solver|done].
Qed.

Lemma ran_snoc k pid cs k1 src dst k2 :
  mach_ok (k_mach k) -> ran k pid cs k1 -> src ∉ cs.*2 -> copied k1 src dst k2 -> holding k2 pid [] ->
  ran k pid (cs ++ [(src, dst)]) k2.
Proof.
  intros Hok [S1 _ D1 T1 B1 Y1] Hsrc [S2 B2 Y2 D2 T2] Hh. rewrite (B1 src Hsrc) in *.
  split; rewrite ?fmap_app; cbn [fmap list_fmap fst snd].
  - by eapply bstep_trans.
  - done.
  - by rewrite stores_snoc, <- D1.
  - by rewrite app_assoc, <- T1.
  - intros m Hm. rewrite B2. destruct (Z.eqb_spec m dst) as [->|]; [set_solver|]. apply B1. set_solver.
  - intros m. rewrite Y2, Y1, elem_of_app, list_elem_of_singleton. tauto.
Qed.

Lemma bstep_log_is k k' s l : bstep k k' -> log_is k s l -> log_is k' s l.
Proof. intros Hb [? ? ? ? ?]. by split; rewrite (bstep_log _ _ Hb). Qed.

Lemma log_is_get k s l (j : nat) m : log_is k s l -> l !! j = Some m -> aget (lh_block (k_log k)) (Z.of_nat j) = Some m.
Proof.
  intros Hl Hj. rewrite aget_nat. rewrite <- (li_blocks _ _ _ Hl) in Hj. by apply lookup_take_Some in Hj as [? _].
Qed.

(** Both loops read the log block and the home block of entry [j]. *)
Definition log_pair (tail : Z) (go : Z -> Z -> K unit) : K unit :=
  lg ← gets k_log;
  b1 ← bread (lg_dev lg) (u32 (lg_start lg + tail + 1));
  lg ← gets k_log;
  n ← rd "log.lh.block" (lh_block lg) tail;
  b2 ← bread (lg_dev lg) (u32 n);
  go b1 b2.

Lemma write_one_pair tail : write_one tail = log_pair tail (fun to from => copy_code from to).
Proof. done. Qed.
Lemma install_one_pair tail : install_one tail = log_pair tail copy_code.
Proof. done. Qed.

Lemma log_pair_ok k i p s sz l dl (j : nat) m go :
  (0 < wakeups)%nat -> fsctx k i p -> holding k (p_pid p) [] -> log_is k s l -> l !! j = Some m ->
  loggable s sz (alen (k_disk k)) l -> (forall x, dirty k x -> x ∈ dl) -> alen dl < NBUF ->
  dirty k m \/ (forall x, ~ dirty k x) ->
  exists b1 b2 k2, log_pair (Z.of_nat j) go k = go b1 b2 k2 /\ two k (p_pid p) (s + Z.of_nat j + 1) b1 m b2 k2.
Proof.
  intros Hf Hctx Hh Hlog Hj Hl Hdl Hdn Hd.
  assert (Hm : m ∈ l) by by eapply list_elem_of_lookup_2. apply (lo_home _ _ _ _ Hl) in Hm as [Hmr Hna].
  pose proof (lookup_lt_Some _ _ _ Hj) as Hjl.
  pose proof (lo_len _ _ _ _ Hl) as H1. pose proof (lo_start _ _ _ _ Hl). pose proof (lo_end _ _ _ _ Hl).
  pose proof (lo_size _ _ _ _ Hl). unfold alen at 1 in H1.
  assert (Hr : 0 <= s + Z.of_nat j + 1 < s + sz) by lia.
  destruct (two_breads k i p (s + Z.of_nat j + 1) m) as (b1 & b2 & k1 & k2 & E1 & S1 & E2 & T);
    [done..|lia|done|unfold area in Hna; lia|by eapply room_few|done|].
  exists b1, b2, k2. split; [|done]. unfold log_pair. mstep.
  rewrite (li_dev _ _ _ Hlog), (li_start _ _ _ Hlog), u32_small by lia. run E1. mstep.
  pose proof (bstep_log_is _ _ _ _ S1 Hlog) as Hlog1. rewrite (li_dev _ _ _ Hlog1).
  run (rd_Some _ _ _ m); [|by eapply log_is_get]. rewrite u32_small by lia. by run E2.
Qed.

Lemma two_copied k pid n1 b1 n2 b2 k2 src dst k3 :
  mach_ok (k_mach k) -> two k pid n1 b1 n2 b2 k2 -> copied k2 src dst k3 -> copied k src dst k3.
Proof.
  intros Hok [S1 _ _ _ _ B1 Y1 D1 T1] [S2 B2 Y2 D2 T2]. split.
  - by eapply bstep_trans.
  - intros m. by rewrite B2, !B1.
  - intros m. by rewrite Y2, Y1.
  - by rewrite D2, D1, B1.
  - by rewrite T2, T1, B1.
Qed.

Lemma ran_disk_length k pid cs k' : ran k pid cs k' -> alen (k_disk k') = alen (k_disk k).
Proof. intros H. by rewrite (rn_disk _ _ _ _ H), stores_length. Qed.

(** The copies of [write_log], and those of [install_trans]. *)
Definition to_log s l : list (Z * Z) := imap (fun j m => (m, s + Z.of_nat j + 1)) l.
Definition from_log s l : list (Z * Z) := imap (fun j m => (s + Z.of_nat j + 1, m)) l.

Lemma to_log_2 s l j x : x ∈ (take j (to_log s l)).*2 -> exists y : nat, (y < length l)%nat /\ x = s + Z.of_nat y + 1.
Proof.
  intros ([a b] & -> & Hin)%list_elem_of_fmap. apply list_elem_of_lookup in Hin as [y Hy].
  apply lookup_take_Some in Hy as [Hy _]. unfold to_log in Hy. rewrite list_lookup_imap in Hy.
  destruct (l !! y) eqn:E; [|done]. injection Hy as <- <-. apply lookup_lt_Some in E. eauto.
Qed.

Lemma from_log_2 s l : (from_log s l).*2 = l.
Proof. unfold from_log. rewrite fmap_imap. etrans; [apply (imap_const id)|apply list_fmap_id]. Qed.

Lemma log_blocks_range s sz D l (y : nat) :
  loggable s sz D l -> (y < length l)%nat -> area s sz (s + Z.of_nat y + 1) /\ s + Z.of_nat y + 1 ∉ l.
Proof.
  intros Hl Hy. assert (Ha : area s sz (s + Z.of_nat y + 1)).
  { pose proof (lo_len _ _ _ _ Hl). unfold area, alen in *. lia. }
  split; [done|]. intros Hin. by apply (lo_home _ _ _ _ Hl) in Hin as [_ ?].
Qed.

Section phases.
Context (k : kernel) (i : nat) (p : proc) (s sz : Z) (l : list Z).
Hypotheses (Hf : (0 < wakeups)%nat) (Hctx : fsctx k i p) (Hh : holding k (p_pid p) [])
  (Hlog : log_is k s l) (Hl : loggable s sz (alen (k_disk k)) l).

Lemma ran_lh cs k1 : ran k (p_pid p) cs k1 -> lh_n (k_log k1) = Z.of_nat (length l).
Proof. intros R. rewrite (bstep_log _ _ (rn_step _ _ _ _ R)). apply Hlog. Qed.

Lemma ran_pair cs k1 dl (j : nat) m go :
  ran k (p_pid p) cs k1 -> l !! j = Some m -> (forall x, dirty k1 x -> x ∈ dl) -> alen dl < NBUF ->
  dirty k1 m \/ (forall x, ~ dirty k1 x) ->
  exists b1 b2 k2, log_pair (Z.of_nat j) go k1 = go b1 b2 k2 /\ two k1 (p_pid p) (s + Z.of_nat j + 1) b1 m b2 k2 /\
    fsctx k2 i p.
Proof.
  intros R Hj Hdl Hn Hd.
  destruct (log_pair_ok k1 i p s sz l dl j m go) as (b1 & b2 & k2 & E & T); try done.
  - eapply fsctx_bstep; [done|apply R].
  - apply R.
  - eapply bstep_log_is; [apply R|done].
  - by rewrite (ran_disk_length _ _ _ _ R).
  - exists b1, b2, k2. split_and!; [done..|]. eapply fsctx_bstep; [|apply T]. eapply fsctx_bstep; [done|apply R].
Qed.

Lemma write_log_ok : alen l < NBUF -> (forall m, dirty k m <-> m ∈ l) ->
  exists k', write_log k = Ret tt k' /\ ran k (p_pid p) (to_log s l) k'.
Proof.
  intros Hn Hd. assert (Hlen : length (to_log s l) = length l) by apply length_imap.
  destruct (over_log_ok write_one (fun j k1 => ran k (p_pid p) (take j (to_log s l)) k1) (length l) k) as (k' & E & R).
  - apply Hl.
  - by apply ran_nil.
  - intros j k1. apply ran_lh.
  - intros j k1 Hj R. destruct (lookup_lt_is_Some_2 l j Hj) as [m Hm].
    assert (Hml : m ∈ l) by by eapply list_elem_of_lookup_2.
    assert (Hno : m ∉ (take j (to_log s l)).*2).
    { intros (y & Hy & ->)%to_log_2. by apply (log_blocks_range _ _ _ _ y Hl) in Hy as [_ ?]. }
    assert (Hdm : dirty k1 m) by (apply (rn_dirty _ _ _ _ R); split; [done|by apply Hd]).
    destruct (ran_pair _ k1 l j m (fun to from => copy_code from to) R Hm) as (b1 & b2 & k2 & E & T & C2);
      [|done|by left|].
    { intros x [_ Hx]%(rn_dirty _ _ _ _ R). by apply Hd. }
    destruct (copy_view k2 i p m b2 (s + Z.of_nat j + 1) b1) as (k3 & E3 & Hh3 & C3);
      [done|apply T|intros <-; by apply (tw_ne _ _ _ _ _ _ _ T)|apply T|apply T|intros []; by apply T|].
    exists k3. split; [by rewrite write_one_pair, E|].
    assert (Hj' : to_log s l !! j = Some (m, s + Z.of_nat j + 1)) by (unfold to_log; by rewrite list_lookup_imap, Hm).
    rewrite (take_S_r _ _ _ Hj'). eapply ran_snoc; [by eapply fsctx_ok|done|done| |done].
    eapply (two_copied k1); [|done..]. eapply fsctx_ok, (fsctx_bstep k); [done|apply R].
  - exists k'. split; [done|]. by rewrite take_ge in R by lia.
Qed.

Lemma install_trans_ok : (alen l < NBUF /\ (forall m, dirty k m <-> m ∈ l)) \/ (forall m, ~ dirty k m) ->
  exists k', install_trans k = Ret tt k' /\ ran k (p_pid p) (from_log s l) k'.
Proof.
  intros Hd. assert (Hlen : length (from_log s l) = length l) by apply length_imap.
  destruct (over_log_ok install_one (fun j k1 => ran k (p_pid p) (take j (from_log s l)) k1) (length l) k) as (k' & E & R).
  - apply Hl.
  - by apply ran_nil.
  - intros j k1. apply ran_lh.
  - intros j k1 Hj R. destruct (lookup_lt_is_Some_2 l j Hj) as [m Hm].
    assert (Hml : m ∈ l) by by eapply list_elem_of_lookup_2.
    destruct (log_blocks_range _ _ _ _ j Hl Hj) as [_ Hsrc].
    assert (Hin : forall x, x ∈ (take j (from_log s l)).*2 -> x ∈ take j l).
    { intros x. by rewrite fmap_take, from_log_2. }
    assert (Hno : m ∉ (take j (from_log s l)).*2).
    { intros Hx%Hin. apply list_elem_of_lookup in Hx as [y [Hy Hyj]%lookup_take_Some].
      pose proof (NoDup_lookup _ _ _ _ (lo_nodup _ _ _ _ Hl) Hm Hy). lia. }
    assert (Hsn : ~ dirty k1 (s + Z.of_nat j + 1)).
    { intros [_ Hx]%(rn_dirty _ _ _ _ R). destruct Hd as [[_ Hd]|Hd]; [by apply Hsrc, Hd|by eapply Hd]. }
    assert (exists dl, (forall x, dirty k1 x -> x ∈ dl) /\ alen dl < NBUF) as (dl & Hdl & Hdn).
    { destruct Hd as [[Hn Hd]|Hd]; [exists l|exists []]; (split; [|done]); intros x [_ Hx]%(rn_dirty _ _ _ _ R).
      - by apply Hd.
      - by destruct (Hd x). }
    destruct (ran_pair _ k1 dl j m copy_code R Hm Hdl Hdn) as (b1 & b2 & k2 & E & T & C2).
    { destruct Hd as [[_ Hd]|Hd]; [left|right; intros x [_ Hx]%(rn_dirty _ _ _ _ R); by apply (Hd x)].
      apply (rn_dirty _ _ _ _ R). split; [done|by apply Hd]. }
    destruct (copy_view k2 i p (s + Z.of_nat j + 1) b1 m b2) as (k3 & E3 & Hh3 & C3);
      [done|eapply holding_perm, T; apply Permutation_swap|by eapply tw_ne|apply T|apply T| |].
    { intros _. rewrite (tw_blk _ _ _ _ _ _ _ T). unfold block. rewrite (tw_disk _ _ _ _ _ _ _ T).
      by apply (idle_clean _ (p_pid p)), Hsn; apply R. }
    exists k3. split; [by rewrite install_one_pair, E|].
    assert (Hj' : from_log s l !! j = Some (s + Z.of_nat j + 1, m)) by (unfold from_log; by rewrite list_lookup_imap, Hm).
    rewrite (take_S_r _ _ _ Hj'). eapply ran_snoc; [by eapply fsctx_ok|done| | |done].
    + intros Hx%Hin. by apply Hsrc, (subseteq_take j).
    + eapply (two_copied k1); [|done..]. eapply fsctx_ok, (fsctx_bstep k); [done|apply R].
  - exists k'. split; [done|]. by rewrite take_ge in R by lia.
Qed.
End phases.
End loops.

(** ** The header *)

(** [k'] is [k] with the cached content of block [n] changed to [d]. *)
Record poked (k : kernel) (n : Z) (d : list Z) (k' : kernel) : Prop := {
  pk_step : bstep k k';
  pk_where : forall m, where_ k' m = where_ k m;
  pk_blk : forall m, blk k' m = if m =? n then d else blk k m;
  pk_dirty : forall m, dirty k' m <-> dirty k m;
  pk_disk : k_disk k' = k_disk k;
  pk_trace : k_dtrace k' = k_dtrace k }.

Section header.
Context {fuel : Fuel} {disk : BlockDev} {laws : DiskLaws disk}.
Implicit Types (k : kernel) (s sz n m b pid : Z) (l hs : list Z).

Lemma poked_trans k1 n d2 k2 d3 k3 : mach_ok (k_mach k1) -> poked k1 n d2 k2 -> poked k2 n d3 k3 -> poked k1 n d3 k3.
Proof.
  intros Hok [S1 W1 B1 Y1 D1 T1] [S2 W2 B2 Y2 D2 T2]. split.
  - by eapply bstep_trans.
  - intros m. by rewrite W2.
  - intros m. rewrite B2, B1. by destruct (m =? n).
  - intros m. by rewrite Y2.
  - by rewrite D2.
  - by rewrite T2.
Qed.

Lemma put_word_ok k pid hs n b j v :
  holding k pid hs -> where_ k n = Some b -> b ∈ hs -> 0 <= j -> 4 * j + 4 <= BSIZE ->
  exists k', put_word b j v k = Ret tt k' /\ holding k' pid hs /\ poked k n (splice (blk k n) (4 * j) (le_bytes 4 v)) k'.
Proof.
  intros Hh Hw Hin Hj Hj4. pose proof (where_Some _ _ _ Hw) as [Hb _].
  assert (Hblk : blk k n = b_data (bf k b)) by (unfold blk; by rewrite Hw).
  assert (Hlen : alen (b_data (bf k b)) = BSIZE) by apply (co_inv _ _ (hd_cache _ _ _ Hh) b Hb).
  rewrite Hblk. set (d := splice _ _ _).
  assert (Hd : alen d = BSIZE) by (unfold d; rewrite splice_length; rewrite ?le4; lia).
  destruct (data_view k pid hs n b d Hh Hw Hin Hd) as (k' & E & S & Hh' & W & _). exists k'. split_and!; [|done|].
  - unfold put_word. run buf_at_ok; [|apply Hh|lia]. fold (bf k b).
    run put_bytes_ok; [|lia|rewrite le4; lia]. exact E.
  - split; [done|apply W|apply W| |apply W|apply W]. intros m. rewrite (wt_dirty _ _ _ _ _ _ W).
    destruct (Z.eqb_spec m n) as [->|]; [|done]. change (b_flags _) with (b_flags (bf k b)).
    split; [intros Hf; by exists b|intros (c & Hc & Hf); by simplify_eq].
Qed.

Lemma fill_snoc h j l m : fill h j (l ++ [m]) = splice (fill h j l) (4 * (j + alen l + 1)) (le_bytes 4 (u32 m)).
Proof.
  revert h j. induction l as [|x l IH]; intros h j.
  - cbn [app fill]. do 2 f_equal. unfold alen. simpl. lia.
  - cbn [app fill]. rewrite IH, alen_cons. do 2 f_equal. lia.
Qed.

(** The two ways the header block is read and written back. *)
Record headed (k : kernel) (pid s : Z) (h : list Z) (k' : kernel) : Prop := {
  hw_step : bstep k k';
  hw_hold : holding k' pid [];
  hw_disk : k_disk k' = store (k_disk k) (s, h);
  hw_trace : k_dtrace k' = k_dtrace k ++ [(s, h)];
  hw_blk : forall m, blk k' m = if m =? s then h else blk k m;
  hw_dirty : forall m, dirty k' m <-> m <> s /\ dirty k m }.

Lemma write_back k i p n b h k1 :
  fsctx k i p -> holding k (p_pid p) [b] -> where_ k n = Some b -> poked k n h k1 -> holding k1 (p_pid p) [b] ->
  exists k', (bwrite b ;;; brelse b) k1 = Ret tt k' /\ headed k (p_pid p) n h k'.
Proof.
  intros Hctx Hh Hw P Hh1. pose proof (fsctx_bstep _ _ _ _ Hctx (pk_step _ _ _ _ P)) as C1.
  assert (Hw1 : where_ k1 n = Some b) by by rewrite (pk_where _ _ _ _ P).
  assert (Hb1 : blk k1 n = h) by (by rewrite (pk_blk _ _ _ _ P), Z.eqb_refl).
  assert (Hin : b ∈ [b]) by by left.
  destruct (bwrite_view k1 i p [b] n b C1 Hh1 Hw1 Hin) as (k2 & E2 & S2 & Hh2 & W2). rewrite Hb1 in W2.
  pose proof (fsctx_bstep _ _ _ _ C1 S2) as C2. pose proof (where_disk _ _ _ _ _ Hh Hw) as Hr.
  assert (Hblk2 : forall m, blk k2 m = if m =? n then h else blk k m).
  { intros m. rewrite (wt_blk _ _ _ _ _ _ W2). destruct (Z.eqb_spec m n) as [->|Hne].
    - change (b_data (bf k1 b) = h). unfold blk in Hb1. by rewrite Hw1 in Hb1.
    - rewrite (pk_blk _ _ _ _ P). by destruct (Z.eqb_spec m n). }
  assert (Hd2 : k_disk k2 = store (k_disk k) (n, h)) by (rewrite (wt_disk _ _ _ _ _ _ W2); by rewrite (pk_disk _ _ _ _ P)).
  destruct (brelse_view k2 i p [] n b) as (k3 & E3 & S3 & Hh3 & V3);
    [done..|by rewrite (wt_where _ _ _ _ _ _ W2)|apply not_elem_of_nil| |].
  { intros _. rewrite Hblk2, Z.eqb_refl. unfold block. rewrite Hd2. symmetry.
    etrans; [by apply at_store|by rewrite Z.eqb_refl]. }
  pose proof (fsctx_ok _ _ _ Hctx) as Hok. exists k3. split; [by run E2|]. split; [|done|..].
  - eauto using bstep_trans, pk_step.
  - by rewrite (sv_disk _ _ V3).
  - rewrite (sv_trace _ _ V3), (wt_trace _ _ _ _ _ _ W2). by rewrite (pk_trace _ _ _ _ P).
  - intros m. by rewrite (sv_blk _ _ V3).
  - intros m. rewrite (sv_dirty _ _ V3), (wt_dirty _ _ _ _ _ _ W2).
    destruct (Z.eqb_spec m n) as [->|]; [split; [done|by intros []]|]. rewrite (pk_dirty _ _ _ _ P). tauto.
Qed.

Lemma header_bread k i p s sz l dl :
  (0 < wakeups)%nat -> fsctx k i p -> holding k (p_pid p) [] -> loggable s sz (alen (k_disk k)) l ->
  lg_dev (k_log k) = 1 -> lg_start (k_log k) = s ->
  (forall x, dirty k x -> x ∈ dl) -> alen dl < NBUF ->
  exists b k', bread (lg_dev (k_log k)) (u32 (lg_start (k_log k))) k = Ret b k' /\ bstep k k' /\
    holding k' (p_pid p) [b] /\ taken k s b k' /\ fsctx k' i p.
Proof.
  intros Hf Hctx Hh Hl Hdev Hst Hdl Hdn. pose proof (alen_nonneg l). pose proof (lo_len _ _ _ _ Hl).
  pose proof (lo_start _ _ _ _ Hl). pose proof (lo_end _ _ _ _ Hl). pose proof (lo_size _ _ _ _ Hl).
  rewrite Hdev, Hst, u32_small by lia.
  destruct (bread_view k i p [] s) as (b & k' & E & S & Hh' & T & _); [done..|lia|by eapply room_few|].
  exists b, k'. split_and!; try done. by eapply fsctx_bstep.
Qed.

Lemma write_head_ok k i p s sz l dl :
  (0 < wakeups)%nat -> fsctx k i p -> holding k (p_pid p) [] -> log_is k s l -> loggable s sz (alen (k_disk k)) l ->
  (forall x, dirty k x -> x ∈ dl) -> alen dl < NBUF -> ~ dirty k s ->
  exists k', write_head k = Ret tt k' /\ headed k (p_pid p) s (put_hdr (at_ (k_disk k) s) l) k'.
Proof.
  intros Hf Hctx Hh Hlog Hl Hdl Hdn Hcl. set (h := at_ (k_disk k) s).
  destruct (header_bread k i p s sz l dl) as (b & k1 & E1 & S1 & Hh1 & T1 & C1); try done;
    [apply Hlog|apply Hlog|].
  pose proof (bstep_log_is _ _ _ _ S1 Hlog) as Hlog1. pose proof (tk_where _ _ _ _ T1) as Hw1.
  assert (Hin : b ∈ [b]) by by left.
  assert (Hbh : blk k1 s = h) by (rewrite (tk_blk _ _ _ _ T1); by eapply idle_clean).
  assert (Hhl : alen h = BSIZE) by (rewrite <- Hbh; eapply blk_length; [apply Hh1|by eapply where_disk]).
  pose proof (lo_max _ _ _ _ Hl) as Hmax. unfold BSIZE, LOGSIZE, MAXOPBLOCKS in *.
  destruct (put_word_ok k1 (p_pid p) [b] s b 0 (u32 (alen l)) Hh1 Hw1 Hin) as (k2 & E2 & Hh2 & P2); [done..|].
  rewrite Hbh in P2. change (4 * 0) with 0 in P2. set (h0 := splice h 0 _) in *.
  assert (Hh0 : 4 * (0 + 1 + alen l) <= alen h0) by by apply hdr_room.
  destruct (over_log_ok (fun i => lg ← gets k_log; n ← rd "log.lh.block" (lh_block lg) i; put_word b (i + 1) (u32 n))
    (fun j k3 => holding k3 (p_pid p) [b] /\ poked k1 s (fill h0 0 (take j l)) k3) (length l) k2) as (k3 & E3 & Hh3 & P3).
  - done.
  - by rewrite take_0.
  - intros j k3 [_ P]. rewrite (bstep_log _ _ (pk_step _ _ _ _ P)). apply Hlog1.
  - intros j k3 Hj [Hh3 P3]. destruct (lookup_lt_is_Some_2 l j Hj) as [m Hm].
    pose proof (bstep_log_is _ _ _ _ (pk_step _ _ _ _ P3) Hlog1) as Hlog3.
    destruct (put_word_ok k3 (p_pid p) [b] s b (Z.of_nat j + 1) (u32 m) Hh3) as (k4 & E4 & Hh4 & P4);
      [by rewrite (pk_where _ _ _ _ P3)|done|lia|unfold alen, BSIZE in *; lia|].
    exists k4. split; [mstep; run (rd_Some _ _ _ m); [exact E4|by eapply log_is_get]|]. split; [done|].
    rewrite (take_S_r _ _ _ Hm), fill_snoc. eapply poked_trans; [by eapply fsctx_ok|done|].
    rewrite (pk_blk _ _ _ _ P3), Z.eqb_refl in P4. unfold alen. rewrite length_take_le by lia.
    by replace (0 + Z.of_nat j + 1) with (Z.of_nat j + 1) by lia.
  - rewrite firstn_all in P3. destruct (write_back k1 i p s b _ k3 C1 Hh1 Hw1 P3 Hh3) as (k4 & E4 & W4).
    exists k4. split.
    + unfold write_head. mstep. run E1. mstep. rewrite (li_n _ _ _ Hlog1). run E2. run E3. exact E4.
    + destruct W4 as [S4 Hh4 D4 T4 B4 Y4]. split; [|done|..].
      * eapply bstep_trans; [by eapply fsctx_ok|done..].
      * by rewrite D4, (tk_disk _ _ _ _ T1).
      * by rewrite T4, (tk_trace _ _ _ _ T1).
      * intros m. by rewrite B4, (tk_blk _ _ _ _ T1).
      * intros m. by rewrite Y4, (tk_dirty _ _ _ _ T1).
Qed.
End header.

(** ** Commit *)

Section commit.
Context {fuel : Fuel} {disk : BlockDev} {laws : DiskLaws disk}.
Implicit Types (k : kernel) (s sz m : Z) (l : list Z).

Lemma to_log_writes k s l : (fun c => (c.2, blk k c.1)) <$> to_log s l = log_writes s l (blk k).
Proof. unfold to_log, log_writes. by rewrite fmap_imap. Qed.

Lemma from_log_writes k s l c :
  (forall (j : nat) m, l !! j = Some m -> blk k (s + Z.of_nat j + 1) = c m) ->
  (fun c => (c.2, blk k c.1)) <$> from_log s l = home_writes l c.
Proof.
  intros Hc. unfold from_log, home_writes. apply list_eq. intros j. rewrite !list_lookup_fmap, list_lookup_imap.
  destruct (l !! j) as [m|] eqn:E; [|done]. simpl. by rewrite (Hc _ _ E).
Qed.

(** Emptying the log in memory. *)
Definition no_log k : kernel := set_log k (fun lg => lg <| lh_n := 0 |>).

Lemma no_log_is k s l : log_is k s l -> log_is (no_log k) s [].
Proof. intros [? ? ? ? ?]. by split. Qed.

(** Locks stay free, and the log keeps its size and its operations. *)
Record lstep k k' : Prop := {
  ls_lock : forall lk, lock_free lk (k_mach k) -> lock_free lk (k_mach k');
  ls_size : lg_size (k_log k') = lg_size (k_log k);
  ls_ops : lg_outstanding (k_log k') = lg_outstanding (k_log k);
  ls_commit : lg_committing (k_log k') = lg_committing (k_log k);
  ls_above : above k' = above k }.

Lemma lstep_trans k1 k2 k3 : lstep k1 k2 -> lstep k2 k3 -> lstep k1 k3.
Proof. intros [? ? ? ? ?] [? ? ? ? ?]. split; [auto|congruence..]. Qed.

Lemma lstep_bstep k k' : bstep k k' -> lstep k k'.
Proof.
  intros S. split; rewrite ?(bstep_log _ _ S); try done; [|by apply bstep_above].
  destruct (bs_mach _ _ S) as [-> | ->]; [done|]. intros lk. apply lock_free_settle.
Qed.

Lemma lstep_no_log k : lstep k (no_log k).
Proof. by split. Qed.

(** The copies in the log are installed, and the log is cleared. *)
Definition install_code : K unit :=
  install_trans ;;;
  lg_set (fun lg => lg <| lh_n := 0 |>) ;;;
  write_head.

Lemma install_code_ok k i p s sz l c :
  (0 < wakeups)%nat -> fsctx k i p -> holding k (p_pid p) [] -> log_is k s l ->
  committed s sz (k_disk k) l c -> (forall m, m ∈ l -> alen (c m) = BSIZE) ->
  (alen l < NBUF /\ (forall m, dirty k m <-> m ∈ l)) \/ (forall m, ~ dirty k m) ->
  exists k', install_code k = Ret tt k' /\ fsctx k' i p /\ lstep k k' /\ holding k' (p_pid p) [] /\ log_is k' s [] /\
    (forall m, ~ dirty k' m) /\
    k_disk k' = stores (k_disk k) (install_writes s (at_ (k_disk k) s) l c) /\
    k_dtrace k' = k_dtrace k ++ install_writes s (at_ (k_disk k) s) l c.
Proof.
  intros Hf Hctx Hh Hlog Hc Hlen Hd. pose proof (inst_loggable _ _ _ _ _ Hc Hlen) as Hl.
  destruct (install_trans_ok k i p s sz l Hf Hctx Hh Hlog Hl Hd) as (k1 & E1 & R1).
  assert (Hnd : forall m, m ∉ l -> ~ dirty k m).
  { intros m Hm Hdm. destruct Hd as [[_ Hd]|Hd]; [by apply Hm, Hd|by eapply Hd]. }
  pose proof R1 as [S1 Hh1 D1 T1 _ Y1]. rewrite (from_log_writes k s l c) in D1, T1.
  2, 3: intros j m Hj; rewrite <- (cm_copy _ _ _ _ _ Hc j m Hj); eapply idle_clean; [done|];
    apply Hnd, (log_blocks_range _ _ _ _ j Hl); by eapply lookup_lt_Some.
  assert (Hn1 : forall m, ~ dirty k1 m).
  { intros m [Hm Hdm]%Y1. rewrite from_log_2 in Hm. by apply (Hnd m). }
  pose proof (fsctx_bstep _ _ _ _ Hctx S1) as C1.
  assert (Hat : at_ (k_disk k1) s = at_ (k_disk k) s).
  { rewrite D1. apply (inst_area _ _ _ _ _ Hc Hlen _ _ (reflexivity _)). pose proof (lo_len _ _ _ _ Hl).
    pose proof (alen_nonneg l). unfold area. lia. }
  assert (Hl0 : loggable s sz (alen (k_disk k1)) []).
  { rewrite (ran_disk_length _ _ _ _ R1). pose proof (alen_nonneg l). destruct Hl.
    split; try done; [apply NoDup_nil_2|set_solver|unfold alen; simpl; lia]. }
  destruct (write_head_ok (no_log k1) i p s sz [] []) as (k2 & E2 & W2); try done.
  { by apply fsctx_log. } { by apply holding_log. }
  { eapply no_log_is, bstep_log_is; done. }
  { intros x Hx%dirty_log. by destruct (Hn1 x). }
  { intros Hx%dirty_log. by destruct (Hn1 s). }
  change (k_disk (no_log k1)) with (k_disk k1) in W2. rewrite Hat in W2.
  destruct W2 as [S2 Hh2 D2 T2 _ Y2]. exists k2. split_and!.
  - unfold install_code. run E1. mstep. exact E2.
  - eapply fsctx_bstep; [|exact S2]. by apply fsctx_log.
  - eapply lstep_trans; [by apply lstep_bstep|]. eapply lstep_trans; [apply lstep_no_log|by apply lstep_bstep].
  - done.
  - eapply bstep_log_is; [exact S2|]. eapply no_log_is, bstep_log_is; done.
  - intros m [_ Hm%dirty_log]%Y2. by apply (Hn1 m).
  - rewrite D2. change (k_disk (no_log k1)) with (k_disk k1). rewrite D1. unfold install_writes. by rewrite stores_snoc.
  - rewrite T2. change (k_dtrace (no_log k1)) with (k_dtrace k1). rewrite T1. unfold install_writes. by rewrite app_assoc.
Qed.

(** A state in which [commit] runs: the blocks [l] are dirty in the cache, and
    the log on the disk is empty. *)
Record pending k (i : nat) (p : proc) s sz l : Prop := {
  pe_ctx : fsctx k i p;
  pe_hold : holding k (p_pid p) [];
  pe_log : log_is k s l;
  pe_loggable : loggable s sz (alen (k_disk k)) l;
  pe_room : alen l < NBUF;
  pe_dirty : forall m, dirty k m <-> m ∈ l;
  pe_boot : bootable s sz (k_disk k);
  pe_empty : entries (at_ (k_disk k) s) = [] }.

Lemma commit_ok k i p s sz l :
  (0 < wakeups)%nat -> pending k i p s sz l -> l <> [] ->
  exists k', commit k = Ret tt k' /\ fsctx k' i p /\ lstep k k' /\ holding k' (p_pid p) [] /\ log_is k' s [] /\
    (forall m, ~ dirty k' m) /\
    let ws := commit_writes s (at_ (k_disk k) s) l (blk k) in
    k_disk k' = stores (k_disk k) ws /\ k_dtrace k' = k_dtrace k ++ ws.
Proof.
  intros Hf [Hctx Hh Hlog Hl Hroom Hd Hb He] Hne.
  assert (Hlen : forall m, m ∈ l -> alen (blk k m) = BSIZE).
  { intros m Hm. eapply blk_length; [apply Hh|]. by apply (lo_home _ _ _ _ Hl). }
  assert (Hs : s ∉ l).
  { intros Hin. apply (lo_home _ _ _ _ Hl) in Hin as [_ Hn]. apply Hn. pose proof (lo_len _ _ _ _ Hl).
    pose proof (alen_nonneg l). unfold area. lia. }
  destruct (write_log_ok k i p s sz l Hf Hctx Hh Hlog Hl Hroom Hd) as (k1 & E1 & R1).
  pose proof R1 as [S1 Hh1 D1 T1 _ Y1]. rewrite to_log_writes in D1, T1.
  assert (Hd1 : forall m, dirty k1 m <-> m ∈ l).
  { intros m. rewrite Y1, Hd. split; [by intros []|]. intros Hm. split; [|done].
    rewrite <- (firstn_all (to_log s l)). intros (y & Hy & ->)%to_log_2.
    by apply (log_blocks_range _ _ _ _ y Hl) in Hy as [_ ?]. }
  assert (Hat : at_ (k_disk k1) s = at_ (k_disk k) s).
  { rewrite D1. eapply log_ne; [done|exact Hlen|reflexivity|lia]. }
  destruct (write_head_ok k1 i p s sz l l) as (k2 & E2 & W2); try done.
  { by eapply fsctx_bstep. } { by eapply bstep_log_is. } { by rewrite (ran_disk_length _ _ _ _ R1). }
  { apply Hd1. } { by rewrite Hd1. }
  rewrite Hat in W2. destruct W2 as [S2 Hh2 D2 T2 _ Y2]. rewrite D1 in D2.
  destruct (log_committed s sz (k_disk k) l (blk k)) as (Hc & Hat2 & _); [done..|]. rewrite <- D2 in Hc, Hat2.
  destruct (install_code_ok k2 i p s sz l (blk k)) as (k3 & E3 & C3 & L3 & Hh3 & Hlog3 & Hd3 & D3 & T3); try done.
  { eapply fsctx_bstep; [|exact S2]. by eapply fsctx_bstep. }
  { eapply bstep_log_is; [exact S2|]. by eapply bstep_log_is. }
  { left. split; [done|]. intros m. rewrite Y2, Hd1. split; [by intros []|]. intros Hm. split; [|done]. congruence. }
  exists k3. split_and!; try done.
  - unfold commit. mstep. rewrite (li_n _ _ _ Hlog). destruct l as [|m l]; [done|].
    rewrite alen_cons, (proj2 (Z.ltb_lt _ _)) by (pose proof (alen_nonneg l); lia).
    cbn [when]. run E1. run E2. exact E3.
  - eapply lstep_trans; [by apply lstep_bstep|]. eapply lstep_trans; [by apply lstep_bstep|done].
  - intros ws. unfold ws, commit_writes. split.
    + by rewrite D3, Hat2, D2, stores_app.
    + by rewrite T3, Hat2, T2, T1, <- !app_assoc.
Qed.
End commit.

(** ** Recovery *)

Section recovery.
Context {fuel : Fuel} {disk : BlockDev} {laws : DiskLaws disk}.
Implicit Types (k : kernel) (s sz m : Z) (l : list Z).

(** A machine that has just booted: nothing is cached and dirty. *)
Record booted k (i : nat) (p : proc) s : Prop := {
  bt_ctx : fsctx k i p;
  bt_hold : holding k (p_pid p) [];
  bt_clean : forall m, ~ dirty k m;
  bt_dev : lg_dev (k_log k) = 1;
  bt_start : lg_start (k_log k) = s;
  bt_len : alen (lh_block (k_log k)) = LOGSIZE }.

(** The log in memory with [n] entries [bl]. *)
Definition with_head (n : Z) (bl : list Z) (lg : log) : log := lg <| lh_n := n |> <| lh_block := bl |>.

Lemma take_insert_S (l : list Z) j v : (j < length l)%nat -> take (S j) (<[j := v]> l) = take j l ++ [v].
Proof.
  intros Hj. rewrite (take_S_r _ _ v) by by rewrite list_lookup_insert_eq.
  by rewrite take_insert_ge by lia.
Qed.

Lemma read_head_loop k h :
  let l := entries h in
  alen l = i32 (wd h 0) -> alen l <= LOGSIZE -> alen h = BSIZE -> alen (lh_block (k_log k)) = LOGSIZE ->
  exists bl, over_log (fun i => w ← word_at h (i + 1); lg ← gets k_log;
      bl ← wr "log.lh.block" (lh_block lg) i (i32 w); lg_set (fun lg => lg <| lh_block := bl |>))
      (set_log k (fun lg => lg <| lh_n := alen l |>)) = Ret tt (set_log k (with_head (alen l) bl)) /\
    alen bl = LOGSIZE /\ take (length l) bl = l.
Proof.
  intros l Hn Hmax Hh Hlen.
  destruct (over_log_ok (fun i => w ← word_at h (i + 1); lg ← gets k_log;
      bl ← wr "log.lh.block" (lh_block lg) i (i32 w); lg_set (fun lg => lg <| lh_block := bl |>))
    (fun j k1 => exists bl, k1 = set_log k (with_head (alen l) bl) /\ alen bl = LOGSIZE /\ take j bl = take j l)
    (length l) (set_log k (fun lg => lg <| lh_n := alen l |>))) as (k' & E & bl & -> & Hbl & Ht).
  - done.
  - exists (lh_block (k_log k)). split_and!; [|done..]. unfold set_log, with_head. destruct k as [].
    cbn. repeat f_equal.
  - intros j k1 (bl & -> & _ & _). done.
  - intros j k1 Hj (bl & -> & Hbl & Ht). destruct (lookup_lt_is_Some_2 l j Hj) as [m Hm].
    unfold BSIZE, LOGSIZE, MAXOPBLOCKS, alen in *.
    eexists. split.
    + run word_at_ok; [|lia|unfold alen; lia]. mstep. run wr_Some; [reflexivity|]. change (lh_block _) with bl. unfold alen. lia.
    + exists (<[j := m]> bl). split_and!.
      * unfold l, entries in Hm. rewrite list_lookup_fmap in Hm. apply fmap_Some in Hm as (y & Hy & ->).
        apply lookup_seqZ in Hy as [-> _]. rewrite Z.add_0_l, Nat2Z.id. unfold set_log, with_head.
        destruct k as []. done.
      * unfold alen. by rewrite length_insert.
      * by rewrite take_insert_S, Ht, (take_S_r _ _ _ Hm) by (unfold alen in *; lia).
  - exists bl. split_and!; [done..|]. rewrite Ht. apply firstn_all.
Qed.

Lemma read_head_ok k i p s sz :
  (0 < wakeups)%nat -> booted k i p s -> bootable s sz (k_disk k) ->
  exists k', read_head k = Ret tt k' /\ booted k' i p s /\ log_is k' s (entries (at_ (k_disk k) s)) /\
    k_disk k' = k_disk k /\ k_dtrace k' = k_dtrace k.
Proof.
  intros Hf [Hctx Hh Hcl Hdev Hst Hlen] [Hl Hn _]. set (h := at_ (k_disk k) s) in *.
  destruct (header_bread k i p s sz (entries h) []) as (b & k1 & E1 & S1 & Hh1 & T1 & C1); try done.
  { intros x Hx. by destruct (Hcl x). }
  pose proof (tk_where _ _ _ _ T1) as Hw1. pose proof (bstep_log _ _ S1) as Hlg.
  assert (Hbh : blk k1 s = h) by (rewrite (tk_blk _ _ _ _ T1); by eapply idle_clean).
  assert (Hhl : alen h = BSIZE) by (rewrite <- Hbh; eapply blk_length; [apply Hh1|by eapply where_disk]).
  destruct (read_head_loop k1 h) as (bl & E2 & Hbl & Ht); [done|apply Hl|done|by rewrite Hlg|].
  set (k2 := set_log k1 (with_head (alen (entries h)) bl)) in *.
  destruct (brelse_view k2 i p [] s b) as (k3 & E3 & S3 & Hh3 & V3).
  { by apply fsctx_log. } { by apply holding_log. } { by unfold k2; rewrite where_log. } { apply not_elem_of_nil. }
  { intros _. unfold k2. rewrite blk_log. unfold block. change (k_disk (set_log _ _)) with (k_disk k1).
    rewrite (tk_disk _ _ _ _ T1). exact Hbh. }
  pose proof (bstep_log _ _ S3) as Hlg3. exists k3. split_and!.
  - unfold read_head. mstep. run E1. run buf_at_ok; [|apply Hh1|apply where_Some in Hw1 as [? _]; lia].
    assert (b_data (bfl (k_buf k1) b) = h) as -> by (unfold blk in Hbh; by rewrite Hw1 in Hbh).
    run word_at_ok; [|done|rewrite Hhl; done]. mstep.
    change (k1 <| k_log ::= _ |>) with (set_log k1 (fun lg => lg <| lh_n := i32 (wd h 0) |>)).
    rewrite <- Hn. run E2. exact E3.
  - split; rewrite ?Hlg3; try done.
    + eapply fsctx_bstep; [by apply fsctx_log|exact S3].
    + intros m. rewrite (sv_dirty _ _ V3). intros Hm%dirty_log. apply (tk_dirty _ _ _ _ T1) in Hm. by apply (Hcl m).
    + change (lg_dev (k_log k1) = 1). by rewrite Hlg.
    + change (lg_start (k_log k1) = s). by rewrite Hlg.
  - split; rewrite ?Hlg3; try done.
    + change (lg_dev (k_log k1) = 1). by rewrite Hlg.
    + change (lg_start (k_log k1) = s). by rewrite Hlg.
  - rewrite (sv_disk _ _ V3). apply T1.
  - rewrite (sv_trace _ _ V3). apply T1.
Qed.

(** What a committed log holds. *)
Lemma bootable_committed s sz d : bootable s sz d -> committed s sz d (entries (at_ d s)) (logical d s).
Proof.
  intros Hb. split; [done..|]. intros j m Hj. unfold logical, replay. set (l := entries _) in *.
  destruct (list_find (m =.) l) as [[y z]|] eqn:E.
  - apply list_find_Some in E as (E & <- & _).
    by rewrite (NoDup_lookup _ _ _ _ (lo_nodup _ _ _ _ (bo_log _ _ _ Hb)) Hj E).
  - apply list_find_None in E. rewrite Forall_forall in E. destruct (E m); [by eapply list_elem_of_lookup_2|done].
Qed.

Lemma at_length d n : Forall (fun b => alen b = BSIZE) d -> 0 <= n < alen d -> alen (at_ d n) = BSIZE.
Proof.
  intros Hf Hn. destruct (aget_is_Some d n Hn) as [h E]. unfold at_. rewrite E. rewrite Forall_forall in Hf. apply Hf.
  unfold aget in E. destruct (0 <=? n); [|done]. by eapply list_elem_of_lookup_2.
Qed.

Lemma logical_length s sz d m : bootable s sz d -> m ∈ entries (at_ d s) -> alen (logical d s m) = BSIZE.
Proof.
  intros Hb (j & Hj)%list_elem_of_lookup. rewrite <- (cm_copy _ _ _ _ _ (bootable_committed _ _ _ Hb) j m Hj).
  apply at_length; [apply Hb|]. apply lookup_lt_Some in Hj.
  destruct (bo_log _ _ _ Hb). unfold alen at 1 in lo_len. lia.
Qed.

Lemma recover_ok k i p s sz :
  (0 < wakeups)%nat -> booted k i p s -> bootable s sz (k_disk k) ->
  exists k', recover_from_log k = Ret tt k' /\ booted k' i p s /\ log_is k' s [] /\
    let d := k_disk k in let ws := install_writes s (at_ d s) (entries (at_ d s)) (logical d s) in
    k_disk k' = stores d ws /\ k_dtrace k' = k_dtrace k ++ ws.
Proof.
  intros Hf Hbt Hb. destruct (read_head_ok k i p s sz Hf Hbt Hb) as (k1 & E1 & [C1 H1 N1 _ _ _] & L1 & D1 & T1).
  pose proof (bootable_committed _ _ _ Hb) as Hc.
  destruct (install_code_ok k1 i p s sz (entries (at_ (k_disk k) s)) (logical (k_disk k) s))
    as (k2 & E2 & C2 & _ & H2 & L2 & N2 & D2 & T2); try done.
  { by rewrite D1. } { intros m Hm. by eapply logical_length. } { by right. }
  exists k2. rewrite D1 in D2, T2. rewrite T1 in T2. split_and!; [|split; try done; apply L2|done|done].
  unfold recover_from_log. run E1. exact E2.
Qed.
End recovery.

(** ** Crash safety *)

Section crash.
Context {fuel : Fuel} {disk : BlockDev} {laws : DiskLaws disk}.
Implicit Types (k r : kernel) (s sz n m : Z) (l : list Z) (d : list (list Z)) (ws : list (Z * list Z)).

(** Disks with the content [c] of the file system. *)
Definition content s sz (c : Z -> list Z) d : Prop := forall n, ~ area s sz n -> logical d s n = c n.

Lemma commit_all k i p s sz l :
  (0 < wakeups)%nat -> pending k i p s sz l -> l <> [] ->
  exists k' ws, commit k = Ret tt k' /\ fsctx k' i p /\ lstep k k' /\ k_dtrace k' = k_dtrace k ++ ws /\ k_disk k' = stores (k_disk k) ws /\
    log_is k' s [] /\ (forall m, ~ dirty k' m) /\ holding k' (p_pid p) [] /\ entries (at_ (k_disk k') s) = [] /\
    (forall n, ~ area s sz n -> blk k' n = blk k n) /\
    forall ws1, ws1 `prefix_of` ws ->
      bootable s sz (stores (k_disk k) ws1) /\
      (content s sz (at_ (k_disk k)) (stores (k_disk k) ws1) \/ content s sz (blk k) (stores (k_disk k) ws1)).
Proof.
  intros Hf Hp Hne. destruct (commit_ok k i p s sz l Hf Hp Hne) as (k' & E & Hctx' & Hls & Hh & Hlog & Hnd & D & T).
  destruct Hp as [_ Hk _ Hl _ Hd Hb He].
  assert (Hlen : forall m, m ∈ l -> alen (blk k m) = BSIZE).
  { intros m Hm. eapply blk_length; [apply Hk|]. by apply (lo_home _ _ _ _ Hl). }
  assert (Hnew : forall n, (if bool_decide (n ∈ l) then blk k n else at_ (k_disk k) n) = blk k n).
  { intros n. case_bool_decide as Hn; [done|]. symmetry. eapply idle_clean; [done|]. by rewrite Hd. }
  destruct (log_committed s sz (k_disk k) l (blk k)) as (Hc & Hs & Hna); [done..|].
  pose proof (inst_done _ _ _ _ _ Hc Hlen) as Hin. rewrite Hs in Hin. cbv zeta in Hin.
  exists k', (commit_writes s (at_ (k_disk k) s) l (blk k)). split_and!; try done.
  - rewrite D. unfold commit_writes. rewrite stores_app. apply Hin.
  - intros n Hn. rewrite (idle_clean _ _ _ Hh) by done. rewrite D. unfold commit_writes.
    rewrite stores_app. etrans; [by apply Hin|]. rewrite Hna by done. apply Hnew.
  - intros ws1 H1. destruct (commit_prefix s sz (k_disk k) l (blk k) Hb He Hl Hlen ws1 H1) as [Hb1 [Ho|Hn]].
    + split; [done|]. by left.
    + split; [done|]. right. intros n Hnn. by rewrite Hn, Hnew.
Qed.

Lemma recover_all r i p s sz :
  (0 < wakeups)%nat -> booted r i p s -> bootable s sz (k_disk r) ->
  exists r' ws, recover_from_log r = Ret tt r' /\ k_dtrace r' = k_dtrace r ++ ws /\
    k_disk r' = stores (k_disk r) ws /\ booted r' i p s /\ log_is r' s [] /\
    (forall n, ~ area s sz n -> blk r' n = logical (k_disk r) s n) /\
    forall ws1, ws1 `prefix_of` ws ->
      bootable s sz (stores (k_disk r) ws1) /\ content s sz (logical (k_disk r) s) (stores (k_disk r) ws1).
Proof.
  intros Hf Hbt Hb. destruct (recover_ok r i p s sz Hf Hbt Hb) as (r' & E & Hbt' & Hlog & D & T).
  pose proof (bootable_committed _ _ _ Hb) as Hc.
  assert (Hlen : forall m, m ∈ entries (at_ (k_disk r) s) -> alen (logical (k_disk r) s m) = BSIZE).
  { intros m Hm. by eapply logical_length. }
  assert (Hnew : forall n, (if bool_decide (n ∈ entries (at_ (k_disk r) s)) then logical (k_disk r) s n
      else at_ (k_disk r) n) = logical (k_disk r) s n).
  { intros n. rewrite (replay_spec _ _ _ _ _ n Hc). by case_bool_decide. }
  exists r', (install_writes s (at_ (k_disk r) s) (entries (at_ (k_disk r) s)) (logical (k_disk r) s)).
  split_and!; try done.
  - intros n Hn. rewrite (idle_clean _ _ _ (bt_hold _ _ _ _ Hbt')) by apply Hbt'. rewrite D.
    rewrite (proj2 (inst_done _ _ _ _ _ Hc Hlen)) by done. apply Hnew.
  - intros ws1 H1. destruct (install_prefix _ _ _ _ _ Hc Hlen ws1 H1) as [Hb1 Hn]. split; [done|].
    intros n Hna. by rewrite Hn, Hnew.
Qed.

(** A disk after any number of recoveries that stopped half-way. *)
Inductive interrupted s : list (list Z) -> list (list Z) -> Prop :=
  | int_none d : interrupted s d d
  | int_stop r i p r' ws ws1 d :
      booted r i p s -> recover_from_log r = Ret tt r' -> k_dtrace r' = k_dtrace r ++ ws -> ws1 `prefix_of` ws ->
      interrupted s (stores (k_disk r) ws1) d -> interrupted s (k_disk r) d.

Lemma interrupted_content s sz c d d' :
  (0 < wakeups)%nat -> interrupted s d d' -> bootable s sz d -> content s sz c d ->
  bootable s sz d' /\ content s sz c d'.
Proof.
  intros Hf. induction 1 as [d|r i p r' ws ws1 d Hbt E T Hp _ IH]; intros Hb Hc; [done|].
  destruct (recover_all r i p s sz Hf Hbt Hb) as (r2 & ws2 & E2 & T2 & _ & _ & _ & _ & Hall).
  rewrite E in E2. injection E2 as <-. rewrite T in T2. apply app_inv_head in T2 as <-.
  destruct (Hall ws1 Hp) as [Hb1 Hc1]. apply IH; [done|]. intros n Hn. rewrite Hc1 by done. by apply Hc.
Qed.

(** Recovery replays the log and is safe to interrupt.  On a machine that
    has just booted from a bootable disk [recover_from_log] runs to the end; the
    file system then has the content of the disk with the committed log
    replayed, and the log is empty; and whatever prefix of its writes reaches
    the disk before another crash, that content is unchanged and the disk still
    boots. *)
Theorem recovery_preserves r i p s sz :
  (0 < wakeups)%nat -> booted r i p s -> bootable s sz (k_disk r) ->
  exists r' ws, recover_from_log r = Ret tt r' /\ k_dtrace r' = k_dtrace r ++ ws /\
    k_disk r' = stores (k_disk r) ws /\ booted r' i p s /\ log_is r' s [] /\
    (forall n, ~ area s sz n -> blk r' n = logical (k_disk r) s n) /\
    forall ws1, ws1 `prefix_of` ws ->
      bootable s sz (stores (k_disk r) ws1) /\ content s sz (logical (k_disk r) s) (stores (k_disk r) ws1).
Proof. apply recover_all. Qed.
End crash.
