(* ===== verification/CacheSpec.v ===== *)
(** * The buffer cache refines an array of blocks

    The abstract machine has the current content of every block, the content
    that is on the disk, and the blocks a process holds; the operations of
    [bio.c] implement it for any sequence of reads, stores, writes and
    releases a careful client performs. *)

From S2P Require Import Prelude State Spinlock CString Kalloc Console Vm Message Container Proc Syscall.
From S2P Require Import Sleeplock Bio Cache Blocks Log Words Journal Commit.
Open Scope Z_scope.
#[local] Opaque where_.

(** ** The abstract machine *)

Record blocks := mkblocks {
  ab_now : Z -> list Z;
  ab_held : list Z;
  ab_disk : Z -> list Z }.

Inductive bop := Bread (n : Z) | Poke (n : Z) (d : list Z) | Bwrite (n : Z) | Brelse (n : Z).

Definition put (f : Z -> list Z) (n : Z) (d : list Z) (m : Z) : list Z := if m =? n then d else f m.

(** What a client may do on a disk of [D] blocks, and its effect. *)
Definition astep (D : Z) (a : blocks) (o : bop) : option blocks :=
  let '(mkblocks now held dsk) := a in
  match o with
  | Bread n =>
      if bool_decide (0 <= n < D /\ n ∉ held /\ alen held < NBUF) then Some (mkblocks now (n :: held) dsk) else None
  | Poke n d => if bool_decide (n ∈ held /\ alen d = BSIZE) then Some (mkblocks (put now n d) held dsk) else None
  | Bwrite n => if bool_decide (n ∈ held) then Some (mkblocks now held (put dsk n (now n))) else None
  | Brelse n =>
      if bool_decide (n ∈ held /\ now n = dsk n) then Some (mkblocks now (filter (.≠ n) held) dsk) else None
  end.
Fixpoint arun (D : Z) (a : blocks) (os : list bop) : option blocks :=
  match os with [] => Some a | o :: os' => a' ← astep D a o; arun D a' os' end.

Section refine.
Context {fuel : Fuel} {disk : BlockDev} {laws : DiskLaws disk}.
Implicit Types (k : kernel) (n m b : Z) (hs held : list Z).

(** ** The operations *)

(** The buffer the client got for block [n]: the operations name the block, and
    [cstep] checks that this is the one [bread] has returned. *)
Definition handle n : K Z := fun k => match where_ k n with Some b => Ret b k | None => Fault "handle" end.

Definition cstep (o : bop) : K unit :=
  match o with
  | Bread n => b ← bread 1 n; h ← handle n; if b =? h then mret tt else fault "bread"
  | Poke n d => b ← handle n; buf_set b (fun x => x <| b_data := d |>)
  | Bwrite n => b ← handle n; bwrite b
  | Brelse n => b ← handle n; brelse b
  end.
Fixpoint crun (os : list bop) : K unit :=
  match os with [] => mret tt | o :: os' => cstep o ;;; crun os' end.

Record shows k (i : nat) (p : proc) (D : Z) (a : blocks) : Prop := {
  sh_ctx : fsctx k i p;
  sh_hold : holding k (p_pid p) (omap (where_ k) (ab_held a));
  sh_nodup : NoDup (ab_held a);
  sh_has : forall n, n ∈ ab_held a -> is_Some (where_ k n);
  sh_now : forall n, blk k n = ab_now a n;
  sh_disk : forall n, at_ (k_disk k) n = ab_disk a n;
  sh_clean : forall n, ~ dirty k n;
  sh_size : alen (k_disk k) = D }.

Lemma where_inj k n m b : where_ k n = Some b -> where_ k m = Some b -> n = m.
Proof. intros [_ [_ H1]%holds_spec]%where_Some [_ [_ H2]%holds_spec]%where_Some. congruence. Qed.

Lemma omap_where_ext k k' held :
  (forall n, n ∈ held -> where_ k' n = where_ k n) -> omap (where_ k') held = omap (where_ k) held.
Proof.
  induction held as [|n held IH]; intros H; [done|]. cbn [omap list_omap].
  rewrite (H n), IH by set_solver. done.
Qed.

Lemma in_omap_where k held n b : where_ k n = Some b -> b ∈ omap (where_ k) held <-> n ∈ held.
Proof.
  intros Hw. rewrite list_elem_of_omap. split.
  - intros (m & Hm & Hb). by rewrite (where_inj _ _ _ _ Hw Hb).
  - intros Hn. eauto.
Qed.

Lemma omap_where_length k held : (length (omap (where_ k) held) <= length held)%nat.
Proof. induction held as [|n held IH]; [done|]. cbn [omap list_omap length]. case_match; simpl; lia. Qed.

Lemma fresh_buffer hs : alen hs < NBUF -> exists b, 0 <= b < NBUF /\ b ∉ hs.
Proof.
  intros Hl. destruct (decide (Exists (.∉ hs) (seqZ 0 NBUF))) as [(b & Hb & Hn)%Exists_exists|He].
  { exists b. apply elem_of_seqZ in Hb. split; [lia|done]. }
  exfalso. assert (Hsub : seqZ 0 NBUF ⊆+ hs).
  { apply NoDup_submseteq; [apply NoDup_seqZ|]. intros b Hb. destruct (decide (b ∈ hs)); [done|].
    destruct He. apply Exists_exists. eauto. }
  apply submseteq_length in Hsub. rewrite length_seqZ in Hsub. unfold alen in Hl. lia.
Qed.

Lemma shows_bread k i p D a n a' :
  (0 < wakeups)%nat -> shows k i p D a -> astep D a (Bread n) = Some a' ->
  exists k', cstep (Bread n) k = Ret tt k' /\ shows k' i p D a'.
Proof.
  intros Hf [Hctx Hh Hnd Hhas Hnow Hdsk Hcl Hsz] Ha. destruct a as [now held dsk]. cbn [ab_held ab_now ab_disk] in *.
  unfold astep in Ha. case_bool_decide as Hg; [|done]. injection Ha as <-. destruct Hg as (Hn & Hnin & Hlen).
  set (hs := omap (where_ k) held) in *.
  assert (Hroom : room k hs n).
  { unfold room. destruct (where_ k n) as [b|] eqn:E; [unfold hs; by rewrite (in_omap_where _ _ _ _ E)|].
    destruct (fresh_buffer hs) as (b & Hb & Hbn).
    { pose proof (omap_where_length k held). unfold hs, alen in *. lia. }
    exists b. split_and!; [lia|lia|done|]. intros Hfl. eapply Hcl, dirty_flags; [apply Hh|done..]. }
  destruct (bread_view k i p hs n) as (b & k' & E & S & Hh' & T & Hbn); [done..|by rewrite Hsz|done|].
  assert (Hkeep : forall m, m ∈ held -> where_ k' m = where_ k m).
  { intros m Hm. destruct (Hhas m Hm) as [c Hc]. rewrite Hc. eapply taken_keeps; [done..|]. intros ->.
    apply Hbn. by apply (in_omap_where _ _ _ _ Hc). }
  pose proof (tk_where _ _ _ _ T) as Hw. assert (Eh : handle n k' = Ret b k') by (unfold handle; by rewrite Hw).
  exists k'. split; [cbn [cstep]; run E; run Eh; by rewrite Z.eqb_refl|]. split; cbn [ab_held ab_now ab_disk].
  - by eapply fsctx_bstep.
  - cbn [omap list_omap]. rewrite Hw, (omap_where_ext k k') by done. exact Hh'.
  - apply NoDup_cons. done.
  - intros m [->|Hm]%elem_of_cons; [by rewrite Hw|]. rewrite Hkeep by done. by apply Hhas.
  - intros m. by rewrite (tk_blk _ _ _ _ T).
  - intros m. by rewrite (tk_disk _ _ _ _ T).
  - intros m. rewrite (tk_dirty _ _ _ _ T). apply Hcl.
  - by rewrite (tk_disk _ _ _ _ T).
Qed.

(** A change of the block [n] in hand that leaves it clean. *)
Lemma shows_written k i p D a n b x d t k' a' :
  shows k i p D a -> n ∈ ab_held a -> where_ k n = Some b ->
  bstep k k' -> holding k' (p_pid p) (omap (where_ k) (ab_held a)) -> written k n x d t k' -> b_flags x <> DIRTY ->
  ab_held a' = ab_held a -> (forall m, ab_now a' m = if m =? n then b_data x else ab_now a m) ->
  (forall m, at_ d m = ab_disk a' m) -> alen d = alen (k_disk k) -> shows k' i p D a'.
Proof.
  intros [Hctx Hh Hnd Hhas Hnow Hdsk Hcl Hsz] Hin Hw Hs Hh' W Hx Eh En Ed El.
  split; rewrite ?Eh.
  - by eapply fsctx_bstep.
  - rewrite (omap_where_ext k k'); [done|]. intros m _. apply W.
  - done.
  - intros m Hm. rewrite (wt_where _ _ _ _ _ _ W). by apply Hhas.
  - intros m. by rewrite (wt_blk _ _ _ _ _ _ W), En, Hnow.
  - intros m. by rewrite (wt_disk _ _ _ _ _ _ W).
  - intros m. rewrite (wt_dirty _ _ _ _ _ _ W). destruct (m =? n); [done|apply Hcl].
  - by rewrite (wt_disk _ _ _ _ _ _ W), El.
Qed.

Lemma shows_handle k i p D a n : shows k i p D a -> n ∈ ab_held a ->
  exists b, handle n k = Ret b k /\ where_ k n = Some b /\ b ∈ omap (where_ k) (ab_held a).
Proof.
  intros Hs Hn. destruct (sh_has _ _ _ _ _ Hs n Hn) as [b Hb]. exists b. unfold handle. rewrite Hb.
  split_and!; [done..|]. by apply (in_omap_where _ _ _ _ Hb).
Qed.

Lemma shows_clean k i p D a n b :
  shows k i p D a -> where_ k n = Some b -> b_flags (bf k b) <> DIRTY.
Proof. intros Hs Hw Hf. apply (sh_clean _ _ _ _ _ Hs n). by exists b. Qed.

Lemma shows_step k i p D a o a' :
  (0 < wakeups)%nat -> shows k i p D a -> astep D a o = Some a' ->
  exists k', cstep o k = Ret tt k' /\ shows k' i p D a'.
Proof.
  intros Hf Hs Ha. destruct o as [n|n d|n|n]; [by eapply shows_bread|..];
    destruct a as [now held dsk]; unfold astep in Ha; (case_bool_decide as Hg; [|done]); injection Ha as <-.
  - destruct Hg as [Hn Hd]. destruct (shows_handle _ _ _ _ _ n Hs Hn) as (b & Eh & Hw & Hb).
    destruct (data_view k (p_pid p) _ n b d (sh_hold _ _ _ _ _ Hs) Hw Hb Hd) as (k' & E & S & Hh' & W & _).
    exists k'. split; [by cbn; run Eh|]. eapply shows_written; try done.
    + by eapply shows_clean.
    + apply Hs.
  - destruct (shows_handle _ _ _ _ _ n Hs Hg) as (b & Eh & Hw & Hb).
    destruct (bwrite_view k i p _ n b (sh_ctx _ _ _ _ _ Hs) (sh_hold _ _ _ _ _ Hs) Hw Hb) as (k' & E & S & Hh' & W).
    exists k'. split; [by cbn; run Eh|]. pose proof (where_disk _ _ _ _ _ (sh_hold _ _ _ _ _ Hs) Hw) as Hr.
    eapply shows_written; try done.
    + intros m. cbn. destruct (Z.eqb_spec m n) as [->|]; [|done].
      rewrite <- (sh_now _ _ _ _ _ Hs n : _ = now n). unfold blk. by rewrite Hw.
    + intros m. etrans; [by apply at_store|]. cbn. unfold put. destruct (m =? n); apply Hs.
    + apply alen_insert.
  - destruct Hg as [Hn Heq]. destruct (shows_handle _ _ _ _ _ n Hs Hn) as (b & Eh & Hw & Hb).
    pose proof Hs as [Hctx Hh Hnd Hhas Hnow Hdsk Hcl Hsz]. cbn [ab_held ab_now ab_disk] in *.
    set (held' := filter (.≠ n) held).
    assert (Hp : held ≡ₚ n :: held').
    { apply NoDup_Permutation; [done| |].
      - apply NoDup_cons. split; [|by apply NoDup_filter]. intros Hin. unfold held' in Hin.
        by apply list_elem_of_filter in Hin as [? _].
      - intros m. rewrite elem_of_cons. unfold held'. rewrite list_elem_of_filter.
        destruct (decide (m = n)) as [->|]; tauto. }
    assert (Hh1 : holding k (p_pid p) (b :: omap (where_ k) held')).
    { eapply holding_perm; [|exact Hh]. rewrite Hp. cbn [omap list_omap]. by rewrite Hw. }
    destruct (brelse_view k i p (omap (where_ k) held') n b Hctx Hh1 Hw) as (k' & E & S & Hh' & V).
    + rewrite (in_omap_where _ _ _ _ Hw). unfold held'. rewrite list_elem_of_filter. tauto.
    + intros _. rewrite Hnow, Heq, <- Hdsk. done.
    + exists k'. split; [by cbn; run Eh|]. split; cbn [ab_held ab_now ab_disk].
      * by eapply fsctx_bstep.
      * rewrite (omap_where_ext k k'); [done|]. intros m _. apply V.
      * by apply NoDup_filter.
      * intros m Hm. rewrite (sv_where _ _ V). apply Hhas. by apply list_elem_of_filter in Hm as [_ ?].
      * intros m. by rewrite (sv_blk _ _ V).
      * intros m. by rewrite (sv_disk _ _ V).
      * intros m. rewrite (sv_dirty _ _ V). apply Hcl.
      * by rewrite (sv_disk _ _ V).
Qed.

(** C4. The buffer cache implements an array of blocks: any sequence of reads,
    stores, writes and releases that a client may perform on the array runs to
    its end on the kernel, without panic, fault or sleeping for ever, and
    afterwards every block has the content the array has, in the cache and on
    the disk. *)
Theorem cache_refines_blocks k i p D a os a' :
  (0 < wakeups)%nat -> shows k i p D a -> arun D a os = Some a' ->
  exists k', crun os k = Ret tt k' /\ shows k' i p D a'.
Proof.
  intros Hf. revert k a. induction os as [|o os IH]; intros k a Hs Ha.
  - injection Ha as <-. by exists k.
  - cbn [arun] in Ha. apply bind_Some in Ha as (a1 & H1 & H2).
    destruct (shows_step k i p D a o a1 Hf Hs H1) as (k1 & E1 & Hs1).
    destruct (IH k1 a1 Hs1 H2) as (k' & E & Hs'). exists k'. split; [|done]. cbn [crun]. by run E1.
Qed.
End refine.

(** Initialisation.  On the zeroed buffers of a machine that boots, [binit]
    links the thirty buffers and leaves an empty cache for any process: no
    buffer is in use, no block is dirty, and every block reads as the disk has
    it. *)
Theorem binit_establishes (k : kernel) :
  bufs_ok (k_buf k) -> (forall c, core (bfl (k_buf k) c) = core buf0) -> disk_sized k ->
  Forall (fun d => alen d = BSIZE) (k_disk k) ->
  exists k', binit k = Ret tt k' /\ k_disk k' = k_disk k /\ (forall m, ~ dirty k' m) /\
    (forall pid, holding k' pid []) /\ forall n, blk k' n = at_ (k_disk k) n.
Proof.
  intros Hok Hb Hds Hf. destruct (binit_ok k 0 Hok Hb Hds Hf) as (k' & E & Hh & Hnd & D & _).
  exists k'. split_and!; [done..| |].
  - intros pid. destruct (binit_ok k pid Hok Hb Hds Hf) as (k2 & E2 & Hh2 & _). congruence.
  - intros n. rewrite <- D. by eapply idle_clean.
Qed.

