(* ===== verification/Transact.v ===== *)
(** * Transactions

    [begin_op], [log_write] and [end_op]: what they do to the log in memory and
    to the cache, and that the blocks a transaction changes are exactly the
    ones [commit] writes. *)

From S2P Require Import Prelude State Spinlock CString Kalloc Console Vm Message Container Proc Syscall.
From S2P Require Import Sleeplock Bio Cache Blocks Log Words Journal Commit.
Open Scope Z_scope.
#[local] Opaque where_.

(** ** Recording a block *)

Section record.
Context {fuel : Fuel} {disk : BlockDev} {laws : DiskLaws disk}.
Implicit Types (k : kernel) (s sz m n b : Z) (l hs : list Z).

(** The index of block [n] in the log, or the next free one. *)
Definition pos n l : Z := match list_find (n =.) l with Some (j, _) => Z.of_nat j | None => alen l end.
(** The log after block [n] is recorded: a block is there once. *)
Definition absorbed n l : list Z := if bool_decide (n ∈ l) then l else l ++ [n].

Lemma pos_spec n l :
  0 <= pos n l <= alen l /\ (pos n l < alen l -> aget l (pos n l) = Some n) /\
  (pos n l = alen l <-> n ∉ l) /\ forall j, 0 <= j < pos n l -> aget l j <> Some n.
Proof.
  unfold pos. destruct (list_find (n =.) l) as [[j x]|] eqn:E.
  - apply list_find_Some in E as (E & <- & Hj). pose proof (lookup_lt_Some _ _ _ E) as Hlt. unfold alen. split_and!.
    + lia.
    + lia.
    + intros _. by rewrite aget_nat.
    + split; [lia|]. intros Hn. destruct Hn. by eapply list_elem_of_lookup_2.
    + intros y Hy. rewrite <- (Z2Nat.id y) by lia. rewrite aget_nat. intros Hny.
      by apply (Hj _ _ Hny); [lia|].
  - apply list_find_None in E. rewrite Forall_forall in E. pose proof (alen_nonneg l). split_and!; try lia.
    + split; [|done]. intros _ Hn. by apply (E n Hn).
    + intros j Hj Hn. apply (E n); [|done]. unfold aget in Hn. case_match; [|done]. by eapply list_elem_of_lookup_2.
Qed.

Lemma absorb_ok k s l n :
  log_is k s l -> (forall m, m ∈ l -> 0 <= m < 2 ^ 31) -> alen l <= LOGSIZE -> absorb n k = Ret (pos n l) k.
Proof.
  intros Hlog Hm Hmax. destruct (pos_spec n l) as (Hr & Hat & _ & Hbefore). unfold absorb.
  set (f := fun i => if i <? alen l then match aget l i with Some m => if m =? n then Some i else None | None => None end
                     else Some i).
  erewrite bind_Ret; [|apply (for_scan _ f)].
  - assert (scan f (Z.to_nat LOGSIZE + 1) 0 = Some (pos n l)) as ->; [|done].
    apply scan_Some. exists (pos n l). split; [lia|]. unfold f. split.
    + destruct (Z.ltb_spec (pos n l) (alen l)); [|done]. by rewrite Hat, Z.eqb_refl.
    + intros j Hj. destruct (Z.ltb_spec j (alen l)); [|lia]. destruct (aget l j) as [m|] eqn:E; [|done].
      destruct (Z.eqb_spec m n) as [->|]; [|done]. by destruct (Hbefore j Hj).
  - intros i Hi. mstep. rewrite (li_n _ _ _ Hlog). unfold f. destruct (Z.ltb_spec i (alen l)) as [Hlt|]; [|done].
    destruct (aget_is_Some l i ltac:(lia)) as [m E]. rewrite E.
    assert (Hl : l !! Z.to_nat i = Some m) by (by rewrite <- aget_nat, Z2Nat.id by lia).
    run (rd_Some _ _ _ m); [|rewrite <- (Z2Nat.id i) by lia; by eapply log_is_get].
    rewrite u32_small; [done|]. pose proof (Hm m (list_elem_of_lookup_2 _ _ _ Hl)). lia.
Qed.

(** The log in memory after [log_write] of block [n]. *)
Definition record_block n l (lg : log) : log :=
  lg <| lh_block ::= <[Z.to_nat (pos n l) := n]> |> <| lh_n := alen (absorbed n l) |>.

Lemma record_is k s l n :
  log_is k s l -> alen l < LOGSIZE -> log_is (set_log k (record_block n l)) s (absorbed n l).
Proof.
  intros [Hd Hs Hn Hb Hlen] Hmax. destruct (pos_spec n l) as (Hr & Hat & Hin & _). split; try done.
  - set (bl := lh_block (k_log k)) in *. change (lh_block (k_log _)) with (<[Z.to_nat (pos n l) := n]> bl).
    unfold absorbed. case_bool_decide as Hn'.
    + assert (Hp : pos n l < alen l) by (destruct (decide (pos n l = alen l)) as [E|]; [by apply Hin in E|lia]).
      specialize (Hat Hp). rewrite take_insert_lt, Hb by (unfold alen in *; lia). apply list_insert_id.
      by rewrite <- (Z2Nat.id (pos n l)), aget_nat in Hat by lia.
    + apply Hin in Hn' as ->. unfold alen in *. rewrite Nat2Z.id, length_app. simpl. rewrite Nat.add_1_r.
      rewrite take_insert_S by lia. by rewrite Hb.
  - change (lh_block (k_log _)) with (<[Z.to_nat (pos n l) := n]> (lh_block (k_log k))). by rewrite alen_insert.
Qed.

(** Buffer [b] is dirty and the log names its block [n]. *)
Definition recorded k n l b : kernel :=
  upd (set_log k (record_block n l)) b ((bf k b) <| b_flags := DIRTY |>) (k_disk k) (k_dtrace k) (settle (k_mach k)).

Lemma set_log_ext k f g : f (k_log k) = g (k_log k) -> set_log k f = set_log k g.
Proof.
  intros H. change (k <| k_log := f (k_log k) |> = k <| k_log := g (k_log k) |>). by rewrite H.
Qed.
Lemma set_log_set_log k f g : set_log (set_log k f) g = set_log k (fun lg => g (f lg)).
Proof. by destruct k. Qed.

Lemma log_upd_eq (lg : log) bl v : 1 + lh_n lg = v ->
  lg <| lh_block := bl |> <| lh_n ::= Z.add 1 |> = lg <| lh_block := bl |> <| lh_n := v |>.
Proof. by intros <-. Qed.

Lemma log_write_code k i p pid hs s l n b :
  running k i p -> lock_free log_lock (k_mach k) -> holding k pid hs -> where_ k n = Some b ->
  log_is k s l -> (forall m, m ∈ l -> 0 <= m < 2 ^ 31) -> 0 <= n < 2 ^ 31 -> alen l < LOGSIZE ->
  alen l < lg_size (k_log k) - 1 -> 1 <= lg_outstanding (k_log k) ->
  log_write b k = Ret tt (recorded k n l b).
Proof.
  intros Hr Hlk Hh Hw Hlog Hm Hn Hmax Hsz Hout. destruct (pos_spec n l) as (Hp & _ & Hin & _).
  pose proof (where_Some _ _ _ Hw) as [Hb [_ Hno]%holds_spec].
  set (k1 := kst k (acq log_lock (k_mach k))). assert (Hlog1 : log_is k1 s l) by by destruct Hlog.
  unfold log_write. mstep. rewrite (li_n _ _ _ Hlog).
  destruct (Z.leb_spec LOGSIZE (alen l)); [lia|]. destruct (Z.leb_spec (lg_size (k_log k) - 1) (alen l)); [lia|].
  cbn [orb]. destruct (Z.ltb_spec (lg_outstanding (k_log k)) 1); [lia|].
  run acquire_ok; [|apply Hr|done]. fold k1. run buf_at_ok; [|apply Hh|lia].
  change (bfl (k_buf k1) b) with (bf k b). rewrite Hno. run absorb_ok; [|done..|lia]. mstep.
  run wr_Some; [|rewrite (li_len _ _ _ Hlog1); lia]. rewrite i32_small by done. mstep. mstep.
  set (k2 := k1 <| k_log ::= _ |>). set (k3 := set_log k1 (record_block n l)).
  assert (Hwhen : when (pos n l =? lh_n (k_log k2)) (lg_set (fun lg => lg <| lh_n ::= Z.add 1 |>)) k2 = Ret tt k3).
  { change (lh_n (k_log k2)) with (lh_n (k_log k1)). rewrite (li_n _ _ _ Hlog1).
    destruct (Z.eqb_spec (pos n l) (alen l)) as [E|E]; cbn [when].
    - apply Hin in E as Hnl. unfold lg_set, modify. f_equal.
      etrans; [apply (set_log_set_log k1)|]. apply set_log_ext. unfold record_block, absorbed.
      rewrite bool_decide_false by done. apply log_upd_eq. rewrite alen_app, (li_n _ _ _ Hlog1).
      change (alen [n]) with 1. lia.
    - unfold mret, M_ret. f_equal. apply set_log_ext. unfold record_block, absorbed.
      rewrite bool_decide_true by (destruct (decide (n ∈ l)); [done|by apply Hin in n0]).
      by rewrite <- (li_n _ _ _ Hlog1). }
  run Hwhen. run buf_set_ok; [|apply Hh|lia].
  rewrite (release_acq _ _ (k_mach k)); [|apply Hr|done|done]. unfold recorded, upd. f_equal.
  change (bfl (k_buf k3) b) with (bf k b).
  assert ((bf k b) <| b_flags ::= fun f => Z.lor f B_DIRTY |> = (bf k b) <| b_flags := DIRTY |>) as ->.
  { pose proof (held_flags _ _ _ _ _ Hh Hw) as Hf. destruct (bf k b). cbn in *. by destruct Hf as [-> | ->]. }
  by destruct k.
Qed.

(** What the cache and the log show after [log_write]. *)
Record logged k pid hs s l n k' : Prop := {
  lw_hold : holding k' pid hs;
  lw_log : log_is k' s (absorbed n l);
  lw_where : forall m, where_ k' m = where_ k m;
  lw_blk : forall m, blk k' m = blk k m;
  lw_dirty : forall m, dirty k' m <-> m = n \/ dirty k m;
  lw_disk : k_disk k' = k_disk k;
  lw_trace : k_dtrace k' = k_dtrace k;
  lw_proc : k_proc k' = k_proc k;
  lw_mach : k_mach k' = settle (k_mach k);
  lw_other : lg_size (k_log k') = lg_size (k_log k) /\ lg_outstanding (k_log k') = lg_outstanding (k_log k) /\
             lg_committing (k_log k') = lg_committing (k_log k);
  lw_above : above k' = above k }.

Lemma recorded_logged k pid hs s l n b :
  holding k pid hs -> b ∈ hs -> where_ k n = Some b -> log_is k s l -> alen l < LOGSIZE ->
  logged k pid hs s l n (recorded k n l b).
Proof.
  intros Hh Hin Hw Hlog Hmax. pose proof (where_Some _ _ _ Hw) as [Hb _].
  set (k1 := set_log k (record_block n l)). set (x := (bf k b) <| b_flags := DIRTY |>).
  destruct (upd_view k1 pid hs n b x (k_disk k) (k_dtrace k) (settle (k_mach k))) as (_ & H2 & H3 & _).
  - by apply holding_log.
  - split; [by unfold k1; rewrite where_log|by eapply (held_refcnt k)|done|by right| |by left].
    apply (co_inv _ _ (hd_cache _ _ _ Hh) b Hb).
  - by right.
  - change (upd k1 b x (k_disk k) (k_dtrace k) (settle (k_mach k))) with (recorded k n l b) in *.
    split; try done.
    + by destruct (record_is k s l n Hlog Hmax).
    + intros m. etrans; [apply (wt_where _ _ _ _ _ _ H3)|]. unfold k1. by rewrite where_log.
    + intros m. etrans; [apply (wt_blk _ _ _ _ _ _ H3)|]. destruct (Z.eqb_spec m n) as [->|].
      * unfold blk. by rewrite Hw.
      * unfold k1. by rewrite blk_log.
    + intros m. rewrite (wt_dirty _ _ _ _ _ _ H3). destruct (Z.eqb_spec m n) as [->|].
      * split; [by left|done].
      * unfold k1. rewrite dirty_log. tauto.
Qed.
End record.

(** ** A transaction *)

Section transaction.
Context {fuel : Fuel} {disk : BlockDev} {laws : DiskLaws disk}.
Implicit Types (k : kernel) (s sz m n b : Z) (l hs : list Z) (ws : list (Z * list Z)).

(** The blocks [l] are in the log of the running transaction. *)
Record active k (i : nat) (p : proc) s sz l : Prop := {
  ac_pending : pending k i p s sz l;
  ac_lock : lock_free log_lock (k_mach k);
  ac_size : lg_size (k_log k) = sz;
  ac_small : sz <= NBUF;
  ac_ops : lg_outstanding (k_log k) = 1;
  ac_commit : lg_committing (k_log k) = 0 }.

(** One update in the way [log.c] describes. *)
Definition txn_write n (d : list Z) : K unit :=
  b ← bread 1 n;
  buf_set b (fun x => x <| b_data := d |>) ;;;
  log_write b ;;;
  brelse b.

Lemma absorbed_elem n l m : m ∈ absorbed n l <-> m = n \/ m ∈ l.
Proof. unfold absorbed. case_bool_decide; [|set_solver]. split; [by right|by intros [->|]]. Qed.

Lemma absorbed_length n l : alen l <= alen (absorbed n l) <= alen l + 1.
Proof. unfold absorbed. case_bool_decide; rewrite ?alen_app; [lia|]. change (alen [n]) with 1. lia. Qed.

Lemma loggable_absorbed s sz D n l :
  loggable s sz D l -> 0 <= n < D -> ~ area s sz n -> alen l < sz - 1 -> sz <= NBUF ->
  loggable s sz D (absorbed n l).
Proof.
  intros [Hnd Hh Hl Hm H0 He Hs] Hn Ha Hr Hsz. pose proof (absorbed_length n l).
  split; try done; try (unfold NBUF, LOGSIZE in *; lia).
  - unfold absorbed. case_bool_decide; [done|]. apply NoDup_app. split_and!; [done|set_solver|apply NoDup_singleton].
  - intros m [->|Hm']%absorbed_elem; [done|by apply Hh].
Qed.

Lemma lock_free_bstep k k' lk : bstep k k' -> lock_free lk (k_mach k) -> lock_free lk (k_mach k').
Proof. intros [_ [-> | ->] _] Hl; [done|by apply lock_free_settle]. Qed.

Lemma bread_idle k i p l n :
  (0 < wakeups)%nat -> fsctx k i p -> holding k (p_pid p) [] -> (forall m, dirty k m -> m ∈ l) -> alen l < NBUF ->
  0 <= n < alen (k_disk k) ->
  exists b k', bread 1 n k = Ret b k' /\ bstep k k' /\ holding k' (p_pid p) [b] /\ taken k n b k' /\ fsctx k' i p.
Proof.
  intros Hf Hctx Hh Hd Hl Hn. destruct (bread_view k i p [] n) as (b & k' & E & S & Hh' & T & _);
    [done..|by eapply room_few|]. exists b, k'. split_and!; try done. by eapply fsctx_bstep.
Qed.

Lemma txn_write_ok k i p s sz l n d :
  (0 < wakeups)%nat -> active k i p s sz l -> 0 <= n < alen (k_disk k) -> ~ area s sz n -> alen d = BSIZE ->
  alen l < sz - 1 ->
  exists k', txn_write n d k = Ret tt k' /\ active k' i p s sz (absorbed n l) /\
    k_disk k' = k_disk k /\ k_dtrace k' = k_dtrace k /\ above k' = above k /\ forall m, blk k' m = if m =? n then d else blk k m.
Proof.
  intros Hf [[Hctx Hh Hlog Hl Hroom Hd Hb He] Hlk Hsz Hsm Hops Hcm] Hn Ha Hdl Hlen.
  assert (Hin : forall b : Z, b ∈ [b]) by by left.
  destruct (bread_idle k i p l n) as (b & k1 & E1 & S1 & Hh1 & T1 & C1); [done..|apply Hd|done|done|].
  pose proof (tk_where _ _ _ _ T1) as Hw1.
  destruct (data_view k1 (p_pid p) [b] n b d Hh1 Hw1 (Hin b) Hdl) as (k2 & E2 & S2 & Hh2 & W2 & _).
  pose proof (fsctx_bstep _ _ _ _ C1 S2) as C2.
  assert (Hw2 : where_ k2 n = Some b) by by rewrite (wt_where _ _ _ _ _ _ W2).
  assert (S12 : bstep k k2) by (eapply bstep_trans; [by eapply fsctx_ok|done..]).
  pose proof (lock_free_bstep _ _ _ S12 Hlk) as Hlk2. pose proof (bstep_log_is _ _ _ _ S12 Hlog) as Hlog2.
  pose proof (bstep_log _ _ S12) as Hlg. pose proof (lo_size _ _ _ _ Hl) as HD.
  assert (Hl31 : forall m, m ∈ l -> 0 <= m < 2 ^ 31).
  { intros m Hm. apply (lo_home _ _ _ _ Hl) in Hm as [? _]. lia. }
  assert (Hmax : alen l < LOGSIZE) by (unfold NBUF, LOGSIZE in *; lia).
  assert (E3 : log_write b k2 = Ret tt (recorded k2 n l b)).
  { eapply log_write_code; [apply C2|done..|lia|done|rewrite Hlg; lia|rewrite Hlg; lia]. }
  pose proof (recorded_logged k2 (p_pid p) [b] s l n b Hh2 (Hin b) Hw2 Hlog2 Hmax) as L3.
  set (k3 := recorded k2 n l b) in *.
  assert (C3 : fsctx k3 i p).
  { eapply fsctx_step; [exact C2|apply L3|rewrite (lw_proc _ _ _ _ _ _ _ L3); apply woken_refl]. }
  destruct (brelse_view k3 i p [] n b) as (k4 & E4 & S4 & Hh4 & V4).
  { done. } { apply L3. } { by rewrite (lw_where _ _ _ _ _ _ _ L3). } { apply not_elem_of_nil. }
  { intros Hnd. destruct Hnd. apply (lw_dirty _ _ _ _ _ _ _ L3). by left. }
  assert (D4 : k_disk k4 = k_disk k).
  { by rewrite (sv_disk _ _ V4), (lw_disk _ _ _ _ _ _ _ L3), (wt_disk _ _ _ _ _ _ W2), (tk_disk _ _ _ _ T1). }
  pose proof (bstep_log _ _ S4) as Hlg4. destruct (lw_other _ _ _ _ _ _ _ L3) as (O1 & O2 & O3).
  exists k4. split_and!.
  - unfold txn_write. run E1. run E2. run E3. exact E4.
  - split; rewrite ?Hlg4, ?O1, ?O2, ?O3, ?Hlg; try done.
    + split; rewrite ?D4; try done.
      * by eapply fsctx_bstep.
      * eapply bstep_log_is; [exact S4|apply L3].
      * by apply loggable_absorbed.
      * pose proof (absorbed_length n l). lia.
      * intros m. rewrite (sv_dirty _ _ V4), (lw_dirty _ _ _ _ _ _ _ L3), (wt_dirty _ _ _ _ _ _ W2), absorbed_elem.
        destruct (Z.eqb_spec m n); [tauto|]. by rewrite (tk_dirty _ _ _ _ T1), Hd.
    + eapply lock_free_bstep; [exact S4|]. rewrite (lw_mach _ _ _ _ _ _ _ L3). by apply lock_free_settle.
  - done.
  - by rewrite (sv_trace _ _ V4), (lw_trace _ _ _ _ _ _ _ L3), (wt_trace _ _ _ _ _ _ W2), (tk_trace _ _ _ _ T1).
  - by rewrite (bstep_above _ _ S4), (lw_above _ _ _ _ _ _ _ L3), (bstep_above _ _ S12).
  - intros m. rewrite (sv_blk _ _ V4), (lw_blk _ _ _ _ _ _ _ L3), (wt_blk _ _ _ _ _ _ W2).
    by rewrite (tk_blk _ _ _ _ T1).
Qed.

(** No operation is running, and nothing is to be committed. *)
Record quiet k (i : nat) (p : proc) s sz : Prop := {
  qu_pending : pending k i p s sz [];
  qu_lock : lock_free log_lock (k_mach k);
  qu_size : lg_size (k_log k) = sz;
  qu_small : sz <= NBUF;
  qu_ops : lg_outstanding (k_log k) = 0;
  qu_commit : lg_committing (k_log k) = 0 }.

(** A change of the log's counters, and nothing else. *)
Record counted k k' : Prop := {
  cn_cache : same_cache k k';
  cn_proc : woken (k_proc k) (k_proc k');
  cn_mach : k_mach k' = settle (k_mach k);
  cn_trace : k_dtrace k' = k_dtrace k;
  cn_above : above k' = above k;
  cn_log : lg_dev (k_log k') = lg_dev (k_log k) /\ lg_start (k_log k') = lg_start (k_log k) /\
           lg_size (k_log k') = lg_size (k_log k) /\
           lh_n (k_log k') = lh_n (k_log k) /\ lh_block (k_log k') = lh_block (k_log k) }.

Lemma pending_counted k k' i p s sz l : counted k k' -> pending k i p s sz l -> pending k' i p s sz l.
Proof.
  intros [Hc Hp Hm _ _ (L1 & L2 & _ & L4 & L5)] [C1 C2 [? ? ? ? ?] C4 C5 C6 C7 C8].
  destruct (same_cache_view _ _ Hc) as (V1 & _ & _ & V4).
  split; rewrite ?(sc_disk _ _ Hc); try done.
  - by eapply fsctx_step.
  - by apply V1.
  - split; congruence.
  - intros m. by rewrite V4.
Qed.

Lemma counted_set k f :
  (forall lg, lg_dev (f lg) = lg_dev lg /\ lg_start (f lg) = lg_start lg /\ lg_size (f lg) = lg_size lg /\
     lh_n (f lg) = lh_n lg /\ lh_block (f lg) = lh_block lg) ->
  counted k (kst (set_log k f) (settle (k_mach k))).
Proof. intros Hf. split; try done; [apply woken_refl|apply Hf]. Qed.

Lemma begin_op_ok k i p s sz :
  (0 < wakeups)%nat -> quiet k i p s sz ->
  exists k', begin_op k = Ret tt k' /\ active k' i p s sz [] /\ counted k k'.
Proof.
  intros Hf [Hp Hlk Hsz Hsm Hops Hcm]. set (f := fun lg : log => lg <| lg_outstanding ::= Z.add 1 |>).
  pose proof (fsctx_ok _ _ _ (pe_ctx _ _ _ _ _ _ Hp)) as Hok.
  assert (Hc : counted k (kst (set_log k f) (settle (k_mach k)))) by by apply counted_set.
  exists (kst (set_log k f) (settle (k_mach k))). split_and!; [|split|done].
  - unfold begin_op. run acquire_ok; [|done..]. destruct wakeups as [|w]; [lia|]. cbn [begin_loop]. mstep.
    ksimpl. rewrite Hcm, Hops, (li_n _ _ _ (pe_log _ _ _ _ _ _ Hp)).
    change (LOGSIZE <? alen (@nil Z) + (0 + 1) * MAXOPBLOCKS) with false. cbn [Z.eqb negb]. mstep.
    rewrite (release_acq _ _ (k_mach k)) by done. by destruct k.
  - by eapply pending_counted.
  - by apply lock_free_settle.
  - done.
  - done.
  - change (1 + lg_outstanding (k_log k) = 1). lia.
  - done.
Qed.

Lemma end_tail k i p :
  fsctx k i p -> lock_free log_lock (k_mach k) ->
  exists k', (acquire log_lock ;;; lg_set (fun lg => lg <| lg_committing := 0 |>) ;;; wakeup log_chan ;;;
              release log_lock) k = Ret tt k' /\ counted k k' /\ lg_committing (k_log k') = 0 /\
    lg_outstanding (k_log k') = lg_outstanding (k_log k).
Proof.
  intros Hctx Hlk. pose proof (fsctx_ok _ _ _ Hctx) as Hok.
  exists (kst ((set_log k (fun lg => lg <| lg_committing := 0 |>)) <| k_proc ::= fmap (wake log_chan) |>) (settle (k_mach k))).
  split_and!; [|split; try done; apply woken_wake|done..].
  run acquire_ok; [|done..]. mstep. run wakeup_ok.
  - ksimpl. rewrite settle_acq by done. rewrite (release_acq _ _ (k_mach k)) by done. by destruct k.
  - split; ksimpl; [by apply acq_ok|apply lock_free_acq; [done|apply Hctx]|apply Hctx].
Qed.

Lemma end_head k i p s sz l :
  active k i p s sz l ->
  exists k1, (forall m : K unit,
      (acquire log_lock ;;;
       lg_set (fun lg => lg <| lg_outstanding ::= fun n => n - 1 |>) ;;;
       lg ← gets k_log;
       if negb (lg_committing lg =? 0) then panic "log.committing"
       else
         do_commit ← (if lg_outstanding lg =? 0 then
                        lg_set (fun lg => lg <| lg_committing := 1 |>) ;;; mret true
                      else wakeup log_chan ;;; mret false);
         release log_lock ;;; when do_commit m) k = m k1) /\
    pending k1 i p s sz l /\ counted k k1 /\ lg_outstanding (k_log k1) = 0.
Proof.
  intros [Hp Hlk Hsz Hsm Hops Hcm]. pose proof (fsctx_ok _ _ _ (pe_ctx _ _ _ _ _ _ Hp)) as Hok.
  set (f := fun lg : log => lg <| lg_outstanding ::= fun n => n - 1 |> <| lg_committing := 1 |>).
  assert (Hc : counted k (kst (set_log k f) (settle (k_mach k)))) by by apply counted_set.
  exists (kst (set_log k f) (settle (k_mach k))). split_and!; [|by eapply pending_counted|done|].
  - intros m. run acquire_ok; [|done..]. mstep. set (k0 := _ <| k_log ::= _ |>). mstep.
    change (lg_committing (k_log k0)) with (lg_committing (k_log k)). rewrite Hcm. cbn [Z.eqb negb].
    change (lg_outstanding (k_log k0)) with (lg_outstanding (k_log k) - 1). rewrite Hops. change (1 - 1 =? 0) with true.
    cbv iota. erewrite bind_Ret; [|mstep; reflexivity]. cbv beta iota.
    erewrite bind_Ret by (by apply (release_acq _ _ (k_mach k))). cbn [when]. f_equal.
  - change (lg_outstanding (k_log k) - 1 = 0). lia.
Qed.

(** The disk while the transaction commits. *)
Definition atomic s sz k (ws : list (Z * list Z)) (new : Z -> list Z) : Prop :=
  forall ws1, ws1 `prefix_of` ws ->
    bootable s sz (stores (k_disk k) ws1) /\
    (content s sz (at_ (k_disk k)) (stores (k_disk k) ws1) \/ content s sz new (stores (k_disk k) ws1)).

Lemma loggable_nil s sz D l : loggable s sz D l -> loggable s sz D [].
Proof.
  intros [Hnd Hh Hl Hm H0 He Hs]. pose proof (alen_nonneg l).
  split; try done; [apply NoDup_nil_2|set_solver|change (alen (@nil Z)) with 0; lia].
Qed.

Lemma commit_any k i p s sz l :
  (0 < wakeups)%nat -> pending k i p s sz l ->
  exists k' ws, commit k = Ret tt k' /\ pending k' i p s sz [] /\ lstep k k' /\
    k_dtrace k' = k_dtrace k ++ ws /\ k_disk k' = stores (k_disk k) ws /\
    (forall n, ~ area s sz n -> blk k' n = blk k n) /\ atomic s sz k ws (blk k).
Proof.
  intros Hf Hp. destruct (decide (l = [])) as [->|Hne].
  - exists k, []. rewrite app_nil_r. split_and!; try done.
    + unfold commit. mstep. by rewrite (li_n _ _ _ (pe_log _ _ _ _ _ _ Hp)).
    + intros ws1 ->%prefix_nil_inv. split; [apply Hp|]. left. intros n Hn.
      unfold logical. cbn [stores foldl]. by rewrite (pe_empty _ _ _ _ _ _ Hp).
  - destruct (commit_all k i p s sz l Hf Hp Hne)
      as (k' & ws & E & C & L & T & D & Hlog & Hnd & Hh & He & Hb & Hpre).
    exists k', ws. split_and!; try done. destruct (Hpre ws (reflexivity _)) as [Hbt _].
    split; rewrite ?D; try done.
    + rewrite stores_length. eapply loggable_nil, Hp.
    + intros m. split; [intros Hm; by destruct (Hnd m)|by intros ?%not_elem_of_nil].
    + by rewrite <- D.
Qed.

Lemma atomic_ext s sz k k' ws new new' :
  k_disk k' = k_disk k -> (forall n, new' n = new n) -> atomic s sz k ws new -> atomic s sz k' ws new'.
Proof.
  intros Hd Hn Ha ws1 Hp. rewrite Hd. destruct (Ha ws1 Hp) as [H1 [H2|H2]]; (split; [done|]); [by left|right].
  intros n Hna. by rewrite H2, Hn.
Qed.

Lemma end_op_ok k i p s sz l :
  (0 < wakeups)%nat -> active k i p s sz l ->
  exists k' ws, end_op k = Ret tt k' /\ quiet k' i p s sz /\
    k_dtrace k' = k_dtrace k ++ ws /\ (forall n, ~ area s sz n -> blk k' n = blk k n) /\ above k' = above k /\
    alen (k_disk k') = alen (k_disk k) /\ atomic s sz k ws (blk k).
Proof.
  intros Hf Ha. destruct (end_head _ _ _ _ _ _ Ha) as (k1 & E1 & Hp1 & C1 & O1).
  destruct (commit_any k1 i p s sz l Hf Hp1) as (k2 & ws & E2 & Hp2 & L2 & T2 & D2 & B2 & A2).
  assert (Hlk2 : lock_free log_lock (k_mach k2)).
  { apply (ls_lock _ _ L2). rewrite (cn_mach _ _ C1). apply lock_free_settle, Ha. }
  destruct (end_tail k2 i p (pe_ctx _ _ _ _ _ _ Hp2) Hlk2) as (k3 & E3 & C3 & K3 & O3).
  destruct (same_cache_view _ _ (cn_cache _ _ C1)) as (_ & _ & B1 & _).
  destruct (same_cache_view _ _ (cn_cache _ _ C3)) as (_ & _ & B3 & _).
  destruct (cn_log _ _ C1) as (_ & _ & Z1 & _). destruct (cn_log _ _ C3) as (_ & _ & Z3 & _).
  exists k3, ws. split_and!.
  - unfold end_op. rewrite E1. run E2. exact E3.
  - split; [by eapply pending_counted|rewrite (cn_mach _ _ C3); by apply lock_free_settle|..].
    + by rewrite Z3, (ls_size _ _ L2), Z1, (ac_size _ _ _ _ _ _ Ha).
    + apply Ha.
    + by rewrite O3, (ls_ops _ _ L2).
    + done.
  - by rewrite (cn_trace _ _ C3), T2, (cn_trace _ _ C1).
  - intros n Hn. by rewrite B3, B2, B1.
  - by rewrite (cn_above _ _ C3), (ls_above _ _ L2), (cn_above _ _ C1).
  - by rewrite (sc_disk _ _ (cn_cache _ _ C3)), D2, stores_length, (sc_disk _ _ (cn_cache _ _ C1)).
  - eapply atomic_ext; [|intros n; symmetry; apply B1|exact A2]. symmetry. apply C1.
Qed.

(** The content after the writes of a transaction. *)
Definition puts (c : Z -> list Z) ws (n : Z) : list Z := foldl (fun x w => if n =? w.1 then w.2 else x) (c n) ws.

Fixpoint txn_writes ws : K unit :=
  match ws with [] => mret tt | (n, d) :: ws' => txn_write n d ;;; txn_writes ws' end.

Lemma txn_writes_ok k i p s sz l ws :
  (0 < wakeups)%nat -> active k i p s sz l -> alen l + alen ws <= sz - 1 ->
  (forall n d, (n, d) ∈ ws -> 0 <= n < alen (k_disk k) /\ ~ area s sz n /\ alen d = BSIZE) ->
  exists k' l', txn_writes ws k = Ret tt k' /\ active k' i p s sz l' /\
    k_disk k' = k_disk k /\ k_dtrace k' = k_dtrace k /\ forall m, blk k' m = puts (blk k) ws m.
Proof.
  intros Hf. revert k l. induction ws as [|[n d] ws IH]; intros k l Ha Hlen Hws.
  - exists k, l. done.
  - rewrite alen_cons in Hlen. pose proof (alen_nonneg ws). destruct (Hws n d) as (Hn & Hna & Hd); [by left|].
    destruct (txn_write_ok k i p s sz l n d) as (k1 & E1 & A1 & D1 & T1 & _ & B1); [done..|lia|].
    destruct (IH k1 (absorbed n l)) as (k' & l' & E & A & D & T & B); [done| | |].
    { pose proof (absorbed_length n l). lia. }
    { intros n' d' Hin. rewrite D1. apply Hws. by right. }
    exists k', l'. split_and!; [by cbn [txn_writes]; run E1|done|by rewrite D|by rewrite T|].
    intros m. rewrite B. unfold puts. cbn [foldl fst snd]. by rewrite B1.
Qed.

Lemma transaction_ok k i p s sz ws :
  (0 < wakeups)%nat -> quiet k i p s sz -> alen ws <= sz - 1 ->
  (forall n d, (n, d) ∈ ws -> 0 <= n < alen (k_disk k) /\ ~ area s sz n /\ alen d = BSIZE) ->
  exists k' tr, (begin_op ;;; txn_writes ws ;;; end_op) k = Ret tt k' /\ quiet k' i p s sz /\
    (forall n, ~ area s sz n -> blk k' n = puts (blk k) ws n) /\
    k_dtrace k' = k_dtrace k ++ tr /\ atomic s sz k tr (puts (blk k) ws).
Proof.
  intros Hf Hq Hlen Hws. destruct (begin_op_ok k i p s sz Hf Hq) as (k1 & E1 & A1 & C1).
  pose proof (sc_disk _ _ (cn_cache _ _ C1)) as D1. destruct (same_cache_view _ _ (cn_cache _ _ C1)) as (_ & _ & B1 & _).
  destruct (txn_writes_ok k1 i p s sz [] ws) as (k2 & l & E2 & A2 & D2 & T2 & B2); [done..|by rewrite D1|].
  destruct (end_op_ok k2 i p s sz l Hf A2) as (k3 & tr & E3 & Q3 & T3 & B3 & _ & _ & At).
  assert (Hb : forall n, blk k2 n = puts (blk k) ws n) by (intros n; rewrite B2; unfold puts; by rewrite B1).
  exists k3, tr. split_and!.
  - run E1. run E2. exact E3.
  - done.
  - intros n Hn. by rewrite B3, Hb.
  - by rewrite T3, T2, (cn_trace _ _ C1).
  - eapply atomic_ext; [|intros n; symmetry; apply Hb|exact At]. by rewrite D2, D1.
Qed.

(** C1. A file system operation is atomic.  From a quiet log, [begin_op], any
    updates of blocks outside the log ([bread], a store, [log_write],
    [brelse]) that fit in it, and [end_op] run to the end; the file system then
    has the new contents; and whatever prefix of the disk writes reaches the
    disk before a crash, the disk is one that boots, and its content is
    entirely the old one or entirely the new one. *)
Theorem transaction_atomic k i p s sz ws :
  (0 < wakeups)%nat -> quiet k i p s sz -> alen ws <= sz - 1 ->
  (forall n d, (n, d) ∈ ws -> 0 <= n < alen (k_disk k) /\ ~ area s sz n /\ alen d = BSIZE) ->
  exists k' tr, (begin_op ;;; txn_writes ws ;;; end_op) k = Ret tt k' /\ quiet k' i p s sz /\
    (forall n, ~ area s sz n -> blk k' n = puts (blk k) ws n) /\
    k_dtrace k' = k_dtrace k ++ tr /\ atomic s sz k tr (puts (blk k) ws).
Proof. apply transaction_ok. Qed.

(** C2. Crash and recovery.  If the machine stops anywhere in the disk writes of
    an operation, and then any number of times in the middle of a recovery, the
    next recovery that completes leaves a file system in which either none or
    all of the operation's updates are visible. *)
Theorem crash_recovery k i p s sz ws k' tr tr1 d r j q :
  (0 < wakeups)%nat -> quiet k i p s sz -> alen ws <= sz - 1 ->
  (forall n x, (n, x) ∈ ws -> 0 <= n < alen (k_disk k) /\ ~ area s sz n /\ alen x = BSIZE) ->
  (begin_op ;;; txn_writes ws ;;; end_op) k = Ret tt k' -> k_dtrace k' = k_dtrace k ++ tr -> tr1 `prefix_of` tr ->
  interrupted s (stores (k_disk k) tr1) d -> booted r j q s -> k_disk r = d ->
  exists r', recover_from_log r = Ret tt r' /\ log_is r' s [] /\
    ((forall n, ~ area s sz n -> blk r' n = blk k n) \/
     (forall n, ~ area s sz n -> blk r' n = puts (blk k) ws n)).
Proof.
  intros Hf Hq Hlen Hws E T H1 Hi Hbt Hd.
  destruct (transaction_ok k i p s sz ws Hf Hq Hlen Hws) as (k2 & tr2 & E2 & _ & _ & T2 & At).
  rewrite E in E2. injection E2 as <-. rewrite T in T2. apply app_inv_head in T2 as <-.
  destruct (At tr1 H1) as [Hb Hcon].
  assert (Hold : forall n, at_ (k_disk k) n = blk k n).
  { intros n. symmetry. eapply idle_clean; [apply Hq|]. rewrite (pe_dirty _ _ _ _ _ _ (qu_pending _ _ _ _ _ Hq)).
    apply not_elem_of_nil. }
  assert (Hfin : forall c, content s sz c (stores (k_disk k) tr1) ->
    exists r', recover_from_log r = Ret tt r' /\ log_is r' s [] /\ forall n, ~ area s sz n -> blk r' n = c n).
  { intros c Hc. destruct (interrupted_content _ _ _ _ _ Hf Hi Hb Hc) as [Hbd Hcd]. rewrite <- Hd in Hbd, Hcd.
    destruct (recover_all r j q s sz Hf Hbt Hbd) as (r' & ws3 & E3 & _ & _ & _ & Hlog & Hn & _).
    exists r'. split_and!; [done..|]. intros n Hna. rewrite Hn by done. by apply Hcd. }
  destruct Hcon as [Hc|Hc]; destruct (Hfin _ Hc) as (r' & E3 & Hlog & Hn); exists r'; (split_and!; [done..|]).
  - left. intros n Hna. rewrite Hn by done. apply Hold.
  - by right.
Qed.

(** C35. Recording a block.  Inside an operation [log_write] of a buffer in hand
    panics exactly when the log is full ([LOGSIZE] blocks, or one less than the
    size of the log on the disk), even when the block is already recorded;
    otherwise the log names the block once, the block is pinned as dirty, and
    no content changes. *)
Theorem log_write_spec k i p hs s sz l n b :
  fsctx k i p -> lock_free log_lock (k_mach k) -> holding k (p_pid p) hs -> where_ k n = Some b -> b ∈ hs ->
  log_is k s l -> loggable s sz (alen (k_disk k)) l -> 1 <= lg_outstanding (k_log k) ->
  if (LOGSIZE <=? alen l) || (lg_size (k_log k) - 1 <=? alen l) then
    log_write b k = Panic "too big a transaction"
  else exists k', log_write b k = Ret tt k' /\ logged k (p_pid p) hs s l n k'.
Proof.
  intros Hctx Hlk Hh Hw Hin Hlog Hl Hops. destruct (_ || _) eqn:Eg.
  - unfold log_write. mstep. by rewrite (li_n _ _ _ Hlog), Eg.
  - apply orb_false_iff in Eg as [E1%Z.leb_gt E2%Z.leb_gt]. exists (recorded k n l b).
    pose proof (where_disk _ _ _ _ _ Hh Hw) as Hn. pose proof (lo_size _ _ _ _ Hl) as Hsz. split.
    + eapply log_write_code; try done; [apply Hctx| |lia]. intros m Hm. apply (lo_home _ _ _ _ Hl) in Hm as [? _]. lia.
    + by apply recorded_logged.
Qed.

(** C36. Admission of operations.  [begin_op] lets the process go on only when no
    commit is running and the blocks of every operation admitted so far and of
    this one fit in [LOGSIZE] blocks of log, and then counts it; otherwise the
    process goes to sleep on the log, with the log lock released. *)
Theorem begin_op_admits k i p :
  (0 < wakeups)%nat -> resting (k_mach k) -> lock_free log_lock (k_mach k) -> running k i p ->
  if (lg_committing (k_log k) =? 0) && (lh_n (k_log k) + (lg_outstanding (k_log k) + 1) * MAXOPBLOCKS <=? LOGSIZE) then
    exists k', begin_op k = Ret tt k' /\ k_mach k' = settle (k_mach k) /\
      lg_outstanding (k_log k') = lg_outstanding (k_log k) + 1 /\
      lh_n (k_log k') + lg_outstanding (k_log k') * MAXOPBLOCKS <= LOGSIZE
  else
    exists t cont, begin_op k = Switch t cont /\ k_log t = k_log k /\ lock_free log_lock (k_mach t) /\
      aget (k_proc t) (Z.of_nat i) = Some (p <| p_chan := log_chan |> <| p_state := SLEEPING |>).
Proof.
  intros Hf Hrest Hlk Hr. pose proof (aget_lt _ _ _ (rn_proc _ _ _ Hr)) as Hi.
  destruct (sleep_ok (kst k (acq log_lock (k_mach k))) (k_mach k) log_chan log_lock i p) as (t & cont & Hsw & Hs & Hls & _);
    [done..|apply Hr|apply Hr|].
  assert (Hsl : exists t cont', (sleep log_chan (Some log_lock) ;;; begin_loop (pred wakeups)) (kst k (acq log_lock (k_mach k)))
      = Switch t cont' /\ k_log t = k_log k /\ lock_free log_lock (k_mach t) /\
      aget (k_proc t) (Z.of_nat i) = Some (p <| p_chan := log_chan |> <| p_state := SLEEPING |>)).
  { exists t. eexists. split; [by apply bind_Switch|]. split_and!; [by rewrite Hs|done|]. rewrite Hs. ksimpl.
    rewrite aget_nat. apply list_lookup_insert_eq. unfold alen in Hi. lia. }
  destruct wakeups as [|w] eqn:Ew; [lia|].
  assert (Hbeg : begin_op k = begin_loop (S w) (kst k (acq log_lock (k_mach k)))).
  { unfold begin_op. rewrite Ew. run acquire_ok; [done|apply Hr|done]. }
  rewrite Hbeg. cbn [begin_loop]. destruct (Z.eqb_spec (lg_committing (k_log k)) 0) as [Ec|Ec].
  - destruct (Z.leb_spec (lh_n (k_log k) + (lg_outstanding (k_log k) + 1) * MAXOPBLOCKS) LOGSIZE) as [Hfit|Hno]; cbn [andb].
    + eexists. split.
      { mstep. ksimpl. rewrite Ec. cbn [Z.eqb negb].
        destruct (Z.ltb_spec LOGSIZE (lh_n (k_log k) + (lg_outstanding (k_log k) + 1) * MAXOPBLOCKS)); [lia|].
        mstep. apply (release_acq _ _ (k_mach k)); [apply Hr|done|done]. }
      split_and!; [done|change (1 + lg_outstanding (k_log k) = lg_outstanding (k_log k) + 1); lia|].
      change (lh_n (k_log k) + (1 + lg_outstanding (k_log k)) * MAXOPBLOCKS <= LOGSIZE).
      by rewrite (Z.add_comm 1).
    + mstep. ksimpl. rewrite Ec. cbn [Z.eqb negb].
      destruct (Z.ltb_spec LOGSIZE (lh_n (k_log k) + (lg_outstanding (k_log k) + 1) * MAXOPBLOCKS)); [|lia]. exact Hsl.
  - cbn [andb]. mstep. ksimpl. destruct (Z.eqb_spec (lg_committing (k_log k)) 0); [done|]. cbn [negb]. exact Hsl.
Qed.
End transaction.
