(* ===== verification/Fs.v ===== *)
(** * The file system ([fs.c])

    Block allocation, the inode cache, the content of inodes, directories and
    path names, on top of the log. *)

From S2P Require Import Prelude State Spinlock CString Kalloc Console Vm Message Container Proc Syscall.
From S2P Require Import Sleeplock Bio Log.
Open Scope Z_scope.

Definition T_DIR : Z := 1.
Definition T_FILE : Z := 2.
Definition T_DEV : Z := 3.
Definition ROOTINO : Z := 1.
Definition NINDIRECT : Z := BSIZE / 4.
Definition MAXFILE : Z := NDIRECT + NINDIRECT.
Definition IPB : Z := BSIZE / 64.
Definition BPB : Z := BSIZE * 8.
Definition DIRSIZ : Z := 14.
Definition IBLOCK (i : Z) (sb : superblock) : Z := u32 (i / IPB + sb_inodestart sb).
Definition BBLOCK (b : Z) (sb : superblock) : Z := u32 (b / BPB + sb_bmapstart sb).

(** A 16-bit signed field. *)
Definition i16 (z : Z) : Z := let m := z mod 2 ^ 16 in if m <? 2 ^ 15 then m else m - 2 ^ 16.

Definition icache_lock : lockid := ("icache", 0).
Definition inode_lock (ip : Z) : lockid := ("inode", ip).
Definition i_at (ip : Z) : K inode := k ← get; rd "inode" (k_inode k) ip.
Definition i_set (ip : Z) (f : inode -> inode) : K unit :=
  x ← i_at ip;
  k ← get;
  is_ ← wr "inode" (k_inode k) ip (f x);
  modify (fun k => k <| k_inode := is_ |>).
(** [ip->addrs[i]] *)
Definition addr_at (ip i : Z) : K Z := x ← i_at ip; rd "addrs" (i_addrs x) i.
Definition addr_set (ip i a : Z) : K unit :=
  x ← i_at ip;
  l ← wr "addrs" (i_addrs x) i a;
  i_set ip (fun x => x <| i_addrs := l |>).

(** An inode pointer that may be null. *)
Definition deref_ip (ip : option nat) : K Z :=
  match ip with Some i => mret (Z.of_nat i) | None => fault "null inode" end.

(** The functions that [devsw] points to once the console is installed: they
    are given where to put, or find, the bytes. *)
Class DevOps := mkDevOps {
  dev_read : (Z -> list Z -> K unit) -> Z -> Z -> K (Z * list Z);
  dev_write : (Z -> Z -> K (list Z)) -> Z -> Z -> K Z }.

Section fs.
Context {fuel : Fuel} {disk : BlockDev}.

(** ** Blocks *)

Definition buf_data (b : Z) : K (list Z) := x ← buf_at b; mret (b_data x).
Definition buf_put (b o : Z) (bs : list Z) : K unit :=
  d ← buf_data b;
  d' ← put_bytes d o bs;
  buf_set b (fun x => x <| b_data := d' |>).

Definition bzero (dev bno : Z) : K unit :=
  bp ← bread dev bno;
  buf_set bp (fun x => x <| b_data := replicate (Z.to_nat BSIZE) 0 |>) ;;;
  log_write bp ;;;
  brelse bp.

Definition bit_set (d : list Z) (bi : Z) : bool :=
  match aget d (bi / 8) with Some v => Z.testbit v (bi mod 8) | None => true end.

(** The first free bit below [n] of a bitmap block. *)
Definition free_bit (d : list Z) (n : Z) : option Z :=
  scan (fun bi => if bit_set d bi then None else Some bi) (Z.to_nat n) 0.

Fixpoint balloc_loop (f : nat) (dev b : Z) : K Z :=
  match f with
  | O => fun _ => Diverge
  | S f' =>
      sb ← gets k_sb;
      if b <? sb_size sb then
        bp ← bread dev (BBLOCK b sb);
        d ← buf_data bp;
        sb ← gets k_sb;
        match free_bit d (Z.min BPB (sb_size sb - b)) with
        | Some bi =>
            v ← rd "block" d (bi / 8);
            buf_put bp (bi / 8) [Z.lor v (Z.shiftl 1 (bi mod 8))] ;;;
            log_write bp ;;;
            brelse bp ;;;
            bzero dev (b + bi) ;;;
            mret (b + bi)
        | None => brelse bp ;;; balloc_loop f' dev (b + BPB)
        end
      else panic "balloc: out of blocks"
  end.
(** One round for every bitmap block, and the one that gives up. *)
Definition balloc (dev : Z) : K Z :=
  sb ← gets k_sb; balloc_loop (Z.to_nat (sb_size sb / BPB + 2)) dev 0.

Definition bfree (dev b : Z) : K unit :=
  sb ← readsb dev;
  modify (fun k => k <| k_sb := sb |>) ;;;
  bp ← bread dev (BBLOCK b sb);
  let bi := b mod BPB in
  d ← buf_data bp;
  v ← rd "block" d (bi / 8);
  if negb (Z.testbit v (bi mod 8)) then panic "freeing free block"
  else
    buf_put bp (bi / 8) [Z.land v (Z.lnot (Z.shiftl 1 (bi mod 8)))] ;;;
    log_write bp ;;;
    brelse bp.

(** ** Inodes *)

Definition iinit (dev : Z) : K unit :=
  initlock icache_lock "icache" ;;;
  each (Z.to_nat NINODE) 0 (fun i => initsleeplock (inode_lock i)) ;;;
  sb ← readsb dev;
  modify (fun k => k <| k_sb := sb |>) ;;;
  cprintf (bytes "sb: size %d nblocks %d ninodes %d nlog %d logstart %d inodestart %d bmap start %d" ++ [10])
    [AInt (sb_size sb); AInt (sb_nblocks sb); AInt (sb_ninodes sb); AInt (sb_nlog sb);
     AInt (sb_logstart sb); AInt (sb_inodestart sb); AInt (sb_bmapstart sb)].

(** The scan of [iget]: the entry that holds the inode, or the first free
    one. *)
Definition iget_scan (dev inum : Z) : K (option Z + option Z) :=
  (fix go (n : nat) (ip : Z) (empty : option Z) : K (option Z + option Z) :=
    match n with
    | O => mret (inr empty)
    | S n' =>
        x ← i_at ip;
        if (0 <? i_ref x) && (i_dev x =? dev) && (i_inum x =? inum) then
          i_set ip (fun x => x <| i_ref ::= Z.add 1 |>) ;;;
          mret (inl (Some ip))
        else
          go n' (ip + 1)
            (match empty with None => if i_ref x =? 0 then Some ip else None | _ => empty end)
    end) (Z.to_nat NINODE) 0 None.

Definition iget (dev inum : Z) : K Z :=
  acquire icache_lock ;;;
  r ← iget_scan dev inum;
  match r with
  | inl (Some ip) => release icache_lock ;;; mret ip
  | inl None | inr None => panic "iget: no inodes"
  | inr (Some ip) =>
      i_set ip (fun x => x <| i_dev := dev |>) ;;;
      i_set ip (fun x => x <| i_inum := inum |>) ;;;
      i_set ip (fun x => x <| i_ref := 1 |>) ;;;
      i_set ip (fun x => x <| i_valid := 0 |>) ;;;
      release icache_lock ;;;
      mret ip
  end.

Fixpoint ialloc_loop (f : nat) (dev type inum : Z) : K Z :=
  match f with
  | O => fun _ => Diverge
  | S f' =>
      sb ← gets k_sb;
      if inum <? sb_ninodes sb then
        bp ← bread dev (IBLOCK inum sb);
        d ← buf_data bp;
        t ← sub_bytes d (64 * (inum mod IPB)) 2;
        if of_le t =? 0 then
          buf_put bp (64 * (inum mod IPB)) (replicate 64 0) ;;;
          buf_put bp (64 * (inum mod IPB)) (le_bytes 2 type) ;;;
          log_write bp ;;;
          brelse bp ;;;
          iget dev inum
        else brelse bp ;;; ialloc_loop f' dev type (inum + 1)
      else panic "ialloc: no inodes"
  end.
(** One round for every inode, and the one that gives up. *)
Definition ialloc (dev type : Z) : K Z :=
  sb ← gets k_sb; ialloc_loop (Z.to_nat (sb_ninodes sb) + 1) dev type 1.

(** The 64 bytes of [struct dinode]. *)
Definition dinode_bytes (x : inode) : list Z :=
  le_bytes 2 (i_type x) ++ le_bytes 2 (i_major x) ++ le_bytes 2 (i_minor x) ++
  le_bytes 2 (i_nlink x) ++ le_bytes 4 (i_size x) ++ concat (le_bytes 4 <$> i_addrs x).

Definition iupdate (ip : Z) : K unit :=
  x ← i_at ip;
  sb ← gets k_sb;
  bp ← bread (i_dev x) (IBLOCK (i_inum x) sb);
  x ← i_at ip;
  buf_put bp (64 * (i_inum x mod IPB)) (dinode_bytes x) ;;;
  log_write bp ;;;
  brelse bp.

Definition idup (ip : Z) : K Z :=
  acquire icache_lock ;;;
  i_set ip (fun x => x <| i_ref ::= Z.add 1 |>) ;;;
  release icache_lock ;;;
  mret ip.

Fixpoint words_of (n : nat) (bs : list Z) : list Z :=
  match n with O => [] | S n' => of_le (take 4 bs) :: words_of n' (drop 4 bs) end.

(** The in-memory fields from the bytes of a [struct dinode]. *)
Definition load_dinode (bs : list Z) (x : inode) : inode :=
  x <| i_type := i16 (of_le (take 2 bs)) |>
    <| i_major := i16 (of_le (take 2 (drop 2 bs))) |>
    <| i_minor := i16 (of_le (take 2 (drop 4 bs))) |>
    <| i_nlink := i16 (of_le (take 2 (drop 6 bs))) |>
    <| i_size := of_le (take 4 (drop 8 bs)) |>
    <| i_addrs := words_of (Z.to_nat (NDIRECT + 1)) (drop 12 bs) |>.

Definition ilock (p : option Z) : K unit :=
  match p with
  | None => panic "ilock"
  | Some ip =>
      x ← i_at ip;
      if i_ref x <? 1 then panic "ilock"
      else
        acquiresleep (inode_lock ip) ;;;
        x ← i_at ip;
        when (i_valid x =? 0)
          (sb ← gets k_sb;
           bp ← bread (i_dev x) (IBLOCK (i_inum x) sb);
           d ← buf_data bp;
           x ← i_at ip;
           bs ← sub_bytes d (64 * (i_inum x mod IPB)) 64;
           i_set ip (load_dinode bs) ;;;
           brelse bp ;;;
           i_set ip (fun x => x <| i_valid := 1 |>) ;;;
           x ← i_at ip;
           when (i_type x =? 0) (panic "ilock: no type"))
  end.

Definition iunlock (p : option Z) : K unit :=
  match p with
  | None => panic "iunlock"
  | Some ip =>
      h ← holdingsleep (inode_lock ip);
      if negb h then panic "iunlock"
      else
        x ← i_at ip;
        if i_ref x <? 1 then panic "iunlock" else releasesleep (inode_lock ip)
  end.

(** ** Content *)

Definition bmap (ip bn : Z) : K Z :=
  x ← i_at ip;
  if bn <? NDIRECT then
    addr ← addr_at ip bn;
    if addr =? 0 then
      addr ← balloc (i_dev x);
      addr_set ip bn addr ;;;
      mret addr
    else mret addr
  else
    let bn := bn - NDIRECT in
    if bn <? NINDIRECT then
      addr ← addr_at ip NDIRECT;
      addr ← (if addr =? 0 then
                addr ← balloc (i_dev x);
                addr_set ip NDIRECT addr ;;;
                mret addr
              else mret addr);
      bp ← bread (i_dev x) addr;
      d ← buf_data bp;
      addr ← word_at d bn;
      addr ← (if addr =? 0 then
                addr ← balloc (i_dev x);
                put_word bp bn addr ;;;
                log_write bp ;;;
                mret addr
              else mret addr);
      brelse bp ;;;
      mret addr
    else panic "bmap: out of range".

Definition itrunc (ip : Z) : K unit :=
  each (Z.to_nat NDIRECT) 0 (fun i =>
    a ← addr_at ip i;
    when (negb (a =? 0))
      (x ← i_at ip; bfree (i_dev x) a ;;; addr_set ip i 0)) ;;;
  a ← addr_at ip NDIRECT;
  when (negb (a =? 0))
    (x ← i_at ip;
     bp ← bread (i_dev x) a;
     each (Z.to_nat NINDIRECT) 0 (fun j =>
       d ← buf_data bp;
       w ← word_at d j;
       when (negb (w =? 0)) (x ← i_at ip; bfree (i_dev x) w)) ;;;
     brelse bp ;;;
     x ← i_at ip;
     a ← addr_at ip NDIRECT;
     bfree (i_dev x) a ;;;
     addr_set ip NDIRECT 0) ;;;
  i_set ip (fun x => x <| i_size := 0 |>) ;;;
  iupdate ip.

Definition iput (ip : Z) : K unit :=
  acquiresleep (inode_lock ip) ;;;
  x ← i_at ip;
  when (negb (i_valid x =? 0) && (i_nlink x =? 0))
    (acquire icache_lock ;;;
     x ← i_at ip;
     let r := i_ref x in
     release icache_lock ;;;
     when (r =? 1)
       (itrunc ip ;;;
        i_set ip (fun x => x <| i_type := 0 |>) ;;;
        iupdate ip ;;;
        i_set ip (fun x => x <| i_valid := 0 |>))) ;;;
  releasesleep (inode_lock ip) ;;;
  acquire icache_lock ;;;
  i_set ip (fun x => x <| i_ref ::= fun n => n - 1 |>) ;;;
  release icache_lock.

Definition iunlockput (ip : Z) : K unit := iunlock (Some ip) ;;; iput ip.

(** Stored field by field; the padding of [struct stat] is left alone. *)
Definition put_mem (a : Z) (bs : list Z) : K unit := modify (fun k => k <| k_mem ::= mem_at a bs |>).
Definition stati (ip st : Z) : K unit :=
  x ← i_at ip;
  put_mem (st + 4) (le_bytes 4 (i_dev x)) ;;;
  put_mem (st + 8) (le_bytes 4 (i_inum x)) ;;;
  put_mem st (le_bytes 2 (i_type x)) ;;;
  put_mem (st + 12) (le_bytes 2 (i_nlink x)) ;;;
  put_mem (st + 16) (le_bytes 4 (i_size x)).
End fs.

(** Reading and changing an entry of the inode cache. *)
Lemma i_at_ok k ip x : aget (k_inode k) ip = Some x -> i_at ip k = Ret x k.
Proof. intros H. unfold i_at. mstep. by apply rd_Some. Qed.

Lemma i_set_ok k ip x f : aget (k_inode k) ip = Some x -> i_set ip f k = Ret tt (k <| k_inode ::= <[Z.to_nat ip := f x]> |>).
Proof. intros H. unfold i_set. run i_at_ok; [|done]. mstep. run wr_Some; [done|by eapply aget_lt]. Qed.

Lemma addr_at_ok k ip x i a : aget (k_inode k) ip = Some x -> aget (i_addrs x) i = Some a -> addr_at ip i k = Ret a k.
Proof. intros H Ha. unfold addr_at. run i_at_ok; [|done]. by apply rd_Some. Qed.
