(* ===== verification/Names.v ===== *)
(** * File content, directories and path names ([fs.c], continued) *)

From S2P Require Import Prelude State Spinlock CString Kalloc Console Vm Message Container Proc Syscall.
From S2P Require Import Sleeplock Bio Log Fs.
Open Scope Z_scope.

(** Bytes of memory. *)
Definition get_mem (a n : Z) : K (list Z) :=
  m ← gets k_mem; mret ((fun i => m (a + Z.of_nat i)) <$> seq 0 (Z.to_nat n)).

Section content.
Context {fuel : Fuel} {disk : BlockDev} {devs : DevOps}.

(** ** Reading and writing *)

(** Copies of at most a block; [put o bs] stores bytes at offset [o] of the
    destination, and the bytes are also the result. *)
Fixpoint read_loop (f : nat) (put : Z -> list Z -> K unit) (ip tot off n : Z) : K (list Z) :=
  match f with
  | O => fun _ => Diverge
  | S f' =>
      if tot <? n then
        x ← i_at ip;
        bno ← bmap ip (off / BSIZE);
        bp ← bread (i_dev x) bno;
        let m := Z.min (n - tot) (BSIZE - off mod BSIZE) in
        d ← buf_data bp;
        bs ← sub_bytes d (off mod BSIZE) m;
        put tot bs ;;;
        brelse bp ;;;
        rest ← read_loop f' put ip (tot + m) (off + m) n;
        mret (bs ++ rest)
      else mret []
  end.

(** Is there a device function for the major number? *)
Definition dev_installed (major : Z) : K bool :=
  if (major <? 0) || (NDEV <=? major) then mret false
  else d ← gets k_devsw; rd "devsw" d major.

Definition readi_gen (put : Z -> list Z -> K unit) (ip off n : Z) : K (Z * list Z) :=
  x ← i_at ip;
  if i_type x =? T_DEV then
    ok ← dev_installed (i_major x);
    if negb ok then mret (-1, []) else dev_read put ip (i32 n)
  else if (i_size x <? off) || (u32 (off + n) <? off) then mret (-1, [])
  else
    let n := if i_size x <? u32 (off + n) then i_size x - off else n in
    bs ← read_loop (Z.to_nat (n / BSIZE + 3)) put ip 0 off n;
    mret (i32 n, bs).

(** Into memory, and into a local variable of the caller. *)
Definition readi (ip dst off n : Z) : K Z :=
  r ← readi_gen (fun o bs => put_mem (dst + o) bs) ip off n; mret r.1.
Definition readi_local (ip off n : Z) : K (Z * list Z) := readi_gen (fun _ _ => mret tt) ip off n.

Fixpoint write_loop (f : nat) (src : Z -> Z -> K (list Z)) (ip tot off n : Z) : K Z :=
  match f with
  | O => fun _ => Diverge
  | S f' =>
      if tot <? n then
        x ← i_at ip;
        bno ← bmap ip (off / BSIZE);
        bp ← bread (i_dev x) bno;
        let m := Z.min (n - tot) (BSIZE - off mod BSIZE) in
        bs ← src tot m;
        buf_put bp (off mod BSIZE) bs ;;;
        log_write bp ;;;
        brelse bp ;;;
        write_loop f' src ip (tot + m) (off + m) n
      else mret off
  end.

Definition writei_gen (src : Z -> Z -> K (list Z)) (ip off n : Z) : K Z :=
  x ← i_at ip;
  if i_type x =? T_DEV then
    ok ← dev_installed (i_major x);
    if negb ok then mret (-1) else dev_write src ip (i32 n)
  else if (i_size x <? off) || (u32 (off + n) <? off) then mret (-1)
  else if MAXFILE * BSIZE <? u32 (off + n) then mret (-1)
  else
    off ← write_loop (Z.to_nat (n / BSIZE + 3)) src ip 0 off n;
    x ← i_at ip;
    when ((0 <? n) && (i_size x <? off))
      (i_set ip (fun x => x <| i_size := off |>) ;;; iupdate ip) ;;;
    mret (i32 n).

Definition writei (ip src off n : Z) : K Z := writei_gen (fun o m => get_mem (src + o) m) ip off n.
Definition writei_local (ip : Z) (bs : list Z) (off : Z) : K Z :=
  writei_gen (fun o m => sub_bytes bs o m) ip off (alen bs).

(** ** Directories *)

(** [strncmp] of two names, as many bytes as they have up to [DIRSIZ]. *)
Fixpoint namecmp_loop (n : nat) (s t : list Z) : Z :=
  match n with
  | O => 0
  | S n' =>
      let p := default 0 (s !! 0%nat) in
      let q := default 0 (t !! 0%nat) in
      if negb (p =? 0) && (p =? q) then namecmp_loop n' (tail s) (tail t) else p - q
  end.
Definition namecmp (s t : list Z) : Z := namecmp_loop (Z.to_nat DIRSIZ) s t.

(** Sixteen bytes of [struct dirent]: the inode number and the name. *)
Definition DIRENT : Z := 16.
Definition de_inum (de : list Z) : Z := of_le (take 2 de).
Definition de_name (de : list Z) : list Z := drop 2 de.

(** Entries from [off] on, the first for which [f] has an answer. *)
Fixpoint dir_scan {A} (n : nat) (why : string) (f : Z -> list Z -> option A) (dp off : Z) : K (option A * Z) :=
  match n with
  | O => fun _ => Diverge
  | S n' =>
      x ← i_at dp;
      if off <? i_size x then
        r ← readi_local dp off DIRENT;
        if negb (r.1 =? DIRENT) then panic why
        else
          match f off r.2 with
          | Some a => mret (Some a, off)
          | None => dir_scan n' why f dp (off + DIRENT)
          end
      else mret (None, off)
  end.
Definition dir_fuel (x : inode) : nat := Z.to_nat (i_size x / DIRENT + 2).

(** The inode and the offset of the entry. *)
Definition dirlookup (dp : Z) (name : list Z) : K (option (Z * Z)) :=
  x ← i_at dp;
  if negb (i_type x =? T_DIR) then panic "dirlookup not DIR"
  else
    r ← dir_scan (dir_fuel x) "dirlookup read"
          (fun off de => if de_inum de =? 0 then None
                         else if namecmp name (de_name de) =? 0 then Some (off, de_inum de) else None) dp 0;
    match r.1 with
    | Some (off, inum) => x ← i_at dp; ip ← iget (i_dev x) inum; mret (Some (ip, off))
    | None => mret None
    end.

(** [strncpy(de.name, name, DIRSIZ)] *)
Fixpoint pad_name (n : nat) (s : list Z) : list Z :=
  match n with
  | O => []
  | S n' => match s with
            | [] => 0 :: pad_name n' []
            | c :: s' => if c =? 0 then replicate n 0 else c :: pad_name n' s'
            end
  end.

Definition dirlink (dp : Z) (name : list Z) (inum : Z) : K Z :=
  r ← dirlookup dp name;
  match r with
  | Some (ip, _) => iput ip ;;; mret (-1)
  | None =>
      x ← i_at dp;
      r ← dir_scan (dir_fuel x) "dirlink read"
            (fun off de => if de_inum de =? 0 then Some tt else None) dp 0;
      let de := le_bytes 2 inum ++ pad_name (Z.to_nat DIRSIZ) name in
      w ← writei_local dp de r.2;
      if negb (w =? DIRENT) then panic "dirlink" else mret 0
  end.

(** ** Paths *)

Definition SLASH : Z := 47.

(** [while (p holds of *path) path++], [n] bytes at most. *)
Fixpoint skip_while (n : nat) (p : Z -> bool) (m : mem) (path : Z) : Z :=
  match n with
  | O => path
  | S n' => if p (m path) then skip_while n' p m (path + 1) else path
  end.

(** The rest of the path and the new content of [name], whose bytes after the
    terminating NUL stay what they were; [n] is the length of the path. *)
Definition skipelem (n : nat) (m : mem) (path : Z) (name : list Z) : option (Z * list Z) :=
  let s := skip_while n (fun c => c =? SLASH) m path in
  if m s =? 0 then None
  else
    let e := skip_while n (fun c => negb (c =? SLASH) && negb (c =? 0)) m s in
    let len := e - s in
    let elem := (fun i => m (s + Z.of_nat i)) <$> seq 0 (Z.to_nat (Z.min len DIRSIZ)) in
    let name' := if DIRSIZ <=? len then elem else elem ++ 0 :: drop (Z.to_nat len + 1) name in
    Some (skip_while n (fun c => c =? SLASH) m e, name').

(** [src] is where the path is read from: the current memory, or the constant
    string of the caller. *)
Fixpoint namex_loop (n : nat) (src : K mem) (parent : bool) (ip path : Z) (name : list Z) : K (option (Z * list Z)) :=
  match n with
  | O => fun _ => Diverge
  | S n' =>
      m ← src;
      match skipelem n m path name with
      | None => if parent then iput ip ;;; mret None else mret (Some (ip, name))
      | Some (path, name) =>
          ilock (Some ip) ;;;
          x ← i_at ip;
          if negb (i_type x =? T_DIR) then iunlockput ip ;;; mret None
          else
            m ← src;
            if parent && (m path =? 0) then iunlock (Some ip) ;;; mret (Some (ip, name))
            else
              next ← dirlookup ip name;
              match next with
              | None => iunlockput ip ;;; mret None
              | Some (next, _) => iunlockput ip ;;; namex_loop n' src parent next path name
              end
      end
  end.

Definition namex (src : K mem) (path : Z) (parent : bool) : K (option (Z * list Z)) :=
  m ← src;
  ip ← (if m path =? SLASH then iget ROOTDEV ROOTINO
        else p ← me; cwd ← deref_ip (p_cwd p); idup cwd);
  match strlen m path with
  | None => fault "strlen"
  | Some n => namex_loop (S (Z.to_nat n)) src parent ip path (replicate (Z.to_nat DIRSIZ) 0)
  end.

Definition namei (path : Z) : K (option Z) :=
  r ← namex (gets k_mem) path false; mret (fst <$> r).
Definition nameiparent (path : Z) : K (option (Z * list Z)) := namex (gets k_mem) path true.
(** The path is a string constant. *)
Definition namei_const (s : list Z) : K (option Z) :=
  r ← namex (mret (mem_at 0 (s ++ [0]) (fun _ => 0))) 0 false; mret (fst <$> r).
End content.
