(* ===== verification/Content.v ===== *)
(** * The content of files ([fs.c])

    [bmap], [readi] and [writei] over the cache and the log.  The file is an
    array of bytes; [file_write_atomic] is what a system call that writes does:
    [begin_op], [writei] and [end_op] change exactly the bytes written, survive a
    crash as all or nothing, and the bytes are read back. *)

From S2P Require Import Prelude State Spinlock CString Kalloc Console Vm Message Container Proc Syscall.
From S2P Require Import Sleeplock Bio Cache Blocks Log Words Journal Commit Transact Fs Names.
Open Scope Z_scope.

(** ** Looking at blocks *)

(** Process [i] holds no buffer, and only the blocks [l] wait for the commit. *)
Record idle (k : kernel) (i : nat) (p : proc) (l : list Z) : Prop := {
  id_ctx : fsctx k i p;
  id_hold : holding k (p_pid p) [];
  id_dirty : forall m, dirty k m -> m ∈ l;
  id_room : alen l < NBUF }.

(** From [k] to [k'] blocks were looked at: nothing changed but buffers, locks
    and memory. *)
Record looked (i : nat) (p : proc) (k k' : kernel) : Prop := {
  lk_ctx : fsctx k' i p;
  lk_hold : holding k' (p_pid p) [];
  lk_blk : forall m, blk k' m = blk k m;
  lk_dirty : forall m, dirty k' m <-> dirty k m;
  lk_disk : k_disk k' = k_disk k;
  lk_trace : k_dtrace k' = k_dtrace k;
  lk_log : k_log k' = k_log k;
  lk_locks : forall lk, lock_free lk (k_mach k) -> lock_free lk (k_mach k');
  lk_inode : k_inode k' = k_inode k;
  lk_sb : k_sb k' = k_sb k }.

Section look.
Context {fuel : Fuel} {disk : BlockDev} {laws : DiskLaws disk}.
Context (i : nat) (p : proc).
Implicit Types (k : kernel) (n b m s sz : Z) (l : list Z).

Lemma looked_refl k l : idle k i p l -> looked i p k k.
Proof. intros [H1 H2 _ _]. by split. Qed.

Lemma looked_trans k1 k2 k3 : looked i p k1 k2 -> looked i p k2 k3 -> looked i p k1 k3.
Proof.
  intros [A1 A2 A3 A4 A5 A6 A7 A8 A9 A10] [B1 B2 B3 B4 B5 B6 B7 B8 B9 B10]. split; try done; try congruence.
  - intros m. by rewrite B4, A4.
  - auto.
Qed.

Lemma looked_idle k k' l : idle k i p l -> looked i p k k' -> idle k' i p l.
Proof. intros [H1 H2 H3 H4] L. split; [apply L|apply L| |done]. intros m Hm. apply H3. by apply (lk_dirty _ _ _ _ L). Qed.

Lemma looked_pending k k' s sz l : pending k i p s sz l -> looked i p k k' -> pending k' i p s sz l.
Proof.
  intros [C1 C2 [? ? ? ? ?] C4 C5 C6 C7 C8] L. split; rewrite ?(lk_disk _ _ _ _ L); try done; try apply L.
  - split; by rewrite (lk_log _ _ _ _ L).
  - intros m. by rewrite (lk_dirty _ _ _ _ L).
Qed.

Lemma looked_active k k' s sz l : active k i p s sz l -> looked i p k k' -> active k' i p s sz l.
Proof.
  intros [H1 H2 H3 H4 H5 H6] L. split; rewrite ?(lk_log _ _ _ _ L); try done; [by eapply looked_pending|by apply (lk_locks _ _ _ _ L)].
Qed.

Lemma pending_idle k s sz l : pending k i p s sz l -> idle k i p l.
Proof. intros [C1 C2 _ _ C5 C6 _ _]. split; try done. intros m. by rewrite C6. Qed.

(** A change of memory is not seen by the cache. *)
Lemma fsctx_mem k (m : mem) : fsctx k i p -> fsctx (k <| k_mem := m |>) i p.
Proof. intros [[? ? ?] ? ? ? ? ?]. by split. Qed.

(** Taking block [n], using its content, and giving it back. *)
Lemma visit k l n : (0 < wakeups)%nat -> idle k i p l -> 0 <= n < alen (k_disk k) ->
  exists b k1, bread 1 n k = Ret b k1 /\ buf_data b k1 = Ret (blk k n) k1 /\ k_mem k1 = k_mem k /\ k_inode k1 = k_inode k /\
    forall m : mem, exists k2, brelse b (k1 <| k_mem := m |>) = Ret tt k2 /\ looked i p k k2 /\ k_mem k2 = m.
Proof.
  intros Hf [Hctx Hh Hd Hl] Hn. destruct (bread_idle k i p l n) as (b & k1 & E1 & S1 & Hh1 & T1 & C1); [done..|].
  pose proof (tk_where _ _ _ _ T1) as Hw. pose proof (where_Some _ _ _ Hw) as [Hb _]. pose proof (bstep_above _ _ S1) as Ha. injection Ha as Ha1 Ha2 Ha3.
  exists b, k1. split_and!; [done| |done|done|].
  - unfold buf_data. run buf_at_ok; [|apply Hh1|lia]. fold (bf k1 b). rewrite <- (tk_blk _ _ _ _ T1). unfold blk. by rewrite Hw.
  - intros m. set (k1' := k1 <| k_mem := m |>). assert (Hsc : same_cache k1 k1') by done.
    destruct (same_cache_view _ _ Hsc) as (V1 & V2 & V3 & V4).
    destruct (brelse_view k1' i p [] n b) as (k2 & E2 & S2 & Hh2 & W2).
    { by apply fsctx_mem. } { by apply V1. } { by rewrite V2. } { apply not_elem_of_nil. }
    { intros Hnd. rewrite V3, (tk_blk _ _ _ _ T1). rewrite V4, (tk_dirty _ _ _ _ T1) in Hnd.
      rewrite (idle_clean _ _ _ Hh Hnd). unfold block, at_. change (k_disk k1') with (k_disk k1). by rewrite (tk_disk _ _ _ _ T1). }
    pose proof (bstep_above _ _ S2) as Hb2. injection Hb2 as Hb1 Hb2 Hb3. exists k2. split_and!; [done| |done].
    split; try done.
    + eapply fsctx_bstep; [|exact S2]. by apply fsctx_mem.
    + intros x. by rewrite (sv_blk _ _ W2), V3, (tk_blk _ _ _ _ T1).
    + intros x. by rewrite (sv_dirty _ _ W2), V4, (tk_dirty _ _ _ _ T1).
    + rewrite (sv_disk _ _ W2). apply (tk_disk _ _ _ _ T1).
    + rewrite (sv_trace _ _ W2). apply (tk_trace _ _ _ _ T1).
    + rewrite (bstep_log _ _ S2). apply (bstep_log _ _ S1).
    + intros lk Hlk. eapply lock_free_bstep; [exact S2|]. by eapply (lock_free_bstep k k1).
    + rewrite Hb1. exact Ha1.
    + rewrite Hb3. exact Ha3.
Qed.
End look.

(** ** The blocks of a file *)

(** The number of block [bn] of the file with inode [x]; the numbers after the
    first twelve are in the indirect block. *)
Definition indirect (x : inode) : Z := default 0 (aget (i_addrs x) NDIRECT).
Definition bno (k : kernel) (x : inode) (bn : Z) : Z :=
  if bn <? NDIRECT then default 0 (aget (i_addrs x) bn)
  else wd (blk k (indirect x)) (bn - NDIRECT).

(** Byte [j] of the file. *)
Definition fbyte (k : kernel) (x : inode) (j : Z) : Z := default 0 (aget (blk k (bno k x (j / BSIZE))) (j mod BSIZE)).

(** The first [nb] blocks of the file are allocated: they are blocks of the disk,
    all different, and none of them is the indirect block. *)
Record mapped (k : kernel) (x : inode) (nb : Z) : Prop := {
  mp_dev : i_dev x = 1;
  mp_addrs : alen (i_addrs x) = NDIRECT + 1;
  mp_max : 0 <= nb <= MAXFILE;
  mp_block : forall bn, 0 <= bn < nb -> 0 < bno k x bn < alen (k_disk k);
  mp_indirect : NDIRECT < nb -> 0 < indirect x < alen (k_disk k) /\ forall bn, 0 <= bn < nb -> bno k x bn <> indirect x;
  mp_inj : forall bn bn', 0 <= bn < nb -> 0 <= bn' < nb -> bno k x bn = bno k x bn' -> bn = bn' }.

Section blocks.
Context {fuel : Fuel} {disk : BlockDev} {laws : DiskLaws disk}.
Context (i : nat) (p : proc).
Implicit Types (k : kernel) (n b s sz bn nb j off tot : Z) (l : list Z) (x : inode).

Lemma looked_bno k k' x bn : looked i p k k' -> bno k' x bn = bno k x bn.
Proof. intros L. unfold bno. by rewrite (lk_blk _ _ _ _ L). Qed.
Lemma looked_fbyte k k' x j : looked i p k k' -> fbyte k' x j = fbyte k x j.
Proof. intros L. unfold fbyte. by rewrite (looked_bno _ _ _ _ L), (lk_blk _ _ _ _ L). Qed.

Lemma looked_mapped k k' x nb : looked i p k k' -> mapped k x nb -> mapped k' x nb.
Proof.
  intros L [H1 H2 H3 H4 H5 H6]. split; rewrite ?(lk_disk _ _ _ _ L); try done.
  - intros bn. rewrite (looked_bno _ _ _ _ L). apply H4.
  - intros Hn. destruct (H5 Hn) as [? Hi]. split; [done|]. intros bn. rewrite (looked_bno _ _ _ _ L). apply Hi.
  - intros bn bn'. rewrite !(looked_bno _ _ _ _ L). apply H6.
Qed.

Lemma bmap_ok k l ip x nb bn : (0 < wakeups)%nat -> idle k i p l -> aget (k_inode k) ip = Some x -> mapped k x nb -> 0 <= bn < nb ->
  exists k', bmap ip bn k = Ret (bno k x bn) k' /\ looked i p k k' /\ k_mem k' = k_mem k.
Proof.
  intros Hf Hi Hx [Hdev Hlen Hmax Hblk Hind _] Hbn. pose proof (Hblk bn Hbn) as Hb. unfold bmap. run i_at_ok; [|done]. unfold bno in *.
  destruct (Z.ltb_spec bn NDIRECT) as [Hlt|Hge].
  - destruct (aget_is_Some (i_addrs x) bn) as [a Ha]; [lia|]. rewrite Ha in *. change (default 0 (Some a)) with a in *. run addr_at_ok; [|done..].
    destruct (Z.eqb_spec a 0); [lia|]. exists k. split; [done|]. split; [by eapply looked_refl|done].
  - unfold MAXFILE in Hmax. destruct (Z.ltb_spec (bn - NDIRECT) NINDIRECT); [|lia]. destruct (Hind ltac:(lia)) as [Hi1 _]. unfold indirect in *.
    destruct (aget_is_Some (i_addrs x) NDIRECT) as [a Ha]; [unfold NDIRECT in *; lia|]. rewrite Ha in *. change (default 0 (Some a)) with a in *. run addr_at_ok; [|done..].
    destruct (Z.eqb_spec a 0); [lia|]. mstep. rewrite Hdev. destruct (visit i p k l a Hf Hi) as (b & k1 & E1 & E2 & Em & En & E3); [lia|]. run E1. run E2.
    destruct (E3 (k_mem k1)) as (k2 & E4 & L & Em2). assert (Hk1 : k1 <| k_mem := k_mem k1 |> = k1) by (by destruct k1). rewrite Hk1 in E4.
    pose proof (blk_length k _ a (hd_cache _ _ _ (id_hold _ _ _ _ Hi)) ltac:(lia)) as Hbl. unfold NINDIRECT, BSIZE in *. change (512 / 4) with 128 in *.
    run word_at_ok; [|lia|rewrite Hbl; lia]. destruct (Z.eqb_spec (wd (blk k a) (bn - NDIRECT)) 0); [lia|]. mstep. run E4.
    exists k2. split; [done|]. split; [done|]. by rewrite Em2, Em.
Qed.
End blocks.

(** ** Reading *)

Lemma fbyte_at k x off t : 0 <= off -> 0 <= t -> off mod BSIZE + t < BSIZE ->
  fbyte k x (off + t) = default 0 (aget (blk k (bno k x (off / BSIZE))) (off mod BSIZE + t)).
Proof.
  intros Ho Ht Hm. unfold fbyte, BSIZE in *. replace ((off + t) / 512) with (off / 512) by dlia. by replace ((off + t) mod 512) with (off mod 512 + t) by dlia.
Qed.

(** How many blocks the [n] bytes from [off] are spread over. *)
Definition rounds (off n : Z) : Z := if n <=? 0 then 0 else (off + n - 1) / BSIZE - off / BSIZE + 1.

(** The bytes handled in one round. *)
Definition chunk (off n : Z) : Z := Z.min n (BSIZE - off mod BSIZE).

Lemma rounds_step off n : 0 <= off -> 0 < n -> 0 < chunk off n <= n /\ off mod BSIZE + chunk off n <= BSIZE /\
  rounds off n = 1 + rounds (off + chunk off n) (n - chunk off n).
Proof.
  intros Ho Hn. unfold chunk, rounds, BSIZE. destruct (Z.leb_spec n 0); [lia|]. split_and!; [dlia..|].
  destruct (Z.min_spec n (512 - off mod 512)) as [[Hm ->]|[Hm ->]].
  - rewrite Z.sub_diag. cbn. dlia.
  - destruct (Z.leb_spec (n - (512 - off mod 512)) 0); dlia.
Qed.

Lemma rounds_bound off n : 0 <= off -> 0 <= n -> 0 <= rounds off n <= n / BSIZE + 2.
Proof. intros Ho Hn. unfold rounds, BSIZE. destruct (Z.leb_spec n 0); dlia. Qed.

Section read.
Context {fuel : Fuel} {disk : BlockDev} {laws : DiskLaws disk}.
Context (i : nat) (p : proc) (ip : Z) (x : inode) (nb : Z) (Hf : (0 < wakeups)%nat).
Implicit Types (k : kernel) (off tot n : Z) (l : list Z).

(** One round: the block with the offset, and the bytes of it that are asked for. *)
Lemma read_chunk k l off n : idle k i p l -> mapped k x nb -> 0 <= off -> 0 < n -> off + n <= nb * BSIZE ->
  (forall k', sub_bytes (blk k (bno k x (off / BSIZE))) (off mod BSIZE) (chunk off n) k' =
     Ret (slice (blk k (bno k x (off / BSIZE))) (off mod BSIZE) (chunk off n)) k') /\
  0 <= off / BSIZE < nb.
Proof.
  intros Hi Hm Ho Hn Hle. destruct (rounds_step off n Ho Hn) as (H1 & H2 & _).
  assert (Hb : 0 <= off / BSIZE < nb) by (unfold BSIZE in *; dlia). split; [|done].
  pose proof (mp_block _ _ _ Hm _ Hb) as Hbn. pose proof (blk_length k _ (bno k x (off / BSIZE)) (hd_cache _ _ _ (id_hold _ _ _ _ Hi)) ltac:(lia)) as Hl.
  intros k'. pose proof (Z.mod_pos_bound off BSIZE ltac:(done)). apply sub_bytes_ok; lia.
Qed.

Lemma read_loop_ok dst n : forall f tot off k l,
  idle k i p l -> aget (k_inode k) ip = Some x -> mapped k x nb -> 0 <= tot <= n -> 0 <= off -> off + (n - tot) <= nb * BSIZE ->
  rounds off (n - tot) < Z.of_nat f ->
  exists bs k', read_loop f (fun o bs => put_mem (dst + o) bs) ip tot off n k = Ret bs k' /\ looked i p k k' /\
    forall a, k_mem k' a = if within (dst + tot) (n - tot) a then fbyte k x (off + (a - (dst + tot))) else k_mem k a.
Proof.
  induction f as [|f IH]; intros tot off k l Hi Hx Hm Ht Ho Hle Hr; [pose proof (rounds_bound off (n - tot) Ho ltac:(lia)); lia|].
  cbn [read_loop]. destruct (Z.ltb_spec tot n) as [Hlt|Hge].
  2:{ exists [], k. split; [done|]. split; [by eapply looked_refl|]. intros a. by rewrite within_false by lia. }
  destruct (rounds_step off (n - tot)) as (Hc1 & Hc2 & Hc3); [lia..|]. destruct (read_chunk k l off (n - tot)) as [Hsub Hbn]; [done..|lia|lia|].
  run i_at_ok; [|exact Hx]. destruct (bmap_ok i p k l ip x nb (off / BSIZE)) as (k0 & E0 & L0 & M0); [done..|]. run E0. rewrite (mp_dev _ _ _ Hm).
  pose proof (mp_block _ _ _ Hm _ Hbn) as Hbno. destruct (visit i p k0 l (bno k x (off / BSIZE))) as (b & k1 & E1 & E2 & M1 & N1 & E3); [done|by eapply looked_idle|rewrite (lk_disk _ _ _ _ L0); lia|].
  rewrite (lk_blk _ _ _ _ L0) in E2. run E1. change (Z.min (n - tot) (BSIZE - off mod BSIZE)) with (chunk off (n - tot)). run E2. run Hsub. set (c := chunk off (n - tot)) in *.
  set (bs := slice _ _ _). mstep. destruct (E3 (mem_at (dst + tot) bs (k_mem k1))) as (k2 & E4 & L2 & M2). run E4.
  pose proof (looked_trans _ _ _ _ _ L0 L2) as L02.
  destruct (IH (tot + c) (off + c) k2 l) as (rest & k3 & E5 & L3 & M3); [by eapply looked_idle|by rewrite (lk_inode _ _ _ _ L02)|by eapply looked_mapped|lia|lia|lia| |].
  { replace (n - (tot + c)) with (n - tot - c) by lia. lia. }
  run E5. exists (bs ++ rest), k3. split; [done|]. split; [by eapply looked_trans|]. intros a. rewrite M3, M2. rewrite (looked_fbyte i p k k2) by done.
  assert (Hbl : alen bs = c).
  { subst bs. unfold slice, alen. rewrite length_take, length_drop. pose proof (blk_length k _ (bno k x (off / BSIZE)) (hd_cache _ _ _ (id_hold _ _ _ _ Hi)) ltac:(lia)) as Hl. unfold alen in Hl. pose proof (Z.mod_pos_bound off BSIZE ltac:(done)). lia. }
  destruct (within_spec (dst + (tot + c)) (n - (tot + c)) a); [rewrite within_true by lia; f_equal; lia|]. unfold mem_at. rewrite Hbl.
  destruct (within_spec (dst + tot) c a) as [Hin|Hout].
  - rewrite within_true by lia. unfold bs. rewrite aget_slice by (lia || apply Z.mod_pos_bound; done). symmetry. apply fbyte_at; lia.
  - rewrite within_false by lia. by rewrite M1, M0.
Qed.
End read.

(** ** Writing *)

(** The file does not change when its blocks do not. *)
Lemma same_file (k k' : kernel) (x : inode) (nb : Z) :
  mapped k x nb -> alen (k_disk k') = alen (k_disk k) -> (forall bn, 0 <= bn < nb -> blk k' (bno k x bn) = blk k (bno k x bn)) ->
  (NDIRECT < nb -> blk k' (indirect x) = blk k (indirect x)) ->
  mapped k' x nb /\ (forall bn, 0 <= bn < nb -> bno k' x bn = bno k x bn) /\ forall j, 0 <= j < nb * BSIZE -> fbyte k' x j = fbyte k x j.
Proof.
  intros Hm Hd Hb Hi. assert (Hbn : forall bn, 0 <= bn < nb -> bno k' x bn = bno k x bn).
  { intros bn H. unfold bno. destruct (Z.ltb_spec bn NDIRECT); [done|]. by rewrite Hi by lia. }
  split_and!; [|done|].
  - pose proof Hm as [H1 H2 H3 H4 H5 H6]. split; rewrite ?Hd; try done.
    + intros bn H. rewrite Hbn by done. by apply H4.
    + intros Hn. destruct (H5 Hn) as [? H]. split; [done|]. intros bn Hb'. rewrite Hbn by done. by apply H.
    + intros bn bn' H H'. rewrite !Hbn by done. by apply H6.
  - intros j Hj. assert (0 <= j / BSIZE < nb) by (unfold BSIZE in *; dlia). unfold fbyte. by rewrite Hbn, Hb by done.
Qed.

Section write.
Context {fuel : Fuel} {disk : BlockDev} {laws : DiskLaws disk}.
Context (i : nat) (p : proc) (s sz : Z) (Hf : (0 < wakeups)%nat).
Implicit Types (k : kernel) (n b off tot o m : Z) (l bs : list Z) (x : inode).

(** One update of part of block [n], as its steps in the code. *)
Lemma patch_ok k l n o bs :
  active k i p s sz l -> 0 <= n < alen (k_disk k) -> ~ area s sz n -> 0 <= o -> o + alen bs <= BSIZE -> alen l < sz - 1 ->
  exists b k1 k2 k3 k', bread 1 n k = Ret b k1 /\ k_mem k1 = k_mem k /\ k_inode k1 = k_inode k /\ buf_put b o bs k1 = Ret tt k2 /\
    log_write b k2 = Ret tt k3 /\ brelse b k3 = Ret tt k' /\ active k' i p s sz (absorbed n l) /\
    k_disk k' = k_disk k /\ k_dtrace k' = k_dtrace k /\ above k' = above k /\
    forall m, blk k' m = if m =? n then splice (blk k n) o bs else blk k m.
Proof.
  intros Ha Hn Hna Ho Hl Hr. pose proof (pending_idle _ _ _ _ _ _ (ac_pending _ _ _ _ _ _ Ha)) as Hi.
  pose proof (blk_length k _ n (hd_cache _ _ _ (id_hold _ _ _ _ Hi)) Hn) as Hbl.
  destruct (visit i p k l n Hf Hi Hn) as (b & k1 & E1 & E2 & M1 & N1 & _).
  destruct (txn_write_ok k i p s sz l n (splice (blk k n) o bs)) as (k' & E & A & D & T & Ab & B); [done..|by rewrite splice_length by lia|done|].
  unfold txn_write in E. rewrite (bind_Ret _ _ _ _ _ E1) in E. apply bind_inv in E as ([] & k2 & Es & E). apply bind_inv in E as ([] & k3 & El & E).
  exists b, k1, k2, k3, k'. split_and!; try done. unfold buf_put. run E2.
  by run put_bytes_ok; [|lia..].
Qed.

Definition off_log k x nb : Prop := forall bn, 0 <= bn < nb -> ~ area s sz (bno k x bn).

(** Blocks that are not the file's are unchanged. *)
Definition file_only k k' x nb : Prop := forall m, (forall bn, 0 <= bn < nb -> m <> bno k x bn) -> blk k' m = blk k m.

Lemma file_only_bno k k' x nb bn : mapped k x nb -> file_only k k' x nb -> 0 <= bn < nb -> bno k' x bn = bno k x bn.
Proof.
  intros Hm Hfo Hbn. unfold bno. destruct (Z.ltb_spec bn NDIRECT) as [|Hge]; [done|]. rewrite Hfo; [done|].
  intros bn' Hbn' E. destruct (mp_indirect _ _ _ Hm ltac:(lia)) as [_ H]. by apply (H bn').
Qed.

Lemma file_only_mapped k k' x nb : mapped k x nb -> file_only k k' x nb -> k_disk k' = k_disk k -> mapped k' x nb.
Proof.
  intros Hm Hfo Hd. pose proof Hm as [H1 H2 H3 H4 H5 H6]. split; rewrite ?Hd; try done.
  - intros bn Hbn. rewrite (file_only_bno k k' x nb bn) by done. by apply H4.
  - intros Hn. destruct (H5 Hn) as [? H]. split; [done|]. intros bn Hbn. rewrite (file_only_bno k k' x nb bn) by done. by apply H.
  - intros bn bn' Hbn Hbn'. rewrite (file_only_bno k k' x nb bn), (file_only_bno k k' x nb bn') by done. by apply H6.
Qed.

Lemma file_only_trans k1 k2 k3 x nb : mapped k1 x nb -> file_only k1 k2 x nb -> file_only k2 k3 x nb -> file_only k1 k3 x nb.
Proof.
  intros Hm H1 H2 m Hne. rewrite H2; [by apply H1|]. intros bn Hbn. rewrite (file_only_bno k1 k2 x nb bn) by done. by apply Hne.
Qed.

(** One round of the loop: the file after the bytes [bs] are stored at [off]. *)
Lemma patched_file k k' x nb off bs :
  mapped k x nb -> 0 <= off -> off mod BSIZE + alen bs <= BSIZE -> 0 <= off / BSIZE < nb -> alen (blk k (bno k x (off / BSIZE))) = BSIZE ->
  (forall m, blk k' m = if m =? bno k x (off / BSIZE) then splice (blk k (bno k x (off / BSIZE))) (off mod BSIZE) bs else blk k m) ->
  file_only k k' x nb /\
  forall j, 0 <= j < nb * BSIZE -> fbyte k' x j = if within off (alen bs) j then default 0 (aget bs (j - off)) else fbyte k x j.
Proof.
  intros Hm Ho Hfit Hbn Hlen Hb. assert (Hfo : file_only k k' x nb).
  { intros m Hne. rewrite Hb. destruct (Z.eqb_spec m (bno k x (off / BSIZE))) as [E|]; [by apply Hne in E|done]. }
  split; [done|]. intros j Hj. assert (Hjb : 0 <= j / BSIZE < nb) by (unfold BSIZE in *; dlia).
  pose proof (Z.mod_pos_bound off BSIZE ltac:(done)) as Ho1. pose proof (Z.mod_pos_bound j BSIZE ltac:(done)) as Hj1. pose proof (alen_nonneg bs) as Hbs.
  unfold fbyte. rewrite (file_only_bno k k' x nb) by done. rewrite Hb. destruct (Z.eqb_spec (bno k x (j / BSIZE)) (bno k x (off / BSIZE))) as [E|Hne].
  - apply (mp_inj _ _ _ Hm) in E; [|done..]. rewrite aget_splice by lia. rewrite E. unfold BSIZE in *.
    case_decide; [rewrite within_true by dlia; do 2 f_equal; dlia|by rewrite within_false by dlia].
  - rewrite within_false; [done|]. intros Hin. apply Hne. f_equal. unfold BSIZE in *. dlia.
Qed.

Lemma get_mem_ok k a m : 0 <= m -> exists bs, get_mem a m k = Ret bs k /\ alen bs = m /\ forall t, 0 <= t < m -> aget bs t = Some (k_mem k (a + t)).
Proof.
  intros Hm. eexists. split; [unfold get_mem; by mstep|]. split; [unfold alen; rewrite length_fmap, length_seq; lia|].
  intros t Ht. unfold aget. rewrite (proj2 (Z.leb_le 0 t)) by lia. rewrite list_lookup_fmap, lookup_seq_lt by lia. cbn. do 3 f_equal. lia.
Qed.

Lemma write_loop_ok ip x nb src n : forall f tot off k l,
  active k i p s sz l -> aget (k_inode k) ip = Some x -> mapped k x nb -> off_log k x nb -> 0 <= tot <= n -> 0 <= off ->
  off + (n - tot) <= nb * BSIZE -> rounds off (n - tot) < Z.of_nat f -> alen l + rounds off (n - tot) <= sz - 1 ->
  exists k' l', write_loop f (fun o m => get_mem (src + o) m) ip tot off n k = Ret (off + (n - tot)) k' /\ active k' i p s sz l' /\
    alen l' <= alen l + rounds off (n - tot) /\ k_disk k' = k_disk k /\ k_dtrace k' = k_dtrace k /\ above k' = above k /\ file_only k k' x nb /\
    forall j, 0 <= j < nb * BSIZE -> fbyte k' x j = if within off (n - tot) j then k_mem k (src + tot + (j - off)) else fbyte k x j.
Proof.
  induction f as [|f IH]; intros tot off k l Ha Hx Hm Hna Ht Ho Hle Hr Hlog; [pose proof (rounds_bound off (n - tot) Ho ltac:(lia)); lia|].
  cbn [write_loop]. destruct (Z.ltb_spec tot n) as [Hlt|Hge].
  2:{ exists k, l. assert (n - tot = 0) as -> by lia. split; [by rewrite Z.add_0_r|]. split_and!; try done; [unfold rounds; cbn; lia|]. intros j Hj. by rewrite within_false by lia. }
  destruct (rounds_step off (n - tot)) as (Hc1 & Hc2 & Hc3); [lia..|]. pose proof (pending_idle _ _ _ _ _ _ (ac_pending _ _ _ _ _ _ Ha)) as Hi.
  destruct (read_chunk i p x nb Hf k l off (n - tot) Hi Hm) as [_ Hbn]; [lia..|]. pose proof (mp_block _ _ _ Hm _ Hbn) as Hbno.
  run i_at_ok; [|exact Hx]. destruct (bmap_ok i p k l ip x nb (off / BSIZE)) as (k0 & E0 & L0 & M0); [done..|]. run E0. rewrite (mp_dev _ _ _ Hm).
  change (Z.min (n - tot) (BSIZE - off mod BSIZE)) with (chunk off (n - tot)). set (c := chunk off (n - tot)) in *.
  destruct (get_mem_ok k0 (src + tot) c) as (bs & _ & Hbl & Hbs); [lia|].
  pose proof (rounds_bound (off + c) (n - tot - c) ltac:(lia) ltac:(lia)) as Hrb.
  destruct (patch_ok k0 l (bno k x (off / BSIZE)) (off mod BSIZE) bs) as (b & k1 & k2 & k3 & k4 & E1 & M1 & N1 & E2 & E3 & E4 & A4 & D4 & T4 & Ab4 & B4);
    [by eapply looked_active|rewrite (lk_disk _ _ _ _ L0); lia|by apply Hna|by apply Z.mod_pos_bound|lia|lia|].
  destruct (get_mem_ok k1 (src + tot) c) as (bs' & Eg & Hbl' & Hbs'); [lia|].
  assert (bs' = bs) as -> by (apply list_eq; intros t; destruct (decide (Z.of_nat t < c)) as [Hlt'|Hge'];
    [rewrite <- !aget_nat, Hbs, Hbs' by lia; by rewrite M1|rewrite !lookup_ge_None_2; [done|unfold alen in *; lia..]]).
  run E1. run Eg. run E2. run E3. run E4.
  destruct (patched_file k k4 x nb off bs) as [Hfo Hfb]; [done..|lia|done|eapply blk_length; [apply Hi|lia]| |].
  { intros m. by rewrite B4, !(lk_blk _ _ _ _ L0). }
  assert (Hd4 : k_disk k4 = k_disk k) by (by rewrite D4, (lk_disk _ _ _ _ L0)). injection Ab4 as An Am As.
  pose proof (absorbed_length (bno k x (off / BSIZE)) l) as Hab. replace (n - tot - c) with (n - (tot + c)) in * by lia.
  destruct (IH (tot + c) (off + c) k4 (absorbed (bno k x (off / BSIZE)) l)) as (k' & l' & E5 & A5 & Hl5 & D5 & T5 & Ab5 & F5 & B5);
    [done|by rewrite An, (lk_inode _ _ _ _ L0)|by eapply file_only_mapped| |lia|lia|lia|lia|lia|].
  { intros bn Hb. rewrite (file_only_bno k k4 x nb) by done. by apply Hna. }
  exists k', l'. split; [rewrite E5; f_equal; lia|]. split; [done|]. split; [lia|]. split; [by rewrite D5|]. split; [by rewrite T5, T4, (lk_trace _ _ _ _ L0)|].
  split; [by rewrite Ab5; unfold above; rewrite An, Am, As, (lk_inode _ _ _ _ L0), M0, (lk_sb _ _ _ _ L0)|]. split; [by eapply file_only_trans|].
  intros j Hj. rewrite B5, Hfb, Hbl by done. rewrite Am, M0. destruct (within_spec (off + c) (n - (tot + c)) j); [rewrite within_true by lia; f_equal; lia|].
  destruct (within_spec off c j); [|by rewrite within_false by lia]. rewrite within_true by lia. rewrite Hbs by lia. cbn. rewrite M0. f_equal.
Qed.

Lemma dinode_length x : alen (i_addrs x) = NDIRECT + 1 -> alen (dinode_bytes x) = 64.
Proof.
  intros H. unfold dinode_bytes. by rewrite !alen_app, !alen_le, alen_words, H.
Qed.

Lemma iupdate_ok k l ip x ib :
  active k i p s sz l -> aget (k_inode k) ip = Some x -> i_dev x = 1 -> alen (i_addrs x) = NDIRECT + 1 -> IBLOCK (i_inum x) (k_sb k) = ib ->
  0 <= ib < alen (k_disk k) -> ~ area s sz ib -> alen l < sz - 1 ->
  exists k', iupdate ip k = Ret tt k' /\ active k' i p s sz (absorbed ib l) /\ k_disk k' = k_disk k /\ k_dtrace k' = k_dtrace k /\ above k' = above k /\
    forall m, blk k' m = if m =? ib then splice (blk k ib) (64 * (i_inum x mod IPB)) (dinode_bytes x) else blk k m.
Proof.
  intros Ha Hx Hdev Hadd Hib Hr Hna Hl. unfold iupdate. run i_at_ok; [|exact Hx]. mstep. rewrite Hdev, Hib.
  pose proof (Z.mod_pos_bound (i_inum x) IPB ltac:(done)) as Hmod. change IPB with 8 in *.
  destruct (patch_ok k l ib (64 * (i_inum x mod 8)) (dinode_bytes x)) as (b & k1 & k2 & k3 & k' & E1 & M1 & N1 & E2 & E3 & E4 & A & D & T & Ab & B);
    [done..|lia|rewrite dinode_length by done; unfold BSIZE; lia|done|].
  run E1. run i_at_ok; [|rewrite N1; exact Hx]. run E2. run E3. exists k'. by split_and!.
Qed.

Lemma active_inode k l f : active k i p s sz l -> active (k <| k_inode ::= f |>) i p s sz l.
Proof.
  intros [[C1 C2 [? ? ? ? ?] C4 C5 C6 C7 C8] H2 H3 H4 H5 H6]. split; try done. split; try done.
  - destruct C1 as [[? ? ?] ? ? ? ? ?]. by split.
  - by destruct (same_cache_view k (k <| k_inode ::= f |>) ltac:(done)) as [V _]; apply V.
Qed.
End write.

(** ** The calls *)

(** The file [x] at entry [ip] of the inode cache: [nb] of its blocks are
    allocated, none of them is in the log or is the block [ib] of its inode. *)
Record file_ok (s sz : Z) (k : kernel) (ip : Z) (x : inode) (nb ib : Z) : Prop := {
  fo_inode : aget (k_inode k) ip = Some x;
  fo_type : i_type x <> T_DEV;
  fo_mapped : mapped k x nb;
  fo_log : off_log s sz k x nb;
  fo_size : 0 <= i_size x <= nb * BSIZE;
  fo_ib : IBLOCK (i_inum x) (k_sb k) = ib;
  fo_ib_range : 0 <= ib < alen (k_disk k) /\ ~ area s sz ib;
  fo_ib_free : (forall bn, 0 <= bn < nb -> bno k x bn <> ib) /\ (NDIRECT < nb -> indirect x <> ib /\ ~ area s sz (indirect x)) }.

Lemma file_small (nb : Z) : 0 <= nb <= MAXFILE -> nb * BSIZE <= 71680.
Proof. unfold MAXFILE, NINDIRECT, NDIRECT, BSIZE. change (512 / 4) with 128. lia. Qed.

Section calls.
Context {fuel : Fuel} {disk : BlockDev} {laws : DiskLaws disk} {devs : DevOps}.
Context (i : nat) (p : proc) (s sz : Z) (Hf : (0 < wakeups)%nat).
Implicit Types (k : kernel) (ip off n nb ib src dst j m : Z) (l : list Z) (x : inode).

Lemma readi_ok k l ip x nb dst off n :
  idle k i p l -> aget (k_inode k) ip = Some x -> i_type x <> T_DEV -> mapped k x nb -> i_size x <= nb * BSIZE ->
  0 <= off <= i_size x -> 0 <= n -> off + n < 2 ^ 32 ->
  exists k', readi ip dst off n k = Ret (Z.min n (i_size x - off)) k' /\ looked i p k k' /\
    forall a, k_mem k' a = if within dst (Z.min n (i_size x - off)) a then fbyte k x (off + (a - dst)) else k_mem k a.
Proof.
  intros Hi Hx Ht Hm Hsz Ho Hn Hu. pose proof (file_small nb (mp_max _ _ _ Hm)) as Hsm. unfold readi, readi_gen.
  set (n' := Z.min n (i_size x - off)). pose proof (rounds_bound off n' ltac:(lia) ltac:(lia)) as Hr.
  destruct (read_loop_ok i p ip x nb Hf dst n' (Z.to_nat (n' / BSIZE + 3)) 0 off k l) as (bs & k' & E & L & M); [done..|lia|lia|lia|rewrite Z.sub_0_r; lia|].
  exists k'. split; [|split; [done|]].
  - erewrite bind_Ret; [|run i_at_ok; [|exact Hx]].
    2:{ rewrite (proj2 (Z.eqb_neq _ _) Ht). unfold u32. rewrite Z.mod_small by lia. destruct (Z.ltb_spec (i_size x) off); [lia|]. destruct (Z.ltb_spec (off + n) off); [lia|]. cbn [orb].
        assert ((if i_size x <? off + n then i_size x - off else n) = n') as -> by (subst n'; destruct (Z.ltb_spec (i_size x) (off + n)); lia). run E. reflexivity. }
    cbn [fst]. by rewrite i32_small by lia.
  - intros a. rewrite M, Z.add_0_r, Z.sub_0_r. done.
Qed.

(** The inode after a write up to [e]. *)
Definition grown x (e : Z) : inode := x <| i_size := Z.max (i_size x) e |>.

Lemma grown_id k ip x e : aget (k_inode k) ip = Some x -> e <= i_size x -> <[Z.to_nat ip := grown x e]> (k_inode k) = k_inode k.
Proof.
  intros Hx He. unfold grown. rewrite Z.max_l by done. replace (x <| i_size := i_size x |>) with x by (by destruct x).
  apply list_insert_id. unfold aget in Hx. by destruct (0 <=? ip).
Qed.

(** The update of the size, when the file has grown. *)
Lemma grow_ok k l ip x nb ib e :
  active k i p s sz l -> file_ok s sz k ip x nb ib -> alen l < sz - 1 -> i_size x < e ->
  exists k', (i_set ip (fun x => x <| i_size := e |>) ;;; iupdate ip) k = Ret tt k' /\ active k' i p s sz (absorbed ib l) /\
    k_disk k' = k_disk k /\ k_dtrace k' = k_dtrace k /\ k_mem k' = k_mem k /\ k_sb k' = k_sb k /\
    k_inode k' = <[Z.to_nat ip := grown x e]> (k_inode k) /\
    forall m, blk k' m = if m =? ib then splice (blk k ib) (64 * (i_inum x mod IPB)) (dinode_bytes (grown x e)) else blk k m.
Proof.
  intros Ha [Hx Ht Hm _ _ Hib [Hr Hna] _] Hl He. pose proof (aget_lt _ _ _ Hx) as Hlt.
  assert (Hg : x <| i_size := e |> = grown x e) by (unfold grown; by rewrite Z.max_r by lia). run i_set_ok; [|exact Hx]. rewrite Hg.
  set (k1 := k <| k_inode ::= <[Z.to_nat ip := grown x e]> |>).
  destruct (iupdate_ok i p s sz Hf k1 l ip (grown x e) ib) as (k' & E & A & D & T & Ab & B); [by apply active_inode|by apply aget_insert_eq|apply Hm|apply Hm|exact Hib|done|done|done|].
  injection Ab as An Am As. exists k'. by split_and!.
Qed.

(** The file is still in order after its size has grown to at most what is allocated. *)
Lemma file_ok_step k k' ip x nb ib e :
  file_ok s sz k ip x nb ib -> mapped k' x nb -> (forall bn, 0 <= bn < nb -> bno k' x bn = bno k x bn) -> k_disk k' = k_disk k -> k_sb k' = k_sb k ->
  k_inode k' = <[Z.to_nat ip := grown x e]> (k_inode k) -> e <= nb * BSIZE -> file_ok s sz k' ip (grown x e) nb ib.
Proof.
  intros [Hx Ht Hm Hna Hsz Hib Hibr [Hfree Hfree']] Hm' Hbn Hd Hs Hi He. pose proof (aget_lt _ _ _ Hx) as Hlt. split.
  - rewrite Hi. by apply aget_insert_eq.
  - exact Ht.
  - destruct Hm'. by split.
  - intros bn Hb. change (bno k' (grown x e) bn) with (bno k' x bn). rewrite Hbn by done. by apply Hna.
  - unfold grown. rsimpl. lia.
  - rewrite Hs. exact Hib.
  - by rewrite Hd.
  - split; [|exact Hfree']. intros bn Hb. change (bno k' (grown x e) bn) with (bno k' x bn). rewrite Hbn by done. by apply Hfree.
Qed.

Lemma writei_ok k l ip x nb ib src off n :
  active k i p s sz l -> file_ok s sz k ip x nb ib -> 0 <= off <= i_size x -> 0 <= n -> off + n <= nb * BSIZE ->
  alen l + rounds off n + 1 <= sz - 1 ->
  exists k' l', writei ip src off n k = Ret n k' /\ active k' i p s sz l' /\ k_disk k' = k_disk k /\ k_dtrace k' = k_dtrace k /\
    k_mem k' = k_mem k /\ k_sb k' = k_sb k /\ k_inode k' = <[Z.to_nat ip := grown x (off + n)]> (k_inode k) /\ file_ok s sz k' ip (grown x (off + n)) nb ib /\
    (forall j, 0 <= j < nb * BSIZE -> fbyte k' x j = if within off n j then k_mem k (src + (j - off)) else fbyte k x j) /\
    (forall m, m <> ib -> (forall bn, 0 <= bn < nb -> m <> bno k x bn) -> blk k' m = blk k m) /\
    (i_size x < off + n -> slice (blk k' ib) (64 * (i_inum x mod IPB)) 64 = dinode_bytes (grown x (off + n))).
Proof.
  intros Ha Hfo Ho Hn Hle Hl. pose proof Hfo as [Hx Ht Hm Hna Hsz Hib Hibr [Hfree Hfree']]. pose proof (file_small nb (mp_max _ _ _ Hm)) as Hsm.
  pose proof (rounds_bound off n ltac:(lia) Hn) as Hr.
  destruct (write_loop_ok i p s sz Hf ip x nb src n (Z.to_nat (n / BSIZE + 3)) 0 off k l) as (k1 & l1 & E1 & A1 & L1 & D1 & T1 & Ab1 & F1 & B1); rewrite ?Z.sub_0_r; [done..|lia|lia|lia|lia|lia|].
  rewrite Z.sub_0_r in *. injection Ab1 as An Am As. assert (Hx1 : aget (k_inode k1) ip = Some x) by (by rewrite An).
  assert (Hm1 : mapped k1 x nb) by (by eapply file_only_mapped). assert (Hbn : forall bn, 0 <= bn < nb -> bno k1 x bn = bno k x bn) by (intros bn Hb; by eapply file_only_bno).
  assert (Hstart : writei ip src off n k = (when ((0 <? n) && (i_size x <? off + n)) (i_set ip (fun x => x <| i_size := off + n |>) ;;; iupdate ip) ;;; mret n) k1).
  { unfold writei, writei_gen. run i_at_ok; [|exact Hx]. rewrite (proj2 (Z.eqb_neq _ _) Ht). rewrite u32_small by lia. destruct (Z.ltb_spec (i_size x) off); [lia|]. destruct (Z.ltb_spec (off + n) off); [lia|]. cbn [orb].
    destruct (Z.ltb_spec (MAXFILE * BSIZE) (off + n)); [pose proof (mp_max _ _ _ Hm); unfold BSIZE in *; lia|]. run E1. run i_at_ok; [|exact Hx1]. by rewrite i32_small by lia. }
  rewrite Hstart. clear Hstart. destruct (Z.ltb_spec (i_size x) (off + n)) as [Hgr|Hno].
  - assert (Hfo1 : file_ok s sz k1 ip x nb ib).
    { rewrite <- (grown_id k ip x (i_size x) Hx (Z.le_refl _)) in An. replace x with (grown x (i_size x)) at 1 by (unfold grown; rewrite Z.max_id; by destruct x). eapply file_ok_step; [exact Hfo|done..|lia]. }
    destruct (grow_ok k1 l1 ip x nb ib (off + n) A1 Hfo1) as (k2 & E2 & A2 & D2 & T2 & M2 & S2 & I2 & B2); [lia|done|].
    destruct (same_file k1 k2 x nb Hm1 (f_equal alen D2)) as (Hm2 & Hbn2 & Hfb2).
    { intros bn Hb. rewrite B2, (Hbn bn) by done. by rewrite (proj2 (Z.eqb_neq _ _) (Hfree bn Hb)). }
    { intros Hnb. rewrite B2. by rewrite (proj2 (Z.eqb_neq _ _) (proj1 (Hfree' Hnb))). }
    exists k2, (absorbed ib l1). destruct (Z.ltb_spec 0 n); [|lia]. cbn [andb when]. run E2. split; [done|]. split; [done|]. split; [by rewrite D2|]. split; [by rewrite T2|]. split; [by rewrite M2|]. split; [by rewrite S2|].
    split; [by rewrite I2, An|]. split; [|split; [|split]].
    + eapply (file_ok_step k1); [exact Hfo1|done..|lia].
    + intros j Hj. rewrite Hfb2, B1 by done. by rewrite Z.add_0_r.
    + intros m Hne Hnb. rewrite B2, (proj2 (Z.eqb_neq _ _) Hne). by apply F1.
    + intros _. rewrite B2, Z.eqb_refl. pose proof (Z.mod_pos_bound (i_inum x) IPB ltac:(done)) as Hmod. change IPB with 8 in *.
      pose proof (slice_splice_eq (blk k1 ib) (64 * (i_inum x mod 8)) (dinode_bytes (grown x (off + n)))) as Hs. rewrite dinode_length in Hs by apply Hm. apply Hs; [lia|].
      rewrite (blk_length k1 (p_pid p)); [unfold BSIZE; lia|apply (pe_hold _ _ _ _ _ _ (ac_pending _ _ _ _ _ _ A1))|rewrite D1; apply Hibr].
  - exists k1, l1. rewrite andb_false_r. cbn [when]. split; [by mstep|]. rewrite grown_id by done. split; [done|]. do 5 (split; [done|]). split; [|split; [|split]].
    + eapply file_ok_step; [exact Hfo|done..| |lia]. by rewrite grown_id.
    + intros j Hj. rewrite B1 by done. by rewrite Z.add_0_r.
    + intros m _ Hnb. by apply F1.
    + lia.
Qed.
End calls.

(** C3. A write to a file is atomic and is read back.  Let the log be quiet, let
    the blocks for the bytes [off] to [off + n] of the file be allocated, with
    [off] at most the size, and let the blocks to be changed fit in the log.  Then
    [begin_op], [writei] from memory at [src] and [end_op] return [n]; the file has
    the new bytes there and the old ones elsewhere; it has grown to [off + n] if
    it was shorter, in memory and in its inode on the disk; no other block of the
    file system has changed, and no other inode; and whatever prefix of the disk
    writes survives a crash, the disk boots and holds the old or the new content.
    A [readi] of those bytes then delivers what was at [src]. *)
Theorem file_write_atomic {fuel : Fuel} {disk : BlockDev} {laws : DiskLaws disk} {devs : DevOps}
    (k : kernel) (i : nat) (p : proc) (s sz ip : Z) (x : inode) (nb ib src off n : Z) :
  (0 < wakeups)%nat -> quiet k i p s sz -> file_ok s sz k ip x nb ib -> 0 <= off <= i_size x -> 0 <= n -> off + n <= nb * BSIZE ->
  rounds off n + 1 <= sz - 1 ->
  exists k' tr, (begin_op ;;; r ← writei ip src off n; end_op ;;; mret r) k = Ret n k' /\ quiet k' i p s sz /\
    k_mem k' = k_mem k /\ k_inode k' = <[Z.to_nat ip := grown x (off + n)]> (k_inode k) /\
    (forall j, 0 <= j < nb * BSIZE -> fbyte k' x j = if within off n j then k_mem k (src + (j - off)) else fbyte k x j) /\
    (forall m, ~ area s sz m -> m <> ib -> (forall bn, 0 <= bn < nb -> m <> bno k x bn) -> blk k' m = blk k m) /\
    (i_size x < off + n -> slice (blk k' ib) (64 * (i_inum x mod IPB)) 64 = dinode_bytes (grown x (off + n))) /\
    k_dtrace k' = k_dtrace k ++ tr /\ atomic s sz k tr (blk k') /\
    forall dst, exists k'', readi ip dst off n k' = Ret n k'' /\ forall t, 0 <= t < n -> k_mem k'' (dst + t) = k_mem k (src + t).
Proof.
  intros Hf Hq Hfo Ho Hn Hle Hlog. destruct (begin_op_ok k i p s sz Hf Hq) as (k1 & E1 & A1 & C1).
  destruct (same_cache_view _ _ (cn_cache _ _ C1)) as (_ & _ & B1 & _). pose proof (sc_disk _ _ (cn_cache _ _ C1)) as D1. pose proof (cn_above _ _ C1) as Ab1. injection Ab1 as An1 Am1 As1.
  pose proof Hfo as [Hx Ht Hm Hna Hsz Hib Hibr [Hfree Hfree']].
  destruct (same_file k k1 x nb Hm (f_equal alen D1)) as (Hm1 & Hbn1 & Hfb1); [intros; apply B1|intros; apply B1|].
  assert (Hfo1 : file_ok s sz k1 ip x nb ib).
  { split; [by rewrite An1|done|done| |done|by rewrite As1|by rewrite D1|split; [|done]]; intros bn Hb; rewrite Hbn1 by done; [by apply Hna|by apply Hfree]. }
  destruct (writei_ok i p s sz Hf k1 [] ip x nb ib src off n A1 Hfo1) as (k2 & l & E2 & A2 & D2 & T2 & M2 & S2 & I2 & Hfo2 & Hfb2 & B2 & Hin2); [done..|change (alen (@nil Z)) with 0; lia|].
  destruct (end_op_ok k2 i p s sz l Hf A2) as (k3 & tr & E3 & Q3 & T3 & B3 & Ab3 & D3 & At). injection Ab3 as An3 Am3 As3.
  assert (Hm2 : mapped k2 x nb) by (destruct Hfo2 as [_ _ [? ? ? ? ? ?] _ _ _ _ _]; by split).
  destruct (same_file k2 k3 x nb Hm2 D3) as (Hm3 & Hbn3 & Hfb3).
  { intros bn Hb. apply B3. by apply (fo_log _ _ _ _ _ _ _ Hfo2 bn). } { intros Hnb. apply B3. by apply (proj2 (fo_ib_free _ _ _ _ _ _ _ Hfo2) Hnb). }
  assert (Hfb : forall j, 0 <= j < nb * BSIZE -> fbyte k3 x j = if within off n j then k_mem k (src + (j - off)) else fbyte k x j).
  { intros j Hj. rewrite Hfb3, Hfb2, Hfb1 by done. by rewrite Am1. }
  exists k3, tr. split; [run E1; run E2; run E3; done|]. split; [done|]. split; [by rewrite Am3, M2|]. split; [by rewrite An3, I2, An1|]. split; [done|]. split; [|split; [|split; [|split]]].
  - intros m Hma Hmi Hmb. rewrite B3, B2; [apply B1|done| |done]. intros bn Hb. rewrite Hbn1 by done. by apply Hmb.
  - intros Hg. rewrite B3 by apply Hibr. by apply Hin2.
  - by rewrite T3, T2, (cn_trace _ _ C1).
  - intros ws Hws. destruct (At ws Hws) as [H1 H2]. rewrite D2, D1 in *. split; [done|]. destruct H2 as [H2|H2]; [by left|right]. intros m Hma. by rewrite H2, B3.
  - intros dst. pose proof (file_small nb (mp_max _ _ _ Hm)) as Hsm. pose proof (pending_idle _ _ _ _ _ _ (qu_pending _ _ _ _ _ Q3)) as Hi3.
    pose proof (aget_lt _ _ _ Hx) as Hlt. assert (Hgs : i_size (grown x (off + n)) = Z.max (i_size x) (off + n)) by done.
    destruct (readi_ok i p Hf k3 [] ip (grown x (off + n)) nb dst off n) as (k4 & E4 & _ & M4); rewrite ?Hgs; [done|rewrite An3, I2; apply aget_insert_eq; by rewrite An1|done|destruct Hm3; by split|lia|lia|done|lia|].
    rewrite Z.min_l in E4, M4 by (rewrite Hgs; lia). exists k4. split; [done|]. intros t Htn. rewrite M4, within_true by lia. change (fbyte k3 (grown x (off + n))) with (fbyte k3 x).
    replace (off + (dst + t - dst)) with (off + t) by lia. rewrite Hfb by lia. rewrite within_true by lia. f_equal. lia.
Qed.
