(* ===== verification/FsExamples.v ===== *)
(** * Concrete file systems

    A machine with a memory disk of eight blocks, with a log of three, on which
    the hypotheses of the theorems on the buffer cache and the log hold; and the
    file of inode 1 on that disk, of three bytes in block 5, with its inode in
    block 7. *)

From S2P Require Import Prelude State Spinlock CString Kalloc Console Vm Message Container Proc Dispatch Syscall.
From S2P Require Import Sysproc SysExamples Sleeplock Bio Cache Blocks Log Words Journal Commit CacheSpec Transact Fs.
From S2P Require Import Names Content.
Open Scope Z_scope.

#[local] Instance two_rounds : Fuel := 2%nat.
#[local] Existing Instance Memide.memide.

Lemma two_pos : (0 < wakeups)%nat.
Proof. apply Nat.lt_0_succ. Qed.

Definition disk8 : list (list Z) := replicate 8 (replicate 512 0).

(** A machine that boots from disk [d]. *)
Definition kernel_boot (d : list (list Z)) : kernel :=
  kernel_sys <| k_disk := d |> <| k_disksize := 8 |> <| k_log := mklog 2 3 0 0 1 0 (replicate 30 0) |>
    <| k_mach ::= fun mc => mc <| m_locks ::= <[log_lock := mklock "log" false None]> |> |>.

(** The state after [binit]. *)
Definition kernel_cold (d : list (list Z)) : kernel :=
  match binit (kernel_boot d) with Ret _ k => k | _ => kernel_boot d end.

Lemma disk8_blocks : Forall (fun d => alen d = BSIZE) disk8.
Proof. by apply Forall_replicate. Qed.

Lemma kernel_boot_bufs d c : core (bfl (k_buf (kernel_boot d)) c) = core buf0.
Proof.
  change (k_buf (kernel_boot d)) with (replicate 31 buf0). unfold bfl.
  destruct (decide (0 <= c < 31)); [by rewrite aget_replicate|by rewrite aget_None].
Qed.

Lemma binit_establishes_witness :
  exists k', binit (kernel_boot disk8) = Ret tt k' /\ k_disk k' = disk8 /\ forall n, blk k' n = at_ disk8 n.
Proof.
  destruct (binit_establishes (kernel_boot disk8)) as (k' & E & D & _ & _ & B);
    [reflexivity|exact (kernel_boot_bufs disk8)|by split|exact disk8_blocks|].
  exists k'. split; [exact E|]. split; [exact D|exact B].
Defined.

Section cold.
Context (d : list (list Z)) (Hlen : alen d = 8) (Hd : Forall (fun x => alen x = BSIZE) d).

Lemma kernel_cold_facts :
  holding (kernel_cold d) 1 [] /\ (forall m, ~ dirty (kernel_cold d) m) /\ k_disk (kernel_cold d) = d /\
  k_dtrace (kernel_cold d) = [].
Proof.
  destruct (binit_ok (kernel_boot d) 1) as (k' & E & H1 & H2 & H3 & H4); [reflexivity|exact (kernel_boot_bufs d)| |exact Hd|].
  { change (8 = alen d /\ alen d < 2 ^ 32). by rewrite Hlen. }
  unfold kernel_cold. rewrite E. split; [exact H1|]. split; [exact H2|]. split; [exact H3|exact H4].
Qed.

Definition is_free (lk : lockid) : bool :=
  match m_locks (k_mach (kernel_cold d)) !! lk with Some (mklock _ false None) => true | _ => false end.

Lemma is_free_lock lk : is_free lk = true -> lock_free lk (k_mach (kernel_cold d)).
Proof.
  unfold is_free, lock_free. destruct (m_locks (k_mach (kernel_cold d)) !! lk) as [[nm [] [|]]|]; try done. by eexists.
Qed.

Lemma kernel_cold_ctx : fsctx (kernel_cold d) 0 proc_sys.
Proof.
  split.
  - split.
    + exists 0, (mkcpu 0 0 false (Some 0%nat)). split_and!; vm_compute; [|congruence|congruence]. split_and!; done.
    + vm_compute. reflexivity.
    + vm_compute. reflexivity.
  - reflexivity.
  - apply is_free_lock. vm_compute. reflexivity.
  - vm_compute. reflexivity.
  - apply is_free_lock. vm_compute. reflexivity.
  - intros b Hb. apply is_free_lock.
    assert (Hall : forallb (fun b => is_free (buf_lock b)) (seqZ 0 NBUF) = true) by (vm_compute; reflexivity).
    rewrite forallb_forall in Hall. apply Hall, list_elem_of_In, elem_of_seqZ. lia.
Qed.

Lemma kernel_cold_log : k_log (kernel_cold d) = mklog 2 3 0 0 1 0 (replicate 30 0).
Proof. vm_compute. reflexivity. Qed.

Lemma kernel_cold_booted : booted (kernel_cold d) 0 proc_sys 2.
Proof.
  destruct kernel_cold_facts as (H1 & H2 & _).
  split; rewrite ?kernel_cold_log; [exact kernel_cold_ctx|exact H1|exact H2|reflexivity..].
Qed.
End cold.

Lemma disk8_entries : entries (at_ disk8 2) = [].
Proof. vm_compute. reflexivity. Qed.

Lemma disk8_loggable : loggable 2 3 8 [].
Proof. split; [apply NoDup_nil_2|by intros m ?%not_elem_of_nil|vm_compute; congruence..]. Qed.

Lemma disk8_bootable : bootable 2 3 disk8.
Proof.
  split; rewrite ?disk8_entries; [exact disk8_loggable|vm_compute; reflexivity|exact disk8_blocks].
Qed.

Lemma disk8_quiet : quiet (kernel_cold disk8) 0 proc_sys 2 3.
Proof.
  destruct (kernel_cold_facts disk8 eq_refl disk8_blocks) as (H1 & H2 & H3 & _).
  split; rewrite ?kernel_cold_log; [|apply is_free_lock; vm_compute; reflexivity|reflexivity|vm_compute; congruence|reflexivity..].
  split; rewrite ?H3; [apply kernel_cold_ctx|exact H1| |exact disk8_loggable|vm_compute; reflexivity| |exact disk8_bootable
    |exact disk8_entries].
  - split; rewrite ?kernel_cold_log; reflexivity.
  - intros m. split; intros Hm; exfalso; [exact (H2 m Hm)|exact (not_elem_of_nil m Hm)].
Qed.

(** Two updates. *)
Definition updates : list (Z * list Z) := [(5, replicate 512 1); (6, replicate 512 2)].

Lemma updates_ok n x : (n, x) ∈ updates -> 0 <= n < alen (k_disk (kernel_cold disk8)) /\ ~ area 2 3 n /\ alen x = BSIZE.
Proof.
  destruct (kernel_cold_facts disk8 eq_refl disk8_blocks) as (_ & _ & -> & _). change (alen disk8) with 8. unfold area.
  intros [[= -> ->]|[[= -> ->]|?%not_elem_of_nil]%elem_of_cons]%elem_of_cons; [..|done]; (split_and!; [lia..|reflexivity]).
Qed.

Lemma transaction_atomic_witness :
  exists k', (begin_op ;;; txn_writes updates ;;; end_op) (kernel_cold disk8) = Ret tt k' /\
    blk k' 5 = replicate 512 1 /\ blk k' 7 = blk (kernel_cold disk8) 7.
Proof.
  destruct (transaction_atomic (kernel_cold disk8) 0 proc_sys 2 3 updates two_pos
    disk8_quiet ltac:(vm_compute; congruence) updates_ok) as (k' & tr & E & _ & B & _).
  exists k'. split; [exact E|]. split; (rewrite B; [reflexivity|unfold area; lia]).
Defined.

(** The machine stops after the header is written. *)
Definition tr6 : list (Z * list Z) :=
  match (begin_op ;;; txn_writes updates ;;; end_op) (kernel_cold disk8) with Ret _ k => k_dtrace k | _ => [] end.

Lemma tr6_length : length tr6 = 6%nat.
Proof. vm_compute. reflexivity. Qed.

Lemma updates_run : exists k', (begin_op ;;; txn_writes updates ;;; end_op) (kernel_cold disk8) = Ret tt k' /\
  k_dtrace k' = k_dtrace (kernel_cold disk8) ++ tr6 /\ atomic 2 3 (kernel_cold disk8) tr6 (puts (blk (kernel_cold disk8)) updates).
Proof.
  destruct (transaction_ok (kernel_cold disk8) 0 proc_sys 2 3 updates two_pos
    disk8_quiet ltac:(vm_compute; congruence) updates_ok) as (k' & tr & E & _ & _ & T & A).
  assert (tr6 = tr) as ->; [|exists k'; split; [exact E|split; [exact T|exact A]]].
  destruct (kernel_cold_facts disk8 eq_refl disk8_blocks) as (_ & _ & _ & T0). rewrite T0 in T.
  unfold tr6. rewrite E. exact T.
Qed.

(** The disk when the machine stopped after the third write. *)
Definition disk_crash : list (list Z) := stores disk8 (take 3 tr6).

Lemma disk_crash_bootable : bootable 2 3 disk_crash.
Proof.
  destruct updates_run as (k' & _ & _ & A). destruct (A (take 3 tr6)) as [Hb _]; [exists (drop 3 tr6); symmetry; apply take_drop|].
  destruct (kernel_cold_facts disk8 eq_refl disk8_blocks) as (_ & _ & D & _). rewrite D in Hb. exact Hb.
Qed.

Lemma disk_crash_length : alen disk_crash = 8.
Proof. unfold disk_crash. rewrite stores_length. reflexivity. Qed.

Lemma crash_recovery_witness :
  exists r', recover_from_log (kernel_cold disk_crash) = Ret tt r' /\ log_is r' 2 [].
Proof.
  destruct updates_run as (k' & E & T & _).
  destruct (crash_recovery (kernel_cold disk8) 0 proc_sys 2 3 updates k' tr6 (take 3 tr6) disk_crash (kernel_cold disk_crash)
    0 proc_sys two_pos disk8_quiet ltac:(vm_compute; congruence) updates_ok E T) as (r' & Er & Hl & _).
  - exists (drop 3 tr6). symmetry. apply take_drop.
  - destruct (kernel_cold_facts disk8 eq_refl disk8_blocks) as (_ & _ & -> & _). unfold disk_crash. exact (int_none 2 _).
  - apply kernel_cold_booted; [exact disk_crash_length|apply disk_crash_bootable].
  - destruct (kernel_cold_facts disk_crash disk_crash_length (bo_blocks _ _ _ disk_crash_bootable)) as (_ & _ & D & _). exact D.
  - exists r'. split; [exact Er|exact Hl].
Defined.

Lemma recovery_preserves_witness :
  exists r', recover_from_log (kernel_cold disk_crash) = Ret tt r' /\ blk r' 5 = replicate 512 1.
Proof.
  pose proof (kernel_cold_facts disk_crash disk_crash_length (bo_blocks _ _ _ disk_crash_bootable)) as (_ & _ & D & _).
  destruct (recovery_preserves (kernel_cold disk_crash) 0 proc_sys 2 3 two_pos
    (kernel_cold_booted _ disk_crash_length (bo_blocks _ _ _ disk_crash_bootable)))
    as (r' & ws & E & _ & _ & _ & _ & B & _).
  - rewrite D. exact disk_crash_bootable.
  - exists r'. split; [exact E|]. rewrite B by (unfold area; lia). rewrite D. vm_compute. reflexivity.
Defined.

Lemma log_write_spec_witness :
  exists k b k', log_write b k = Ret tt k' /\ log_is k' 2 [5].
Proof.
  destruct (begin_op_ok (kernel_cold disk8) 0 proc_sys 2 3 two_pos disk8_quiet) as (k1 & _ & [Hp Hlk Hsz Hsm Hops _] & C1).
  pose proof Hp as [Hctx Hh Hlog Hl Hroom Hd _ _].
  destruct (bread_idle k1 0 proc_sys [] 5 two_pos Hctx Hh) as (b & k2 & _ & S2 & Hh2 & T2 & C2).
  - intros m. apply Hd.
  - exact Hroom.
  - rewrite (sc_disk _ _ (cn_cache _ _ C1)). destruct (kernel_cold_facts disk8 eq_refl disk8_blocks) as (_ & _ & -> & _).
    vm_compute. split; congruence.
  - pose proof (log_write_spec k2 0 proc_sys [b] 2 3 [] 5 b C2 (lock_free_bstep _ _ _ S2 Hlk) Hh2 (tk_where _ _ _ _ T2)
      ltac:(by left) (bstep_log_is _ _ _ _ S2 Hlog)) as H.
    rewrite (tk_disk _ _ _ _ T2), (bstep_log _ _ S2), Hsz, Hops in H.
    destruct (H Hl ltac:(lia)) as (k' & E & L). exists k2, b, k'. split; [exact E|]. apply L.
Defined.

Lemma kernel_cold_resting d : resting (k_mach (kernel_cold d)).
Proof.
  split; [apply (kernel_cold_ctx d)|vm_compute; reflexivity|apply is_free_lock; vm_compute; reflexivity].
Qed.

Lemma begin_op_admits_witness :
  exists k', begin_op (kernel_cold disk8) = Ret tt k' /\ lg_outstanding (k_log k') = 1.
Proof.
  pose proof (begin_op_admits (kernel_cold disk8) 0 proc_sys two_pos (kernel_cold_resting disk8)
    (qu_lock _ _ _ _ _ disk8_quiet) (fc_run _ _ _ (kernel_cold_ctx disk8))) as H.
  rewrite kernel_cold_log in H. destruct H as (k' & E & _ & O & _). exists k'. split; [exact E|exact O].
Defined.

Lemma acquiresleep_spec_witness :
  exists k', acquiresleep (buf_lock 3) (kernel_cold disk8) = Ret tt k' /\ holdingsleep (buf_lock 3) k' = Ret true k'.
Proof.
  pose proof (acquiresleep_spec (kernel_cold disk8) 0 proc_sys (buf_lock 3) (Nat.lt_1_2 : (1 < wakeups)%nat)
    (kernel_cold_resting disk8) (fc_run _ _ _ (kernel_cold_ctx disk8))
    (fc_bufs _ _ _ (kernel_cold_ctx disk8) 3 ltac:(unfold NBUF, MAXOPBLOCKS; lia)) ltac:(discriminate)) as H.
  replace (sl_locked (sl_of (kernel_cold disk8) (buf_lock 3))) with 0 in H by (vm_compute; reflexivity).
  destruct H as (k' & E & _ & Hh). exists k'. split; [exact E|exact Hh].
Defined.

Lemma disk8_shows :
  shows (kernel_cold disk8) 0 proc_sys 8 (mkblocks (blk (kernel_cold disk8)) [] (at_ disk8)).
Proof.
  destruct (kernel_cold_facts disk8 eq_refl disk8_blocks) as (H1 & H2 & H3 & _).
  split; cbn [ab_held ab_now ab_disk omap list_omap].
  - apply kernel_cold_ctx.
  - exact H1.
  - apply NoDup_nil_2.
  - intros n Hn. exfalso. exact (not_elem_of_nil n Hn).
  - intros n. exact eq_refl.
  - intros n. rewrite H3. exact eq_refl.
  - exact H2.
  - rewrite H3. reflexivity.
Qed.

Lemma cache_refines_blocks_witness :
  exists k', crun [Bread 5; Bread 6; Poke 5 (replicate 512 7); Bwrite 5; Brelse 6; Brelse 5; Bread 5] (kernel_cold disk8)
    = Ret tt k' /\ blk k' 5 = replicate 512 7 /\ at_ (k_disk k') 5 = replicate 512 7.
Proof.
  set (now := put (blk (kernel_cold disk8)) 5 (replicate 512 7)).
  destruct (cache_refines_blocks (kernel_cold disk8) 0 proc_sys 8 (mkblocks (blk (kernel_cold disk8)) [] (at_ disk8))
    [Bread 5; Bread 6; Poke 5 (replicate 512 7); Bwrite 5; Brelse 6; Brelse 5; Bread 5]
    (mkblocks now [5] (put (at_ disk8) 5 (now 5))) two_pos disk8_shows) as (k' & E & Hs).
  - vm_compute. reflexivity.
  - exists k'. split; [exact E|]. split; [exact (sh_now _ _ _ _ _ Hs 5)|exact (sh_disk _ _ _ _ _ Hs 5)].
Defined.

#[local] Instance no_devs : DevOps := mkDevOps (fun _ _ _ => mret (-1, [])) (fun _ _ _ => mret (-1)).

Definition inode1 : inode := mkinode 1 1 1 1 T_FILE 0 0 1 3 (5 :: replicate 12 0) 0.
Definition text1 : mem := mem_at 0x80500000 (bytes "disk") (fun _ => 0).
Definition with_file (k : kernel) : kernel := k <| k_inode := [inode1] |> <| k_sb := mksb 8 1 8 3 2 7 6 |> <| k_mem := text1 |>.
Definition kernel_file : kernel := with_file (kernel_cold disk8).

(** A quiet log does not depend on the inodes, the superblock and memory. *)
Lemma quiet_above k i p s sz xs sb m : quiet k i p s sz -> quiet (k <| k_inode := xs |> <| k_sb := sb |> <| k_mem := m |>) i p s sz.
Proof.
  intros [[[[R1 R2 R3] C2 C3 C4 C5 C6] P2 [L1 L2 L3 L4 L5] P4 P5 P6 P7 P8] Q2 Q3 Q4 Q5 Q6].
  destruct (same_cache_view k (k <| k_inode := xs |> <| k_sb := sb |> <| k_mem := m |>) ltac:(by split)) as (V1 & _ & _ & V4).
  split; [|exact Q2|exact Q3|exact Q4|exact Q5|exact Q6]. split; [|by apply V1|by split|exact P4|exact P5| |exact P7|exact P8].
  - split; [by split|exact C2|exact C3|exact C4|exact C5|exact C6].
  - intros n. rewrite V4. apply P6.
Qed.

Lemma kernel_file_quiet : quiet kernel_file 0 proc_sys 2 3.
Proof. exact (quiet_above _ _ _ _ _ _ _ _ disk8_quiet). Qed.

Lemma with_file_facts k : k_disk (with_file k) = k_disk k /\ aget (k_inode (with_file k)) 0 = Some inode1 /\
  IBLOCK (i_inum inode1) (k_sb (with_file k)) = 7 /\ k_mem (with_file k) = text1 /\ bno (with_file k) inode1 0 = 5 /\ blk (with_file k) 5 = blk k 5.
Proof. by split_and!. Qed.

Lemma kernel_file_size : alen (k_disk kernel_file) = 8.
Proof.
  destruct (kernel_cold_facts disk8 eq_refl disk8_blocks) as (_ & _ & H & _). unfold kernel_file. by rewrite (proj1 (with_file_facts _)), H.
Qed.

Lemma kernel_file_ok : file_ok 2 3 kernel_file 0 inode1 1 7.
Proof.
  pose proof kernel_file_size as Hsz. assert (Hb : forall bn, 0 <= bn < 1 -> bno kernel_file inode1 bn = 5) by (intros bn Hbn; replace bn with 0 by lia; apply with_file_facts).
  split.
  - apply with_file_facts.
  - discriminate.
  - split; [reflexivity|reflexivity|by split| | |lia].
    + intros bn Hbn. rewrite Hb by done. lia.
    + intros Hn. unfold NDIRECT in Hn. lia.
  - intros bn Hbn. rewrite Hb by done. unfold area. lia.
  - by split.
  - apply with_file_facts.
  - rewrite Hsz. unfold area. lia.
  - split; [intros bn Hbn; rewrite Hb by done; lia|]. intros Hn. unfold NDIRECT in Hn. lia.
Qed.

(** "disk" is written at offset 2: the file has six bytes then. *)
Lemma file_write_atomic_witness :
  exists k', (begin_op ;;; r ← writei 0 0x80500000 2 4; end_op ;;; mret r) kernel_file = Ret 4 k' /\
    fbyte k' inode1 2 = 100 /\ fbyte k' inode1 5 = 107 /\ fbyte k' inode1 1 = 0 /\ i_size <$> aget (k_inode k') 0 = Some 6 /\
    exists k'', readi 0 0x80600000 2 4 k' = Ret 4 k'' /\ k_mem k'' 0x80600003 = 107.
Proof.
  destruct (file_write_atomic kernel_file 0 proc_sys 2 3 0 inode1 1 7 0x80500000 2 4 two_pos kernel_file_quiet kernel_file_ok)
    as (k' & tr & E & _ & _ & Hi & Hb & _ & _ & _ & _ & Hr).
  - by split.
  - done.
  - done.
  - done.
  - pose proof (Hb 2 ltac:(unfold BSIZE; lia)) as H2.
    pose proof (Hb 5 ltac:(unfold BSIZE; lia)) as H5.
    pose proof (Hb 1 ltac:(unfold BSIZE; lia)) as H1.
    rewrite within_true in H2, H5 by lia.
    rewrite within_false in H1 by lia.
    assert (Hm : k_mem kernel_file = text1) by apply with_file_facts.
    rewrite Hm in H2, H5.
    exists k'. split; [exact E|]. split; [rewrite H2; vm_compute; reflexivity|]. split; [rewrite H5; vm_compute; reflexivity|].
    split; [rewrite H1; vm_compute; reflexivity|]. split; [rewrite Hi; vm_compute; reflexivity|].
    destruct (Hr 0x80600000) as (k'' & E'' & M). exists k''. split; [exact E''|]. pose proof (M 3 ltac:(lia)) as M3. rewrite Hm in M3.
    exact (eq_trans M3 eq_refl).
Defined.
