(* ===== verification/Pipe.v ===== *)
(** * Pipes ([pipe.c])

    A pipe lives in a page of its own: a spinlock, a ring of 512 bytes, the
    counts of bytes read and written, and whether each end is open.
    [pipealloc], which also makes the two files, is in [File]. *)

From S2P Require Import Prelude State Spinlock CString Kalloc Console Vm Message Container Proc Syscall.
Open Scope Z_scope.

Definition PIPESIZE : Z := 512.

(** The layout of [struct pipe]: the lock takes 52 bytes. *)
Definition pipe_lock (p : Z) : lockid := ("pipe", p).
Definition pipe_data (p i : Z) : Z := p + 52 + i.
Definition pipe_nread (p : Z) : Z := p + 52 + PIPESIZE.
Definition pipe_nwrite (p : Z) : Z := pipe_nread p + 4.
Definition pipe_readopen (p : Z) : Z := pipe_nread p + 8.
Definition pipe_writeopen (p : Z) : Z := pipe_nread p + 12.

(** [&p->nread] and [&p->nwrite] as wait channels. *)
Definition nread_chan (p : Z) : chan := CObj "pipe.nread" p.
Definition nwrite_chan (p : Z) : chan := CObj "pipe.nwrite" p.

Section pipe.
Context {fuel : Fuel}.

Definition pipeclose (p writable : Z) : K unit :=
  acquire (pipe_lock p) ;;;
  (if negb (writable =? 0) then
     st (pipe_writeopen p) 0 ;;;
     wakeup (nread_chan p)
   else
     st (pipe_readopen p) 0 ;;;
     wakeup (nwrite_chan p)) ;;;
  r ← ld (pipe_readopen p);
  w ← ld (pipe_writeopen p);
  if (r =? 0) && (w =? 0) then
    release (pipe_lock p) ;;;
    kfree p
  else release (pipe_lock p).

(** The waiting loop of [pipewrite]: [true] when there is room. *)
Fixpoint wait_room (f : nat) (p : Z) : K bool :=
  match f with
  | O => fun _ => Diverge
  | S f' =>
      nw ← ld (pipe_nwrite p);
      nr ← ld (pipe_nread p);
      if nw =? u32 (nr + PIPESIZE) then
        ro ← ld (pipe_readopen p);
        stop ← (if ro =? 0 then mret true else q ← me; mret (negb (p_killed q =? 0)));
        if (stop : bool) then release (pipe_lock p) ;;; mret false
        else
          wakeup (nread_chan p) ;;;
          sleep (nwrite_chan p) (Some (pipe_lock p)) ;;;
          wait_room f' p
      else mret true
  end.

Fixpoint write_bytes (n : nat) (p addr i : Z) : K bool :=
  match n with
  | O => mret true
  | S n' =>
      room ← wait_room wakeups p;
      if (room : bool) then
        nw ← ld (pipe_nwrite p);
        st (pipe_nwrite p) (u32 (nw + 1)) ;;;
        m ← gets k_mem;
        modify (fun k => k <| k_mem ::= fun m' => store8 m' (pipe_data p (nw mod PIPESIZE)) (m (addr + i)) |>) ;;;
        write_bytes n' p addr (i + 1)
      else mret false
  end.

Definition pipewrite (p addr n : Z) : K Z :=
  acquire (pipe_lock p) ;;;
  ok ← write_bytes (Z.to_nat n) p addr 0;
  if (ok : bool) then
    wakeup (nread_chan p) ;;;
    release (pipe_lock p) ;;;
    mret n
  else mret (-1).

(** [true] when there is something to read, or nobody left to write. *)
Fixpoint wait_data (f : nat) (p : Z) : K bool :=
  match f with
  | O => fun _ => Diverge
  | S f' =>
      nr ← ld (pipe_nread p);
      nw ← ld (pipe_nwrite p);
      wo ← ld (pipe_writeopen p);
      if (nr =? nw) && negb (wo =? 0) then
        q ← me;
        if negb (p_killed q =? 0) then release (pipe_lock p) ;;; mret false
        else sleep (nread_chan p) (Some (pipe_lock p)) ;;; wait_data f' p
      else mret true
  end.

(** How many bytes were copied. *)
Fixpoint read_bytes (n : nat) (p addr i : Z) : K Z :=
  match n with
  | O => mret i
  | S n' =>
      nr ← ld (pipe_nread p);
      nw ← ld (pipe_nwrite p);
      if nr =? nw then mret i
      else
        st (pipe_nread p) (u32 (nr + 1)) ;;;
        m ← gets k_mem;
        modify (fun k => k <| k_mem ::= fun m' => store8 m' (addr + i) (m (pipe_data p (nr mod PIPESIZE))) |>) ;;;
        read_bytes n' p addr (i + 1)
  end.

Definition piperead (p addr n : Z) : K Z :=
  acquire (pipe_lock p) ;;;
  ok ← wait_data wakeups p;
  if (ok : bool) then
    i ← read_bytes (Z.to_nat n) p addr 0;
    wakeup (nwrite_chan p) ;;;
    release (pipe_lock p) ;;;
    mret i
  else mret (-1).
End pipe.
