(* ===== verification/PipeSpec.v ===== *)
(** * Pipes are byte streams

    The ring of a pipe and its two counters, which wrap around at 2^32, stand
    for the bytes written and not yet read. *)

From S2P Require Import Prelude State Spinlock CString Kalloc Console Vm Message Container Proc Syscall Pipe.
Open Scope Z_scope.

Definition pipe_end (p : Z) : Z := p + 52 + PIPESIZE + 16.

Section ring.
Implicit Types (m : mem) (p nr a x i : Z) (q : list Z).

(** The pipe at [p] holds [q]; [nr] bytes have been read before. *)
Record piped m p nr q (ro wo : Z) : Prop := {
  pi_range : 0 <= nr < 2 ^ 32;
  pi_nr : load32 m (pipe_nread p) = nr;
  pi_nw : load32 m (pipe_nwrite p) = u32 (nr + alen q);
  pi_len : alen q <= PIPESIZE;
  pi_data : forall j, 0 <= j < alen q -> aget q j = Some (m (pipe_data p ((nr + j) mod PIPESIZE)));
  pi_ro : load32 m (pipe_readopen p) = ro;
  pi_wo : load32 m (pipe_writeopen p) = wo }.

(** Bytes from [a] on. *)
Definition bytes_at m a (n : nat) : list Z := (fun j => m (a + j)) <$> seqZ 0 (Z.of_nat n).
Definition put_at m a (bs : list Z) : mem := fun x => default (m x) (aget bs (x - a)).

Lemma bytes_at_S m a n : bytes_at m a (S n) = m a :: bytes_at m (a + 1) n.
Proof.
  unfold bytes_at. rewrite seqZ_cons by lia. cbn [fmap list_fmap]. rewrite Z.add_0_r. f_equal.
  replace (Z.pred (Z.of_nat (S n))) with (Z.of_nat n) by lia. change (Z.succ 0) with (1 + 0). rewrite <- fmap_add_seqZ, <- list_fmap_compose.
  apply list_fmap_ext. intros i x Hx. cbn. f_equal. lia.
Qed.

Lemma u32_512 x : u32 x mod PIPESIZE = x mod PIPESIZE.
Proof.
  unfold u32, PIPESIZE. change (2 ^ 32) with (512 * 8388608). rewrite (Z.rem_mul_r x 512) by lia.
  rewrite Z.mul_comm, Z.mod_add by lia. apply Z.mod_mod. lia.
Qed.

Lemma u32_add_inj nr x y : 0 <= x <= PIPESIZE -> 0 <= y <= PIPESIZE -> u32 (nr + x) = u32 (nr + y) -> x = y.
Proof. unfold u32, PIPESIZE. intros Hx Hy H. dlia. Qed.

Lemma ring_inj nr x y : 0 <= x < PIPESIZE -> 0 <= y < PIPESIZE -> (nr + x) mod PIPESIZE = (nr + y) mod PIPESIZE -> x = y.
Proof. unfold PIPESIZE. intros Hx Hy H. dlia. Qed.

(** Writing a byte. *)
Lemma piped_put m p nr q ro wo v : mem_ok m -> piped m p nr q ro wo -> alen q < PIPESIZE -> 0 <= v < 256 ->
  let nw := u32 (nr + alen q) in
  piped (store8 (store32 m (pipe_nwrite p) (u32 (nw + 1))) (pipe_data p (nw mod PIPESIZE)) v) p nr (q ++ [v]) ro wo.
Proof.
  intros Hm [H1 H2 H3 H4 H5 H6 H7] Hlt Hv nw. pose proof (alen_nonneg q). set (m1 := store32 m _ _).
  assert (Hpos : 0 <= nw mod PIPESIZE < PIPESIZE) by (apply Z.mod_pos_bound; done).
  assert (Hld : forall a, pipe_nread p <= a -> load32 (store8 m1 (pipe_data p (nw mod PIPESIZE)) v) a = load32 m1 a).
  { intros a Ha. apply load32_ext. intros i Hi. apply store8_ne. unfold pipe_data, pipe_nread in *. lia. }
  assert (Hne : forall a, pipe_nwrite p + 4 <= a \/ a + 4 <= pipe_nwrite p -> load32 m1 a = load32 m a).
  { intros a Ha. apply load32_out. lia. }
  split; try done; rewrite ?alen_app; change (alen [v]) with 1.
  - rewrite Hld, Hne; [done|unfold pipe_nwrite; lia|lia].
  - rewrite Hld by (unfold pipe_nwrite; lia). unfold m1. rewrite load32_store32 by (apply Z.mod_pos_bound; done).
    unfold nw, u32. rewrite Z.add_mod_idemp_l by done. f_equal. lia.
  - lia.
  - intros j Hj. rewrite aget_app by lia. case_decide as Hd.
    + rewrite H5 by lia. rewrite store8_ne.
      * unfold m1. rewrite store32_out; [done|]. unfold pipe_nwrite, pipe_nread, pipe_data. pose proof (Z.mod_pos_bound (nr + j) PIPESIZE ltac:(done)). lia.
      * unfold nw. rewrite u32_512. unfold pipe_data. intros E. assert (j = alen q); [|lia]. apply (ring_inj nr); lia.
    + replace (j - alen q) with 0 by lia. replace (nr + j) with (nr + alen q) by lia. unfold nw. rewrite u32_512, store8_eq. by rewrite byte_id.
  - rewrite Hld, Hne; [done|unfold pipe_readopen, pipe_nwrite; lia|unfold pipe_readopen; lia].
  - rewrite Hld, Hne; [done|unfold pipe_writeopen, pipe_nwrite; lia|unfold pipe_writeopen; lia].
Qed.

(** Taking a byte. *)
Lemma piped_take m p nr c q ro wo : piped m p nr (c :: q) ro wo ->
  piped (store32 m (pipe_nread p) (u32 (nr + 1))) p (u32 (nr + 1)) q ro wo /\ m (pipe_data p (nr mod PIPESIZE)) = c.
Proof.
  intros [H1 H2 H3 H4 H5 H6 H7]. rewrite alen_cons in *. pose proof (alen_nonneg q). split.
  - split; [apply Z.mod_pos_bound; done| | |lia|..].
    + apply load32_store32. apply Z.mod_pos_bound. done.
    + rewrite load32_out by (unfold pipe_nwrite; lia). rewrite H3. unfold u32. rewrite Z.add_mod_idemp_l by done. f_equal. lia.
    + intros j Hj. rewrite store32_out.
      2:{ unfold pipe_nread, pipe_data. pose proof (Z.mod_pos_bound (u32 (nr + 1) + j) PIPESIZE ltac:(done)). lia. }
      specialize (H5 (j + 1) ltac:(lia)). unfold aget in H5 |- *. destruct (Z.leb_spec 0 (j + 1)), (Z.leb_spec 0 j); try lia.
      replace (Z.to_nat (j + 1)) with (S (Z.to_nat j)) in H5 by lia. change ((c :: q) !! S (Z.to_nat j)) with (q !! Z.to_nat j) in H5. rewrite H5. do 3 f_equal.
      rewrite <- (u32_512 (nr + (j + 1))), <- (u32_512 (u32 (nr + 1) + j)). unfold u32. rewrite Z.add_mod_idemp_l by done. do 2 f_equal. lia.
    + rewrite load32_out by (unfold pipe_readopen; lia). done.
    + rewrite load32_out by (unfold pipe_writeopen; lia). done.
  - specialize (H5 0 ltac:(lia)). rewrite Z.add_0_r in H5. by injection H5.
Qed.

(** Memory outside the pipe does not matter. *)
Lemma piped_frame m m' p nr q ro wo : piped m p nr q ro wo -> (forall x, p <= x < pipe_end p -> m' x = m x) -> piped m' p nr q ro wo.
Proof.
  intros [H1 H2 H3 H4 H5 H6 H7] Hm. unfold pipe_end in Hm.
  assert (Hl : forall a, p <= a -> a + 4 <= pipe_end p -> load32 m' a = load32 m a).
  { intros a Ha Ha'. apply load32_ext. intros i Hi. apply Hm. unfold pipe_end in *. lia. }
  assert (Hw : forall o, 0 <= o <= 12 -> load32 m' (pipe_nread p + o) = load32 m (pipe_nread p + o)).
  { intros o Ho. apply Hl; unfold pipe_end, pipe_nread, PIPESIZE; lia. }
  pose proof (Hw 0 ltac:(lia)) as Hw0. rewrite Z.add_0_r in Hw0.
  split; try done; [by rewrite Hw0|by rewrite <- H3; apply (Hw 4)| |by rewrite <- H6; apply (Hw 8)|by rewrite <- H7; apply (Hw 12)].
  intros j Hj. rewrite H5 by done. f_equal. symmetry. apply Hm. unfold pipe_data. pose proof (Z.mod_pos_bound (nr + j) PIPESIZE ltac:(done)). lia.
Qed.
End ring.

Section loops.
Context {fuel : Fuel} (Hfuel : (0 < wakeups)%nat).
Implicit Types (k : kernel) (m : mem) (p nr addr x i : Z) (q : list Z).

Lemma wait_room_ok f k p nr q ro wo : (0 < f)%nat -> piped (k_mem k) p nr q ro wo -> alen q < PIPESIZE -> wait_room f p k = Ret true k.
Proof.
  intros Hf H Hlt. destruct f as [|f]; [lia|]. cbn [wait_room]. unfold ld. mstep. mstep. rewrite (pi_nw _ _ _ _ _ _ H), (pi_nr _ _ _ _ _ _ H).
  destruct (Z.eqb_spec (u32 (nr + alen q)) (u32 (nr + PIPESIZE))) as [E|E]; [|done]. pose proof (alen_nonneg q).
  apply u32_add_inj in E; unfold PIPESIZE in *; lia.
Qed.

Lemma wait_data_ok k p nr q ro wo : piped (k_mem k) p nr q ro wo -> q <> [] \/ wo = 0 -> wait_data wakeups p k = Ret true k.
Proof.
  intros H Hq. destruct wakeups as [|f]; [lia|]. cbn [wait_data]. unfold ld. do 3 mstep.
  rewrite (pi_nw _ _ _ _ _ _ H), (pi_nr _ _ _ _ _ _ H), (pi_wo _ _ _ _ _ _ H). destruct (Z.eqb_spec nr (u32 (nr + alen q))) as [E|E]; [|done].
  destruct Hq as [Hq| ->]; [|done]. destruct q as [|c q]; [done|]. pose proof (alen_nonneg q). pose proof (pi_len _ _ _ _ _ _ H). pose proof (pi_range _ _ _ _ _ _ H).
  rewrite alen_cons in *. rewrite <- (u32_small nr) in E at 1 by done. rewrite <- (Z.add_0_r nr) in E at 1. apply u32_add_inj in E; unfold PIPESIZE in *; lia.
Qed.

(** Addresses a caller may use. *)
Definition away p addr (n : Z) : Prop := addr + n <= p \/ pipe_end p <= addr.

Lemma write_bytes_ok n : forall k p nr q ro wo addr i, mem_ok (k_mem k) -> piped (k_mem k) p nr q ro wo ->
  alen q + Z.of_nat n <= PIPESIZE -> away p (addr + i) (Z.of_nat n) ->
  exists m', write_bytes n p addr i k = Ret true (k <| k_mem := m' |>) /\ mem_ok m' /\
    piped m' p nr (q ++ bytes_at (k_mem k) (addr + i) n) ro wo /\ forall x, ~ (p <= x < pipe_end p) -> m' x = k_mem k x.
Proof.
  induction n as [|n IH]; intros k p nr q ro wo addr i Hm Hp Hl Ha; cbn [write_bytes].
  - exists (k_mem k). split_and!; [by destruct k|done|by rewrite app_nil_r|done].
  - run (wait_room_ok wakeups); [|done|done|lia]. unfold ld, st. do 4 mstep. rewrite (pi_nw _ _ _ _ _ _ Hp).
    set (nw := u32 (nr + alen q)). set (v := k_mem k (addr + i)). set (m1 := store32 (k_mem k) (pipe_nwrite p) (u32 (nw + 1))).
    assert (Hv : m1 (addr + i) = v) by (apply store32_out; unfold away, pipe_end, pipe_nwrite, pipe_nread, PIPESIZE in *; lia).
    set (m2 := store8 m1 (pipe_data p (nw mod PIPESIZE)) v). assert (Hm1 : mem_ok m1) by (by apply store32_ok).
    assert (Hm2 : mem_ok m2) by (by apply store8_ok).
    assert (Hp2 : piped m2 p nr (q ++ [v]) ro wo) by (apply piped_put; try done; [lia|apply Hm]).
    assert (Ho : forall x, ~ (p <= x < pipe_end p) -> m2 x = k_mem k x).
    { intros x Hx. pose proof (Z.mod_pos_bound nw PIPESIZE ltac:(done)). unfold m2, m1, pipe_end, pipe_data, pipe_nwrite, pipe_nread in *.
      rewrite store8_ne by lia. apply store32_out. lia. }
    destruct (IH (k <| k_mem := m2 |>) p nr (q ++ [v]) ro wo addr (i + 1)) as (m' & E & Hm' & Hp' & Ho'); ksimpl; try done.
    { rewrite alen_app. change (alen [v]) with 1. lia. } { unfold away in *. lia. }
    exists m'. split_and!; [|done| |intros x Hx; rewrite Ho' by done; by apply Ho].
    + transitivity (write_bytes n p addr (i + 1) (k <| k_mem := m2 |>)); [|rewrite E; by destruct k]. f_equal.
      unfold m2. rewrite <- Hv. unfold m1. by destruct k.
    + rewrite bytes_at_S. replace (addr + i + 1) with (addr + (i + 1)) by lia. rewrite <- app_assoc in Hp'. cbn [app] in Hp'.
      replace (bytes_at (k_mem k) (addr + (i + 1)) n) with (bytes_at m2 (addr + (i + 1)) n); [done|].
      apply list_fmap_ext. intros j x [-> Hj]%lookup_seqZ. apply Ho. unfold away in Ha. lia.
Qed.

Lemma put_at_cons m a c q x : 0 <= c < 256 -> put_at m a (c :: q) x = put_at (store8 m a c) (a + 1) q x.
Proof.
  intros Hc. unfold put_at, aget. destruct (Z.leb_spec 0 (x - a)) as [H|H], (Z.leb_spec 0 (x - (a + 1))) as [H'|H']; try lia.
  - replace (Z.to_nat (x - a)) with (S (Z.to_nat (x - (a + 1)))) by lia. cbn. rewrite store8_ne by lia. done.
  - assert (x = a) as -> by lia. rewrite Z.sub_diag. cbn. by rewrite store8_eq, byte_id.
  - cbn. by rewrite store8_ne by lia.
Qed.

Lemma put_at_ext m m' a q x : m' x = m x -> put_at m' a q x = put_at m a q x.
Proof. intros H. unfold put_at. by rewrite H. Qed.

Lemma read_bytes_ok n : forall k p nr q ro wo addr i, mem_ok (k_mem k) -> piped (k_mem k) p nr q ro wo ->
  away p (addr + i) (Z.of_nat n) -> let c := Nat.min n (length q) in
  exists m' nr', read_bytes n p addr i k = Ret (i + Z.of_nat c) (k <| k_mem := m' |>) /\ mem_ok m' /\
    piped m' p nr' (drop c q) ro wo /\ forall x, ~ (p <= x < pipe_end p) -> m' x = put_at (k_mem k) (addr + i) (take c q) x.
Proof.
  induction n as [|n IH]; intros k p nr q ro wo addr i Hm Hp Ha c; cbn [read_bytes].
  - exists (k_mem k), nr. unfold c. cbn [Nat.min length take drop]. rewrite Z.add_0_r. split_and!; try done; [by destruct k|]. intros x Hx. unfold put_at. by rewrite ?take_0, aget_nil.
  - unfold ld, st. do 2 mstep. rewrite (pi_nw _ _ _ _ _ _ Hp), (pi_nr _ _ _ _ _ _ Hp). pose proof (pi_range _ _ _ _ _ _ Hp) as Hr. destruct q as [|b q].
    + change (alen (@nil Z)) with 0. rewrite Z.add_0_r, u32_small, Z.eqb_refl by lia. exists (k_mem k), nr. unfold c. cbn [Nat.min length take drop]. rewrite Z.add_0_r.
      split_and!; try done; [by destruct k|]. intros x Hx. unfold put_at. by rewrite ?take_0, aget_nil.
    + destruct (Z.eqb_spec nr (u32 (nr + alen (b :: q)))) as [E|_].
      { assert (0 = alen (b :: q)); [|rewrite alen_cons in *; pose proof (alen_nonneg q); lia]. pose proof (pi_len _ _ _ _ _ _ Hp).
        apply (u32_add_inj nr); [done|pose proof (alen_nonneg (b :: q)); lia|]. by rewrite <- E, Z.add_0_r, u32_small by lia. }
      do 3 mstep. destruct (piped_take _ _ _ _ _ _ _ Hp) as [Hp1 Hb]. set (m1 := store32 (k_mem k) (pipe_nread p) (u32 (nr + 1))) in *.
      set (m2 := store8 m1 (addr + i) (m1 (pipe_data p (nr mod PIPESIZE)))). pose proof (Z.mod_pos_bound nr PIPESIZE ltac:(done)).
      assert (Hb1 : m1 (pipe_data p (nr mod PIPESIZE)) = b) by (rewrite <- Hb; apply store32_out; unfold pipe_nread, pipe_data; lia).
      assert (Hm2 : mem_ok m2) by (by apply store8_ok, store32_ok).
      assert (Hp2 : piped m2 p (u32 (nr + 1)) q ro wo) by (apply (piped_frame m1); [done|]; intros x Hx; apply store8_ne; unfold away in Ha; lia).
      destruct (IH (k <| k_mem := m2 |>) p (u32 (nr + 1)) q ro wo addr (i + 1)) as (m' & nr' & E & Hm' & Hp' & Ho'); ksimpl; try done; [unfold away in *; lia|].
      exists m', nr'. unfold c. cbn [length Nat.min firstn skipn]. split_and!; try done.
      * transitivity (read_bytes n p addr (i + 1) (k <| k_mem := m2 |>)); [f_equal; by destruct k|]. rewrite E.
        replace (i + 1 + Z.of_nat (n `min` length q)) with (i + Z.of_nat (S (n `min` length q))) by lia. by destruct k.
      * intros x Hx. rewrite Ho' by done. rewrite put_at_cons by (rewrite <- Hb; apply Hm). ksimpl. unfold m2. rewrite Hb1, Z.add_assoc.
        apply put_at_ext. unfold store8. case_match; [done|]. apply store32_out. unfold pipe_end, pipe_nread, PIPESIZE in *. lia.
Qed.
End loops.

Section ops.
Context {fuel : Fuel} (Hfuel : (0 < wakeups)%nat).
Implicit Types (k : kernel) (m : mem) (p addr n x : Z) (q : list Z).

(** The pipe at [p] holds [q], and memory outside the pipe is [m]. *)
Record stream k p q wo m : Prop := {
  sr_pt : pt_ready k;
  sr_lock : lock_free (pipe_lock p) (k_mach k);
  sr_ok : mem_ok (k_mem k);
  sr_pipe : exists nr ro, piped (k_mem k) p nr q ro wo;
  sr_mem : forall x, ~ (p <= x < pipe_end p) -> k_mem k x = m x }.

(** The state after an operation that changes memory and wakes processes. *)
Definition after k (m' : mem) (ch : chan) : kernel :=
  kst ((k <| k_mem := m' |>) <| k_proc ::= fmap (wake ch) |>) (settle (k_mach k)).

Lemma after_stream k p q q' wo m m1 m' nr ro ch : stream k p q wo m -> mem_ok m1 -> piped m1 p nr q' ro wo ->
  (forall x, ~ (p <= x < pipe_end p) -> m1 x = m' x) -> stream (after k m1 ch) p q' wo m'.
Proof.
  intros [[Hok Hlk Hlen] Hl Hm [nr0 [ro0 Hp]] Ho] Hm1 Hp1 Ho1. split; unfold after; ksimpl; try done; [|by apply lock_free_settle|by exists nr, ro].
  split; ksimpl; [by apply settle_ok|by apply lock_free_settle|]. unfold alen in *. by rewrite length_fmap.
Qed.

Lemma critical_ok {A} k p m' (ch : chan) (a : A) : pt_ready k -> lock_free (pipe_lock p) (k_mach k) ->
  (wakeup ch ;;; release (pipe_lock p) ;;; mret a) (kst (k <| k_mem := m' |>) (acq (pipe_lock p) (k_mach k))) = Ret a (after k m' ch).
Proof.
  intros [Hok Hlk Hlen] Hl. run wakeup_ok; [|split; ksimpl; [by apply acq_ok|by apply lock_free_acq|done]].
  knorm. rewrite settle_acq by done. erewrite bind_Ret; [|by apply (release_acq _ _ (k_mach k))]. unfold after. by knorm.
Qed.

Lemma pipewrite_ok k p q wo m addr n : stream k p q wo m -> 0 <= n -> alen q + n <= PIPESIZE -> away p addr n ->
  exists m1, pipewrite p addr n k = Ret n (after k m1 (nread_chan p)) /\
    stream (after k m1 (nread_chan p)) p (q ++ bytes_at m addr (Z.to_nat n)) wo m.
Proof.
  intros Hs Hn Hl Ha. pose proof Hs as [Hpt Hlk Hm [nr [ro Hp]] Ho]. pose proof Hpt as [Hok _ _].
  destruct (write_bytes_ok Hfuel (Z.to_nat n) (kst k (acq (pipe_lock p) (k_mach k))) p nr q ro wo addr 0) as (m1 & E & Hm1 & Hp1 & Ho1); ksimpl; try done.
  { lia. } { rewrite Z.add_0_r, Z2Nat.id by done. done. }
  exists m1. split.
  - unfold pipewrite. run acquire_ok; [|done..]. run E. knorm. by apply critical_ok.
  - eapply after_stream; [done|done| |]. 
    + replace (bytes_at m addr (Z.to_nat n)) with (bytes_at (k_mem k) (addr + 0) (Z.to_nat n)); [done|]. rewrite Z.add_0_r.
      apply list_fmap_ext. intros j x [-> Hj]%lookup_seqZ. apply Ho. unfold away in Ha. lia.
    + intros x Hx. rewrite Ho1 by done. ksimpl. by apply Ho.
Qed.

Lemma piperead_ok k p q wo m addr n : stream k p q wo m -> 0 <= n -> q <> [] \/ wo = 0 -> away p addr n ->
  let c := Z.min n (alen q) in
  exists m1, piperead p addr n k = Ret c (after k m1 (nwrite_chan p)) /\
    stream (after k m1 (nwrite_chan p)) p (drop (Z.to_nat c) q) wo (put_at m addr (take (Z.to_nat c) q)).
Proof.
  intros Hs Hn Hq Ha c. pose proof Hs as [Hpt Hlk Hm [nr [ro Hp]] Ho]. pose proof Hpt as [Hok _ _]. pose proof (alen_nonneg q).
  destruct (read_bytes_ok Hfuel (Z.to_nat n) (kst k (acq (pipe_lock p) (k_mach k))) p nr q ro wo addr 0) as (m1 & nr' & E & Hm1 & Hp1 & Ho1); ksimpl; try done.
  { rewrite Z.add_0_r, Z2Nat.id by done. done. }
  assert (Ec : (Z.to_nat n `min` length q)%nat = Z.to_nat c) by (unfold c, alen; lia). rewrite Ec in *.
  exists m1. split.
  - unfold piperead. run acquire_ok; [|done..]. erewrite bind_Ret; [|by apply (wait_data_ok Hfuel _ p nr q ro wo)].
    cbv beta iota. run E. knorm. rewrite Z.add_0_l, Z2Nat.id by (unfold c; lia). by apply critical_ok.
  - eapply after_stream; [done|done|done|]. intros x Hx. rewrite Ho1 by done. rewrite Z.add_0_r. apply put_at_ext. ksimpl. by apply Ho.
Qed.
End ops.

(** ** Sequences of operations *)

Inductive pipe_op := Pwrite (addr n : Z) | Pread (addr n : Z).

Definition pipe_step {fuel : Fuel} (p : Z) (o : pipe_op) : K Z :=
  match o with Pwrite a n => pipewrite p a n | Pread a n => piperead p a n end.
Fixpoint pipe_run {fuel : Fuel} (p : Z) (os : list pipe_op) : K (list Z) :=
  match os with
  | [] => mret []
  | o :: os' => r ← pipe_step p o; rs ← pipe_run p os'; mret (r :: rs)
  end.

(** The specification: the bytes in the stream and memory.  An operation that
    would have to wait, or that uses the memory of the pipe, has no result. *)
Definition fifo_step (p wo : Z) (o : pipe_op) (s : list Z * mem) : option (Z * (list Z * mem)) :=
  let free a n := (0 <=? n) && ((a + n <=? p) || (pipe_end p <=? a)) in
  match o with
  | Pwrite a n =>
      if free a n && (alen s.1 + n <=? PIPESIZE) then Some (n, (s.1 ++ bytes_at s.2 a (Z.to_nat n), s.2)) else None
  | Pread a n =>
      if free a n && (negb (alen s.1 =? 0) || (wo =? 0)) then
        let c := Z.min n (alen s.1) in
        Some (c, (drop (Z.to_nat c) s.1, put_at s.2 a (take (Z.to_nat c) s.1)))
      else None
  end.
Fixpoint fifo_run (p wo : Z) (os : list pipe_op) (s : list Z * mem) : option (list Z * (list Z * mem)) :=
  match os with
  | [] => Some ([], s)
  | o :: os' => '(r, s) ← fifo_step p wo o s; '(rs, s) ← fifo_run p wo os' s; Some (r :: rs, s)
  end.

Lemma pipe_step_sim {fuel : Fuel} k p wo o q m r q' m' : (0 < wakeups)%nat -> stream k p q wo m ->
  fifo_step p wo o (q, m) = Some (r, (q', m')) -> exists k', pipe_step p o k = Ret r k' /\ stream k' p q' wo m'.
Proof.
  intros Hf Hs E. destruct o as [a n|a n]; cbn [fifo_step fst snd] in E.
  - destruct (Z.leb_spec 0 n) as [Hn|]; [|done]. cbn [andb] in E.
    destruct (Z.leb_spec (a + n) p) as [H1|H1], (Z.leb_spec (pipe_end p) a) as [H2|H2]; cbn [orb andb] in E; try done;
      destruct (Z.leb_spec (alen q + n) PIPESIZE) as [H3|H3]; try done; injection E as <- <- <-;
      (destruct (pipewrite_ok Hf k p q wo m a n Hs Hn H3) as (m1 & E1 & Hs1); [unfold away; lia|eauto]).
  - destruct (Z.leb_spec 0 n) as [Hn|]; [|done]. cbn [andb] in E.
    assert (Ha : away p a n /\ (q <> [] \/ wo = 0) /\ Some (Z.min n (alen q), (drop (Z.to_nat (Z.min n (alen q))) q, put_at m a (take (Z.to_nat (Z.min n (alen q))) q))) = Some (r, (q', m'))).
    { unfold away. destruct (Z.leb_spec (a + n) p) as [H1|H1], (Z.leb_spec (pipe_end p) a) as [H2|H2]; cbn [orb andb] in E; try done;
        (destruct (Z.eqb_spec (alen q) 0) as [H3|H3]; cbn [negb orb] in E; [destruct (Z.eqb_spec wo 0); [|done]|]; split_and!; try done; try lia; try (by right); left; by intros ->). }
    destruct Ha as (Ha & Hq & Hr). injection Hr as <- <- <-. destruct (piperead_ok Hf k p q wo m a n Hs Hn Hq Ha) as (m1 & E1 & Hs1). eauto.
Qed.

(** C8. A pipe is a byte stream.  Through any sequence of writes that fit and
    reads that need not wait, whatever the counters have wrapped around to,
    [pipewrite] and [piperead] answer as a queue of bytes does: the bytes come
    out in the order they went in, none lost and none twice, a read gets as
    many as there are up to its count, and memory outside the pipe changes
    only where a read stores them. *)
Theorem pipe_refines_stream {fuel : Fuel} (p wo : Z) os : forall k q m rs q' m',
  (0 < wakeups)%nat -> stream k p q wo m -> fifo_run p wo os (q, m) = Some (rs, (q', m')) ->
  exists k', pipe_run p os k = Ret rs k' /\ stream k' p q' wo m'.
Proof.
  induction os as [|o os IH]; intros k q m rs q' m' Hf Hs E; cbn [fifo_run pipe_run] in *.
  - injection E as <- <- <-. by exists k.
  - destruct (fifo_step p wo o (q, m)) as [[r [q1 m1]]|] eqn:E1; [|done]. cbn in E.
    destruct (fifo_run p wo os (q1, m1)) as [[rs1 [q2 m2]]|] eqn:E2; [|done]. cbn in E. injection E as <- <- <-.
    destruct (pipe_step_sim k p wo o q m r q1 m1 Hf Hs E1) as (k1 & R1 & Hs1).
    destruct (IH k1 q1 m1 rs1 q2 m2 Hf Hs1 E2) as (k2 & R2 & Hs2). exists k2. split; [|done]. run R1. by run R2.
Qed.

(** ** A full pipe *)

Section full.
Context {fuel : Fuel} (k : kernel) (i : nat) (pr : proc) (p nr : Z) (q : list Z) (ro wo : Z).
Context (Hf : (1 < wakeups)%nat) (Hrest : resting (k_mach k)) (Hrun : running k i pr) (Hlen : alen (k_proc k) = NPROC).
Context (Hl : lock_free (pipe_lock p) (k_mach k)) (Hp : piped (k_mem k) p nr q ro wo) (Hfull : alen q = PIPESIZE).
Let k1 : kernel := kst k (acq (pipe_lock p) (k_mach k)).

Lemma full_me : me k1 = Ret pr k1.
Proof.
  rewrite (me_ok k1 i pr).
  - unfold k1. ksimpl. rewrite settle_acq by apply Hrun. by knorm.
  - split; unfold k1; ksimpl; [apply acq_ok, Hrun|rewrite cur_proc_acq by apply Hrun; apply Hrun|apply Hrun].
Qed.

Definition stopped : bool := (ro =? 0) || negb (p_killed pr =? 0).

Lemma full_stop : (if ro =? 0 then mret true else q ← me; mret (negb (p_killed q =? 0))) k1 = Ret stopped k1.
Proof. unfold stopped. destruct (ro =? 0); [done|]. by run full_me. Qed.

Lemma full_room f : wait_room (S f) p k1 =
  (if stopped then release (pipe_lock p) ;;; mret false
   else wakeup (nread_chan p) ;;; sleep (nwrite_chan p) (Some (pipe_lock p)) ;;; wait_room f p) k1.
Proof.
  cbn [wait_room]. unfold ld. do 2 mstep. unfold k1 at 1 2. ksimpl. rewrite (pi_nw _ _ _ _ _ _ Hp), (pi_nr _ _ _ _ _ _ Hp), Hfull, Z.eqb_refl.
  mstep. unfold k1 at 1. ksimpl. rewrite (pi_ro _ _ _ _ _ _ Hp). by run full_stop.
Qed.

Lemma full_stopped addr n : 0 < n -> stopped = true -> pipewrite p addr n k = Ret (-1) (kst k (settle (k_mach k))).
Proof.
  intros Hn Hst. unfold pipewrite. run acquire_ok; [|apply Hrun|done]. fold k1. destruct (Z.to_nat n) as [|n'] eqn:En; [lia|].
  assert (E : release (pipe_lock p) k1 = Ret tt (kst k (settle (k_mach k)))).
  { rewrite (release_acq _ _ (k_mach k)); [|apply Hrun|done|done]. unfold k1. by knorm. }
  assert (Ew : wait_room wakeups p k1 = Ret false (kst k (settle (k_mach k)))).
  { destruct wakeups as [|f]; [lia|]. rewrite full_room, Hst. by run E. }
  assert (Eb : write_bytes (S n') p addr 0 k1 = Ret false (kst k (settle (k_mach k)))) by (cbn [write_bytes]; by run Ew).
  by run Eb.
Qed.

(** The process is put to sleep, and the readers are woken. *)
Lemma full_sleeps addr n : 0 < n -> stopped = false ->
  exists s cont, pipewrite p addr n k = Switch s cont /\
    s = kst (k <| k_proc ::= fun ps => <[i := (wake (nread_chan p) pr) <| p_chan := nwrite_chan p |> <| p_state := SLEEPING |>]> (wake (nread_chan p) <$> ps) |>)
          (acq ptable_lock (settle (k_mach k))) /\
    lock_free (pipe_lock p) (k_mach s) /\
    forall s' mc p' nr' q' ro', resting mc -> lock_free (pipe_lock p) mc -> k_mach s' = acq ptable_lock mc ->
      aget (k_proc s') (Z.of_nat i) = Some p' -> alen (k_proc s') = NPROC -> mem_ok (k_mem s') ->
      piped (k_mem s') p nr' q' ro' wo -> alen q' + n <= PIPESIZE -> away p addr n ->
      exists k', cont s' = Ret n k' /\ piped (k_mem k') p nr' (q' ++ bytes_at (k_mem s') addr (Z.to_nat n)) ro' wo /\
        lock_free (pipe_lock p) (k_mach k').
Proof.
  intros Hn Hst. pose proof Hrun as [Hok Hc Hpr]. pose proof (aget_lt _ _ _ Hpr) as Hlt.
  set (k2 := k1 <| k_proc ::= fmap (wake (nread_chan p)) |>).
  assert (Ew : wakeup (nread_chan p) k1 = Ret tt k2).
  { rewrite wakeup_ok; [|split; unfold k1; ksimpl; [by apply acq_ok|apply lock_free_acq; [done|apply Hrest]|done]].
    unfold k2, k1. knorm. by rewrite settle_acq by done. }
  destruct (sleep_ok k2 (k_mach k) (nwrite_chan p) (pipe_lock p) i (wake (nread_chan p) pr)) as (s & cont & Hsw & Hs & Hls & _ & Hres); try done.
  { unfold k2, k1. ksimpl. by rewrite aget_fmap, Hpr. }
  destruct wakeups as [|f] eqn:Ef; [lia|]. destruct (Z.to_nat n) as [|n'] eqn:En; [lia|]. exists s. eexists. split.
  { unfold pipewrite. run acquire_ok; [|done|done]. fold k1. rewrite En. cbn [write_bytes]. rewrite Ef.
    apply bind_Switch, bind_Switch. rewrite full_room, Hst. run Ew. by apply bind_Switch. }
  split; [rewrite Hs; unfold k2, k1; by knorm|]. split; [done|]. intros s' mc p' nr' q' ro' Hr' Hl' Hs' Hp' Hlen' Hm' Hpi Hfit Haw.
  pose proof (resting_if _ (m_if (k_mach k)) Hr') as Hr''. rewrite (Hres s' mc p') by done. cbn [res_bind].
  set (kb := kst (s' <| k_proc ::= <[i := p' <| p_chan := CInt 0 |>]> |>) (settle (mc <| m_if := m_if (k_mach k) |>))).
  change (kst (s' <| k_proc ::= _ |>) (acq _ _)) with (kst kb (acq (pipe_lock p) (k_mach kb))). set (t := kst kb _).
  assert (Hpt : pt_ready kb) by (split; unfold kb; ksimpl; [apply settle_ok, Hr''|apply lock_free_settle, Hr''|by rewrite alen_insert]).
  assert (Hlb : lock_free (pipe_lock p) (k_mach kb)) by (unfold kb; ksimpl; apply lock_free_settle; exact Hl').
  rewrite (wait_room_ok ltac:(lia) f t p nr' q' ro' wo) by (done || lia). cbn [res_bind].
  destruct (write_bytes_ok ltac:(lia) (S n') t p nr' q' ro' wo addr 0) as (m1 & E & Hm1 & Hp1 & _); try done; [lia|rewrite Z.add_0_r; replace (Z.of_nat (S n')) with n by lia; done|].
  cbn [write_bytes] in E. rewrite Ef in E. erewrite bind_Ret in E; [|by apply (wait_room_ok ltac:(lia) (S f) t p nr' q' ro' wo); [lia|done|lia]]. cbv beta iota in E.
  exists (after kb m1 (nread_chan p)). split_and!.
  - cbn iota. rewrite E. cbn [res_bind]. unfold t. knorm. by apply critical_ok.
  - unfold after. ksimpl. rewrite Z.add_0_r in Hp1. done.
  - unfold after. ksimpl. by apply lock_free_settle.
Qed.
End full.

(** C32. Writing to a full pipe.  If the read end is closed or the process has been
    killed, [pipewrite] gives the lock back and answers -1.  Otherwise the
    readers are woken and the process sleeps, the pipe's lock free and the
    table's held, so that no wakeup is missed; resumed when the pipe has room
    again, it appends all its bytes and answers their number. *)
Theorem pipewrite_full {fuel : Fuel} (k : kernel) (i : nat) (pr : proc) (p nr : Z) (q : list Z) (ro wo addr n : Z) :
  (1 < wakeups)%nat -> resting (k_mach k) -> running k i pr -> alen (k_proc k) = NPROC ->
  lock_free (pipe_lock p) (k_mach k) -> piped (k_mem k) p nr q ro wo -> alen q = PIPESIZE -> 0 < n ->
  if (ro =? 0) || negb (p_killed pr =? 0) then pipewrite p addr n k = Ret (-1) (kst k (settle (k_mach k)))
  else exists s cont, pipewrite p addr n k = Switch s cont /\
    s = kst (k <| k_proc ::= fun ps => <[i := (wake (nread_chan p) pr) <| p_chan := nwrite_chan p |> <| p_state := SLEEPING |>]> (wake (nread_chan p) <$> ps) |>)
          (acq ptable_lock (settle (k_mach k))) /\
    lock_free (pipe_lock p) (k_mach s) /\
    forall s' mc p' nr' q' ro', resting mc -> lock_free (pipe_lock p) mc -> k_mach s' = acq ptable_lock mc ->
      aget (k_proc s') (Z.of_nat i) = Some p' -> alen (k_proc s') = NPROC -> mem_ok (k_mem s') ->
      piped (k_mem s') p nr' q' ro' wo -> alen q' + n <= PIPESIZE -> away p addr n ->
      exists k', cont s' = Ret n k' /\ piped (k_mem k') p nr' (q' ++ bytes_at (k_mem s') addr (Z.to_nat n)) ro' wo /\
        lock_free (pipe_lock p) (k_mach k').
Proof.
  intros Hf Hrest Hrun Hlen Hl Hp Hfull Hn. fold (stopped pr ro). destruct (stopped pr ro) eqn:E; [by eapply full_stopped|by eapply full_sleeps].
Qed.
