(* ===== verification/File.v ===== *)
(** * Open files ([file.c], and [pipealloc] of [pipe.c]) *)

From S2P Require Import Prelude State Spinlock CString Kalloc Console Vm Message Container Proc Syscall.
From S2P Require Import Sleeplock Bio Log Fs Names Pipe.
Open Scope Z_scope.

Definition ftable_lock : lockid := ("ftable", 0).
Definition f_at (f : Z) : K file := k ← get; rd "file" (k_file k) f.
Definition f_set (f : Z) (g : file -> file) : K unit :=
  x ← f_at f;
  k ← get;
  fs ← wr "file" (k_file k) f (g x);
  modify (fun k => k <| k_file := fs |>).

Section file.
Context {fuel : Fuel} {disk : BlockDev} {devs : DevOps}.

Definition fileinit : K unit := initlock ftable_lock "ftable".

Definition filealloc : K (option Z) :=
  acquire ftable_lock ;;;
  r ← for_ (Z.to_nat NFILE) 0 (fun f =>
    x ← f_at f;
    if f_ref x =? 0 then
      f_set f (fun x => x <| f_ref := 1 |>) ;;;
      release ftable_lock ;;;
      mret (Some f)
    else mret None);
  match r with
  | Some f => mret (Some f)
  | None => release ftable_lock ;;; mret None
  end.

Definition filedup (f : Z) : K Z :=
  acquire ftable_lock ;;;
  x ← f_at f;
  if f_ref x <? 1 then panic "filedup"
  else
    f_set f (fun x => x <| f_ref ::= Z.add 1 |>) ;;;
    release ftable_lock ;;;
    mret f.

Definition fileclose (f : Z) : K unit :=
  acquire ftable_lock ;;;
  x ← f_at f;
  if f_ref x <? 1 then panic "fileclose"
  else
    f_set f (fun x => x <| f_ref ::= fun n => n - 1 |>) ;;;
    x ← f_at f;
    if 0 <? f_ref x then release ftable_lock
    else
      ff ← f_at f;
      f_set f (fun x => x <| f_ref := 0 |>) ;;;
      f_set f (fun x => x <| f_type := FD_NONE |>) ;;;
      release ftable_lock ;;;
      match f_type ff with
      | FD_PIPE => pipeclose (f_pipe ff) (f_writable ff)
      | FD_INODE =>
          begin_op ;;;
          ip ← deref_ip (f_ip ff);
          iput ip ;;;
          end_op
      | FD_NONE => mret tt
      end.

Definition ip_ptr (ip : option nat) : option Z := Z.of_nat <$> ip.

Definition filestat (f st : Z) : K Z :=
  x ← f_at f;
  match f_type x with
  | FD_INODE =>
      ilock (ip_ptr (f_ip x)) ;;;
      ip ← deref_ip (f_ip x);
      stati ip st ;;;
      iunlock (ip_ptr (f_ip x)) ;;;
      mret 0
  | _ => mret (-1)
  end.

Definition fileread_gen (put : Z -> list Z -> K unit) (pipe : Z -> K Z) (f n : Z) : K (Z * list Z) :=
  x ← f_at f;
  if f_readable x =? 0 then mret (-1, [])
  else
    match f_type x with
    | FD_PIPE => r ← pipe (f_pipe x); mret (r, [])
    | FD_INODE =>
        ilock (ip_ptr (f_ip x)) ;;;
        x ← f_at f;
        ip ← deref_ip (f_ip x);
        r ← readi_gen put ip (f_off x) (u32 n);
        when (0 <? r.1) (f_set f (fun x => x <| f_off ::= fun o => u32 (o + r.1) |>)) ;;;
        x ← f_at f;
        iunlock (ip_ptr (f_ip x)) ;;;
        mret r
    | FD_NONE => panic "fileread"
    end.
Definition fileread (f addr n : Z) : K Z :=
  r ← fileread_gen (fun o bs => put_mem (addr + o) bs) (fun p => piperead p addr n) f n; mret r.1.

(** The chunks of a write to an inode; [src] gives [n1] bytes from offset [o]. *)
Definition MAXWRITE : Z := (MAXOPBLOCKS - 1 - 1 - 2) / 2 * 512.
Fixpoint write_chunks (g : nat) (src : Z -> Z -> K (list Z)) (f i n : Z) : K Z :=
  match g with
  | O => fun _ => Diverge
  | S g' =>
      if i <? n then
        let n1 := Z.min (n - i) MAXWRITE in
        begin_op ;;;
        x ← f_at f;
        ilock (ip_ptr (f_ip x)) ;;;
        x ← f_at f;
        ip ← deref_ip (f_ip x);
        r ← writei_gen (fun o m => src (i + o) m) ip (f_off x) n1;
        when (0 <? r) (f_set f (fun x => x <| f_off ::= fun o => u32 (o + r) |>)) ;;;
        x ← f_at f;
        iunlock (ip_ptr (f_ip x)) ;;;
        end_op ;;;
        if r <? 0 then mret i
        else if negb (r =? n1) then panic "short filewrite"
        else write_chunks g' src f (i + r) n
      else mret i
  end.

Definition filewrite_gen (src : Z -> Z -> K (list Z)) (pipe : Z -> K Z) (f n : Z) : K Z :=
  x ← f_at f;
  if f_writable x =? 0 then mret (-1)
  else
    match f_type x with
    | FD_PIPE => pipe (f_pipe x)
    | FD_INODE =>
        i ← write_chunks (Z.to_nat (Z.max 0 n / MAXWRITE + 2)) src f 0 n;
        mret (if i =? n then n else -1)
    | FD_NONE => panic "filewrite"
    end.
Definition filewrite (f addr n : Z) : K Z :=
  filewrite_gen (fun o m => get_mem (addr + o) m) (fun p => pipewrite p addr n) f n.

(** ** Making a pipe *)

Definition close_if (f : option Z) : K unit :=
  match f with Some f => fileclose f | None => mret tt end.

(** The two files, or [None] for the error return. *)
Definition pipealloc : K (option (Z * Z)) :=
  f0 ← filealloc;
  f1 ← match f0 with Some _ => filealloc | None => mret None end;
  match f0, f1 with
  | Some a, Some b =>
      p ← kalloc;
      if p =? 0 then close_if f0 ;;; close_if f1 ;;; mret None
      else
        st (pipe_readopen p) 1 ;;;
        st (pipe_writeopen p) 1 ;;;
        st (pipe_nwrite p) 0 ;;;
        st (pipe_nread p) 0 ;;;
        initlock (pipe_lock p) "pipe" ;;;
        f_set a (fun x => x <| f_type := FD_PIPE |> <| f_readable := 1 |> <| f_writable := 0 |> <| f_pipe := p |>) ;;;
        f_set b (fun x => x <| f_type := FD_PIPE |> <| f_readable := 0 |> <| f_writable := 1 |> <| f_pipe := p |>) ;;;
        mret (Some (a, b))
  | _, _ => close_if f0 ;;; close_if f1 ;;; mret None
  end.
End file.
