(* ===== verification/Sysfile.v ===== *)
(** * File system calls ([sysfile.c])

    Argument checking and calls into [file.c] and [fs.c], and the naming of
    files per container: a container other than 0 has its own copy of a file it
    writes, under the name with [$] and the digit of the container appended. *)

From S2P Require Import Prelude State Spinlock CString Kalloc Console Vm Message Container Proc Syscall.
From S2P Require Import Sleeplock Bio Log Fs Names Pipe File.
Open Scope Z_scope.

Definition O_WRONLY : Z := 1.
Definition O_RDWR : Z := 2.
Definition O_CREATE : Z := 0x200.

(** ** The files every container shares *)

Definition initial_files : list string := [
  "."; ".."; "init"; "console"; "shutdown"; "arr"; "cat"; "README"; "assig2a.inp"; "assig2b.inp";
  "echo"; "forktest"; "grep"; "kill"; "ln"; "ls"; "mkdir"; "rm"; "sh"; "stressfs"; "usertests"; "wc";
  "zombie"; "user_toggle"; "user_add"; "user_my"; "print_count"; "jacob"; "maekawa"].
Definition initial_files_with_dot : list string := (fun s => String.append "./" s) <$> initial_files.

(** [strncmp] with a string constant, at an address no pointer has. *)
Definition strncmp_const (m : mem) (p : Z) (s : list Z) (n : Z) : Z :=
  strncmp (mem_at (2 ^ 33) (s ++ [0]) m) p (2 ^ 33) n.

Definition in_initial_files (path : Z) : K Z :=
  n ← k_strlen path;
  m ← gets k_mem;
  let hit := fun s => strncmp_const m path (bytes s) n =? 0 in
  mret (if existsb hit initial_files || existsb hit initial_files_with_dot then 1 else 0).

(** [$] and the container's digit after the [stln] bytes of [path]. *)
Definition tag_path (path stln cid : Z) : K unit :=
  poke (path + stln) 36 ;;;
  poke (path + stln + 1) (cid + 48) ;;;
  poke (path + stln + 2) 0.

Section sysfile.
Context {fuel : Fuel} {disk : BlockDev} {devs : DevOps}.

(** ** File descriptors *)

Definition argfd (n : Z) : K (option (Z * Z)) :=
  fd ← argint n;
  match fd with
  | None => mret None
  | Some fd =>
      if (fd <? 0) || (NOFILE <=? fd) then mret None
      else
        p ← me;
        f ← rd "ofile" (p_ofile p) fd;
        mret (match f with Some f => Some (fd, Z.of_nat f) | None => None end)
  end.

Definition set_ofile (i fd : Z) (f : option nat) : K unit :=
  p ← p_at i;
  l ← wr "ofile" (p_ofile p) fd f;
  p_set i (fun p => p <| p_ofile := l |>).

Definition fdalloc (f : Z) : K Z :=
  i ← curproc;
  r ← for_ (Z.to_nat NOFILE) 0 (fun fd =>
    p ← p_at i;
    o ← rd "ofile" (p_ofile p) fd;
    match o with
    | None => set_ofile i fd (Some (Z.to_nat f)) ;;; mret (Some fd)
    | Some _ => mret None
    end);
  mret (default (-1) r).

Definition sys_dup : K Z :=
  a ← argfd 0;
  match a with
  | None => mret (-1)
  | Some (_, f) =>
      fd ← fdalloc f;
      if fd <? 0 then mret (-1) else filedup f ;;; mret fd
  end.

(** [f->ip->container_id]; for a pipe [f->ip] is null or stale. *)
Definition file_cid (f : Z) : K Z :=
  x ← f_at f;
  ip ← deref_ip (f_ip x);
  y ← i_at ip;
  mret (i_container_id y).

(** The arguments of [read] and [write]: file, address and count. *)
Definition arg_rw : K (option (Z * Z * Z)) :=
  a ← argfd 0;
  match a with
  | None => mret None
  | Some (_, f) =>
      n ← argint 2;
      match n with
      | None => mret None
      | Some n =>
          p ← argptr 1 n;
          mret (match p with Some p => Some (f, p, n) | None => None end)
      end
  end.

Definition sys_read : K Z :=
  a ← arg_rw;
  match a with
  | None => mret (-1)
  | Some (f, p, n) =>
      c ← file_cid f;
      q ← me;
      if (c =? p_container_id q) || (c =? 0) then fileread f p n else mret (-1)
  end.

Definition sys_write : K Z :=
  a ← arg_rw;
  match a with
  | None => mret (-1)
  | Some (f, p, n) =>
      c ← file_cid f;
      if c =? 0 then filewrite f p n
      else
        c ← file_cid f;
        q ← me;
        if c =? p_container_id q then filewrite f p n else mret (-1)
  end.

Definition sys_close : K Z :=
  a ← argfd 0;
  match a with
  | None => mret (-1)
  | Some (fd, f) =>
      i ← curproc;
      set_ofile i fd None ;;;
      c ← file_cid f;
      q ← me;
      if c =? p_container_id q then fileclose f ;;; mret 0 else mret (-1)
  end.

Definition sys_fstat : K Z :=
  a ← argfd 0;
  match a with
  | None => mret (-1)
  | Some (_, f) =>
      st ← argptr 1 20;
      match st with None => mret (-1) | Some st => filestat f st end
  end.

(** ** Links *)

(** From the label [bad] on. *)
Definition link_bad (ip : Z) : K Z :=
  ilock (Some ip) ;;;
  i_set ip (fun x => x <| i_nlink ::= fun n => i16 (n - 1) |>) ;;;
  iupdate ip ;;;
  iunlockput ip ;;;
  end_op ;;;
  mret (-1).

Definition sys_link : K Z :=
  old ← argstr 0;
  match old with
  | None => mret (-1)
  | Some (old, _) =>
      new ← argstr 1;
      match new with
      | None => mret (-1)
      | Some (new, _) =>
          begin_op ;;;
          r ← namei old;
          match r with
          | None => end_op ;;; mret (-1)
          | Some ip =>
              ilock (Some ip) ;;;
              x ← i_at ip;
              if i_type x =? T_DIR then iunlockput ip ;;; end_op ;;; mret (-1)
              else
                i_set ip (fun x => x <| i_nlink ::= fun n => i16 (n + 1) |>) ;;;
                iupdate ip ;;;
                iunlock (Some ip) ;;;
                r ← nameiparent new;
                match r with
                | None => link_bad ip
                | Some (dp, name) =>
                    ilock (Some dp) ;;;
                    d ← i_at dp;
                    x ← i_at ip;
                    l ← (if negb (i_dev d =? i_dev x) then mret (-1) else dirlink dp name (i_inum x));
                    if l <? 0 then iunlockput dp ;;; link_bad ip
                    else
                      iunlockput dp ;;;
                      iput ip ;;;
                      end_op ;;;
                      mret 0
                end
          end
      end
  end.

Definition isdirempty (dp : Z) : K bool :=
  x ← i_at dp;
  r ← dir_scan (dir_fuel x) "isdirempty: readi"
        (fun _ de => if de_inum de =? 0 then None else Some tt) dp (2 * DIRENT);
  mret (match r.1 with Some _ => false | None => true end).

(** From the label [bad] on. *)
Definition unlink_bad (dp : Z) : K Z := iunlockput dp ;;; end_op ;;; mret (-1).

Definition sys_unlink : K Z :=
  path ← argstr 0;
  match path with
  | None => mret (-1)
  | Some (path, _) =>
      begin_op ;;;
      r ← nameiparent path;
      match r with
      | None => end_op ;;; mret (-1)
      | Some (dp, name) =>
          ilock (Some dp) ;;;
          if (namecmp name [46; 0] =? 0) || (namecmp name [46; 46; 0] =? 0) then unlink_bad dp
          else
            r ← dirlookup dp name;
            match r with
            | None => unlink_bad dp
            | Some (ip, off) =>
                ilock (Some ip) ;;;
                x ← i_at ip;
                if i_nlink x <? 1 then panic "unlink: nlink < 1"
                else
                  busy ← (if i_type x =? T_DIR then e ← isdirempty ip; mret (negb e) else mret false);
                  if (busy : bool) then iunlockput ip ;;; unlink_bad dp
                  else
                    w ← writei_local dp (replicate (Z.to_nat DIRENT) 0) off;
                    if negb (w =? DIRENT) then panic "unlink: writei"
                    else
                      x ← i_at ip;
                      when (i_type x =? T_DIR)
                        (i_set dp (fun x => x <| i_nlink ::= fun n => i16 (n - 1) |>) ;;; iupdate dp) ;;;
                      iunlockput dp ;;;
                      i_set ip (fun x => x <| i_nlink ::= fun n => i16 (n - 1) |>) ;;;
                      iupdate ip ;;;
                      iunlockput ip ;;;
                      end_op ;;;
                      mret 0
            end
      end
  end.

Definition create (path type major minor : Z) : K (option Z) :=
  r ← nameiparent path;
  match r with
  | None => mret None
  | Some (dp, name) =>
      ilock (Some dp) ;;;
      r ← dirlookup dp name;
      match r with
      | Some (ip, _) =>
          iunlockput dp ;;;
          ilock (Some ip) ;;;
          x ← i_at ip;
          if (type =? T_FILE) && (i_type x =? T_FILE) then mret (Some ip)
          else iunlockput ip ;;; mret None
      | None =>
          d ← i_at dp;
          ip ← ialloc (i_dev d) type;
          ilock (Some ip) ;;;
          i_set ip (fun x => x <| i_major := i16 major |> <| i_minor := i16 minor |> <| i_nlink := 1 |>) ;;;
          iupdate ip ;;;
          when (type =? T_DIR)
            (i_set dp (fun x => x <| i_nlink ::= fun n => i16 (n + 1) |>) ;;;
             iupdate dp ;;;
             x ← i_at ip;
             r ← dirlink ip [46; 0] (i_inum x);
             if r <? 0 then panic "create dots"
             else
               d ← i_at dp;
               r ← dirlink ip [46; 46; 0] (i_inum d);
               when (r <? 0) (panic "create dots")) ;;;
          x ← i_at ip;
          r ← dirlink dp name (i_inum x);
          if r <? 0 then panic "create: dirlink"
          else iunlockput dp ;;; mret (Some ip)
      end
  end.
End sysfile.
