(* ===== verification/Open.v ===== *)
(** * Opening files ([sysfile.c], continued)

    [sys_open] with its copy-on-write for containers, and the calls that make
    directories, devices and pipes. *)

From S2P Require Import Prelude State Spinlock CString Kalloc Console Vm Message Container Proc Syscall.
From S2P Require Import Sleeplock Bio Log Fs Names Pipe File Sysfile.
Open Scope Z_scope.

Section open.
Context {fuel : Fuel} {disk : BlockDev} {devs : DevOps}.

(** A file structure and a descriptor for the locked inode [ip], inside a
    transaction; on failure everything is given back. *)
Definition alloc_fd (ip : Z) : K (option (Z * Z)) :=
  f ← filealloc;
  fd ← match f with Some f => fdalloc f | None => mret (-1) end;
  match f with
  | Some f =>
      if fd <? 0 then
        fileclose f ;;; iunlockput ip ;;; end_op ;;; cprintf (bytes "8" ++ [10]) [] ;;; mret None
      else iunlock (Some ip) ;;; end_op ;;; mret (Some (f, fd))
  | None => iunlockput ip ;;; end_op ;;; cprintf (bytes "8" ++ [10]) [] ;;; mret None
  end.

(** The last component of a path, padded with blanks in the static buffer [buf]
    when it is short.  Nothing calls it. *)
Fixpoint last_slash (n : nat) (m : mem) (path p : Z) : Z :=
  match n with
  | O => p
  | S n' => if (path <=? p) && negb (m p =? 47) then last_slash n' m path (p - 1) else p
  end.
Definition fmtname2 (buf path : Z) : K Z :=
  n ← k_strlen path;
  m ← gets k_mem;
  let p := last_slash (Z.to_nat n + 1) m path (path + n) + 1 in
  n ← k_strlen p;
  if DIRSIZ <=? n then mret p
  else
    modify (fun k => k <| k_mem ::= fun m => memmove m buf p n |>) ;;;
    n ← k_strlen p;
    modify (fun k => k <| k_mem ::= fun m => memset m (buf + n) 32 (DIRSIZ - n) |>) ;;;
    mret buf.

(** The copying loop reads [sizeof(buf)], four, bytes at a time. *)
Fixpoint copy_loop (n : nat) (f copied_file : Z) : K unit :=
  match n with
  | O => fun _ => Diverge
  | S n' =>
      r ← fileread_gen (fun _ _ => mret tt) (fun _ => fault "pipe") f 4;
      if 0 <? r.1 then
        w ← filewrite_gen (fun o m => sub_bytes r.2 o m) (fun _ => fault "pipe") copied_file r.1;
        if negb (w =? r.1) then cprintf (bytes "write error while copying" ++ [10]) []
        else copy_loop n' f copied_file
      else mret tt
  end.

Definition copy_helper_COW (copied_path copied_file : Z) : K Z :=
  buf ← kalloc;
  n ← k_strlen copied_path;
  m ← gets k_mem;
  when (m (copied_path + n - 2) =? 36)
    (modify (fun k => k <| k_mem ::= fun m => strncpy m buf copied_path (n + 1) |>) ;;;
     n ← k_strlen copied_path;
     poke (buf + n - 2) 0) ;;;
  begin_op ;;;
  r ← namei buf;
  match r with
  | None => end_op ;;; cprintf (bytes "5" ++ [10]) [] ;;; mret (-1)
  | Some ip =>
      ilock (Some ip) ;;;
      r ← alloc_fd ip;
      match r with
      | None => mret (-1)
      | Some (f, fd) =>
          f_set f (fun x => x <| f_type := FD_INODE |> <| f_ip := Some (Z.to_nat ip) |> <| f_off := 0 |>
                              <| f_readable := 1 |> <| f_writable := 0 |>) ;;;
          x ← i_at ip;
          copy_loop (Z.to_nat (i_size x) + 2) f copied_file ;;;
          mret 1
      end
  end.

(** The renaming: whether a copy of the file has to be made. *)
Definition open_name (path omode : Z) : K bool :=
  init ← in_initial_files path;
  known ← (if init =? 1 then mret true else r ← file_in_container path 0; mret (r =? 1));
  if (known : bool) then
    q ← me;
    if p_container_id q =? 0 then mret false
    else
      when (omode =? 0)
        (q ← me;
         in_container ← file_in_container path (p_container_id q);
         when (negb (in_container =? 0))
           (stln ← k_strlen path;
            q ← me;
            tag_path path stln (p_container_id q))) ;;;
      if negb (Z.land omode O_WRONLY =? 0) || negb (Z.land omode O_RDWR =? 0) then
        stln ← k_strlen path;
        q ← me;
        in_container ← file_in_container path (p_container_id q);
        q ← me;
        tag_path path stln (p_container_id q) ;;;
        if in_container =? 0 then
          q ← me;
          set_file_in_container path (p_container_id q) ;;;
          mret true
        else mret false
      else mret false
  else
    stln ← k_strlen path;
    q ← me;
    if negb (Z.land omode O_CREATE =? 0) then
      when (negb (p_container_id q =? 0)) (tag_path path stln (p_container_id q)) ;;;
      q ← me;
      set_file_in_container path (p_container_id q) ;;;
      mret false
    else
      m ← gets k_mem;
      when (negb (m (path + stln - 2) =? 36) && negb (p_container_id q =? 0))
        (tag_path path stln (p_container_id q)) ;;;
      mret false.

(** The locked inode to open. *)
Definition open_inode (path omode : Z) (make_copy : bool) : K (option Z) :=
  if negb (Z.land omode O_CREATE =? 0) || make_copy then
    r ← create path T_FILE 0 0;
    match r with
    | None => end_op ;;; mret None
    | Some ip =>
        q ← me;
        i_set ip (fun x => x <| i_container_id := p_container_id q |>) ;;;
        mret (Some ip)
    end
  else
    r ← namei path;
    match r with
    | None => end_op ;;; cprintf (bytes "5" ++ [10]) [] ;;; mret None
    | Some ip =>
        ilock (Some ip) ;;;
        x ← i_at ip;
        if (i_type x =? T_DIR) && negb (omode =? 0) then
          iunlockput ip ;;; end_op ;;; cprintf (bytes "6" ++ [10]) [] ;;; mret None
        else mret (Some ip)
    end.

Definition sys_open : K Z :=
  path ← argstr 0;
  match path with
  | None => mret (-1)
  | Some (path, _) =>
      omode ← argint 1;
      match omode with
      | None => mret (-1)
      | Some omode =>
          begin_op ;;;
          make_copy ← open_name path omode;
          ip ← open_inode path omode make_copy;
          match ip with
          | None => mret (-1)
          | Some ip =>
              r ← alloc_fd ip;
              match r with
              | None => mret (-1)
              | Some (f, fd) =>
                  x ← i_at ip;
                  q ← me;
                  if (i_container_id x =? p_container_id q) || (i_container_id x =? 0) then
                    f_set f (fun x => x <| f_type := FD_INODE |> <| f_ip := Some (Z.to_nat ip) |> <| f_off := 0 |>
                      <| f_readable := if Z.land omode O_WRONLY =? 0 then 1 else 0 |>
                      <| f_writable := if negb (Z.land omode O_WRONLY =? 0) || negb (Z.land omode O_RDWR =? 0)
                                       then 1 else 0 |>) ;;;
                    when make_copy (copy_helper_COW path f ;;; mret tt) ;;;
                    mret fd
                  else mret (-1)
              end
          end
      end
  end.

(** ** Directories, devices and pipes *)

Definition finish_create (r : option Z) : K Z :=
  match r with
  | None => end_op ;;; mret (-1)
  | Some ip => iunlockput ip ;;; end_op ;;; mret 0
  end.

Definition sys_mkdir : K Z :=
  begin_op ;;;
  path ← argstr 0;
  r ← match path with Some (path, _) => create path T_DIR 0 0 | None => mret None end;
  finish_create r.

Definition sys_mknod : K Z :=
  begin_op ;;;
  path ← argstr 0;
  r ← match path with
      | None => mret None
      | Some (path, _) =>
          major ← argint 1;
          match major with
          | None => mret None
          | Some major =>
              minor ← argint 2;
              match minor with
              | None => mret None
              | Some minor => create path T_DEV major minor
              end
          end
      end;
  finish_create r.

Definition sys_chdir : K Z :=
  i ← curproc;
  begin_op ;;;
  path ← argstr 0;
  r ← match path with Some (path, _) => namei path | None => mret None end;
  match r with
  | None => end_op ;;; mret (-1)
  | Some ip =>
      ilock (Some ip) ;;;
      x ← i_at ip;
      if negb (i_type x =? T_DIR) then iunlockput ip ;;; end_op ;;; mret (-1)
      else
        iunlock (Some ip) ;;;
        p ← p_at i;
        cwd ← deref_ip (p_cwd p);
        iput cwd ;;;
        end_op ;;;
        p_set i (fun p => p <| p_cwd := Some (Z.to_nat ip) |>) ;;;
        mret 0
  end.

Definition sys_pipe : K Z :=
  fd ← argptr 0 8;
  match fd with
  | None => mret (-1)
  | Some fd =>
      r ← pipealloc;
      match r with
      | None => mret (-1)
      | Some (rf, wf) =>
          fd0 ← fdalloc rf;
          fd1 ← (if fd0 <? 0 then mret (-1) else fdalloc wf);
          if (fd0 <? 0) || (fd1 <? 0) then
            when (0 <=? fd0) (i ← curproc; set_ofile i fd0 None) ;;;
            fileclose rf ;;;
            fileclose wf ;;;
            mret (-1)
          else
            st fd fd0 ;;;
            st (fd + 4) fd1 ;;;
            mret 0
      end
  end.

Definition sys_get_file_container_id : K Z :=
  path ← argstr 0;
  match path with
  | None => mret (-1)
  | Some (path, _) =>
      buf ← kalloc;
      n ← k_strlen path;
      modify (fun k => k <| k_mem ::= fun m => strncpy m buf path (n + 1) |>) ;;;
      n ← k_strlen path;
      poke (buf + n - 2) 0 ;;;
      init ← in_initial_files path;
      known ← (if init =? 1 then mret true else r ← file_in_container path 0; mret (r =? 1));
      mret (if (known : bool) then 0 else -1)
  end.
End open.
