(* ===== verification/Input.v ===== *)
(** * Console and keyboard input ([console.c], [kbd.c])

    The interrupt handler collects characters in a ring buffer with line
    editing; [consoleread] hands out whole lines.  The scan codes of the
    keyboard are translated by [kbdgetc], the characters of the serial line are
    taken as they are.  [panic_report] is what [panic] does before it stops
    the machine. *)

From S2P Require Import Prelude State Spinlock CString Kalloc Console Vm Message Container Proc Syscall.
From S2P Require Import Sleeplock Bio Log Fs.
Open Scope Z_scope.

Definition BACKSPACE : Z := 0x100.
(** Control characters: [C(x)] is [x - '@']. *)
Definition CTRL_D : Z := 4.
Definition CTRL_H : Z := 8.
Definition CTRL_P : Z := 16.
Definition CTRL_U : Z := 21.

Definition input_chan : chan := CObj "input.r" 0.
Definition input_at (i : Z) : K Z := b ← gets (fun k => in_buf (k_input k)); rd "input.buf" b (i mod INPUT_BUF).
Definition input_set (f : consin -> consin) : K unit := modify (fun k => k <| k_input ::= f |>).

(** ** The interrupt handler *)

(** Killing a line erases back to the last newline. *)
Fixpoint kill_line (n : nat) : K unit :=
  match n with
  | O => fun _ => Diverge
  | S n' =>
      x ← gets k_input;
      if in_e x =? in_w x then mret tt
      else
        c ← input_at (u32 (in_e x - 1));
        if c =? 10 then mret tt
        else
          input_set (fun x => x <| in_e ::= fun e => u32 (e - 1) |>) ;;;
          consputc BACKSPACE ;;;
          kill_line n'
  end.

(** One character; the result says that a process listing was asked for. *)
Definition console_char (c : Z) : K bool :=
  if c =? CTRL_P then mret true
  else if c =? CTRL_U then kill_line (Z.to_nat INPUT_BUF + 1) ;;; mret false
  else if (c =? CTRL_H) || (c =? 0x7f) then
    x ← gets k_input;
    when (negb (in_e x =? in_w x))
      (input_set (fun x => x <| in_e ::= fun e => u32 (e - 1) |>) ;;; consputc BACKSPACE) ;;;
    mret false
  else
    x ← gets k_input;
    when (negb (c =? 0) && (u32 (in_e x - in_r x) <? INPUT_BUF))
      (let c := if c =? 13 then 10 else c in
       b ← wr "input.buf" (in_buf x) (in_e x mod INPUT_BUF) (byte c);
       input_set (fun x => x <| in_buf := b |>) ;;;
       input_set (fun x => x <| in_e ::= fun e => u32 (e + 1) |>) ;;;
       consputc c ;;;
       x ← gets k_input;
       when ((c =? 10) || (c =? CTRL_D) || (in_e x =? u32 (in_r x + INPUT_BUF)))
         (input_set (fun x => x <| in_w := in_e x |>) ;;; wakeup input_chan)) ;;;
    mret false.

Fixpoint drain (n : nat) (getc : K Z) (doprocdump : bool) : K bool :=
  match n with
  | O => fun _ => Diverge
  | S n' =>
      c ← getc;
      if 0 <=? c then d ← console_char c; drain n' getc (doprocdump || d) else mret doprocdump
  end.

Section console.
Context {fuel : Fuel} {disk : BlockDev}.

Definition consoleintr (getc : K Z) : K unit :=
  acquire cons_lock ;;;
  doprocdump ← drain wakeups getc false;
  release cons_lock ;;;
  when doprocdump procdump.

(** ** Reading and writing *)

(** Wait for a line: [false] when the process has been killed. *)
Fixpoint wait_input (f : nat) : K bool :=
  match f with
  | O => fun _ => Diverge
  | S f' =>
      x ← gets k_input;
      if in_r x =? in_w x then
        p ← me;
        if negb (p_killed p =? 0) then mret false
        else sleep input_chan (Some cons_lock) ;;; wait_input f'
      else mret true
  end.

(** The bytes read, or [None] when killed; [n] more are wanted, [o] have been
    stored. *)
Fixpoint read_line (n : nat) (put : Z -> list Z -> K unit) (o : Z) : K (option (list Z)) :=
  match n with
  | O => mret (Some [])
  | S n' =>
      ok ← wait_input wakeups;
      if negb ok then mret None
      else
        x ← gets k_input;
        c ← input_at (in_r x);
        input_set (fun x => x <| in_r ::= fun r => u32 (r + 1) |>) ;;;
        if c =? CTRL_D then
          when (0 <? o) (input_set (fun x => x <| in_r ::= fun r => u32 (r - 1) |>)) ;;;
          mret (Some [])
        else
          put o [c] ;;;
          if c =? 10 then mret (Some [c])
          else
            r ← read_line n' put (o + 1);
            mret (cons c <$> r)
  end.

Definition consoleread (put : Z -> list Z -> K unit) (ip n : Z) : K (Z * list Z) :=
  iunlock (Some ip) ;;;
  acquire cons_lock ;;;
  r ← read_line (Z.to_nat n) put 0;
  release cons_lock ;;;
  ilock (Some ip) ;;;
  mret (match r with Some bs => (alen bs, bs) | None => (-1, []) end).

Definition consolewrite (src : Z -> Z -> K (list Z)) (ip n : Z) : K Z :=
  iunlock (Some ip) ;;;
  acquire cons_lock ;;;
  each (Z.to_nat n) 0 (fun i =>
    bs ← src i 1;
    consputs bs) ;;;
  release cons_lock ;;;
  ilock (Some ip) ;;;
  mret n.

(** The device switch once the console is installed. *)
#[export] Instance console_ops : DevOps := mkDevOps consoleread consolewrite.

(** [CONSOLE] is 1. *)
Definition consoleinit : K unit :=
  initlock cons_lock "console" ;;;
  d ← gets k_devsw;
  d' ← wr "devsw" d 1 true;
  modify (fun k => k <| k_devsw := d' |>) ;;;
  modify (fun k => k <| k_cons_locking := 1 |>).
End console.

(** ** The keyboard *)

Section kbd.
Context {ports : Ports}.

Definition SHIFT : Z := 1.
Definition CTL : Z := 2.
Definition ALT : Z := 4.
Definition CAPSLOCK : Z := 8.
Definition NUMLOCK : Z := 16.
Definition SCROLLLOCK : Z := 32.
Definition E0ESC : Z := 64.

Definition shiftcode (d : Z) : Z :=
  if d =? 0x1D then CTL else if d =? 0x2A then SHIFT else if d =? 0x36 then SHIFT
  else if d =? 0x38 then ALT else if d =? 0x9D then CTL else if d =? 0xB8 then ALT else 0.
Definition togglecode (d : Z) : Z :=
  if d =? 0x3A then CAPSLOCK else if d =? 0x45 then NUMLOCK else if d =? 0x46 then SCROLLLOCK else 0.

(** The keypad and cursor keys that follow an escape, with the character of
    the two keys that have one. *)
Definition special_keys (enter div : Z) : list (Z * Z) := [
  (0x9C, enter); (0xB5, div); (0xC8, 0xE2); (0xD0, 0xE3); (0xC9, 0xE6); (0xD1, 0xE7);
  (0xCB, 0xE4); (0xCD, 0xE5); (0x97, 0xE0); (0xCF, 0xE1); (0xD2, 0xE8); (0xD3, 0xE9)].

(** A map of 256 codes: a row of characters, then the special keys. *)
Definition keymap (row : list Z) (special : list (Z * Z)) (d : Z) : Z :=
  match aget row d with
  | Some c => c
  | None => match find (fun e => e.1 =? d) special with Some e => e.2 | None => 0 end
  end.

Definition normalmap : Z -> Z := keymap
  ([0; 0x1B] ++ bytes "1234567890-=" ++ [8; 9] ++ bytes "qwertyuiop[]" ++ [10; 0] ++ bytes "asdfghjkl;'`" ++
   [0; 92] ++ bytes "zxcvbnm,./" ++ [0; 42; 0; 32] ++ replicate 13 0 ++ bytes "789-456+1230." ++ replicate 4 0)
  (special_keys 10 47).
Definition shiftmap : Z -> Z := keymap
  ([0; 27] ++ bytes "!@#$%^&*()_+" ++ [8; 9] ++ bytes "QWERTYUIOP{}" ++ [10; 0] ++ bytes "ASDFGHJKL:" ++
   [34; 126; 0; 124] ++ bytes "ZXCVBNM<>?" ++ [0; 42; 0; 32] ++ replicate 13 0 ++ bytes "789-456+1230." ++ replicate 4 0)
  (special_keys 10 47).
(** [C(x)] of every character of a string. *)
Definition ctl (s : string) : list Z := (fun c => c - 64) <$> bytes s.
Definition ctlmap (d : Z) : Z := keymap
  (replicate 16 0 ++ ctl "QWERTYUIOP" ++ [0; 0; 13; 0] ++ ctl "ASDFGHJKL" ++ [0; 0; 0; 0] ++
   ctl "\ZXCVBNM" ++ [0; 0] ++ [byte (47 - 64)] ++ [0; 0])
  (special_keys 13 (byte (47 - 64))) d.
Definition charcode (i : Z) : Z -> Z :=
  if i =? 0 then normalmap else if i =? SHIFT then shiftmap else ctlmap.

Definition set_shift (v : Z) : K unit := modify (fun k => k <| k_kbd_shift := v |>).

Definition kbdgetc : K Z :=
  st ← inb 0x64;
  if Z.land st 1 =? 0 then mret (-1)
  else
    data ← inb 0x60;
    shift ← gets k_kbd_shift;
    if data =? 0xE0 then set_shift (Z.lor shift E0ESC) ;;; mret 0
    else if negb (Z.land data 0x80 =? 0) then
      let data := if negb (Z.land shift E0ESC =? 0) then data else Z.land data 0x7F in
      set_shift (Z.land shift (Z.lnot (Z.lor (shiftcode data) E0ESC))) ;;;
      mret 0
    else
      let esc := negb (Z.land shift E0ESC =? 0) in
      let data := if esc then Z.lor data 0x80 else data in
      let shift := if esc then Z.land shift (Z.lnot E0ESC) else shift in
      let shift := Z.lxor (Z.lor shift (shiftcode data)) (togglecode data) in
      set_shift shift ;;;
      let c := charcode (Z.land shift (Z.lor CTL SHIFT)) data in
      mret (if negb (Z.land shift CAPSLOCK =? 0) then
              if (97 <=? c) && (c <=? 122) then c - 32
              else if (65 <=? c) && (c <=? 90) then c + 32
              else c
            else c).

Definition kbdintr {fuel : Fuel} : K unit := consoleintr kbdgetc.

(** ** The serial line *)

(** [uart] says that there is a serial port; its registers are from [COM1] on. *)
Definition COM1 : Z := 0x3f8.
Definition IRQ_COM1 : Z := 4.
Definition uartgetc (uart : Z) : K Z :=
  if uart =? 0 then mret (-1)
  else
    st ← inb (COM1 + 5);
    if Z.land st 1 =? 0 then mret (-1) else inb COM1.

Definition uartintr {fuel : Fuel} (uart : Z) : K unit := consoleintr (uartgetc uart).
End kbd.

(** ** Panic *)

Fixpoint cprint_each (pcs : list Z) : K unit :=
  match pcs with
  | [] => mret tt
  | pc :: pcs' => cprintf (bytes " %p") [AInt pc] ;;; cprint_each pcs'
  end.

(** [v] is the address of the argument [s], from which the stack is walked. *)
Definition panic_report (s : list Z) (v : Z) : K unit :=
  cli ;;;
  modify (fun k => k <| k_cons_locking := 0 |>) ;;;
  id ← gets (fun k => m_lapicid (k_mach k));
  cprintf (bytes "lapicid %d: panic: ") [AInt id] ;;;
  cprintf s [] ;;;
  cprintf [10] [] ;;;
  pcs ← getcallerpcs v;
  cprint_each pcs.

Section panic.
Implicit Types (k : kernel).

(** The text of a format whose arguments fit. *)
Definition text (fmt : list Z) (args : list carg) : list Z := default [] (render fmt args).
Definition report k (s : list Z) (v : Z) : list Z :=
  text (bytes "lapicid %d: panic: ") [AInt (m_lapicid (k_mach k))] ++ s ++ [10] ++
  concat ((fun pc => text (bytes " %p") [AInt pc]) <$> pcs_from 10 (k_mem k) (u32 (v - 8))).

Lemma unlocked_run fmt args t k : k_cons_locking k = 0 -> render fmt args = Some t ->
  cprintf fmt args k = Ret tt (k <| k_console ::= fun o => o ++ t |>).
Proof.
  intros Hl Ht. unfold cprintf. mstep. rewrite Hl. simpl. mstep. by erewrite bind_Ret by by apply cprintf_loop_run.
Qed.

Lemma render_printed fmt z base sign s : base = 10 \/ base = 16 -> (forall o, printint_chars z base sign = Some o -> render fmt [AInt z] = Some (s o)) ->
  exists t, render fmt [AInt z] = Some t.
Proof. intros Hb H. destruct (printint_run z base sign (kernel0 0) Hb) as (o & E & _). eauto. Qed.

Lemma render_lapicid z : exists t, render (bytes "lapicid %d: panic: ") [AInt z] = Some t.
Proof.
  apply (render_printed _ z 10 1 (fun o => bytes "lapicid " ++ o ++ bytes ": panic: ")); [by left|]. intros o E. cbv -[printint_chars]. rewrite E. reflexivity.
Qed.

Lemma cprint_each_run pcs : forall k, k_cons_locking k = 0 ->
  cprint_each pcs k = Ret tt (k <| k_console ::= fun o => o ++ concat ((fun pc => text (bytes " %p") [AInt pc]) <$> pcs) |>).
Proof.
  induction pcs as [|pc pcs IH]; intros k Hl; [apply (consputs_run [])|].
  destruct (render_printed (bytes " %p") pc 16 0 (fun o => 32 :: o ++ [])) as [t Et]; [by right|by intros o; cbn; intros ->|].
  cbn [cprint_each]. erewrite bind_Ret by by apply unlocked_run. rewrite IH by done. rewrite console_app.
  cbn [fmap list_fmap concat]. unfold text at 2. by rewrite Et.
Qed.

(** A panic reports whatever the state of the locks, the console's own
    included: the line with the processor and the message, then the ten
    return addresses of the stack, and interrupts are left off. *)
Lemma panic_reports k s v : render s [] = Some s ->
  panic_report s v k = Ret tt (((k <| k_mach ::= fun mc => mc <| m_if := false |> |>) <| k_cons_locking := 0 |>)
    <| k_console ::= fun o => o ++ report k s v |>).
Proof.
  intros Hs. unfold panic_report, report. do 3 mstep. set (k1 := k <| k_mach ::= _ |> <| k_cons_locking := 0 |>).
  destruct (render_lapicid (m_lapicid (k_mach k))) as [t Et].
  erewrite bind_Ret by (by apply unlocked_run). erewrite bind_Ret by (by apply unlocked_run).
  erewrite bind_Ret by (by apply unlocked_run). rewrite !console_app. unfold getcallerpcs. mstep. rewrite cprint_each_run by done.
  rewrite console_app. unfold text at 2. by rewrite Et, <- !app_assoc.
Qed.
End panic.
