(* ===== verification/InputSpec.v ===== *)
(** * The line editor ([console.c])

    The input buffer as a line editor: the characters already committed, which
    [consoleread] hands out, and the line that is still being typed.
    [consoleintr_edits] says that the interrupt handler edits that line and
    echoes it, [consoleread_line] that a read takes one line of what has been
    committed.  The indices are 32-bit counters that wrap around. *)

From S2P Require Import Prelude State Spinlock Queue CString Kalloc Console Vm Message Container Proc Syscall Sleeplock.
From S2P Require Import Bio Log Fs Input.
Open Scope Z_scope.

(** ** The specification *)

Record editor := mkeditor { ready : list Z; line : list Z }.

(** The editor after a character, and the echo. *)
Definition etype (c : Z) (s : editor) : editor * list Z :=
  if c =? CTRL_P then (s, [])
  else if c =? CTRL_U then (mkeditor (ready s) [], replicate (length (line s)) BACKSPACE)
  else if (c =? CTRL_H) || (c =? 0x7f) then
    match line s with
    | [] => (s, [])
    | _ => (mkeditor (ready s) (removelast (line s)), [BACKSPACE])
    end
  else if (c =? 0) || (INPUT_BUF <=? alen (ready s ++ line s)) then (s, [])
  else
    let c := if c =? 13 then 10 else c in
    let l := line s ++ [c] in
    if (c =? 10) || (c =? CTRL_D) || (alen (ready s ++ l) =? INPUT_BUF)
    then (mkeditor (ready s ++ l) [], [c])
    else (mkeditor (ready s) l, [c]).

Fixpoint etypes (cs : list Z) (s : editor) : editor * list Z :=
  match cs with
  | [] => (s, [])
  | c :: cs' => let '(s1, o1) := etype c s in let '(s2, o2) := etypes cs' s1 in (s2, o1 ++ o2)
  end.

(** A read of at most [n] characters: up to the end of the line, or to an
    end-of-file character, which stays for the next read unless it comes first.
    There is no result when the read would have to wait. *)
Fixpoint take_line (n : nat) (q : list Z) (first : bool) : option (list Z * list Z) :=
  match n with
  | O => Some ([], q)
  | S n' =>
      match q with
      | [] => None
      | c :: q' =>
          if c =? CTRL_D then Some ([], if first then q' else q)
          else if c =? 10 then Some ([c], q')
          else '(bs, r) ← take_line n' q' false; Some (c :: bs, r)
      end
  end.

(** ** The buffer *)

Section buffer.
Implicit Types (x : consin) (rd ln : list Z).

Record edits x (s : editor) : Prop := {
  ed_len : alen (in_buf x) = INPUT_BUF;
  ed_r : 0 <= in_r x < 2 ^ 32;
  ed_w : in_w x = u32 (in_r x + alen (ready s));
  ed_e : in_e x = u32 (in_r x + alen (ready s ++ line s));
  ed_cap : alen (ready s ++ line s) <= INPUT_BUF;
  ed_ring : ring INPUT_BUF (in_buf x) (in_r x) (length (ready s ++ line s)) = ready s ++ line s;
  ed_line : Forall (fun c => c <> 10) (line s) }.

Lemma u32_128 z : u32 z mod INPUT_BUF = z mod INPUT_BUF.
Proof. unfold u32, INPUT_BUF. dlia. Qed.
Lemma u32_step z d : u32 (u32 z + d) = u32 (z + d).
Proof. unfold u32. by rewrite Z.add_mod_idemp_l by done. Qed.
Lemma u32_bound z : 0 <= u32 z < 2 ^ 32.
Proof. apply Z.mod_pos_bound. done. Qed.

(** Two positions within a buffer of each other are the same index only if equal. *)
Lemma u32_near r a b : 0 <= a <= INPUT_BUF -> 0 <= b <= INPUT_BUF -> u32 (r + a) = u32 (r + b) -> a = b.
Proof. unfold u32, INPUT_BUF. intros Ha Hb H. dlia. Qed.

Lemma ring_init data r (l : list Z) c : alen data = INPUT_BUF -> ring INPUT_BUF data r (length (l ++ [c])) = l ++ [c] ->
  ring INPUT_BUF data r (length l) = l /\ aget data ((r + alen l) mod INPUT_BUF) = Some c.
Proof.
  intros Hl H. rewrite length_app, Nat.add_1_r, ring_S_end in H. unfold cell in H.
  destruct (aget_is_Some data ((r + Z.of_nat (length l)) mod INPUT_BUF)) as [y Hy]; [rewrite Hl; by apply Z.mod_pos_bound|].
  rewrite Hy in H. apply app_inj_tail in H as [H ->]. by split.
Qed.

(** Whether something can be erased. *)
Lemma edits_empty x s : edits x s -> (in_e x =? in_w x) = bool_decide (line s = []).
Proof.
  intros [H1 H2 H3 H4 H5 H6 H7]. rewrite H3, H4. rewrite alen_app in *. pose proof (alen_nonneg (ready s)). pose proof (alen_nonneg (line s)).
  case_bool_decide as E; [rewrite E; change (alen []) with 0; rewrite Z.add_0_r; apply Z.eqb_refl|].
  apply Z.eqb_neq. intros Eq. apply u32_near in Eq; [|lia..]. destruct (line s); [done|]. rewrite alen_cons in Eq. pose proof (alen_nonneg l). lia.
Qed.

Lemma edits_pop x rd ln c : edits x (mkeditor rd (ln ++ [c])) ->
  aget (in_buf x) (u32 (in_e x - 1) mod INPUT_BUF) = Some c /\ edits (x <| in_e ::= fun e => u32 (e - 1) |>) (mkeditor rd ln).
Proof.
  intros [H1 H2 H3 H4 H5 H6 H7]. cbn [ready line] in *. rewrite app_assoc in *. destruct (ring_init _ _ _ _ H1 H6) as [Hr Hc].
  rewrite alen_app in H4, H5. change (alen [c]) with 1 in H4, H5.
  assert (He : u32 (in_e x - 1) = u32 (in_r x + alen (rd ++ ln))).
  { rewrite H4. unfold Z.sub. rewrite u32_step. f_equal. lia. }
  split; [by rewrite He, u32_128|]. split; cbn [ready line]; rsimpl; try done; [lia|]. by apply Forall_app in H7 as [? _].
Qed.

Lemma edits_push x s c : edits x s -> alen (ready s ++ line s) < INPUT_BUF ->
  let x' := (x <| in_buf := <[Z.to_nat (in_e x mod INPUT_BUF) := c]> (in_buf x) |>) <| in_e ::= fun e => u32 (e + 1) |> in
  (c <> 10 -> edits x' (mkeditor (ready s) (line s ++ [c]))) /\
  edits (x' <| in_w := in_e x' |>) (mkeditor (ready s ++ line s ++ [c]) []).
Proof.
  intros [H1 H2 H3 H4 H5 H6 H7] Hlt x'.
  assert (He : u32 (in_e x + 1) = u32 (in_r x + alen (ready s ++ line s ++ [c]))).
  { rewrite H4, u32_step. f_equal. rewrite !app_assoc, (alen_app _ [c]). change (alen [c]) with 1. lia. }
  assert (Hr : ring INPUT_BUF (<[Z.to_nat (in_e x mod INPUT_BUF) := c]> (in_buf x)) (in_r x) (length (ready s ++ line s ++ [c])) = ready s ++ line s ++ [c]).
  { rewrite app_assoc, length_app, Nat.add_1_r. rewrite H4, u32_128. unfold alen. rewrite ring_snoc; [by rewrite H6|done|done|unfold alen in Hlt; lia]. }
  assert (Hc : alen (ready s ++ line s ++ [c]) <= INPUT_BUF).
  { rewrite !app_assoc, (alen_app _ [c]). change (alen [c]) with 1. lia. }
  split; [intros Hn|]; split; cbn [ready line]; unfold x'; rsimpl; rewrite ?app_nil_r; try done; rewrite ?alen_insert; try done.
  apply Forall_app. split; [done|]. by constructor.
Qed.

Lemma edits_take x c rd ln : edits x (mkeditor (c :: rd) ln) ->
  aget (in_buf x) (in_r x mod INPUT_BUF) = Some c /\ edits (x <| in_r ::= fun r => u32 (r + 1) |>) (mkeditor rd ln).
Proof.
  intros [H1 H2 H3 H4 H5 H6 H7]. cbn [ready line app length] in *. rewrite alen_cons in *.
  destruct (aget_is_Some (in_buf x) (in_r x mod INPUT_BUF)) as [y Hy]; [rewrite H1; by apply Z.mod_pos_bound|].
  rewrite (ring_uncons _ _ _ _ y) in H6 by done. injection H6 as -> H6. split; [done|].
  split; cbn [ready line]; rsimpl; try done; rewrite ?u32_step; [apply u32_bound|rewrite H3; f_equal; lia|rewrite H4; f_equal; lia|lia|].
  rewrite <- ring_mod, u32_128, ring_mod. done.
Qed.

(** Whether a reader has to wait. *)
Lemma edits_ready x s : edits x s -> (in_r x =? in_w x) = bool_decide (ready s = []).
Proof.
  intros [H1 H2 H3 H4 H5 H6 H7]. rewrite H3. rewrite alen_app in *. pose proof (alen_nonneg (ready s)). pose proof (alen_nonneg (line s)).
  rewrite <- (u32_small (in_r x)) at 1 by done. rewrite <- (Z.add_0_r (in_r x)) at 1.
  case_bool_decide as E; [rewrite E; apply Z.eqb_refl|].
  apply Z.eqb_neq. intros Eq. apply u32_near in Eq; [|unfold INPUT_BUF; lia|lia]. destruct (ready s); [done|]. rewrite alen_cons in Eq. pose proof (alen_nonneg l). lia.
Qed.

Lemma edits_room x s : edits x s -> u32 (in_e x - in_r x) = alen (ready s ++ line s).
Proof.
  intros [H1 H2 H3 H4 H5 H6 H7]. rewrite H4. pose proof (alen_nonneg (ready s ++ line s)). unfold Z.sub. rewrite u32_step.
  replace (in_r x + alen (ready s ++ line s) + - in_r x) with (alen (ready s ++ line s)) by lia. apply u32_small. unfold INPUT_BUF in *. lia.
Qed.
End buffer.

(** ** The interrupt handler *)

Section handler.
Implicit Types (k : kernel) (x : consin) (s : editor) (c : Z).

(** The kernel after new input [x], an echo, and waking the readers. *)
Definition served k x (o : list Z) (w : bool) : kernel :=
  (k <| k_input := x |> <| k_console := k_console k ++ o |>) <| k_proc := if w then wake input_chan <$> k_proc k else k_proc k |>.

Lemma served_same k : served k (k_input k) [] false = k.
Proof. unfold served. rewrite app_nil_r. by destruct k. Qed.

Lemma served_echo k x o1 x' o2 : served (served k x o1 false) x' o2 false = served k x' (o1 ++ o2) false.
Proof. unfold served. knorm. by rewrite app_assoc. Qed.

(** Characters were committed. *)
Definition more s s' : bool := alen (ready s) <? alen (ready s').

Lemma input_at_ok k i c : aget (in_buf (k_input k)) (i mod INPUT_BUF) = Some c -> input_at i k = Ret c k.
Proof. intros H. unfold input_at. mstep. by apply rd_Some. Qed.

Lemma kill_line_ok n : forall k s, (length (line s) < n)%nat -> edits (k_input k) s ->
  exists x, kill_line n k = Ret tt (served k x (replicate (length (line s)) BACKSPACE) false) /\ edits x (mkeditor (ready s) []).
Proof.
  induction n as [|n IH]; intros k [rd ln] Hn H; [lia|]. cbn [kill_line ready line] in *. mstep. rewrite (edits_empty _ _ H). cbn [line].
  destruct ln as [|c ln _] using rev_ind; [exists (k_input k); by rewrite served_same|].
  rewrite bool_decide_false by (by destruct ln). destruct (edits_pop _ _ _ _ H) as [Hc H']. run input_at_ok; [|done].
  pose proof (ed_line _ _ H) as Hl. cbn [line] in Hl. apply Forall_app in Hl as [_ [Hl _]%Forall_cons]. rewrite (proj2 (Z.eqb_neq c 10)) by done.
  unfold input_set, consputc. do 2 mstep. rewrite length_app, Nat.add_1_r in *.
  match goal with |- context [kill_line n ?k1] => replace k1 with (served k ((k_input k) <| in_e ::= fun e => u32 (e - 1) |>) [BACKSPACE] false) by (by destruct k) end.
  destruct (IH (served k ((k_input k) <| in_e ::= fun e => u32 (e - 1) |>) [BACKSPACE] false) (mkeditor rd ln)) as (x & E & Hx); [cbn [line]; lia|done|].
  exists x. rewrite E, served_echo. done.
Qed.

(** Storing a character: the echo, and the line is committed or not. *)
Lemma store_char_ok k s c : pt_ready k -> settle (k_mach k) = k_mach k -> edits (k_input k) s -> 0 < c < 256 -> alen (ready s ++ line s) < INPUT_BUF ->
  let l := line s ++ [c] in
  let s' := if (c =? 10) || (c =? CTRL_D) || (alen (ready s ++ l) =? INPUT_BUF) then mkeditor (ready s ++ l) [] else mkeditor (ready s) l in
  exists x, (b ← wr "input.buf" (in_buf (k_input k)) (in_e (k_input k) mod INPUT_BUF) (byte c);
     input_set (fun x => x <| in_buf := b |>) ;;;
     input_set (fun x => x <| in_e ::= fun e => u32 (e + 1) |>) ;;;
     consputc c ;;;
     x ← gets k_input;
     when ((c =? 10) || (c =? CTRL_D) || (in_e x =? u32 (in_r x + INPUT_BUF)))
       (input_set (fun x => x <| in_w := in_e x |>) ;;; wakeup input_chan)) k = Ret tt (served k x [c] (more s s')) /\ edits x s'.
Proof.
  intros Hpt Hst H Hc Hlt l s'. pose proof (ed_len _ _ H) as Hl. run wr_Some; [|rewrite Hl; by apply Z.mod_pos_bound]. rewrite byte_id by lia.
  unfold input_set, consputc. do 4 mstep. destruct (edits_push _ _ c H Hlt) as [Hn Hy]. set (x := _ <| in_e ::= _ |>) in Hn, Hy.
  replace (_ <| k_console ::= _ |>) with (served k x [c] false) by (by destruct k).
  assert (He : in_e x = u32 (in_r x + alen (ready s ++ l))).
  { pose proof (ed_e _ _ Hy) as He. cbn [ready line] in He. rewrite app_nil_r in He. exact He. }
  assert (Hcap : alen (ready s ++ l) <= INPUT_BUF) by (pose proof (ed_cap _ _ Hy) as E; cbn [ready line] in E; by rewrite app_nil_r in E).
  assert (Hfull : (in_e x =? u32 (in_r x + INPUT_BUF)) = (alen (ready s ++ l) =? INPUT_BUF)).
  { rewrite He. pose proof (alen_nonneg (ready s ++ l)). destruct (Z.eqb_spec (alen (ready s ++ l)) INPUT_BUF) as [E|E].
    - rewrite E. apply Z.eqb_refl.
    - apply Z.eqb_neq. intros E'. apply u32_near in E'; unfold INPUT_BUF in *; lia. }
  change (k_input (served k x [c] false)) with x. rewrite Hfull. unfold s', more.
  assert (Hlt' : alen (ready s) < alen (ready s ++ l)) by (unfold l; rewrite !alen_app; change (alen [c]) with 1; pose proof (alen_nonneg (line s)); lia).
  destruct ((c =? 10) || (c =? CTRL_D) || (alen (ready s ++ l) =? INPUT_BUF)) eqn:E; cbn [when ready].
  - mstep. rewrite wakeup_ok by (by split; ksimpl; apply Hpt). exists (x <| in_w := in_e x |>). rewrite (proj2 (Z.ltb_lt _ _)) by done. split; [|done].
    ksimpl. f_equal. unfold served. knorm. rewrite Hst. by destruct k.
  - exists x. rewrite Z.ltb_irrefl. split; [done|]. apply Hn. intros ->. done.
Qed.

Lemma more_same s : more s s = false.
Proof. apply Z.ltb_irrefl. Qed.

Lemma console_char_ok k s c : pt_ready k -> settle (k_mach k) = k_mach k -> edits (k_input k) s -> 0 <= c < 256 ->
  exists x, console_char c k = Ret (c =? CTRL_P) (served k x (etype c s).2 (more s (etype c s).1)) /\ edits x (etype c s).1.
Proof.
  intros Hpt Hst H Hc. unfold console_char, etype. destruct (c =? CTRL_P) eqn:EP; [|destruct (c =? CTRL_U) eqn:EU; [|destruct ((c =? CTRL_H) || (c =? 0x7f)) eqn:EB]].
  - exists (k_input k). by rewrite more_same, served_same.
  - destruct (kill_line_ok (Z.to_nat INPUT_BUF + 1) k s) as (x & E & Hx); [|done|].
    { pose proof (ed_cap _ _ H) as Hcap. unfold alen in Hcap. rewrite length_app in Hcap. lia. }
    exists x. split; [|done]. run E. cbn [fst snd]. unfold more. by rewrite Z.ltb_irrefl.
  - mstep. rewrite (edits_empty _ _ H). destruct s as [rd ln]. cbn [ready line].
    destruct ln as [|c' ln _] using rev_ind; [exists (k_input k); cbn; by rewrite more_same, served_same|].
    rewrite bool_decide_false by (by destruct ln). destruct (edits_pop _ _ _ _ H) as [_ H']. unfold input_set, consputc. cbn [negb when]. erewrite bind_Ret by (mstep; reflexivity).
    exists ((k_input k) <| in_e ::= fun e => u32 (e - 1) |>).
    replace (match ln ++ [c'] with [] => _ | _ => _ end) with (mkeditor rd (removelast (ln ++ [c'])), [BACKSPACE]) by (by destruct ln).
    rewrite removelast_last. unfold more. cbn [fst snd ready]. rewrite Z.ltb_irrefl. split; [by destruct k|done].
  - mstep. rewrite (edits_room _ _ H). rewrite Z.ltb_antisym.
    destruct (Z.eqb_spec c 0) as [Z0|Z0]; cbn [negb andb orb when].
    { exists (k_input k). cbn [fst snd]. rewrite more_same, served_same. by mstep. }
    destruct (Z.leb_spec INPUT_BUF (alen (ready s ++ line s))) as [Hf|Hf]; cbn [negb andb orb when].
    { exists (k_input k). cbn [fst snd]. rewrite more_same, served_same. by mstep. }
    destruct (store_char_ok k s (if c =? 13 then 10 else c) Hpt Hst H) as (x & E & Hx); [by destruct (c =? 13); lia|done|].
    exists x. cbv zeta. run E. cbv zeta in Hx. destruct ((_ =? 10) || _ || _); done.
Qed.

Lemma etype_grows c s : alen (ready s) <= alen (ready (etype c s).1).
Proof.
  unfold etype. repeat case_match; cbn [fst ready]; try done; rewrite alen_app;
    match goal with |- _ <= _ + alen ?l => pose proof (alen_nonneg l) end; lia.
Qed.

Lemma etypes_grows cs : forall s, alen (ready s) <= alen (ready (etypes cs s).1).
Proof.
  induction cs as [|c cs IH]; intros s; [done|]. cbn [etypes]. pose proof (etype_grows c s). destruct (etype c s) as [s1 o1].
  pose proof (IH s1). destruct (etypes cs s1) as [s2 o2]. cbn [fst] in *. lia.
Qed.

Lemma wake_wake ch p : wake ch (wake ch p) = wake ch p.
Proof.
  destruct (decide (p_state p = SLEEPING /\ p_chan p = ch)) as [H|H]; unfold wake.
  - rewrite (bool_decide_true _ H). rewrite bool_decide_false; [done|]. by intros [E _].
  - by rewrite !(bool_decide_false _ H).
Qed.

Lemma wakes_more s s1 s2 (ps : list proc) : alen (ready s) <= alen (ready s1) -> alen (ready s1) <= alen (ready s2) ->
  (if more s1 s2 then wake input_chan <$> (if more s s1 then wake input_chan <$> ps else ps) else if more s s1 then wake input_chan <$> ps else ps) =
  (if more s s2 then wake input_chan <$> ps else ps).
Proof.
  intros H1 H2. unfold more. destruct (Z.ltb_spec (alen (ready s1)) (alen (ready s2))), (Z.ltb_spec (alen (ready s)) (alen (ready s1))),
    (Z.ltb_spec (alen (ready s)) (alen (ready s2))); try lia; try done.
  rewrite <- list_fmap_compose. apply list_fmap_ext. intros i p _. apply wake_wake.
Qed.

(** A source of characters: what it will deliver is a function of the state that
    editing, waking and locking leave alone, and taking a character changes
    nothing else. *)
Definition quiet k k1 : Prop :=
  k_mach k1 = k_mach k /\ k_input k1 = k_input k /\ k_console k1 = k_console k /\ k_proc k1 = k_proc k.
Record source (getc : K Z) (pending : kernel -> list Z) : Prop := {
  so_end : forall k, pending k = [] -> getc k = Ret (-1) k;
  so_next : forall k c cs, pending k = c :: cs -> 0 <= c < 256 /\ exists k1, getc k = Ret c k1 /\ pending k1 = cs /\ quiet k k1;
  so_edit : forall k x o w, pending (served k x o w) = pending k;
  so_lock : forall k mc, pending (kst k mc) = pending k }.

(** The kernel [k'] after characters that took the editor from [s] to [s']. *)
Record typed k s (r : editor * list Z) k' : Prop := {
  ty_mach : k_mach k' = k_mach k;
  ty_edit : edits (k_input k') r.1;
  ty_echo : k_console k' = k_console k ++ r.2;
  ty_wake : k_proc k' = if more s r.1 then wake input_chan <$> k_proc k else k_proc k }.

Lemma drain_ok getc pending : source getc pending -> forall cs n k s d, (length cs < n)%nat -> pending k = cs -> pt_ready k ->
  settle (k_mach k) = k_mach k -> edits (k_input k) s ->
  exists k', drain n getc d k = Ret (d || existsb (Z.eqb CTRL_P) cs) k' /\ typed k s (etypes cs s) k'.
Proof.
  intros Hsrc cs. induction cs as [|c cs IH]; intros n k s d Hn Hcs Hpt Hst H; destruct n as [|n]; cbn [length] in Hn; try lia; cbn [drain].
  - run (so_end _ _ Hsrc); [|done]. exists k. rewrite orb_false_r. split; [done|]. split; try done; [by rewrite app_nil_r|]. cbn [etypes fst]. by rewrite more_same.
  - destruct (so_next _ _ Hsrc k c cs Hcs) as (Hc & k1 & E1 & Hcs1 & Q1 & Q2 & Q3 & Q4). run E1. rewrite (proj2 (Z.leb_le 0 c)) by lia.
    destruct (console_char_ok k1 s c) as (x & E2 & Hx); [by destruct Hpt; split; rewrite ?Q1, ?Q4|by rewrite Q1|by rewrite Q2|done|].
    run E2. cbn [etypes]. pose proof (etype_grows c s) as G1. destruct (etype c s) as [s1 o1]. cbn [fst snd] in *.
    set (k2 := served k1 x o1 (more s s1)) in *.
    destruct (IH n k2 s1 (d || (c =? CTRL_P))) as (k' & E3 & Ht); [lia|by rewrite <- Hcs1; apply (so_edit _ _ Hsrc)| |by unfold k2, served; ksimpl; rewrite Q1|done|].
    { destruct Hpt as [P1 P2 P3]. split; unfold k2, served; ksimpl; rewrite ?Q1, ?Q4; try done. case_match; [|done]. unfold alen in *. by rewrite length_fmap. }
    exists k'. rewrite E3. cbn [existsb]. rewrite (Z.eqb_sym CTRL_P c), orb_assoc. split; [done|].
    pose proof (etypes_grows cs s1) as G2. destruct (etypes cs s1) as [s2 o2]. destruct Ht as [T1 T2 T3 T4]. cbn [fst snd] in *.
    split; cbn [fst snd]; [by rewrite T1; unfold k2, served; ksimpl|done|rewrite T3; unfold k2, served; ksimpl; by rewrite Q3, app_assoc|].
    rewrite T4. unfold k2, served. ksimpl. rewrite Q4. by apply wakes_more.
Qed.

(** C9. The console edits lines.  Taking the characters that have come in, the
    interrupt handler edits the line being typed: it appends, erases the last
    character or the whole line, but never what was committed, drops what does
    not fit in the buffer, and commits the line at a newline, an end-of-file
    character or a full buffer; it echoes what it does, wakes the readers
    exactly when something was committed, and lists the processes afterwards
    when asked to. *)
Theorem consoleintr_edits {fuel : Fuel} getc pending k s :
  source getc pending -> (length (pending k) < wakeups)%nat -> pt_ready k -> lock_free cons_lock (k_mach k) -> edits (k_input k) s ->
  exists k', consoleintr getc k = when (existsb (Z.eqb CTRL_P) (pending k)) procdump k' /\
    typed (kst k (settle (k_mach k))) s (etypes (pending k) s) k'.
Proof.
  intros Hsrc Hn Hpt Hl H. pose proof Hpt as [Hok Hlk Hlen]. unfold consoleintr. run acquire_ok; [|done..].
  destruct (drain_ok getc pending Hsrc (pending k) wakeups (kst k (acq cons_lock (k_mach k))) s false) as (k1 & E & [T1 T2 T3 T4]); ksimpl; try done.
  { apply (so_lock _ _ Hsrc). }
  { split; ksimpl; [by apply acq_ok|by apply lock_free_acq|done]. }
  { by apply settle_acq. }
  run E. run release_acq; [|done..]. eexists. split; [reflexivity|]. split; ksimpl; done.
Qed.
End handler.

(** ** Reading *)

Section reading.
Context {fuel : Fuel} (Hfuel : (0 < wakeups)%nat).
Implicit Types (k : kernel) (x : consin) (p : proc) (ip a : Z).

Lemma wait_input_ok k s : edits (k_input k) s -> ready s <> [] -> wait_input wakeups k = Ret true k.
Proof.
  intros H Hne. destruct wakeups as [|f]; [lia|]. cbn [wait_input]. mstep. by rewrite (edits_ready _ _ H), bool_decide_false.
Qed.

Definition reader a (o : Z) (bs : list Z) : K unit := put_mem (a + o) bs.

Lemma mem_at_nil a m y : mem_at a [] m y = m y.
Proof. unfold mem_at. rewrite within_false; [done|]. change (alen []) with 0. lia. Qed.

Lemma mem_at_cons a c bs m y : mem_at (a + 1) bs (mem_at a [c] m) y = mem_at a (c :: bs) m y.
Proof.
  unfold mem_at. rewrite (alen_cons c bs). change (alen [c]) with 1. pose proof (alen_nonneg bs).
  destruct (within_spec (a + 1) (alen bs) y), (within_spec a 1 y), (within_spec a (1 + alen bs) y); try lia; try done.
  - unfold aget. destruct (Z.leb_spec 0 (y - (a + 1))), (Z.leb_spec 0 (y - a)); try lia.
    replace (Z.to_nat (y - a)) with (S (Z.to_nat (y - (a + 1)))) by lia. reflexivity.
  - by replace (y - a) with 0 by lia.
Qed.

Lemma read_line_ok a n : forall k rd ln o bs r, edits (k_input k) (mkeditor rd ln) -> 0 <= o -> take_line n rd (o =? 0) = Some (bs, r) ->
  exists x m, read_line n (reader a) o k = Ret (Some bs) (k <| k_input := x |> <| k_mem := m |>) /\ edits x (mkeditor r ln) /\
    forall y, m y = mem_at (a + o) bs (k_mem k) y.
Proof.
  induction n as [|n IH]; intros k rd ln o bs r H Ho E; cbn [take_line] in E; cbn [read_line].
  { injection E as <- <-. exists (k_input k), (k_mem k). split_and!; [by destruct k|done|]. intros y. by rewrite mem_at_nil. }
  destruct rd as [|c rd]; [done|]. run wait_input_ok; [|done|done]. cbn [negb]. mstep. destruct (edits_take _ _ _ _ H) as [Hc H1].
  run input_at_ok; [|done]. unfold input_set at 1. mstep. set (x1 := (k_input k) <| in_r ::= _ |>) in *.
  replace (k <| k_input ::= _ |>) with (k <| k_input := x1 |>) by (by destruct k).
  destruct (Z.eqb_spec c CTRL_D) as [ED|ED].
  { injection E as <- <-. assert (Hm : forall y, k_mem k y = mem_at (a + o) [] (k_mem k) y).
    { intros y. by rewrite mem_at_nil. }
    destruct (Z.eqb_spec o 0) as [->|Eo].
    - exists x1, (k_mem k). split_and!; [by destruct k|done|done].
    - rewrite (proj2 (Z.ltb_lt 0 o)) by lia. cbn [when]. unfold input_set. mstep. exists (k_input k), (k_mem k). split_and!; [|done|done].
      pose proof (ed_r _ _ H) as Hr. assert (Hx : x1 <| in_r ::= fun r => u32 (r - 1) |> = k_input k).
      { unfold x1. destruct (k_input k) as [b r0 w e]. unfold upd. cbn. f_equal. unfold Z.sub. rewrite u32_step. rewrite <- (u32_small r0) at 2 by done. f_equal. lia. }
      rewrite <- Hx. by destruct k. }
  unfold reader at 1, put_mem. mstep. destruct (Z.eqb_spec c 10) as [EN|EN].
  { injection E as <- <-. exists x1, (mem_at (a + o) [c] (k_mem k)). split_and!; [by destruct k|done|done]. }
  destruct (take_line n rd false) as [[bs1 r1]|] eqn:E1; [|done]. cbn in E. injection E as <- <-.
  set (k1 := _ <| k_mem ::= _ |>). destruct (IH k1 rd ln (o + 1) bs1 r1) as (x & m & E2 & Hx & Hm); [done|lia|by rewrite (proj2 (Z.eqb_neq (o + 1) 0)) by lia|].
  run E2. exists x, m. split_and!; [by destruct k|done|]. intros y. rewrite Hm. rewrite Z.add_assoc. apply mem_at_cons.
Qed.

(** Process [i] has the valid inode [ip] locked. *)
Record owns {disk : BlockDev} k (i : nat) p ip : Prop := {
  ow_pt : pt_ready k;
  ow_run : running k i p;
  ow_spin : lock_free (inode_lock ip) (k_mach k);
  ow_sleep : sl_of k (inode_lock ip) = mksleep 1 (p_pid p);
  ow_inode : exists x : inode, aget (k_inode k) ip = Some x /\ 1 <= i_ref x /\ i_valid x = 1 }.

Context {disk : BlockDev}.

(** The kernel once the lock on the inode has been given up. *)
Definition unlocked k ip : kernel :=
  kst ((sl_put k (inode_lock ip) (mksleep 0 0)) <| k_proc ::= fmap (wake (sl_chan (inode_lock ip))) |>) (settle (k_mach k)).

Lemma iunlock_ok k i p ip : owns k i p ip -> iunlock (Some ip) k = Ret tt (unlocked k ip).
Proof.
  intros [Hpt Hr Hl Hs (x & Hx & Href & _)]. pose proof Hpt as [Hok Hlk Hlen]. unfold iunlock. run (holdingsleep_ok _ i p); [|done..].
  rewrite Hs. cbn [sl_locked sl_pid]. rewrite Z.eqb_refl. cbn [Z.eqb negb andb]. unfold i_at. erewrite bind_Ret by (mstep; by apply rd_Some).
  rewrite (proj2 (Z.ltb_ge (i_ref x) 1)) by done. rewrite releasesleep_ok; [|split; ksimpl; [by apply settle_ok|by apply lock_free_settle|done]|by apply lock_free_settle|done].
  unfold unlocked, sl_put. knorm. by rewrite settle_settle.
Qed.

Lemma ilock_ok k i p ip (x : inode) : running k i p -> lock_free (inode_lock ip) (k_mach k) -> sl_locked (sl_of k (inode_lock ip)) = 0 ->
  aget (k_inode k) ip = Some x -> 1 <= i_ref x -> i_valid x = 1 ->
  ilock (Some ip) k = Ret tt (kst (sl_put k (inode_lock ip) (mksleep 1 (p_pid p))) (settle (k_mach k))).
Proof.
  intros Hr Hl Hs Hx Href Hv. unfold ilock, i_at. erewrite bind_Ret by (mstep; by apply rd_Some).
  rewrite (proj2 (Z.ltb_ge (i_ref x) 1)) by done. run (acquiresleep_ok _ i p); [|done..].
  erewrite bind_Ret by (mstep; by apply rd_Some). by rewrite Hv.
Qed.

Lemma wake_pid ch p : p_pid (wake ch p) = p_pid p.
Proof. unfold wake. by case_bool_decide. Qed.

(** C10. A read from the console takes one line.  With enough committed,
    [consoleread] stores the characters up to a newline, at most [n] of them,
    or up to an end-of-file character, which is left for the next read unless
    it comes first; the rest, and the line being typed, stay in the buffer,
    and the process holds the inode again. *)
Theorem consoleread_line k i p ip a n s bs r :
  owns k i p ip -> lock_free cons_lock (k_mach k) -> edits (k_input k) s ->
  take_line (Z.to_nat n) (ready s) true = Some (bs, r) ->
  exists k', consoleread (reader a) ip n k = Ret (alen bs, bs) k' /\ edits (k_input k') (mkeditor r (line s)) /\
    (forall y, k_mem k' y = mem_at a bs (k_mem k) y) /\ owns k' i (wake (sl_chan (inode_lock ip)) p) ip.
Proof.
  intros Ho Hc H Hl. unfold consoleread. run iunlock_ok; [|done]. pose proof Ho as [Hpt Hr Hsp Hs (x & Hx & Href & Hv)]. pose proof Hpt as [Hok Hlk Hlen].
  assert (Hok1 : mach_ok (k_mach (unlocked k ip))) by (by apply settle_ok).
  run acquire_ok; [|done|by apply lock_free_settle]. destruct s as [rd ln]. cbn [ready line] in *.
  destruct (read_line_ok a (Z.to_nat n) (kst (unlocked k ip) (acq cons_lock (k_mach (unlocked k ip)))) rd ln 0 bs r) as (xi & m & E & Hx1 & Hm); [done|done|done|].
  run E. run (release_acq _ _ (settle (k_mach k))); [|done|by apply lock_free_settle|by ksimpl].
  unfold unlocked, sl_put. knorm. rewrite settle_settle by done.
  destruct Hr as [R1 R2 R3].
  match goal with |- exists k', (_ ≫= _) ?k0 = _ /\ _ => set (k2 := k0) end.
  assert (Hrun : running k2 i (wake (sl_chan (inode_lock ip)) p)).
  { split; unfold k2; ksimpl; [by apply settle_ok|by rewrite cur_proc_settle|]. by rewrite aget_fmap, R3. }
  assert (Hlen2 : alen (k_proc k2) = NPROC) by (unfold k2, alen; ksimpl; by rewrite length_fmap).
  assert (Hx2 : aget (k_inode k2) ip = Some x) by done.
  assert (Hm2 : k_mem k2 = m /\ k_input k2 = xi) by done.
  assert (Hs2 : sl_locked (sl_of k2 (inode_lock ip)) = 0) by (unfold sl_of, k2; ksimpl; by rewrite lookup_insert_eq).
  assert (Hmc : k_mach k2 = settle (k_mach k)) by done. clearbody k2.
  run (ilock_ok k2 i (wake (sl_chan (inode_lock ip)) p) ip x); [|done|rewrite Hmc; by apply lock_free_settle|done..].
  eexists. split; [reflexivity|]. unfold sl_put. ksimpl. destruct Hm2 as [-> ->]. split; [done|].
  split; [intros y; rewrite Hm; by rewrite Z.add_0_r|]. rewrite Hmc, settle_settle by done.
  assert (Hok2 : mach_ok (settle (k_mach k))) by (by apply settle_ok).
  split; [split; ksimpl; [done|by apply lock_free_settle|done]| |by apply lock_free_settle| |by exists x].
  - split; ksimpl; [done|by rewrite cur_proc_settle|apply Hrun].
  - unfold sl_of. ksimpl. by rewrite lookup_insert_eq.
Qed.
End reading.
