(* ===== verification/InputExamples.v ===== *)
(** * Concrete pipes and a concrete console

    The hypotheses of the theorems of [PipeSpec] and [InputSpec] hold of a pipe
    and of an input buffer whose counters are about to wrap around, and of a
    keyboard that delivers a given list of characters. *)

From S2P Require Import Prelude State Spinlock Queue CString Kalloc Console Vm Message Container Proc Syscall.
From S2P Require Import SysExamples Sleeplock Bio Log Fs Pipe PipeSpec Input InputSpec.
Open Scope Z_scope.

#[local] Instance fuel2 : Fuel := 2%nat.

Definition pipe_at : Z := 0x80300000.
Definition mach_pipe : mach := mach_procs <| m_locks ::= <[pipe_lock pipe_at := mklock "pipe" false None]> |>.

(** All bytes are 65; the pipe has [n] bytes, all but two of the first 2^32 bytes
    have been read, and the read end is open or not. *)
Definition mem_pipe (n ro : Z) : mem :=
  let nr := 2 ^ 32 - 2 in
  store32 (store32 (store32 (store32 (fun _ => 65) (pipe_nread pipe_at) nr) (pipe_nwrite pipe_at) (u32 (nr + n)))
    (pipe_readopen pipe_at) ro) (pipe_writeopen pipe_at) 1.
Definition kernel_pipe (n ro : Z) : kernel := kernel_procs <| k_mach := mach_pipe |> <| k_mem := mem_pipe n ro |>.

Lemma mem_pipe_ok n ro : mem_ok (mem_pipe n ro).
Proof. do 4 apply store32_ok. intros x. lia. Qed.

Lemma mem_pipe_piped (n : nat) : (n <= 512)%nat -> forall ro, 0 <= ro < 2 ^ 32 ->
  piped (mem_pipe (Z.of_nat n) ro) pipe_at (2 ^ 32 - 2) (replicate n 65) ro 1.
Proof.
  intros Hn ro Hro. assert (Hl : alen (replicate n 65) = Z.of_nat n) by (unfold alen; by rewrite length_replicate).
  split; rewrite ?Hl; [lia|..].
  - by apply (load32_store32 (fun _ => 65)).
  - unfold mem_pipe. rewrite !load32_out by (unfold pipe_writeopen, pipe_readopen, pipe_nwrite; lia).
    apply load32_store32. apply Z.mod_pos_bound. done.
  - unfold PIPESIZE. lia.
  - intros j Hj. rewrite aget_replicate by lia. unfold mem_pipe, pipe_data, pipe_nread. pose proof (Z.mod_pos_bound (2 ^ 32 - 2 + j) PIPESIZE ltac:(done)).
    by rewrite !store32_out by (unfold pipe_writeopen, pipe_readopen, pipe_nwrite, pipe_nread; lia).
  - unfold mem_pipe. rewrite load32_out by (unfold pipe_writeopen, pipe_readopen; lia). by apply load32_store32.
  - by apply load32_store32.
Qed.

Lemma kernel_pipe_resting n ro : resting (k_mach (kernel_pipe n ro)).
Proof. split; [by exists 0, (mkcpu 0 0 false (Some 0%nat)); split_and!|reflexivity|by eexists]. Qed.

Lemma kernel_pipe_stream : stream (kernel_pipe 1 1) pipe_at [65] 1 (mem_pipe 1 1).
Proof.
  split; [split; [apply kernel_pipe_resting|by eexists|done]|by eexists|apply mem_pipe_ok|exists (2 ^ 32 - 2), 1; by apply (mem_pipe_piped 1); [lia|]|done].
Qed.

Lemma fifo_three m : bytes_at m 100 3 = [65; 65; 65] ->
  fifo_run pipe_at 1 [Pwrite 100 3; Pread 200 2] ([65], m) = Some ([3; 2], ([65; 65], put_at m 200 [65; 65])).
Proof. intros Hb. cbn [fifo_run fifo_step fst snd]. change (Z.to_nat 3) with 3%nat. rewrite Hb. reflexivity. Qed.

(** Three bytes go in and two come out. *)
Lemma pipe_refines_stream_witness : exists k' m', pipe_run pipe_at [Pwrite 100 3; Pread 200 2] (kernel_pipe 1 1) = Ret [3; 2] k' /\
  stream k' pipe_at [65; 65] 1 m'.
Proof.
  destruct (pipe_refines_stream pipe_at 1 [Pwrite 100 3; Pread 200 2] (kernel_pipe 1 1) [65] (mem_pipe 1 1) [3; 2] [65; 65]
    (put_at (mem_pipe 1 1) 200 [65; 65])) as (k' & E & Hs); [unfold wakeups, fuel2; lia|exact kernel_pipe_stream|by apply fifo_three|].
  exists k', (put_at (mem_pipe 1 1) 200 [65; 65]). split; [exact E|exact Hs].
Defined.

(** The read end is closed. *)
Lemma pipewrite_full_witness : exists k', pipewrite pipe_at 100 1 (kernel_pipe 512 0) = Ret (-1) k'.
Proof.
  eexists. apply (pipewrite_full (kernel_pipe 512 0) 0 (proc_at RUNNING 1 0) pipe_at (2 ^ 32 - 2) (replicate 512 65) 0 1 100 1).
  - unfold wakeups, fuel2. lia.
  - apply kernel_pipe_resting.
  - split; [apply kernel_pipe_resting|done|done].
  - done.
  - by eexists.
  - by apply (mem_pipe_piped 512); [lia|].
  - done.
  - lia.
Defined.

#[local] Instance fuel9 : Fuel := 9%nat.
#[local] Existing Instance Memide.memide.

(** The shift state counts the characters taken from [keys]. *)
Definition keys : list Z := bytes "hex" ++ [8; 127] ++ bytes "i" ++ [13; 65].
Definition keys_left (k : kernel) : list Z := drop (Z.to_nat (k_kbd_shift k)) keys.
Definition keys_getc : K Z :=
  n ← gets k_kbd_shift;
  match drop (Z.to_nat n) keys with
  | [] => mret (-1)
  | c :: _ => modify (fun k => k <| k_kbd_shift := Z.of_nat (S (Z.to_nat n)) |>) ;;; mret c
  end.

Lemma keys_source : source keys_getc keys_left.
Proof.
  split; [| |done..]; intros k; unfold keys_left, keys_getc.
  - intros E. mstep. by rewrite E.
  - intros c cs E. mstep. rewrite E. mstep. split.
    + assert (Hc : c ∈ keys) by (rewrite <- (take_drop (Z.to_nat (k_kbd_shift k)) keys), E, elem_of_app; right; by left).
      assert (Hk : Forall (fun c => 0 <= c < 256) keys) by (vm_compute; repeat constructor; done). rewrite Forall_forall in Hk. by apply Hk.
    + eexists. split; [reflexivity|]. ksimpl. split; [|done]. rewrite Nat2Z.id, <- Nat.add_1_r, <- drop_drop, E. done.
Qed.

Definition mach_cons : mach :=
  mach_procs <| m_locks ::= fun ls => <[cons_lock := mklock "console" false None]> (<[inode_lock 0 := mklock "inode" false None]> ls) |>.
Definition kernel_cons : kernel :=
  kernel_procs <| k_mach := mach_cons |> <| k_input := mkconsin (<[126%nat := 111]> (<[127%nat := 107]> (<[0%nat := 10]> (replicate 128 0)))) (2 ^ 32 - 2) 1 1 |>
    <| k_sleep := {[inode_lock 0 := mksleep 1 1]} |> <| k_inode := replicate 50 (inode0 <| i_ref := 1 |> <| i_valid := 1 |>) |>.

Lemma kernel_cons_ready : pt_ready kernel_cons.
Proof. split; [by exists 0, (mkcpu 0 0 false (Some 0%nat)); split_and!|by eexists|done]. Qed.

Lemma kernel_cons_edits : edits (k_input kernel_cons) (mkeditor [111; 107; 10] []).
Proof. by split. Qed.

Lemma consoleintr_edits_witness : exists k', consoleintr keys_getc kernel_cons = Ret tt k' /\
  k_console k' = bytes "hex" ++ [BACKSPACE; BACKSPACE; 105; 10; 65] /\ edits (k_input k') (mkeditor [111; 107; 10; 104; 105; 10] [65]).
Proof.
  destruct (consoleintr_edits keys_getc keys_left kernel_cons (mkeditor [111; 107; 10] []) keys_source) as (k' & E & [_ T1 T2 _]);
    [unfold wakeups, fuel9; vm_compute; lia|apply kernel_cons_ready|by eexists|apply kernel_cons_edits|].
  exists k'. split; [exact E|]. split; [exact T2|exact T1].
Defined.

Lemma nine_pos : (0 < wakeups)%nat.
Proof. apply Nat.lt_0_succ. Qed.

Lemma consoleread_line_witness : exists k', consoleread (reader 200) 0 80 kernel_cons = Ret (3, [111; 107; 10]) k' /\
  edits (k_input k') (mkeditor [] []).
Proof.
  destruct (consoleread_line nine_pos kernel_cons 0 (proc_at RUNNING 1 0) 0 200 80 (mkeditor [111; 107; 10] []) [111; 107; 10] []) as (k' & E & H & _).
  - split; [apply kernel_cons_ready|split; [apply kernel_cons_ready|done|done]|by eexists|done|by eexists].
  - by eexists.
  - apply kernel_cons_edits.
  - reflexivity.
  - exists k'. split; [exact E|exact H].
Defined.
