(* ===== verification/Screen.v ===== *)
(** * The screen and the serial line ([console.c], [uart.c])

    What [consputc] does with a character: it goes to the serial line and to
    the text memory of the display adapter.  The adapter keeps the cursor in
    two registers behind an index register.  [screen_refines_tty] says that
    the screen shows what a terminal of 24 rows of 80 columns shows. *)

From S2P Require Import Prelude State Spinlock CString Kalloc Console Vm Message Container Proc Syscall.
From S2P Require Import Sleeplock Bio Log Words Input.
Open Scope Z_scope.

(** ** The code *)

Definition CRTPORT : Z := 0x3d4.

(** The display memory [crt], the registers of the display, the variables
    [uart] and [panicked], what was written to the ports of the serial line,
    how often its status was read, the ports read to acknowledge an interrupt, and
    the calls of [ioapicenable]. *)
Record term := mkterm {
  t_crt : list Z;
  t_index : Z;
  t_hi : Z;
  t_lo : Z;
  t_uart : Z;
  t_panicked : Z;
  t_com1 : list (Z * Z);
  t_polls : nat;
  t_acks : list Z;
  t_routes : list (Z * Z) }.
#[export] Instance eta_term : Eta term :=
  mkEta _ (fun r => mkterm (t_crt r) (t_index r) (t_hi r) (t_lo r) (t_uart r) (t_panicked r) (t_com1 r) (t_polls r) (t_acks r) (t_routes r)).

Abbreviation T := (M term).

(** The [n]-th reading of the line status. *)
Class Line := line_status : nat -> Z.

(** [outb] and [inb] on the ports of the display. *)
Definition crt_out (port v : Z) : T unit :=
  if port =? CRTPORT then modify (fun t => t <| t_index := v mod 256 |>)
  else
    i ← gets t_index;
    if i =? 14 then modify (fun t => t <| t_hi := v mod 256 |>)
    else if i =? 15 then modify (fun t => t <| t_lo := v mod 256 |>)
    else mret tt.
Definition crt_in : T Z :=
  t ← get;
  mret (if t_index t =? 14 then t_hi t else if t_index t =? 15 then t_lo t else 0).

Definition com_out (port v : Z) : T unit := modify (fun t => t <| t_com1 ::= fun o => o ++ [(port, v mod 256)] |>).

(** [memmove(crt, crt+80, ...)] and [memset(crt+pos, 0, ...)], in cells. *)
Definition crt_move (n : Z) : T unit :=
  l ← gets t_crt;
  if 80 + n <=? alen l then modify (fun t => t <| t_crt := splice l 0 (slice l 80 n) |>) else fault "crt".
Definition crt_clear (pos n : Z) : T unit :=
  l ← gets t_crt;
  if (0 <=? n) && (pos + n <=? alen l) then modify (fun t => t <| t_crt := splice l pos (replicate (Z.to_nat n) 0) |>) else fault "crt".

(** Scrolling up, and showing the cursor. *)
Definition scroll (pos : Z) : T Z :=
  if 24 <=? Z.quot pos 80 then
    crt_move (23 * 80) ;;;
    let pos := pos - 80 in
    crt_clear pos (24 * 80 - pos) ;;;
    mret pos
  else mret pos.
Definition set_cursor (pos : Z) : T unit :=
  crt_out CRTPORT 14 ;;;
  crt_out (CRTPORT + 1) (Z.shiftr pos 8) ;;;
  crt_out CRTPORT 15 ;;;
  crt_out (CRTPORT + 1) pos ;;;
  l ← gets t_crt;
  l ← wr "crt" l pos (Z.lor 32 0x0700);
  modify (fun t => t <| t_crt := l |>).

Definition get_cursor : T Z :=
  crt_out CRTPORT 14 ;;;
  hi ← crt_in;
  crt_out CRTPORT 15 ;;;
  lo ← crt_in;
  mret (Z.lor (Z.shiftl hi 8) lo).

Definition put_cell (pos c : Z) : T Z :=
  l ← gets t_crt;
  l ← wr "crt" l pos (Z.lor (Z.land c 0xff) 0x0700);
  modify (fun t => t <| t_crt := l |>) ;;;
  mret (pos + 1).

Definition cgaputc (c : Z) : T unit :=
  pos ← get_cursor;
  pos ←
    (if c =? 10 then mret (pos + (80 - Z.rem pos 80))
     else if c =? BACKSPACE then mret (if 0 <? pos then pos - 1 else pos)
     else put_cell pos c);
  if (pos <? 0) || (25 * 80 <? pos) then panic "pos under/overflow"
  else
    pos ← scroll pos;
    set_cursor pos.

Section serial.
Context {line : Line}.

Definition read_status : T Z :=
  t ← get;
  modify (fun t => t <| t_polls ::= S |>) ;;;
  mret (line_status (t_polls t)).

(** [for(i = 0; i < 128 && !(inb(COM1+5) & 0x20); i++) microdelay(10);] *)
Fixpoint wait_sent (n : nat) : T unit :=
  match n with
  | O => mret tt
  | S n' => s ← read_status; if Z.land s 0x20 =? 0 then wait_sent n' else mret tt
  end.
Definition uartputc (c : Z) : T unit :=
  u ← gets t_uart;
  if u =? 0 then mret tt
  else wait_sent 128 ;;; com_out COM1 c.

Fixpoint uartputs (s : list Z) : T unit :=
  match s with [] => mret tt | c :: s' => uartputc c ;;; uartputs s' end.

(** [inb] for its effect on the device only. *)
Definition com_ack (port : Z) : T unit := modify (fun t => t <| t_acks ::= fun l => l ++ [port] |>).
(** What the call does to the I/O APIC is with the interrupt controllers. *)
Definition com_route (irq cpu : Z) : T unit := modify (fun t => t <| t_routes ::= fun l => l ++ [(irq, cpu)] |>).

Definition uartinit : T unit :=
  com_out (COM1 + 2) 0 ;;;
  com_out (COM1 + 3) 0x80 ;;;
  com_out COM1 (115200 / 9600) ;;;
  com_out (COM1 + 1) 0 ;;;
  com_out (COM1 + 3) 0x03 ;;;
  com_out (COM1 + 4) 0 ;;;
  com_out (COM1 + 1) 0x01 ;;;
  s ← read_status;
  if s =? 0xFF then mret tt
  else
    modify (fun t => t <| t_uart := 1 |>) ;;;
    com_ack (COM1 + 2) ;;;
    com_ack COM1 ;;;
    com_route IRQ_COM1 0 ;;;
    uartputs (bytes "xv6..." ++ [10]).

Definition consputc (c : Z) : T unit :=
  p ← gets t_panicked;
  if negb (p =? 0) then spin "panicked"
  else
    (if c =? BACKSPACE then uartputc 8 ;;; uartputc 32 ;;; uartputc 8
     else uartputc c) ;;;
    cgaputc c.

Fixpoint consputs (s : list Z) : T unit :=
  match s with [] => mret tt | c :: s' => consputc c ;;; consputs s' end.
End serial.

(** ** A terminal *)

(** The rows above the cursor and the part of the row left of it. *)
Record tty := mktty { above : list (list Z); cur : list Z }.

(** The character a cell shows. *)
Definition glyph (cell : Z) : Z := let b := Z.land cell 0xff in if b =? 0 then 32 else b.

Definition feed (t : tty) : tty :=
  let rows := above t ++ [cur t] in mktty (if alen rows =? 24 then drop 1 rows else rows) [].
Definition pad80 (row : list Z) : list Z := row ++ replicate (80 - length row) 32.
Definition tput (c : Z) (t : tty) : tty :=
  if c =? 10 then feed t
  else if c =? BACKSPACE then
    match cur t with
    | [] => match last (above t) with
            | Some r => mktty (take (length (above t) - 1) (above t)) (take 79 (pad80 r))
            | None => t
            end
    | row => mktty (above t) (take (length row - 1) row)
    end
  else
    let row := cur t ++ [glyph c] in
    if alen row =? 80 then feed (mktty (above t) row) else mktty (above t) row.

(** What a terminal shows in a row and a column. *)
Definition at_rows (rows : list (list Z)) (r c : Z) : Z := default 32 (aget (default [] (aget rows r)) c).
Definition cursor (t : term) : Z := 256 * t_hi t + t_lo t.

(** The cells of the screen show [rows]. *)
Definition cells (l : list Z) (rows : list (list Z)) : Prop :=
  forall i, 0 <= i < 1920 -> exists v, aget l i = Some v /\ glyph v = at_rows rows (i / 80) (i mod 80).

Record shows (t : term) (y : tty) : Prop := {
  sh_crt : 1920 <= alen (t_crt t);
  sh_bytes : 0 <= t_hi t /\ 0 <= t_lo t < 256;
  sh_rows : alen (above y) <= 23;
  sh_width : Forall (fun r => alen r <= 80) (above y);
  sh_cur : alen (cur y) < 80;
  sh_pos : cursor t = 80 * alen (above y) + alen (cur y);
  sh_cells : cells (t_crt t) (above y ++ [cur y]) }.

Section facts.
Implicit Types (t : term) (y : tty) (l : list Z) (rows : list (list Z)) (row : list Z).

Lemma lor_bytes hi lo : 0 <= lo < 256 -> Z.lor (Z.shiftl hi 8) lo = 256 * hi + lo.
Proof.
  intros H. replace (256 * hi) with (Z.shiftl hi 8) by (rewrite Z.shiftl_mul_pow2 by done; lia). rewrite <- Z.add_lor_land.
  assert (Hl : Z.land (Z.shiftl hi 8) lo = 0).
  { apply Z.bits_inj'. intros n Hn. rewrite Z.land_spec, Z.bits_0. destruct (decide (n < 8)).
    - by rewrite Z.shiftl_spec_low by done.
    - rewrite (Z.bits_above_log2 lo n); [by rewrite andb_false_r|lia|].
      destruct (decide (lo = 0)) as [->|]; [cbn; lia|]. apply Z.log2_lt_pow2; [lia|]. apply (Z.lt_le_trans _ (2 ^ 8)); [lia|]. apply Z.pow_le_mono_r; lia. }
  rewrite Hl. lia.
Qed.

Lemma get_cursor_ok t : 0 <= t_lo t < 256 -> get_cursor t = Ret (cursor t) (t <| t_index := 15 |>).
Proof. intros H. unfold get_cursor. repeat mstep. unfold mret, M_ret. rewrite lor_bytes by done. by destruct t. Qed.

Lemma set_cursor_ok t pos : 0 <= pos < alen (t_crt t) ->
  set_cursor pos t = Ret tt (t <| t_index := 15 |> <| t_hi := Z.shiftr pos 8 mod 256 |> <| t_lo := pos mod 256 |>
    <| t_crt := <[Z.to_nat pos := Z.lor 32 0x0700]> (t_crt t) |>).
Proof.
  intros H. unfold set_cursor. repeat mstep. unfold wr. rewrite aset_Some by done. mstep. by destruct t.
Qed.

Lemma put_cell_ok t pos c : 0 <= pos < alen (t_crt t) ->
  put_cell pos c t = Ret (pos + 1) (t <| t_crt := <[Z.to_nat pos := Z.lor (Z.land c 0xff) 0x0700]> (t_crt t) |>).
Proof. intros H. unfold put_cell. mstep. unfold wr. rewrite aset_Some by done. by repeat mstep. Qed.

Lemma glyph_char c : glyph (Z.lor (Z.land c 0xff) 0x0700) = glyph c.
Proof.
  unfold glyph. rewrite Z.land_lor_distr_l, <- Z.land_assoc. change (Z.land 0xff 0xff) with 0xff. change (Z.land 0x700 0xff) with 0.
  by rewrite Z.lor_0_r.
Qed.

Lemma at_rows_app rows row r c : 0 <= r -> at_rows (rows ++ [row]) r c =
  if decide (r < alen rows) then at_rows rows r c else if decide (r = alen rows) then default 32 (aget row c) else 32.
Proof.
  intros Hr. unfold at_rows. rewrite aget_app by done. case_decide; [done|]. case_decide as E.
  - rewrite E, Z.sub_diag. done.
  - rewrite (aget_None [row]) by (change (alen [row]) with 1; lia). cbn [default]. by rewrite aget_nil.
Qed.

Lemma at_rows_beyond rows r c : alen rows <= r -> at_rows rows r c = 32.
Proof. intros Hr. unfold at_rows. rewrite (aget_None rows) by lia. cbn [default]. by rewrite aget_nil. Qed.
End facts.

Section refinement.
Context {line : Line}.
Implicit Types (t : term) (y : tty) (l : list Z) (rows : list (list Z)) (row : list Z).

Lemma cells_set l rows row c : cells l (rows ++ [row]) -> alen rows <= 23 -> alen row < 80 ->
  cells (<[Z.to_nat (80 * alen rows + alen row) := Z.lor (Z.land c 0xff) 0x0700]> l) (rows ++ [row ++ [glyph c]]).
Proof.
  intros H Hr Hw i Hi. pose proof (alen_nonneg rows). pose proof (alen_nonneg row). destruct (H i Hi) as (v & Hv & Hg).
  assert (Hp : 0 <= 80 * alen rows + alen row < alen l) by (destruct (H 1919 ltac:(lia)) as (? & Hx & _); apply aget_lt in Hx; lia).
  rewrite aget_insert by done. rewrite at_rows_app in Hg |- * by dlia. destruct (decide (80 * alen rows + alen row = i)) as [E|E].
  - exists (Z.lor (Z.land c 0xff) 0x0700). split; [done|]. rewrite glyph_char. rewrite decide_False by dlia. rewrite decide_True by dlia.
    rewrite aget_app by dlia. rewrite decide_False by dlia. replace (i mod 80 - alen row) with 0 by dlia. done.
  - exists v. split; [done|]. rewrite Hg. case_decide; [done|]. case_decide as E'; [|done]. rewrite aget_app by dlia. case_decide; [done|].
    rewrite !aget_None; [done|change (alen [glyph c]) with 1; dlia|lia].
Qed.

Lemma cells_feed l rows row : cells l (rows ++ [row]) -> cells l (rows ++ [row] ++ [[]]).
Proof.
  intros H i Hi. destruct (H i Hi) as (v & Hv & Hg). exists v. split; [done|]. rewrite Hg, app_assoc. rewrite (at_rows_app (rows ++ [row])) by dlia.
  case_decide; [done|]. rewrite at_rows_beyond by lia. case_decide; [by rewrite aget_nil|done].
Qed.

(** The same, but for the cell at [p]. *)
Definition cells_off l rows (p : Z) : Prop :=
  forall i, 0 <= i < 1920 -> exists v, aget l i = Some v /\ (i <> p -> glyph v = at_rows rows (i / 80) (i mod 80)).

Lemma cells_to_off l rows p : cells l rows -> cells_off l rows p.
Proof. intros H i Hi. destruct (H i Hi) as (v & Hv & Hg). eauto. Qed.

Lemma cells_blank l rows row v : cells_off l (rows ++ [row]) (80 * alen rows + alen row) -> alen rows <= 23 -> alen row < 80 -> glyph v = 32 ->
  cells (<[Z.to_nat (80 * alen rows + alen row) := v]> l) (rows ++ [row]).
Proof.
  intros H Hr Hw Hv i Hi. pose proof (alen_nonneg rows). pose proof (alen_nonneg row). destruct (H i Hi) as (x & Hx & Hg).
  assert (Hp : 0 <= 80 * alen rows + alen row < alen l) by (destruct (H 1919 ltac:(lia)) as (? & Hz & _); apply aget_lt in Hz; lia).
  rewrite aget_insert by done. case_decide as E; [|exists x; split; [done|]; apply Hg; lia]. exists v. split; [done|]. rewrite Hv, at_rows_app by dlia.
  rewrite decide_False by dlia. rewrite decide_True by dlia. by rewrite aget_None by dlia.
Qed.

Lemma crt_move_ok t n : 80 + n <= alen (t_crt t) -> crt_move n t = Ret tt (t <| t_crt := splice (t_crt t) 0 (slice (t_crt t) 80 n) |>).
Proof. intros H. unfold crt_move. mstep. destruct (Z.leb_spec (80 + n) (alen (t_crt t))); [done|lia]. Qed.
Lemma crt_clear_ok t pos n : 0 <= n -> pos + n <= alen (t_crt t) ->
  crt_clear pos n t = Ret tt (t <| t_crt := splice (t_crt t) pos (replicate (Z.to_nat n) 0) |>).
Proof.
  intros Hn H. unfold crt_clear. mstep. destruct (Z.leb_spec 0 n); [|lia]. destruct (Z.leb_spec (pos + n) (alen (t_crt t))); [done|lia].
Qed.

(** Moving the rows up and clearing the last one. *)
Lemma cells_scroll l rows : 1920 <= alen l -> alen rows = 24 -> cells l (rows ++ [[]]) ->
  cells (splice (splice l 0 (slice l 80 1840)) 1840 (replicate 80 0)) (drop 1 rows ++ [[]]).
Proof.
  intros Hl E Hc i Hi. assert (Hdr : alen (drop 1 rows) = 23) by (unfold alen in *; rewrite length_drop; lia).
  assert (Hs1 : alen (slice l 80 1840) = 1840) by (unfold slice, alen in *; rewrite length_take, length_drop; lia).
  assert (Hl1 : alen (splice l 0 (slice l 80 1840)) = alen l) by (apply splice_length; rewrite ?Hs1; lia).
  rewrite aget_splice by (change (alen (replicate 80 0)) with 80; lia). change (alen (replicate 80 0)) with 80.
  rewrite at_rows_app by dlia. rewrite Hdr. destruct (decide (1840 <= i < 1840 + 80)) as [Hb|Hb].
  - exists 0. split; [apply aget_replicate; lia|]. rewrite decide_False by dlia. rewrite decide_True by dlia. by rewrite aget_nil.
  - destruct (Hc (i + 80) ltac:(lia)) as (v & Hv & Hg). rewrite decide_True by dlia. exists v. split.
    + rewrite aget_splice by lia. rewrite decide_True by lia. unfold slice, aget in *. destruct (Z.leb_spec 0 (i - 0)), (Z.leb_spec 0 (i + 80)); try lia.
      rewrite lookup_take_lt by lia. rewrite lookup_drop. rewrite <- Hv. f_equal. lia.
    + rewrite Hg. rewrite at_rows_app by dlia. rewrite decide_True by dlia. replace ((i + 80) mod 80) with (i mod 80) by dlia.
      unfold at_rows. do 2 f_equal. unfold aget. destruct (Z.leb_spec 0 ((i + 80) / 80)), (Z.leb_spec 0 (i / 80)); try dlia.
      rewrite lookup_drop. do 2 f_equal. dlia.
Qed.

Lemma scroll_ok t rows row : 1920 <= alen (t_crt t) -> alen rows <= 24 -> alen row < 80 -> (alen rows = 24 -> row = []) ->
  cells_off (t_crt t) (rows ++ [row]) (80 * alen rows + alen row) -> let rows' := if alen rows =? 24 then drop 1 rows else rows in
  exists l', scroll (80 * alen rows + alen row) t = Ret (80 * alen rows' + alen row) (t <| t_crt := l' |>) /\
    alen l' = alen (t_crt t) /\ cells_off l' (rows' ++ [row]) (80 * alen rows' + alen row) /\ alen rows' <= 23.
Proof.
  intros Hl Hr Hw H24 Hc rows'. pose proof (alen_nonneg rows). pose proof (alen_nonneg row). unfold scroll, rows'.
  rewrite Z.quot_div_nonneg by lia. destruct (Z.eqb_spec (alen rows) 24) as [E|E].
  - rewrite (H24 E) in *. change (alen (@nil Z)) with 0. rewrite E. change (80 * 24 + 0) with 1920. change (24 <=? 1920 / 80) with true. cbv iota.
    assert (Hdr : alen (drop 1 rows) = 23) by (unfold alen in *; rewrite length_drop; lia).
    assert (Hs1 : alen (slice (t_crt t) 80 1840) = 1840) by (unfold slice, alen in *; rewrite length_take, length_drop; lia).
    set (l1 := splice (t_crt t) 0 (slice (t_crt t) 80 1840)). assert (Hl1 : alen l1 = alen (t_crt t)) by (apply splice_length; rewrite ?Hs1; lia).
    exists (splice l1 1840 (replicate 80 0)). split_and!.
    + run crt_move_ok; [|lia]. cbv zeta. run crt_clear_ok; [|done|change (1840 + 80 <= alen l1); lia]. rewrite Hdr. by destruct t.
    + rewrite splice_length; change (alen (replicate 80 0)) with 80; lia.
    + apply cells_to_off, cells_scroll; try done. intros i Hi. destruct (Hc i Hi) as (v & Hv & Hg). exists v. split; [done|]. apply Hg. change (alen (@nil Z)) with 0. lia.
    + lia.
  - exists (t_crt t). destruct (Z.leb_spec 24 ((80 * alen rows + alen row) / 80)); [dlia|]. split_and!; [|done|done|lia]. by destruct t.
Qed.

(** A screen where the text up to the cursor is [rows] and [row]. *)
Lemma finish_ok t rows row : 1920 <= alen (t_crt t) -> alen rows <= 24 -> Forall (fun r => alen r <= 80) rows -> alen row < 80 ->
  (alen rows = 24 -> row = []) -> cells_off (t_crt t) (rows ++ [row]) (80 * alen rows + alen row) ->
  exists t', (pos ← scroll (80 * alen rows + alen row); set_cursor pos) t = Ret tt t' /\
    shows t' (mktty (if alen rows =? 24 then drop 1 rows else rows) row) /\
    t_uart t' = t_uart t /\ t_panicked t' = t_panicked t /\ t_com1 t' = t_com1 t.
Proof.
  intros Hl Hr Hf Hw H24 Hc. pose proof (alen_nonneg row). destruct (scroll_ok t rows row Hl Hr Hw H24 Hc) as (l' & E & El & Hc' & Hr').
  set (rows' := if alen rows =? 24 then drop 1 rows else rows) in *. pose proof (alen_nonneg rows').
  eexists. split_and!; [run E; apply set_cursor_ok; cbn [t_crt]; rsimpl; lia|..]; try (by destruct t).
  split; unfold cursor; rsimpl; cbn [above cur]; rewrite ?alen_insert; try done; [by rewrite El|..].
  - rewrite Z.shiftr_div_pow2 by done. split; [dlia|]. apply Z.mod_pos_bound. done.
  - unfold rows'. case_match; [by apply Forall_drop|done].
  - rewrite Z.shiftr_div_pow2 by done. change (2 ^ 8) with 256. dlia.
  - by apply cells_blank.
Qed.

Lemma at_cur_take rows row (n : nat) (i : Z) : 0 <= i -> i <> 80 * alen rows + Z.of_nat n -> alen row <= Z.of_nat n + 1 -> (n <= length row)%nat -> Z.of_nat n < 80 ->
  at_rows (rows ++ [take n row]) (i / 80) (i mod 80) = at_rows (rows ++ [row]) (i / 80) (i mod 80).
Proof.
  intros Hi Hne Hl Hn H80. rewrite !at_rows_app by dlia. case_decide; [done|]. case_decide as E; [|done]. unfold aget. destruct (Z.leb_spec 0 (i mod 80)); [|done].
  f_equal. destruct (decide (Z.to_nat (i mod 80) < n)%nat); [by apply lookup_take_lt|].
  rewrite !lookup_ge_None_2; [done|unfold alen in *; dlia|rewrite length_take; dlia].
Qed.

Lemma rest_ok t rows row pos : 1920 <= alen (t_crt t) -> alen rows <= 24 -> Forall (fun r => alen r <= 80) rows -> alen row < 80 ->
  (alen rows = 24 -> row = []) -> cells_off (t_crt t) (rows ++ [row]) pos -> pos = 80 * alen rows + alen row ->
  exists t', (if (pos <? 0) || (25 * 80 <? pos) then panic "pos under/overflow" else pos ← scroll pos; set_cursor pos) t = Ret tt t' /\
    shows t' (mktty (if alen rows =? 24 then drop 1 rows else rows) row) /\
    t_uart t' = t_uart t /\ t_panicked t' = t_panicked t /\ t_com1 t' = t_com1 t.
Proof.
  intros Hl Hr Hf Hw H24 Hc ->. pose proof (alen_nonneg row). pose proof (alen_nonneg rows).
  destruct (Z.ltb_spec (80 * alen rows + alen row) 0); [lia|]. destruct (Z.ltb_spec (25 * 80) (80 * alen rows + alen row)); [lia|]. by apply finish_ok.
Qed.

Lemma at_rows_pad rows r (i : Z) : 0 <= i -> i <> 80 * alen rows + 79 -> alen r <= 80 ->
  at_rows (rows ++ [take 79 (pad80 r)]) (i / 80) (i mod 80) = at_rows ((rows ++ [r]) ++ [[]]) (i / 80) (i mod 80).
Proof.
  intros Hi Hne Hr. rewrite (at_rows_app (rows ++ [r])), !(at_rows_app rows) by dlia. rewrite alen_app. change (alen [r]) with 1.
  destruct (decide (i / 80 < alen rows)); [by rewrite decide_True by lia|]. destruct (decide (i / 80 = alen rows)) as [E|E].
  - rewrite decide_True by lia. assert (Hm : 0 <= i mod 80 < 79) by dlia. unfold aget. destruct (Z.leb_spec 0 (i mod 80)); [|lia].
    rewrite lookup_take_lt by lia. unfold pad80, alen in *. destruct (decide (Z.to_nat (i mod 80) < length r)%nat) as [Hlt|Hge]; [by rewrite lookup_app_l by done|].
    rewrite lookup_app_r by lia. rewrite lookup_replicate_2 by lia. by rewrite lookup_ge_None_2 by lia.
  - case_decide; [done|]. case_decide; [by rewrite aget_nil|done].
Qed.

(** Backspace at the start of a row. *)
Lemma backspace_row t rows : 1920 <= alen (t_crt t) -> alen rows <= 23 -> Forall (fun r => alen r <= 80) rows -> cells (t_crt t) (rows ++ [[]]) ->
  let pos := 80 * alen rows + alen (@nil Z) in let pos' := if 0 <? pos then pos - 1 else pos in
  exists t', (if (pos' <? 0) || (25 * 80 <? pos') then panic "pos under/overflow" else pos ← scroll pos'; set_cursor pos) t = Ret tt t' /\
    shows t' (match last rows with
              | Some r => mktty (take (length rows - 1) rows) (take 79 (pad80 r))
              | None => mktty rows []
              end) /\
    t_uart t' = t_uart t /\ t_panicked t' = t_panicked t /\ t_com1 t' = t_com1 t.
Proof.
  intros Hl Hr Hf Hc pos pos'. unfold pos', pos. change (alen (@nil Z)) with 0. destruct rows as [|r rows _] using rev_ind.
  - by apply (rest_ok t [] []); [..|apply cells_to_off|].
  - rewrite last_snoc, length_app, Nat.add_sub, take_app_length. rewrite alen_app in *. change (alen [r]) with 1 in *. pose proof (alen_nonneg rows).
    apply Forall_app in Hf as [Hf Hfr]. rewrite Forall_singleton in Hfr. destruct (Z.ltb_spec 0 (80 * (alen rows + 1) + 0)); [|lia].
    assert (Ht : alen (take 79 (pad80 r)) = 79) by (unfold pad80, alen in *; rewrite length_take, length_app, length_replicate; lia).
    destruct (rest_ok t rows (take 79 (pad80 r)) (80 * (alen rows + 1) + 0 - 1)) as (t' & E & Hs & Hfm); try done; [lia|lia|lia| |lia|].
    + intros i Hi. destruct (Hc i Hi) as (v & Hv & Hg). exists v. split; [done|]. intros Hne. rewrite Hg. symmetry. apply at_rows_pad; lia.
    + exists t'. split; [done|]. split; [|done]. destruct (Z.eqb_spec (alen rows) 24); [lia|]. done.
Qed.

Lemma cgaputc_ok c t y : shows t y ->
  exists t', cgaputc c t = Ret tt t' /\ shows t' (tput c y) /\ t_uart t' = t_uart t /\ t_panicked t' = t_panicked t /\ t_com1 t' = t_com1 t.
Proof.
  intros [Hl Hb Hr Hf Hw Hp Hc]. destruct y as [rows row]. cbn [above cur] in *. pose proof (alen_nonneg rows). pose proof (alen_nonneg row).
  assert (Hrr : alen (rows ++ [row]) = alen rows + 1) by (by rewrite alen_app).
  assert (Hff : Forall (fun r => alen r <= 80) (rows ++ [row])) by (apply Forall_app; split; [done|]; apply Forall_singleton; lia).
  unfold cgaputc, tput. run get_cursor_ok; [|by apply Hb]. rewrite Hp. cbn [above cur]. set (t1 := t <| t_index := 15 |>).
  assert (Ht1 : t_crt t1 = t_crt t /\ t_uart t1 = t_uart t /\ t_panicked t1 = t_panicked t /\ t_com1 t1 = t_com1 t) by (by destruct t).
  destruct Ht1 as (Ec & <- & <- & <-). rewrite <- Ec in Hl, Hc. clearbody t1. destruct (Z.eqb_spec c 10) as [->|Hn]; [|destruct (Z.eqb_spec c BACKSPACE) as [->|Hn']].
  - mstep. rewrite Z.rem_mod_nonneg by lia. apply (rest_ok t1 (rows ++ [row]) []); try done; [lia| |rewrite Hrr; change (alen (@nil Z)) with 0; dlia].
    rewrite <- app_assoc. by apply cells_to_off, cells_feed.
  - destruct row as [|x row'].
    + mstep. by apply backspace_row.
    + mstep. set (row := x :: row') in *. assert (Hne : 0 < alen row) by (unfold row; rewrite alen_cons; pose proof (alen_nonneg row'); lia).
      destruct (Z.ltb_spec 0 (80 * alen rows + alen row)); [|lia]. assert (Et : alen (take (length row - 1) row) = alen row - 1) by (unfold alen in *; rewrite length_take; lia).
      destruct (rest_ok t1 rows (take (length row - 1) row) (80 * alen rows + alen row - 1)) as (t' & E & Hs & Hfr); try done; [lia|lia|lia| |lia|].
      * intros i Hi. destruct (Hc i Hi) as (v & Hv & Hg). exists v. split; [done|]. intros Hne'. rewrite Hg. symmetry. apply at_cur_take; unfold alen in *; lia.
      * exists t'. split; [done|]. split; [|done]. destruct (Z.eqb_spec (alen rows) 24); [lia|]. done.
  - run put_cell_ok; [|destruct (Hc 1919 ltac:(lia)) as (v & Hv & _); apply aget_lt in Hv; lia].
    apply (cells_set _ _ _ c) in Hc; [|done|done]. set (l1 := <[_ := _]> _) in *. assert (Hl1 : alen l1 = alen (t_crt t1)) by apply alen_insert.
    assert (Hr1 : alen (row ++ [glyph c]) = alen row + 1) by (by rewrite alen_app). rewrite Hr1.
    destruct (Z.eqb_spec (alen row + 1) 80) as [E8|E8].
    + assert (Hrc : alen (rows ++ [row ++ [glyph c]]) = alen rows + 1) by (by rewrite alen_app).
      destruct (rest_ok (t1 <| t_crt := l1 |>) (rows ++ [row ++ [glyph c]]) [] (80 * alen rows + alen row + 1)) as (t' & E & Hs & Hfr); rsimpl; try done.
      * by rewrite Hl1.
      * lia.
      * apply Forall_app. split; [done|]. apply Forall_singleton. lia.
      * rewrite <- app_assoc. by apply cells_to_off, cells_feed.
      * rewrite Hrc. change (alen (@nil Z)) with 0. lia.
      * by exists t'.
    + destruct (rest_ok (t1 <| t_crt := l1 |>) rows (row ++ [glyph c]) (80 * alen rows + alen row + 1)) as (t' & E & Hs & Hfr); rsimpl; try done; try lia; [by apply cells_to_off|].
      exists t'. split; [done|]. split; [|done]. destruct (Z.eqb_spec (alen rows) 24); [lia|]. done.
Qed.

(** What the serial line is sent for a character. *)
Definition serial (c : Z) : list Z := if c =? BACKSPACE then [8; 32; 8] else [c mod 256].
Definition sent t (bs : list Z) : list (Z * Z) := if t_uart t =? 0 then [] else pair COM1 <$> bs.

Lemma wait_sent_ok n : forall t, exists p, wait_sent n t = Ret tt (t <| t_polls := p |>).
Proof.
  induction n as [|n IH]; intros t; cbn [wait_sent].
  - exists (t_polls t). by destruct t.
  - unfold read_status. erewrite bind_Ret; [|by repeat mstep]. cbv beta. case_match.
    + destruct (IH (t <| t_polls ::= S |>)) as [p ->]. exists p. by destruct t.
    + exists (S (t_polls t)). by destruct t.
Qed.

Lemma uartputc_ok c t : exists p, uartputc c t = Ret tt (t <| t_polls := p |> <| t_com1 ::= fun o => o ++ sent t [c mod 256] |>).
Proof.
  unfold uartputc, sent. mstep. destruct (t_uart t =? 0).
  - exists (t_polls t). destruct t. cbn. unfold upd; cbn. by rewrite app_nil_r.
  - destruct (wait_sent_ok 128 t) as [p E]. exists p. by run E.
Qed.

Lemma serial_ok c t : exists p, (if c =? BACKSPACE then uartputc 8 ;;; uartputc 32 ;;; uartputc 8 else uartputc c) t =
  Ret tt (t <| t_polls := p |> <| t_com1 ::= fun o => o ++ sent t (serial c) |>).
Proof.
  unfold serial. destruct (c =? BACKSPACE); [|apply uartputc_ok]. destruct (uartputc_ok 8 t) as [p1 E1]. set (t1 := _ <| t_com1 ::= _ |>) in E1.
  destruct (uartputc_ok 32 t1) as [p2 E2]. set (t2 := _ <| t_com1 ::= _ |>) in E2. destruct (uartputc_ok 8 t2) as [p3 E3].
  exists p3. run E1. run E2. rewrite E3. unfold t2, t1, sent. destruct t as [a b c' d u f o g]. cbn. unfold upd; cbn. destruct (u =? 0); [by rewrite !app_nil_r|].
  by rewrite <- !app_assoc.
Qed.

Lemma shows_ext t t' y : shows t y -> t_crt t' = t_crt t -> t_hi t' = t_hi t -> t_lo t' = t_lo t -> shows t' y.
Proof. intros [H1 H2 H3 H4 H5 H6 H7] E1 E2 E3. split; unfold cursor in *; rewrite ?E1, ?E2, ?E3; done. Qed.

Lemma consputc_ok c t y : shows t y -> t_panicked t = 0 ->
  exists t', consputc c t = Ret tt t' /\ shows t' (tput c y) /\ t_panicked t' = 0 /\ t_uart t' = t_uart t /\ t_com1 t' = t_com1 t ++ sent t (serial c).
Proof.
  intros Hs Hp. destruct (serial_ok c t) as [p E]. set (t1 := _ <| t_com1 ::= _ |>) in E.
  destruct (cgaputc_ok c t1 y) as (t' & E' & Hs' & U & P & C); [by apply (shows_ext t); [|destruct t..]|].
  exists t'. split_and!; [|done|rewrite P; by destruct t|rewrite U; by destruct t|rewrite C; by destruct t].
  unfold consputc. mstep. rewrite Hp. cbn [Z.eqb negb]. by run E.
Qed.

(** C11. The console shows what a terminal shows.  Whatever characters are
    printed, newlines and backspaces included, [consputc] returns, the screen
    and its cursor are those of a terminal of 24 rows of 80 columns that wraps
    and scrolls, and a serial line that is present has been sent the same
    characters. *)
Theorem screen_refines_tty cs : forall t y, shows t y -> t_panicked t = 0 ->
  exists t', consputs cs t = Ret tt t' /\ shows t' (foldl (fun y c => tput c y) y cs) /\ t_com1 t' = t_com1 t ++ sent t (concat (serial <$> cs)).
Proof.
  induction cs as [|c cs IH]; intros t y Hs Hp.
  - exists t. split; [done|]. split; [done|]. unfold sent. case_match; by rewrite app_nil_r.
  - destruct (consputc_ok c t y Hs Hp) as (t1 & E1 & Hs1 & P1 & U1 & C1). destruct (IH t1 (tput c y) Hs1 P1) as (t2 & E2 & Hs2 & C2).
    exists t2. split_and!; [cbn [consputs]; by run E1|done|]. rewrite C2, C1, <- app_assoc. f_equal. unfold sent. rewrite U1.
    destruct (t_uart t =? 0); [done|]. cbn. by rewrite fmap_app.
Qed.
End refinement.

(** A cleared screen. *)
Definition cleared : term := mkterm (replicate 2000 0) 0 0 0 1 0 [] 0 [] [].
Lemma cleared_shows : shows cleared (mktty [] []).
Proof.
  split; try done. intros i Hi. exists 0. split; [apply aget_replicate; lia|]. unfold at_rows. cbn [above cur app].
  destruct (decide (i / 80 = 0)) as [->|]; [change (default [] (aget [[]] 0)) with (@nil Z)|rewrite (aget_None [[]]) by (change (alen [[]]) with 1; dlia); cbn [default]]; by rewrite aget_nil.
Qed.

(** A line too long for a row, a backspace and a newline, on a ready line. *)
Lemma screen_refines_tty_witness : let line : Line := fun _ => 0x20 in let cs := replicate 81 65 ++ [BACKSPACE; 66; 10; 67] in
  exists t', consputs cs cleared = Ret tt t' /\ shows t' (foldl (fun y c => tput c y) (mktty [] []) cs) /\
    t_com1 t' = [] ++ sent cleared (concat (serial <$> cs)).
Proof. intros line cs. apply (screen_refines_tty cs cleared (mktty [] [])); [apply cleared_shows|done]. Defined.
