(* ===== verification/Exec.v ===== *)
(** * Running programs ([exec.c], [loaduvm] of [vm.c], [sys_exec]) *)

From S2P Require Import Prelude State Spinlock CString Kalloc Console Vm Message Container Proc Syscall.
From S2P Require Import Sleeplock Bio Log Fs Names Pipe File Sysfile.
Open Scope Z_scope.

(** [safestrcpy] into the 16 bytes of a process name, from address [t]. *)
Definition name_from (m : mem) (t : Z) (old : list Z) : list Z :=
  let a := 2 ^ 33 in
  let m' := safestrcpy (mem_at a old m) a t 16 in
  (fun i => m' (a + Z.of_nat i)) <$> seq 0 16.

Definition ELF_MAGIC : Z := 0x464C457F.
Definition ELF_PROG_LOAD : Z := 1.
(** The sizes of [struct elfhdr] and [struct proghdr]. *)
Definition ELFHDR : Z := 52.
Definition PROGHDR : Z := 32.

(** A field of [n] bytes at offset [o] of a structure. *)
Definition field (bs : list Z) (o n : nat) : Z := of_le (take n (drop o bs)).
Definition elf_magic (e : list Z) : Z := field e 0 4.
Definition elf_entry (e : list Z) : Z := field e 24 4.
Definition elf_phoff (e : list Z) : Z := field e 28 4.
Definition elf_phnum (e : list Z) : Z := field e 44 2.
Definition ph_type (p : list Z) : Z := field p 0 4.
Definition ph_off (p : list Z) : Z := field p 4 4.
Definition ph_vaddr (p : list Z) : Z := field p 8 4.
Definition ph_filesz (p : list Z) : Z := field p 16 4.
Definition ph_memsz (p : list Z) : Z := field p 20 4.

Section exec.
Context {fuel : Fuel} {disk : BlockDev} {devs : DevOps}.

Fixpoint loaduvm_loop (f : nat) (pgdir addr ip offset i sz : Z) : K Z :=
  match f with
  | O => fun _ => Diverge
  | S f' =>
      if i <? sz then
        pte ← walkpgdir pgdir (u32 (addr + i)) 0;
        if pte =? 0 then panic "loaduvm: address should exist"
        else
          v ← ld pte;
          let n := if sz - i <? PGSIZE then sz - i else PGSIZE in
          r ← readi ip (P2V (PTE_ADDR v)) (u32 (offset + i)) n;
          if negb (u32 r =? n) then mret (-1)
          else loaduvm_loop f' pgdir addr ip offset (u32 (i + PGSIZE)) sz
      else mret 0
  end.
Definition loaduvm (pgdir addr ip offset sz : Z) : K Z :=
  if negb (addr mod PGSIZE =? 0) then panic "loaduvm: addr must be page aligned"
  else loaduvm_loop (Z.to_nat (2 ^ 20 + 1)) pgdir addr ip offset 0 sz.

(** The segments: the size of the image, or [None] for [goto bad]. *)
Fixpoint load_segments (n : nat) (pgdir ip off sz : Z) : K (option Z) :=
  match n with
  | O => mret (Some sz)
  | S n' =>
      r ← readi_local ip off PROGHDR;
      if negb (r.1 =? PROGHDR) then mret None
      else
        let ph := r.2 in
        if negb (ph_type ph =? ELF_PROG_LOAD) then load_segments n' pgdir ip (u32 (off + PROGHDR)) sz
        else if ph_memsz ph <? ph_filesz ph then mret None
        else if u32 (ph_vaddr ph + ph_memsz ph) <? ph_vaddr ph then mret None
        else
          sz ← allocuvm pgdir sz (u32 (ph_vaddr ph + ph_memsz ph));
          if sz =? 0 then mret None
          else if negb (ph_vaddr ph mod PGSIZE =? 0) then mret None
          else
            r ← loaduvm pgdir (ph_vaddr ph) ip (ph_off ph) (ph_filesz ph);
            if r <? 0 then mret None
            else load_segments n' pgdir ip (u32 (off + PROGHDR)) sz
  end.

(** The argument strings: the stack pointer and their addresses. *)
Fixpoint push_args (n : nat) (pgdir sp : Z) (argv : list Z) (argc : Z) : K (option (Z * list Z)) :=
  match n with
  | O => fun _ => Diverge
  | S n' =>
      a ← rd "argv" argv argc;
      if a =? 0 then mret (Some (sp, []))
      else if MAXARG <=? argc then mret None
      else
        len ← k_strlen a;
        let sp := Z.land (u32 (sp - (len + 1))) (u32 (Z.lnot 3)) in
        r ← copyout pgdir sp a (len + 1);
        if r <? 0 then mret None
        else
          t ← push_args n' pgdir sp argv (argc + 1);
          mret (match t with Some (sp', us) => Some (sp', sp :: us) | None => None end)
  end.

(** The last component of the path. *)
Fixpoint last_elem (n : nat) (m : mem) (s last : Z) : Z :=
  match n with
  | O => last
  | S n' => if m s =? 0 then last
            else last_elem n' m (s + 1) (if m s =? SLASH then s + 1 else last)
  end.

(** [bad]: with the inode still locked, or after it has been put. *)
Definition exec_bad (pgdir : Z) (ip : option Z) : K Z :=
  when (negb (pgdir =? 0)) (freevm pgdir) ;;;
  match ip with Some ip => iunlockput ip ;;; end_op | None => mret tt end ;;;
  mret (-1).

(** From the user stack on: [sz] is the size of the loaded image. *)
Definition exec_stack (i path : Z) (argv elf : list Z) (pgdir sz : Z) : K Z :=
  let sz := u32 (PGROUNDUP sz) in
  sz ← allocuvm pgdir sz (u32 (sz + 2 * PGSIZE));
  if sz =? 0 then exec_bad pgdir None
  else
    clearpteu pgdir (u32 (sz - 2 * PGSIZE)) ;;;
    r ← push_args (Z.to_nat MAXARG + 2) pgdir sz argv 0;
    match r with
    | None => exec_bad pgdir None
    | Some (sp, us) =>
        let argc := alen us in
        let ustack := [0xffffffff; argc; u32 (sp - (argc + 1) * 4)] ++ us ++ [0] in
        let sp := u32 (sp - (3 + argc + 1) * 4) in
        r ← copyout_local pgdir sp (concat (le_bytes 4 <$> ustack));
        if r <? 0 then exec_bad pgdir None
        else
          m ← gets k_mem;
          len ← k_strlen path;
          let last := last_elem (Z.to_nat len) m path path in
          p_set i (fun p => p <| p_name ::= name_from m last |>) ;;;
          p ← p_at i;
          let oldpgdir := p_pgdir p in
          p_set i (fun p => p <| p_pgdir := pgdir |>) ;;;
          p_set i (fun p => p <| p_sz := sz |>) ;;;
          p_set i (fun p => p <| p_tf ::= fun tf => tf <| tf_eip := elf_entry elf |> |>) ;;;
          p_set i (fun p => p <| p_tf ::= fun tf => tf <| tf_esp := sp |> |>) ;;;
          switchuvm (Some (Z.to_nat i)) ;;;
          freevm oldpgdir ;;;
          mret 0
    end.

Definition exec (path : Z) (argv : list Z) : K Z :=
  i ← curproc;
  begin_op ;;;
  r ← namei path;
  match r with
  | None => end_op ;;; cprintf (bytes "exec: fail" ++ [10]) [] ;;; mret (-1)
  | Some ip =>
      ilock (Some ip) ;;;
      r ← readi_local ip 0 ELFHDR;
      let elf := r.2 in
      if negb (r.1 =? ELFHDR) then exec_bad 0 (Some ip)
      else if negb (elf_magic elf =? ELF_MAGIC) then exec_bad 0 (Some ip)
      else
        pgdir ← setupkvm;
        if pgdir =? 0 then exec_bad 0 (Some ip)
        else
          r ← load_segments (Z.to_nat (elf_phnum elf)) pgdir ip (elf_phoff elf) 0;
          match r with
          | None => exec_bad pgdir (Some ip)
          | Some sz =>
              iunlockput ip ;;;
              end_op ;;;
              exec_stack i path argv elf pgdir sz
          end
  end.

(** The argument vector: [None] for an error. *)
Fixpoint fetch_argv (n : nat) (uargv i : Z) (argv : list Z) : K (option (list Z)) :=
  match n with
  | O => mret None
  | S n' =>
      u ← fetchint (u32 (uargv + 4 * i));
      match u with
      | None => mret None
      | Some u =>
          let uarg := u32 u in
          if uarg =? 0 then mret (Some (<[Z.to_nat i := 0]> argv))
          else
            s ← fetchstr uarg;
            match s with
            | None => mret None
            | Some (s, _) => fetch_argv n' uargv (i + 1) (<[Z.to_nat i := s]> argv)
            end
      end
  end.

Definition sys_exec : K Z :=
  path ← argstr 0;
  match path with
  | None => mret (-1)
  | Some (path, _) =>
      uargv ← argint 1;
      match uargv with
      | None => mret (-1)
      | Some uargv =>
          argv ← fetch_argv (Z.to_nat MAXARG) (u32 uargv) 0 (replicate (Z.to_nat MAXARG) 0);
          match argv with
          | None => mret (-1)
          | Some argv => exec path argv
          end
      end
  end.
End exec.
