(* ===== verification/Fork.v ===== *)
(** * Creating and ending processes ([proc.c], continued) *)

From S2P Require Import Prelude State Spinlock CString Kalloc Console Vm Message Container Proc Syscall.
From S2P Require Import Sleeplock Bio Log Fs Names Pipe File Sysfile Exec.
Open Scope Z_scope.

(** The segment selectors of user code and data, with user privilege. *)
Definition USER_CS : Z := Z.lor (Z.shiftl 3 3) 3.
Definition USER_DS : Z := Z.lor (Z.shiftl 4 3) 3.
Definition FL_IF : Z := 0x200.

Section fork.
Context {fuel : Fuel} {disk : BlockDev} {devs : DevOps}.

(** [init] and [size] are the address and the size of the embedded initcode. *)
Definition userinit (init size : Z) : K unit :=
  r ← allocproc;
  modify (fun k => k <| k_initproc := Z.to_nat <$> r |>) ;;;
  i ← deref (Z.to_nat <$> r);
  pg ← setupkvm;
  p_set i (fun p => p <| p_pgdir := pg |>) ;;;
  if pg =? 0 then panic "userinit: out of memory?"
  else
    inituvm pg init size ;;;
    p_set i (fun p => p <| p_sz := PGSIZE |>) ;;;
    p_set i (fun p => p <| p_tf := tf0 <| tf_cs := USER_CS |> <| tf_ds := USER_DS |> <| tf_es := USER_DS |>
      <| tf_ss := USER_DS |> <| tf_eflags := FL_IF |> <| tf_esp := PGSIZE |> <| tf_eip := 0 |> |>) ;;;
    p_set i (fun p => p <| p_name ::= name_from (mem_at 0 (bytes "initcode" ++ [0]) (fun _ => 0)) 0 |>) ;;;
    cwd ← namei_const (bytes "/");
    p_set i (fun p => p <| p_cwd := Z.to_nat <$> cwd |>) ;;;
    acquire ptable_lock ;;;
    p_set i (fun p => p <| p_state := RUNNABLE |>) ;;;
    release ptable_lock.

(** The loop of [fork] over the open files, for the new entry [np]. *)
Definition fork_files (c np : Z) : K unit :=
  each (Z.to_nat NOFILE) 0 (fun i =>
    p ← p_at c;
    o ← rd "ofile" (p_ofile p) i;
    match o with
    | None => mret tt
    | Some f => g ← filedup (Z.of_nat f); set_ofile np i (Some (Z.to_nat g))
    end).

(** [fork] once the address space is copied. *)
Definition fork_tail (c np : Z) : K Z :=
  p ← p_at c;
  p_set np (fun q => q <| p_sz := p_sz p |>) ;;;
  p_set np (fun q => q <| p_parent := Some (Z.to_nat c) |>) ;;;
  p_set np (fun q => q <| p_tf := p_tf p |>) ;;;
  p_set np (fun q => q <| p_tf ::= fun tf => tf <| tf_eax := 0 |> |>) ;;;
  fork_files c np ;;;
  p ← p_at c;
  cwd ← deref_ip (p_cwd p);
  d ← idup cwd;
  p_set np (fun q => q <| p_cwd := Some (Z.to_nat d) |>) ;;;
  p ← p_at c;
  p_set np (fun q => q <| p_name ::= name_from (mem_at 0 (p_name p) (fun _ => 0)) 0 |>) ;;;
  q ← p_at np;
  let pid := p_pid q in
  acquire ptable_lock ;;;
  p_set np (fun q => q <| p_state := RUNNABLE |>) ;;;
  release ptable_lock ;;;
  mret pid.

Definition fork : K Z :=
  c ← curproc;
  r ← allocproc;
  match r with
  | None => mret (-1)
  | Some np =>
      p ← p_at c;
      pg ← copyuvm (p_pgdir p) (p_sz p);
      p_set np (fun q => q <| p_pgdir := pg |>) ;;;
      if pg =? 0 then
        q ← p_at np;
        kfree (p_kstack q) ;;;
        p_set np (fun q => q <| p_kstack := 0 |>) ;;;
        p_set np (fun q => q <| p_state := UNUSED |>) ;;;
        mret (-1)
      else fork_tail c np
  end.

(** [p->parent] as a wait channel; null is no process. *)
Definition proc_chan (p : option nat) : chan := match p with Some i => CProc i | None => CInt 0 end.

(** The CPU is never given back: the run after the switch is a panic. *)
Definition exit : K unit :=
  c ← myproc;
  i ← gets k_initproc;
  if bool_decide (c = i) then panic "init exiting"
  else
    cp ← deref c;
    each (Z.to_nat NOFILE) 0 (fun fd =>
      p ← p_at cp;
      o ← rd "ofile" (p_ofile p) fd;
      match o with
      | None => mret tt
      | Some f => fileclose (Z.of_nat f) ;;; set_ofile cp fd None
      end) ;;;
    begin_op ;;;
    p ← p_at cp;
    cwd ← deref_ip (p_cwd p);
    iput cwd ;;;
    end_op ;;;
    p_set cp (fun p => p <| p_cwd := None |>) ;;;
    acquire ptable_lock ;;;
    p ← p_at cp;
    wakeup1 (proc_chan (p_parent p)) ;;;
    each (Z.to_nat NPROC) 0 (fun j =>
      q ← p_at j;
      when (bool_decide (p_parent q = c))
        (ip ← gets k_initproc;
         p_set j (fun q => q <| p_parent := ip |>) ;;;
         q ← p_at j;
         when (bool_decide (p_state q = ZOMBIE)) (wakeup1 (proc_chan ip)))) ;;;
    p_set cp (fun p => p <| p_state := ZOMBIE |>) ;;;
    sched ;;;
    panic "zombie exit".

(** [first] is the static variable: set in the first process only. *)
Definition forkret (first : bool) : K unit :=
  release ptable_lock ;;;
  when first (iinit ROOTDEV ;;; initlog ROOTDEV).

Definition sys_fork : K Z := fork.
Definition sys_exit : K Z := exit ;;; mret 0.
End fork.
