(* ===== verification/ForkSpec.v ===== *)
(** * What [fork] gives the child ([proc.c])

    [allocproc], [copyuvm], [filedup], [idup] and [safestrcpy] put together.
    [fork_copies]: with memory and a free entry, [fork] returns the new pid and
    leaves a runnable child that sees the parent's bytes in pages of its own,
    shares the parent's files and directory, whose reference counts go up
    accordingly, and resumes with 0 in its return register. *)

From S2P Require Import Prelude State Spinlock CString Kalloc Console Vm Kvm Uvm Message Container Proc Syscall.
From S2P Require Import Sleeplock Bio Log Fs Names Pipe File Sysfile Exec Fork.
Open Scope Z_scope.

(** ** Names *)

(** The bytes of a name field hold the string [s]. *)
Definition named (field s : list Z) : Prop :=
  Forall (fun c => 0 < c < 256) s /\ (length s < 16)%nat /\ exists rest, field = s ++ 0 :: rest.

Section names.
Implicit Types (m : mem) (s : list Z) (p q : Z) (n : nat).

Lemma safestrcpy_below n : forall m p q a, a < p -> safestrcpy_loop m p q n a = m a.
Proof.
  induction n as [|n IH]; intros m p q a Ha; cbn; [by rewrite store8_ne by lia|].
  destruct (_ =? 0); [by rewrite !store8_ne by lia|]. by rewrite IH, store8_ne by lia.
Qed.

Lemma safestrcpy_copies s : forall n m p q,
  Forall (fun c => 0 < c < 256) s -> (length s <= n)%nat -> cstr m q s -> q + alen s < p ->
  cstr (safestrcpy_loop m p q n) p s.
Proof.
  induction s as [|c s IH]; intros n m p q Hc Hn (_ & Hs & H0) Hd.
  { split_and!; [done|done|]. change (alen []) with 0 in *. rewrite Z.add_0_r in *. destruct n; cbn [safestrcpy_loop]; [by rewrite store8_eq|].
    rewrite H0. change (byte 0 =? 0) with true. cbv iota. by rewrite store8_ne, store8_eq by lia. }
  destruct n as [|n]; [cbn in Hn; lia|]. apply Forall_cons in Hc as [Hc Hs']. rewrite alen_cons in *.
  assert (Hq : m q = c) by (rewrite <- (Z.add_0_r q); by apply (Hs 0%nat)). cbn [safestrcpy_loop]. rewrite Hq, byte_id by lia.
  destruct (Z.eqb_spec c 0); [lia|]. destruct (IH n (store8 m p c) (p + 1) (q + 1)) as (Hnz & Hi & Hz); [done|cbn in Hn; lia| |lia|].
  { split_and!; [eapply Forall_impl; [done|simpl; lia]| |].
    - intros i x Hx. pose proof (lookup_lt_Some _ _ _ Hx). unfold alen in *. rewrite store8_ne by lia. rewrite <- (Hs (S i) x Hx). f_equal. lia.
    - rewrite store8_ne by lia. rewrite <- H0. f_equal. lia. }
  split_and!.
  - constructor; [lia|done].
  - intros [|i] x Hx.
    + injection Hx as <-. rewrite Z.add_0_r, safestrcpy_below, store8_eq by lia. by apply byte_id; lia.
    + rewrite <- (Hi i x Hx). f_equal. lia.
  - rewrite alen_cons, <- Hz. f_equal. lia.
Qed.

(** The child's name is the parent's. *)
Lemma name_from_named field s old : named field s -> named (name_from (mem_at 0 field (fun _ => 0)) 0 old) s.
Proof.
  intros (Hs & Hl & rest & ->). split; [done|]. split; [done|]. assert (Ha : 16 < 2 ^ 33) by lia. unfold name_from. revert Ha. generalize (2 ^ 33). intros a Ha.
  destruct (safestrcpy_copies s 15 (mem_at a old (mem_at 0 (s ++ 0 :: rest) (fun _ => 0))) a 0) as (_ & Hi & Hz); [done|lia| |unfold alen; lia|].
  { apply mem_at_other; [|left; unfold alen; lia]. split_and!.
    - eapply Forall_impl; [done|simpl; lia].
    - intros i x Hx. pose proof (lookup_lt_Some _ _ _ Hx). unfold mem_at. rewrite within_true by (rewrite alen_app, alen_cons; unfold alen; lia).
      rewrite Z.add_0_l, Z.sub_0_r, aget_nat. by rewrite (lookup_app_l_Some _ _ _ _ Hx).
    - unfold mem_at. rewrite within_true by (rewrite alen_app, alen_cons; unfold alen; lia). rewrite Z.add_0_l, Z.sub_0_r. unfold alen. by rewrite aget_nat, list_lookup_middle. }
  change (safestrcpy ?m a 0 16) with (safestrcpy_loop m a 0 15).
  revert Hi Hz. generalize (safestrcpy_loop (mem_at a old (mem_at 0 (s ++ 0 :: rest) (fun _ => 0))) a 0 15). intros m' Hi Hz. exists ((fun i => m' (a + Z.of_nat i)) <$> seq (S (length s)) (15 - length s)).
  apply list_eq. intros i. rewrite list_lookup_fmap. destruct (decide (i < 16)%nat) as [H16|H16].
  - rewrite lookup_seq_lt by lia. cbn. destruct (decide (i < length s)%nat) as [Hlt|Hlt].
    + destruct (lookup_lt_is_Some_2 s i Hlt) as [x Hx]. rewrite (lookup_app_l_Some _ _ _ _ Hx). f_equal. by apply Hi.
    + rewrite lookup_app_r by lia. destruct (decide (i = length s)) as [->|]; [rewrite Nat.sub_diag; cbn; f_equal; exact Hz|].
      rewrite lookup_cons_ne_0, list_lookup_fmap, lookup_seq_lt by lia. cbn. do 3 f_equal. lia.
  - rewrite lookup_seq_ge by lia. symmetry. apply lookup_ge_None_2. rewrite length_app. cbn. rewrite length_fmap, length_seq. lia.
Qed.
End names.

(** ** Sharing files and the directory *)

(** How many of the descriptors [fds] are the file [f]. *)
Definition refs_of (fds : list (option nat)) (f : nat) : Z := Z.of_nat (length (filter (fun o => o = Some f) fds)).

(** The file table with a reference more for each descriptor. *)
Definition share (fds : list (option nat)) (fs : list file) : list file :=
  imap (fun f x => x <| f_ref ::= Z.add (refs_of fds f) |>) fs.

Section share.
Implicit Types (fds : list (option nat)) (fs : list file) (f : nat) (x : file).

Lemma share_lookup fds fs f : share fds fs !! f = (fun x => x <| f_ref ::= Z.add (refs_of fds f) |>) <$> fs !! f.
Proof. unfold share. by rewrite list_lookup_imap. Qed.

Lemma share_nil fs : share [] fs = fs.
Proof. apply list_eq. intros f. rewrite share_lookup. destruct (fs !! f) as [[]|]; done. Qed.

Lemma refs_of_snoc fds o f : refs_of (fds ++ [o]) f = refs_of fds f + (if decide (o = Some f) then 1 else 0).
Proof. unfold refs_of. rewrite filter_app, length_app, filter_cons. case_decide; cbn; lia. Qed.

Lemma share_none fds fs : share (fds ++ [None]) fs = share fds fs.
Proof. apply list_eq. intros f. rewrite !share_lookup, refs_of_snoc, decide_False by done. by rewrite Z.add_0_r. Qed.

Lemma share_some fds fs f x : share fds fs !! f = Some x ->
  share (fds ++ [Some f]) fs = <[f := x <| f_ref ::= Z.add 1 |>]> (share fds fs).
Proof.
  intros Hx. apply list_eq. intros g. destruct (decide (g = f)) as [->|Hne].
  - rewrite list_lookup_insert_eq by (by eapply lookup_lt_Some). rewrite share_lookup in *. destruct (fs !! f) as [y|]; [|done].
    injection Hx as <-. cbn. f_equal. rewrite refs_of_snoc, decide_True by done. destruct y. unfold upd; cbn. f_equal. lia.
  - rewrite list_lookup_insert_ne by done. rewrite !share_lookup, refs_of_snoc, decide_False by congruence. by rewrite Z.add_0_r.
Qed.
End share.

(** The entry of the child, from the parent's entry [p] and the fresh one [q]. *)
Definition child_of (c : nat) (p q : proc) : proc :=
  q <| p_sz := p_sz p |> <| p_parent := Some c |> <| p_tf := (p_tf p) <| tf_eax := 0 |> |> <| p_ofile := p_ofile p |>
    <| p_cwd := p_cwd p |> <| p_name ::= name_from (mem_at 0 (p_name p) (fun _ => 0)) 0 |> <| p_state := RUNNABLE |>.

(** The open files of [p] are in the table, with references. *)
Definition files_ok (k : kernel) (p : proc) : Prop :=
  alen (p_ofile p) = NOFILE /\ forall f, Some f ∈ p_ofile p -> exists x, k_file k !! f = Some x /\ 1 <= f_ref x.

Section tail.
Implicit Types (k : kernel) (p q : proc) (x : file).

Lemma f_at_ok k f x : aget (k_file k) f = Some x -> f_at f k = Ret x k.
Proof. intros H. unfold f_at. mstep. by apply rd_Some. Qed.

Lemma f_set_ok k f x g : aget (k_file k) f = Some x -> f_set f g k = Ret tt (k <| k_file ::= <[Z.to_nat f := g x]> |>).
Proof. intros H. unfold f_set. run f_at_ok; [|done]. mstep. run wr_Some; [done|by eapply aget_lt]. Qed.

Lemma filedup_ok k (f : nat) x :
  mach_ok (k_mach k) -> lock_free ftable_lock (k_mach k) -> k_file k !! f = Some x -> 1 <= f_ref x ->
  filedup (Z.of_nat f) k = Ret (Z.of_nat f) (kst (k <| k_file ::= <[f := x <| f_ref ::= Z.add 1 |>]> |>) (settle (k_mach k))).
Proof.
  intros Hm Hl Hx Hr. assert (Hx' : aget (k_file k) (Z.of_nat f) = Some x) by (by rewrite aget_nat). unfold filedup.
  run acquire_ok; [|done..]. run f_at_ok; [|done]. destruct (Z.ltb_spec (f_ref x) 1); [lia|]. run f_set_ok; [|done]. knorm. erewrite bind_Ret by (apply (release_acq _ _ (k_mach k)); mach). knorm. by rewrite Nat2Z.id.
Qed.

Lemma idup_ok k (d : nat) (x : inode) :
  mach_ok (k_mach k) -> lock_free icache_lock (k_mach k) -> k_inode k !! d = Some x ->
  idup (Z.of_nat d) k = Ret (Z.of_nat d) (kst (k <| k_inode ::= <[d := x <| i_ref ::= Z.add 1 |>]> |>) (settle (k_mach k))).
Proof.
  intros Hm Hl Hx. assert (Hx' : aget (k_inode k) (Z.of_nat d) = Some x) by (by rewrite aget_nat). unfold idup.
  run acquire_ok; [|done..]. run i_set_ok; [|done]. knorm. erewrite bind_Ret by (apply (release_acq _ _ (k_mach k)); mach). knorm. by rewrite Nat2Z.id.
Qed.
(** The descriptors of the child after [i] rounds. *)
Definition half (fds : list (option nat)) (i : nat) : list (option nat) := take i fds ++ replicate (Z.to_nat NOFILE - i) None.

Lemma half_step fds i o : length fds = Z.to_nat NOFILE -> fds !! i = Some o -> (i < Z.to_nat NOFILE)%nat -> <[i := o]> (half fds i) = half fds (S i).
Proof.
  intros Hl Ho Hi. unfold half. rewrite (take_S_r _ _ _ Ho), <- app_assoc. rewrite insert_app_r_alt by (rewrite length_take; lia).
  rewrite length_take, Hl. rewrite Nat.min_l, Nat.sub_diag by lia. f_equal. by replace (Z.to_nat NOFILE - i)%nat with (S (Z.to_nat NOFILE - S i)) by lia.
Qed.

Lemma half_id fds i o : length fds = Z.to_nat NOFILE -> fds !! i = Some o -> (i < Z.to_nat NOFILE)%nat -> half fds i !! i = Some None.
Proof.
  intros Hl Ho Hi. unfold half. rewrite lookup_app_r by (rewrite length_take; lia). rewrite length_take, lookup_replicate_2; [done|lia].
Qed.

Section files.
Context k (c np : Z) p q.
Context (Hm : mach_ok (k_mach k)) (Hset : settle (k_mach k) = k_mach k) (Hlk : lock_free ftable_lock (k_mach k)).
Context (Hc : aget (k_proc k) c = Some p) (Hnp : aget (k_proc k) np = Some q) (Hne : np <> c).
Context (Hf : files_ok k p) (Hq : p_ofile q = replicate (Z.to_nat NOFILE) None).

Definition after (i : Z) : kernel :=
  kst (k <| k_proc := <[Z.to_nat np := q <| p_ofile := half (p_ofile p) (Z.to_nat i) |>]> (k_proc k) |>
         <| k_file := share (take (Z.to_nat i) (p_ofile p)) (k_file k) |>) (k_mach k).

Lemma after_start : after 0 = k.
Proof.
  unfold after. replace (take (Z.to_nat 0) (p_ofile p)) with (@nil (option nat)) by done. rewrite share_nil. change (half (p_ofile p) (Z.to_nat 0)) with (replicate (Z.to_nat NOFILE - 0) (@None nat)). rewrite Nat.sub_0_r.
  rewrite <- Hq. replace (q <| p_ofile := p_ofile q |>) with q by (by destruct q). rewrite list_insert_id; [by destruct k|].
  unfold aget in Hnp. by destruct (0 <=? np).
Qed.

Lemma fork_files_ok : fork_files c np k = Ret tt (after NOFILE).
Proof.
  destruct Hf as [Hlen Hopen]. unfold alen in Hlen. assert (Hl : length (p_ofile p) = Z.to_nat NOFILE) by lia. pose proof (aget_lt _ _ _ Hnp) as Hb.
  unfold fork_files. edestruct (each_ind (fun i s => s = after i)) as (s & Hrun & ->); [symmetry; apply after_start| |exact Hrun].
  intros i s Hi ->. rewrite Z.add_0_l, Z2Nat.id in Hi by done. eexists. split; [|reflexivity].
  assert (Hpc : aget (k_proc (after i)) c = Some p) by (unfold after; ksimpl; by rewrite aget_insert_ne by lia). run p_at_ok; [|exact Hpc].
  destruct (aget_is_Some (p_ofile p) i) as [o Ho]; [unfold alen; lia|]. run rd_Some; [|exact Ho].
  assert (Ho' : p_ofile p !! Z.to_nat i = Some o) by (unfold aget in Ho; by destruct (0 <=? i)). pose proof (take_S_r _ _ _ Ho') as Htake.
  pose proof (half_step _ _ _ Hl Ho' ltac:(lia)) as Hhalf. unfold after. replace (Z.to_nat (i + 1)) with (S (Z.to_nat i)) by lia. rewrite Htake, <- Hhalf. destruct o as [f|].
  - destruct (Hopen f) as (x & Hx & Hr); [by eapply list_elem_of_lookup_2|]. pose proof (share_lookup (take (Z.to_nat i) (p_ofile p)) (k_file k) f) as Hsh. rewrite Hx in Hsh. cbn in Hsh.
    run filedup_ok; [|done|done|exact Hsh|unfold refs_of; rsimpl; lia]. ksimpl. knorm. unfold set_ofile. run p_at_ok; [|ksimpl; by apply aget_insert_eq].
    run wr_Some; [|rsimpl; unfold half, alen; rewrite length_app, length_take, length_replicate; lia]. rewrite (p_set_ok _ _ (q <| p_ofile := half (p_ofile p) (Z.to_nat i) |>)) by (ksimpl; by apply aget_insert_eq).
    knorm. rewrite insert_twice, Nat2Z.id, (share_some _ _ _ _ Hsh), Hset. f_equal.
  - rewrite share_none. rewrite (list_insert_id (half _ _)); [done|]. by eapply half_id; [..|lia].
Qed.
End files.

Lemma after_all k np p q : alen (p_ofile p) = NOFILE ->
  after k np p q NOFILE = kst (k <| k_proc := <[Z.to_nat np := q <| p_ofile := p_ofile p |>]> (k_proc k) |>
    <| k_file := share (p_ofile p) (k_file k) |>) (k_mach k).
Proof.
  intros H. unfold alen in H. unfold after, half. rewrite take_ge by lia. by rewrite Nat.sub_diag, app_nil_r.
Qed.

(** An update of the entry [np] of a table in which it was set before. *)
Ltac put := run p_put; [|ksimpl; by apply aget_put]; knorm; rewrite ?insert_twice.

Lemma fork_tail_ok k (c : nat) np p q d (x : inode) :
  mach_ok (k_mach k) -> settle (k_mach k) = k_mach k ->
  lock_free ftable_lock (k_mach k) -> lock_free icache_lock (k_mach k) -> lock_free ptable_lock (k_mach k) ->
  aget (k_proc k) (Z.of_nat c) = Some p -> aget (k_proc k) np = Some q -> np <> Z.of_nat c ->
  files_ok k p -> p_ofile q = replicate (Z.to_nat NOFILE) None -> p_cwd p = Some d -> k_inode k !! d = Some x ->
  fork_tail (Z.of_nat c) np k = Ret (p_pid q)
    (kst (k <| k_proc := <[Z.to_nat np := child_of c p q]> (k_proc k) |> <| k_inode ::= <[d := x <| i_ref ::= Z.add 1 |>]> |>
            <| k_file := share (p_ofile p) (k_file k) |>) (k_mach k)).
Proof.
  intros Hm Hset Hft Hic Hpt Hc Hnp Hne Hf Hq Hd Hx. pose proof (aget_lt _ _ _ Hnp) as Hb.
  assert (Hpc : forall r, aget (<[Z.to_nat np := r]> (k_proc k)) (Z.of_nat c) = Some p) by (intros r; by rewrite aget_insert_ne by lia).
  unfold fork_tail. run p_at_ok; [|done]. run p_put; [|done]. do 3 put. rewrite Nat2Z.id.
  erewrite bind_Ret by (eapply fork_files_ok; [exact Hm|exact Hset|exact Hft|apply Hpc|by apply aget_put|done|exact Hf|exact Hq]). rewrite after_all by apply Hf. knorm. rewrite insert_twice.
  run p_at_ok; [|apply Hpc]. rewrite Hd. cbn [deref_ip]. mstep. run idup_ok; [|done..]. ksimpl. knorm. put.
  run p_at_ok; [|apply Hpc]. put. run p_at_ok; [|by apply aget_put]. rewrite Hset. run acquire_ok; [|done..]. put.
  erewrite bind_Ret by (apply (release_acq _ _ (k_mach k)); mach). knorm. rewrite Hset, Nat2Z.id. unfold mret, M_ret. do 2 f_equal.
  unfold child_of. rewrite Hd. by destruct q.
Qed.
End tail.

(** ** The address spaces *)

Section spaces.
Implicit Types (k : kernel) (m : mem) (pgdir va sz : Z) (l : list Z).

(** A process sees the same after a change of free memory only. *)
Lemma user_view k pgdir l sz m va :
  vm_ready k pgdir l -> user_mem_ok k pgdir l sz -> (forall a, ~ in_pages l a -> m a = k_mem k a) -> 0 <= va < sz ->
  translate m pgdir va = translate (k_mem k) pgdir va /\ user_byte m pgdir va = user_byte (k_mem k) pgdir va.
Proof.
  intros Hr Hu Hm Hva. destruct (parent_entry k pgdir l sz Hr Hu m va Hm Hva) as (t & pte & Htr & Ht & _ & Hld & Hodd & Hpg & Hnl).
  assert (Htr' : translate m pgdir va = Some pte) by (unfold translate; by rewrite Ht, Hld, (proj2 (Z.eqb_neq _ 0))).
  unfold user_byte, frame. rewrite Htr', Htr. split; [done|]. cbn. f_equal. apply Hm.
  eapply page_outside; [done|exact Hpg|done|]. pose proof (Z.mod_pos_bound va PGSIZE ltac:(done)). lia.
Qed.

(** The address space of the parent after [allocproc]. *)
Lemma allocated_space k pgdir ks l sz k' :
  vm_ready k pgdir (ks :: l) -> user_mem_ok k pgdir (ks :: l) sz -> mach_ok (k_mach k) -> allocated k (ks :: l) k' -> free_pages k' l ->
  vm_ready k' pgdir l /\ user_mem_ok k' pgdir l sz /\ forall a, ~ in_pages [ks] a -> k_mem k' a = k_mem k a.
Proof.
  intros Hr Hu Hmc Hal Hfp. assert (Hfr : forall a, ~ (ks <= a < ks + PGSIZE) -> k_mem k' a = k_mem k a) by (intros a Ha; apply (al_frame _ _ _ Hal); by intros ? [= <-]).
  assert (He : k_end k' = k_end k) by (by rewrite (al_same _ _ _ Hal)).
  destruct (take_page k pgdir ks l (k_mem k') Hr Hfr (al_bytes _ _ _ Hal)) as (G & _ & _ & Htr). split_and!.
  - split; [|done|].
    + intros H. rewrite (al_same _ _ _ Hal) in H |- *. ksimpl. split; [by apply settle_ok|]. apply lock_free_settle. by apply (vr_kmem _ _ _ Hr).
    + rewrite He. apply (vr_pt _ _ _ (ex_ready _ _ _ _ _ G)).
  - intros va Hva. destruct (Hu va Hva) as (pte & Hp & Hpg & Hnl). exists pte. rewrite He. split_and!; [|done|set_solver].
    rewrite <- Hp. apply Htr.
  - intros a Ha. apply Hfr. intros H. apply Ha. exists ks. split; [by left|done].
Qed.
End spaces.

(** ** The call *)

(** Process [c], with entry [p] and name [nm], may fork: no lock that [fork] takes
    is held, its memory, files and directory [d] are in order, unused entries have
    no files, pids are fresh, and the free pages [ks :: l] are enough. *)
Record may_fork (k : kernel) (c : nat) (p : proc) (nm : list Z) (d : nat) (x : inode) (ks : Z) (l : list Z) : Prop := {
  mf_run : running k c p;
  mf_used : p_state p <> UNUSED;
  mf_table : pt_ready k;
  mf_ftable : lock_free ftable_lock (k_mach k);
  mf_icache : lock_free icache_lock (k_mach k);
  mf_vm : vm_ready k (p_pgdir p) (ks :: l);
  mf_bytes : mem_ok (k_mem k);
  mf_data : data_ok (k_data k);
  mf_user : user_mem_ok k (p_pgdir p) (ks :: l) (p_sz p);
  mf_size : 0 <= p_sz p <= KERNBASE;
  mf_enough : (65 + page_count (p_sz p) + table_count (p_sz p) <= length l)%nat;
  mf_nextpid : 0 <= k_nextpid k < 2 ^ 31 - 1;
  mf_pids : Forall (fun q => p_pid q < k_nextpid k) (k_proc k);
  mf_files : files_ok k p;
  mf_blank : forall q, q ∈ k_proc k -> p_state q = UNUSED -> p_ofile q = replicate (Z.to_nat NOFILE) None;
  mf_name : named (p_name p) nm;
  mf_cwd : p_cwd p = Some d;
  mf_dir : k_inode k !! d = Some x }.

(** The entry [q] of a child of [c] made by [fork] in the kernel [k]. *)
Record child_entry (k : kernel) (c : nat) (p : proc) (nm : list Z) (ks : Z) (q : proc) : Prop := {
  ce_state : p_state q = RUNNABLE;
  ce_pid : p_pid q = k_nextpid k;
  ce_parent : p_parent q = Some c;
  ce_size : p_sz q = p_sz p;
  ce_tf : p_tf q = (p_tf p) <| tf_eax := 0 |>;
  ce_context : p_context q = ctx0 <| x_eip := k_forkret k |>;
  ce_kstack : p_kstack q = ks;
  ce_ofile : p_ofile q = p_ofile p;
  ce_cwd : p_cwd q = p_cwd p;
  ce_name : named (p_name q) nm;
  ce_signals : p_pendingSignals q = replicate (Z.to_nat NSIG) 0;
  ce_container : p_container_id q = 0 }.

(** The memory of the child [q] of [p]: the parent's bytes and permissions, in pages
    of [ts]; the parent's own view is unchanged. *)
Definition child_memory (k : kernel) (p : proc) (ts : list Z) (k' : kernel) (q : proc) : Prop :=
  forall va, 0 <= va < p_sz p ->
    user_byte (k_mem k') (p_pgdir q) va = user_byte (k_mem k) (p_pgdir p) va /\
    flags (k_mem k') (p_pgdir q) va = flags (k_mem k) (p_pgdir p) va /\
    (exists y, frame (k_mem k') (p_pgdir q) va = Some y /\ y ∈ ts) /\
    user_byte (k_mem k') (p_pgdir p) va = user_byte (k_mem k) (p_pgdir p) va.

Section call.
Context (k : kernel) (c : nat) (p : proc) (nm : list Z) (d : nat) (x : inode) (ks : Z) (l : list Z) (i : Z).
Context (Hmf : may_fork k c p nm d x ks l) (Hfirst : first_unused (k_proc k) = Some i).

(** The start: the current process and a new entry. *)
Lemma fork_start :
  exists k1 q, aget (k_proc k) i = Some q /\ p_state q = UNUSED /\ i <> Z.of_nat c /\
    (forall q, q ∈ k_proc k -> p_pid q <> k_nextpid k) /\
    k_proc k1 = <[Z.to_nat i := embryo k q (k_nextpid k) ks]> (k_proc k) /\ free_pages k1 l /\
    allocated k (ks :: l) k1 /\
    fork k = (pg ← copyuvm (p_pgdir p) (p_sz p);
              p_set i (fun q => q <| p_pgdir := pg |>) ;;;
              if pg =? 0 then
                q ← p_at i;
                kfree (p_kstack q) ;;;
                p_set i (fun q => q <| p_kstack := 0 |>) ;;;
                p_set i (fun q => q <| p_state := UNUSED |>) ;;;
                mret (-1)
              else fork_tail (Z.of_nat c) i) k1.
Proof.
  destruct Hmf as [Hrun Hused Hpt _ _ Hvm _ _ _ _ _ Hnp Hpids _ _ _ _ _]. pose proof Hpt as [Hok Hlk Hlen].
  set (k0 := kst k (settle (k_mach k))).
  assert (Hkm : kmem_ready k0) by (intros H; split; [by apply settle_ok|apply lock_free_settle; by apply (vr_kmem _ _ _ Hvm)]).
  pose proof (allocproc_spec k0 (ks :: l)) as Hall. change (k_proc k0) with (k_proc k) in Hall. rewrite Hfirst in Hall.
  destruct Hall as (q & r & k1 & Hq & Hst & _ & Hcall & -> & Hps & Hfp & _ & Hfresh & Hal);
    [split; [by apply settle_ok|by apply lock_free_settle|done]|done|apply free_pages_kst, Hvm|done|done|].
  assert (Hne : i <> Z.of_nat c).
  { intros ->. rewrite (rn_proc _ _ _ Hrun) in Hq. by injection Hq as <-. }
  exists k1, q. split_and!; [done..| |].
  - destruct Hal as [H1 H2 H3 H4]. split; [|done..]. rewrite H1. unfold k0. knorm. by rewrite settle_settle.
  - unfold fork. run curproc_ok; [|exact Hrun]. run Hcall. run p_at_ok; [|].
    2: { rewrite Hps, aget_insert_ne by (pose proof (aget_lt _ _ _ Hq); lia). apply Hrun. }
    reflexivity.
Qed.

(** The fields that change, over both halves. *)
Lemma fork_fields (k1 k2 : kernel) mc mc' ps ps' f fs :
  k1 = kst (k <| k_mem := k_mem k1 |> <| k_freelist := k_freelist k1 |> <| k_proc := k_proc k1 |> <| k_nextpid := k_nextpid k1 |>) mc ->
  k2 = kst (k1 <| k_mem := k_mem k2 |> <| k_freelist := k_freelist k2 |>) (k_mach k2) -> mc' = mc ->
  let k' := kst (k2 <| k_proc := ps |> <| k_proc := ps' |> <| k_inode ::= f |> <| k_file := fs |>) mc' in
  k' = kst (k <| k_mem := k_mem k' |> <| k_freelist := k_freelist k' |> <| k_proc := k_proc k' |> <| k_nextpid := k_nextpid k' |>
              <| k_inode := k_inode k' |> <| k_file := k_file k' |>) mc.
Proof.
  generalize (k_mem k1), (k_freelist k1), (k_proc k1), (k_nextpid k1), (k_mem k2), (k_freelist k2), (k_mach k2).
  intros. subst k1 k2 mc'. by destruct k.
Qed.

(** The whole run, by its exact final state. *)
Lemma fork_run :
  exists k' q pg ts l', fork k = Ret (k_nextpid k) k' /\ aget (k_proc k) i = Some q /\ p_state q = UNUSED /\
    (forall q, q ∈ k_proc k -> p_pid q <> k_nextpid k) /\ l = ts ++ l' /\ vm_ready k' pg l' /\
    k_proc k' = <[Z.to_nat i := child_of c p ((embryo k q (k_nextpid k) ks) <| p_pgdir := pg |>)]> (k_proc k) /\
    k_file k' = share (p_ofile p) (k_file k) /\ k_inode k' = <[d := x <| i_ref ::= Z.add 1 |>]> (k_inode k) /\
    child_memory k p ts k' (proc0 <| p_pgdir := pg |>) /\ k_nextpid k' = k_nextpid k + 1 /\
    k' = kst (k <| k_mem := k_mem k' |> <| k_freelist := k_freelist k' |> <| k_proc := k_proc k' |> <| k_nextpid := k_nextpid k' |>
                <| k_inode := k_inode k' |> <| k_file := k_file k' |>) (settle (k_mach k)).
Proof.
  destruct fork_start as (k1 & q & Hq & Hst & Hne & Hfresh & Hps & Hfp & Hal & Hfork).
  destruct Hmf as [Hrun Hused [Hok Hlk Hlen] Hft Hic Hvm Hb Hdata Hu Hsz Hl Hnp Hpids Hfiles Hblank Hname Hcwd Hdir].
  destruct (allocated_space _ _ _ _ _ _ Hvm Hu Hok Hal Hfp) as (Hvm1 & Hu1 & Hm1). pose proof (aget_lt _ _ _ Hq) as Hlt.
  pose proof (al_same _ _ _ Hal) as Hs1. assert (Hmc1 : k_mach k1 = settle (k_mach k)) by (by rewrite Hs1).
  destruct (copyuvm_copies k1 (p_pgdir p) l (p_sz p)) as (k2 & pg & ts & l' & Hcopy & Hl' & Hvm2 & Hview & _ & _ & Hm2 & Hs2 & Hmc2);
    [done|by apply (al_bytes _ _ _ Hal)|by rewrite Hs1|done..|].
  rewrite Hmc1, settle_settle in Hmc2 by done. specialize (Hmc2 eq_refl).
  assert (Hpg : pg <> 0) by (destruct (pt_dir _ _ _ _ (vr_pt _ _ _ Hvm2)) as (_ & _ & _ & ?); lia).
  assert (Hp2 : k_proc k2 = k_proc k1) by (by rewrite Hs2). set (e := embryo k q (k_nextpid k) ks) in *.
  set (k3 := k2 <| k_proc := <[Z.to_nat i := e <| p_pgdir := pg |>]> (k_proc k) |>).
  assert (Hf3 : k_file k3 = k_file k /\ k_inode k3 = k_inode k /\ k_mach k3 = settle (k_mach k)).
  { unfold k3. ksimpl. rewrite Hmc2. split_and!; [rewrite Hs2, Hs1..|]; done. }
  destruct Hf3 as (Hf3 & Hi3 & Hmc3).
  assert (Htail : fork_tail (Z.of_nat c) i k3 = Ret (p_pid (e <| p_pgdir := pg |>)) (kst (k3 <| k_proc := <[Z.to_nat i := child_of c p (e <| p_pgdir := pg |>)]> (k_proc k3) |>
    <| k_inode ::= <[d := x <| i_ref ::= Z.add 1 |>]> |> <| k_file := share (p_ofile p) (k_file k3) |>) (k_mach k3))).
  { apply (fork_tail_ok k3 c i p (e <| p_pgdir := pg |>) d x); rewrite ?Hmc3, ?Hi3;
      [by apply settle_ok|by apply settle_settle|by apply lock_free_settle..| | |exact Hne| | |exact Hcwd|exact Hdir].
    - unfold k3. ksimpl. rewrite aget_insert_ne by lia. apply Hrun.
    - unfold k3. ksimpl. by apply aget_put.
    - destruct Hfiles as [H1 H2]. split; [done|]. by rewrite Hf3.
    - apply (Hblank q); [|done]. unfold aget in Hq. destruct (0 <=? i); [|done]. by eapply list_elem_of_lookup_2. }
  set (k' := kst _ (k_mach k3)) in Htail. exists k', q, pg, ts, l'.
  assert (Hag : forall a, ~ in_pages (ks :: l) a -> k_mem k' a = k_mem k a).
  { intros a Ha. change (k_mem k') with (k_mem k2). rewrite Hm2, Hm1; [done|..]; intros (y & Hy & H); apply Ha; exists y; set_solver. }
  assert (Hfk : fork k = Ret (k_nextpid k) k').
  { rewrite Hfork. run Hcopy. run p_put; [|by rewrite Hp2, Hps; apply aget_put]. rewrite Hp2, Hps, insert_twice, (proj2 (Z.eqb_neq pg 0)) by done. exact Htail. }
  split; [exact Hfk|]. split; [exact Hq|]. split; [exact Hst|]. split; [exact Hfresh|]. split; [exact Hl'|]. split; [|split; [|split; [|split; [|split; [|split]]]]].
  - destruct Hvm2 as [V1 V2 V3]. split; [exact V1|by destruct V2|exact V3].
  - exact (insert_twice _ _ _ _).
  - change (k_file k') with (share (p_ofile p) (k_file k3)). by rewrite Hf3.
  - change (k_inode k') with (<[d := x <| i_ref ::= Z.add 1 |>]> (k_inode k3)). by rewrite Hi3.
  - intros va Hva. destruct (Hview va Hva) as (V1 & V2 & V3). change (k_mem k') with (k_mem k2). rsimpl.
    destruct (user_view _ _ _ _ (k_mem k1) va Hvm Hu) as [T1 B1]; [|done|]; [intros a Ha; apply Hm1; intros (y & Hy & H); apply Ha; exists y; set_solver|].
    destruct (user_view _ _ _ _ _ va Hvm Hu Hag Hva) as [T2 B2]. split_and!; [by rewrite V1|by rewrite V2; unfold flags; rewrite T1|done|done].
  - change (k_nextpid k') with (k_nextpid k2). rewrite Hs2. apply (al_pid _ _ _ Hal).
  - exact (fork_fields k1 k2 _ (k_mach k3) _ _ _ _ Hs1 Hs2 Hmc3).
Qed.
End call.

(** Without an unused entry. *)
Lemma fork_full k c p nm d x ks l :
  may_fork k c p nm d x ks l -> first_unused (k_proc k) = None -> fork k = Ret (-1) (kst k (settle (k_mach k))).
Proof.
  intros [Hrun _ [Hok Hlk Hlen] _ _ Hvm _ _ _ _ _ Hnp Hpids _ _ _ _ _] Hfirst. unfold fork. run curproc_ok; [|exact Hrun].
  set (k0 := kst k (settle (k_mach k))). pose proof (allocproc_spec k0 (ks :: l)) as Hall. change (k_proc k0) with (k_proc k) in Hall. rewrite Hfirst in Hall.
  destruct Hall as [Hcall _].
  - split; [by apply settle_ok|by apply lock_free_settle|done].
  - intros H. split; [by apply settle_ok|apply lock_free_settle; by apply (vr_kmem _ _ _ Hvm)].
  - apply free_pages_kst, Hvm.
  - done.
  - done.
  - run Hcall. unfold k0. ksimpl. rewrite settle_settle by done. by knorm.
Qed.

(** C5. [fork] makes a copy of the calling process.  Let the caller's memory,
    files and directory be in order, the locks be free and enough pages be free.
    With an unused entry [fork] returns a pid that no process had, and fills that
    entry and no other: the child is runnable, has the caller as its parent, its
    size, its name, its open files, its directory and its trap frame but for the
    0 that [fork] returns in the child, and no container.  At every address below
    its size the child sees the byte and the permissions the caller sees, in pages
    that were free, and the caller sees what it saw.  The count of an open file
    goes up by the number of descriptors it is open on, that of the directory by
    one.  Nothing else of the kernel changes.  Without an unused entry [fork]
    returns -1 and changes nothing. *)
Theorem fork_copies (k : kernel) (c : nat) (p : proc) (nm : list Z) (d : nat) (x : inode) (ks : Z) (l : list Z) :
  may_fork k c p nm d x ks l ->
  match first_unused (k_proc k) with
  | None => fork k = Ret (-1) (kst k (settle (k_mach k)))
  | Some i =>
      exists k' q ts l', fork k = Ret (k_nextpid k) k' /\ (forall r, r ∈ k_proc k -> p_pid r <> k_nextpid k) /\
        p_state <$> aget (k_proc k) i = Some UNUSED /\ k_proc k' = <[Z.to_nat i := q]> (k_proc k) /\ child_entry k c p nm ks q /\
        l = ts ++ l' /\ vm_ready k' (p_pgdir q) l' /\ child_memory k p ts k' q /\
        k_file k' = share (p_ofile p) (k_file k) /\ k_inode k' = <[d := x <| i_ref ::= Z.add 1 |>]> (k_inode k) /\
        k_nextpid k' = k_nextpid k + 1 /\
        k' = kst (k <| k_mem := k_mem k' |> <| k_freelist := k_freelist k' |> <| k_proc := k_proc k' |> <| k_nextpid := k_nextpid k' |>
                    <| k_inode := k_inode k' |> <| k_file := k_file k' |>) (settle (k_mach k))
  end.
Proof.
  intros Hmf. destruct (first_unused (k_proc k)) as [i|] eqn:Hfirst; [|by eapply fork_full].
  destruct (fork_run k c p nm d x ks l i Hmf Hfirst) as (k' & q & pg & ts & l' & H1 & H2 & H3 & H4 & H5 & H6 & H7 & H8 & H9 & H10 & H11 & H12).
  exists k', (child_of c p ((embryo k q (k_nextpid k) ks) <| p_pgdir := pg |>)), ts, l'. rewrite H2.
  split; [exact H1|]. split; [exact H4|]. split; [cbn; by rewrite H3|]. split; [exact H7|].
  split; [|exact (conj H5 (conj H6 (conj H10 (conj H8 (conj H9 (conj H11 H12))))))].
  split; lazymatch goal with |- named _ _ => idtac | _ => reflexivity end. exact (name_from_named _ _ _ (mf_name _ _ _ _ _ _ _ _ Hmf)).
Qed.
