(* ===== verification/ForkExamples.v ===== *)
(** * A shell that forks

    A kernel with one process of one page and seventy free pages, at which the
    theorems on address spaces are applied, and the same with the shell around
    that page, at which [fork_copies] is. *)

From S2P Require Import Prelude State Spinlock CString Kalloc Console Vm Kvm Uvm Message Container Proc Syscall.
From S2P Require Import Sleeplock Bio Log Fs Names Pipe File Sysfile Exec Fork ForkSpec.
Open Scope Z_scope.

Definition dir1 : Z := 0x80400000.
Definition table1 : Z := 0x80401000.
Definition page1 : Z := 0x80402000.
Definition free1 : list Z := page_run 0x80403000 70.

(** The links of the free pages. *)
Definition links (a : Z) : Z :=
  if within 0x80403000 (70 * PGSIZE) a && (a mod PGSIZE <? 4) then
    let p := PGROUNDDOWN a in
    wbyte (if p + PGSIZE <? 0x80403000 + 70 * PGSIZE then p + PGSIZE else 0) (a mod PGSIZE)
  else 0.
Definition mem1 : mem := mem_at page1 (bytes "hi") (store32 (store32 links dir1 (V2P table1 + 7)) table1 (V2P page1 + 7)).
Definition kernel1 : kernel := (kernel0 dir1) <| k_mem := mem1 |> <| k_freelist := 0x80403000 |>.

Fixpoint chainb (m : mem) (p : Z) (l : list Z) : bool :=
  match l with [] => p =? 0 | x :: l' => (p =? x) && chainb m (load32 m x) l' end.
Lemma chainb_chain m l : forall p, chainb m p l = true -> chain m p l.
Proof. induction l as [|x l IH]; intros p; cbn; [by intros ?%Z.eqb_eq|]. intros [H1%Z.eqb_eq H2]%andb_true_iff. auto. Qed.

Lemma free1_ok : free_pages kernel1 free1.
Proof.
  split; [apply chainb_chain; vm_compute; reflexivity| |].
  - rewrite Forall_forall. intros x (j & Hj & ->)%page_run_elem. change (k_end kernel1) with 0x80400000. unfold page_ok, V2P, u32, KERNBASE, PHYSTOP, PGSIZE. change (2 ^ 32) with 4294967296. split_and!; dlia.
  - apply (bool_decide_unpack _). vm_compute. exact I.
Qed.

Lemma forall_range (P : Z -> Prop) `{forall d, Decision (P d)} n : forallb (fun d => bool_decide (P d)) (seqZ 0 n) = true -> forall d, 0 <= d < n -> P d.
Proof. intros Hb d Hd. rewrite forallb_forall in Hb. apply (bool_decide_unpack _). rewrite (Hb d); [exact I|]. apply list_elem_of_In, elem_of_seqZ. lia. Qed.

Lemma dir1_tables d : 0 <= d < 1024 -> pgtab mem1 dir1 d = if decide (d = 0) then Some table1 else None.
Proof. revert d. eapply (forall_range (fun d => pgtab mem1 dir1 d = if decide (d = 0) then Some table1 else None)). vm_compute. reflexivity. Qed.

Lemma kernel1_ready : vm_ready kernel1 dir1 free1.
Proof.
  assert (Hfree : forall x, x < 0x80403000 -> x ∉ free1) by (intros x Hx (j & Hj & ->)%page_run_elem; unfold PGSIZE in Hx; lia).
  split; [by intros H|apply free1_ok|]. change (k_end kernel1) with 0x80400000. change (k_mem kernel1) with mem1. split.
  - done.
  - by split_and!.
  - by apply Hfree.
  - intros d t Hd. rewrite dir1_tables by done. case_decide; [|done]. intros [= <-]. split; [by split_and!|]. split; [done|by apply Hfree].
  - intros d d' t Hd Hd'. rewrite !dir1_tables by done. by repeat case_decide; subst.
Qed.

Lemma links_byte a : 0 <= links a < 256.
Proof. unfold links. case_match; [apply byte_range|lia]. Qed.
Lemma kernel1_bytes : mem_ok (k_mem kernel1).
Proof. apply mem_at_ok; [by repeat constructor|]. apply store32_ok, store32_ok. intros a. apply links_byte. Qed.

Lemma kernel1_user : user_mem_ok kernel1 dir1 free1 4096.
Proof.
  intros va Hva. exists 0x402007. rewrite translate_page by lia. replace (va / PGSIZE * PGSIZE) with 0 by (unfold PGSIZE; dlia).
  split; [vm_compute; reflexivity|]. split; [by split_and!|]. intros (j & Hj & E)%page_run_elem. change (P2V (PTE_ADDR 0x402007)) with 0x80402000 in E. unfold PGSIZE in E. lia.
Qed.

(** The child reads "hi". *)
Lemma copyuvm_copies_witness :
  exists k' d, copyuvm dir1 4096 kernel1 = Ret d k' /\ user_byte (k_mem k') d 0 = Some 104 /\ user_byte (k_mem k') d 1 = Some 105 /\ translate (k_mem k') d 4096 = None.
Proof.
  destruct (copyuvm_copies kernel1 dir1 free1 4096 kernel1_ready kernel1_bytes) as (k' & d & ts & l' & Hrun & _ & _ & Hb & _ & Ht & _).
  - by split.
  - exact kernel1_user.
  - done.
  - apply Nat.leb_le. vm_compute. reflexivity.
  - exists k', d. split; [exact Hrun|]. split; [|split].
    + destruct (Hb 0) as [-> _]; [lia|]. vm_compute. reflexivity.
    + destruct (Hb 1) as [-> _]; [lia|]. vm_compute. reflexivity.
    + rewrite Ht; [vm_compute; reflexivity|]. by split.
Defined.

(** Two more pages. *)
Lemma allocuvm_grows_witness :
  exists k', allocuvm dir1 4096 10000 kernel1 = Ret 10000 k' /\ user_byte (k_mem k') dir1 9999 = Some 0 /\ user_byte (k_mem k') dir1 1 = Some 105.
Proof.
  destruct (allocuvm_grows kernel1 dir1 free1 4096 10000 kernel1_ready) as (k' & ts & l' & Hrun & _ & _ & Hb & _ & Ht & Hold & _).
  - lia.
  - done.
  - change (PGROUNDUP 4096) with 4096. change (Z.of_nat (page_count 10000) * PGSIZE) with 12288. intros va Hva. rewrite translate_page by lia.
    assert (va / PGSIZE * PGSIZE = 4096 \/ va / PGSIZE * PGSIZE = 8192) as [-> | ->] by (unfold PGSIZE; dlia); vm_compute; reflexivity.
  - apply Nat.leb_le. vm_compute. reflexivity.
  - exists k'. split; [exact Hrun|]. change (PGROUNDUP 4096) with 4096 in *. split; [apply Hb; lia|]. rewrite (Hold 1 page1); [vm_compute; reflexivity|lia|vm_compute; reflexivity|].
    split; [by split_and!|done| |].
    + intros d t Hd. change (k_mem kernel1) with mem1. rewrite dir1_tables by done. case_decide; [|done]. by intros [= <-].
    + intros (j & Hj & E)%page_run_elem. change page1 with 0x80402000 in E. unfold PGSIZE in E. lia.
Defined.

Definition mach2 : mach :=
  mkmach 0 false 1 [mkcpu 0 0 false (Some 0%nat)]
    (<[ptable_lock := mklock "ptable" false None]>
      (<[ftable_lock := mklock "ftable" false None]> {[icache_lock := mklock "icache" false None]})).

(** The process "sh", with the file 5 open on two descriptors. *)
Definition shell2 : proc :=
  proc0 <| p_state := RUNNING |> <| p_pid := 1 |> <| p_pgdir := dir1 |> <| p_sz := 4096 |>
    <| p_ofile := Some 5%nat :: Some 5%nat :: replicate (Z.to_nat NOFILE - 2) None |> <| p_cwd := Some 0%nat |>
    <| p_name := bytes "sh" ++ replicate 14 0 |>.

Definition file2 : file := file0 <| f_type := FD_INODE |> <| f_ref := 2 |> <| f_ip := Some 0%nat |>.
Definition kernel2 : kernel :=
  kernel1 <| k_mach := mach2 |> <| k_proc := shell2 :: replicate 63 proc0 |> <| k_nextpid := 2 |>
    <| k_inode := replicate 50 inode0 |> <| k_file := <[5%nat := file2]> (replicate 100 file0) |>.

Definition ks2 : Z := 0x80403000.
Definition free2 : list Z := page_run 0x80404000 69.
Lemma free1_cons : free1 = ks2 :: free2.
Proof. reflexivity. Qed.

Lemma mach2_ok : mach_ok mach2.
Proof. exists 0, (mkcpu 0 0 false (Some 0%nat)). by split_and!. Qed.

Lemma kernel2_may_fork : may_fork kernel2 0 shell2 (bytes "sh") 0 inode0 ks2 free2.
Proof.
  pose proof kernel1_ready as [_ [H1 H2 H3] Hpt]. rewrite free1_cons in *. split.
  - split; [exact mach2_ok|reflexivity|reflexivity].
  - discriminate.
  - split; [exact mach2_ok|by exists "ptable"%string|reflexivity].
  - by exists "ftable"%string.
  - by exists "icache"%string.
  - split; [intros H; by destruct H|by split|exact Hpt].
  - exact kernel1_bytes.
  - by split.
  - pose proof kernel1_user as Hu. rewrite free1_cons in Hu. exact Hu.
  - by split.
  - apply Nat.leb_le. vm_compute. reflexivity.
  - by split.
  - change (k_proc kernel2) with (shell2 :: replicate 63 proc0). constructor; [reflexivity|]. by apply Forall_replicate.
  - split; [vm_compute; reflexivity|]. change (p_ofile shell2) with (Some 5%nat :: Some 5%nat :: replicate (Z.to_nat NOFILE - 2) None).
    intros f. rewrite !elem_of_cons. intros [[= ->]|[[= ->]|[H _]%elem_of_replicate]]; [..|done]; (exists file2; by split).
  - change (k_proc kernel2) with (shell2 :: replicate 63 proc0). intros q. rewrite elem_of_cons. intros [->|[-> _]%elem_of_replicate]; [discriminate|done].
  - split; [by repeat constructor|]. split; [cbn; lia|]. by exists (replicate 13 0).
  - reflexivity.
  - reflexivity.
Qed.

(** The child reads "hi", and file 5 is now open on four descriptors. *)
Lemma fork_copies_witness :
  exists k' q, fork kernel2 = Ret 2 k' /\ aget (k_proc k') 1 = Some q /\ p_state q = RUNNABLE /\ p_parent q = Some 0%nat /\
    user_byte (k_mem k') (p_pgdir q) 0 = Some 104 /\ user_byte (k_mem k') (p_pgdir q) 1 = Some 105 /\
    f_ref <$> k_file k' !! 5%nat = Some 4.
Proof.
  pose proof (fork_copies kernel2 0 shell2 (bytes "sh") 0 inode0 ks2 free2 kernel2_may_fork) as H.
  replace (first_unused (k_proc kernel2)) with (Some 1) in H by (vm_compute; reflexivity).
  destruct H as (k' & q & ts & l' & Hrun & _ & _ & Hp & [Hst _ Hpar _ _ _ _ _ _ _ _ _] & _ & _ & Hm & Hf & _).
  exists k', q. split; [exact Hrun|]. split; [rewrite Hp; reflexivity|]. split; [exact Hst|]. split; [exact Hpar|].
  destruct (Hm 0) as (-> & _); [split; [lia|reflexivity]|]. destruct (Hm 1) as (-> & _); [split; [lia|reflexivity]|].
  split; [vm_compute; reflexivity|]. split; [vm_compute; reflexivity|]. rewrite Hf. vm_compute. reflexivity.
Defined.
