(* ===== verification/Ide.v ===== *)
(** * The IDE driver ([ide.c])

    Requests wait on a queue threaded through the buffers; the first is the one
    the disk is working on.  The interrupt handler finishes it, wakes its
    process and starts the next. *)

From S2P Require Import Prelude State Spinlock CString Kalloc Console Vm Message Container Proc Syscall.
From S2P Require Import Sleeplock Bio Log.
Open Scope Z_scope.

Definition IDE_BSY : Z := 0x80.
Definition IDE_DRDY : Z := 0x40.
Definition IDE_DF : Z := 0x20.
Definition IDE_ERR : Z := 0x01.
Definition IDE_CMD_READ : Z := 0x20.
Definition IDE_CMD_WRITE : Z := 0x30.

Definition ide_lock : lockid := ("ide", 0).
(** The address of a buffer as a wait channel. *)
Definition buf_chan (b : Z) : chan := CObj "buf" b.

Section ide.
Context {fuel : Fuel} {ports : Ports}.

Fixpoint idewait_loop (n : nat) : K Z :=
  match n with
  | O => fun _ => Diverge
  | S n' =>
      r ← inb 0x1f7;
      if negb (Z.land r (Z.lor IDE_BSY IDE_DRDY) =? IDE_DRDY) then idewait_loop n' else mret r
  end.
Definition idewait (checkerr : bool) : K Z :=
  r ← idewait_loop wakeups;
  mret (if checkerr && negb (Z.land r (Z.lor IDE_DF IDE_ERR) =? 0) then -1 else 0).

(** Routing the interrupt, in the I/O APIC, is left out. *)
Definition ideinit : K unit :=
  initlock ide_lock "ide" ;;;
  idewait false ;;;
  outb 0x1f6 (Z.lor 0xe0 (Z.shiftl 1 4)) ;;;
  for_ 1000 0 (fun _ =>
    r ← inb 0x1f7;
    if negb (r =? 0) then modify (fun k => k <| k_havedisk1 := 1 |>) ;;; mret (Some tt) else mret None) ;;;
  outb 0x1f6 (Z.lor 0xe0 (Z.shiftl 0 4)).

Fixpoint outsl (port : Z) (ws : list Z) : K unit :=
  match ws with [] => mret tt | w :: ws' => outb port w ;;; outsl port ws' end.
Fixpoint insl (n : nat) (port : Z) : K (list Z) :=
  match n with O => mret [] | S n' => w ← ind port; ws ← insl n' port; mret (le_bytes 4 w ++ ws) end.

(** The words of a block. *)
Fixpoint words32 (n : nat) (d : list Z) : list Z :=
  match n with O => [] | S n' => of_le (take 4 d) :: words32 n' (drop 4 d) end.

(** A block is one sector. *)
Definition idestart (b : option Z) : K unit :=
  match b with
  | None => panic "idestart"
  | Some b =>
      x ← buf_at b;
      if FSSIZE <=? b_blockno x then panic "incorrect blockno"
      else
        let sector := b_blockno x in
        idewait false ;;;
        outb 0x3f6 0 ;;;
        outb 0x1f2 1 ;;;
        outb 0x1f3 (Z.land sector 0xff) ;;;
        outb 0x1f4 (Z.land (Z.shiftr sector 8) 0xff) ;;;
        outb 0x1f5 (Z.land (Z.shiftr sector 16) 0xff) ;;;
        outb 0x1f6 (Z.lor (Z.lor 0xe0 (Z.shiftl (Z.land (b_dev x) 1) 4)) (Z.land (Z.shiftr sector 24) 0x0f)) ;;;
        if negb (Z.land (b_flags x) B_DIRTY =? 0) then
          outb 0x1f7 IDE_CMD_WRITE ;;;
          outsl 0x1f0 (words32 (Z.to_nat (BSIZE / 4)) (b_data x))
        else outb 0x1f7 IDE_CMD_READ
  end.

Definition ideintr : K unit :=
  acquire ide_lock ;;;
  q ← gets k_idequeue;
  match q with
  | None => release ide_lock
  | Some b =>
      x ← buf_at b;
      modify (fun k => k <| k_idequeue := b_qnext x |>) ;;;
      when (Z.land (b_flags x) B_DIRTY =? 0)
        (r ← idewait true;
         when (0 <=? r)
           (d ← insl (Z.to_nat (BSIZE / 4)) 0x1f0;
            buf_set b (fun x => x <| b_data := d |>))) ;;;
      buf_set b (fun x => x <| b_flags ::= fun f => Z.lor f B_VALID |>) ;;;
      buf_set b (fun x => x <| b_flags ::= fun f => Z.land f (Z.lnot B_DIRTY) |>) ;;;
      wakeup (buf_chan b) ;;;
      q ← gets k_idequeue;
      when (match q with Some _ => true | None => false end) (idestart q) ;;;
      release ide_lock
  end.

(** The last buffer on the queue from [b] on. *)
Fixpoint queue_end (n : nat) (b : Z) : K Z :=
  match n with
  | O => fun _ => Diverge
  | S n' =>
      x ← buf_at b;
      match b_qnext x with Some c => queue_end n' c | None => mret b end
  end.

Fixpoint wait_done (f : nat) (b : Z) : K unit :=
  match f with
  | O => fun _ => Diverge
  | S f' =>
      x ← buf_at b;
      if negb (Z.land (b_flags x) (Z.lor B_VALID B_DIRTY) =? B_VALID) then
        sleep (buf_chan b) (Some ide_lock) ;;; wait_done f' b
      else mret tt
  end.

(** Every queued buffer is one of the cache. *)
Definition ide_rw (b : Z) : K unit :=
  h ← holdingsleep (buf_lock b);
  if negb h then panic "iderw: buf not locked"
  else
    x ← buf_at b;
    if Z.land (b_flags x) (Z.lor B_VALID B_DIRTY) =? B_VALID then panic "iderw: nothing to do"
    else
      have ← gets k_havedisk1;
      if negb (b_dev x =? 0) && (have =? 0) then panic "iderw: ide disk 1 not present"
      else
        acquire ide_lock ;;;
        buf_set b (fun x => x <| b_qnext := None |>) ;;;
        q ← gets k_idequeue;
        match q with
        | None => modify (fun k => k <| k_idequeue := Some b |>)
        | Some h => l ← queue_end (Z.to_nat NBUF) h; buf_set l (fun x => x <| b_qnext := Some b |>)
        end ;;;
        q ← gets k_idequeue;
        when (bool_decide (q = Some b)) (idestart (Some b)) ;;;
        wait_done wakeups b ;;;
        release ide_lock.

#[export] Instance ide : BlockDev := ide_rw.
End ide.
