(* ===== verification/Trap.v ===== *)
(** * Traps and the system call table ([trap.c], [syscall.c])

    The handlers come together: the table of system calls, and the trap handler
    that dispatches system calls, interrupts and faults. *)

From S2P Require Import Prelude State Spinlock CString Kalloc Console Vm Message Container Proc Syscall Sysproc.
From S2P Require Import Sleeplock Bio Log Fs Names Pipe File Sysfile Open Input Exec Fork.
Open Scope Z_scope.

Definition T_SYSCALL : Z := 64.
Definition T_IRQ0 : Z := 32.
Definition IRQ_TIMER : Z := 0.
Definition IRQ_KBD : Z := 1.
Definition IRQ_IDE : Z := 14.
Definition IRQ_SPURIOUS : Z := 31.
Definition DPL_USER : Z := 3.

Section trap.
Context {fuel : Fuel} {disk : BlockDev} {ports : Ports}.

(** [junk] is what a handler without a result leaves in the register. *)
Definition syscalls (junk : Z) (num : Z) : option (K Z) :=
  let void (m : K unit) : K Z := m ;;; mret junk in
  nth (Z.to_nat num)
    [None; Some sys_fork; Some sys_exit; Some sys_wait; Some sys_pipe; Some sys_read; Some sys_kill;
     Some sys_exec; Some sys_fstat; Some sys_chdir; Some sys_dup; Some sys_getpid; Some sys_sbrk;
     Some sys_sleep; Some sys_uptime; Some sys_open; Some sys_write; Some sys_mknod; Some sys_unlink;
     Some sys_link; Some sys_mkdir; Some sys_close; Some (void sys_toggle); Some sys_add; Some sys_ps;
     Some sys_send; Some sys_recv; Some (void sys_print_count); Some sys_send_multi; Some sys_signal;
     Some sys_sigraise; Some sys_halt; Some sys_recv_multi; Some sys_change_state;
     Some sys_create_container; Some sys_destroy_container; Some sys_join_container;
     Some sys_leave_container; Some sys_scheduler_log_on; Some sys_scheduler_log_off;
     Some sys_container_malloc; Some sys_memory_log_on; Some sys_memory_log_off;
     Some sys_get_file_container_id; Some sys_get_container_id] None.

(** The gates that [tvinit] fills in first are in Tables.v. *)
Definition tvinit : K unit := initlock tickslock "time".

(** [myproc()->killed], false without a process. *)
Definition cur_killed : K bool :=
  c ← myproc;
  match c with
  | None => mret false
  | Some i => p ← p_at (Z.of_nat i); mret (negb (p_killed p =? 0))
  end.

Definition killed_user (tf : trapframe) : K unit :=
  kl ← cur_killed;
  when (kl && (Z.land (tf_cs tf) 3 =? DPL_USER)) exit.

(** An interrupt or fault other than a system call; [ideintr], [uartintr] and
    [cr2] belong to the devices, and acknowledging is left out. *)
Definition trap_other (ideintr uartintr : K unit) (cr2 : Z) (tf : trapframe) : K unit :=
  let no := tf_trapno tf in
  (if no =? T_IRQ0 + IRQ_TIMER then
     c ← cpuid;
     when (c =? 0)
       (acquire tickslock ;;;
        modify (fun k => k <| k_ticks ::= fun t => u32 (t + 1) |>) ;;;
        wakeup ticks_chan ;;;
        release tickslock)
   else if no =? T_IRQ0 + IRQ_IDE then ideintr
   else if no =? T_IRQ0 + IRQ_IDE + 1 then mret tt
   else if no =? T_IRQ0 + IRQ_KBD then kbdintr
   else if no =? T_IRQ0 + IRQ_COM1 then uartintr
   else if (no =? T_IRQ0 + 7) || (no =? T_IRQ0 + IRQ_SPURIOUS) then
     c ← cpuid;
     cprintf (bytes "cpu%d: spurious interrupt at %x:%x" ++ [10]) [AInt c; AInt (tf_cs tf); AInt (tf_eip tf)]
   else
     c ← myproc;
     if bool_decide (c = None) || (Z.land (tf_cs tf) 3 =? 0) then
       n ← cpuid;
       cprintf (bytes "unexpected trap %d from cpu %d eip %x (cr2=0x%x)" ++ [10])
         [AInt no; AInt n; AInt (tf_eip tf); AInt cr2] ;;;
       panic "trap"
     else
       p ← me;
       n ← cpuid;
       cprintf (bytes "pid %d %s: trap %d err %d on cpu %d eip 0x%x addr 0x%x--kill proc" ++ [10])
         [AInt (p_pid p); AStr (Some (cname (p_name p))); AInt no; AInt (tf_err tf); AInt n;
          AInt (tf_eip tf); AInt cr2] ;;;
       i ← curproc;
       p_set i (fun p => p <| p_killed := 1 |>)) ;;;
  killed_user tf ;;;
  c ← myproc;
  run ← match c with
        | None => mret false
        | Some i => p ← p_at (Z.of_nat i); mret (bool_decide (p_state p = RUNNING))
        end;
  when (run && (no =? T_IRQ0 + IRQ_TIMER)) yield ;;;
  killed_user tf.

Definition trap (junk : Z) (ideintr uartintr : K unit) (cr2 : Z) (tf : trapframe) : K unit :=
  if tf_trapno tf =? T_SYSCALL then
    p ← me;
    when (negb (p_killed p =? 0)) exit ;;;
    i ← curproc;
    p_set i (fun p => p <| p_tf := tf |>) ;;;
    syscall (syscalls junk) ;;;
    p ← me;
    when (negb (p_killed p =? 0)) exit
  else trap_other ideintr uartintr cr2 tf.
End trap.
