(* ===== verification/Tables.v ===== *)
(** * Descriptor tables ([mmu.h], [seginit] and [switchuvm] of [vm.c], [tvinit] and [idtinit] of [trap.c])

    The structures through which the kernel tells the processor about segments,
    the stack to use on a trap, and the handlers: their bit fields as the
    compiler lays them out, the functions that fill them in, and how the
    processor reads them.  [protection_tables]: what the processor reads is what
    the code means. *)

From S2P Require Import Prelude State Spinlock CString Kalloc Console Vm Message Container Proc Syscall.
From S2P Require Import Sleeplock Bio Log Fs Names Pipe File Sysfile Exec Fork Trap.
Open Scope Z_scope.

Definition SEG_KCODE : Z := 1.
Definition SEG_KDATA : Z := 2.
Definition SEG_UCODE : Z := 3.
Definition SEG_UDATA : Z := 4.
Definition SEG_TSS : Z := 5.
Definition NSEGS : Z := 6.
Definition STA_X : Z := 8.
Definition STA_W : Z := 2.
Definition STA_R : Z := 2.
Definition STS_T32A : Z := 0x9.
Definition STS_IG32 : Z := 0xE.
Definition STS_TG32 : Z := 0xF.

(** ** The structures *)

Record segdesc := mkseg {
  lim_15_0 : Z; base_15_0 : Z; base_23_16 : Z; sd_type : Z; sd_s : Z; sd_dpl : Z; sd_p : Z;
  lim_19_16 : Z; sd_avl : Z; sd_rsv1 : Z; sd_db : Z; sd_g : Z; base_31_24 : Z }.
#[export] Instance eta_segdesc : Eta segdesc :=
  mkEta _ (fun r => mkseg (lim_15_0 r) (base_15_0 r) (base_23_16 r) (sd_type r) (sd_s r) (sd_dpl r) (sd_p r)
    (lim_19_16 r) (sd_avl r) (sd_rsv1 r) (sd_db r) (sd_g r) (base_31_24 r)).

Definition SEG (type base lim dpl : Z) : segdesc :=
  mkseg (Z.land (Z.shiftr lim 12) 0xffff) (Z.land base 0xffff) (Z.land (Z.shiftr base 16) 0xff) type 1 dpl 1
    (Z.shiftr lim 28) 0 0 1 1 (Z.shiftr base 24).
Definition SEG16 (type base lim dpl : Z) : segdesc :=
  mkseg (Z.land lim 0xffff) (Z.land base 0xffff) (Z.land (Z.shiftr base 16) 0xff) type 1 dpl 1
    (Z.shiftr lim 16) 0 0 1 0 (Z.shiftr base 24).

Record gatedesc := mkgate {
  off_15_0 : Z; gd_cs : Z; gd_args : Z; gd_rsv1 : Z; gd_type : Z; gd_s : Z; gd_dpl : Z; gd_p : Z; off_31_16 : Z }.

Definition SETGATE (istrap : bool) (sel off d : Z) : gatedesc :=
  mkgate (Z.land off 0xffff) sel 0 0 (if istrap then STS_TG32 else STS_IG32) 0 d 1 (Z.shiftr off 16).

(** The fields of the task state that are set, and its size. *)
Record taskstate := mkts { ts_esp0 : Z; ts_ss0 : Z; ts_iomb : Z }.
#[export] Instance eta_taskstate : Eta taskstate := mkEta _ (fun r => mkts (ts_esp0 r) (ts_ss0 r) (ts_iomb r)).
Definition sizeof_ts : Z := 104.

(** Bit fields, the first in the lowest bits. *)
Fixpoint pack (fs : list (Z * Z)) : Z :=
  match fs with [] => 0 | (w, v) :: fs' => v mod 2 ^ w + 2 ^ w * pack fs' end.
Definition seg_fields (d : segdesc) : list (Z * Z) :=
  [(16, lim_15_0 d); (16, base_15_0 d); (8, base_23_16 d); (4, sd_type d); (1, sd_s d); (2, sd_dpl d); (1, sd_p d);
   (4, lim_19_16 d); (1, sd_avl d); (1, sd_rsv1 d); (1, sd_db d); (1, sd_g d); (8, base_31_24 d)].
Definition gate_fields (d : gatedesc) : list (Z * Z) :=
  [(16, off_15_0 d); (16, gd_cs d); (5, gd_args d); (3, gd_rsv1 d); (4, gd_type d); (1, gd_s d); (2, gd_dpl d); (1, gd_p d);
   (16, off_31_16 d)].

(** ** Filling them in *)

(** The tables of a CPU, the shared table of gates, and the registers that point
    to them: base and limit. *)
Record tables := mktables {
  t_gdt : list segdesc; t_ts : taskstate; t_idt : list gatedesc; t_gdtr : Z * Z; t_idtr : Z * Z; t_tr : Z }.
#[export] Instance eta_tables : Eta tables :=
  mkEta _ (fun r => mktables (t_gdt r) (t_ts r) (t_idt r) (t_gdtr r) (t_idtr r) (t_tr r)).

(** The operand [pd] of [lgdt] and [lidt], and the base and limit loaded from it. *)
Definition pd (p size : Z) : list Z := [(size - 1) mod 2 ^ 16; p mod 2 ^ 16; Z.shiftr p 16 mod 2 ^ 16].
Definition load_pd (l : list Z) : Z * Z :=
  match l with [a; b; c] => (b + 2 ^ 16 * c, a) | _ => (0, 0) end.
Definition lgdt (p size : Z) (t : tables) : tables := t <| t_gdtr := load_pd (pd p size) |>.
Definition lidt (p size : Z) (t : tables) : tables := t <| t_idtr := load_pd (pd p size) |>.
Definition ltr (sel : Z) (t : tables) : tables := t <| t_tr := sel |>.

(** [gdt] is the address of [c->gdt]. *)
Definition seginit (gdt : Z) (t : tables) : tables :=
  let t := t <| t_gdt ::= <[Z.to_nat SEG_KCODE := SEG (Z.lor STA_X STA_R) 0 0xffffffff 0]> |> in
  let t := t <| t_gdt ::= <[Z.to_nat SEG_KDATA := SEG STA_W 0 0xffffffff 0]> |> in
  let t := t <| t_gdt ::= <[Z.to_nat SEG_UCODE := SEG (Z.lor STA_X STA_R) 0 0xffffffff DPL_USER]> |> in
  let t := t <| t_gdt ::= <[Z.to_nat SEG_UDATA := SEG STA_W 0 0xffffffff DPL_USER]> |> in
  lgdt gdt (NSEGS * 8) t.

(** The lines of [switchuvm] on the task state; [ts] is its address. *)
Definition switch_ts (ts kstack : Z) (t : tables) : tables :=
  let t := t <| t_gdt ::= <[Z.to_nat SEG_TSS := SEG16 STS_T32A ts (sizeof_ts - 1) 0]> |> in
  let t := t <| t_gdt ::= alter (fun d => d <| sd_s := 0 |>) (Z.to_nat SEG_TSS) |> in
  let t := t <| t_ts ::= fun s => s <| ts_ss0 := Z.shiftl SEG_KDATA 3 |> |> in
  let t := t <| t_ts ::= fun s => s <| ts_esp0 := u32 (kstack + KSTACKSIZE) |> |> in
  let t := t <| t_ts ::= fun s => s <| ts_iomb := 0xFFFF |> |> in
  ltr (Z.shiftl SEG_TSS 3) t.

(** The gates set by [tvinit]; [vectors] is the array of entry points that
    vectors.pl generates. *)
Fixpoint set_gates (vectors : Z -> Z) (n : nat) (i : Z) (idt : list gatedesc) : list gatedesc :=
  match n with
  | O => idt
  | S n' => set_gates vectors n' (i + 1) (<[Z.to_nat i := SETGATE false (Z.shiftl SEG_KCODE 3) (vectors i) 0]> idt)
  end.
Definition tv_gates (vectors : Z -> Z) (t : tables) : tables :=
  let t := t <| t_idt ::= set_gates vectors 256 0 |> in
  t <| t_idt ::= <[Z.to_nat T_SYSCALL := SETGATE true (Z.shiftl SEG_KCODE 3) (vectors T_SYSCALL) DPL_USER]> |>.

(** [idt] is the address of the table. *)
Definition idtinit (idt : Z) (t : tables) : tables := lidt idt (256 * 8) t.

(** ** How the processor reads them *)

Definition bits (z lo w : Z) : Z := (z / 2 ^ lo) mod 2 ^ w.

(** A segment: base, highest offset, type, whether it is a code or data segment,
    the privilege level, presence. *)
Record segment := mksegment { s_base : Z; s_limit : Z; s_type : Z; s_app : bool; s_dpl : Z; s_present : bool }.
Definition read_seg (z : Z) : segment :=
  let lim := bits z 0 16 + 2 ^ 16 * bits z 48 4 in
  mksegment (bits z 16 16 + 2 ^ 16 * bits z 32 8 + 2 ^ 24 * bits z 56 8)
    (if bits z 55 1 =? 1 then 4096 * lim + 4095 else lim) (bits z 40 4) (bits z 44 1 =? 1) (bits z 45 2) (bits z 47 1 =? 1).

(** A gate: the selector and offset of the handler, whether interrupts are
    switched off, the privilege level needed to call it, presence. *)
Record gate := mkgateview { g_sel : Z; g_off : Z; g_masks : bool; g_dpl : Z; g_present : bool }.
Definition read_gate (z : Z) : gate :=
  mkgateview (bits z 16 16) (bits z 0 16 + 2 ^ 16 * bits z 48 16) (bits z 40 4 =? 0xE) (bits z 45 2) (bits z 47 1 =? 1).

(** The descriptor that selector [sel] names, by its index; [None] beyond the limit. *)
Definition segment_of (t : tables) (sel : Z) : option segment :=
  if 8 * (sel / 8) + 7 <=? (t_gdtr t).2 then (fun d => read_seg (pack (seg_fields d))) <$> aget (t_gdt t) (sel / 8) else None.
Definition gate_of (t : tables) (v : Z) : option gate :=
  if 8 * v + 7 <=? (t_idtr t).2 then (fun d => read_gate (pack (gate_fields d))) <$> aget (t_idt t) v else None.

Section fields.
Implicit Types (fs : list (Z * Z)) (z w v : Z).

Definition width fs : Z := foldr (fun f n => f.1 + n) 0 fs.
Definition widths_ok fs : Prop := Forall (fun f => 0 <= f.1) fs.

Lemma width_nonneg fs : widths_ok fs -> 0 <= width fs.
Proof. intros H. induction H as [|f fs Hf _ IH]; [done|]. cbv beta in Hf. change (width (f :: fs)) with (f.1 + width fs). lia. Qed.

(** A field is read back from its place. *)
Lemma bits_pack fs w v fs' : widths_ok fs -> 0 <= w -> bits (pack (fs ++ (w, v) :: fs')) (width fs) w = v mod 2 ^ w.
Proof.
  intros Hf Hw. unfold bits. induction Hf as [|[w1 v1] fs Hw1 Hf IH].
  - cbn. rewrite Z.div_1_r, Z.mul_comm, Z.mod_add by (apply Z.pow_nonzero; lia). by rewrite Z.mod_mod by (apply Z.pow_nonzero; lia).
  - cbn in Hw1. pose proof (width_nonneg _ Hf) as Hn. change (width ((w1, v1) :: fs)) with (w1 + width fs).
    change (pack (((w1, v1) :: fs) ++ (w, v) :: fs')) with (v1 mod 2 ^ w1 + 2 ^ w1 * pack (fs ++ (w, v) :: fs')).
    assert (0 < 2 ^ w1) by (apply Z.pow_pos_nonneg; lia). assert (0 < 2 ^ width fs) by (apply Z.pow_pos_nonneg; lia).
    rewrite Z.pow_add_r, <- Z.div_div, (Z.mul_comm (2 ^ w1)), Z.div_add by lia.
    rewrite (Z.div_small (v1 mod _)) by (by apply Z.mod_pos_bound). exact IH.
Qed.

Lemma bits_field fs n w v lo :
  widths_ok fs -> fs !! n = Some (w, v) -> width (take n fs) = lo -> bits (pack fs) lo w = v mod 2 ^ w.
Proof.
  intros Hf Hn <-. unfold widths_ok in Hf. rewrite <- (take_drop_middle _ _ _ Hn) at 1. apply bits_pack.
  - by apply Forall_take.
  - exact (Forall_lookup_1 _ _ _ _ Hf Hn).
Qed.

Lemma seg_widths d : widths_ok (seg_fields d).
Proof. unfold widths_ok, seg_fields. repeat constructor; cbn; lia. Qed.
Lemma gate_widths d : widths_ok (gate_fields d).
Proof. unfold widths_ok, gate_fields. repeat constructor; cbn; lia. Qed.

Lemma read_seg_fields d :
  read_seg (pack (seg_fields d)) =
  mksegment (base_15_0 d mod 2 ^ 16 + 2 ^ 16 * (base_23_16 d mod 2 ^ 8) + 2 ^ 24 * (base_31_24 d mod 2 ^ 8))
    (let lim := lim_15_0 d mod 2 ^ 16 + 2 ^ 16 * (lim_19_16 d mod 2 ^ 4) in if sd_g d mod 2 ^ 1 =? 1 then 4096 * lim + 4095 else lim)
    (sd_type d mod 2 ^ 4) (sd_s d mod 2 ^ 1 =? 1) (sd_dpl d mod 2 ^ 2) (sd_p d mod 2 ^ 1 =? 1).
Proof.
  unfold read_seg. pose proof (fun n w v lo => bits_field _ n w v lo (seg_widths d)) as F.
  rewrite (F 0%nat 16 _ 0 eq_refl eq_refl), (F 1%nat 16 _ 16 eq_refl eq_refl), (F 2%nat 8 _ 32 eq_refl eq_refl), (F 3%nat 4 _ 40 eq_refl eq_refl),
    (F 4%nat 1 _ 44 eq_refl eq_refl), (F 5%nat 2 _ 45 eq_refl eq_refl), (F 6%nat 1 _ 47 eq_refl eq_refl), (F 7%nat 4 _ 48 eq_refl eq_refl),
    (F 11%nat 1 _ 55 eq_refl eq_refl), (F 12%nat 8 _ 56 eq_refl eq_refl). reflexivity.
Qed.

Lemma read_gate_fields d :
  read_gate (pack (gate_fields d)) =
  mkgateview (gd_cs d mod 2 ^ 16) (off_15_0 d mod 2 ^ 16 + 2 ^ 16 * (off_31_16 d mod 2 ^ 16)) (gd_type d mod 2 ^ 4 =? 0xE) (gd_dpl d mod 2 ^ 2)
    (gd_p d mod 2 ^ 1 =? 1).
Proof.
  unfold read_gate. pose proof (fun n w v lo => bits_field _ n w v lo (gate_widths d)) as F.
  rewrite (F 0%nat 16 _ 0 eq_refl eq_refl), (F 1%nat 16 _ 16 eq_refl eq_refl), (F 4%nat 4 _ 40 eq_refl eq_refl), (F 6%nat 2 _ 45 eq_refl eq_refl),
    (F 7%nat 1 _ 47 eq_refl eq_refl), (F 8%nat 16 _ 48 eq_refl eq_refl). reflexivity.
Qed.
End fields.

Section reading.
Implicit Types (type base lim dpl off sel : Z).

Lemma land_ones16 x : Z.land x 0xffff = x mod 2 ^ 16.
Proof. by rewrite <- Z.land_ones. Qed.
Lemma land_ones8 x : Z.land x 0xff = x mod 2 ^ 8.
Proof. by rewrite <- Z.land_ones. Qed.

(** The pieces of an address. *)
Lemma base_pieces base : 0 <= base < 2 ^ 32 ->
  Z.land base 0xffff mod 2 ^ 16 + 2 ^ 16 * (Z.land (Z.shiftr base 16) 0xff mod 2 ^ 8) + 2 ^ 24 * (Z.shiftr base 24 mod 2 ^ 8) = base.
Proof.
  intros H. rewrite land_ones16, land_ones8, !Z.shiftr_div_pow2 by lia.
  change (2 ^ 32) with 4294967296 in H. change (2 ^ 24) with 16777216. change (2 ^ 16) with 65536. change (2 ^ 8) with 256. dlia.
Qed.

Lemma SEG_read type base lim dpl :
  0 <= type < 16 -> 0 <= base < 2 ^ 32 -> 0 <= lim < 2 ^ 32 -> 0 <= dpl < 4 ->
  read_seg (pack (seg_fields (SEG type base lim dpl))) = mksegment base (4096 * (lim / 4096) + 4095) type true dpl true.
Proof.
  intros Ht Hb Hl Hd. rewrite read_seg_fields. unfold SEG. cbn [lim_15_0 base_15_0 base_23_16 sd_type sd_s sd_dpl sd_p lim_19_16 sd_g base_31_24].
  rewrite base_pieces by done. change (1 mod 2 ^ 1 =? 1) with true. rewrite (Z.mod_small type), (Z.mod_small dpl) by done. cbv zeta iota. f_equal. f_equal. f_equal.
  rewrite land_ones16, !Z.shiftr_div_pow2 by lia. change (2 ^ 32) with 4294967296 in Hl. change (2 ^ 28) with 268435456. change (2 ^ 16) with 65536. change (2 ^ 12) with 4096. change (2 ^ 4) with 16. dlia.
Qed.

Lemma SEG16_read type base lim dpl :
  0 <= type < 16 -> 0 <= base < 2 ^ 32 -> 0 <= lim < 2 ^ 20 -> 0 <= dpl < 4 ->
  read_seg (pack (seg_fields ((SEG16 type base lim dpl) <| sd_s := 0 |>))) = mksegment base lim type false dpl true.
Proof.
  intros Ht Hb Hl Hd. rewrite read_seg_fields. unfold SEG16. rsimpl. cbn [lim_15_0 base_15_0 base_23_16 sd_type sd_s sd_dpl sd_p lim_19_16 sd_g base_31_24].
  rewrite base_pieces by done. change (1 mod 2 ^ 1 =? 1) with true. change (0 mod 2 ^ 1 =? 1) with false. rewrite (Z.mod_small type), (Z.mod_small dpl) by done. cbv zeta iota. f_equal.
  rewrite land_ones16, !Z.shiftr_div_pow2 by lia. change (2 ^ 20) with 1048576 in Hl. change (2 ^ 16) with 65536. change (2 ^ 4) with 16. dlia.
Qed.

Lemma SETGATE_read (istrap : bool) sel off dpl :
  0 <= sel < 2 ^ 16 -> 0 <= off < 2 ^ 32 -> 0 <= dpl < 4 ->
  read_gate (pack (gate_fields (SETGATE istrap sel off dpl))) = mkgateview sel off (negb istrap) dpl true.
Proof.
  intros Hs Ho Hd. rewrite read_gate_fields. unfold SETGATE. cbn [gd_cs off_15_0 off_31_16 gd_type gd_dpl gd_p].
  rewrite (Z.mod_small sel), (Z.mod_small dpl) by done. rewrite land_ones16, Z.shiftr_div_pow2 by lia. f_equal; [|by destruct istrap].
  change (2 ^ 32) with 4294967296 in Ho. change (2 ^ 16) with 65536. dlia.
Qed.

Lemma load_pd_ok p size : 0 <= p < 2 ^ 32 -> 0 < size <= 2 ^ 16 -> load_pd (pd p size) = (p, size - 1).
Proof.
  intros Hp Hs. unfold load_pd, pd. rewrite Z.shiftr_div_pow2 by lia. change (2 ^ 32) with 4294967296 in Hp. change (2 ^ 16) with 65536 in *. f_equal; dlia.
Qed.

Lemma set_gates_lookup vectors n : forall i idt v, 0 <= i -> i + Z.of_nat n <= alen idt -> 0 <= v < alen idt ->
  aget (set_gates vectors n i idt) v =
  if decide (i <= v < i + Z.of_nat n) then Some (SETGATE false (Z.shiftl SEG_KCODE 3) (vectors v) 0) else aget idt v.
Proof.
  induction n as [|n IH]; intros i idt v Hi Hn Hv; cbn [set_gates]; [by rewrite decide_False by lia|].
  rewrite IH by (rewrite ?alen_insert; lia). rewrite aget_insert by lia.
  destruct (decide (i = v)) as [->|]; [by rewrite decide_False, decide_True by lia|]. by destruct (decide (i + 1 <= v < i + 1 + Z.of_nat n)); [rewrite decide_True by lia|rewrite decide_False by lia].
Qed.

Lemma set_gates_len vectors n : forall i idt, alen (set_gates vectors n i idt) = alen idt.
Proof. induction n as [|n IH]; intros i idt; [done|]. cbn [set_gates]. by rewrite IH, alen_insert. Qed.

Lemma tv_gates_lookup vectors t v : alen (t_idt t) = 256 -> 0 <= v < 256 ->
  aget (t_idt (tv_gates vectors t)) v =
  Some (SETGATE (v =? T_SYSCALL) (Z.shiftl SEG_KCODE 3) (vectors v) (if v =? T_SYSCALL then DPL_USER else 0)).
Proof.
  intros Hl Hv. unfold tv_gates. rsimpl. rewrite aget_insert by (rewrite set_gates_len, Hl; done).
  destruct (Z.eqb_spec v T_SYSCALL) as [->|Hne]; [by rewrite decide_True|]. rewrite decide_False by done.
  by rewrite set_gates_lookup, decide_True by (lia || done).
Qed.
End reading.

(** C26. The processor reads the descriptor tables as the kernel means them.
    After [seginit], [tvinit], [idtinit] and a switch to a process, the four
    segments are flat, all of the 32-bit address space, and the two that the
    selectors of a user process name are the ones with user privilege; the task
    register names the task state, whose stack is the top of the process's kernel
    stack, and which allows no port to user code; and gate [v] leads to the
    [v]th entry point in the kernel's code segment with interrupts off, but for
    the gate of system calls, which leaves them on and is the only one that user
    code may call. *)
Theorem protection_tables (vectors : Z -> Z) (gdt idt ts kstack : Z) (t : tables) :
  alen (t_gdt t) = NSEGS -> alen (t_idt t) = 256 -> 0 <= gdt < 2 ^ 32 -> 0 <= idt < 2 ^ 32 -> 0 <= ts < 2 ^ 32 ->
  0 <= kstack < 2 ^ 32 - KSTACKSIZE -> (forall v, 0 <= v < 256 -> 0 <= vectors v < 2 ^ 32) ->
  let t' := switch_ts ts kstack (idtinit idt (tv_gates vectors (seginit gdt t))) in
  t_gdtr t' = (gdt, 8 * NSEGS - 1) /\ t_idtr t' = (idt, 8 * 256 - 1) /\
  segment_of t' (8 * SEG_KCODE) = Some (mksegment 0 (2 ^ 32 - 1) (STA_X + STA_R) true 0 true) /\
  segment_of t' (8 * SEG_KDATA) = Some (mksegment 0 (2 ^ 32 - 1) STA_W true 0 true) /\
  segment_of t' USER_CS = Some (mksegment 0 (2 ^ 32 - 1) (STA_X + STA_R) true DPL_USER true) /\
  segment_of t' USER_DS = Some (mksegment 0 (2 ^ 32 - 1) STA_W true DPL_USER true) /\
  (exists s, segment_of t' (t_tr t') = Some s /\ s_base s = ts /\ s_app s = false /\ s_type s = STS_T32A /\ s_dpl s = 0 /\
     s_limit s < ts_iomb (t_ts t')) /\
  ts_esp0 (t_ts t') = kstack + KSTACKSIZE /\ ts_ss0 (t_ts t') = 8 * SEG_KDATA /\
  forall v, 0 <= v < 256 ->
    gate_of t' v = Some (mkgateview (8 * SEG_KCODE) (vectors v) (negb (v =? T_SYSCALL)) (if v =? T_SYSCALL then DPL_USER else 0) true).
Proof.
  intros Hg Hi Hgdt Hidt Hts Hks Hvec t'. unfold NSEGS, alen in Hg.
  destruct (t_gdt t) as [|d0 [|d1 [|d2 [|d3 [|d4 [|d5 [|]]]]]]] eqn:Egdt; cbn in Hg; try lia. clear Hg.
  assert (Hgdtr : t_gdtr t' = (gdt, 8 * NSEGS - 1)) by (exact (load_pd_ok gdt (NSEGS * 8) Hgdt ltac:(done))).
  assert (Hidtr : t_idtr t' = (idt, 8 * 256 - 1)) by (exact (load_pd_ok idt (256 * 8) Hidt ltac:(done))).
  assert (Hgdt' : t_gdt t' = [d0; SEG (STA_X + STA_R) 0 0xffffffff 0; SEG STA_W 0 0xffffffff 0; SEG (STA_X + STA_R) 0 0xffffffff DPL_USER;
    SEG STA_W 0 0xffffffff DPL_USER; (SEG16 STS_T32A ts (sizeof_ts - 1) 0) <| sd_s := 0 |>]).
  { transitivity (alter (fun d => d <| sd_s := 0 |>) 5%nat (<[5%nat := SEG16 STS_T32A ts (sizeof_ts - 1) 0]> (<[4%nat := SEG STA_W 0 0xffffffff DPL_USER]>
      (<[3%nat := SEG (STA_X + STA_R) 0 0xffffffff DPL_USER]> (<[2%nat := SEG STA_W 0 0xffffffff 0]> (<[1%nat := SEG (STA_X + STA_R) 0 0xffffffff 0]> (t_gdt t)))))));
      [reflexivity|]. by rewrite Egdt. }
  assert (Hseg : forall sel d, 8 * (sel / 8) + 7 <= 8 * NSEGS - 1 -> aget (t_gdt t') (sel / 8) = Some d -> segment_of t' sel = Some (read_seg (pack (seg_fields d)))).
  { intros sel d Hs Hd. unfold segment_of. rewrite Hgdtr. cbn [snd]. by rewrite (proj2 (Z.leb_le _ _) Hs), Hd. }
  split; [exact Hgdtr|]. split; [exact Hidtr|].
  do 4 (split; [erewrite Hseg by (done || (rewrite Hgdt'; reflexivity)); by rewrite SEG_read|]).
  split; [eexists; split; [erewrite Hseg by (done || (rewrite Hgdt'; reflexivity)); by rewrite SEG16_read|done]|].
  split; [unfold t', switch_ts, u32; rsimpl; rewrite Z.mod_small; [done|unfold KSTACKSIZE in *; lia]|]. split; [done|].
  intros v Hv. unfold gate_of. rewrite Hidtr. cbn [snd]. rewrite (proj2 (Z.leb_le _ _)) by lia.
  change (t_idt t') with (t_idt (tv_gates vectors (seginit gdt t))). rewrite tv_gates_lookup by done. cbn [fmap option_fmap option_map]. f_equal.
  apply SETGATE_read; [done|by apply Hvec|]. by destruct (v =? T_SYSCALL).
Qed.

(** Tables as a CPU starts with, and entry points 16 bytes apart. *)
Definition seg0 : segdesc := mkseg 0 0 0 0 0 0 0 0 0 0 0 0 0.
Definition tables0 : tables :=
  mktables (replicate 6 seg0) (mkts 0 0 0) (replicate 256 (mkgate 0 0 0 0 0 0 0 0 0)) (0, 0) (0, 0) 0.

Lemma protection_tables_witness :
  let t' := switch_ts 0x80112800 0x8dfff000 (idtinit 0x80114ca0 (tv_gates (fun v => 0x80106000 + 16 * v) (seginit 0x80112870 tables0))) in
  s_dpl <$> segment_of t' USER_CS = Some 3 /\ ts_esp0 (t_ts t') = 0x8e000000 /\
  gate_of t' 64 = Some (mkgateview 8 0x80106400 false 3 true) /\ gate_of t' 32 = Some (mkgateview 8 0x80106200 true 0 true).
Proof.
  assert (Hv : forall v, 0 <= v < 256 -> 0 <= 0x80106000 + 16 * v < 2 ^ 32) by (intros v Hv; lia).
  destruct (protection_tables (fun v => 0x80106000 + 16 * v) 0x80112870 0x80114ca0 0x80112800 0x8dfff000 tables0 eq_refl eq_refl
    ltac:(done) ltac:(done) ltac:(done) ltac:(done) Hv) as (_ & _ & _ & _ & Hu & _ & _ & Hs & _ & Hg).
  cbv zeta. rewrite Hu, Hs. split; [reflexivity|]. split; [reflexivity|]. split; [rewrite Hg by done; reflexivity|rewrite Hg by done; reflexivity].
Defined.
