(* ===== verification/Apic.v ===== *)
(** * Interrupt controllers and the clock ([lapic.c], [ioapic.c], [picirq.c])

    The registers of the local APIC and of the I/O APIC are words of memory; like
    the ports, what is written to them is recorded, newest last, and reading them
    is left to the devices ([ind]).  [lapic] and [ioapicid], which [mpinit] sets,
    are arguments.

    [ioapic_routes]: after [ioapicinit] every interrupt is off, and calls of
    [ioapicenable] route exactly the interrupts asked for.  [cmostime_reads]: the
    date of the clock, decoded.  [lapicstartap_vector]: both ways in which another
    processor can be told where to start name the same address. *)

From S2P Require Import Prelude State Spinlock CString Kalloc Console Vm Message Container Proc Syscall Sysproc.
From S2P Require Import Sleeplock Bio Log Fs Names Pipe File Sysfile Open Input Exec Fork Trap Mp.
Open Scope Z_scope.

Definition ID : Z := 0x20 / 4.
Definition VER : Z := 0x30 / 4.
Definition TPR : Z := 0x80 / 4.
Definition EOI : Z := 0xB0 / 4.
Definition SVR : Z := 0xF0 / 4.
Definition ENABLE : Z := 0x100.
Definition ESR : Z := 0x280 / 4.
Definition ICRLO : Z := 0x300 / 4.
Definition INIT : Z := 0x500.
Definition STARTUP : Z := 0x600.
Definition DELIVS : Z := 0x1000.
Definition ASSERT : Z := 0x4000.
Definition LEVEL : Z := 0x8000.
Definition BCAST : Z := 0x80000.
Definition ICRHI : Z := 0x310 / 4.
Definition TIMER : Z := 0x320 / 4.
Definition X1 : Z := 0xB.
Definition PERIODIC : Z := 0x20000.
Definition PCINT : Z := 0x340 / 4.
Definition LINT0 : Z := 0x350 / 4.
Definition LINT1 : Z := 0x360 / 4.
Definition ERROR : Z := 0x370 / 4.
Definition MASKED : Z := 0x10000.
Definition TICR : Z := 0x380 / 4.
Definition TDCR : Z := 0x3E0 / 4.
Definition IRQ_ERROR : Z := 19.

(** Writing a word of a device, a [uint]. *)
Definition outw (a v : Z) : K unit := outb a (u32 v).

Section apic.
Context {fuel : Fuel} {ports : Ports}.

(** ** [lapic.c] *)

Definition lapicr (lapic index : Z) : K Z := ind (lapic + 4 * index).
Definition lapicw (lapic index value : Z) : K unit :=
  outw (lapic + 4 * index) value ;;;
  lapicr lapic ID ;;;
  mret tt.

(** [while(lapic[ICRLO] & DELIVS)]; *)
Fixpoint delivs_loop (n : nat) (lapic : Z) : K unit :=
  match n with
  | O => fun _ => Diverge
  | S n' => v ← lapicr lapic ICRLO; if negb (Z.land v DELIVS =? 0) then delivs_loop n' lapic else mret tt
  end.

Definition lapicinit (lapic : Z) : K unit :=
  if lapic =? 0 then mret tt
  else
    lapicw lapic SVR (Z.lor ENABLE (T_IRQ0 + IRQ_SPURIOUS)) ;;;
    lapicw lapic TDCR X1 ;;;
    lapicw lapic TIMER (Z.lor PERIODIC (T_IRQ0 + IRQ_TIMER)) ;;;
    lapicw lapic TICR 10000000 ;;;
    lapicw lapic LINT0 MASKED ;;;
    lapicw lapic LINT1 MASKED ;;;
    v ← lapicr lapic VER;
    when (4 <=? Z.land (Z.shiftr v 16) 0xFF) (lapicw lapic PCINT MASKED) ;;;
    lapicw lapic ERROR (T_IRQ0 + IRQ_ERROR) ;;;
    lapicw lapic ESR 0 ;;;
    lapicw lapic ESR 0 ;;;
    lapicw lapic EOI 0 ;;;
    lapicw lapic ICRHI 0 ;;;
    lapicw lapic ICRLO (Z.lor (Z.lor BCAST INIT) LEVEL) ;;;
    delivs_loop wakeups lapic ;;;
    lapicw lapic TPR 0.

Definition lapicid (lapic : Z) : K Z :=
  if lapic =? 0 then mret 0
  else v ← lapicr lapic ID; mret (Z.shiftr v 24).

Definition lapiceoi (lapic : Z) : K unit := when (negb (lapic =? 0)) (lapicw lapic EOI 0).

(** [microdelay] has an empty body. *)
Definition microdelay (us : Z) : K unit := mret tt.

Definition CMOS_PORT : Z := 0x70.
Definition CMOS_RETURN : Z := 0x71.

(** A store of an [ushort]. *)
Definition store16 (m : mem) (a v : Z) : mem := store8 (store8 m a v) (a + 1) (Z.shiftr v 8).

Definition startup_ipi (lapic apicid addr : Z) : K unit :=
  lapicw lapic ICRHI (Z.shiftl apicid 24) ;;;
  lapicw lapic ICRLO (Z.lor STARTUP (Z.shiftr addr 12)) ;;;
  microdelay 200.

Definition lapicstartap (lapic apicid addr : Z) : K unit :=
  outb CMOS_PORT 0xF ;;;
  outb (CMOS_PORT + 1) 0x0A ;;;
  let wrv := P2V (Z.lor (Z.shiftl 0x40 4) 0x67) in
  modify (fun k => k <| k_mem ::= fun m => store16 m wrv 0 |>) ;;;
  modify (fun k => k <| k_mem ::= fun m => store16 m (wrv + 2) (Z.shiftr addr 4) |>) ;;;
  lapicw lapic ICRHI (Z.shiftl apicid 24) ;;;
  lapicw lapic ICRLO (Z.lor (Z.lor INIT LEVEL) ASSERT) ;;;
  microdelay 200 ;;;
  lapicw lapic ICRLO (Z.lor INIT LEVEL) ;;;
  microdelay 100 ;;;
  each 2 0 (fun _ => startup_ipi lapic apicid addr).

Definition CMOS_STATA : Z := 0x0a.
Definition CMOS_STATB : Z := 0x0b.
Definition CMOS_UIP : Z := Z.shiftl 1 7.
Definition SECS : Z := 0x00.
Definition MINS : Z := 0x02.
Definition HOURS : Z := 0x04.
Definition DAY : Z := 0x07.
Definition MONTH : Z := 0x08.
Definition YEAR : Z := 0x09.

Definition cmos_read (reg : Z) : K Z :=
  outb CMOS_PORT reg ;;;
  microdelay 200 ;;;
  inb CMOS_RETURN.

(** [struct rtcdate] of [date.h]. *)
Record rtcdate := mkdate { second : Z; minute : Z; hour : Z; day : Z; month : Z; year : Z }.
#[global] Instance rtcdate_eq_dec : EqDecision rtcdate.
Proof. solve_decision. Defined.

Definition fill_rtcdate : K rtcdate :=
  s ← cmos_read SECS;
  mi ← cmos_read MINS;
  h ← cmos_read HOURS;
  d ← cmos_read DAY;
  mo ← cmos_read MONTH;
  y ← cmos_read YEAR;
  mret (mkdate s mi h d mo y).

(** Until two readings agree and no update was in progress between them. *)
Fixpoint cmos_loop (n : nat) : K rtcdate :=
  match n with
  | O => fun _ => Diverge
  | S n' =>
      t1 ← fill_rtcdate;
      a ← cmos_read CMOS_STATA;
      if negb (Z.land a CMOS_UIP =? 0) then cmos_loop n'
      else
        t2 ← fill_rtcdate;
        if bool_decide (t1 = t2) then mret t1 else cmos_loop n'
  end.

Definition CONV (x : Z) : Z := Z.shiftr x 4 * 10 + Z.land x 0xf.

Definition cmostime : K rtcdate :=
  sb ← cmos_read CMOS_STATB;
  let bcd := Z.land sb (Z.shiftl 1 2) =? 0 in
  t1 ← cmos_loop wakeups;
  let t1 :=
    if bcd then mkdate (CONV (second t1)) (CONV (minute t1)) (CONV (hour t1)) (CONV (day t1)) (CONV (month t1)) (CONV (year t1))
    else t1 in
  mret (mkdate (second t1) (minute t1) (hour t1) (day t1) (month t1) (year t1 + 2000)).

(** ** [ioapic.c] *)

Definition IOAPIC : Z := 0xFEC00000.
Definition REG_ID : Z := 0x00.
Definition REG_VER : Z := 0x01.
Definition REG_TABLE : Z := 0x10.
Definition INT_DISABLED : Z := 0x10000.

Definition ioapicread (reg : Z) : K Z :=
  outw IOAPIC reg ;;;
  ind (IOAPIC + 16).
Definition ioapicwrite (reg data : Z) : K unit :=
  outw IOAPIC reg ;;;
  outw (IOAPIC + 16) data.

Definition ioapicinit (ioapicid : Z) : K unit :=
  v ← ioapicread REG_VER;
  let maxintr := Z.land (Z.shiftr v 16) 0xFF in
  i ← ioapicread REG_ID;
  let id := Z.shiftr i 24 in
  when (negb (id =? ioapicid)) (cprintf (bytes "ioapicinit: id isn't equal to ioapicid; not a MP" ++ [10]) []) ;;;
  each (Z.to_nat (maxintr + 1)) 0 (fun i =>
    ioapicwrite (REG_TABLE + 2 * i) (Z.lor INT_DISABLED (T_IRQ0 + i)) ;;;
    ioapicwrite (REG_TABLE + 2 * i + 1) 0).

Definition ioapicenable (irq cpunum : Z) : K unit :=
  ioapicwrite (REG_TABLE + 2 * irq) (T_IRQ0 + irq) ;;;
  ioapicwrite (REG_TABLE + 2 * irq + 1) (Z.shiftl cpunum 24).

(** ** [picirq.c] *)

Definition IO_PIC1 : Z := 0x20.
Definition IO_PIC2 : Z := 0xA0.
Definition picinit : K unit :=
  outb (IO_PIC1 + 1) 0xFF ;;;
  outb (IO_PIC2 + 1) 0xFF.
End apic.

(** ** The I/O APIC *)

(** Its register select and its registers, after what was written to it. *)
Definition io_write (st : Z * (Z -> Z)) (w : Z * Z) : Z * (Z -> Z) :=
  if w.1 =? IOAPIC then (w.2, st.2)
  else if w.1 =? IOAPIC + 16 then (st.1, fun r => if r =? st.1 then w.2 else st.2 r)
  else st.
Definition io_state (regs : Z -> Z) (log : list (Z * Z)) : Z * (Z -> Z) := foldl io_write (0, regs) log.

(** Reading the data word gives the register that is selected. *)
Definition io_answers {ports : Ports} (regs : Z -> Z) : Prop :=
  forall k, ind (IOAPIC + 16) k = Ret ((io_state regs (k_ports k)).2 (io_state regs (k_ports k)).1) k.

(** The two words of an entry of the redirection table. *)
Definition route (regs : Z -> Z) (irq : Z) : Z * Z := (regs (REG_TABLE + 2 * irq), regs (REG_TABLE + 2 * irq + 1)).

(** An entry as the data sheet of the controller reads it: bits 0 to 7 of the
    first word are the vector, 8 to 10 the delivery mode (0 is fixed), bit 11 a
    logical destination, bit 13 active low, bit 15 level-triggered and bit 16 the
    mask; bits 24 to 31 of the second word are the destination. *)
Record redirection := mkredir { r_vector : Z; r_mode : Z; r_logical : bool; r_activelow : bool; r_level : bool; r_masked : bool; r_dest : Z }.
#[global] Instance redirection_eq_dec : EqDecision redirection.
Proof. solve_decision. Defined.
Definition bit_field (v lo w : Z) : Z := (v / 2 ^ lo) mod 2 ^ w.
Definition redirection_of (e : Z * Z) : redirection :=
  mkredir (bit_field e.1 0 8) (bit_field e.1 8 3) (Z.testbit e.1 11) (Z.testbit e.1 13) (Z.testbit e.1 15) (Z.testbit e.1 16) (bit_field e.2 24 8).
(** Edge-triggered and active high, with a fixed vector: masked, or for one processor. *)
Definition redirected (irq : Z) (cpu : option Z) : redirection :=
  mkredir (32 + irq) 0 false false false (bool_decide (cpu = None)) (default 0 cpu mod 256).

Definition route_off (irq : Z) : Z * Z := (Z.lor INT_DISABLED (T_IRQ0 + irq), 0).
Definition route_to (irq cpunum : Z) : Z * Z := (T_IRQ0 + irq, u32 (Z.shiftl cpunum 24)).
Definition route_for (irq : Z) (cpu : option Z) : Z * Z := match cpu with None => route_off irq | Some c => route_to irq c end.

(** The calls of [ioapicenable] in a list, and the last one for an interrupt. *)
Fixpoint enable_all {ports : Ports} (es : list (Z * Z)) : K unit :=
  match es with [] => mret tt | (irq, cpu) :: es' => ioapicenable irq cpu ;;; enable_all es' end.
Definition last_cpu (es : list (Z * Z)) (irq : Z) : option Z :=
  foldl (fun d e => if e.1 =? irq then Some e.2 else d) None es.

(** The words written say what is meant. *)
Lemma redirection_off irq : 0 <= irq < 224 -> redirection_of (route_off irq) = redirected irq None.
Proof.
  intros Hi. assert (H : forallb (fun i => bool_decide (redirection_of (route_off i) = redirected i None)) (seqZ 0 224) = true) by (vm_compute; reflexivity).
  rewrite forallb_forall in H. specialize (H irq). rewrite bool_decide_eq_true in H. apply H, list_elem_of_In, elem_of_seqZ. lia.
Qed.
Lemma redirection_to irq cpu : 0 <= irq < 224 -> redirection_of (route_to irq cpu) = redirected irq (Some cpu).
Proof.
  intros Hi. assert (H : forallb (fun i => bool_decide (redirection_of (route_to i 0) = redirected i (Some 0))) (seqZ 0 224) = true) by (vm_compute; reflexivity).
  rewrite forallb_forall in H. specialize (H irq). rewrite bool_decide_eq_true in H. specialize (H ltac:(apply list_elem_of_In, elem_of_seqZ; lia)).
  unfold redirection_of, redirected in *. f_equal; [exact (f_equal r_vector H)|exact (f_equal r_mode H)|exact (f_equal r_logical H)|exact (f_equal r_activelow H)|exact (f_equal r_level H)|exact (f_equal r_masked H)|].
  unfold route_to. cbn [snd].
  unfold bit_field, u32. rewrite Z.shiftl_mul_pow2 by lia. change (2 ^ 32) with (256 * 2 ^ 24). rewrite Z.mul_mod_distr_r, Z.div_mul by lia.
  by rewrite Z.mod_mod by lia.
Qed.
Lemma redirection_for irq cpu : 0 <= irq < 224 -> redirection_of (route_for irq cpu) = redirected irq cpu.
Proof. intros Hi. destruct cpu; [by apply redirection_to|by apply redirection_off]. Qed.
Lemma route_words irq : 0 <= irq < 256 -> u32 (T_IRQ0 + irq) = T_IRQ0 + irq /\ u32 (Z.lor INT_DISABLED (T_IRQ0 + irq)) = Z.lor INT_DISABLED (T_IRQ0 + irq).
Proof.
  intros Hi. assert (H : forallb (fun i => (u32 (T_IRQ0 + i) =? T_IRQ0 + i) && (u32 (Z.lor INT_DISABLED (T_IRQ0 + i)) =? Z.lor INT_DISABLED (T_IRQ0 + i))) (seqZ 0 256) = true) by (vm_compute; reflexivity).
  rewrite forallb_forall in H. specialize (H irq ltac:(apply list_elem_of_In, elem_of_seqZ; lia)). by apply andb_true_iff in H as [?%Z.eqb_eq ?%Z.eqb_eq].
Qed.

Section ioapic.
Context {ports : Ports} (regs : Z -> Z).
Implicit Types (k : kernel) (log : list (Z * Z)) (irq : Z).

Definition io_regs (k : kernel) : Z -> Z := (io_state regs (k_ports k)).2.
(** Only port writes happened. *)
Definition wrote k k' : Prop := exists log, k' = k <| k_ports ::= fun o => o ++ log |>.

Lemma wrote_trans k k1 k2 : wrote k k1 -> wrote k1 k2 -> wrote k k2.
Proof. intros [l1 ->] [l2 ->]. exists (l1 ++ l2). destruct k. unfold upd. cbn. by rewrite app_assoc. Qed.

Lemma io_state_app log log' : io_state regs (log ++ log') = foldl io_write (io_state regs log) log'.
Proof. unfold io_state. by rewrite foldl_app. Qed.

Lemma ioapicwrite_run k reg data : u32 reg = reg ->
  exists k', ioapicwrite reg data k = Ret tt k' /\ wrote k k' /\ forall r, io_regs k' r = if r =? reg then u32 data else io_regs k r.
Proof.
  intros Hr. eexists. split; [done|]. split; [exists [(IOAPIC, u32 reg); (IOAPIC + 16, u32 data)]; destruct k; unfold upd; cbn; by rewrite <- app_assoc|].
  intros r. unfold io_regs. rsimpl. rewrite <- app_assoc, io_state_app, Hr. done.
Qed.

(** Both words of an entry. *)
Lemma route_entry_run k irq lo hi : 0 <= irq < 256 -> exists k',
  (ioapicwrite (REG_TABLE + 2 * irq) lo ;;; ioapicwrite (REG_TABLE + 2 * irq + 1) hi) k = Ret tt k' /\ wrote k k' /\
  (forall j, route (io_regs k') j = if j =? irq then (u32 lo, u32 hi) else route (io_regs k) j).
Proof.
  intros Hirq. assert (Hreg : forall r, 0 <= r < 2 ^ 32 -> u32 r = r) by (intros; by apply Z.mod_small).
  destruct (ioapicwrite_run k (REG_TABLE + 2 * irq) lo) as (k1 & H1 & W1 & R1); [apply Hreg; unfold REG_TABLE; lia|].
  destruct (ioapicwrite_run k1 (REG_TABLE + 2 * irq + 1) hi) as (k2 & H2 & W2 & R2); [apply Hreg; unfold REG_TABLE; lia|].
  exists k2. split; [by run H1|]. split; [by eapply wrote_trans|]. unfold route.
  intros j. rewrite !R2, !R1. destruct (Z.eqb_spec j irq) as [->|Hne].
  - by rewrite !Z.eqb_refl, (proj2 (Z.eqb_neq (REG_TABLE + 2 * irq) (REG_TABLE + 2 * irq + 1))) by lia.
  - by rewrite !(proj2 (Z.eqb_neq _ _)) by lia.
Qed.

Lemma enable_all_run es : forall k, Forall (fun e => 0 <= e.1 < 256) es ->
  exists k', enable_all es k = Ret tt k' /\ wrote k k' /\
    forall irq d, route (io_regs k) irq = route_for irq d ->
      route (io_regs k') irq = route_for irq (foldl (fun d e => if e.1 =? irq then Some e.2 else d) d es).
Proof.
  induction es as [|[i c] es IH]; intros k Hes; [by exists k; split_and!; [|exists []; destruct k; unfold upd; cbn; by rewrite app_nil_r|]|].
  apply Forall_cons in Hes as [Hi Hes]. cbn in Hi. destruct (route_entry_run k i (T_IRQ0 + i) (Z.shiftl c 24) Hi) as (k1 & H1 & W1 & R1).
  destruct (IH k1 Hes) as (k' & H2 & W2 & R2). exists k'. split; [cbn [enable_all]; unfold ioapicenable; by run H1|]. split; [by eapply wrote_trans|].
  intros irq d Hd. cbn [foldl fst snd]. apply R2. rewrite R1, Z.eqb_sym. destruct (Z.eqb_spec i irq) as [->|]; [|done].
  cbn [route_for]. unfold route_to. by rewrite (proj1 (route_words irq Hi)).
Qed.

Lemma ioapicread_run k reg : io_answers regs -> u32 reg = reg -> exists k', ioapicread reg k = Ret (io_regs k reg) k' /\ wrote k k' /\ io_regs k' = io_regs k.
Proof.
  intros Hio Hr. unfold ioapicread, outw. rewrite Hr. mstep. rewrite Hio. eexists. rsimpl. rewrite io_state_app. cbn. split; [done|]. split; [by exists [(IOAPIC, reg)]|].
  unfold io_regs. rsimpl. by rewrite io_state_app.
Qed.

(** C27. Routing interrupts.  [ioapicinit] masks all [maxintr + 1] interrupts of
    the I/O APIC; after any sequence of [ioapicenable] calls, whatever the table
    held before, exactly the interrupts named in it are unmasked.  Read as the
    data sheet says, an entry is edge-triggered and active high with the vector 32
    + irq, and the destination of an unmasked one is the low byte of the
    processor number named last.  [maxintr < 224], since a vector has 8 bits, and
    [ioapicid] is the number that the controller shows. *)
Theorem ioapic_routes k (ioapicid maxintr : Z) (es : list (Z * Z)) :
  io_answers regs -> maxintr = Z.land (Z.shiftr (io_regs k REG_VER) 16) 0xFF -> maxintr < 224 -> ioapicid = Z.shiftr (io_regs k REG_ID) 24 ->
  Forall (fun e => 0 <= e.1 <= maxintr) es ->
  exists k', (ioapicinit ioapicid ;;; enable_all es) k = Ret tt k' /\ wrote k k' /\
    forall irq, 0 <= irq <= maxintr -> redirection_of (route (io_regs k') irq) = redirected irq (last_cpu es irq).
Proof.
  intros Hio -> Hm -> Hes. assert (Hmax : 0 <= Z.land (Z.shiftr (io_regs k REG_VER) 16) 0xFF) by (apply Z.land_nonneg; right; done). set (maxintr := Z.land _ _) in *.
  unfold ioapicinit. destruct (ioapicread_run k REG_VER Hio) as (k1 & H1 & W1 & R1); [done|]. destruct (ioapicread_run k1 REG_ID Hio) as (k2 & H2 & W2 & R2); [done|].
  destruct (each_ind (fun i k' => wrote k k' /\ forall irq, 0 <= irq < i -> route (io_regs k') irq = route_off irq) (Z.to_nat (maxintr + 1)) 0
    (fun i => ioapicwrite (REG_TABLE + 2 * i) (Z.lor INT_DISABLED (T_IRQ0 + i)) ;;; ioapicwrite (REG_TABLE + 2 * i + 1) 0) k2) as (k3 & H3 & W3 & R3).
  { split; [by eapply wrote_trans|intros; lia]. }
  { intros i k' Hi [W R]. destruct (route_entry_run k' i (Z.lor INT_DISABLED (T_IRQ0 + i)) 0) as (k'' & H & W' & R'); [lia|]. exists k''. split; [done|]. split; [by eapply wrote_trans|].
    intros irq Hirq. rewrite R'. destruct (Z.eqb_spec irq i) as [->|]; [|apply R; lia]. unfold route_off. by rewrite (proj2 (route_words i ltac:(lia))). }
  destruct (enable_all_run es k3) as (k4 & H4 & W4 & R4).
  { eapply Forall_impl; [exact Hes|]. cbn. lia. }
  exists k4. split; [|split; [by eapply wrote_trans|]].
  - erewrite bind_Ret; [exact H4|]. run H1. rewrite R1 in H2. run H2. rewrite Z.eqb_refl. cbn [negb when]. mstep. exact H3.
  - intros irq Hirq. rewrite (R4 irq None) by (apply R3; lia). apply redirection_for. lia.
Qed.
End ioapic.

(** ** The clock *)

(** The register selected last. *)
Definition cmos_sel (log : list (Z * Z)) : Z := foldl (fun s w => if w.1 =? CMOS_PORT then w.2 else s) 0 log.
Definition clock_answers {ports : Ports} (rtc : Z -> Z) : Prop := forall k, inb CMOS_RETURN k = Ret (rtc (cmos_sel (k_ports k))) k.

(** A number below 100 as the clock shows it. *)
Definition shown (bcd : bool) (v : Z) : Z := if bcd then 16 * (v / 10) + v mod 10 else v.
Record clock_shows (rtc : Z -> Z) (d : rtcdate) : Prop := {
  cs_idle : Z.land (rtc CMOS_STATA) CMOS_UIP = 0;
  cs_regs : forall reg v, (reg, v) ∈ [(SECS, second d); (MINS, minute d); (HOURS, hour d); (DAY, day d); (MONTH, month d); (YEAR, year d - 2000)] ->
    0 <= v < 100 /\ rtc reg = shown (Z.land (rtc CMOS_STATB) 4 =? 0) v }.

Section clock.
Context {fuel : Fuel} {ports : Ports} (rtc : Z -> Z) (Hrtc : clock_answers rtc).
Implicit Types (k : kernel).

Lemma cmos_read_run k reg : exists k', cmos_read reg k = Ret (rtc reg) k'.
Proof. unfold cmos_read. mstep. mstep. rewrite Hrtc. eexists. rsimpl. unfold cmos_sel. by rewrite foldl_app. Qed.

Lemma fill_rtcdate_run k : exists k', fill_rtcdate k = Ret (mkdate (rtc SECS) (rtc MINS) (rtc HOURS) (rtc DAY) (rtc MONTH) (rtc YEAR)) k'.
Proof.
  unfold fill_rtcdate. destruct (cmos_read_run k SECS) as [k1 H1]. run H1. destruct (cmos_read_run k1 MINS) as [k2 H2]. run H2. destruct (cmos_read_run k2 HOURS) as [k3 H3]. run H3.
  destruct (cmos_read_run k3 DAY) as [k4 H4]. run H4. destruct (cmos_read_run k4 MONTH) as [k5 H5]. run H5. destruct (cmos_read_run k5 YEAR) as [k6 H6]. run H6. by exists k6.
Qed.

Lemma CONV_shown v : 0 <= v < 100 -> CONV (shown true v) = v.
Proof. intros Hv. unfold CONV, shown. rewrite Z.shiftr_div_pow2 by lia. change 0xf with (2 ^ 4 - 1). rewrite land_ones_mod by lia. change (2 ^ 4) with 16. dlia. Qed.

(** The clock.  If the clock shows a date of this century, in binary or in
    binary-coded decimal as its status register says, and no update is in
    progress, [cmostime] returns this date. *)
Theorem cmostime_reads k d : clock_shows rtc d -> (0 < wakeups)%nat -> exists k', cmostime k = Ret d k'.
Proof.
  intros [Hidle Hregs] Hw. unfold cmostime. destruct (cmos_read_run k CMOS_STATB) as [k1 H1]. run H1. destruct (fill_rtcdate_run k1) as [k2 H2].
  destruct (cmos_read_run k2 CMOS_STATA) as [k3 H3]. destruct (fill_rtcdate_run k3) as [k4 H4].
  assert (Hl : cmos_loop wakeups k1 = Ret (mkdate (rtc SECS) (rtc MINS) (rtc HOURS) (rtc DAY) (rtc MONTH) (rtc YEAR)) k4).
  { destruct wakeups as [|w]; [lia|]. cbn [cmos_loop]. run H2. run H3. rewrite Hidle. cbn [negb Z.eqb]. run H4. by rewrite bool_decide_true. }
  run Hl. exists k4. cbn [second minute hour day month year]. change (Z.shiftl 1 2) with 4.
  destruct (Hregs SECS (second d)) as [? ->]; [set_solver|]. destruct (Hregs MINS (minute d)) as [? ->]; [set_solver|]. destruct (Hregs HOURS (hour d)) as [? ->]; [set_solver|].
  destruct (Hregs DAY (day d)) as [? ->]; [set_solver|]. destruct (Hregs MONTH (month d)) as [? ->]; [set_solver|]. destruct (Hregs YEAR (year d - 2000)) as [? ->]; [set_solver|].
  destruct (Z.land (rtc CMOS_STATB) 4 =? 0); cbn [second minute hour day month year]; rewrite ?CONV_shown by done; unfold mret, M_ret; f_equal; destruct d; cbn; f_equal; lia.
Qed.
End clock.

(** ** Starting a processor *)

Section start.
Context {ports : Ports} (Hind : forall a k, exists v, ind a k = Ret v k).
Implicit Types (k : kernel).

Lemma lapicw_run k lapic i v : lapicw lapic i v k = Ret tt (k <| k_ports ::= fun o => o ++ [(lapic + 4 * i, u32 v)] |>).
Proof.
  unfold lapicw. mstep. destruct (Hind (lapic + 4 * ID) (k <| k_ports ::= fun o => o ++ [(lapic + 4 * i, u32 v)] |>)) as [w Hw]. by run Hw.
Qed.

Lemma written_ports k f : k_ports (k <| k_ports ::= f |>) = f (k_ports k).
Proof. done. Qed.
Lemma written_mem k f : k_mem (k <| k_ports ::= f |>) = k_mem k.
Proof. done. Qed.

Lemma startup_ipi_run k lapic apicid addr :
  startup_ipi lapic apicid addr k = Ret tt (k <| k_ports ::= fun o => o ++ [(lapic + 4 * ICRHI, u32 (Z.shiftl apicid 24)); (lapic + 4 * ICRLO, u32 (Z.lor STARTUP (Z.shiftr addr 12)))] |>).
Proof. unfold startup_ipi. run lapicw_run. run lapicw_run. unfold microdelay, mret, M_ret. f_equal. destruct k; unfold upd; cbn. by rewrite <- app_assoc. Qed.

Lemma load16_store16 m a v : load16 (store16 m a v) a = v mod 65536.
Proof.
  unfold load16, store16. rewrite (store8_ne _ (a + 1)), !store8_eq by lia. rewrite Z.shiftr_div_pow2 by lia. unfold byte. change (2 ^ 8) with 256. dlia.
Qed.
Lemma load16_store16_ne m a b v : a + 2 <= b \/ b + 2 <= a -> load16 (store16 m a v) b = load16 m b.
Proof. intros H. unfold load16, store16. by rewrite !store8_ne by lia. Qed.

(** After [lapicstartap] for an address on a page boundary below 1 Mbyte, the
    warm reset vector names it as segment and offset, and the number of its page
    is in the last message sent. *)
Lemma lapicstartap_vector k lapic apicid addr : 0 <= addr < 0x100000 -> addr mod 4096 = 0 ->
  exists k', lapicstartap lapic apicid addr k = Ret tt k' /\ 16 * load16 (k_mem k') (P2V 0x469) + load16 (k_mem k') (P2V 0x467) = addr /\
    last (k_ports k') = Some (lapic + 4 * ICRLO, Z.lor STARTUP (addr / 4096)).
Proof.
  intros Ha Hal. unfold lapicstartap. mstep. mstep. mstep. mstep. set (wrv := P2V (Z.lor (Z.shiftl 64 4) 103)).
  match goal with |- exists k', (_ ;;; _) ?k0 = _ /\ _ => assert (Hm : k_mem k0 = store16 (store16 (k_mem k) wrv 0) (wrv + 2) (Z.shiftr addr 4)) by reflexivity; generalize dependent k0 end.
  intros k1 Hm. run lapicw_run. run lapicw_run. mstep. run lapicw_run. mstep. cbn [each]. run startup_ipi_run. run startup_ipi_run.
  eexists. split; [done|]. split.
  - rewrite !written_mem, Hm. change (P2V 0x469) with (wrv + 2). change (P2V 0x467) with wrv. rewrite load16_store16, load16_store16_ne, load16_store16, Z.shiftr_div_pow2 by lia. change (2 ^ 4) with 16. clear -Ha Hal. dlia.
  - rewrite written_ports, last_app. cbn [last]. rewrite Z.shiftr_div_pow2 by lia. change (2 ^ 12) with 4096. do 2 f_equal. rewrite u32_small; [done|].
    assert (H : forallb (fun n => (0 <=? Z.lor STARTUP n) && (Z.lor STARTUP n <? 2 ^ 32)) (seqZ 0 256) = true) by (vm_compute; reflexivity).
    rewrite forallb_forall in H. specialize (H (addr / 4096)). apply andb_true_iff in H as [?%Z.leb_le ?%Z.ltb_lt]; [done|].
    apply list_elem_of_In, elem_of_seqZ. clear -Ha. dlia.
Qed.
End start.

(** ** A machine with these devices *)

Definition regs24 (r : Z) : Z := if r =? REG_VER then 0x170011 else 0x99.
Definition rtc_bcd (r : Z) : Z :=
  if r =? SECS then 0x59 else if r =? MINS then 0x30 else if r =? HOURS then 0x23 else if r =? DAY then 0x31 else if r =? MONTH then 0x12 else if r =? YEAR then 0x19 else 0.
Definition apic_ports : Ports :=
  mkPorts (fun _ k => Ret (rtc_bcd (cmos_sel (k_ports k))) k) (fun _ k => Ret ((io_state regs24 (k_ports k)).2 (io_state regs24 (k_ports k)).1) k).

(** The keyboard to processor 0, the disk to processor 1. *)
Lemma ioapic_routes_witness :
  let _ := apic_ports in
  exists k', (ioapicinit 0 ;;; enable_all [(1, 0); (14, 0); (14, 1)]) (kernel0 0) = Ret tt k' /\
    redirection_of (route (io_regs regs24 k') 1) = mkredir 33 0 false false false false 0 /\
    redirection_of (route (io_regs regs24 k') 14) = mkredir 46 0 false false false false 1 /\
    redirection_of (route (io_regs regs24 k') 4) = mkredir 36 0 false false false true 0.
Proof.
  intros p. destruct (@ioapic_routes p regs24 (kernel0 0) 0 23 [(1, 0); (14, 0); (14, 1)]) as (k' & Hrun & _ & Hr).
  - intros k. reflexivity.
  - vm_compute. reflexivity.
  - lia.
  - vm_compute. reflexivity.
  - repeat constructor; discriminate.
  - exists k'. split; [exact Hrun|]. split; [rewrite Hr by lia; reflexivity|]. split; rewrite Hr by lia; reflexivity.
Defined.

Lemma cmostime_reads_witness :
  let _ := apic_ports in let _ : Fuel := 1%nat in exists k', cmostime (kernel0 0) = Ret (mkdate 59 30 23 31 12 2019) k'.
Proof.
  intros p w. apply (@cmostime_reads w p rtc_bcd ltac:(intros k; reflexivity) (kernel0 0) (mkdate 59 30 23 31 12 2019)).
  - split; [reflexivity|]. intros reg v Hin. repeat (apply elem_of_cons in Hin as [[= -> ->]|Hin]; [split; [vm_compute; split; [discriminate|reflexivity]|reflexivity]|]). by apply not_elem_of_nil in Hin.
  - unfold wakeups, w. lia.
Defined.
