(* ===== verification/User.v ===== *)
(** * User programs: system calls and the C library ([ulib.c], [printf.c])

    A user program sees the kernel through system calls.  What they answer is
    an interface: the world [W] outside the process, and one function that
    performs a call.  A run follows one process: [fork] answers 0 in the child
    and the pid of the child in the parent, as the world decides. *)

From S2P Require Import Prelude Console.
Open Scope Z_scope.

(** ** Runs *)

(** A C array indexed from 0; a C string is the list of its bytes up to NUL. *)
Notation str := (list Z).

Inductive call :=
  | Fork | Wait | Pipe | Getpid | Uptime | Halt | Toggle | Ps | PrintCount
  | Write (fd : Z) (data : list Z)
  | Read (fd n : Z)
  | Close (fd : Z) | Dup (fd : Z) | Fstat (fd : Z)
  | Kill (pid : Z) | Sleep (n : Z) | Sbrk (n : Z)
  | Exec (path : str) (argv : list str)
  | Open (path : str) (mode : Z)
  | Mknod (path : str) (major minor : Z)
  | Unlink (path : str) | Mkdir (path : str) | Chdir (path : str)
  | Link (old new : str)
  | GetContainerId | GetFileContainerId (path : str)
  | CreateContainer | DestroyContainer (id : Z) | JoinContainer (id : Z) | LeaveContainer
  | SchedulerLogOn | SchedulerLogOff | MemoryLogOn | MemoryLogOff
  | Send (from to : Z) (msg : list Z) | Recv
  | SendMulti (from : Z) (to : list Z) (msg : list Z) (len : Z) | RecvMulti
  | Signal (signum handler : Z) | Sigraise (pid signum : Z) | ChangeState (n : Z).

(** What a call gives back: its value, and what it stored for the caller. *)
Record reply := mkreply { rp_val : Z; rp_data : list Z }.

Class OS (W : Type) := trap : call -> W -> reply * W.

Inductive ures (W A : Type) :=
  | Got (a : A) (w : W)
  | Gone (w : W)          (* the process has left the program: [exit], or [exec] *)
  | Crash (why : string)  (* an access outside an array *)
  | Stuck.                (* out of fuel *)
Arguments Got {W A}.
Arguments Gone {W A}.
Arguments Crash {W A}.
Arguments Stuck {W A}.

Definition U (W A : Type) : Type := W -> ures W A.
#[export] Instance U_ret W : MRet (U W) := fun A a w => Got a w.
#[export] Instance U_bind W : MBind (U W) := fun A B f m w =>
  match m w with Got a w' => f a w' | Gone w' => Gone w' | Crash why => Crash why | Stuck => Stuck end.

Notation "m ;; k" := (mbind (M := U _) (fun _ => k) m) (at level 100, right associativity, only parsing).

Lemma u_Got {W A B} (m : U W A) (f : A -> U W B) w a w' : m w = Got a w' -> (m ≫= f) w = f a w'.
Proof. intros H. unfold mbind, U_bind. by rewrite H. Qed.
Lemma u_Gone {W A B} (m : U W A) (f : A -> U W B) w w' : m w = Gone w' -> (m ≫= f) w = Gone w'.
Proof. intros H. unfold mbind, U_bind. by rewrite H. Qed.

Ltac ustep := erewrite u_Got; [|reflexivity]; cbv beta iota.
Tactic Notation "urun" uconstr(lem) := erewrite u_Got; [|eapply lem]; cbv beta iota.

Section calls.
Context {W : Type} {os : OS W}.

Definition sys (c : call) : U W Z := fun w => let '(r, w') := trap c w in Got (rp_val r) w'.
Definition sys_data (c : call) : U W (Z * list Z) := fun w =>
  let '(r, w') := trap c w in Got (rp_val r, rp_data r) w'.
Definition uexit {A} : U W A := fun w => Gone w.
Definition crash {A} (why : string) : U W A := fun _ => Crash why.

(** A successful [exec] does not return. *)
Definition uexec (path : str) (argv : list str) : U W Z := fun w =>
  let '(r, w') := trap (Exec path argv) w in if rp_val r =? 0 then Gone w' else Got (rp_val r) w'.

Definition uwhen (b : bool) (m : U W unit) : U W unit := if b then m else mret tt.

(** Array accesses. *)
Definition urd {A} (l : list A) (i : Z) : U W A :=
  match aget l i with Some a => mret a | None => crash "read" end.
Definition uwr {A} (l : list A) (i : Z) (a : A) : U W (list A) :=
  match aset l i a with Some l' => mret l' | None => crash "write" end.

(** [data] stored in array [l] from index [i]. *)
Definition ustore (l : list Z) (i : Z) (data : list Z) : U W (list Z) :=
  if (0 <=? i) && (i + alen data <=? alen l) then
    mret (take (Z.to_nat i) l ++ data ++ drop (Z.to_nat i + length data) l)
  else crash "write".

(** [read(fd, l + i, n)]. *)
Definition uread (fd : Z) (l : list Z) (i n : Z) : U W (Z * list Z) :=
  '(r, data) ← sys_data (Read fd n);
  if r <=? 0 then mret (r, l)
  else l' ← ustore l i (take (Z.to_nat r) data); mret (r, l').
End calls.

(** ** [ulib.c] *)

Module Ulib.

Fixpoint strcmp (p q : str) : Z :=
  match p, q with
  | [], [] => 0
  | [], b :: _ => 0 - b
  | a :: _, [] => a
  | a :: p', b :: q' => if a =? b then strcmp p' q' else a - b
  end.

Definition strlen (s : str) : Z := alen s.

(** The index of [c] in [s]. *)
Fixpoint strchr (s : str) (c : Z) : option Z :=
  match s with
  | [] => None
  | a :: s' => if a =? c then Some 0 else Z.succ <$> strchr s' c
  end.
Definition isin (s : str) (c : Z) : bool := if strchr s c is Some _ then true else false.

Fixpoint atoi_loop (n : Z) (s : str) : Z :=
  match s with
  | [] => n
  | c :: s' => if (48 <=? c) && (c <=? 57) then atoi_loop (i32 (n * 10 + c - 48)) s' else n
  end.
Definition atoi (s : str) : Z := atoi_loop 0 s.

(** The C string that starts at index [i] of an array. *)
Fixpoint upto_nul (l : list Z) : option str :=
  match l with
  | [] => None
  | c :: l' => if c =? 0 then Some [] else cons c <$> upto_nul l'
  end.
Definition string_at (l : list Z) (i : Z) : option str :=
  if 0 <=? i then upto_nul (drop (Z.to_nat i) l) else None.

Section ulib.
Context {W : Type} {os : OS W}.

(** [strcpy(l + i, t)] and [memset(l + i, c, n)]. *)
Definition strcpy (l : list Z) (i : Z) (t : str) : U W (list Z) := ustore l i (t ++ [0]).
Definition memset (l : list Z) (i c n : Z) : U W (list Z) := ustore l i (replicate (Z.to_nat (u32 n)) (c mod 256)).

(** [memmove(l + i, src + j, n)] copies upwards. *)
Fixpoint memmove_loop (n : nat) (l : list Z) (i j : Z) : U W (list Z) :=
  match n with
  | O => mret l
  | S n' => c ← urd l j; l' ← uwr l i c; memmove_loop n' l' (i + 1) (j + 1)
  end.
Definition memmove (l : list Z) (i j n : Z) : U W (list Z) := memmove_loop (Z.to_nat n) l i j.

(** Each round reads one byte: [max] rounds are enough. *)
Fixpoint gets_loop (fuel : nat) (buf : list Z) (i max : Z) : U W (list Z) :=
  if i + 1 <? max then
    match fuel with
    | O => fun _ => Stuck
    | S fuel' =>
        '(cc, d) ← sys_data (Read 0 1);
        if cc <? 1 then uwr buf i 0
        else
          c ← urd d 0;
          buf ← uwr buf i c;
          if (c =? 10) || (c =? 13) then uwr buf (i + 1) 0
          else gets_loop fuel' buf (i + 1) max
    end
  else uwr buf i 0.
Definition gets (buf : list Z) (max : Z) : U W (list Z) := gets_loop (Z.to_nat max) buf 0 max.

Definition stat (n : str) : U W (Z * list Z) :=
  fd ← sys (Open n 0);
  if fd <? 0 then mret (-1, [])
  else
    r ← sys_data (Fstat fd);
    sys (Close fd) ;;
    mret r.
End ulib.
End Ulib.

(** ** [printf.c] *)

Module Printf.

Definition digits : list Z := bytes "0123456789ABCDEF".

Fixpoint print_digits (fuel : nat) (x base : Z) (buf : list Z) : option (list Z) :=
  match fuel with
  | O => None
  | S fuel' =>
      match aget digits (x mod base) with
      | Some d => if x / base =? 0 then Some (d :: buf) else print_digits fuel' (x / base) base (d :: buf)
      | None => None
      end
  end.

(** The characters of [printint], newest first, in a buffer of 16. *)
Definition printint_chars (xx base sgn : Z) : option (list Z) :=
  let neg := negb (sgn =? 0) && (i32 xx <? 0) in
  let x := u32 (if neg then - xx else xx) in
  match print_digits 33 x base [] with
  | Some ds =>
      let out := if neg then 45 :: ds else ds in
      if alen out <=? 16 then Some out else None
  | None => None
  end.

Section printf.
Context {W : Type} {os : OS W}.

Definition putc (fd c : Z) : U W unit := sys (Write fd [c mod 256]) ;; mret tt.
Fixpoint puts (fd : Z) (s : str) : U W unit :=
  match s with [] => mret tt | c :: s' => putc fd c ;; puts fd s' end.

Definition printint (fd xx base sgn : Z) : U W unit :=
  match printint_chars xx base sgn with
  | Some out => puts fd out
  | None => crash "printint: buf"
  end.

(** The loop over the format; [pct]: the last character was a percent sign. *)
Fixpoint printf_loop (fd : Z) (pct : bool) (fmt : str) (args : list carg) : U W unit :=
  match fmt with
  | [] => mret tt
  | c :: fmt' =>
      if negb pct then
        if c =? 37 then printf_loop fd true fmt' args
        else putc fd c ;; printf_loop fd false fmt' args
      else if c =? 100 then
        match args with
        | AInt z :: args' => printint fd z 10 1 ;; printf_loop fd false fmt' args'
        | _ => crash "printf: argument"
        end
      else if (c =? 120) || (c =? 112) then
        match args with
        | AInt z :: args' => printint fd z 16 0 ;; printf_loop fd false fmt' args'
        | _ => crash "printf: argument"
        end
      else if c =? 115 then
        match args with
        | AStr s :: args' => puts fd (default (bytes "(null)") s) ;; printf_loop fd false fmt' args'
        | _ => crash "printf: argument"
        end
      else if c =? 99 then
        match args with
        | AInt z :: args' => putc fd z ;; printf_loop fd false fmt' args'
        | _ => crash "printf: argument"
        end
      else if c =? 37 then putc fd c ;; printf_loop fd false fmt' args
      else putc fd 37 ;; putc fd c ;; printf_loop fd false fmt' args
  end.
Definition printf (fd : Z) (fmt : str) (args : list carg) : U W unit := printf_loop fd false fmt args.
End printf.
End Printf.
