(* ===== verification/Umalloc.v ===== *)
(** * The user allocator ([umalloc.c])

    Kernighan and Ritchie's allocator: the free blocks are a circular list in
    address order that starts at the static [base].  Memory is seen at the
    granularity of headers: a header is a pair of its fields [ptr] and [size],
    and takes 8 bytes, which is the unit of sizes. *)

From S2P Require Import Prelude State User.
Open Scope Z_scope.

Record heap := mkheap { h_mem : gmap Z (Z * Z); h_freep : Z }.

Section malloc.
Context {W : Type} {os : OS W} {fuel : Fuel} (base : Z).
Implicit Types (h : heap) (p bp : Z).

Definition hdr h p : U W (Z * Z) :=
  match h_mem h !! p with Some x => mret x | None => crash "header" end.
Definition fields h p : Z * Z := default (0, 0) (h_mem h !! p).
Definition set_ptr h p (v : Z) : heap := mkheap (<[p := (v, (fields h p).2)]> (h_mem h)) (h_freep h).
Definition set_size h p (v : Z) : heap := mkheap (<[p := ((fields h p).1, v)]> (h_mem h)) (h_freep h).
Definition set_freep h p : heap := mkheap (h_mem h) p.

(** [p + n], with [n] a number of headers. *)
Definition hadd (p n : Z) : Z := u32 (p + 8 * n).

(** The block after which [bp] belongs. *)
Fixpoint free_find (f : nat) h bp p : U W Z :=
  match f with
  | O => fun _ => Stuck
  | S f' =>
      '(next, _) ← hdr h p;
      if (p <? bp) && (bp <? next) then mret p
      else if (next <=? p) && ((p <? bp) || (bp <? next)) then mret p
      else free_find f' h bp next
  end.

Definition free h (ap : Z) : U W heap :=
  let bp := hadd ap (-1) in
  p ← free_find wakeups h bp (h_freep h);
  '(next, _) ← hdr h p;
  '(_, bsize) ← hdr h bp;
  h ←
    (if hadd bp bsize =? next then
       '(nnext, nsize) ← hdr h next;
       mret (set_ptr (set_size h bp (u32 (bsize + nsize))) bp nnext)
     else mret (set_ptr h bp next));
  '(_, psize) ← hdr h p;
  h ←
    (if hadd p psize =? bp then
       '(bptr, bsize) ← hdr h bp;
       mret (set_ptr (set_size h p (u32 (psize + bsize))) p bptr)
     else mret (set_ptr h p bp));
  mret (set_freep h p).

Definition morecore h (nu : Z) : U W (Z * heap) :=
  let nu := if nu <? 4096 then 4096 else nu in
  p ← sys (Sbrk (i32 (nu * 8)));
  if p =? -1 then mret (0, h)
  else
    h ← free (set_size h p nu) (hadd p 1);
    mret (h_freep h, h).

(** The search of [malloc]: [p] is the candidate and [prevp] the block before it. *)
Fixpoint malloc_loop (f : nat) h (nunits prevp p : Z) : U W (Z * heap) :=
  match f with
  | O => fun _ => Stuck
  | S f' =>
      '(next, size) ← hdr h p;
      if nunits <=? size then
        if size =? nunits then mret (hadd p 1, set_freep (set_ptr h prevp next) prevp)
        else
          let h := set_size h p (size - nunits) in
          let p := hadd p (size - nunits) in
          let h := set_size h p nunits in
          mret (hadd p 1, set_freep h prevp)
      else if p =? h_freep h then
        '(p, h) ← morecore h nunits;
        if p =? 0 then mret (0, h)
        else '(next, _) ← hdr h p; malloc_loop f' h nunits p next
      else malloc_loop f' h nunits p next
  end.

Definition units (nbytes : Z) : Z := u32 (u32 (nbytes + 8 - 1) / 8 + 1).

Definition malloc h (nbytes : Z) : U W (Z * heap) :=
  let nunits := units nbytes in
  let h :=
    if h_freep h =? 0 then set_size (set_freep (set_ptr h base base) base) base 0 else h in
  '(next, _) ← hdr h (h_freep h);
  malloc_loop wakeups h nunits (h_freep h) next.
End malloc.
