(* ===== verification/UmallocSpec.v ===== *)
(** * The user allocator hands out disjoint blocks and loses none

    The free list is a ring in address order; whatever the sequence of calls,
    the free blocks and the blocks in use are disjoint and make up exactly the
    memory that came from [sbrk]. *)

From S2P Require Import Prelude State User Umalloc.
Open Scope Z_scope.

(** What the allocator relies on: [sbrk] fails or moves the break, which stays
    below the kernel. *)
Class Brk {W : Type} (os : OS W) := {
  brk : W -> Z;
  brk_sbrk : forall n w r w', 0 < n -> trap (Sbrk n) w = (r, w') ->
    (rp_val r = -1 /\ brk w' = brk w) \/ (rp_val r = brk w /\ brk w' = brk w + n /\ brk w' <= 2 ^ 31) }.

(** ** Rings *)

Section rings.
Notation node := (Z * Z)%type.
Implicit Types (m : gmap Z node) (x y z : node) (L : list node) (e : Z).

(** The nodes [x :: L] are linked in this order, the last one to [e]. *)
Fixpoint segto m x L e : Prop :=
  match L with
  | [] => m !! x.1 = Some (e, x.2)
  | y :: L' => m !! x.1 = Some (y.1, x.2) /\ segto m y L' e
  end.
Definition first L e : Z := match L with [] => e | y :: _ => y.1 end.
Fixpoint lst x L : node := match L with [] => x | y :: L' => lst y L' end.

Lemma segto_app m x L y L' e : segto m x (L ++ y :: L') e <-> segto m x L y.1 /\ segto m y L' e.
Proof. revert x. induction L as [|z L IH]; intros x; cbn [app segto]; [done|]. rewrite IH. tauto. Qed.

Lemma segto_first m x L e : segto m x L e -> m !! x.1 = Some (first L e, x.2).
Proof. destruct L; [done|]. by intros [? _]. Qed.

Lemma segto_frame m m' x L e :
  (forall a, a ∈ (x :: L).*1 -> m' !! a = m !! a) -> segto m x L e -> segto m' x L e.
Proof.
  revert x. induction L as [|y L IH]; intros x Hm; cbn [segto].
  - rewrite Hm; [done|]. by left.
  - intros [H1 H2]. rewrite Hm by (by left). split; [done|]. apply IH; [|done]. intros a Ha. apply Hm. by right.
Qed.

Lemma segto_insert m x L e a v : a ∉ (x :: L).*1 -> segto m x L e -> segto (<[a := v]> m) x L e.
Proof. intros Ha. apply segto_frame. intros b Hb. apply lookup_insert_ne. by intros ->. Qed.

Lemma lst_app x L y L' : lst x (L ++ y :: L') = lst y L'.
Proof. revert x. induction L as [|z L IH]; intros x; cbn [app lst]; [done|apply IH]. Qed.

Lemma lst_in x L : lst x L ∈ x :: L.
Proof. revert x. induction L as [|y L IH]; intros x; [by left|]. right. apply IH. Qed.

Lemma segto_end m x L e : segto m x L e -> segto m x L e /\ m !! (lst x L).1 = Some (e, (lst x L).2).
Proof. revert x. induction L as [|y L IH]; intros x H; [done|]. split; [done|]. cbn [lst]. by apply IH, H. Qed.

(** The last link is changed, with the size of the last node. *)
Lemma segto_last m x L e e' s : NoDup (x :: L).*1 -> segto m x L e -> s = (lst x L).2 ->
  segto (<[(lst x L).1 := (e', s)]> m) x L e'.
Proof.
  revert x. induction L as [|y L IH]; intros x Hnd Hs ->; cbn [segto lst] in *.
  - apply lookup_insert_eq.
  - destruct Hs as [H1 H2]. cbn [fmap list_fmap] in Hnd. apply NoDup_cons in Hnd as [Hx Hnd]. split; [|by apply IH].
    rewrite lookup_insert_ne; [done|]. intros Heq. apply Hx. rewrite <- Heq. change (y.1 :: L.*1) with ((y :: L).*1).
    apply list_elem_of_fmap. exists (lst y L). split; [done|apply lst_in].
Qed.

(** Addresses go up: each block ends before the next one starts, with a gap. *)
Fixpoint chain (from : Z) L (top : Z) : Prop :=
  match L with
  | [] => from <= top
  | y :: L' => from < y.1 /\ 0 < y.2 /\ chain (y.1 + 8 * y.2) L' top
  end.

Lemma chain_app from L y L' top : chain from (L ++ y :: L') top <->
  chain from L (y.1 - 1) /\ 0 < y.2 /\ chain (y.1 + 8 * y.2) L' top.
Proof.
  revert from. induction L as [|z L IH]; intros from; cbn [app chain].
  - split; intros (? & ? & ?); split_and!; (done || lia).
  - rewrite IH. tauto.
Qed.

Lemma chain_bounds from L top x : chain from L top -> x ∈ L -> from < x.1 /\ 0 < x.2 /\ x.1 + 8 * x.2 <= top.
Proof.
  revert from. induction L as [|y L IH]; intros from Hc Hx; [by apply elem_of_nil in Hx|].
  destruct Hc as (H1 & H2 & H3). assert (Hup : y.1 + 8 * y.2 <= top).
  { clear -H3. revert H3. generalize (y.1 + 8 * y.2). induction L as [|z L IH]; intros from; cbn [chain]; [done|].
    intros (H1 & H2 & H3). apply IH in H3. lia. }
  apply elem_of_cons in Hx as [->|Hx]; [lia|]. destruct (IH _ H3 Hx). lia.
Qed.

Lemma chain_le from L top top' : chain from L top -> top <= top' -> chain from L top'.
Proof. revert from. induction L as [|y L IH]; intros from; cbn [chain]; [lia|]. naive_solver. Qed.
Lemma chain_top from L top : chain from L top -> from <= top.
Proof. revert from. induction L as [|y L IH]; intros from; cbn [chain]; [done|]. intros (H1 & H2 & H3%IH). lia. Qed.

Lemma chain_last x L top top' : chain (x.1 + 8 * x.2) L top -> (lst x L).1 + 8 * (lst x L).2 <= top' ->
  chain (x.1 + 8 * x.2) L top'.
Proof. revert x. induction L as [|y L IH]; intros x; cbn [chain lst]; [done|]. intros (H1 & H2 & H3) H. auto. Qed.

Lemma chain_NoDup x L top : chain (x.1 + 8 * x.2) L top -> 0 <= x.2 -> NoDup (x :: L).*1.
Proof.
  revert x. induction L as [|y L IH]; intros x Hc Hx; [apply NoDup_singleton|].
  cbn [fmap list_fmap]. apply NoDup_cons. split.
  - change (x.1 ∉ (y :: L).*1). intros (z & Hz & Hin)%list_elem_of_fmap. apply (chain_bounds _ _ _ _ Hc) in Hin. lia.
  - destruct Hc as (H1 & H2 & H3). apply (IH y); [done|lia].
Qed.

(** The blocks below and above an address that is in none of them. *)
Lemma chain_split from L top b : chain from L top -> (forall x, x ∈ L -> x.1 <> b) ->
  exists L1 L2, L = L1 ++ L2 /\ (forall x, x ∈ L1 -> x.1 < b) /\ (forall x, x ∈ L2 -> b < x.1).
Proof.
  revert from. induction L as [|y L IH]; intros from Hc Hb.
  { exists [], []. split_and!; [done|by intros x ?%elem_of_nil..]. }
  pose proof Hc as (H1 & H2 & H3). destruct (Z.lt_total y.1 b) as [Hlt|[Heq|Hgt]].
  - destruct (IH _ H3) as (L1 & L2 & -> & Ha & Hb'); [intros; apply Hb; by right|].
    exists (y :: L1), L2. split_and!; [done| |done]. intros x [->|Hx]%elem_of_cons; auto.
  - exfalso. by apply (Hb y); [left|].
  - exists [], (y :: L). split_and!; [done|by intros x ?%elem_of_nil|]. intros x [->|Hx]%elem_of_cons; [done|].
    apply (chain_bounds _ _ _ _ H3) in Hx. lia.
Qed.
End rings.

(** ** Freeing a block *)

Definition bytes_of (x : Z * Z) : list Z := seqZ x.1 (8 * x.2).
Definition all_bytes (L : list (Z * Z)) : list Z := concat (bytes_of <$> L).

Lemma all_bytes_app L L' : all_bytes (L ++ L') = all_bytes L ++ all_bytes L'.
Proof. unfold all_bytes. by rewrite fmap_app, concat_app. Qed.
Lemma all_bytes_cons x L : all_bytes (x :: L) = bytes_of x ++ all_bytes L.
Proof. done. Qed.
Lemma elem_of_bytes a x : a ∈ bytes_of x <-> x.1 <= a < x.1 + 8 * x.2.
Proof. unfold bytes_of. rewrite elem_of_seqZ. done. Qed.
Lemma elem_of_all_bytes a L x : x ∈ L -> a ∈ bytes_of x -> a ∈ all_bytes L.
Proof.
  intros Hx Ha. apply list_elem_of_split in Hx as (L1 & L2 & ->). rewrite all_bytes_app, all_bytes_cons, !elem_of_app. tauto.
Qed.
Lemma all_bytes_inv a L : a ∈ all_bytes L -> exists x, x ∈ L /\ a ∈ bytes_of x.
Proof.
  induction L as [|y L IH]; [by intros ?%elem_of_nil|]. rewrite all_bytes_cons. intros [H|H]%elem_of_app.
  - exists y. split; [by left|done].
  - destruct (IH H) as (x & Hx & Ha). exists x. split; [by right|done].
Qed.
Lemma bytes_join a n n' : 0 <= n -> 0 <= n' -> bytes_of (a, n + n') = bytes_of (a, n) ++ bytes_of (a + 8 * n, n').
Proof. intros H H'. unfold bytes_of. cbn [fst snd]. rewrite <- seqZ_app by lia. f_equal. lia. Qed.

Section free.
Context {W : Type} {os : OS W} {fuel : Fuel} (base : Z).
Notation node := (Z * Z)%type.
Implicit Types (h : heap) (m : gmap Z node) (x y z b : node) (L : list node) (w : W) (f : nat).

Lemma hdr_ok h p v w : h_mem h !! p = Some v -> hdr h p w = Got v w.
Proof. intros H. unfold hdr. by rewrite H. Qed.
Lemma fields_ok h p v : h_mem h !! p = Some v -> fields h p = v.
Proof. intros H. unfold fields. by rewrite H. Qed.

Definition tailto m L e : Prop := match L with [] => True | z :: L' => segto m z L' e end.

Lemma segto_split m x L L' e : segto m x (L ++ L') e <-> segto m x L (first L' e) /\ tailto m L' e.
Proof. destruct L' as [|z L']; [rewrite app_nil_r; cbn; tauto|]. apply segto_app. Qed.

Lemma tailto_insert m L e a v : a ∉ L.*1 -> tailto m L e -> tailto (<[a := v]> m) L e.
Proof. destruct L as [|z L]; [done|]. apply segto_insert. Qed.

(** [free]'s search goes on from [p] to [next]. *)
Definition passes (bp p next : Z) : Prop := (p < next < bp) \/ (bp < p < next) \/ (bp < p /\ next < bp).

Fixpoint all_pass (bp : Z) x L e : Prop :=
  match L with [] => passes bp x.1 e | y :: L' => passes bp x.1 y.1 /\ all_pass bp y L' e end.

Lemma find_pass f h bp x L e w : segto (h_mem h) x L e -> all_pass bp x L e ->
  free_find (S (length L) + f) h bp x.1 w = free_find f h bp e w.
Proof.
  revert x. induction L as [|y L IH]; intros x Hs Hp; cbn [length Nat.add free_find segto all_pass] in *.
  - urun (hdr_ok h x.1 _ w Hs). unfold passes in Hp.
    destruct (Z.ltb_spec x.1 bp), (Z.ltb_spec bp e), (Z.leb_spec e x.1); cbn [andb orb]; (done || lia).
  - destruct Hs as [H1 H2], Hp as [H3 H4]. urun (hdr_ok h x.1 _ w H1). unfold passes in H3.
    destruct (Z.ltb_spec x.1 bp), (Z.ltb_spec bp y.1), (Z.leb_spec y.1 x.1); cbn [andb orb]; (lia || by apply IH).
Qed.

Lemma find_stop f h bp p next s w : h_mem h !! p = Some (next, s) -> p < bp -> (bp < next \/ next <= p) ->
  free_find (S f) h bp p w = Got p w.
Proof.
  intros H Hp Hn. cbn [free_find]. urun (hdr_ok h p _ w H).
  destruct (Z.ltb_spec p bp), (Z.ltb_spec bp next), (Z.leb_spec next p); cbn [andb orb]; (done || lia).
Qed.

Lemma find_below f h bp x L e top w : segto (h_mem h) x L e -> chain (x.1 + 8 * x.2) L top -> 0 <= x.2 ->
  (forall y, y ∈ L -> y.1 < bp) -> free_find (length L + f) h bp x.1 w = free_find f h bp (lst x L).1 w.
Proof.
  revert x. induction L as [|y L IH]; intros x Hs Hc Hx Hb; [done|]. destruct Hs as [H1 H2], Hc as (H3 & H4 & H5).
  cbn [length lst Nat.add]. rewrite <- IH; [|done|done|lia|intros; apply Hb; by right].
  apply (find_pass (length L + f) h bp x [] y.1 w); [done|]. left. split; [lia|]. apply Hb. by left.
Qed.

Lemma pass_above bp from x L top : chain from (x :: L) top -> (forall y, y ∈ x :: L -> bp < y.1) -> base < bp ->
  all_pass bp x L base.
Proof.
  revert x from. induction L as [|y L IH]; intros x from Hc Hb Hbase; cbn [all_pass].
  - right. right. split; [|done]. apply Hb. by left.
  - destruct Hc as (H1 & H2 & H3). pose proof H3 as (H4 & H5 & H6). split.
    + right. left. split; [apply Hb; by left|lia].
    + apply (IH y (x.1 + 8 * x.2)); [done| |done]. intros z Hz. apply Hb. by right.
Qed.

(** The search ends at the last block below [bp], wherever it starts. *)
Section find.
Context h (bp : Z) (La Lb : list node) (top : Z) w.
Context (Hs : segto (h_mem h) (base, 0) (La ++ Lb) base) (Hc : chain base (La ++ Lb) top) (Hbase : base < bp).
Context (Ha : forall x, x ∈ La -> x.1 < bp) (Hb : forall x, x ∈ Lb -> bp < x.1).
Notation y := (lst (base, 0) La).

Lemma chain_La : exists t, chain base La t.
Proof.
  pose proof Hc as H. destruct Lb as [|z L]; [rewrite app_nil_r in H; by exists top|]. apply chain_app in H as [H _]. eauto.
Qed.

Lemma pred_bounds : base <= y.1 < bp /\ 0 <= y.2 /\ h_mem h !! y.1 = Some (first Lb base, y.2).
Proof.
  destruct chain_La as [t Ht]. pose proof Hs as [H _]%segto_split. apply segto_end in H as [_ H]. split_and!; [..|done];
    pose proof (lst_in (base, 0) La) as [E|E]%elem_of_cons; try (rewrite E; cbn; lia);
    pose proof (chain_bounds _ _ _ _ Ht E); pose proof (Ha _ E); lia.
Qed.

Lemma find_here f : (1 <= f)%nat -> free_find f h bp y.1 w = Got y.1 w.
Proof.
  intros Hf. destruct f as [|f]; [lia|]. destruct pred_bounds as (H1 & H2 & H3). eapply find_stop; [done|lia|].
  destruct Lb as [|z L]; cbn [first]; [right; lia|left; apply Hb; by left].
Qed.

Lemma find_low x A B f : (base, 0) :: La = A ++ x :: B -> (length La < f)%nat -> free_find f h bp x.1 w = Got y.1 w.
Proof.
  intros E Hf. destruct chain_La as [t Ht]. pose proof Hs as [H _]%segto_split.
  assert (segto (h_mem h) x B (first Lb base) /\ chain (x.1 + 8 * x.2) B t /\
      0 <= x.2 /\ y = lst x B /\ (length B <= length La)%nat /\ (forall z, z ∈ B -> z ∈ La)) as
      (H1 & H2 & H3 & Hy & H4 & H5).
  { destruct A as [|a A]; injection E as Ex EB.
    - subst x B. split_and!; try done. cbn. by rewrite Z.add_0_r.
    - rewrite EB in H, Ht |- *. apply segto_app in H as [_ H]. apply chain_app in Ht as (_ & ? & Ht).
      rewrite lst_app, length_app. cbn [length]. split_and!; try done; try lia.
      intros z Hz. apply elem_of_app. right. by right. }
  replace f with (length B + (f - length B))%nat by lia. rewrite (find_below _ _ _ _ _ _ t _ H1 H2 H3) by auto.
  rewrite <- Hy. apply find_here. lia.
Qed.

Lemma find_ok : h_freep h ∈ base :: (La ++ Lb).*1 -> (2 * length (La ++ Lb) + 3 <= wakeups)%nat ->
  free_find wakeups h bp (h_freep h) w = Got y.1 w.
Proof.
  intros Hfp Hf. rewrite length_app in Hf.
  assert (Hcase : h_freep h ∈ ((base, 0) :: La).*1 \/ h_freep h ∈ Lb.*1).
  { rewrite fmap_app in Hfp. apply elem_of_cons in Hfp as [->|Hfp]; [left; by left|].
    apply elem_of_app in Hfp as [?|?]; [left; by right|by right]. }
  destruct Hcase as [(x & -> & Hx)%list_elem_of_fmap|(x & -> & Hx)%list_elem_of_fmap];
    apply list_elem_of_split in Hx as (A & B & E); [by eapply find_low; [done|lia]|].
  pose proof Hs as [_ Ht]%segto_split. rewrite E in Ht.
  assert (HsB : segto (h_mem h) x B base) by (destruct A; [done|by apply segto_app in Ht as [_ ?]]).
  assert (HcB : exists from, chain from (x :: B) top).
  { pose proof Hc as Hc'. rewrite E, app_assoc in Hc'. destruct (La ++ A) as [|a A'] eqn:EA; [by exists base|].
    apply chain_app in Hc' as (H1 & H2 & H3). exists (x.1 - 1). cbn [chain]. split_and!; [lia|done..]. }
  destruct HcB as [from HcB]. rewrite E, length_app in Hf. cbn [length] in Hf.
  replace wakeups with (S (length B) + (wakeups - S (length B)))%nat by lia.
  rewrite (find_pass _ h bp x B base w HsB); [|eapply pass_above; [done| |done]; intros z Hz; apply Hb; rewrite E; apply elem_of_app; by right].
  apply (find_low (base, 0) [] La); [done|lia].
Qed.
End find.

Lemma hadd_small p n : 0 <= p + 8 * n < 2 ^ 32 -> hadd p n = p + 8 * n.
Proof. apply u32_small. Qed.

(** The block is joined with the next one when they touch. *)
Lemma join_next h b bq Lb hi w :
  h_mem h !! b.1 = Some (bq, b.2) -> tailto (h_mem h) Lb base -> chain (b.1 + 8 * b.2 - 1) Lb hi ->
  0 < base < b.1 -> 0 < b.2 -> b.1 + 8 * b.2 <= hi <= 2 ^ 31 ->
  exists bn Lc h1,
    (if hadd b.1 b.2 =? first Lb base then
       '(nnext, nsize) ← hdr h (first Lb base);
       mret (set_ptr (set_size h b.1 (u32 (b.2 + nsize))) b.1 nnext)
     else mret (set_ptr h b.1 (first Lb base))) w = Got h1 w /\
    bn.1 = b.1 /\ b.2 <= bn.2 /\ h_freep h1 = h_freep h /\
    h_mem h1 = <[b.1 := (first Lc base, bn.2)]> (h_mem h) /\
    tailto (h_mem h) Lc base /\ chain (b.1 + 8 * bn.2) Lc hi /\
    bytes_of bn ++ all_bytes Lc = bytes_of b ++ all_bytes Lb /\ (Lc = Lb \/ exists z, Lb = z :: Lc).
Proof.
  intros Hm Ht Hc Hbase Hs Hhi. rewrite hadd_small by lia.
  destruct (Z.eqb_spec (b.1 + 8 * b.2) (first Lb base)) as [E|E].
  - destruct Lb as [|z L]; [cbn [first] in E; lia|]. cbn [first tailto] in *. destruct Hc as (H1 & H2 & H3).
    apply segto_first in Ht as Hz. urun (hdr_ok h z.1 _ w Hz). apply chain_top in H3 as H4.
    rewrite u32_small by lia. exists (b.1, b.2 + z.2), L. eexists. split; [reflexivity|]. cbn [fst snd].
    split_and!; try done; try lia; [..|by right; exists z].
    + unfold set_ptr, set_size, fields. cbn [h_mem h_freep]. rewrite lookup_insert_eq. cbn [default snd]. apply insert_insert_eq.
    + destruct L as [|z' L]; [done|]. by destruct Ht.
    + replace (b.1 + 8 * (b.2 + z.2)) with (z.1 + 8 * z.2) by lia. done.
    + rewrite bytes_join by lia. rewrite all_bytes_cons, app_assoc, E. by destruct z.
  - exists b, Lb. eexists. split; [reflexivity|]. split_and!; try done; [..|by left].
    + unfold set_ptr. cbn [h_mem]. by rewrite (fields_ok _ _ _ Hm).
    + destruct Lb as [|z L]; cbn [chain first] in *; [lia|]. destruct Hc as (H1 & H2 & H3). split_and!; (done || lia).
Qed.

(** The block is joined with the previous one when they touch. *)
Lemma join_prev h b y bptr yq w :
  h_mem h !! b.1 = Some (bptr, b.2) -> h_mem h !! y.1 = Some (yq, y.2) -> 0 <= y.1 -> 0 <= y.2 -> 0 < b.2 ->
  y.1 + 8 * y.2 <= b.1 -> b.1 + 8 * b.2 <= 2 ^ 31 ->
  exists h2, ('(_, psize) ← hdr h y.1;
      h ←
        (if hadd y.1 psize =? b.1 then
           '(bptr, bsize) ← hdr h b.1;
           mret (set_ptr (set_size h y.1 (u32 (psize + bsize))) y.1 bptr)
         else mret (set_ptr h y.1 b.1));
      mret (set_freep h y.1)) w = Got h2 w /\ h_freep h2 = y.1 /\
    h_mem h2 = if decide (y.1 + 8 * y.2 = b.1) then <[y.1 := (bptr, y.2 + b.2)]> (h_mem h)
               else <[y.1 := (b.1, y.2)]> (h_mem h).
Proof.
  intros Hb Hy H1 H2 H3 H4 H5. urun (hdr_ok h y.1 _ w Hy). rewrite hadd_small by lia.
  destruct (Z.eqb_spec (y.1 + 8 * y.2) b.1) as [E|E].
  - rewrite decide_True by done. eexists. split.
    { erewrite u_Got; [|urun (hdr_ok h b.1 _ w Hb); reflexivity]. reflexivity. }
    split; [done|]. unfold set_freep, set_ptr, set_size, fields. cbn [h_mem h_freep].
    rewrite lookup_insert_eq. cbn [default snd]. rewrite u32_small by lia. apply insert_insert_eq.
  - rewrite decide_False by done. eexists. split; [reflexivity|]. split; [done|].
    unfold set_freep, set_ptr. cbn [h_mem]. by rewrite (fields_ok _ _ _ Hy).
Qed.

Record ring_ok h L (hi : Z) : Prop := {
  ring_links : segto (h_mem h) (base, 0) L base;
  ring_freep : h_freep h ∈ base :: L.*1;
  ring_chain : chain base L hi }.

Lemma chain_from from from' x L top : chain from (x :: L) top -> from' < x.1 -> chain from' (x :: L) top.
Proof. intros (H1 & H2 & H3) H. done. Qed.

Lemma chain_parts La x Lc top : chain base (La ++ x :: Lc) top ->
  NoDup ((base, 0) :: La).*1 /\ (forall a, a ∈ ((base, 0) :: La).*1 -> a ∉ (x :: Lc).*1) /\ x.1 ∉ Lc.*1.
Proof.
  intros Hc. pose proof (chain_NoDup (base, 0) (La ++ x :: Lc) top) as Hnd. cbn [fst snd] in Hnd.
  rewrite Z.mul_0_r, Z.add_0_r in Hnd. specialize (Hnd Hc ltac:(lia)).
  change (((base, 0) :: La ++ x :: Lc).*1) with ((((base, 0) :: La) ++ x :: Lc).*1) in Hnd. rewrite fmap_app in Hnd.
  apply NoDup_app in Hnd as (N1 & N2 & N3). cbn [fmap list_fmap] in N3. apply NoDup_cons in N3 as [N4 N5]. done.
Qed.

(** Linking a block between [La] and [Lc]. *)
Lemma link_between m La Lc bn e top : segto m (base, 0) La e -> tailto m Lc base -> chain base (La ++ bn :: Lc) top ->
  let y := lst (base, 0) La in
  segto (<[y.1 := (bn.1, y.2)]> (<[bn.1 := (first Lc base, bn.2)]> m)) (base, 0) (La ++ bn :: Lc) base.
Proof.
  intros Hs Ht Hc y. destruct (chain_parts La bn Lc top Hc) as (N1 & N2 & N4).
  assert (Hy : y.1 ∈ ((base, 0) :: La).*1) by (apply list_elem_of_fmap; exists y; split; [done|apply lst_in]).
  assert (Hyb : y.1 <> bn.1) by (intros E; apply (N2 _ Hy); rewrite E; by left).
  apply segto_app. split.
  - apply segto_last with e; [done| |done]. apply segto_insert; [|done]. intros Hin. apply (N2 _ Hin). by left.
  - apply (segto_split _ bn [] Lc base). split.
    + cbn [segto]. rewrite lookup_insert_ne by done. apply lookup_insert_eq.
    + apply tailto_insert; [intros Hin; apply (N2 _ Hy); by right|]. by apply tailto_insert.
Qed.

(** Growing the block [y] over what follows it. *)
Lemma link_grown m La y y' Lc top (a : Z) v : segto m (base, 0) La y.1 -> tailto m Lc base ->
  chain base (La ++ y' :: Lc) top -> y'.1 = y.1 -> a <> base -> a ∉ La.*1 -> a ∉ Lc.*1 ->
  segto (<[y.1 := (first Lc base, y'.2)]> (<[a := v]> m)) (base, 0) (La ++ y' :: Lc) base.
Proof.
  intros Hs Ht Hc Ey Ha0 Ha1 Ha2. destruct (chain_parts La y' Lc top Hc) as (N1 & N2 & N4). rewrite <- Ey in *.
  apply segto_app. split.
  - apply segto_insert; [intros Hin; apply (N2 _ Hin); by left|]. apply segto_insert; [|done].
    cbn [fmap list_fmap]. rewrite not_elem_of_cons. done.
  - apply (segto_split _ y' [] Lc base). split; [apply lookup_insert_eq|]. apply tailto_insert; [done|]. by apply tailto_insert.
Qed.

Lemma snoc_lst x L : L <> [] -> exists L0, L = L0 ++ [lst x L].
Proof.
  revert x. induction L as [|y L IH]; intros x H; [done|]. destruct L as [|z L]; [by exists []|].
  destruct (IH y) as [L0 E]; [done|]. exists (y :: L0). cbn [lst app] in *. by rewrite <- E.
Qed.

Definition freed h L b h' L' hi : Prop :=
  ring_ok h' L' hi /\ all_bytes L' ≡ₚ bytes_of b ++ all_bytes L /\
  (forall a, a <> base -> a <> b.1 -> a ∉ L.*1 -> h_mem h' !! a = h_mem h !! a) /\
  (exists x, x ∈ L' /\ b.2 <= x.2) /\ (length L' <= S (length L))%nat.

(** The block [b] lies between [La] and [Lb]. *)
Lemma between La Lb b hi : chain base (La ++ Lb) hi -> base < b.1 -> 0 < b.2 -> b.1 + 8 * b.2 <= hi ->
  (forall x, x ∈ La -> x.1 < b.1) -> (forall x, x ∈ Lb -> b.1 < x.1) ->
  (forall a, a ∈ bytes_of b -> a ∉ all_bytes (La ++ Lb)) ->
  chain (b.1 + 8 * b.2 - 1) Lb hi /\ chain base La b.1 /\ (lst (base, 0) La).1 + 8 * (lst (base, 0) La).2 <= b.1.
Proof.
  intros Hc Hb Hs Hhi Ha Hz Hd.
  assert (Hin : forall x, x ∈ La -> x.1 + 8 * x.2 <= b.1).
  { intros x Hx. specialize (Ha x Hx). destruct (Z.le_gt_cases (x.1 + 8 * x.2) b.1) as [|Hgt]; [done|]. exfalso.
    apply (Hd b.1); [apply elem_of_bytes; lia|]. apply elem_of_all_bytes with x; [apply elem_of_app; by left|].
    apply elem_of_bytes. lia. }
  split_and!.
  - destruct Lb as [|z L]; [cbn; lia|]. apply chain_app in Hc as (_ & H2 & H3). cbn [chain]. split_and!; [|done..].
    assert (Hbz : b.1 < z.1) by (apply Hz; by left).
    destruct (Z.lt_ge_cases z.1 (b.1 + 8 * b.2)); [|lia]. exfalso. apply (Hd z.1); [apply elem_of_bytes; lia|].
    apply elem_of_all_bytes with z; [apply elem_of_app; right; by left|]. apply elem_of_bytes. lia.
  - clear Hd Hz. assert (Hc' : exists t, chain base La t).
    { destruct Lb; [rewrite app_nil_r in Hc; eauto|]. apply chain_app in Hc as [Hc _]. eauto. }
    destruct Hc' as [t Hc']. clear Hc Ha. revert Hc' Hin Hb. generalize base. induction La as [|x L IH]; intros from Hc Hin Hb; [cbn; lia|].
    destruct Hc as (H1 & H2 & H3). cbn [chain]. split_and!; [done..|].
    assert (Hx : x.1 + 8 * x.2 <= b.1) by (apply Hin; by left). destruct L as [|y L]; [done|].
    apply IH; [done|intros; apply Hin; by right|]. destruct H3 as (H4 & H5 & _).
    assert (y.1 + 8 * y.2 <= b.1) by (apply Hin; right; by left). lia.
  - pose proof (lst_in (base, 0) La) as [E|E]%elem_of_cons; [rewrite E; cbn; lia|by apply Hin].
Qed.

Section joined.
Context h (La Lb Lc : list node) (b bn : node) (hi : Z).
Context (Hbase : 0 < base < b.1) (Hs : segto (h_mem h) (base, 0) (La ++ Lb) base).
Context (Ha : forall x, x ∈ La -> x.1 < b.1) (Hz : forall x, x ∈ Lb -> b.1 < x.1) (Hca : chain base La b.1).
Context (Eb : bn.1 = b.1) (Hpos : 0 < b.2) (Hbn : b.2 <= bn.2) (Ht : tailto (h_mem h) Lc base) (Hcc : chain (b.1 + 8 * bn.2) Lc hi).
Context (By : bytes_of bn ++ all_bytes Lc = bytes_of b ++ all_bytes Lb) (Hsub : Lc = Lb \/ exists z, Lb = z :: Lc).
Notation y := (lst (base, 0) La).

Lemma joined_pred : y.1 ∈ base :: La.*1.
Proof. apply (list_elem_of_fmap_2 fst ((base, 0) :: La)), lst_in. Qed.

Lemma joined_frame a : a <> base -> a ∉ (La ++ Lb).*1 -> a <> y.1.
Proof.
  intros H1 H2 ->. rewrite fmap_app in H2. pose proof joined_pred as [?|?]%elem_of_cons; [done|]. apply H2, elem_of_app. by left.
Qed.

Lemma joined_fresh l : (forall x, x ∈ l -> x ∈ La ++ Lb) -> b.1 ∉ l.*1.
Proof.
  intros Hl (x & Ex & Hx)%list_elem_of_fmap. apply Hl, elem_of_app in Hx as [Hx|Hx]; [apply Ha in Hx|apply Hz in Hx]; lia.
Qed.

Lemma joined_len : (length Lc <= length Lb)%nat.
Proof. destruct Hsub as [->|[z ->]]; simpl; lia. Qed.

Lemma joined_bytes : all_bytes La ++ bytes_of bn ++ all_bytes Lc ≡ₚ bytes_of b ++ all_bytes (La ++ Lb).
Proof. rewrite By, all_bytes_app. solve_Permutation. Qed.

Lemma freed_link h2 : y.1 + 8 * y.2 < b.1 -> h_freep h2 = y.1 ->
  h_mem h2 = <[y.1 := (bn.1, y.2)]> (<[b.1 := (first Lc base, bn.2)]> (h_mem h)) ->
  freed h (La ++ Lb) b h2 (La ++ bn :: Lc) hi.
Proof.
  intros Hy Hf Hm. pose proof Hs as [HsA _]%segto_split. assert (Hch : chain base (La ++ bn :: Lc) hi).
  { apply chain_app. rewrite Eb. split_and!; [|lia|done]. pose proof (chain_last (base, 0) La b.1 (b.1 - 1)) as H.
    cbn [fst snd] in H. rewrite Z.mul_0_r, Z.add_0_r in H. apply H; [done|lia]. }
  split_and!.
  - split; [|rewrite Hf|done].
    + rewrite Hm, <- Eb. by eapply link_between.
    + rewrite fmap_app. pose proof joined_pred as [->|?]%elem_of_cons; [by left|]. right. apply elem_of_app. by left.
  - rewrite all_bytes_app, all_bytes_cons. apply joined_bytes.
  - intros a H1 H2 H3. rewrite Hm, !lookup_insert_ne; [done|done|]. apply not_eq_sym. by apply joined_frame.
  - exists bn. split; [apply elem_of_app; right; by left|done].
  - rewrite !length_app. cbn [length]. pose proof joined_len. lia.
Qed.

Lemma freed_join h2 : y.1 + 8 * y.2 = b.1 -> h_freep h2 = y.1 ->
  h_mem h2 = <[y.1 := (first Lc base, y.2 + bn.2)]> (<[b.1 := (first Lc base, bn.2)]> (h_mem h)) ->
  exists L', freed h (La ++ Lb) b h2 L' hi.
Proof.
  intros Hy Hf Hm. pose proof Hs as [HsA _]%segto_split.
  destruct (snoc_lst (base, 0) La) as [L0 EL]; [intros E; rewrite E in Hy; cbn in Hy; lia|].
  pose proof Hca as Hca'. rewrite EL in HsA, Hca' at 1. apply segto_app in HsA as [HsA _]. apply chain_app in Hca' as (H1 & H2 & _).
  assert (Hch : chain base (L0 ++ (y.1, y.2 + bn.2) :: Lc) hi).
  { apply chain_app. cbn [fst snd]. split_and!; [done|lia|].
    replace (y.1 + 8 * (y.2 + bn.2)) with (b.1 + 8 * bn.2) by lia. done. }
  exists (L0 ++ (y.1, y.2 + bn.2) :: Lc). split_and!.
  - split; [|rewrite Hf, fmap_app; right; apply elem_of_app; right; by left|done]. rewrite Hm.
    apply (link_grown _ _ y (y.1, y.2 + bn.2) _ hi); try done; [lia|apply joined_fresh..].
    + intros x Hx. rewrite EL, !elem_of_app. tauto.
    + intros x Hx. apply elem_of_app. right. destruct Hsub as [->|[z ->]]; [done|by right].
  - rewrite <- joined_bytes. rewrite EL at 3. rewrite !all_bytes_app, !all_bytes_cons, bytes_join by lia. rewrite Hy, <- Eb.
    rewrite <- !surjective_pairing, app_nil_r, <- !app_assoc. done.
  - intros a G1 G2 G3. rewrite Hm, !lookup_insert_ne; [done|done|]. apply not_eq_sym. by apply joined_frame.
  - exists (y.1, y.2 + bn.2). split; [apply elem_of_app; right; by left|cbn; lia].
  - pose proof joined_len. apply (f_equal length) in EL. rewrite !length_app in *. cbn [length] in *. lia.
Qed.
End joined.

Lemma free_core h L hi b bq w :
  0 < base < b.1 -> ring_ok h L hi -> h_mem h !! b.1 = Some (bq, b.2) -> 0 < b.2 -> b.1 + 8 * b.2 <= hi <= 2 ^ 31 ->
  (forall a, a ∈ bytes_of b -> a ∉ all_bytes L) -> (2 * length L + 3 <= wakeups)%nat ->
  exists h' L', free h (b.1 + 8) w = Got h' w /\ freed h L b h' L' hi.
Proof.
  intros Hbase [Hs Hfp Hc] Hm Hpos Hhi Hd Hf.
  destruct (chain_split base L hi b.1 Hc) as (La & Lb & -> & Ha & Hz).
  { intros x Hx E. apply (Hd b.1); [apply elem_of_bytes; lia|]. apply elem_of_all_bytes with x; [done|].
    apply elem_of_bytes. apply (chain_bounds _ _ _ _ Hc) in Hx. lia. }
  destruct (between La Lb b hi) as (Hcb & Hca & Hy); [done|lia|done|lia|done..|].
  destruct (pred_bounds h b.1 La Lb hi Hs Hc ltac:(lia) Ha Hz) as (Hy1 & Hy2 & Hym). set (y := lst (base, 0) La) in *.
  apply segto_split in Hs as Hs'. destruct Hs' as [HsA HsB].
  destruct (join_next h b bq Lb hi w Hm HsB Hcb) as (bn & Lc & h1 & E1 & Eb & Hbn & Ef1 & Em1 & Ht1 & Hc1 & By1 & Hsub); [lia..|].
  apply chain_top in Hc1 as Htop.
  destruct (join_prev h1 bn y (first Lc base) (first Lb base) w) as (h2 & E2 & Ef2 & Em2).
  { rewrite Em1, Eb. apply lookup_insert_eq. }
  { rewrite Em1, lookup_insert_ne by lia. done. }
  1-5: lia.
  assert (E : free h (b.1 + 8) w = Got h2 w).
  { unfold free. rewrite (hadd_small (b.1 + 8)) by lia. replace (b.1 + 8 + 8 * -1) with b.1 by lia.
    urun (find_ok h b.1 La Lb hi w Hs Hc ltac:(lia) Ha Hz Hfp Hf). fold y.
    urun (hdr_ok h y.1 _ w Hym). urun (hdr_ok h b.1 _ w Hm). urun E1. rewrite Eb in E2. exact E2. }
  destruct (decide (y.1 + 8 * y.2 = bn.1)) as [Ej|Ej].
  - rewrite Em1 in Em2. assert (exists L', freed h (La ++ Lb) b h2 L' hi) as [L' HL']; [|by exists h2, L'].
    by apply (freed_join h La Lb Lc b bn hi); try done; rewrite <- Eb.
  - rewrite Em1 in Em2. exists h2, (La ++ bn :: Lc). split; [exact E|]. apply freed_link; try done. fold y. lia.
Qed.
End free.

(** ** The invariant *)

Section alloc.
Context {W : Type} {os : OS W} {Hbrk : Brk os} {fuel : Fuel} (base : Z).
Notation node := (Z * Z)%type.
Implicit Types (h : heap) (m : gmap Z node) (x y z b : node) (L live : list node) (w : W) (f : nat) (n : Z).

(** The free blocks [L] and the blocks in use [live] make up the memory between
    [lo] and [hi]. *)
Record heap_ok h L live (lo hi : Z) : Prop := {
  hk_base : 0 < base /\ base + 8 <= lo;
  hk_ring : ring_ok base h L hi;
  hk_live : forall x, x ∈ live -> 0 < x.2 /\ exists q, h_mem h !! x.1 = Some (q, x.2);
  hk_bytes : all_bytes (L ++ live) ≡ₚ seqZ lo (hi - lo);
  hk_hi : lo <= hi <= 2 ^ 31 }.

Lemma hk_nodup h L live lo hi : heap_ok h L live lo hi -> NoDup (all_bytes (L ++ live)).
Proof. intros H. rewrite (hk_bytes _ _ _ _ _ H). apply NoDup_seqZ. Qed.

Lemma hk_bounds h L live lo hi x : heap_ok h L live lo hi -> x ∈ L ++ live -> 0 < x.2 /\ lo <= x.1 /\ x.1 + 8 * x.2 <= hi.
Proof.
  intros H Hx. assert (Hp : 0 < x.2).
  { apply elem_of_app in Hx as [Hx|Hx]; [|by apply (hk_live _ _ _ _ _ H)].
    apply (chain_bounds _ _ _ _ (ring_chain _ _ _ _ (hk_ring _ _ _ _ _ H))) in Hx. lia. }
  assert (Hin : forall a, a ∈ bytes_of x -> lo <= a < hi).
  { intros a Ha. assert (Hall : a ∈ all_bytes (L ++ live)) by (by eapply elem_of_all_bytes).
    rewrite (hk_bytes _ _ _ _ _ H), elem_of_seqZ in Hall. lia. }
  pose proof (Hin x.1 ltac:(apply elem_of_bytes; lia)). pose proof (Hin (x.1 + 8 * x.2 - 1) ltac:(apply elem_of_bytes; lia)). lia.
Qed.

(** Two blocks of a disjoint list are the same or apart. *)
Lemma blocks_apart L1 x L2 y a : NoDup (all_bytes (L1 ++ x :: L2)) -> y ∈ L1 ++ L2 -> a ∈ bytes_of x -> a ∈ bytes_of y -> False.
Proof.
  rewrite all_bytes_app, all_bytes_cons. intros Hnd Hy Hx Ha.
  rewrite (Permutation_app_comm (all_bytes L1)), <- app_assoc in Hnd. apply NoDup_app in Hnd as (_ & Hd & _).
  apply (Hd a Hx). apply elem_of_app. apply elem_of_app in Hy as [Hy|Hy]; [right|left]; by eapply elem_of_all_bytes.
Qed.

(** No byte of a block in use is the address of a header of the ring. *)
Lemma header_apart h L live lo hi x a : heap_ok h L live lo hi -> x ∈ live -> a ∈ bytes_of x -> a ∉ base :: L.*1.
Proof.
  intros H Hx Ha. pose proof H as [Hb _ _ _ _]. destruct (hk_bounds _ _ _ _ _ x H) as (Hp & Hlo & _); [apply elem_of_app; by right|].
  rewrite not_elem_of_cons. split; [apply elem_of_bytes in Ha; lia|]. intros (z & -> & Hz)%list_elem_of_fmap.
  destruct (hk_bounds _ _ _ _ _ z H) as (Hzp & _); [apply elem_of_app; by left|].
  apply list_elem_of_split in Hz as (La & Lb & ->). pose proof (hk_nodup _ _ _ _ _ H) as Hnd.
  rewrite <- app_assoc in Hnd. cbn [app] in Hnd.
  eapply (blocks_apart La z _ x z.1); [done| |apply elem_of_bytes; lia|done]. rewrite !elem_of_app. tauto.
Qed.

Lemma free_ok h L l1 b l2 lo hi w :
  heap_ok h L (l1 ++ b :: l2) lo hi -> (2 * length L + 3 <= wakeups)%nat ->
  exists h' L', free h (b.1 + 8) w = Got h' w /\ heap_ok h' L' (l1 ++ l2) lo hi /\ (length L' <= S (length L))%nat.
Proof.
  intros H Hf. pose proof (hk_nodup _ _ _ _ _ H) as Hnd. rewrite app_assoc in Hnd. pose proof H as [Hb Hr Hl Hby Hhi].
  assert (Hin : b ∈ l1 ++ b :: l2) by (apply elem_of_app; right; by left).
  destruct (hk_bounds _ _ _ _ _ b H) as (Hp & Hlo & Hup); [apply elem_of_app; by right|]. destruct (Hl b Hin) as [_ [bq Hbq]].
  destruct (free_core base h L hi b bq w) as (h' & L' & E & Hr' & Hby' & Hfr & _ & Hlen); [lia|done..|lia| |done|].
  { intros a Ha Ha'. apply all_bytes_inv in Ha' as (x & Hx & Hax).
    eapply (blocks_apart (L ++ l1) b l2 x a); [done| |done..]. rewrite !elem_of_app. tauto. }
  exists h', L'. split; [done|]. split; [|done]. split; [done|done| | |done].
  - intros x Hx. assert (Hx' : x ∈ l1 ++ b :: l2) by (rewrite elem_of_app, elem_of_cons in *; tauto).
    destruct (Hl x Hx') as [Hxp [q Hq]]. split; [done|]. exists q. rewrite Hfr; [done|..].
    + intros Ex. apply (header_apart _ _ _ _ _ x x.1 H); [done|apply elem_of_bytes; lia|]. rewrite Ex. by left.
    + intros Ex. eapply (blocks_apart (L ++ l1) b l2 x b.1); [done| |apply elem_of_bytes; lia..].
      rewrite !elem_of_app in *. tauto.
    + intros Hx2. apply (header_apart _ _ _ _ _ x x.1 H); [done|apply elem_of_bytes; lia|]. by right.
  - rewrite <- Hby. rewrite !all_bytes_app, all_bytes_cons, Hby'. solve_Permutation.
Qed.

(** More memory: a new block at the break, or none and nothing changed. *)
Lemma morecore_ok h L live lo n w :
  heap_ok h L live lo (brk w) -> 0 < n -> 8 * n < 2 ^ 31 -> (2 * length L + 3 <= wakeups)%nat ->
  exists r h' L' w', morecore h n w = Got (r, h') w' /\ heap_ok h' L' live lo (brk w') /\ (length L' <= S (length L))%nat /\
    (r = 0 \/ (r = h_freep h' /\ exists x, x ∈ L' /\ n <= x.2)).
Proof.
  intros H Hn Hn8 Hf. pose proof H as [Hb [Hs Hfp Hc] Hl Hby Hhi]. unfold morecore.
  set (nu := if n <? 4096 then 4096 else n). assert (Hnu : n <= nu /\ 0 < nu /\ 8 * nu < 2 ^ 31) by (unfold nu; destruct (Z.ltb_spec n 4096); lia).
  rewrite i32_small by lia. destruct (trap (Sbrk (nu * 8)) w) as [rp w'] eqn:Et.
  assert (E : sys (Sbrk (nu * 8)) w = Got (rp_val rp) w') by (unfold sys; by rewrite Et). urun E.
  destruct (brk_sbrk (nu * 8) w rp w' ltac:(lia) Et) as [[-> Ew]|(-> & Ew & Htop)].
  { exists 0, h, L, w'. rewrite Ew. split_and!; [done|done|lia|by left]. }
  destruct (Z.eqb_spec (brk w) (-1)); [lia|]. set (h0 := set_size h (brk w) nu).
  assert (Hnew : forall x, x ∈ L -> x.1 < brk w /\ x.1 + 8 * x.2 <= brk w).
  { intros x Hx. apply (chain_bounds _ _ _ _ Hc) in Hx. lia. }
  assert (Hnot : brk w ∉ base :: L.*1).
  { rewrite not_elem_of_cons. split; [lia|]. intros (x & Ex & Hx)%list_elem_of_fmap. apply Hnew in Hx. lia. }
  destruct (free_core base h0 L (brk w') (brk w, nu) (fields h (brk w)).1 w') as (h' & L' & Ef & Hr & Hby' & Hfr & Hex & Hlen).
  - cbn. lia.
  - split; [|done|by apply chain_le with (brk w); [|lia]]. by apply segto_insert.
  - apply lookup_insert_eq.
  - cbn. lia.
  - cbn. lia.
  - intros a Ha%elem_of_bytes (x & Hx & Ha'%elem_of_bytes)%all_bytes_inv. apply Hnew in Hx. cbn in Ha. lia.
  - done.
  - cbn [fst] in Ef. rewrite hadd_small by lia. replace (brk w + 8 * 1) with (brk w + 8) by lia. urun Ef.
    exists (h_freep h'), h', L', w'. split; [done|]. split_and!; [|done|right; split; [done|]].
    + split; [done|done| | |lia].
      * intros x Hx. destruct (Hl x Hx) as [Hp [q Hq]]. split; [done|]. exists q.
        destruct (hk_bounds _ _ _ _ _ x H) as (_ & ? & ?); [apply elem_of_app; by right|].
        pose proof (header_apart _ _ _ _ _ x x.1 H Hx ltac:(apply elem_of_bytes; lia)) as [? ?]%not_elem_of_cons.
        rewrite Hfr; [|done|cbn; lia|done]. unfold h0, set_size. cbn [h_mem]. rewrite lookup_insert_ne by lia. done.
      * rewrite all_bytes_app, Hby'. rewrite <- app_assoc, <- all_bytes_app, Hby. unfold bytes_of. cbn [fst snd].
        rewrite Permutation_app_comm. replace (brk w' - lo) with ((brk w - lo) + 8 * nu) by lia.
        rewrite seqZ_app by lia. by replace (lo + (brk w - lo)) with (brk w) by lia.
    + destruct Hex as (x & Hx & Hx2). exists x. cbn in Hx2. split; [done|lia].
Qed.

(** ** The search for a block *)

Lemma malloc_walk f h n x L e w : segto (h_mem h) x L e -> (forall y, y ∈ L -> y.2 < n /\ y.1 <> h_freep h) ->
  malloc_loop (length L + f) h n x.1 (first L e) w = malloc_loop f h n (lst x L).1 e w.
Proof.
  revert x. induction L as [|y L IH]; intros x Hs Hy; [done|]. destruct Hs as [_ Hs]. cbn [length Nat.add first lst malloc_loop].
  destruct (Hy y ltac:(by left)) as [H1 H2]. urun (hdr_ok h y.1 _ w (segto_first _ _ _ _ Hs)).
  destruct (Z.leb_spec n y.2); [lia|]. destruct (Z.eqb_spec y.1 (h_freep h)); [done|].
  apply IH; [done|]. intros z Hz. apply Hy. by right.
Qed.

Lemma first_fit n L : (forall y, y ∈ L -> y.2 < n) \/
  exists L1 z L2, L = L1 ++ z :: L2 /\ (forall y, y ∈ L1 -> y.2 < n) /\ n <= z.2.
Proof.
  induction L as [|x L IH]; [left; by intros y ?%elem_of_nil|]. destruct (Z.lt_ge_cases x.2 n) as [Hlt|Hge].
  - destruct IH as [IH|(L1 & z & L2 & -> & H1 & H2)].
    + left. intros y [->|Hy]%elem_of_cons; auto.
    + right. exists (x :: L1), z, L2. split_and!; [done| |done]. intros y [->|Hy]%elem_of_cons; auto.
  - right. exists [], x, L. split_and!; [done|by intros y ?%elem_of_nil|done].
Qed.

Lemma first_app L z L' e : first (L ++ z :: L') e = first L z.1.
Proof. by destruct L. Qed.

(** From [x], over a stretch without [freep], to a block that fits or to the end. *)
Lemma walk_fit h n x L e w : segto (h_mem h) x L e -> h_freep h ∉ L.*1 ->
  (exists L1 z L2, L = L1 ++ z :: L2 /\ n <= z.2 /\
    forall f, malloc_loop (length L1 + f) h n x.1 (first L e) w = malloc_loop f h n (lst x L1).1 z.1 w) \/
  ((forall y, y ∈ L -> y.2 < n) /\
    forall f, malloc_loop (length L + f) h n x.1 (first L e) w = malloc_loop f h n (lst x L).1 e w).
Proof.
  intros Hs Hq. assert (Hne : forall y, y ∈ L -> y.1 <> h_freep h).
  { intros y Hy Ey. apply Hq. rewrite <- Ey. by apply list_elem_of_fmap_2. }
  destruct (first_fit n L) as [Hall|(L1 & z & L2 & -> & H1 & H2)].
  - right. split; [done|]. intros f. apply malloc_walk; [done|]. auto.
  - left. exists L1, z, L2. split_and!; [done..|]. intros f. rewrite first_app. apply segto_app in Hs as [Hs _].
    apply malloc_walk; [done|]. intros y Hy. split; [auto|]. apply Hne, elem_of_app. by left.
Qed.

(** [malloc]'s search: the block that fits with the one before it, or back at [freep]. *)
Definition fits h n L w (k : nat) next : Prop :=
  exists L1 z L2, L = L1 ++ z :: L2 /\ n <= z.2 /\
    forall f, malloc_loop (k + f) h n (h_freep h) next w = malloc_loop f h n (lst (base, 0) L1).1 z.1 w.
Definition none_fits h n L w (k : nat) next : Prop :=
  (forall y, y ∈ L -> y.2 < n) /\ exists pv, forall f,
    malloc_loop (k + f) h n (h_freep h) next w = malloc_loop f h n pv (h_freep h) w.

Lemma search_base h L hi n w : segto (h_mem h) (base, 0) L base -> chain base L hi -> h_freep h = base ->
  exists k, (k <= length L)%nat /\ (fits h n L w k (first L base) \/ none_fits h n L w k (first L base)).
Proof.
  intros Hs Hc Hq. assert (Hnot : h_freep h ∉ L.*1).
  { intros (x & Ex & Hx)%list_elem_of_fmap. apply (chain_bounds _ _ _ _ Hc) in Hx. lia. }
  destruct (walk_fit h n (base, 0) L base w Hs Hnot) as [(L1 & z & L2 & EL & Hz & E)|[Hall E]].
  - exists (length L1). split; [rewrite EL, length_app; lia|]. left. exists L1, z, L2. split_and!; [done..|].
    intros f. rewrite Hq. apply E.
  - exists (length L). split; [lia|]. right. split; [done|]. exists (lst (base, 0) L).1. intros f. rewrite Hq. apply E.
Qed.

Lemma search_inner h A q B n w : segto (h_mem h) (base, 0) A q.1 -> segto (h_mem h) q B base -> h_freep h = q.1 ->
  q.1 ∉ A.*1 -> q.1 ∉ B.*1 -> base <> q.1 -> 0 < n ->
  exists k, (k <= length (A ++ q :: B))%nat /\
    (fits h n (A ++ q :: B) w k (first B base) \/ none_fits h n (A ++ q :: B) w k (first B base)).
Proof.
  intros HsA HsB Hq HqA HqB Hqb Hn. unfold fits, none_fits. rewrite length_app. cbn [length]. rewrite <- Hq in HqA, HqB.
  destruct (walk_fit h n q B base w HsB HqB) as [(B1 & z & B2 & -> & Hz & E)|[HallB EB]].
  { exists (length B1). rewrite length_app. split; [lia|]. left. exists (A ++ q :: B1), z, B2. rewrite <- app_assoc, lst_app.
    split_and!; [done..|]. intros f. rewrite Hq. apply E. }
  assert (Eb : forall f, malloc_loop (length B + S f) h n (h_freep h) (first B base) w = malloc_loop f h n base (first A q.1) w).
  { intros f. rewrite Hq, EB. cbn [malloc_loop]. urun (hdr_ok h base _ w (segto_first _ (base, 0) _ _ HsA)). cbn [snd].
    destruct (Z.leb_spec n 0); [lia|]. destruct (Z.eqb_spec base (h_freep h)); [congruence|]. done. }
  destruct (walk_fit h n (base, 0) A q.1 w HsA HqA) as [(A1 & z & A2 & -> & Hz & E)|[HallA EA]].
  { exists (length B + S (length A1))%nat. rewrite length_app. cbn [length]. split; [lia|]. left. exists A1, z, (A2 ++ q :: B).
    rewrite <- app_assoc. split_and!; [done..|]. intros f. rewrite <- Nat.add_assoc. cbn [Nat.add]. rewrite Eb. apply E. }
  exists (length B + S (length A))%nat. split; [lia|].
  assert (Ek : forall f, malloc_loop (length B + S (length A) + f) h n (h_freep h) (first B base) w =
    malloc_loop f h n (lst (base, 0) A).1 q.1 w).
  { intros f. rewrite <- Nat.add_assoc. cbn [Nat.add]. rewrite Eb. apply EA. }
  destruct (Z.le_gt_cases n q.2).
  - left. exists A, q, B. split_and!; done.
  - right. split; [|exists (lst (base, 0) A).1; intros f; rewrite Hq; by rewrite <- Ek, Hq].
    intros y [Hy|[->|Hy]%elem_of_cons]%elem_of_app; [auto|lia|auto].
Qed.

Lemma search_free_ok h L hi n w : ring_ok base h L hi -> 0 < n ->
  exists next s k, h_mem h !! h_freep h = Some (next, s) /\ (k <= length L)%nat /\
    (fits h n L w k next \/ none_fits h n L w k next).
Proof.
  intros [Hs Hfp Hc] Hn. apply elem_of_cons in Hfp as [Hq|(q & Hq & Hin)%list_elem_of_fmap].
  - destruct (search_base h L hi n w Hs Hc Hq) as (k & Hk & H). exists (first L base), 0, k. split_and!; [|done..].
    rewrite Hq. exact (segto_first _ (base, 0) _ _ Hs).
  - apply list_elem_of_split in Hin as (A & B & ->). apply segto_app in Hs as [HsA HsB].
    destruct (chain_parts base A q B hi Hc) as (_ & Hd & HqB). destruct (search_inner h A q B n w HsA HsB Hq) as (k & Hk & H); try done.
    + intros Hin. apply (Hd q.1); [by right|by left].
    + intros E. apply (Hd q.1); [rewrite <- E; by left|by left].
    + exists (first B base), q.2, k. split_and!; [|done..]. rewrite Hq. exact (segto_first _ _ _ _ HsB).
Qed.

(** ** Taking a block *)

Section take.
Context h (L1 L2 live : list node) (z : node) (lo hi n : Z).
Context (H : heap_ok h (L1 ++ z :: L2) live lo hi) (Hn : 0 < n).
Notation y := (lst (base, 0) L1).

Lemma take_facts : segto (h_mem h) (base, 0) L1 z.1 /\ tailto (h_mem h) L2 base /\
  h_mem h !! z.1 = Some (first L2 base, z.2) /\ h_mem h !! y.1 = Some (z.1, y.2) /\ y.1 ∈ base :: L1.*1 /\
  chain base (L1 ++ z :: L2) hi /\ lo <= z.1 /\ 0 < z.2 /\ z.1 + 8 * z.2 <= hi /\ hi <= 2 ^ 31 /\ 0 < base.
Proof.
  pose proof H as [Hb [Hs _ Hc] _ _ Hhi]. apply segto_app in Hs as [Hs1 Hs2]. destruct (hk_bounds _ _ _ _ _ z H) as (Hz1 & Hz2 & Hz3).
  { rewrite !elem_of_app, elem_of_cons. tauto. }
  split_and!; try done; try lia.
  - destruct L2; [done|]. by destruct Hs2.
  - exact (segto_first _ _ _ _ Hs2).
  - by apply segto_end in Hs1 as [_ ?].
  - apply (list_elem_of_fmap_2 fst ((base, 0) :: L1)), lst_in.
Qed.

Lemma live_header x a : x ∈ live -> a ∈ base :: (L1 ++ z :: L2).*1 -> a <> x.1.
Proof.
  intros Hx Ha ->. destruct (hk_live _ _ _ _ _ H x Hx) as [Hp _].
  apply (header_apart _ _ _ _ _ x x.1 H Hx); [apply elem_of_bytes; lia|done].
Qed.

Lemma chain_remove : chain base (L1 ++ L2) hi.
Proof.
  destruct take_facts as (_ & _ & _ & _ & _ & Hc & _). apply chain_app in Hc as (H1 & H2 & H3). apply chain_top in H3 as H4.
  destruct L2 as [|u L]; [rewrite app_nil_r; apply chain_le with (z.1 - 1); [done|lia]|].
  destruct H3 as (H5 & H6 & H7). apply chain_app. split_and!; [|done..]. apply chain_le with (z.1 - 1); [done|lia].
Qed.

(** The whole block is unlinked. *)
Lemma take_exact : z.2 = n ->
  heap_ok (set_freep (set_ptr h y.1 (first L2 base)) y.1) (L1 ++ L2) (z :: live) lo hi.
Proof.
  intros Ez. pose proof H as [Hb Hr Hl Hby Hhi]. destruct take_facts as (Hs1 & Ht & Hz & Hy & Hyin & Hc & Hlo & Hzp & Hzh & _).
  destruct (chain_parts base L1 z L2 hi Hc) as (N1 & N2 & N3).
  assert (Em : h_mem (set_freep (set_ptr h y.1 (first L2 base)) y.1) = <[y.1 := (first L2 base, y.2)]> (h_mem h)).
  { unfold set_freep, set_ptr. cbn [h_mem]. by rewrite (fields_ok _ _ _ Hy). }
  assert (Hyz : y.1 <> z.1) by (intros E; apply (N2 _ Hyin); rewrite E; by left).
  split; [done| | | |done].
  - split; [rewrite Em| |apply chain_remove].
    + apply segto_split. split; [by eapply segto_last|]. apply tailto_insert; [|done]. intros Hin. apply (N2 _ Hyin). by right.
    + cbn [h_freep set_freep]. rewrite fmap_app. apply elem_of_cons in Hyin as [->|Hyin]; [by left|]. right. apply elem_of_app. by left.
  - intros x [->|Hx]%elem_of_cons; rewrite Em.
    + split; [done|]. eexists. by rewrite lookup_insert_ne.
    + destruct (Hl x Hx) as [Hp [q Hq]]. split; [done|]. exists q. rewrite lookup_insert_ne; [done|]. apply live_header; [done|].
      rewrite fmap_app. apply elem_of_cons in Hyin as [->|Hyin]; [by left|]. right. apply elem_of_app. by left.
  - rewrite <- Hby. rewrite !all_bytes_app, !all_bytes_cons. solve_Permutation.
Qed.

(** The tail of the block is taken. *)
Lemma take_tail q : n < z.2 -> let z' := (z.1 + 8 * (z.2 - n), n) in
  heap_ok (set_freep (mkheap (<[z'.1 := (q, n)]> (<[z.1 := (first L2 base, z.2 - n)]> (h_mem h))) (h_freep h)) y.1)
    (L1 ++ (z.1, z.2 - n) :: L2) (z' :: live) lo hi.
Proof.
  intros Ez z'. pose proof H as [Hb Hr Hl Hby Hhi]. destruct take_facts as (Hs1 & Ht & Hz & Hy & Hyin & Hc & Hlo & Hzp & Hzh & _).
  assert (Hzz : z'.1 <> z.1) by (cbn; lia). apply chain_app in Hc as Hc'. destruct Hc' as (H1 & H2 & H3).
  assert (Hin1 : forall x, x ∈ L1 -> x.1 < z.1) by (intros x Hx; apply (chain_bounds _ _ _ _ H1) in Hx; lia).
  assert (Hin2 : forall x, x ∈ L2 -> z.1 + 8 * z.2 < x.1) by (intros x Hx; apply (chain_bounds _ _ _ _ H3) in Hx; lia).
  assert (Hch : chain base (L1 ++ (z.1, z.2 - n) :: L2) hi).
  { apply chain_app. cbn [fst snd]. split_and!; [done|lia|]. destruct L2 as [|u L]; cbn [chain] in *; [lia|].
    destruct H3 as (H4 & H5 & H6). split_and!; [lia|done..]. }
  split; [done| | | |done]; cbn [h_mem set_freep].
  - split; [| |done]; cbn [h_mem set_freep h_freep].
    + rewrite insert_insert_ne by done. apply (link_grown base _ _ z (z.1, z.2 - n) _ hi); try done.
      * cbn. lia.
      * intros (x & Ex & Hx)%list_elem_of_fmap. apply Hin1 in Hx. cbn in Ex. lia.
      * intros (x & Ex & Hx)%list_elem_of_fmap. apply Hin2 in Hx. cbn in Ex. lia.
    + rewrite fmap_app. apply elem_of_cons in Hyin as [->|Hyin]; [by left|]. right. apply elem_of_app. by left.
  - intros x [->|Hx]%elem_of_cons; [split; [done|]; exists q; apply lookup_insert_eq|].
    destruct (Hl x Hx) as [Hp [qx Hq]]. split; [done|]. exists qx. rewrite !lookup_insert_ne; [done|apply live_header; [done|]|].
    + rewrite fmap_app. right. apply elem_of_app. right. by left.
    + intros Ex. pose proof (hk_nodup _ _ _ _ _ H) as Hnd. rewrite <- app_assoc in Hnd. cbn [app] in Hnd.
      eapply (blocks_apart L1 z _ x x.1); [exact Hnd|rewrite !elem_of_app; tauto|apply elem_of_bytes; rewrite <- Ex; cbn; lia|apply elem_of_bytes; lia].
  - rewrite <- Hby. rewrite !all_bytes_app, !all_bytes_cons.
    replace (bytes_of z) with (bytes_of (z.1, z.2 - n) ++ bytes_of z'); [solve_Permutation|].
    unfold z'. rewrite <- bytes_join by lia. destruct z as [za zs]. cbn [fst snd]. f_equal. f_equal. lia.
Qed.
End take.

Lemma fit_ok h L1 z L2 live lo hi n f w :
  heap_ok h (L1 ++ z :: L2) live lo hi -> 0 < n <= z.2 ->
  exists r h' L', malloc_loop (S f) h n (lst (base, 0) L1).1 z.1 w = Got (r, h') w /\
    r <> 0 /\ heap_ok h' L' ((r - 8, n) :: live) lo hi /\ (length L' <= length (L1 ++ z :: L2))%nat.
Proof.
  intros H [Hn Hz]. destruct (take_facts _ _ _ _ _ _ _ H) as (_ & _ & Hzh & Hy & _ & _ & Hlo & Hzp & Hhi & Htop & Hb).
  pose proof H as [[_ Hlo0] _ _ _ _]. cbn [malloc_loop]. urun (hdr_ok h z.1 _ w Hzh). destruct (Z.leb_spec n z.2); [|lia].
  rewrite !length_app. cbn [length]. destruct (Z.eqb_spec z.2 n) as [E|E].
  - rewrite hadd_small by lia. eexists _, _, (L1 ++ L2). split; [reflexivity|]. split; [lia|]. rewrite length_app. split; [|lia].
    replace (z.1 + 8 * 1 - 8) with z.1 by lia. replace (z.1, n) with z by (destruct z; cbn in *; congruence).
    by apply (take_exact h L1 L2 live z lo hi n).
  - cbv zeta. assert (Hz' : hadd z.1 (z.2 - n) = z.1 + 8 * (z.2 - n)) by (apply hadd_small; lia). rewrite Hz', hadd_small by lia.
    eexists _, _, (L1 ++ (z.1, z.2 - n) :: L2). split; [reflexivity|]. split; [lia|]. rewrite length_app. cbn [length]. split; [|lia].
    replace (z.1 + 8 * (z.2 - n) + 8 * 1 - 8) with (z.1 + 8 * (z.2 - n)) by lia.
    assert (set_size h z.1 (z.2 - n) = mkheap (<[z.1 := (first L2 base, z.2 - n)]> (h_mem h)) (h_freep h)) as ->
      by (unfold set_size; by rewrite (fields_ok _ _ _ Hzh)).
    apply (take_tail h L1 L2 live z lo hi n H Hn). lia.
Qed.

Definition fresh h L live (lo hi : Z) : Prop :=
  h_freep h = 0 /\ L = [] /\ live = [] /\ lo = hi /\ 0 < base /\ base + 8 <= lo /\ hi <= 2 ^ 31.
Definition heap_inv h L live lo hi : Prop := heap_ok h L live lo hi \/ fresh h L live lo hi.

(** The first call makes the ring of [base] alone. *)
Lemma init_ok h L live lo hi : heap_inv h L live lo hi ->
  heap_ok (if h_freep h =? 0 then set_size (set_freep (set_ptr h base base) base) base 0 else h) L live lo hi.
Proof.
  intros [H|(-> & -> & -> & -> & Hb & Hlo & Hhi)].
  - pose proof H as [[Hb Hlo] [_ Hfp Hc] _ _ _]. destruct (Z.eqb_spec (h_freep h) 0) as [E|]; [|done].
    rewrite E in Hfp. apply elem_of_cons in Hfp as [?|(x & Ex & Hx)%list_elem_of_fmap]; [lia|].
    apply (chain_bounds _ _ _ _ Hc) in Hx. lia.
  - change (0 =? 0) with true. cbv iota. split; [done| | | |done].
    + split; [|by left|cbn; lia]. cbn [segto h_mem set_size fst snd]. rewrite lookup_insert_eq. unfold fields.
      cbn [h_mem set_freep set_ptr]. by rewrite lookup_insert_eq.
    + by intros x ?%elem_of_nil.
    + by rewrite Z.sub_diag.
Qed.

Lemma units_ok n : 0 <= n <= 2 ^ 31 - 16 -> 0 < units n /\ n <= 8 * (units n - 1) /\ 8 * units n < 2 ^ 31 + 8 /\
  8 * units n <= n + 15.
Proof.
  intros Hn. unfold units. rewrite (u32_small (n + 8 - 1)) by lia. rewrite u32_small.
  - pose proof (Z.mul_div_le (n + 8 - 1) 8). pose proof (Z.mul_succ_div_gt (n + 8 - 1) 8). lia.
  - pose proof (Z.mul_div_le (n + 8 - 1) 8). pose proof (Z.mul_succ_div_gt (n + 8 - 1) 8). lia.
Qed.

Lemma freep_small h L hi next s n : ring_ok base h L hi -> h_mem h !! h_freep h = Some (next, s) ->
  (forall y, y ∈ L -> y.2 < n) -> 0 < n -> s < n.
Proof.
  intros [Hsg Hfp _] Hh Hall Hn. apply elem_of_cons in Hfp as [Eq|(x & Ex & Hx)%list_elem_of_fmap].
  - rewrite Eq in Hh. pose proof (segto_first _ _ _ _ Hsg) as Hb. cbn [fst snd] in Hb. rewrite Hb in Hh. by injection Hh as _ <-.
  - apply Hall in Hx as Hx'. apply list_elem_of_split in Hx as (A & B & ->). apply segto_app in Hsg as [_ Hsg].
    apply segto_first in Hsg. rewrite Ex, Hsg in Hh. by injection Hh as _ <-.
Qed.

(** [malloc] gives a new block of enough bytes, or fails with what it had. *)
Lemma malloc_ok h L live lo n w :
  heap_inv h L live lo (brk w) -> 0 <= n <= 2 ^ 31 - 16 -> (2 * length L + 6 <= wakeups)%nat ->
  exists r h' L' w', malloc base h n w = Got (r, h') w' /\ (length L' <= S (length L))%nat /\
    ((r = 0 /\ heap_ok h' L' live lo (brk w')) \/ (r <> 0 /\ heap_ok h' L' ((r - 8, units n) :: live) lo (brk w'))).
Proof.
  intros Hinv Hn Hf. destruct (units_ok n Hn) as (Hu & _ & Hu8 & Hu15). unfold malloc.
  apply init_ok in Hinv as H. set (h1 := if h_freep h =? 0 then _ else h) in *.
  destruct (search_free_ok h1 L _ (units n) w (hk_ring _ _ _ _ _ H) Hu) as (next & s & k & Hh & Hk & Hcase). urun (hdr_ok h1 _ _ w Hh).
  replace wakeups with (k + S (S (length L) + S (wakeups - k - length L - 3)))%nat by lia.
  destruct Hcase as [(L1 & z & L2 & -> & Hz & E)|[Hall [pv E]]]; rewrite E.
  - destruct (fit_ok h1 L1 z L2 live lo (brk w) (units n) (S (length (L1 ++ z :: L2)) + S (wakeups - k - length (L1 ++ z :: L2) - 3)) w H)
      as (r & h' & L' & E' & Hr & H' & Hlen); [lia|]. exists r, h', L', w. split; [done|]. split; [lia|]. by right.
  - cbn [malloc_loop]. urun (hdr_ok h1 _ _ w Hh). pose proof (freep_small _ _ _ _ _ _ (hk_ring _ _ _ _ _ H) Hh Hall Hu).
    destruct (Z.leb_spec (units n) s); [lia|]. rewrite Z.eqb_refl.
    destruct (morecore_ok h1 L live lo (units n) w H Hu) as (p & h2 & L2 & w2 & Em & H2 & Hlen & Hp); [lia|lia|]. urun Em.
    destruct Hp as [->|[-> (x & Hx & Hxn)]]; [exists 0, h2, L2, w2; split_and!; [done|done|by left]|].
    assert (Hfp2 : h_freep h2 <> 0).
    { pose proof H2 as [[Hb Hlo] [_ Hfp Hc] _ _ _]. apply elem_of_cons in Hfp as [?|(y & Ey & Hy)%list_elem_of_fmap]; [lia|].
      apply (chain_bounds _ _ _ _ Hc) in Hy. lia. }
    destruct (Z.eqb_spec (h_freep h2) 0); [done|].
    destruct (search_free_ok h2 L2 _ (units n) w2 (hk_ring _ _ _ _ _ H2) Hu) as (next2 & s2 & k2 & Hh2 & Hk2 & Hcase2).
    urun (hdr_ok h2 _ _ w2 Hh2). replace (S (length L) + S (wakeups - k - length L - 3))%nat
      with (k2 + S (S (length L) + (wakeups - k - length L - 3) - k2))%nat by lia.
    destruct Hcase2 as [(A & z & B & -> & Hz & E2)|[Hall2 _]]; [|by apply Hall2 in Hx; lia]. rewrite E2.
    destruct (fit_ok h2 A z B live lo (brk w2) (units n) (S (length L) + (wakeups - k - length L - 3) - k2) w2 H2)
      as (r & h' & L' & E' & Hr & H' & Hlen'); [lia|]. exists r, h', L', w2. split; [done|]. split; [lia|]. by right.
Qed.

(** ** A client *)

(** The client asks for memory, gives its [i]-th pointer back, or stores into a
    block it holds: in [live], a pointer comes with the size asked for. *)
Inductive aop := AMalloc (n : Z) | AFree (i : nat) | AStore (a : Z) (v : Z * Z).

Definition block_of (x : Z * Z) : node := (x.1 - 8, units x.2).
Definition inside (live : list (Z * Z)) (a : Z) : bool :=
  existsb (fun x => (x.1 <=? a) && (a + 8 <=? x.1 - 8 + 8 * units x.2)) live.
Definition alloc_op (o : aop) (s : heap * list (Z * Z)) : U W (heap * list (Z * Z)) :=
  let '(h, live) := s in
  match o with
  | AMalloc n => '(r, h) ← malloc base h n; mret (h, if r =? 0 then live else (r, n) :: live)
  | AFree i =>
      match live !! i with
      | Some x => h ← free h x.1; mret (h, take i live ++ drop (S i) live)
      | None => mret (h, live)
      end
  | AStore a v => mret (if inside live a then mkheap (<[a := v]> (h_mem h)) (h_freep h) else h, live)
  end.
Fixpoint alloc_ops (ops : list aop) (s : heap * list (Z * Z)) : U W (heap * list (Z * Z)) :=
  match ops with [] => mret s | o :: ops' => s ← alloc_op o s; alloc_ops ops' s end.

(** Requests whose size in bytes, rounded up to units with a header, is an [int]. *)
Definition op_ok (o : aop) : Prop := match o with AMalloc n => 0 <= n <= 2 ^ 31 - 16 | _ => True end.
Definition sizes_ok (live : list (Z * Z)) : Prop := forall x, x ∈ live -> 0 <= x.2 <= 2 ^ 31 - 16.

Lemma store_ok h L live lo hi a v : heap_ok h L (block_of <$> live) lo hi -> inside live a = true ->
  heap_ok (mkheap (<[a := v]> (h_mem h)) (h_freep h)) L (block_of <$> live) lo hi.
Proof.
  intros H Ha. unfold inside in Ha. apply existsb_exists in Ha as (x & Hx%list_elem_of_In & Hr).
  apply andb_true_iff in Hr as [H1%Z.leb_le H2%Z.leb_le]. pose proof H as [Hb [Hs Hfp Hc] Hl Hby Hhi].
  assert (Hxb : block_of x ∈ block_of <$> live) by (by apply list_elem_of_fmap_2).
  assert (Hin : a ∈ bytes_of (block_of x)) by (apply elem_of_bytes; cbn; lia).
  pose proof (header_apart _ _ _ _ _ _ a H Hxb Hin) as Hap.
  split; [done| | |done|done].
  - split; [|done|done]. cbn [h_mem]. apply segto_insert; [exact Hap|done].
  - intros y Hy. destruct (Hl y Hy) as [Hp [q Hq]]. split; [done|]. exists q. cbn [h_mem]. rewrite lookup_insert_ne; [done|]. intros Ey.
    destruct (decide (y = block_of x)) as [->|Hne]; [cbn in Ey; lia|].
    apply list_elem_of_split in Hxb as (A & B & EA). pose proof (hk_nodup _ _ _ _ _ H) as Hnd. rewrite EA, app_assoc in Hnd.
    eapply (blocks_apart (L ++ A) _ B y a); [done| |done|apply elem_of_bytes; lia].
    rewrite EA in Hy. rewrite !elem_of_app, elem_of_cons in *. tauto.
Qed.

Lemma alloc_op_ok o h L live lo w :
  heap_inv h L (block_of <$> live) lo (brk w) -> sizes_ok live -> op_ok o -> (2 * length L + 6 <= wakeups)%nat ->
  exists h' L' live' w', alloc_op o (h, live) w = Got (h', live') w' /\ (length L' <= S (length L))%nat /\
    heap_inv h' L' (block_of <$> live') lo (brk w') /\ sizes_ok live'.
Proof.
  intros Hinv Hsz Ho Hf. destruct o as [n|i|a v]; cbn [alloc_op].
  - destruct (malloc_ok h L _ lo n w Hinv Ho Hf) as (r & h' & L' & w' & E & Hlen & Hr). urun E.
    destruct Hr as [[-> H]|[Hr H]].
    + exists h', L', live, w'. split_and!; [done|done|by left|done].
    + exists h', L', ((r, n) :: live), w'. destruct (Z.eqb_spec r 0); [done|]. split_and!; [done|done|by left|].
      intros x [->|Hx]%elem_of_cons; [done|by apply Hsz].
  - destruct (live !! i) as [x|] eqn:Ei; [|exists h, L, live, w; split_and!; [done|lia|done..]].
    destruct Hinv as [H|(_ & _ & Hl & _)]; [|by destruct live].
    rewrite <- (take_drop_middle live i x Ei) in H. rewrite fmap_app in H. cbn [fmap list_fmap] in H.
    destruct (free_ok h L _ _ _ lo (brk w) w H) as (h' & L' & E & H' & Hlen); [lia|].
    replace ((block_of x).1 + 8) with x.1 in E by (cbn; lia). urun E.
    exists h', L', (take i live ++ drop (S i) live), w. rewrite fmap_app. split_and!; [done|done|by left|].
    intros y Hy. apply Hsz. rewrite <- (take_drop_middle live i x Ei). rewrite elem_of_app, elem_of_cons in *. tauto.
  - exists (if inside live a then mkheap (<[a := v]> (h_mem h)) (h_freep h) else h), L, live, w. split_and!; [done|lia| |done].
    destruct (inside live a) eqn:Ea; [|done]. destruct Hinv as [H|(_ & _ & Hl & _)]; [left; by apply store_ok|].
    by destruct live.
Qed.

Lemma alloc_ops_ok ops h L live lo w :
  heap_inv h L (block_of <$> live) lo (brk w) -> sizes_ok live -> Forall op_ok ops ->
  (2 * (length L + length ops) + 6 <= wakeups)%nat ->
  exists h' L' live' w', alloc_ops ops (h, live) w = Got (h', live') w' /\
    heap_inv h' L' (block_of <$> live') lo (brk w') /\ sizes_ok live'.
Proof.
  revert h L live w. induction ops as [|o ops IH]; intros h L live w Hinv Hsz Ho Hf; [by exists h, L, live, w|].
  apply Forall_cons in Ho as [Ho1 Ho]. cbn [length alloc_ops] in *.
  destruct (alloc_op_ok o h L live lo w Hinv Hsz Ho1) as (h1 & L1 & live1 & w1 & E & Hlen & Hinv1 & Hsz1); [lia|]. urun E.
  apply (IH h1 L1); [done..|lia].
Qed.
End alloc.

(** C14. [malloc] and [free] are sound for a client that asks for at most 2^31 - 16
    bytes at a time ([op_ok]): a larger request reaches [sbrk] as a negative
    number, or wraps around.  From the start ([freep] is null, the break is at most
    2^31), through any sequence of such requests, releases and stores into the
    client's blocks, the calls terminate, the blocks in use have the bytes asked
    for and are disjoint, and together with the ring of free blocks they make up
    exactly the memory obtained from [sbrk]. *)
Theorem allocator_sound {W} {os : OS W} {Hbrk : Brk os} {fuel : Fuel} (base : Z) (ops : list aop) (h : heap) (w : W) :
  h_freep h = 0 -> 0 < base -> base + 8 <= brk w <= 2 ^ 31 -> Forall op_ok ops -> (2 * length ops + 6 <= wakeups)%nat ->
  exists h' live w' free_blocks, alloc_ops base ops (h, []) w = Got (h', live) w' /\
    all_bytes (free_blocks ++ (block_of <$> live)) ≡ₚ seqZ (brk w) (brk w' - brk w) /\
    (forall x, x ∈ live -> x.1 + x.2 <= (block_of x).1 + 8 * (block_of x).2) /\
    (ring_ok base h' free_blocks (brk w') \/ (h_freep h' = 0 /\ free_blocks = [])).
Proof.
  intros Hfp Hb Hlo Ho Hf. destruct (alloc_ops_ok base ops h [] [] (brk w) w) as (h' & L & live & w' & E & Hinv & Hsz).
  - right. split_and!; (done || lia).
  - by intros x ?%elem_of_nil.
  - done.
  - cbn [length]. lia.
  - exists h', live, w', L. split; [done|]. split_and!.
    + destruct Hinv as [[_ _ _ Hby _]|(_ & -> & -> & <- & _)]; [done|]. by rewrite Z.sub_diag.
    + intros x Hx. cbn. destruct (units_ok x.2 (Hsz x Hx)) as (_ & Hu & _). lia.
    + destruct Hinv as [[_ Hr _ _ _]|(Hq & -> & _)]; [by left|by right].
Qed.
