(* ===== verification/UserSpec.v ===== *)
(** * The C library against the kernel

    What [printf] writes, for any kernel that appends the bytes of a [write];
    that it prints what the kernel's [cprintf] prints; and that [atoi] reads
    back what [printf] prints. *)

From S2P Require Import Prelude State Spinlock Console User.
Import Ulib.
Open Scope Z_scope.

(** ** Streams *)

(** A kernel on which descriptors are streams: [inp] is the input not read yet,
    [out] what has been written.  A read gives a non-empty part of the input,
    as much of it as the kernel likes, until the input is used up. *)
Class Streams {W : Type} (os : OS W) := {
  inp : Z -> W -> list Z;
  out : Z -> W -> list Z;
  read_stream : forall fd n w, 0 < n -> exists data w',
    trap (Read fd n) w = (mkreply (alen data) data, w') /\ alen data <= n /\
    inp fd w = data ++ inp fd w' /\ (data = [] -> inp fd w = []) /\ forall f, out f w' = out f w;
  write_stream : forall fd bs w, exists w',
    trap (Write fd bs) w = (mkreply (alen bs) [], w') /\ out fd w' = out fd w ++ bs /\
    forall f, inp f w' = inp f w }.

Section printf.
Context {W : Type} {os : OS W} {st : Streams os}.
Implicit Types (w : W) (fd c : Z) (s t : str).

(** [w'] is [w] after [s] was written to [fd]. *)
Definition wrote w fd s w' : Prop := out fd w' = out fd w ++ s /\ forall f, inp f w' = inp f w.

Lemma wrote_nil w fd : wrote w fd [] w.
Proof. split; [by rewrite app_nil_r|done]. Qed.

Lemma wrote_app w fd s w1 t w2 : wrote w fd s w1 -> wrote w1 fd t w2 -> wrote w fd (s ++ t) w2.
Proof. intros [H1 H2] [H3 H4]. split; [by rewrite H3, H1, app_assoc|]. intros f. by rewrite H4. Qed.

Lemma putc_ok fd c w : exists w', Printf.putc fd c w = Got tt w' /\ wrote w fd [c mod 256] w'.
Proof.
  destruct (write_stream fd [c mod 256] w) as (w' & E & H). exists w'. split; [|done].
  unfold Printf.putc, mbind, U_bind, sys. by rewrite E.
Qed.

Definition low (s : str) : str := (fun c => c mod 256) <$> s.

Lemma puts_ok fd s w : exists w', Printf.puts fd s w = Got tt w' /\ wrote w fd (low s) w'.
Proof.
  revert w. induction s as [|c s IH]; intros w; [exists w; split; [done|apply wrote_nil]|].
  destruct (putc_ok fd c w) as (w1 & E1 & H1). destruct (IH w1) as (w2 & E2 & H2).
  exists w2. cbn [Printf.puts]. split; [by urun E1|]. exact (wrote_app _ _ _ _ _ _ H1 H2).
Qed.
End printf.

(** ** Digits *)

Definition upcase (c : Z) : Z := if (97 <=? c) && (c <=? 122) then c - 32 else c.

Lemma digit_case n : 0 <= n < 16 ->
  aget Printf.digits n = upcase <$> aget Console.digits n /\ (n < 10 -> aget Printf.digits n = aget Console.digits n).
Proof.
  intros Hn.
  assert (Hall : forallb (fun n => bool_decide (aget Printf.digits n = upcase <$> aget Console.digits n) &&
    ((10 <=? n) || bool_decide (aget Printf.digits n = aget Console.digits n))) (seqZ 0 16) = true) by by vm_compute.
  rewrite forallb_forall in Hall. specialize (Hall n ltac:(apply list_elem_of_In, elem_of_seqZ; lia)).
  apply andb_prop in Hall as [H1%bool_decide_eq_true_1 H2]. split; [done|]. intros Hlt.
  destruct (Z.leb_spec 10 n); [lia|]. by apply bool_decide_eq_true_1 in H2.
Qed.

Lemma print_digits_ten fuel x buf : Printf.print_digits fuel x 10 buf = Console.print_digits fuel x 10 buf.
Proof.
  revert x buf. induction fuel as [|fuel IH]; intros x buf; [done|]. cbn [Printf.print_digits print_digits].
  pose proof (Z.mod_pos_bound x 10 ltac:(lia)). destruct (digit_case (x mod 10)) as [_ E]; [lia|]. rewrite E by lia.
  destruct (aget Console.digits (x mod 10)); [|done]. by rewrite IH.
Qed.

Lemma print_digits_sixteen fuel x buf buf' : buf' = map upcase buf ->
  Printf.print_digits fuel x 16 buf' = map upcase <$> Console.print_digits fuel x 16 buf.
Proof.
  revert x buf buf'. induction fuel as [|fuel IH]; intros x buf buf' ->; [done|].
  cbn [Printf.print_digits print_digits].
  destruct (digit_case (x mod 16)) as [-> _]; [pose proof (Z.mod_pos_bound x 16 ltac:(lia)); lia|].
  destruct (aget Console.digits (x mod 16)) as [d|]; [|done]. cbn [fmap option_fmap option_map].
  destruct (x / 16 =? 0); [done|].
  by apply IH.
Qed.

Lemma printint_ten xx sgn : Printf.printint_chars xx 10 sgn = Console.printint_chars xx 10 sgn.
Proof. unfold Printf.printint_chars, printint_chars. by rewrite print_digits_ten. Qed.

Lemma printint_sixteen xx sgn :
  Printf.printint_chars xx 16 sgn = map upcase <$> Console.printint_chars xx 16 sgn.
Proof.
  unfold Printf.printint_chars, printint_chars. rewrite (print_digits_sixteen _ _ []) by done.
  destruct (print_digits 33 _ 16 []) as [ds|]; [|done]. cbn. destruct (negb _ && _); unfold alen; cbn;
    rewrite length_map; by case_match.
Qed.

(** ** [printf] and [cprintf] *)

(** The letters after percent signs. *)
Fixpoint dirs (fmt : str) : list Z :=
  match fmt with
  | [] => []
  | c :: fmt' =>
      if c =? 37 then match fmt' with [] => [] | d :: fmt'' => d :: dirs fmt'' end
      else dirs fmt'
  end.

(** The text of a format and its arguments as [render] gives it, with [f] applied
    to what [%x] and [%p] print and to nothing else. *)
Fixpoint render_hex (f : str -> str) (fmt : str) (args : list carg) : option str :=
  match fmt with
  | [] => Some []
  | c :: fmt' =>
      if negb (c =? 37) then emit [c] (render_hex f fmt' args)
      else
        match fmt' with
        | [] => Some []
        | c2 :: fmt'' =>
            if c2 =? 100 then
              match args with
              | AInt z :: args' => o ← Console.printint_chars z 10 1; emit o (render_hex f fmt'' args')
              | _ => None
              end
            else if (c2 =? 120) || (c2 =? 112) then
              match args with
              | AInt z :: args' => o ← Console.printint_chars z 16 0; emit (f o) (render_hex f fmt'' args')
              | _ => None
              end
            else if c2 =? 115 then
              match args with
              | AStr s :: args' => emit (default (bytes "(null)") s) (render_hex f fmt'' args')
              | _ => None
              end
            else if c2 =? 37 then emit [37] (render_hex f fmt'' args)
            else emit [37; c2] (render_hex f fmt'' args)
        end
  end.

Section render_hex.
Implicit Types (fmt s t : str) (f : str -> str) (args : list carg).

(** Two ways of printing the digits: both have a text or neither has, and it is
    the same without [%x] and [%p]. *)
Lemma render_hex_alike f g fmt args s : render_hex f fmt args = Some s ->
  exists t, render_hex g fmt args = Some t /\ (120 ∉ dirs fmt -> 112 ∉ dirs fmt -> t = s).
Proof.
  revert args s. induction fmt as [fmt IH] using (induction_ltof1 _ (@length Z)). unfold ltof in IH. intros args s Hr.
  destruct fmt as [|c fmt]; [by exists s|].
  assert (Hstep : forall fmt' args' o o', (length fmt' < length (c :: fmt))%nat -> emit o (render_hex f fmt' args') = Some s ->
    exists t, emit o' (render_hex g fmt' args') = Some t /\ (o' = o -> 120 ∉ dirs fmt' -> 112 ∉ dirs fmt' -> t = s)).
  { intros fmt' args' o o' Hl (s' & Hs & ->)%emit_Some. destruct (IH fmt' Hl args' s' Hs) as (t & -> & Ht).
    exists (o' ++ t). split; [done|]. intros -> H1 H2. by rewrite Ht. }
  cbn [render_hex dirs] in *. destruct (Z.eqb_spec c 37) as [->|]; cbn [negb] in *.
  2:{ destruct (Hstep fmt args [c] [c]) as (t & -> & Ht); [simpl; lia|done|]. exists t. split; [done|]. by apply Ht. }
  destruct fmt as [|d fmt]; [by exists s|]. assert (Hlen : (length fmt < length (37%Z :: d :: fmt))%nat) by (simpl; lia).
  assert (Hrest : forall o args', emit o (render_hex f fmt args') = Some s ->
    exists t, emit o (render_hex g fmt args') = Some t /\ (120 ∉ d :: dirs fmt -> 112 ∉ d :: dirs fmt -> t = s)).
  { intros o args' Hr'. destruct (Hstep fmt args' o o Hlen Hr') as (t & Et & Ht). exists t. split; [exact Et|].
    intros H1 H2. apply not_elem_of_cons in H1 as [_ H1], H2 as [_ H2]. by apply Ht. }
  destruct (d =? 100); [destruct args as [|[z|] args]; [done| |done]; apply bind_Some in Hr as (o & -> & Hr); by apply Hrest|].
  destruct ((d =? 120) || (d =? 112)) eqn:Ex.
  { destruct args as [|[z|] args]; [done| |done]. apply bind_Some in Hr as (o & -> & Hr). destruct (Hstep fmt args (f o) (g o) Hlen Hr) as (t & Et & Ht).
    exists t. split; [exact Et|]. intros H1 H2. apply orb_prop in Ex. rewrite !Z.eqb_eq in Ex. apply not_elem_of_cons in H1 as [H1 _], H2 as [H2 _]. destruct Ex; congruence. }
  destruct (d =? 115); [destruct args as [|[z|] args]; [done..|by apply Hrest]|]. destruct (d =? 37); by apply Hrest.
Qed.

Lemma render_hex_id fmt args : render_hex id fmt args = render fmt args.
Proof.
  revert args. induction fmt as [fmt IH] using (induction_ltof1 _ (@length Z)). unfold ltof in IH. intros args.
  destruct fmt as [|c fmt]; [done|]. cbn [render_hex render]. destruct (negb (c =? 37)); [by rewrite IH by (simpl; lia)|].
  destruct fmt as [|d fmt]; [done|]. assert (Hl : forall a, render_hex id fmt a = render fmt a) by (intros; apply IH; simpl; lia).
  rewrite Hl. destruct args as [|[z|x] args]; [done|..]; rewrite ?Hl; done.
Qed.
End render_hex.

Section agree.
Context {W : Type} {os : OS W} {st : Streams os}.
Implicit Types (w : W) (fd c : Z) (s t : str).

(** [m] prints [t]. *)
Definition prints (m : U W unit) fd t : Prop := forall w, exists w', m w = Got tt w' /\ wrote w fd (low t) w'.

Lemma prints_seq m1 fd t1 m2 t2 : prints m1 fd t1 -> prints m2 fd t2 -> prints (m1 ;; m2) fd (t1 ++ t2).
Proof.
  intros H1 H2 w. destruct (H1 w) as (w1 & E1 & W1). destruct (H2 w1) as (w2 & E2 & W2).
  exists w2. split; [by urun E1|]. unfold low. rewrite fmap_app. by eapply wrote_app.
Qed.

Lemma prints_putc fd c : prints (Printf.putc fd c) fd [c].
Proof. intros w. apply putc_ok. Qed.

Lemma prints_puts fd s : prints (Printf.puts fd s) fd s.
Proof. intros w. apply puts_ok. Qed.

Lemma prints_nil fd : prints (mret tt) fd [].
Proof. intros w. exists w. split; [done|apply wrote_nil]. Qed.

Lemma printf_loop_ok fd fmt args t :
  render_hex (map upcase) fmt args = Some t -> 99 ∉ dirs fmt -> prints (Printf.printf_loop fd false fmt args) fd t.
Proof.
  revert args t. induction fmt as [fmt IH] using (induction_ltof1 _ (@length Z)). unfold ltof in IH. intros args t Hr Hc.
  destruct fmt as [|c fmt]; [injection Hr as <-; apply prints_nil|].
  assert (Hstep : forall fmt' args' m o, (length fmt' < length (c :: fmt))%nat -> 99 ∉ dirs fmt' -> prints m fd o ->
    emit o (render_hex (map upcase) fmt' args') = Some t -> prints (m ;; Printf.printf_loop fd false fmt' args') fd t).
  { intros fmt' args' m o Hl Hc' Hm (s' & Hs & ->)%emit_Some. apply prints_seq; [done|]. by apply IH. }
  cbn [render_hex] in Hr. cbn [Printf.printf_loop dirs] in *. destruct (Z.eqb_spec c 37) as [->|Hne]; cbn [negb] in *.
  2:{ apply (Hstep fmt args _ [c]); [simpl; lia|done|apply prints_putc|done]. }
  destruct fmt as [|d fmt]; [injection Hr as <-; apply prints_nil|]. assert (Hlen : (length fmt < length (37%Z :: d :: fmt))%nat) by (simpl; lia).
  cbn [Printf.printf_loop negb] in *. apply not_elem_of_cons in Hc as [Hd Hc].
  destruct (d =? 100).
  { destruct args as [|[z|] args]; [done| |done]. apply bind_Some in Hr as (o & Ho & Hr). apply (Hstep fmt args _ o Hlen Hc); [|done].
    unfold Printf.printint. rewrite printint_ten, Ho. apply prints_puts. }
  destruct ((d =? 120) || (d =? 112)).
  { destruct args as [|[z|] args]; [done| |done]. apply bind_Some in Hr as (o & Ho & Hr). apply (Hstep fmt args _ (map upcase o) Hlen Hc); [|done].
    unfold Printf.printint. rewrite printint_sixteen, Ho. apply prints_puts. }
  destruct (d =? 115); [destruct args as [|[|s0] args]; [done..|]; by apply (Hstep fmt args _ (default (bytes "(null)") s0) Hlen Hc); [apply prints_puts|]|].
  destruct (Z.eqb_spec d 99); [done|]. destruct (Z.eqb_spec d 37) as [->|H37]; [by apply (Hstep fmt args _ [37] Hlen Hc); [apply prints_putc|]|].
  apply emit_Some in Hr as (s' & Hs & ->). change ([37; d] ++ s') with ([37] ++ [d] ++ s'). apply prints_seq; [apply prints_putc|]. apply prints_seq; [apply prints_putc|]. by apply IH.
Qed.

(** What [printf] prints, next to what [cprintf] would. *)
Lemma printf_ok fd fmt args s w : render fmt args = Some s -> 99 ∉ dirs fmt ->
  exists w' t, Printf.printf fd fmt args w = Got tt w' /\ wrote w fd (low t) w' /\
    render_hex (map upcase) fmt args = Some t /\ (120 ∉ dirs fmt -> 112 ∉ dirs fmt -> t = s).
Proof.
  rewrite <- render_hex_id. intros Hr Hc.
  destruct (render_hex_alike id (map upcase) fmt args s Hr) as (t & Ht & Hs). destruct (printf_loop_ok fd fmt args t Ht Hc w) as (w' & E & Hw). by exists w', t.
Qed.
End agree.

(** C40. The user library prints like the kernel.  Let [s] be the text of a format
    without [%c], which [cprintf] does not know, and its arguments.  On a quiet
    console, locking or not, [cprintf] puts [s] on the console; [printf] writes
    [t] to its descriptor, which is [s] with the digits that [%x] and [%p] print
    in upper case: the same text where the format has neither. *)
Theorem printf_agrees_with_cprintf {W} {os : OS W} {st : Streams os} (fd : Z) (fmt : str) (args : list carg) (s : str) (k : kernel) (w : W) :
  render fmt args = Some s -> 99 ∉ dirs fmt -> cons_ready k ->
  cprintf fmt args k = Ret tt ((kst k (cons_mach k)) <| k_console ::= fun o => o ++ s |>) /\
  exists w' t, Printf.printf fd fmt args w = Got tt w' /\ wrote w fd (low t) w' /\
    render_hex (map upcase) fmt args = Some t /\ (120 ∉ dirs fmt -> 112 ∉ dirs fmt -> t = s).
Proof. intros Hr Hc Hl. split; [by apply cprintf_run|by apply printf_ok]. Qed.

(** ** [atoi] *)

Lemma atoi_loop_digits ds : forall n,
  Forall (fun d => 48 <= d <= 57) ds -> 0 <= n ->
  0 <= fold_left (fun acc d => acc * 10 + digit_val d) ds n < 2 ^ 31 ->
  atoi_loop n ds = fold_left (fun acc d => acc * 10 + digit_val d) ds n.
Proof.
  induction ds as [|d ds IH]; intros n Hd Hn Hb; [done|]. apply Forall_cons in Hd as [Hd Hds].
  assert (Hmono : forall ds n, Forall (fun d => 48 <= d <= 57) ds -> 0 <= n ->
    n <= fold_left (fun acc d => acc * 10 + digit_val d) ds n).
  { clear. induction ds as [|d ds IH]; intros n Hd Hn; [simpl; lia|]. apply Forall_cons in Hd as [Hd Hds]. cbn [fold_left].
    assert (0 <= digit_val d) by (unfold digit_val; destruct (Z.leb_spec d 57); lia).
    etrans; [|apply IH; [done|lia]]. lia. }
  assert (Hv : digit_val d = d - 48) by (unfold digit_val; destruct (Z.leb_spec d 57); lia).
  cbn [atoi_loop fold_left] in *. rewrite Hv in *. destruct (Z.leb_spec 48 d); [|lia]. destruct (Z.leb_spec d 57); [|lia].
  cbn [andb]. specialize (Hmono ds (n * 10 + (d - 48)) Hds ltac:(lia)).
  assert (i32 (n * 10 + d - 48) = n * 10 + (d - 48)) as ->.
  { unfold i32, u32. rewrite Z.mod_small by lia. destruct (Z.ltb_spec (n * 10 + d - 48) (2 ^ 31)); lia. }
  by apply IH; [|lia|].
Qed.

Definition decimal (d : Z) : Prop := 48 <= d <= 57.

Lemma digit_decimal x d : aget Console.digits (x mod 10) = Some d -> decimal d.
Proof.
  intros H. pose proof (Z.mod_pos_bound x 10 ltac:(lia)) as Hx.
  assert (Hall : forallb (fun n => match aget Console.digits n with
    | Some d => (48 <=? d) && (d <=? 57) | None => true end) (seqZ 0 10) = true) by by vm_compute.
  rewrite forallb_forall in Hall. specialize (Hall (x mod 10) ltac:(apply list_elem_of_In, elem_of_seqZ; lia)).
  rewrite H in Hall. apply andb_prop in Hall as [?%Z.leb_le ?%Z.leb_le]. done.
Qed.

Lemma print_digits_decimal fuel x buf ds :
  Forall decimal buf -> Console.print_digits fuel x 10 buf = Some ds -> Forall decimal ds.
Proof.
  revert x buf. induction fuel as [|fuel IH]; intros x buf Hb; [done|]. cbn [print_digits].
  destruct (aget Console.digits (x mod 10)) as [d|] eqn:E; [|done]. pose proof (digit_decimal _ _ E) as Hd.
  destruct (x / 10 =? 0); [intros [= <-]; by constructor|]. apply IH. by constructor.
Qed.

(** A number read up to the first character that is not a digit. *)
Lemma atoi_stops n ds rest : (forall c, head rest = Some c -> ~ decimal c) ->
  Forall decimal ds -> atoi_loop n (ds ++ rest) = atoi_loop n ds.
Proof.
  intros Hr. revert n. induction ds as [|d ds IH]; intros n Hd.
  - destruct rest as [|c rest]; [done|]. specialize (Hr c eq_refl). unfold decimal in Hr. cbn [app atoi_loop].
    destruct (Z.leb_spec 48 c), (Z.leb_spec c 57); try done. lia.
  - apply Forall_cons in Hd as [Hd Hds]. cbn [app atoi_loop]. destruct (_ && _); [by apply IH|done].
Qed.

(** Round trip.  [atoi] reads back the number that [printf("%d")] prints,
    whatever text follows it that does not start with a digit; a negative
    number, whose sign [atoi] does not know, reads as 0. *)
Theorem atoi_printint (n : Z) (rest : str) :
  - 2 ^ 31 <= n < 2 ^ 31 -> (forall c, head rest = Some c -> ~ (48 <= c <= 57)) ->
  exists ds, Printf.printint_chars n 10 1 = Some ds /\ atoi (ds ++ rest) = if n <? 0 then 0 else n.
Proof.
  intros Hn Hrest. rewrite printint_ten. unfold printint_chars. change (negb (1 =? 0)) with true. cbn [andb].
  assert (i32 n = n) as ->.
  { unfold i32, u32. destruct (Z.ltb_spec n 0).
    - rewrite <- (Z.mod_add n 1) by lia. rewrite Z.mod_small by lia. destruct (Z.ltb_spec (n + 1 * 2 ^ 32) (2 ^ 31)); lia.
    - rewrite Z.mod_small by lia. destruct (Z.ltb_spec n (2 ^ 31)); lia. }
  set (x := u32 (if n <? 0 then - n else n)).
  assert (Hx : x = Z.abs n) by (unfold x, u32; destruct (Z.ltb_spec n 0); rewrite Z.mod_small; lia).
  destruct (print_digits_val 9 33 x 10 []) as (ds & Hp & Hv & Hl); [lia|lia|change (10 ^ Z.of_nat 10) with (10 ^ 10); lia|].
  rewrite Hp, app_nil_r. pose proof (print_digits_decimal _ _ [] _ (Forall_nil_2 _) Hp) as Hd. rewrite app_nil_r in Hd.
  destruct (Z.ltb_spec n 0) as [Hneg|Hpos].
  - exists (45 :: ds). split; [|done]. unfold alen. cbn [length]. destruct (Z.leb_spec (Z.of_nat (S (length ds))) 16); [done|lia].
  - exists ds. unfold alen. destruct (Z.leb_spec (Z.of_nat (length ds)) 16); [|lia]. split; [done|].
    unfold atoi. rewrite atoi_stops by done. unfold digits_val in Hv. rewrite atoi_loop_digits, Hv; [lia|done|lia|lia].
Qed.
