(* ===== verification/Tools.v ===== *)
(** * Command line tools

    [cat], [wc], [grep], [echo], [kill], [ln], [mkdir], [rm], [ls], [init] and
    [zombie].  [main] takes the arguments after the program name.  A loop that
    waits for the end of its input has at most [wakeups] rounds. *)

From S2P Require Import Prelude State Console User.
Import Ulib Printf.
Open Scope Z_scope.

(** String literals of the programs; [nl] is the newline character. *)
Definition nl : Z := 10.
Definition line (s : string) : str := bytes s ++ [nl].

Section tools.
Context {W : Type} {os : OS W} {fuel : Fuel}.

(** Open each of the files in turn and run [body] on it. *)
Fixpoint for_files (what : string) (body : Z -> str -> U W unit) (files : list str) : U W unit :=
  match files with
  | [] => uexit
  | a :: files' =>
      fd ← sys (Open a 0);
      if fd <? 0 then printf 1 (bytes what ++ line ": cannot open %s") [AStr (Some a)] ;; uexit
      else
        body fd a ;;
        sys (Close fd) ;;
        for_files what body files'
  end.

(** ** [cat.c] *)

Fixpoint cat_loop (f : nat) (fd : Z) (buf : list Z) : U W unit :=
  match f with
  | O => fun _ => Stuck
  | S f' =>
      '(n, buf) ← uread fd buf 0 512;
      if 0 <? n then
        r ← sys (Write 1 (take (Z.to_nat n) buf));
        if negb (r =? n) then printf 1 (line "cat: write error") [] ;; uexit
        else cat_loop f' fd buf
      else if n <? 0 then printf 1 (line "cat: read error") [] ;; uexit
      else mret tt
  end.
Definition cat (fd : Z) : U W unit := cat_loop wakeups fd (replicate 512 0).
Definition cat_main (argv : list str) : U W unit :=
  match argv with
  | [] => cat 0 ;; uexit
  | _ => for_files "cat" (fun fd _ => cat fd) argv
  end.

(** ** [wc.c] *)

Record counts := mkcounts { wc_l : Z; wc_w : Z; wc_c : Z; wc_inword : bool }.

Definition spaces : str := bytes " " ++ [13; 9; 10; 11].
Definition wc_char (s : counts) (ch : Z) : counts :=
  let '(mkcounts l w c inword) := s in
  let c := i32 (c + 1) in
  let l := if ch =? nl then i32 (l + 1) else l in
  if isin spaces ch then mkcounts l w c false
  else if negb inword then mkcounts l (i32 (w + 1)) c true
  else mkcounts l w c inword.

Fixpoint wc_loop (f : nat) (fd : Z) (buf : list Z) (s : counts) : U W (Z * counts) :=
  match f with
  | O => fun _ => Stuck
  | S f' =>
      '(n, buf) ← uread fd buf 0 512;
      if 0 <? n then wc_loop f' fd buf (foldl wc_char s (take (Z.to_nat n) buf))
      else mret (n, s)
  end.
Definition wc (fd : Z) (name : str) : U W unit :=
  '(n, s) ← wc_loop wakeups fd (replicate 512 0) (mkcounts 0 0 0 false);
  if n <? 0 then printf 1 (line "wc: read error") [] ;; uexit
  else printf 1 (line "%d %d %d %s") [AInt (wc_l s); AInt (wc_w s); AInt (wc_c s); AStr (Some name)].
Definition wc_main (argv : list str) : U W unit :=
  match argv with
  | [] => wc 0 [] ;; uexit
  | _ => for_files "wc" wc argv
  end.

(** ** [grep.c] *)

(** The loop goes on while the text goes on with [c], or with anything if [c]
    is a dot. *)
Fixpoint matchstar (here : str -> bool) (c : Z) (text : str) : bool :=
  here text ||
  match text with
  | [] => false
  | x :: text' => ((x =? c) || (c =? 46)) && matchstar here c text'
  end.

Fixpoint matchhere (re text : str) {struct re} : bool :=
  match re with
  | [] => true
  | c :: re1 =>
      let chars :=
        if (c =? 36) && (if re1 is [] then true else false) then if text is [] then true else false
        else
          match text with
          | [] => false
          | x :: text' => ((c =? 46) || (c =? x)) && matchhere re1 text'
          end in
      match re1 with
      | d :: re2 => if d =? 42 then matchstar (matchhere re2) c text else chars
      | [] => chars
      end
  end.

Fixpoint match_any (re text : str) : bool :=
  matchhere re text || match text with [] => false | _ :: text' => match_any re text' end.
Definition match_ (re text : str) : bool :=
  match re with
  | c :: re1 => if c =? 94 then matchhere re1 text else match_any re text
  | [] => match_any re text
  end.

(** The inner loop: print the complete lines from index [p] that match.  Each
    round consumes a newline. *)
Fixpoint grep_lines (f : nat) (pattern : str) (buf : list Z) (p : Z) : U W (list Z * Z) :=
  match f with
  | O => fun _ => Stuck
  | S f' =>
      match string_at buf p with
      | None => crash "strchr"
      | Some s =>
          match strchr s nl with
          | None => mret (buf, p)
          | Some i =>
              let q := p + i in
              buf ← uwr buf q 0;
              match string_at buf p with
              | None => crash "match"
              | Some text =>
                  buf ← (if match_ pattern text then
                           buf ← uwr buf q nl;
                           sys (Write 1 (take (Z.to_nat (q + 1 - p)) (drop (Z.to_nat p) buf))) ;;
                           mret buf
                         else mret buf);
                  grep_lines f' pattern buf (q + 1)
              end
          end
      end
  end.

Fixpoint grep_loop (f : nat) (pattern : str) (fd : Z) (buf : list Z) (m : Z) : U W unit :=
  match f with
  | O => fun _ => Stuck
  | S f' =>
      '(n, buf) ← uread fd buf m (1024 - m - 1);
      if 0 <? n then
        let m := m + n in
        buf ← uwr buf m 0;
        '(buf, p) ← grep_lines 1025 pattern buf 0;
        let m := if p =? 0 then 0 else m in
        if 0 <? m then
          let m := m - p in
          buf ← memmove buf 0 p m;
          grep_loop f' pattern fd buf m
        else grep_loop f' pattern fd buf m
      else mret tt
  end.
Definition grep (pattern : str) (fd : Z) : U W unit := grep_loop wakeups pattern fd (replicate 1024 0) 0.

Definition grep_main (argv : list str) : U W unit :=
  match argv with
  | [] => printf 2 (line "usage: grep pattern [file ...]") [] ;; uexit
  | [pattern] => grep pattern 0 ;; uexit
  | pattern :: files => for_files "grep" (fun fd _ => grep pattern fd) files
  end.

(** ** [echo.c], [kill.c], [ln.c], [mkdir.c], [rm.c] *)

Fixpoint echo_main (argv : list str) : U W unit :=
  match argv with
  | [] => uexit
  | a :: rest =>
      printf 1 (bytes "%s%s") [AStr (Some a); AStr (Some (if rest is [] then [nl] else bytes " "))] ;;
      echo_main rest
  end.

Fixpoint kill_each (argv : list str) : U W unit :=
  match argv with
  | [] => uexit
  | a :: rest => sys (Kill (atoi a)) ;; kill_each rest
  end.
Definition kill_main (argv : list str) : U W unit :=
  match argv with
  | [] => printf 2 (line "usage: kill pid...") [] ;; uexit
  | _ => kill_each argv
  end.

Definition ln_main (argv : list str) : U W unit :=
  match argv with
  | [old; new] =>
      r ← sys (Link old new);
      uwhen (r <? 0) (printf 2 (line "link %s %s: failed") [AStr (Some old); AStr (Some new)]) ;;
      uexit
  | _ => printf 2 (line "Usage: ln old new") [] ;; uexit
  end.

(** The loop stops at the first failure. *)
Fixpoint each_until (c : str -> call) (failed : str) (argv : list str) : U W unit :=
  match argv with
  | [] => uexit
  | a :: rest =>
      r ← sys (c a);
      if r <? 0 then printf 2 failed [AStr (Some a)] ;; uexit
      else each_until c failed rest
  end.
Definition mkdir_main (argv : list str) : U W unit :=
  match argv with
  | [] => printf 2 (line "Usage: mkdir files...") [] ;; uexit
  | _ => each_until Mkdir (line "mkdir: %s failed to create") argv
  end.
Definition rm_main (argv : list str) : U W unit :=
  match argv with
  | [] => printf 2 (line "Usage: rm files...") [] ;; uexit
  | _ => each_until Unlink (line "rm: %s failed to delete") argv
  end.

(** ** [ls.c] *)

Definition DIRNAME : Z := 14.

(** What follows the last slash. *)
Fixpoint basename (path : str) : str :=
  match path with
  | [] => []
  | c :: path' => if isin path' 47 then basename path' else if c =? 47 then path' else path
  end.
Definition fmtname (path : str) : str :=
  let p := basename path in
  if DIRNAME <=? strlen p then p else p ++ replicate (Z.to_nat (DIRNAME - strlen p)) 32.

(** The C string at index [i] of an array. *)
Definition ustring (l : list Z) (i : Z) : U W str :=
  match string_at l i with Some t => mret t | None => crash "string" end.

(** One entry, whose name is stored at [p] in [buf]. *)
Definition ls_entry (buf : list Z) (p : Z) (de : list Z) : U W (list Z) :=
  buf ← ustore buf p (take (Z.to_nat DIRNAME) (drop 2 de));
  buf ← uwr buf (p + DIRNAME) 0;
  name ← ustring buf p;
  c ← urd buf (p + strlen name - 2);
  if c =? 36 then
    d ← urd buf (p + strlen name - 1);
    cid ← sys GetContainerId;
    if d =? cid + 48 then
      fcid ← sys (GetFileContainerId name);
      if negb (fcid =? 0) then
        buf ← uwr buf (p + strlen name - 2) 0;
        name ← ustring buf p;
        printf 1 (line "%s") [AStr (Some name)] ;;
        mret buf
      else mret buf
    else mret buf
  else
    printf 1 (line "%s") [AStr (Some name)] ;;
    mret buf.

Fixpoint ls_loop (f : nat) (fd : Z) (buf : list Z) (p : Z) : U W unit :=
  match f with
  | O => fun _ => Stuck
  | S f' =>
      '(n, de) ← uread fd (replicate 16 0) 0 16;
      if n =? 16 then
        lo ← urd de 0;
        hi ← urd de 1;
        if lo + 256 * hi =? 0 then ls_loop f' fd buf p
        else buf ← ls_entry buf p de; ls_loop f' fd buf p
      else mret tt
  end.

(** [fstat] stores the fields of [struct stat]: type, device, inode, links, size. *)
Definition ls (path : str) : U W unit :=
  fd ← sys (Open path 0);
  if fd <? 0 then printf 2 (line "ls: cannot open %s") [AStr (Some path)]
  else
    '(r, st) ← sys_data (Fstat fd);
    if r <? 0 then
      printf 2 (line "ls: cannot stat %s") [AStr (Some path)] ;;
      sys (Close fd) ;;
      mret tt
    else
      type ← urd st 0;
      ino ← urd st 2;
      size ← urd st 4;
      (if type =? 2 then
         printf 1 (line "%s %d %d %d") [AStr (Some (fmtname path)); AInt type; AInt ino; AInt size]
       else if type =? 1 then
         if 512 <? strlen path + 1 + DIRNAME + 1 then printf 1 (line "ls: path too long") []
         else
           buf ← strcpy (replicate 512 0) 0 path;
           buf ← uwr buf (strlen path) 47;
           ls_loop wakeups fd buf (strlen path + 1)
       else mret tt) ;;
      sys (Close fd) ;;
      mret tt.

Fixpoint ls_each (argv : list str) : U W unit :=
  match argv with [] => uexit | a :: argv' => ls a ;; ls_each argv' end.
Definition ls_main (argv : list str) : U W unit :=
  match argv with [] => ls (bytes ".") ;; uexit | _ => ls_each argv end.

(** ** [zombie.c], [init.c] *)

Definition zombie_main : U W unit :=
  pid ← sys Fork;
  uwhen (0 <? pid) (sys (Sleep 5) ;; mret tt) ;;
  uexit.

Fixpoint reap_loop (f : nat) (pid : Z) : U W unit :=
  match f with
  | O => fun _ => Stuck
  | S f' =>
      wpid ← sys Wait;
      if (0 <=? wpid) && negb (wpid =? pid) then printf 1 (line "zombie!") [] ;; reap_loop f' pid
      else mret tt
  end.
Fixpoint init_loop (f : nat) : U W unit :=
  match f with
  | O => fun _ => Stuck
  | S f' =>
      printf 1 (line "init: starting sh") [] ;;
      pid ← sys Fork;
      if pid <? 0 then printf 1 (line "init: fork failed") [] ;; uexit
      else if pid =? 0 then
        uexec (bytes "sh") [bytes "sh"] ;;
        printf 1 (line "init: exec sh failed") [] ;;
        uexit
      else
        reap_loop wakeups pid ;;
        init_loop f'
  end.
Definition init_main : U W unit :=
  fd ← sys (Open (bytes "console") 2);
  uwhen (fd <? 0)
    (sys (Mknod (bytes "console") 1 1) ;;
     sys (Open (bytes "console") 2) ;;
     mret tt) ;;
  sys (Dup 0) ;;
  sys (Dup 0) ;;
  init_loop wakeups.
End tools.
