(* ===== verification/ToolsSpec.v ===== *)
(** * What the tools compute

    The matcher of [grep] against the language of its patterns; [cat] and [wc]
    for any way the kernel splits the input into reads. *)

From S2P Require Import Prelude State Console User UserSpec Tools.
Import Ulib Printf.
Open Scope Z_scope.

(** ** Patterns *)

(** Text that starts with a match of a pattern: [.] (46) is any character, [*]
    (42) repeats the character before it, [$] (36) at the end of the pattern is
    the end of the text. *)
Inductive here : str -> str -> Prop :=
  | here_nil t : here [] t
  | here_star c re t1 t2 :
      Forall (fun x => x = c \/ c = 46) t1 -> here re t2 -> here (c :: 42 :: re) (t1 ++ t2)
  | here_end : here [36] []
  | here_char c re x t :
      head re <> Some 42 -> ~ (c = 36 /\ re = []) -> c = 46 \/ c = x -> here re t -> here (c :: re) (x :: t).

(** Text with a match, at its start if the pattern begins with [^] (94). *)
Definition matches (re text : str) : Prop :=
  match re with
  | 94 :: re1 => here re1 text
  | _ => exists t1 t2, text = t1 ++ t2 /\ here re t2
  end.

Lemma matchstar_spec (h : str -> bool) (H : str -> Prop) c t :
  (forall t, h t = true <-> H t) ->
  matchstar h c t = true <-> exists t1 t2, t = t1 ++ t2 /\ Forall (fun x => x = c \/ c = 46) t1 /\ H t2.
Proof.
  intros Hh. induction t as [|x t IH]; cbn [matchstar].
  - rewrite orb_false_r, Hh. split.
    + intros Ht. by exists [], [].
    + intros (t1 & t2 & E & _ & Ht). by apply eq_sym, app_eq_nil in E as [-> ->].
  - rewrite orb_true_iff, andb_true_iff, orb_true_iff, !Z.eqb_eq, Hh, IH. split.
    + intros [Ht|[Hx (t1 & t2 & -> & Hf & Ht)]]; [by exists [], (x :: t)|].
      exists (x :: t1), t2. split; [done|]. split; [by constructor|done].
    + intros ([|y t1] & t2 & E & Hf & Ht); [left; by rewrite E|]. right. injection E as -> ->.
      apply Forall_cons in Hf as [Hx Hf]. split; [done|]. eauto.
Qed.

Lemma here_chars_inv c re x t : head re <> Some 42 -> ~ (c = 36 /\ re = []) ->
  here (c :: re) (x :: t) -> (c = 46 \/ c = x) /\ here re t.
Proof. intros Hs Hd H. inversion H; subst; [done|done]. Qed.

Lemma matchhere_spec re t : matchhere re t = true <-> here re t.
Proof.
  remember (length re) as n eqn:Hn. revert re Hn t. induction (lt_wf n) as [n _ IH]. intros re -> t.
  destruct re as [|c re1]; [split; [constructor|done]|]. cbn [matchhere].
  set (chars := if _ && _ then _ else _).
  assert (Hchars : head re1 <> Some 42 -> chars = true <-> here (c :: re1) t).
  { intros Hs. unfold chars. destruct (Z.eqb_spec c 36) as [->|Hc], re1 as [|d re2] eqn:Er; cbn [andb].
    - destruct t as [|x t]; split; try done; [constructor|]. intros H. inversion H; subst. naive_solver.
    - destruct t as [|x t]; [split; [done|intros H; inversion H; subst; naive_solver]|].
      rewrite andb_true_iff, orb_true_iff, !Z.eqb_eq, (IH (length (d :: re2))) by (simpl; lia || done).
      split; [intros [Hx Ht]; apply here_char; naive_solver|]. intros H. apply here_chars_inv in H; naive_solver.
    - destruct t as [|x t]; [split; [done|intros H; inversion H; subst; naive_solver]|].
      rewrite andb_true_iff, orb_true_iff, !Z.eqb_eq, (IH (length (@nil Z))) by (simpl; lia || done).
      split; [intros [Hx Ht]; apply here_char; naive_solver|]. intros H. apply here_chars_inv in H; naive_solver.
    - destruct t as [|x t]; [split; [done|intros H; inversion H; subst; naive_solver]|].
      rewrite andb_true_iff, orb_true_iff, !Z.eqb_eq, (IH (length (d :: re2))) by (simpl; lia || done).
      split; [intros [Hx Ht]; apply here_char; naive_solver|]. intros H. apply here_chars_inv in H; naive_solver. }
  destruct re1 as [|d re2]; [by apply Hchars|]. destruct (Z.eqb_spec d 42) as [->|Hd]; [|apply Hchars; simpl; congruence].
  rewrite (matchstar_spec _ (here re2)) by (intros t'; apply (IH (length re2)); [simpl; lia|done]). split.
  - intros (t1 & t2 & -> & Hf & Ht). by constructor.
  - intros H. inversion H; subst; [eauto|done].
Qed.

Lemma match_any_spec re t : match_any re t = true <-> exists t1 t2, t = t1 ++ t2 /\ here re t2.
Proof.
  induction t as [|x t IH]; cbn [match_any].
  - rewrite orb_false_r, matchhere_spec. split; [by exists [], []|].
    intros (t1 & t2 & E & H). by apply eq_sym, app_eq_nil in E as [-> ->].
  - rewrite orb_true_iff, matchhere_spec, IH. split.
    + intros [H|(t1 & t2 & -> & H)]; [by exists [], (x :: t)|by exists (x :: t1), t2].
    + intros ([|y t1] & t2 & E & H); [left; by rewrite E|right]. injection E as -> ->. eauto.
Qed.

(** C38. The matcher of [grep] decides the language of its patterns: it answers
    yes exactly for the texts that have a match, at their start for a pattern
    that begins with a circumflex. *)
Theorem match_decides (re text : str) : match_ re text = true <-> matches re text.
Proof.
  unfold match_, matches. destruct re as [|c re1]; [apply match_any_spec|].
  destruct (Z.eqb_spec c 94) as [->|Hc]; [apply matchhere_spec|]. rewrite match_any_spec.
  destruct c as [|c|c]; try done. do 7 (destruct c as [c|c|]; try done).
Qed.

(** ** Reading to the end *)

Section streams.
Context {W : Type} {os : OS W} {st : Streams os}.
Implicit Types (w : W) (fd n m : Z) (buf : list Z).

Lemma uread_ok fd buf i n w :
  0 < n -> 0 <= i -> i + n <= alen buf ->
  exists data w', uread fd buf i n w =
      Got (alen data, take (Z.to_nat i) buf ++ data ++ drop (Z.to_nat i + length data) buf) w' /\
    alen data <= n /\ inp fd w = data ++ inp fd w' /\ (data = [] -> inp fd w = []) /\ forall f, out f w' = out f w.
Proof.
  intros Hn Hi Hl. destruct (read_stream fd n w Hn) as (data & w' & E & Hd & H1 & H2 & H3).
  exists data, w'. split_and!; try done. unfold uread, mbind, U_bind, sys_data. rewrite E. cbn [rp_val rp_data].
  destruct (Z.leb_spec (alen data) 0) as [Hz|Hz].
  - assert (data = []) as -> by (destruct data; [done|rewrite alen_cons in Hz; pose proof (alen_nonneg data); lia]).
    cbn [app length]. rewrite Nat.add_0_r, take_drop. done.
  - unfold alen at 1. rewrite Nat2Z.id, firstn_all. unfold ustore.
    destruct (Z.leb_spec 0 i); [|lia]. destruct (Z.leb_spec (i + alen data) (alen buf)); [|lia]. done.
Qed.

(** Reading into the start of a buffer of [n] bytes. *)
Lemma uread_start fd buf n w :
  0 < n -> alen buf = n ->
  exists data buf' w', uread fd buf 0 n w = Got (alen data, buf') w' /\ alen buf' = n /\
    take (Z.to_nat (alen data)) buf' = data /\ inp fd w = data ++ inp fd w' /\ (data = [] -> inp fd w = []) /\
    forall f, out f w' = out f w.
Proof.
  intros Hn Hl. destruct (uread_ok fd buf 0 n w) as (data & w' & E & Hd & H); [lia..|].
  exists data, (data ++ drop (length data) buf), w'. split; [exact E|]. split; [|split; [|done]].
  - unfold alen in *. rewrite length_app, length_drop. lia.
  - unfold alen. rewrite Nat2Z.id. apply take_app_length.
Qed.

Lemma alen_pos {A} (l : list A) : l <> [] -> 0 < alen l.
Proof. destruct l; [done|]. rewrite alen_cons. pose proof (alen_nonneg l). lia. Qed.

Lemma cat_loop_ok f fd buf w :
  (length (inp fd w) < f)%nat -> alen buf = 512 ->
  exists w', cat_loop f fd buf w = Got tt w' /\ out 1 w' = out 1 w ++ inp fd w /\ inp fd w' = [].
Proof.
  revert buf w. induction f as [|f IH]; intros buf w Hf Hb; [lia|]. cbn [cat_loop].
  destruct (uread_start fd buf 512 w) as (data & buf' & w1 & E & Hb' & Ht & Hi & He & Ho); [lia|done|].
  urun E. destruct (decide (data = [])) as [->|Hne].
  - change (alen (@nil Z)) with 0. rewrite Z.ltb_irrefl. exists w1. rewrite Ho, (He eq_refl), app_nil_r. split_and!; [done..|]. rewrite (He eq_refl) in Hi. done.
  - pose proof (alen_pos _ Hne) as Hp. destruct (Z.ltb_spec 0 (alen data)); [|lia]. rewrite Ht.
    destruct (write_stream 1 data w1) as (w2 & E2 & O2 & I2).
    assert (E2' : sys (Write 1 data) w1 = Got (alen data) w2) by (unfold sys; by rewrite E2).
    urun E2'. rewrite Z.eqb_refl. cbn [negb].
    destruct (IH buf' w2) as (w3 & E3 & O3 & I3); [|done|].
    { rewrite I2. rewrite Hi, length_app in Hf. unfold alen in Hp. lia. }
    exists w3. split_and!; [done| |done]. by rewrite O3, O2, Ho, I2, Hi, app_assoc.
Qed.

Lemma wc_loop_ok f fd buf s w :
  (length (inp fd w) < f)%nat -> alen buf = 512 ->
  exists w', wc_loop f fd buf s w = Got (0, foldl wc_char s (inp fd w)) w' /\
    inp fd w' = [] /\ forall x, out x w' = out x w.
Proof.
  revert buf s w. induction f as [|f IH]; intros buf s w Hf Hb; [lia|]. cbn [wc_loop].
  destruct (uread_start fd buf 512 w) as (data & buf' & w1 & E & Hb' & Ht & Hi & He & Ho); [lia|done|].
  urun E. destruct (decide (data = [])) as [->|Hne].
  - rewrite (He eq_refl) in *. exists w1. done.
  - pose proof (alen_pos _ Hne) as Hp. destruct (Z.ltb_spec 0 (alen data)); [|lia]. rewrite Ht.
    destruct (IH buf' (foldl wc_char s data) w1) as (w2 & E2 & I2 & O2); [|done|].
    { rewrite Hi, length_app in Hf. unfold alen in Hp. lia. }
    exists w2. rewrite E2, Hi, foldl_app. split_and!; [done..|]. intros x. by rewrite O2.
Qed.
End streams.

(** [cat] copies its input to its output, for any way the kernel splits the
    input into reads; as many rounds as there are bytes of input are enough. *)
Theorem cat_copies {W} {os : OS W} {st : Streams os} {fuel : Fuel} (fd : Z) (w : W) :
  (length (inp fd w) < wakeups)%nat ->
  exists w', cat fd w = Got tt w' /\ out 1 w' = out 1 w ++ inp fd w /\ inp fd w' = [].
Proof. intros Hf. by apply cat_loop_ok. Qed.

(** ** Counting *)

Section count.
Implicit Types (t : str) (x : Z).

Definition space x : bool := isin spaces x.

(** The text split at every white space character. *)
Fixpoint fields t : list str :=
  match t with
  | [] => [[]]
  | x :: t' =>
      if space x then [] :: fields t'
      else match fields t' with f :: fs => (x :: f) :: fs | [] => [[x]] end
  end.

Definition nlines t : Z := alen (filter (.= nl) t).
Definition nwords t : Z := alen (filter (.≠ []) (fields t)).

Definition nonspace_first t : bool := match t with x :: _ => negb (space x) | [] => false end.

Lemma fields_cons t : exists f fs, fields t = f :: fs /\ bool_decide (f <> []) = nonspace_first t.
Proof.
  destruct t as [|x t]; cbn [fields nonspace_first]; [by exists [], []|].
  destruct (space x); [by exists [], (fields t)|]. by destruct (fields t); eexists _, _.
Qed.

Lemma nwords_cons x t :
  nwords (x :: t) = if space x then nwords t else nwords t + 1 - (if nonspace_first t then 1 else 0).
Proof.
  unfold nwords. cbn [fields]. destruct (space x).
  - rewrite filter_cons_False by naive_solver. done.
  - destruct (fields_cons t) as (f & fs & -> & Hf). rewrite filter_cons_True by discriminate. rewrite <- Hf.
    rewrite !alen_cons. case_bool_decide.
    + rewrite filter_cons_True by done. rewrite alen_cons. lia.
    + rewrite filter_cons_False by naive_solver. lia.
Qed.

Lemma i32_id v : 0 <= v < 2 ^ 31 -> i32 v = v.
Proof. intros Hv. unfold i32, u32. rewrite Z.mod_small by lia. destruct (Z.ltb_spec v (2 ^ 31)); lia. Qed.

Lemma wc_fold t l w c (inw : bool) :
  0 <= l -> 0 <= w -> 0 <= c -> l + alen t < 2 ^ 31 -> w + alen t < 2 ^ 31 -> c + alen t < 2 ^ 31 ->
  exists inw', foldl wc_char (mkcounts l w c inw) t =
    mkcounts (l + nlines t) (w + nwords t - (if inw && nonspace_first t then 1 else 0)) (c + alen t) inw'.
Proof.
  revert l w c inw. induction t as [|x t IH]; intros l w c inw Hl Hw Hc Hl' Hw' Hc'.
  - exists inw. cbn [foldl nonspace_first]. rewrite andb_false_r.
    change (nlines []) with 0. change (nwords []) with 0. change (alen (@nil Z)) with 0. f_equal; lia.
  - rewrite !alen_cons in *. pose proof (alen_nonneg t). cbn [foldl]. unfold wc_char at 2.
    rewrite (i32_id (c + 1)), (i32_id (l + 1)), (i32_id (w + 1)) by lia. fold (space x). cbn [nonspace_first].
    assert (Hnl : nlines (x :: t) = (if x =? nl then 1 else 0) + nlines t).
    { unfold nlines. destruct (Z.eqb_spec x nl); [rewrite filter_cons_True by done; apply alen_cons|].
      by rewrite filter_cons_False by done. }
    rewrite Hnl, nwords_cons.
    assert (Hl1 : (if x =? nl then l + 1 else l) = l + (if x =? nl then 1 else 0)) by (destruct (x =? nl); lia). rewrite Hl1.
    assert (0 <= (if x =? nl then 1 else 0) <= 1) by (destruct (x =? nl); lia).
    destruct (space x), inw; cbn [negb andb];
      match goal with |- context [foldl wc_char (mkcounts ?a ?b ?d ?e) t] => destruct (IH a b d e) as (inw' & ->); [lia..|] end;
      exists inw'; cbn [andb]; destruct (nonspace_first t); f_equal; lia.
Qed.
End count.

Lemma render_int fmt z args s :
  render fmt args = Some s -> exists o, Console.printint_chars z 10 1 = Some o /\ render (37 :: 100 :: fmt) (AInt z :: args) = Some (o ++ s).
Proof.
  intros Hr. destruct (printint_chars_ok z 10 1 (or_introl eq_refl)) as (ds & E & _). eexists. split; [exact E|].
  cbn [render Z.eqb Pos.eqb negb]. rewrite E. cbn. by rewrite Hr.
Qed.

(** [wc] prints the number of newlines, of words (runs of characters other
    than white space) and of bytes of its input, for any way the kernel splits
    the input into reads. *)
Theorem wc_counts {W} {os : OS W} {st : Streams os} {fuel : Fuel} (fd : Z) (name : str) (w : W) :
  (length (inp fd w) < wakeups)%nat -> alen (inp fd w) < 2 ^ 31 ->
  exists w' s, wc fd name w = Got tt w' /\ out 1 w' = out 1 w ++ low s /\
    render (line "%d %d %d %s")
      [AInt (nlines (inp fd w)); AInt (nwords (inp fd w)); AInt (alen (inp fd w)); AStr (Some name)] = Some s.
Proof.
  intros Hf Hb. destruct (wc_loop_ok wakeups fd (replicate 512 0) (mkcounts 0 0 0 false) w Hf eq_refl) as (w1 & E1 & _ & O1).
  destruct (wc_fold (inp fd w) 0 0 0 false) as (inw & Hfold); [lia..|]. rewrite Hfold in E1.
  cbn [andb] in E1. rewrite !Z.add_0_l, Z.sub_0_r in E1.
  set (args := [AInt _; AInt _; AInt _; AStr (Some name)]).
  assert (Hs : exists s, render (line "%d %d %d %s") args = Some s).
  { unfold args. set (a := nlines _). set (b := nwords _). set (c := alen _).
    change (line "%d %d %d %s") with (37 :: 100 :: 32 :: 37 :: 100 :: 32 :: 37 :: 100 :: [32; 37; 115; 10]).
    destruct (render_int [32; 37; 115; 10] c [AStr (Some name)] (32 :: name ++ [10])) as (o1 & _ & H1); [done|].
    destruct (render_int (32 :: 37 :: 100 :: [32; 37; 115; 10]) b [AInt c; AStr (Some name)] (32 :: (o1 ++ 32 :: name ++ [10])))
      as (o2 & _ & H2).
    { change (emit [32] (render (37 :: 100 :: [32; 37; 115; 10]) [AInt c; AStr (Some name)]) =
        Some ([32] ++ (o1 ++ 32 :: name ++ [10]))). by rewrite H1. }
    destruct (render_int (32 :: 37 :: 100 :: 32 :: 37 :: 100 :: [32; 37; 115; 10]) a [AInt b; AInt c; AStr (Some name)]
      (32 :: (o2 ++ 32 :: (o1 ++ 32 :: name ++ [10])))) as (o3 & _ & H3).
    { change (emit [32] (render (37 :: 100 :: 32 :: 37 :: 100 :: [32; 37; 115; 10]) [AInt b; AInt c; AStr (Some name)]) =
        Some ([32] ++ (o2 ++ 32 :: (o1 ++ 32 :: name ++ [10])))). by rewrite H2. }
    eauto. }
  destruct Hs as [s Hs].
  destruct (printf_ok 1 (line "%d %d %d %s") args s w1 Hs) as (w2 & t & E2 & (O2 & _) & _ & He).
  { by apply (bool_decide_eq_true_1 (99 ∉ dirs (line "%d %d %d %s"))). }
  assert (t = s) as -> by (apply He; [by apply (bool_decide_eq_true_1 (120 ∉ dirs (line "%d %d %d %s")))|by apply (bool_decide_eq_true_1 (112 ∉ dirs (line "%d %d %d %s")))]).
  exists w2, s. split_and!; [|by rewrite O2, O1|done].
  unfold wc. urun E1. exact E2.
Qed.
