(* ===== verification/GrepSpec.v ===== *)
(** * What [grep] prints

    On a regular file, whose reads are full until the end, [grep] prints the
    complete lines that match, as long as no line fills its buffer; a read that
    ends in the middle of the first line of the buffer loses what was read. *)

From S2P Require Import Prelude State Console User UserSpec Tools ToolsSpec.
Import Ulib Printf.
Open Scope Z_scope.

(** ** Lines *)

Section lines.
Implicit Types (t l r : str) (ls : list str).

(** The complete lines of a text, and what is left after the last newline. *)
Fixpoint nl_split t : list str * str :=
  match t with
  | [] => ([], [])
  | x :: t' =>
      let '(ls, r) := nl_split t' in
      if x =? nl then ([] :: ls, r)
      else match ls with [] => ([], x :: r) | l :: ls' => ((x :: l) :: ls', r) end
  end.

Lemma nl_split_none r : nl ∉ r -> nl_split r = ([], r).
Proof.
  induction r as [|x r IH]; intros Hn; [done|]. apply not_elem_of_cons in Hn as [Hx Hn]. cbn [nl_split].
  rewrite IH by done. destruct (Z.eqb_spec x nl); [congruence|done].
Qed.

Lemma nl_split_line l t : nl ∉ l -> nl_split (l ++ nl :: t) = (l :: (nl_split t).1, (nl_split t).2).
Proof.
  induction l as [|x l IH]; intros Hn.
  - cbn [app nl_split]. destruct (nl_split t). done.
  - apply not_elem_of_cons in Hn as [Hx Hn]. cbn [app nl_split]. rewrite IH by done.
    destruct (Z.eqb_spec x nl); [congruence|done].
Qed.

(** A text is its first line and the rest, or has no newline. *)
Lemma nl_first t : (nl ∉ t) \/ exists l t', t = l ++ nl :: t' /\ nl ∉ l.
Proof.
  destruct (decide (nl ∈ t)) as [Hin|]; [|by left]. right.
  induction t as [|x t IH]; [set_solver|]. destruct (decide (x = nl)) as [->|Hne]; [exists [], t; set_solver|].
  destruct IH as (l & t' & -> & Hl); [set_solver|]. exists (x :: l), t'. split; [done|set_solver].
Qed.

Lemma nl_split_app a b :
  nl_split (a ++ b) = ((nl_split a).1 ++ (nl_split ((nl_split a).2 ++ b)).1, (nl_split ((nl_split a).2 ++ b)).2).
Proof.
  remember (length a) as n eqn:Hn. revert a Hn. induction (lt_wf n) as [n _ IH]. intros a ->.
  destruct (nl_first a) as [Ha|(l & t & -> & Hl)].
  - rewrite (nl_split_none a) by done. cbn [fst snd app]. by destruct (nl_split (a ++ b)).
  - rewrite <- app_assoc. cbn [app]. rewrite !nl_split_line by done. cbn [fst snd].
    rewrite (IH (length t) ltac:(rewrite length_app; simpl; lia) t eq_refl). done.
Qed.

Lemma nl_split_rest t : nl ∉ (nl_split t).2 /\ alen (nl_split t).2 <= alen t /\
  ((nl_split t).1 = [] <-> nl ∉ t) /\ ((nl_split t).1 <> [] -> alen (nl_split t).2 < alen t) /\
  (length (nl_split t).1 <= length t)%nat.
Proof.
  remember (length t) as n eqn:Hn. revert t Hn. induction (lt_wf n) as [n _ IH]. intros t ->.
  destruct (nl_first t) as [Ht|(l & t' & -> & Hl)].
  - rewrite nl_split_none by done. cbn [fst snd]. split_and!; [done|lia|done|done|simpl; lia].
  - rewrite nl_split_line by done. cbn [fst snd].
    destruct (IH (length t')) with (t := t') as (H1 & H2 & _ & _ & H3); [rewrite length_app; simpl; lia|done|].
    rewrite alen_app, alen_cons. pose proof (alen_nonneg l). split_and!; [done|lia| |lia|rewrite length_app; simpl; lia].
    split; [done|set_solver].
Qed.

Lemma nl_split_rest_sub x t : x ∈ (nl_split t).2 -> x ∈ t.
Proof.
  induction t as [|y t IH]; [done|]. cbn [nl_split]. destruct (nl_split t) as [ls r]. cbn [snd] in IH.
  destruct (y =? nl), ls; cbn [snd]; rewrite ?elem_of_cons; tauto.
Qed.

(** What [grep] prints for the lines [ls]. *)
Definition printed (pat : str) ls : str := concat ((fun l => if match_ pat l then l ++ [nl] else []) <$> ls).

Lemma printed_app pat ls ls' : printed pat (ls ++ ls') = printed pat ls ++ printed pat ls'.
Proof. unfold printed. by rewrite fmap_app, concat_app. Qed.
End lines.

(** ** Strings in the buffer *)

Section buffer.
Implicit Types (a b t l pre rest : list Z).

Lemma upto_nul_ok t rest : 0 ∉ t -> upto_nul (t ++ 0 :: rest) = Some t.
Proof.
  induction t as [|x t IH]; intros Hn; [done|]. apply not_elem_of_cons in Hn as [Hx Hn]. cbn [app upto_nul].
  destruct (Z.eqb_spec x 0); [congruence|]. by rewrite IH.
Qed.

Lemma string_at_ok pre t rest : 0 ∉ t -> string_at (pre ++ t ++ 0 :: rest) (alen pre) = Some t.
Proof.
  intros Hn. unfold string_at. destruct (Z.leb_spec 0 (alen pre)); [|pose proof (alen_nonneg pre); lia].
  unfold alen. rewrite Nat2Z.id, drop_app_length. by apply upto_nul_ok.
Qed.

Lemma strchr_none t c : c ∉ t -> strchr t c = None.
Proof.
  induction t as [|x t IH]; intros Hn; [done|]. apply not_elem_of_cons in Hn as [Hx Hn]. cbn [strchr].
  destruct (Z.eqb_spec x c); [congruence|]. by rewrite IH.
Qed.

Lemma strchr_at l c t : c ∉ l -> strchr (l ++ c :: t) c = Some (alen l).
Proof.
  induction l as [|x l IH]; intros Hn; [cbn; by rewrite Z.eqb_refl|].
  apply not_elem_of_cons in Hn as [Hx Hn]. cbn [app strchr]. destruct (Z.eqb_spec x c); [congruence|].
  rewrite IH by done. cbn. f_equal. rewrite alen_cons. lia.
Qed.

Lemma drop_pre pre rest : drop (Z.to_nat (alen pre)) (pre ++ rest) = rest.
Proof. unfold alen. rewrite Nat2Z.id. apply drop_app_length. Qed.

Context {W : Type}.

Lemma uwr_at pre x rest y (w : W) : uwr (pre ++ x :: rest) (alen pre) y w = Got (pre ++ y :: rest) w.
Proof.
  unfold uwr. rewrite aset_Some.
  - unfold alen. rewrite Nat2Z.id. by rewrite insert_app_r_alt, Nat.sub_diag.
  - rewrite alen_app, alen_cons. pose proof (alen_nonneg pre). pose proof (alen_nonneg rest). lia.
Qed.
End buffer.

(** ** The loops *)

Section loops.
Context {W : Type} {os : OS W} {st : Streams os}.
Implicit Types (w : W) (pat t l r pre rest buf : list Z) (f : nat).

Lemma grep_lines_ok f pat pre t rest w :
  (length (nl_split t).1 < f)%nat -> 0 ∉ t ->
  exists pre' w', grep_lines f pat (pre ++ t ++ 0 :: rest) (alen pre) w =
      Got (pre' ++ (nl_split t).2 ++ 0 :: rest, alen pre') w' /\
    alen pre' = alen pre + alen t - alen (nl_split t).2 /\
    out 1 w' = out 1 w ++ printed pat (nl_split t).1 /\ forall x, inp x w' = inp x w.
Proof.
  revert pre t w. induction f as [|f IH]; intros pre t w Hf H0; [lia|]. cbn [grep_lines]. rewrite string_at_ok by done.
  destruct (nl_first t) as [Ht|(l & t' & -> & Hl)].
  - rewrite nl_split_none, strchr_none by done. cbn [fst snd]. exists pre, w.
    split_and!; [done|lia|by rewrite app_nil_r|done].
  - rewrite nl_split_line in * by done. cbn [fst snd length] in *. rewrite strchr_at by done.
    assert (Hl0 : 0 ∉ l) by set_solver. assert (Ht0 : 0 ∉ t') by set_solver.
    replace (alen pre + alen l) with (alen (pre ++ l)) by apply alen_app.
    assert (Hb : forall x, pre ++ (l ++ x :: t') ++ 0 :: rest = (pre ++ l) ++ x :: t' ++ 0 :: rest)
      by (intros x; by rewrite <- !app_assoc).
    rewrite Hb. urun uwr_at. rewrite <- (app_assoc pre l). rewrite string_at_ok by done. rewrite (app_assoc pre l).
    assert (Hpre : forall x, alen (pre ++ l) + 1 = alen ((pre ++ l) ++ [x])) by (intros x; by rewrite (alen_app (pre ++ l))).
    assert (Hrec : forall x w1, out 1 w1 = out 1 w ++ (if match_ pat l then l ++ [nl] else []) ->
        (forall y, inp y w1 = inp y w) ->
        exists pre' w', grep_lines f pat ((pre ++ l) ++ x :: t' ++ 0 :: rest) (alen (pre ++ l) + 1) w1 =
          Got (pre' ++ (nl_split t').2 ++ 0 :: rest, alen pre') w' /\
        alen pre' = alen pre + alen (l ++ nl :: t') - alen (nl_split t').2 /\
        out 1 w' = out 1 w ++ printed pat (l :: (nl_split t').1) /\ forall y, inp y w' = inp y w).
    { intros x w1 O1 I1. rewrite (Hpre x). destruct (IH ((pre ++ l) ++ [x]) t' w1) as (pre' & w' & E & Ha & O & I); [lia|done|].
      exists pre', w'. rewrite <- app_assoc in E. cbn [app] in E. split_and!.
      - exact E.
      - rewrite Ha, !alen_app, !alen_cons. change (alen (@nil Z)) with 0. lia.
      - rewrite O, O1, <- app_assoc. done.
      - intros y. by rewrite I. }
    destruct (match_ pat l).
    + assert (Hw : exists w1, (buf ← uwr ((pre ++ l) ++ 0 :: t' ++ 0 :: rest) (alen (pre ++ l)) nl;
          sys (Write 1 (take (Z.to_nat (alen (pre ++ l) + 1 - alen pre)) (drop (Z.to_nat (alen pre)) buf))) ;; mret buf) w =
          Got ((pre ++ l) ++ nl :: t' ++ 0 :: rest) w1 /\ out 1 w1 = out 1 w ++ l ++ [nl] /\ forall y, inp y w1 = inp y w).
      { destruct (write_stream 1 (l ++ [nl]) w) as (w1 & E1 & O1 & I1). exists w1. split_and!; [|done..].
        urun uwr_at. rewrite <- app_assoc. rewrite drop_pre.
        assert (Htk : take (Z.to_nat (alen (pre ++ l) + 1 - alen pre)) (l ++ nl :: t' ++ 0 :: rest) = l ++ [nl]).
        { rewrite cons_middle, app_assoc. apply take_app_length'. rewrite length_app, alen_app. unfold alen. simpl. lia. }
        rewrite Htk. unfold sys, mbind, U_bind. by rewrite E1. }
      destruct Hw as (w1 & E1 & O1 & I1). urun E1. by apply Hrec.
    + ustep. apply Hrec; [by rewrite app_nil_r|done].
Qed.

(** Copying down to the front of the buffer. *)
Lemma memmove_down r : forall a gap rest w,
  exists gap', memmove_loop (length r) (a ++ gap ++ r ++ rest) (alen a) (alen a + alen gap) w =
    Got (a ++ r ++ gap' ++ rest) w /\ length gap' = length gap.
Proof.
  induction r as [|x r IH]; intros a gap rest w; [by exists gap|].
  cbn [length memmove_loop]. destruct gap as [|g gap].
  - cbn [app] in *. replace (alen a + alen []) with (alen a) by (change (alen (@nil Z)) with 0; lia).
    assert (Hr : urd (a ++ x :: r ++ rest) (alen a) w = Got x w).
    { unfold urd, alen. rewrite aget_nat, lookup_app_r, Nat.sub_diag by lia. done. }
    urun Hr. urun uwr_at. destruct (IH (a ++ [x]) [] rest w) as (gap' & E & Hg).
    rewrite !alen_app, <- !app_assoc in E. cbn [app] in E. change (alen [x]) with 1 in E. change (alen (@nil Z)) with 0 in E.
    rewrite Z.add_0_r in E. exists gap'. split; [exact E|done].
  - assert (Hr : urd (a ++ (g :: gap) ++ (x :: r) ++ rest) (alen a + alen (g :: gap)) w = Got x w).
    { unfold urd. rewrite app_assoc. replace (alen a + alen (g :: gap)) with (alen (a ++ g :: gap)) by apply alen_app.
      unfold alen. rewrite aget_nat, lookup_app_r, Nat.sub_diag by lia. done. }
    urun Hr. cbn [app]. urun uwr_at. destruct (IH (a ++ [x]) (gap ++ [x]) rest w) as (gap' & E & Hg).
    exists gap'. rewrite length_app in Hg. simpl in Hg. split; [|simpl; lia].
    rewrite alen_cons. rewrite !alen_app, <- !app_assoc in E. cbn [app] in E. change (alen [x]) with 1 in E.
    replace (alen a + (1 + alen gap) + 1) with (alen a + 1 + (alen gap + 1)) by lia. exact E.
Qed.

(** Reads from [fd] are full until the end of the file. *)
Definition full_reads (fd : Z) : Prop := forall n w data w',
  0 < n -> trap (Read fd n) w = (mkreply (alen data) data, w') -> data = take (Z.to_nat n) (inp fd w).

(** One read: the text in the buffer is the pending text [r] and what was read. *)
Lemma grep_read fd buf r w :
  full_reads fd -> alen buf = 1024 -> take (Z.to_nat (alen r)) buf = r -> alen r <= 1022 ->
  exists data rest w1, uread fd buf (alen r) (1024 - alen r - 1) w = Got (alen data, (r ++ data) ++ rest) w1 /\
    alen ((r ++ data) ++ rest) = 1024 /\ alen (r ++ data) <= 1023 /\
    inp fd w = data ++ inp fd w1 /\ data = take (Z.to_nat (1024 - alen r - 1)) (inp fd w) /\
    (data = [] -> inp fd w = []) /\ forall x, out x w1 = out x w.
Proof.
  intros Hfull Hb Hr Hl. pose proof (alen_nonneg r).
  destruct (uread_ok fd buf (alen r) (1024 - alen r - 1) w) as (data & w1 & E & Hd & Hi & He & Ho); [lia..|].
  exists data, (drop (Z.to_nat (alen r) + length data) buf), w1. rewrite Hr, app_assoc in E.
  rewrite !alen_app in *. split_and!; try done; try lia.
  - unfold alen in *. rewrite length_drop. lia.
  - destruct (read_stream fd (1024 - alen r - 1) w ltac:(lia)) as (data' & w2 & E2 & _).
    assert (Hd' := Hfull (1024 - alen r - 1) w data' w2 ltac:(lia) E2). unfold uread, mbind, U_bind, sys_data in E. rewrite E2 in E.
    cbn [rp_val rp_data] in E. assert (data' = data) as <-; [|done].
    assert (Hlen : alen data' = alen data).
    { destruct (alen data' <=? 0); [by injection E|]. destruct (ustore _ _ _ _); [|done..]. by injection E. }
    pose proof (read_stream fd (1024 - alen r - 1) w ltac:(lia)) as (data2 & w3 & E3 & _ & Hi3 & _).
    assert (w3 = w2 /\ data2 = data') as [-> ->] by (rewrite E2 in E3; by injection E3).
    rewrite Hi3 in Hi. unfold alen in Hlen. by apply app_inj_1 in Hi as [? _]; [|lia].
Qed.

Lemma first_line_in_window t : nl ∈ t -> (forall l, l ∈ (nl_split t).1 -> alen l < 1023) -> nl ∈ take 1023 t.
Proof.
  intros Hin Hl. destruct (nl_first t) as [|(l & t' & -> & Hnl)]; [done|]. rewrite nl_split_line in Hl by done.
  specialize (Hl l ltac:(by left)). unfold alen in Hl. apply list_elem_of_lookup_2 with (length l).
  rewrite lookup_take_lt by lia. rewrite lookup_app_r, Nat.sub_diag by lia. done.
Qed.

Lemma window_data (r i : str) : alen r <= 1022 ->
  forall data, data = take (Z.to_nat (1024 - alen r - 1)) i -> take 1023 (r ++ i) = r ++ data.
Proof.
  intros Hr data ->. rewrite take_app_ge by (unfold alen in Hr; lia). do 2 f_equal. unfold alen. lia.
Qed.

(** The bound [1025] on the inner loop is enough: the buffer holds 1024 bytes. *)
Lemma grep_chunk pat t rest w :
  alen t <= 1023 -> 0 ∉ t ->
  exists pre' w', grep_lines 1025 pat (t ++ 0 :: rest) 0 w = Got (pre' ++ (nl_split t).2 ++ 0 :: rest, alen pre') w' /\
    alen pre' = alen t - alen (nl_split t).2 /\
    out 1 w' = out 1 w ++ printed pat (nl_split t).1 /\ forall x, inp x w' = inp x w.
Proof.
  intros Hl H0. destruct (nl_split_rest t) as (_ & _ & _ & _ & Hlen).
  destruct (grep_lines_ok 1025 pat [] t rest w) as (pre' & w' & E & Ha & H); [unfold alen in Hl; lia|done|].
  exists pre', w'. split; [exact E|]. split; [|exact H]. rewrite Ha. done.
Qed.

Lemma grep_loop_ok f pat fd : full_reads fd -> forall buf r w,
  (length (inp fd w) < f)%nat -> alen buf = 1024 -> take (Z.to_nat (alen r)) buf = r -> alen r <= 1022 ->
  nl ∉ r -> 0 ∉ r ++ inp fd w -> (forall l, l ∈ (nl_split (r ++ inp fd w)).1 -> alen l < 1023) ->
  exists w', grep_loop f pat fd buf (alen r) w = Got tt w' /\
    out 1 w' = out 1 w ++ printed pat (nl_split (r ++ inp fd w)).1 /\ inp fd w' = [].
Proof.
  intros Hfull. induction f as [|f IH]; intros buf r w Hf Hb Hr Hrl Hnl H0 Hlines; [lia|]. cbn [grep_loop].
  destruct (grep_read fd buf r w) as (data & rest & w1 & E & Hlen & Hmax & Hi & Hd & He & Ho); [done..|]. urun E.
  destruct (Z.ltb_spec 0 (alen data)) as [Hpos|Hpos].
  - destruct rest as [|y rest]; [rewrite app_nil_r in Hlen; lia|]. rewrite <- alen_app. urun uwr_at.
    rewrite Hi, app_assoc in H0, Hlines |- *. set (t := r ++ data) in *.
    destruct (grep_chunk pat t rest w1) as (pre & w2 & E2 & Hpre & O2 & I2); [done|set_solver|]. urun E2.
    destruct (nl_split_rest t) as (Hr1 & Hr2 & Hr3 & Hr4 & _). rewrite nl_split_app in Hlines |- *. cbn [fst snd] in *.
    set (r' := (nl_split t).2) in *.
    pose proof (alen_nonneg r').
    destruct (decide (nl ∈ t)) as [Ht|Ht].
    + assert (Hls : (nl_split t).1 <> []) by (intros ?; tauto). specialize (Hr4 Hls).
      destruct (Z.eqb_spec (alen pre) 0); [lia|]. destruct (Z.ltb_spec 0 (alen t)); [|lia].
      unfold memmove. replace (Z.to_nat (alen t - alen pre)) with (length r') by (unfold alen in *; lia).
      destruct (memmove_down r' [] pre (0 :: rest) w2) as (gap & Em & Hg). cbn [app] in Em. urun Em.
      replace (alen t - alen pre) with (alen r') by lia.
      destruct (IH (r' ++ gap ++ 0 :: rest) r' w2) as (w' & E' & O' & I'); rewrite ?I2.
      * rewrite Hi, length_app in Hf. unfold alen in Hpos. lia.
      * unfold alen in *. rewrite !length_app in *. cbn [length] in *. lia.
      * unfold alen. by rewrite Nat2Z.id, take_app_length.
      * lia.
      * done.
      * intros Hin. apply H0. apply elem_of_app in Hin as [Hin|Hin]; apply elem_of_app; [left|by right].
        by apply nl_split_rest_sub.
      * intros l Hl. apply Hlines. apply elem_of_app. by right.
      * exists w'. split_and!; [done| |done]. rewrite O', O2, Ho, I2, printed_app, <- app_assoc. done.
    + assert (Hall : nl ∉ t ++ inp fd w1).
      { intros Hin. apply Ht. replace t with (take 1023 (t ++ inp fd w1)).
        - apply first_line_in_window; [done|]. by rewrite nl_split_app.
        - unfold t at 1. rewrite <- app_assoc, <- Hi. apply window_data; [unfold t in *; lia|done]. }
      assert (Hn : nl ∉ inp fd w1) by (intros ?; apply Hall, elem_of_app; by right).
      assert (r' = t /\ (nl_split t).1 = []) as [Hrt Hl1] by (unfold r'; by rewrite nl_split_none).
      rewrite Hrt in *. rewrite (nl_split_none (t ++ _)), Hl1 by done. destruct (Z.eqb_spec (alen pre) 0); [|lia].
      change (0 <? 0) with false. cbv iota.
      destruct (IH (pre ++ t ++ 0 :: rest) [] w2) as (w' & E' & O' & I'); rewrite ?I2; cbn [app]; try done.
      * rewrite Hi, length_app in Hf. unfold alen in Hpos. lia.
      * unfold alen in *. rewrite !length_app in *. cbn [length] in *. lia.
      * apply not_elem_of_nil.
      * intros Hin. apply H0, elem_of_app. by right.
      * rewrite nl_split_none by done. intros l Hl. by apply elem_of_nil in Hl.
      * exists w'. split_and!; [exact E'| |done]. rewrite O', O2, Ho, I2, Hl1. cbn [app].
        rewrite nl_split_none by done. by rewrite !app_nil_r.
  - assert (data = []) as -> by (destruct data; [done|rewrite alen_cons in Hpos; pose proof (alen_nonneg data); lia]).
    exists w1. rewrite He, app_nil_r, nl_split_none by done. cbn [app] in Hi.
    split_and!; [done|by rewrite Ho, app_nil_r|by rewrite <- Hi, He].
Qed.

(** C39. On a regular file (a read gives as much as is asked for) without null
    bytes, at which [strchr] would stop, and whose complete lines are shorter than
    1023 bytes, so that each fits the buffer, [grep] prints exactly the complete
    lines that match, in order: a line that straddles two reads is kept and
    completed.  The rounds of the loop are bounded by the length of the file. *)
Theorem grep_prints {fuel : Fuel} pat fd w :
  full_reads fd -> (length (inp fd w) < wakeups)%nat -> 0 ∉ inp fd w ->
  (forall l, l ∈ (nl_split (inp fd w)).1 -> alen l < 1023) ->
  exists w', grep pat fd w = Got tt w' /\ inp fd w' = [] /\
    out 1 w' = out 1 w ++ printed pat (nl_split (inp fd w)).1.
Proof.
  intros Hfull Hf H0 Hl. destruct (grep_loop_ok wakeups pat fd Hfull (replicate 1024 0) [] w) as (w' & E & O & I);
    try done; [apply not_elem_of_nil|].
  exists w'. done.
Qed.

Lemma grep_lines_none f pat t rest w : nl ∉ t -> 0 ∉ t ->
  grep_lines (S f) pat (t ++ 0 :: rest) 0 w = Got (t ++ 0 :: rest, 0) w.
Proof.
  intros Hn H0. cbn [grep_lines]. change 0 with (alen (@nil Z)) at 2. change (t ++ 0 :: rest) with ([] ++ t ++ 0 :: rest) at 1.
  by rewrite string_at_ok, strchr_none.
Qed.

(** A read that ends before the first newline is forgotten: [grep] continues as
    if the file began after it ([if(p == buf) m = 0]), so on a pipe or a terminal
    the start of a line that comes in pieces is not matched and not printed. *)
Theorem grep_forgets f pat fd buf data w w1 :
  alen buf = 1024 -> trap (Read fd 1023) w = (mkreply (alen data) data, w1) ->
  0 < alen data <= 1023 -> nl ∉ data -> 0 ∉ data ->
  exists buf', alen buf' = 1024 /\ grep_loop (S f) pat fd buf 0 w = grep_loop f pat fd buf' 0 w1.
Proof.
  intros Hb E Hd Hnl H0. cbn [grep_loop]. change (1024 - 0 - 1) with 1023.
  assert (Er : uread fd buf 0 1023 w = Got (alen data, data ++ drop (length data) buf) w1).
  { unfold uread, mbind, U_bind, sys_data. rewrite E. cbn [rp_val rp_data].
    destruct (Z.leb_spec (alen data) 0); [lia|]. unfold alen at 1. rewrite Nat2Z.id, firstn_all. unfold ustore.
    destruct (Z.leb_spec (0 + alen data) (alen buf)); [done|lia]. }
  urun Er. destruct (Z.ltb_spec 0 (alen data)); [|lia]. rewrite Z.add_0_l.
  destruct (drop (length data) buf) as [|y rest] eqn:Ey.
  { apply (f_equal length) in Ey. rewrite length_drop in Ey. unfold alen in *. simpl in Ey. lia. }
  urun uwr_at. urun (grep_lines_none 1024 pat data rest w1 Hnl H0). exists (data ++ 0 :: rest). split; [|done].
  apply (f_equal length) in Ey. rewrite length_drop in Ey. unfold alen in *. rewrite length_app. simpl in *. lia.
Qed.
End loops.
