(* ===== verification/Shell.v ===== *)
(** * The shell ([sh.c])

    The parser works on a buffer [b] that holds the command line, with an index
    [s] for the pointer [*ps] and [es] for the end of the line; the words of a
    command are pairs of indices, the start and the end of the word, until
    [nulterminate] writes a NUL at each end.  [malloc] is taken to succeed. *)

From S2P Require Import Prelude State Console User Tools.
Import Ulib Printf.
Open Scope Z_scope.

(** ** Commands *)

(** A word is a pair of indices of the buffer ([argv], [eargv] or [file],
    [efile]) or, once the command is read off the buffer, a string. *)
Inductive cmd (T : Type) :=
  | EXEC (argv : list T)
  | REDIR (c : cmd T) (file : T) (mode fd : Z)
  | PIPE (left right : cmd T)
  | LIST (left right : cmd T)
  | BACK (c : cmd T).
Arguments EXEC {T}.
Arguments REDIR {T}.
Arguments PIPE {T}.
Arguments LIST {T}.
Arguments BACK {T}.

Notation word := (Z * Z)%type.
Definition MAXARGS : Z := 10.

(** [execcmd] points to the [EXEC] node under the redirections of [ret]: a word
    stored in its [argv] is stored inside [ret]. *)
Fixpoint add_arg {T} (ret : cmd T) (w : T) : cmd T :=
  match ret with
  | EXEC argv => EXEC (argv ++ [w])
  | REDIR c file mode fd => REDIR (add_arg c w) file mode fd
  | c => c
  end.

(** Characters. *)
Definition chars (s : string) : str := bytes s.
Definition whitespace : str := [32; 9; 13; 10; 11].
Definition symbols : str := chars "<|>&;()".
Definition c_less : Z := 60.
Definition c_more : Z := 62.
Definition c_plus : Z := 43.
Definition c_a : Z := 97.

Section shell.
Context {W : Type} {os : OS W} {fuel : Fuel}.

Definition panic {A} (s : string) : U W A := printf 2 (line "%s") [AStr (Some (bytes s))] ;; uexit.

Definition fork1 : U W Z :=
  pid ← sys Fork;
  if pid =? -1 then panic "fork" else mret pid.

(** ** Parsing *)

(** [while(s < es && p( *s)) s++], with [n] the distance from [s] to [es]. *)
Fixpoint span (p : Z -> bool) (n : nat) (b : str) (s : Z) : U W Z :=
  match n with
  | O => mret s
  | S n' => c ← urd b s; if p c then span p n' b (s + 1) else mret s
  end.
Definition to_end (es s : Z) : nat := Z.to_nat (es - s).
Definition skip (b : str) (es s : Z) : U W Z := span (isin whitespace) (to_end es s) b s.
Definition wordchar (c : Z) : bool := negb (isin whitespace c) && negb (isin symbols c).

(** The kind of the token, the word, and where the next one may start. *)
Definition gettoken (b : str) (es s : Z) : U W (Z * word * Z) :=
  s ← skip b es s;
  let q := s in
  c ← urd b s;
  '(ret, s) ←
    (if c =? 0 then mret (0, s)
     else if isin (chars "|();&<") c then mret (c, s + 1)
     else if c =? c_more then
       c' ← urd b (s + 1);
       if c' =? c_more then mret (c_plus, s + 2) else mret (c, s + 1)
     else
       s ← span wordchar (to_end es s) b s;
       mret (c_a, s));
  let eq := s in
  s ← skip b es s;
  mret (ret, (q, eq), s).

Definition peek (b : str) (es s : Z) (toks : str) : U W (bool * Z) :=
  s ← skip b es s;
  c ← urd b s;
  mret (negb (c =? 0) && isin toks c, s).

(** One round per redirection. *)
Fixpoint parseredirs (f : nat) (b : str) (es : Z) (c : cmd word) (s : Z) : U W (cmd word * Z) :=
  match f with
  | O => fun _ => Stuck
  | S f' =>
      '(more, s) ← peek b es s (chars "<>");
      if (more : bool) then
        '(tok, _, s) ← gettoken b es s;
        '(kind, file, s) ← gettoken b es s;
        if negb (kind =? c_a) then panic "missing file for redirection"
        else
          let c :=
            if tok =? c_less then REDIR c file 0 0
            else if tok =? c_more then REDIR c file (Z.lor 1 0x200) 1
            else if tok =? c_plus then REDIR c file (Z.lor 1 0x200) 1
            else c in
          parseredirs f' b es c s
      else mret (c, s)
  end.

(** The loop of [parseexec] over the arguments. *)
Fixpoint parseargs (f : nat) (b : str) (es : Z) (argc : Z) (ret : cmd word) (s : Z) : U W (cmd word * Z) :=
  match f with
  | O => fun _ => Stuck
  | S f' =>
      '(stop, s) ← peek b es s (chars "|)&;");
      if (stop : bool) then mret (ret, s)
      else
        '(tok, w, s) ← gettoken b es s;
        if tok =? 0 then mret (ret, s)
        else if negb (tok =? c_a) then panic "syntax"
        else
          let ret := add_arg ret w in
          let argc := argc + 1 in
          if MAXARGS <=? argc then panic "too many args"
          else
            '(ret, s) ← parseredirs f' b es ret s;
            parseargs f' b es argc ret s
  end.

(** [while(peek(ps, es, "&"))] of [parseline]. *)
Fixpoint parsebacks (f : nat) (b : str) (es : Z) (c : cmd word) (s : Z) : U W (cmd word * Z) :=
  match f with
  | O => fun _ => Stuck
  | S f' =>
      '(more, s) ← peek b es s (chars "&");
      if (more : bool) then
        '(_, _, s) ← gettoken b es s;
        parsebacks f' b es (BACK c) s
      else mret (c, s)
  end.

(** [f] bounds the depth of the calls. *)
Fixpoint parseline (f : nat) (b : str) (es s : Z) : U W (cmd word * Z) :=
  match f with
  | O => fun _ => Stuck
  | S f' =>
      '(c, s) ← parsepipe f' b es s;
      '(c, s) ← parsebacks f' b es c s;
      '(more, s) ← peek b es s (chars ";");
      if (more : bool) then
        '(_, _, s) ← gettoken b es s;
        '(rhs, s) ← parseline f' b es s;
        mret (LIST c rhs, s)
      else mret (c, s)
  end
with parsepipe (f : nat) (b : str) (es s : Z) : U W (cmd word * Z) :=
  match f with
  | O => fun _ => Stuck
  | S f' =>
      '(c, s) ← parseexec f' b es s;
      '(more, s) ← peek b es s (chars "|");
      if (more : bool) then
        '(_, _, s) ← gettoken b es s;
        '(rhs, s) ← parsepipe f' b es s;
        mret (PIPE c rhs, s)
      else mret (c, s)
  end
with parseblock (f : nat) (b : str) (es s : Z) : U W (cmd word * Z) :=
  match f with
  | O => fun _ => Stuck
  | S f' =>
      '(opens, s) ← peek b es s (chars "(");
      if negb opens then panic "parseblock"
      else
        '(_, _, s) ← gettoken b es s;
        '(c, s) ← parseline f' b es s;
        '(closes, s) ← peek b es s (chars ")");
        if negb closes then panic "syntax - missing )"
        else
          '(_, _, s) ← gettoken b es s;
          parseredirs f' b es c s
  end
with parseexec (f : nat) (b : str) (es s : Z) : U W (cmd word * Z) :=
  match f with
  | O => fun _ => Stuck
  | S f' =>
      '(opens, s) ← peek b es s (chars "(");
      if (opens : bool) then parseblock f' b es s
      else
        '(ret, s) ← parseredirs f' b es (EXEC []) s;
        parseargs f' b es 0 ret s
  end.

(** A NUL at the end of each word. *)
Fixpoint nul_each (b : str) (argv : list word) : U W str :=
  match argv with
  | [] => mret b
  | (_, eq) :: argv' => b ← uwr b eq 0; nul_each b argv'
  end.
Fixpoint nulterminate (b : str) (c : cmd word) : U W str :=
  match c with
  | EXEC argv => nul_each b argv
  | REDIR c (_, efile) _ _ => b ← nulterminate b c; uwr b efile 0
  | PIPE lhs rhs | LIST lhs rhs => b ← nulterminate b lhs; nulterminate b rhs
  | BACK c => nulterminate b c
  end.

(** Calls nest at most four deep for each character of the line. *)
Definition parsecmd (b : str) : U W (str * cmd word) :=
  match string_at b 0 with
  | None => crash "strlen"
  | Some t =>
      let es := strlen t in
      '(c, s) ← parseline (4 * S (length t)) b es 0;
      '(_, s) ← peek b es s [];
      if negb (s =? es) then
        match string_at b s with
        | None => crash "printf"
        | Some rest => printf 2 (line "leftovers: %s") [AStr (Some rest)] ;; panic "syntax"
        end
      else
        b ← nulterminate b c;
        mret (b, c)
  end.

(** ** Running *)

(** The string a word points to. *)
Definition ustr (b : str) (w : word) : U W str :=
  match string_at b w.1 with Some t => mret t | None => crash "string" end.
Fixpoint ustrs (b : str) (ws : list word) : U W (list str) :=
  match ws with
  | [] => mret []
  | w :: ws' => t ← ustr b w; ts ← ustrs b ws'; mret (t :: ts)
  end.

Fixpoint runcmd (b : str) (c : cmd word) : U W unit :=
  match c with
  | EXEC argv =>
      argv ← ustrs b argv;
      match argv with
      | [] => uexit
      | a :: _ =>
          uexec a argv ;;
          printf 2 (line "exec %s failed") [AStr (Some a)] ;;
          uexit
      end
  | REDIR c file mode fd =>
      sys (Close fd) ;;
      file ← ustr b file;
      fd ← sys (Open file mode);
      if fd <? 0 then printf 2 (line "open %s failed") [AStr (Some file)] ;; uexit
      else runcmd b c ;; uexit
  | LIST lhs rhs =>
      pid ← fork1;
      uwhen (pid =? 0) (runcmd b lhs) ;;
      sys Wait ;;
      runcmd b rhs ;;
      uexit
  | PIPE lhs rhs =>
      '(r, p) ← sys_data Pipe;
      if r <? 0 then panic "pipe"
      else
        p0 ← urd p 0;
        p1 ← urd p 1;
        pid ← fork1;
        uwhen (pid =? 0)
          (sys (Close 1) ;; sys (Dup p1) ;; sys (Close p0) ;; sys (Close p1) ;;
           runcmd b lhs) ;;
        pid ← fork1;
        uwhen (pid =? 0)
          (sys (Close 0) ;; sys (Dup p0) ;; sys (Close p0) ;; sys (Close p1) ;;
           runcmd b rhs) ;;
        sys (Close p0) ;;
        sys (Close p1) ;;
        sys Wait ;;
        sys Wait ;;
        uexit
  | BACK c =>
      pid ← fork1;
      uwhen (pid =? 0) (runcmd b c) ;;
      uexit
  end.

Definition runline (b : str) : U W unit := '(b, c) ← parsecmd b; runcmd b c.

(** ** The command loop *)

Definition getcmd (b : str) (nbuf : Z) : U W (Z * str) :=
  printf 2 (bytes "$ ") [] ;;
  b ← memset b 0 0 nbuf;
  b ← gets b nbuf;
  c ← urd b 0;
  mret (if c =? 0 then -1 else 0, b).

Definition is_cd (b : str) : bool :=
  match b with c :: d :: sp :: _ => (c =? 99) && (d =? 100) && (sp =? 32) | _ => false end.

(** At most [f] command lines. *)
Fixpoint sh_loop (f : nat) (b : str) : U W unit :=
  match f with
  | O => fun _ => Stuck
  | S f' =>
      '(r, b) ← getcmd b 100;
      if r <? 0 then uexit
      else if is_cd b then
        t ← ustr b (0, 0);
        b ← uwr b (strlen t - 1) 0;
        dir ← ustr b (3, 3);
        r ← sys (Chdir dir);
        uwhen (r <? 0) (printf 2 (line "cannot cd %s") [AStr (Some dir)]) ;;
        sh_loop f' b
      else
        pid ← fork1;
        uwhen (pid =? 0) (runline b) ;;
        sys Wait ;;
        sh_loop f' b
  end.

(** Three descriptors are open. *)
Fixpoint open_console (f : nat) : U W unit :=
  match f with
  | O => fun _ => Stuck
  | S f' =>
      fd ← sys (Open (bytes "console") 2);
      if 0 <=? fd then if 3 <=? fd then sys (Close fd) ;; mret tt else open_console f'
      else mret tt
  end.
Definition sh_main : U W unit :=
  open_console wakeups ;;
  printf 1 (line "shell it is") [] ;;
  sh_loop wakeups (replicate 100 0).
End shell.
