(* ===== verification/ShellSpec.v ===== *)
(** * The shell's parser is safe and total

    Every command line is parsed within the buffer and within the bound on the
    nesting of calls, every word of the result is a word of the line, and the
    process that runs the line ends in [exec] or [exit]. *)

From S2P Require Import Prelude State Console User Tools GrepSpec Shell.
Import Ulib Printf.
Open Scope Z_scope.

(** ** Runs that neither crash nor get stuck *)

Section safe.
Context {W : Type} {os : OS W}.

Definition safe {A} (m : U W A) (Q : A -> Prop) : Prop := forall w,
  match m w with Got a _ => Q a | Gone _ => True | _ => False end.

Lemma safe_ret {A} (a : A) Q : Q a -> safe (mret a) Q.
Proof. by intros ? ?. Qed.
Lemma safe_bind {A B} (m : U W A) (f : A -> U W B) P Q :
  safe m P -> (forall a, P a -> safe (f a) Q) -> safe (m ≫= f) Q.
Proof.
  intros Hm Hf w. unfold mbind, U_bind. specialize (Hm w). destruct (m w); try done. by apply Hf.
Qed.
Lemma safe_weaken {A} (m : U W A) (P Q : A -> Prop) : safe m P -> (forall a, P a -> Q a) -> safe m Q.
Proof. intros Hm H w. specialize (Hm w). destruct (m w); auto. Qed.
Lemma safe_sys c : safe (sys c) (fun _ => True).
Proof. intros w. unfold sys. by destruct (trap c w). Qed.
Lemma safe_exit {A} (Q : A -> Prop) : safe uexit Q.
Proof. done. Qed.
Lemma safe_then {A} c (k : U W A) Q : safe k Q -> safe (sys c ;; k) Q.
Proof. intros H. eapply safe_bind; [apply safe_sys|done]. Qed.
Lemma safe_rd {A} (l : list A) i Q : (exists a, aget l i = Some a /\ Q a) -> safe (urd l i) Q.
Proof. intros (a & E & H) w. unfold urd. by rewrite E. Qed.

(** A format whose only conversions are [%s], with enough strings. *)
Fixpoint strings_for (pct : bool) (fmt : str) (args : list carg) : bool :=
  match fmt with
  | [] => true
  | c :: fmt' =>
      if negb pct then strings_for (c =? 37) fmt' args
      else (c =? 115) && match args with AStr _ :: args' => strings_for false fmt' args' | _ => false end
  end.

Lemma safe_putc fd c : safe (putc fd c) (fun _ => True).
Proof. unfold putc. apply safe_then. by apply safe_ret. Qed.
Lemma safe_puts fd s : safe (puts fd s) (fun _ => True).
Proof.
  induction s as [|c s IH]; [by apply safe_ret|]. cbn [puts]. eapply safe_bind; [apply safe_putc|done].
Qed.
Lemma safe_printf_loop fd fmt : forall pct args,
  strings_for pct fmt args = true -> safe (printf_loop fd pct fmt args) (fun _ => True).
Proof.
  induction fmt as [|c fmt IH]; intros pct args H; [by apply safe_ret|]. cbn [strings_for printf_loop] in *.
  destruct pct; cbn [negb] in *.
  - apply andb_true_iff in H as [H1 H]. destruct (Z.eqb_spec c 115) as [->|]; [|done].
    destruct args as [|[] args]; try done. eapply safe_bind; [apply safe_puts|]. intros _ _. by apply IH.
  - destruct (Z.eqb_spec c 37); [by apply IH|]. eapply safe_bind; [apply safe_putc|]. intros _ _. by apply IH.
Qed.
Lemma safe_printf {A} fd fmt args (k : U W A) Q :
  strings_for false fmt args = true -> safe k Q -> safe (printf fd fmt args ;; k) Q.
Proof. intros H Hk. eapply safe_bind; [by apply safe_printf_loop|done]. Qed.

Lemma safe_panic {A} s (Q : A -> Prop) : safe (panic s) Q.
Proof. apply safe_printf; [done|apply safe_exit]. Qed.
Lemma safe_fork1 : safe fork1 (fun _ => True).
Proof.
  eapply safe_bind; [apply safe_sys|]. intros pid _. destruct (pid =? -1); [apply safe_panic|by apply safe_ret].
Qed.
End safe.

(** ** Words *)

Section words.
Implicit Types (b t : str) (s es q eq i : Z).

(** [b] holds a line that ends at [es]. *)
Definition holds_line b es : Prop := exists t rest, b = t ++ 0 :: rest /\ es = alen t /\ 0 ∉ t.

Lemma line_at b es i : holds_line b es -> 0 <= i <= es -> exists c, aget b i = Some c /\ (c = 0 <-> i = es).
Proof.
  intros (t & rest & -> & -> & H0) Hi. unfold aget. destruct (Z.leb_spec 0 i); [|lia].
  destruct (Z.eq_dec i (alen t)) as [->|Hne].
  - exists 0. unfold alen. rewrite Nat2Z.id, lookup_app_r, Nat.sub_diag by lia. done.
  - unfold alen in *. rewrite lookup_app_l by lia.
    destruct (lookup_lt_is_Some_2 t (Z.to_nat i) ltac:(lia)) as [c Hc]. exists c. split; [done|].
    split; [|lia]. intros ->. by apply list_elem_of_lookup_2 in Hc.
Qed.

(** The character at [i] is one of the line's and satisfies [p]. *)
Definition has b (p : Z -> bool) i : Prop := exists c, aget b i = Some c /\ c <> 0 /\ p c = true.

(** A maximal run of word characters of the line. *)
Definition word_ok b es (w : word) : Prop :=
  0 <= w.1 < w.2 /\ w.2 <= es /\ (forall i, w.1 <= i < w.2 -> has b wordchar i) /\
  (w.2 < es -> has b (fun c => negb (wordchar c)) w.2).

(** Every word is a word of the line, commands have fewer than [MAXARGS] words,
    and redirections are those of the three operators. *)
Fixpoint cmd_ok b es (c : cmd word) : Prop :=
  match c with
  | EXEC argv => Forall (word_ok b es) argv /\ alen argv < MAXARGS
  | REDIR c file mode fd =>
      cmd_ok b es c /\ word_ok b es file /\ ((mode = 0 /\ fd = 0) \/ (mode = 0x201 /\ fd = 1))
  | PIPE l r | LIST l r => cmd_ok b es l /\ cmd_ok b es r
  | BACK c => cmd_ok b es c
  end.

(** The number of arguments of the [EXEC] under the redirections. *)
Fixpoint argc_of (c : cmd word) : option Z :=
  match c with EXEC argv => Some (alen argv) | REDIR c _ _ _ => argc_of c | _ => None end.

Lemma add_arg_ok b es c w n :
  cmd_ok b es c -> argc_of c = Some n -> n + 1 < MAXARGS -> word_ok b es w ->
  cmd_ok b es (add_arg c w) /\ argc_of (add_arg c w) = Some (n + 1).
Proof.
  induction c as [argv|c IH file mode fd| | |]; cbn [cmd_ok argc_of add_arg]; intros Hc Hn Hl Hw; try done.
  - injection Hn as <-. rewrite alen_app. split_and!; [|done..]. apply Forall_app. split; [by apply Hc|by constructor].
  - destruct IH as [H1 H2]; [by apply Hc|done..|]. split; [|done]. split; [done|apply Hc].
Qed.
End words.

(** ** The parser *)

Section parser.
Context {W : Type} {os : OS W} (b : str) (es : Z) (Hb : holds_line b es).
Implicit Types (s : Z).

Lemma safe_at s Q : 0 <= s <= es -> (forall x, aget b s = Some x -> (x = 0 <-> s = es) -> Q x) -> safe (W := W) (urd b s) Q.
Proof. intros Hs H. destruct (line_at b es s Hb Hs) as (c & E & Hc). apply safe_rd. eauto. Qed.

Lemma safe_span p n s : 0 <= s <= es -> n = to_end es s ->
  safe (W := W) (span p n b s) (fun s' => s <= s' <= es /\ (forall i, s <= i < s' -> has b p i) /\
    (s' < es -> has b (fun c => negb (p c)) s')).
Proof.
  revert s. induction n as [|n IH]; intros s Hs Hn; cbn [span]; unfold to_end in *.
  - apply safe_ret. split_and!; lia.
  - eapply safe_bind; [apply safe_at; [done|]; intros x E Hx; exact (conj E Hx)|]. intros c [E Hc]. destruct (p c) eqn:Hp.
    + eapply safe_weaken; [apply IH; lia|]. intros s' (H1 & H2 & H3). split_and!; [lia..| |done].
      intros i Hi. destruct (Z.eq_dec i s) as [->|]; [|apply H2; lia]. exists c. split_and!; [done|lia|done].
    + apply safe_ret. split_and!; [lia..|]. intros ?. exists c. rewrite Hp. split_and!; [done|lia|done].
Qed.

Lemma safe_skip s : 0 <= s <= es ->
  safe (W := W) (skip b es s) (fun s' => s <= s' <= es /\ (s' < es -> has b (fun c => negb (isin whitespace c)) s') /\
    (has b (fun c => negb (isin whitespace c)) s -> s' = s)).
Proof.
  intros Hs. eapply safe_weaken; [by apply safe_span|]. intros s' (H1 & H2 & H3). split_and!; try done; try lia.
  intros (c & E & Hc0 & Hc). destruct (Z.eq_dec s' s) as [|Hne]; [done|].
  destruct (H2 s ltac:(lia)) as (c' & E' & _ & Hc'). rewrite E in E'. injection E' as <-. by rewrite Hc' in Hc.
Qed.

Definition nonspace : Z -> bool := fun x => negb (isin whitespace x).

Lemma symbol_or_word x : x <> c_more -> isin whitespace x = false -> isin (chars "|();&<") x = false -> wordchar x = true.
Proof.
  intros H1 Hs H2. unfold wordchar. rewrite Hs. cbn [negb andb]. unfold isin, symbols, chars in *.
  cbn in H2 |- *. unfold c_more in H1.
  repeat match goal with |- context [?a =? x] => destruct (Z.eqb_spec a x) as [<-|] end; try done.
Qed.

Lemma safe_gettoken s : 0 <= s <= es ->
  safe (W := W) (gettoken b es s) (fun '(ret, w, s') => s <= w.1 <= w.2 /\ w.2 <= s' <= es /\ (ret <> 0 -> w.1 < w.2) /\
    (s < es -> has b nonspace s -> ret <> 0) /\ (ret = 0 -> s' = es) /\ (ret = c_a -> word_ok b es w)).
Proof.
  intros Hs. eapply safe_bind; [by apply safe_skip|]. intros q (Hq & Hq' & Hstay).
  eapply safe_bind; [apply safe_at; [lia|]; intros x E Hx; exact (conj E Hx)|]. intros x [E Hx].
  eapply safe_bind with (P := fun '(ret, e) => q <= e <= es /\ (x = 0 <-> ret = 0) /\ (x <> 0 -> q < e) /\
    (ret = c_a -> word_ok b es (q, e))).
  - destruct (Z.eqb_spec x 0) as [->|Hx0]; [apply safe_ret; split_and!; try lia; done|].
    assert (Hqe : q < es) by lia. destruct (Hq' Hqe) as (x' & E' & _ & Hw). rewrite E in E'. injection E' as <-.
    apply negb_true_iff in Hw.
    destruct (isin (chars "|();&<") x) eqn:Hsym.
    { apply safe_ret. split_and!; try lia. intros ->. by vm_compute in Hsym. }
    destruct (Z.eqb_spec x c_more) as [->|Hmore].
    + eapply safe_bind; [apply safe_at; [lia|]; intros y Ey Hy; exact (conj Ey Hy)|]. intros y [Ey Hy].
      destruct (Z.eqb_spec y c_more) as [->|]; apply safe_ret; unfold c_more, c_plus, c_a in *; split_and!; lia.
    + eapply safe_bind; [apply safe_span; [lia|done]|]. intros e (He & H1 & H2). apply safe_ret.
      assert (q < e).
      { destruct (Z.eq_dec e q) as [->|]; [|lia]. destruct (H2 Hqe) as (y & Ey & _ & Hy).
        rewrite E in Ey. injection Ey as <-. by rewrite symbol_or_word in Hy. }
      unfold c_a. split_and!; try lia. intros _. unfold word_ok. cbn [fst snd]. split_and!; try done; lia.
  - intros [ret e] (He & Hr & Hlt & Hw). eapply safe_bind; [apply safe_skip; lia|]. intros s' (Hs' & _ & _).
    apply safe_ret. cbn [fst snd]. split_and!; try done; try lia.
    intros Hlt' Hns. specialize (Hstay Hns). subst q. lia.
Qed.

Lemma safe_peek s toks : 0 <= s <= es ->
  safe (W := W) (peek b es s toks) (fun '(r, s') => s <= s' <= es /\ (s' < es -> has b nonspace s') /\
    (r = true -> s' < es /\ has b (isin toks) s')).
Proof.
  intros Hs. eapply safe_bind; [by apply safe_skip|]. intros s' (Hs' & Hn & _).
  eapply safe_bind; [apply safe_at; [lia|]; intros x E Hx; exact (conj E Hx)|]. intros x [E Hx]. apply safe_ret.
  split_and!; try done; try lia. intros [H0 H]%andb_true_iff. apply negb_true_iff, Z.eqb_neq in H0.
  assert (s' <> es) by lia. split; [lia|]. by exists x.
Qed.

(** A token that [peek] has seen is not empty. *)
Lemma safe_shift s : 0 <= s < es -> has b nonspace s ->
  safe (W := W) (gettoken b es s) (fun '(_, _, s') => s < s' <= es).
Proof.
  intros Hs Hn. eapply safe_weaken; [apply safe_gettoken; lia|]. intros [[ret w] s'] (H1 & H2 & H3 & H4 & _).
  specialize (H4 ltac:(lia) Hn). specialize (H3 H4). lia.
Qed.

Notation parsed s argc := (fun '(c, s') => s <= s' <= es /\ cmd_ok b es c /\ argc_of c = argc).
Notation parsed_any s := (fun '(c, s') => s <= s' <= es /\ cmd_ok b es c).
Definition left_of s : nat := Z.to_nat (es - s).

Ltac sbind lem := eapply safe_bind; [apply lem; try (done || lia)|].

Lemma safe_redirs f : forall c s, 0 <= s <= es -> (left_of s < f)%nat -> cmd_ok b es c ->
  safe (W := W) (parseredirs f b es c s) (parsed s (argc_of c)).
Proof.
  induction f as [|f IH]; intros c s Hs Hf Hc; [lia|]. cbn [parseredirs]. unfold left_of in *.
  sbind safe_peek. intros [more s1] (Hs1 & Hn & Hm). destruct more; [|apply safe_ret; split_and!; (done || lia)].
  destruct (Hm eq_refl) as [Hlt _]. sbind safe_shift; [by apply Hn|]. intros [[tok w0] s2] Hs2.
  sbind safe_gettoken. intros [[kind file] s3] (H1 & H2 & H3 & H4 & H5 & H6).
  destruct (Z.eqb_spec kind c_a) as [Hk|]; [|apply safe_panic]. cbn [negb].
  eapply safe_weaken; [apply IH; [lia|lia|]|].
  - destruct (tok =? c_less), (tok =? c_more), (tok =? c_plus); cbn [cmd_ok]; auto.
  - intros [c' s'] (H7 & H8 & H9). split_and!; [lia|lia|done|]. rewrite H9.
    by destruct (tok =? c_less), (tok =? c_more), (tok =? c_plus).
Qed.

Lemma safe_args f : forall argc ret s, 0 <= s <= es -> (left_of s < f)%nat ->
  cmd_ok b es ret -> argc_of ret = Some argc ->
  safe (W := W) (parseargs f b es argc ret s) (parsed_any s).
Proof.
  induction f as [|f IH]; intros argc ret s Hs Hf Hc Ha; [lia|]. cbn [parseargs]. unfold left_of in *.
  sbind safe_peek. intros [stop s1] (Hs1 & Hn & _). destruct stop; [apply safe_ret; split; (done || lia)|].
  sbind safe_gettoken. intros [[tok w] s2] (H1 & H2 & H3 & H4 & H5 & H6).
  destruct (Z.eqb_spec tok 0); [apply safe_ret; split; (done || lia)|].
  destruct (Z.eqb_spec tok c_a) as [Hk|]; [|apply safe_panic]. cbn [negb].
  destruct (Z.leb_spec MAXARGS (argc + 1)); [apply safe_panic|].
  destruct (add_arg_ok b es ret w argc) as [Hc' Ha']; [done..|by apply H6|].
  sbind safe_redirs; [unfold left_of; lia|]. intros [ret' s3] (H7 & H8 & H9).
  eapply safe_weaken; [apply IH; [lia|lia|done|congruence]|]. intros [c' s'] [H10 H11]. split; [lia|done].
Qed.

Lemma safe_backs f : forall c s, 0 <= s <= es -> (left_of s < f)%nat -> cmd_ok b es c ->
  safe (W := W) (parsebacks f b es c s) (parsed_any s).
Proof.
  induction f as [|f IH]; intros c s Hs Hf Hc; [lia|]. cbn [parsebacks]. unfold left_of in *.
  sbind safe_peek. intros [more s1] (Hs1 & Hn & Hm). destruct more; [|apply safe_ret; split; (done || lia)].
  destruct (Hm eq_refl) as [Hlt _]. sbind safe_shift; [by apply Hn|]. intros [[tok w0] s2] Hs2.
  eapply safe_weaken; [apply IH; (done || lia)|]. intros [c' s'] [H1 H2]. split; [lia|done].
Qed.

(** Four levels of calls for each character that is left. *)
Lemma safe_parse f : forall s, 0 <= s <= es ->
  ((4 * left_of s + 4 <= f)%nat -> safe (W := W) (parseline f b es s) (parsed_any s)) /\
  ((4 * left_of s + 3 <= f)%nat -> safe (W := W) (parsepipe f b es s) (parsed_any s)) /\
  ((4 * left_of s + 2 <= f)%nat -> safe (W := W) (parseexec f b es s) (parsed_any s)) /\
  ((4 * left_of s + 1 <= f)%nat -> safe (W := W) (parseblock f b es s) (parsed_any s)).
Proof.
  induction f as [|f IH]; intros s Hs; [split_and!; lia|].
  split_and!; intros Hf; cbn [parseline parsepipe parseexec parseblock].
  - eapply safe_bind; [apply IH; (done || lia)|]. intros [c s1] [H1 Hc].
    sbind safe_backs; [unfold left_of in *; lia|]. intros [c2 s2] [H2 Hc2].
    sbind safe_peek. intros [more s3] (Hs3 & Hn & Hm). destruct more; [|apply safe_ret; split; (done || lia)].
    destruct (Hm eq_refl) as [Hlt _]. sbind safe_shift; [by apply Hn|]. intros [[tok w0] s4] Hs4.
    eapply safe_bind; [apply IH; unfold left_of in *; lia|]. intros [c5 s5] [H5 Hc5]. apply safe_ret. split; [lia|done].
  - eapply safe_bind; [apply IH; (done || lia)|]. intros [c s1] [H1 Hc].
    sbind safe_peek. intros [more s3] (Hs3 & Hn & Hm). destruct more; [|apply safe_ret; split; (done || lia)].
    destruct (Hm eq_refl) as [Hlt _]. sbind safe_shift; [by apply Hn|]. intros [[tok w0] s4] Hs4.
    eapply safe_bind; [apply IH; unfold left_of in *; lia|]. intros [c5 s5] [H5 Hc5]. apply safe_ret. split; [lia|done].
  - sbind safe_peek. intros [opens s1] (Hs1 & Hn & Hm). destruct opens.
    + eapply safe_weaken; [apply IH; unfold left_of in *; lia|]. intros [c' s'] [H1 H2]. split; [lia|done].
    + sbind safe_redirs; [unfold left_of in *; lia|]. intros [ret s2] (H2 & Hc & Ha).
      eapply safe_weaken; [apply safe_args; unfold left_of in *; (done || lia)|]. intros [c' s'] [H3 H4]. split; [lia|done].
  - sbind safe_peek. intros [opens s1] (Hs1 & Hn & Hm). destruct opens; [|apply safe_panic]. cbn [negb].
    destruct (Hm eq_refl) as [Hlt _]. sbind safe_shift; [by apply Hn|]. intros [[tok w0] s2] Hs2.
    eapply safe_bind; [apply IH; unfold left_of in *; lia|]. intros [c s3] [H3 Hc].
    sbind safe_peek. intros [closes s4] (Hs4 & Hn4 & Hm4). destruct closes; [|apply safe_panic]. cbn [negb].
    destruct (Hm4 eq_refl) as [Hlt4 _]. sbind safe_shift; [by apply Hn4|]. intros [[tok' w1] s5] Hs5.
    eapply safe_weaken; [apply safe_redirs; unfold left_of in *; (done || lia)|].
    intros [c' s'] (H6 & H7 & _). split; [lia|done].
Qed.
End parser.

(** ** The ends of the words *)

Fixpoint words_of {T} (c : cmd T) : list T :=
  match c with
  | EXEC argv => argv
  | REDIR c file _ _ => words_of c ++ [file]
  | PIPE l r | LIST l r => words_of l ++ words_of r
  | BACK c => words_of c
  end.

Section ends.
Context {W : Type} {os : OS W}.
Implicit Types (b : str) (ws : list word) (c : cmd word).

(** [b'] is [b] with a NUL at each of [E]. *)
Definition blanked b (E : list Z) b' : Prop :=
  alen b' = alen b /\ forall i, aget b' i = if decide (i ∈ E) then Some 0 else aget b i.

Lemma blanked_nil b : blanked b [] b.
Proof. split; [done|]. intros i. by rewrite decide_False by apply not_elem_of_nil. Qed.

Lemma blanked_app b E b1 E' b2 : blanked b E b1 -> blanked b1 E' b2 -> blanked b (E ++ E') b2.
Proof.
  intros [L1 H1] [L2 H2]. split; [congruence|]. intros i. rewrite H2, H1.
  destruct (decide (i ∈ E')), (decide (i ∈ E)), (decide (i ∈ E ++ E')) as [Hi|Hi]; rewrite elem_of_app in Hi; tauto.
Qed.

Lemma blanked_one b i (w : W) : 0 <= i < alen b -> exists b', uwr b i 0 w = Got b' w /\ blanked b [i] b'.
Proof.
  intros Hi. unfold uwr. rewrite aset_Some by done. eexists. split; [reflexivity|]. split; [apply alen_insert|].
  intros j. rewrite aget_insert by done. destruct (decide (j ∈ [i])) as [Hj|Hj]; rewrite list_elem_of_singleton in Hj.
  - subst. by rewrite decide_True.
  - by rewrite decide_False.
Qed.

Definition ends_in b ws : Prop := forall w, w ∈ ws -> 0 <= w.2 < alen b.

Lemma nul_each_ok ws : forall b (w : W), ends_in b ws ->
  exists b', nul_each b ws w = Got b' w /\ blanked b ws.*2 b'.
Proof.
  induction ws as [|[q e] ws IH]; intros b w H; [exists b; split; [done|apply blanked_nil]|]. cbn [nul_each].
  destruct (blanked_one b e w) as (b1 & E1 & B1); [by apply (H (q, e)); left|]. urun E1.
  destruct (IH b1 w) as (b2 & E2 & B2).
  { intros x Hx. destruct B1 as [-> _]. apply H. by right. }
  exists b2. split; [done|]. exact (blanked_app _ [e] _ _ _ B1 B2).
Qed.

Lemma nulterminate_ok c : forall b (w : W), ends_in b (words_of c) ->
  exists b', nulterminate b c w = Got b' w /\ blanked b (words_of c).*2 b'.
Proof.
  assert (Htwo : forall l r b (w : W),
    (forall b (w : W), ends_in b (words_of l) -> exists b', nulterminate b l w = Got b' w /\ blanked b (words_of l).*2 b') ->
    (forall b (w : W), ends_in b (words_of r) -> exists b', nulterminate b r w = Got b' w /\ blanked b (words_of r).*2 b') ->
    ends_in b (words_of l ++ words_of r) ->
    exists b', (b1 ← nulterminate b l; nulterminate b1 r) w = Got b' w /\ blanked b (words_of l ++ words_of r).*2 b').
  { intros l r b w Hl Hr H. destruct (Hl b w) as (b1 & E1 & B1); [intros x Hx; apply H, elem_of_app; by left|].
    urun E1. destruct (Hr b1 w) as (b2 & E2 & B2).
    { intros x Hx. destruct B1 as [-> _]. apply H, elem_of_app. by right. }
    exists b2. split; [done|]. rewrite fmap_app. exact (blanked_app _ _ _ _ _ B1 B2). }
  induction c as [argv|c IH [q e] mode fd|l IHl r IHr|l IHl r IHr|c IH]; intros b w H; cbn [nulterminate words_of] in *.
  - by apply nul_each_ok.
  - destruct (IH b w) as (b1 & E1 & B1); [intros x Hx; apply H, elem_of_app; by left|]. urun E1.
    destruct (blanked_one b1 e w) as (b2 & E2 & B2).
    { destruct B1 as [-> _]. apply (H (q, e)), elem_of_app. right. by left. }
    exists b2. split; [done|]. rewrite fmap_app. exact (blanked_app _ _ _ _ _ B1 B2).
  - by apply Htwo.
  - by apply Htwo.
  - by apply IH.
Qed.

Definition text_of b (w : word) : str := take (Z.to_nat (w.2 - w.1)) (drop (Z.to_nat w.1) b).

Lemma upto_nul_lookup t : forall l : list Z,
  0 ∉ t -> (forall i, (i < length t)%nat -> l !! i = t !! i) -> l !! length t = Some 0 -> upto_nul l = Some t.
Proof.
  induction t as [|x t IH]; intros l H0 Ht He; destruct l as [|y l]; try done.
  - cbn in He. by injection He as ->.
  - specialize (Ht 0%nat ltac:(simpl; lia)) as Hy. injection Hy as ->. apply not_elem_of_cons in H0 as [Hx H0].
    cbn [upto_nul]. destruct (Z.eqb_spec x 0); [congruence|]. rewrite (IH l); [done..| |done].
    intros i Hi. apply (Ht (S i)). simpl. lia.
Qed.

Lemma words_ok b es c : cmd_ok b es c -> forall w, w ∈ words_of c -> word_ok b es w.
Proof.
  induction c as [argv|c IH file mode fd| | |]; cbn [cmd_ok words_of]; intros Hc w Hw; try (apply elem_of_app in Hw);
    try (naive_solver; fail).
  - destruct Hc as [Hc _]. rewrite Forall_forall in Hc. by apply Hc.
  - destruct Hw as [Hw|Hw%list_elem_of_singleton]; [|subst]; naive_solver.
Qed.

(** Once the ends are written, each word is a string. *)
Lemma word_string b es ws b' w :
  holds_line b es -> (forall w, w ∈ ws -> word_ok b es w) -> blanked b ws.*2 b' -> w ∈ ws ->
  string_at b' w.1 = Some (text_of b w).
Proof.
  intros Hb Hws [Hl Hb'] Hw. destruct (Hws w Hw) as (H1 & H2 & H3 & H4).
  assert (Hlen : w.2 < alen b).
  { destruct (line_at b es w.2 Hb) as (x & E & _); [lia|]. apply aget_lt in E. lia. }
  assert (Hin : forall i, w.1 <= i < w.2 -> exists x, b' !! Z.to_nat i = Some x /\ b !! Z.to_nat i = Some x /\ x <> 0).
  { intros i Hi. destruct (H3 i Hi) as (x & E & Hx & Hwc). exists x.
    assert (Hnot : i ∉ ws.*2).
    { intros (w' & -> & Hw')%list_elem_of_fmap. destruct (Hws w' Hw') as (_ & _ & _ & Hend).
      destruct (Hend ltac:(lia)) as (y & Ey & _ & Hy). rewrite E in Ey. injection Ey as <-. by rewrite Hwc in Hy. }
    specialize (Hb' i). rewrite decide_False in Hb' by done. unfold aget in *.
    destruct (Z.leb_spec 0 i); [|lia]. rewrite Hb', E. done. }
  unfold string_at. destruct (Z.leb_spec 0 w.1); [|lia].
  assert (Hlt : length (text_of b w) = Z.to_nat (w.2 - w.1)).
  { unfold text_of. rewrite length_take, length_drop. unfold alen in *. lia. }
  apply upto_nul_lookup.
  - intros Hz. apply list_elem_of_lookup in Hz as [i Hi]. pose proof (lookup_lt_Some _ _ _ Hi) as Hil.
    unfold text_of in Hi. rewrite lookup_take_lt, lookup_drop in Hi by lia.
    destruct (Hin (w.1 + Z.of_nat i)) as (x & _ & E & Hx); [lia|].
    replace (Z.to_nat (w.1 + Z.of_nat i)) with (Z.to_nat w.1 + i)%nat in E by lia. congruence.
  - intros i Hi. rewrite lookup_drop. unfold text_of. rewrite lookup_take_lt, lookup_drop by lia.
    destruct (Hin (w.1 + Z.of_nat i)) as (x & E1 & E2 & _); [lia|].
    replace (Z.to_nat (w.1 + Z.of_nat i)) with (Z.to_nat w.1 + i)%nat in E1, E2 by lia. congruence.
  - rewrite lookup_drop, Hlt. specialize (Hb' w.2). rewrite decide_True in Hb' by (apply list_elem_of_fmap; by exists w).
    unfold aget in Hb'. destruct (Z.leb_spec 0 w.2); [|lia]. rewrite <- Hb'. f_equal. lia.
Qed.
End ends.

(** ** Parsing and running a line *)

Section running.
Context {W : Type} {os : OS W}.
Implicit Types (b : str) (c : cmd word).

Lemma safe_Got {A} (m : U W A) a (Q : A -> Prop) : (forall w, m w = Got a w) -> Q a -> safe m Q.
Proof. intros E H w. by rewrite E. Qed.

Lemma string_at_suffix (t rest : str) i : 0 ∉ t -> 0 <= i <= alen t ->
  string_at (t ++ 0 :: rest) i = Some (drop (Z.to_nat i) t).
Proof.
  intros H0 Hi. assert (Hd : 0 ∉ drop (Z.to_nat i) t).
  { intros Hin. apply H0. rewrite <- (take_drop (Z.to_nat i) t), elem_of_app. by right. }
  pose proof (string_at_ok (take (Z.to_nat i) t) _ rest Hd) as H.
  rewrite app_assoc, take_drop in H. rewrite <- H. f_equal. unfold alen in *. rewrite length_take. lia.
Qed.

Lemma parsecmd_ends b es c (w : W) : holds_line b es -> cmd_ok b es c ->
  exists b', nulterminate b c w = Got b' w /\ forall x, x ∈ words_of c -> string_at b' x.1 = Some (text_of b x).
Proof.
  intros Hb Hc. pose proof (words_ok _ _ _ Hc) as Hw. destruct (nulterminate_ok c b w) as (b' & E & B).
  { intros x Hx. destruct (Hw x Hx) as (H1 & H2 & _). destruct (line_at b es x.2 Hb) as (y & E & _); [lia|].
    by apply aget_lt in E. }
  exists b'. split; [done|]. intros x Hx. by eapply word_string.
Qed.

Lemma parsecmd_ok b es : holds_line b es ->
  safe (parsecmd b) (fun '(b', c) => cmd_ok b es c /\
    forall w, w ∈ words_of c -> string_at b' w.1 = Some (text_of b w)).
Proof.
  intros Hb. pose proof Hb as (t & rest & -> & -> & H0). unfold parsecmd.
  rewrite (string_at_ok [] t rest H0 : string_at (t ++ 0 :: rest) 0 = Some t). cbv zeta. unfold strlen.
  pose proof (alen_nonneg t). eapply safe_bind.
  { apply safe_parse; [exact Hb|lia|]. unfold left_of, alen. lia. }
  intros [c s] [Hs Hc]. eapply safe_bind; [apply (safe_peek _ _ Hb); lia|]. intros [r s'] (Hs' & _ & _).
  destruct (Z.eqb_spec s' (alen t)) as [->|Hne]; cbn [negb].
  - intros w. destruct (parsecmd_ends _ _ c w Hb Hc) as (b' & E & Hw). by rewrite (u_Got _ _ _ _ _ E).
  - assert (exists rest', string_at (t ++ 0 :: rest) s' = Some rest') as [rest' ->].
    { exists (drop (Z.to_nat s') t). apply string_at_suffix; [done|lia]. }
    apply safe_printf; [done|apply safe_panic].
Qed.

(** What the programs rely on: a successful [pipe] gives two descriptors. *)
Definition pipe_law : Prop := forall w r w', trap Pipe w = (r, w') -> 0 <= rp_val r -> (2 <= length (rp_data r))%nat.

Lemma safe_strs b ws : (forall w, w ∈ ws -> is_Some (string_at b w.1)) -> safe (W := W) (ustrs b ws) (fun _ => True).
Proof.
  induction ws as [|w ws IH]; intros H; [by apply safe_ret|]. cbn [ustrs]. unfold ustr.
  destruct (H w ltac:(by left)) as [t ->]. eapply safe_bind; [by apply (safe_ret t (fun _ => True))|]. intros t' _.
  eapply safe_bind; [apply IH; intros; apply H; by right|]. intros ts _. by apply safe_ret.
Qed.

Lemma safe_child {A} (run : U W unit) (k : U W A) Q :
  safe run (fun _ => False) -> safe k Q -> safe (pid ← fork1; uwhen (pid =? 0) run ;; k) Q.
Proof.
  intros Hr Hk. eapply safe_bind; [apply safe_fork1|]. intros pid _. unfold uwhen.
  destruct (pid =? 0); [|by eapply safe_bind; [by apply (safe_ret tt (fun _ => True))|]].
  eapply safe_bind; [exact Hr|done].
Qed.

Lemma runcmd_leaves b c : pipe_law -> (forall w, w ∈ words_of c -> is_Some (string_at b w.1)) ->
  safe (runcmd b c) (fun _ => False).
Proof.
  intros Hp. induction c as [argv|c IH file mode fd|l IHl r IHr|l IHl r IHr|c IH]; intros Hs; cbn [runcmd words_of] in *;
    try (assert (Hl : forall w, w ∈ words_of l -> is_Some (string_at b w.1)) by (intros; apply Hs, elem_of_app; by left);
         assert (Hr : forall w, w ∈ words_of r -> is_Some (string_at b w.1)) by (intros; apply Hs, elem_of_app; by right)).
  - eapply safe_bind; [by apply safe_strs|]. intros [|a args] _; [apply safe_exit|].
    eapply safe_bind with (P := fun _ => True); [|intros; apply safe_printf; [done|apply safe_exit]].
    intros w. unfold uexec. destruct (trap _ w) as [x w']. by destruct (rp_val x =? 0).
  - apply safe_then. destruct (Hs file) as [t Ht]; [apply elem_of_app; right; by left|]. unfold ustr. rewrite Ht.
    eapply safe_bind; [by apply (safe_ret t (fun _ => True))|]. intros t' _. eapply safe_bind; [apply safe_sys|]. intros x _.
    destruct (x <? 0); [apply safe_printf; [done|apply safe_exit]|].
    eapply safe_bind; [apply IH; intros; apply Hs, elem_of_app; by left|done].
  - eapply safe_bind with (P := fun '(r, p) => 0 <= r -> (2 <= length p)%nat).
    { intros w. unfold sys_data. destruct (trap Pipe w) as [x w'] eqn:E. by apply Hp in E. }
    intros [x p] Hpipe. destruct (Z.ltb_spec x 0); [apply safe_panic|]. specialize (Hpipe ltac:(lia)).
    destruct p as [|p0 [|p1 p]]; [simpl in Hpipe; lia..|].
    eapply safe_bind; [by apply (safe_rd _ 0 (fun _ => True)); exists p0|]. intros q0 _.
    eapply safe_bind; [by apply (safe_rd _ 1 (fun _ => True)); exists p1|]. intros q1 _.
    apply safe_child; [do 4 apply safe_then; by apply IHl|]. apply safe_child; [do 4 apply safe_then; by apply IHr|].
    do 4 apply safe_then. apply safe_exit.
  - apply safe_child; [by apply IHl|]. apply safe_then. eapply safe_bind; [by apply IHr|done].
  - apply safe_child; [by apply IH|apply safe_exit].
Qed.

(** C13. The process that runs a command line ends in [exec] or [exit]: whatever the
    line, the parser stays within the buffer and within four nested calls for each
    character, and [runcmd] does not return. *)
Theorem runline_leaves b es w :
  pipe_law -> holds_line b es -> exists w', runline b w = Gone w'.
Proof.
  intros Hp Hb. assert (Hs : safe (runline b) (fun _ => False)).
  { eapply safe_bind; [by apply parsecmd_ok|]. intros [b' c] [_ Hw]. apply runcmd_leaves; [done|].
    intros x Hx. rewrite Hw by done. done. }
  specialize (Hs w). destruct (runline b w); try done. eauto.
Qed.

(** C37. A parsed command is well formed: each word is a maximal run of word
    characters of the line, which is the string the word points to once
    [nulterminate] has run; commands have fewer than [MAXARGS] words, and
    redirections open descriptor 0 for reading or 1 for writing. *)
Theorem parsecmd_typed b es w b' c w' :
  holds_line b es -> parsecmd b w = Got (b', c) w' ->
  cmd_ok b es c /\ forall x, x ∈ words_of c -> string_at b' x.1 = Some (text_of b x).
Proof. intros Hb E. pose proof (parsecmd_ok b es Hb w) as H. by rewrite E in H. Qed.
End running.
