(* ===== verification/ShellRound.v ===== *)
(** * The shell's parser reads back what is printed

    The grammar of command lines, how a line is printed, and the command it
    stands for: the parser gives that command on the printed line. *)

From S2P Require Import Prelude State Console User Tools GrepSpec Shell ShellSpec.
Import Ulib Printf.
Open Scope Z_scope.

(** ** The grammar *)

Inductive redir_op := RIn | ROut | RAppend.
Record redir := mkredir { r_op : redir_op; r_file : str }.

Inductive aline :=
  | ALast (p : apipe) (backs : nat)
  | ANext (p : apipe) (backs : nat) (l : aline)
with apipe :=
  | AOne (e : aexec)
  | AMore (e : aexec) (p : apipe)
with aexec :=
  | ASimple (rs : list redir) (args : list (str * list redir))
  | ABlock (l : aline) (rs : list redir).

Scheme aline_rect' := Induction for aline Sort Prop
  with apipe_rect' := Induction for apipe Sort Prop
  with aexec_rect' := Induction for aexec Sort Prop.
Combined Scheme grammar_ind from aline_rect', apipe_rect', aexec_rect'.

(** ** Printing: every token is followed by a space *)

Definition tok (s : str) : str := s ++ [32].
Definition show_op (o : redir_op) : str := match o with RIn => [60] | ROut => [62] | RAppend => [62; 62] end.
Definition show_redir (r : redir) : str := tok (show_op (r_op r)) ++ tok (r_file r).
Definition show_redirs (rs : list redir) : str := concat (show_redir <$> rs).
Definition show_args (args : list (str * list redir)) : str :=
  concat ((fun '(w, rs) => tok w ++ show_redirs rs) <$> args).
Definition show_backs (n : nat) : str := concat (replicate n (tok [38])).

Fixpoint show_line (l : aline) : str :=
  match l with
  | ALast p n => show_pipe p ++ show_backs n
  | ANext p n l => show_pipe p ++ show_backs n ++ tok [59] ++ show_line l
  end
with show_pipe (p : apipe) : str :=
  match p with
  | AOne e => show_exec e
  | AMore e p => show_exec e ++ tok [124] ++ show_pipe p
  end
with show_exec (e : aexec) : str :=
  match e with
  | ASimple rs args => show_redirs rs ++ show_args args
  | ABlock l rs => tok [40] ++ show_line l ++ tok [41] ++ show_redirs rs
  end.

(** ** Meaning *)

Definition add_redir (c : cmd str) (r : redir) : cmd str :=
  match r_op r with RIn => REDIR c (r_file r) 0 0 | _ => REDIR c (r_file r) 0x201 1 end.
Definition add_redirs (c : cmd str) (rs : list redir) : cmd str := foldl add_redir c rs.
Definition add_args (c : cmd str) (args : list (str * list redir)) : cmd str :=
  foldl (fun c '(w, rs) => add_redirs (add_arg c w) rs) c args.

Fixpoint line_cmd (l : aline) : cmd str :=
  match l with
  | ALast p n => Nat.iter n BACK (pipe_cmd p)
  | ANext p n l => LIST (Nat.iter n BACK (pipe_cmd p)) (line_cmd l)
  end
with pipe_cmd (p : apipe) : cmd str :=
  match p with
  | AOne e => exec_cmd e
  | AMore e p => PIPE (exec_cmd e) (pipe_cmd p)
  end
with exec_cmd (e : aexec) : cmd str :=
  match e with
  | ASimple rs args => add_args (add_redirs (EXEC []) rs) args
  | ABlock l rs => add_redirs (line_cmd l) rs
  end.

(** ** What can be printed *)

Definition word_char (x : Z) : bool := wordchar x && negb (x =? 0).
Definition word_str (w : str) : bool := negb (alen w =? 0) && forallb word_char w.
Definition redirs_wf (rs : list redir) : bool := forallb (fun r => word_str (r_file r)) rs.
Definition args_wf (args : list (str * list redir)) : bool := forallb (fun '(w, rs) => word_str w && redirs_wf rs) args.

Fixpoint line_wf (l : aline) : bool :=
  match l with
  | ALast p n => pipe_wf p
  | ANext p n l => pipe_wf p && line_wf l
  end
with pipe_wf (p : apipe) : bool :=
  match p with
  | AOne e => exec_wf e
  | AMore e p => exec_wf e && pipe_wf p
  end
with exec_wf (e : aexec) : bool :=
  match e with
  | ASimple rs args => redirs_wf rs && args_wf args && (alen args <? MAXARGS)
  | ABlock l rs => line_wf l && redirs_wf rs
  end.

(** ** Tokens *)

Definition hd_in (toks k : str) : bool := match k with [] => false | x :: _ => isin toks x end.

(** The next token starts at once. *)
Definition stops (k : str) : Prop := match k with [] => True | x :: _ => isin whitespace x = false /\ x <> 0 end.

Fixpoint cmd_map {S T} (g : S -> T) (c : cmd S) : cmd T :=
  match c with
  | EXEC argv => EXEC (g <$> argv)
  | REDIR c file mode fd => REDIR (cmd_map g c) (g file) mode fd
  | PIPE l r => PIPE (cmd_map g l) (cmd_map g r)
  | LIST l r => LIST (cmd_map g l) (cmd_map g r)
  | BACK c => BACK (cmd_map g c)
  end.

Section tokens.
Context {W : Type} {os : OS W}.
Implicit Types (pre k rest wd : str) (w : W).

(** The buffer with [pre] read and [suf] left. *)
Definition text pre suf rest : str := (pre ++ suf) ++ 0 :: rest.
Definition stop pre suf : Z := alen (pre ++ suf).

Lemma urd_at pre x suf w : urd (pre ++ x :: suf) (alen pre) w = Got x w.
Proof. unfold urd, alen. by rewrite aget_nat, lookup_app_r, Nat.sub_diag by lia. Qed.

Lemma urd_hd pre suf rest w : urd (text pre suf rest) (alen pre) w = Got (hd 0 suf) w.
Proof.
  unfold text. rewrite <- app_assoc. destruct suf as [|x suf]; cbn [app hd]; apply urd_at.
Qed.

Lemma text_step pre a suf rest : text pre (a ++ suf) rest = text (pre ++ a) suf rest.
Proof. unfold text. by rewrite !app_assoc. Qed.
Lemma stop_step pre a suf : stop pre (a ++ suf) = stop (pre ++ a) suf.
Proof. unfold stop. by rewrite !app_assoc. Qed.

Lemma span_ok p a : forall pre k rest w, forallb p a = true -> match k with x :: _ => p x = false | [] => True end ->
  span p (to_end (stop pre (a ++ k)) (alen pre)) (text pre (a ++ k) rest) (alen pre) w = Got (alen (pre ++ a)) w.
Proof.
  induction a as [|x a IH]; intros pre k rest w Ha Hk.
  - cbn [app]. rewrite app_nil_r. destruct k as [|y k].
    + unfold stop, to_end. rewrite app_nil_r, Z.sub_diag. done.
    + destruct (to_end _ _) as [|n] eqn:En.
      { unfold to_end, stop, alen in En. rewrite length_app in En. simpl in En. lia. }
      cbn [span]. urun urd_hd. cbn [hd]. by rewrite Hk.
  - apply andb_true_iff in Ha as [Hx Ha]. destruct (to_end _ _) as [|n] eqn:En.
    { unfold to_end, stop, alen in En. rewrite length_app in En. simpl in En. lia. }
    cbn [span]. urun urd_hd. cbn [hd app]. rewrite Hx. specialize (IH (pre ++ [x]) k rest w Ha Hk).
    rewrite <- text_step, <- stop_step, <- app_assoc, (alen_app pre [x]) in IH. cbn [app] in IH.
    change (alen [x]) with 1 in IH.
    replace n with (to_end (stop pre (x :: a ++ k)) (alen pre + 1)) by (unfold to_end in *; cbn [app] in En; lia).
    exact IH.
Qed.

Lemma skip_none pre k rest w : stops k -> skip (text pre k rest) (stop pre k) (alen pre) w = Got (alen pre) w.
Proof.
  intros Hk. pose proof (span_ok (isin whitespace) [] pre k rest w eq_refl) as H. rewrite app_nil_r in H. apply H.
  destruct k; [done|apply Hk].
Qed.
Lemma skip_space pre k rest w : stops k ->
  skip (text pre (32 :: k) rest) (stop pre (32 :: k)) (alen pre) w = Got (alen pre + 1) w.
Proof.
  intros Hk. change (32 :: k) with ([32] ++ k). replace (alen pre + 1) with (alen (pre ++ [32])) by apply alen_app.
  apply (span_ok (isin whitespace) [32] pre k); [reflexivity|]. destruct k; [done|apply Hk].
Qed.

Lemma peek_ok pre k rest toks w : stops k ->
  peek (text pre k rest) (stop pre k) (alen pre) toks w = Got (hd_in toks k, alen pre) w.
Proof.
  intros Hk. unfold peek. urun (skip_none pre k rest w Hk). urun urd_hd. destruct k as [|x k]; [done|]. cbn [hd hd_in].
  destruct (Z.eqb_spec x 0) as [->|]; [by destruct Hk|]. done.
Qed.

(** A token that starts at once, ends before a space, and is followed by [k]. *)
Lemma gettoken_ok pre t k rest ret w :
  stops k -> stops (t ++ 32 :: k) ->
  (let b := text pre (t ++ 32 :: k) rest in
   let c := hd 0 (t ++ 32 :: k) in
   (if c =? 0 then mret (0, alen pre)
    else if isin (chars "|();&<") c then mret (c, alen pre + 1)
    else if c =? c_more then
      c' ← urd b (alen pre + 1);
      if c' =? c_more then mret (c_plus, alen pre + 2) else mret (c, alen pre + 1)
    else
      s ← span wordchar (to_end (stop pre (t ++ 32 :: k)) (alen pre)) b (alen pre);
      mret (c_a, s)) w = Got (ret, alen (pre ++ t)) w) ->
  gettoken (text pre (t ++ 32 :: k) rest) (stop pre (t ++ 32 :: k)) (alen pre) w =
    Got (ret, (alen pre, alen (pre ++ t)), alen (pre ++ tok t)) w.
Proof.
  intros Hk Ht H. unfold gettoken. urun (skip_none pre (t ++ 32 :: k) rest w Ht). urun urd_hd. urun H.
  rewrite text_step, stop_step. urun (skip_space (pre ++ t) k rest w Hk). unfold tok. rewrite app_assoc, (alen_app (pre ++ t)). done.
Qed.

Lemma gettoken_word pre wd k rest w : word_str wd = true -> stops k ->
  gettoken (text pre (tok wd ++ k) rest) (stop pre (tok wd ++ k)) (alen pre) w =
    Got (c_a, (alen pre, alen (pre ++ wd)), alen (pre ++ tok wd)) w.
Proof.
  intros Hw Hk. unfold tok at 1 2. rewrite <- !app_assoc. cbn [app].
  unfold word_str in Hw. apply andb_true_iff in Hw as [Hne Hw].
  destruct wd as [|x wd]; [done|]. pose proof Hw as Hx. cbn [forallb] in Hx. apply andb_true_iff in Hx as [Hx _].
  apply andb_true_iff in Hx as [Hx H0]. apply negb_true_iff, Z.eqb_neq in H0.
  pose proof Hx as Hc. unfold wordchar in Hc. apply andb_true_iff in Hc as [Hsp Hsym]. apply negb_true_iff in Hsp, Hsym.
  apply gettoken_ok; [done|by split|]. cbv zeta. cbn [app hd]. destruct (Z.eqb_spec x 0); [done|].
  assert (isin (chars "|();&<") x = false) as ->.
  { unfold isin, symbols, chars in *. cbn in Hsym |- *.
    repeat match goal with |- context [?a =? x] => destruct (Z.eqb_spec a x) as [<-|] end; done. }
  destruct (Z.eqb_spec x c_more) as [->|]; [done|].
  pose proof (span_ok wordchar (x :: wd) pre (32 :: k) rest w) as Hs. cbn [app] in Hs. erewrite u_Got; [reflexivity|].
  apply Hs; [|done]. clear -Hw. induction (x :: wd) as [|y l IH]; [done|]. cbn in *.
  apply andb_true_iff in Hw as [Hy Hw]. apply andb_true_iff in Hy as [-> _]. by apply IH.
Qed.

Lemma gettoken_sym pre x k rest w : isin (chars "|();&<") x = true -> stops k ->
  gettoken (text pre (tok [x] ++ k) rest) (stop pre (tok [x] ++ k)) (alen pre) w =
    Got (x, (alen pre, alen (pre ++ [x])), alen (pre ++ tok [x])) w.
Proof.
  intros Hx Hk. unfold tok at 1 2. rewrite <- !app_assoc. cbn [app].
  assert (Hsp : isin whitespace x = false /\ x <> 0).
  { unfold isin, whitespace, chars in *. cbn in Hx |- *.
    repeat match type of Hx with context [?a =? x] => destruct (Z.eqb_spec a x) as [<-|] end; done. }
  apply (gettoken_ok pre [x] k); [done|exact Hsp|]. cbv zeta. cbn [app hd].
  destruct (Z.eqb_spec x 0); [by destruct Hsp|]. rewrite Hx, alen_app. done.
Qed.

Ltac to_more := change (62 =? 0) with false; change (isin (chars "|();&<") 62) with false;
  change (62 =? c_more) with true; cbv iota.

Lemma gettoken_op pre o k rest w : stops k ->
  gettoken (text pre (tok (show_op o) ++ k) rest) (stop pre (tok (show_op o) ++ k)) (alen pre) w =
    Got (match o with RIn => c_less | ROut => c_more | RAppend => c_plus end,
      (alen pre, alen (pre ++ show_op o)), alen (pre ++ tok (show_op o))) w.
Proof.
  intros Hk. destruct o; [by apply gettoken_sym|..]; unfold tok at 1 2; rewrite <- !app_assoc; cbn [app show_op].
  - apply (gettoken_ok pre [62] k); [done|done|]. cbv zeta. cbn [app hd]. to_more.
    change (62 :: 32 :: k) with ([62] ++ 32 :: k). rewrite text_step.
    replace (alen pre + 1) with (alen (pre ++ [62])) by apply alen_app. urun urd_hd. done.
  - apply (gettoken_ok pre [62; 62] k); [done|done|]. cbv zeta. cbn [app hd]. to_more.
    change (62 :: 62 :: 32 :: k) with ([62] ++ 62 :: 32 :: k). rewrite text_step.
    replace (alen pre + 1) with (alen (pre ++ [62])) by apply alen_app. urun urd_hd. cbn [hd].
    rewrite (alen_app pre [62; 62]). done.
Qed.
End tokens.

(** ** What may follow *)

Section follow.
Implicit Types (k toks wd : str).

(** The rest of the line is empty or starts with one of [toks]. *)
Definition ends toks k : Prop := k = [] \/ hd_in toks k = true.

Lemma isin_elem toks x : isin toks x = true -> x ∈ toks.
Proof.
  unfold isin. induction toks as [|y toks IH]; [done|]. cbn [strchr]. destruct (Z.eqb_spec y x) as [->|]; [by left|].
  intros H. right. apply IH. by destruct (strchr toks x).
Qed.

Lemma ends_all toks k (p : Z -> bool) : ends toks k -> forallb p toks = true -> match k with [] => True | x :: _ => p x = true end.
Proof.
  intros [->|H] Hp; [done|]. destruct k as [|x k]; [done|]. rewrite forallb_forall in Hp. apply Hp.
  by apply list_elem_of_In, isin_elem.
Qed.

Lemma ends_stops toks k : ends toks k -> forallb (fun x => negb (isin whitespace x) && negb (x =? 0)) toks = true -> stops k.
Proof.
  intros H Hp. pose proof (ends_all _ _ _ H Hp) as Hk. destruct k as [|x k]; [done|].
  apply andb_true_iff in Hk as [H1 H2]. apply negb_true_iff in H1, H2. apply Z.eqb_neq in H2. done.
Qed.

Lemma ends_not toks toks' k : ends toks k -> forallb (fun x => negb (isin toks' x)) toks = true -> hd_in toks' k = false.
Proof. intros H Hp. pose proof (ends_all _ _ _ H Hp) as Hk. destruct k as [|x k]; [done|]. by apply negb_true_iff. Qed.

Lemma ends_sub toks toks' k : ends toks k -> forallb (isin toks') toks = true -> ends toks' k.
Proof. intros H Hp. pose proof (ends_all _ _ _ H Hp) as Hk. destruct k; [by left|by right]. Qed.

Lemma word_hd wd k : word_str wd = true -> exists x k', tok wd ++ k = x :: k' /\ wordchar x = true /\ x <> 0.
Proof.
  unfold word_str, tok. intros [H1 H2]%andb_true_iff. destruct wd as [|x wd]; [done|].
  cbn [forallb] in H2. apply andb_true_iff in H2 as [H2 _]. apply andb_true_iff in H2 as [H2 H3].
  apply negb_true_iff, Z.eqb_neq in H3. by eexists x, _.
Qed.

Lemma wordchar_sym x toks : wordchar x = true -> forallb (isin symbols) toks = true -> isin toks x = false.
Proof.
  intros Hx Ht. apply not_true_iff_false. intros Hin. apply isin_elem in Hin. rewrite forallb_forall in Ht.
  apply list_elem_of_In in Hin. specialize (Ht x Hin). unfold wordchar in Hx. rewrite Ht in Hx. by destruct (isin whitespace x).
Qed.

Lemma stops_word wd k : word_str wd = true -> stops (tok wd ++ k).
Proof.
  intros H. destruct (word_hd wd k H) as (x & k' & -> & Hx & H0). split; [|done].
  unfold wordchar in Hx. apply andb_true_iff in Hx as [Hx _]. by apply negb_true_iff.
Qed.

Lemma stops_redirs rs k : stops k -> stops (show_redirs rs ++ k).
Proof. intros Hk. destruct rs as [|[[] f] rs]; done. Qed.

Lemma stops_args args k : args_wf args = true -> stops k -> stops (show_args args ++ k).
Proof.
  intros Ha Hk. destruct args as [|[wd rs] args]; [done|]. cbn in Ha. apply andb_true_iff in Ha as [[Ha _]%andb_true_iff _].
  unfold show_args. cbn [fmap list_fmap concat]. rewrite <- !app_assoc. by apply stops_word.
Qed.

(** Arguments do not start with a symbol. *)
Lemma args_hd args k toks : args_wf args = true -> forallb (isin symbols) toks = true ->
  hd_in toks k = false -> hd_in toks (show_args args ++ k) = false.
Proof.
  intros Ha Ht Hk. destruct args as [|[wd rs] args]; [done|]. cbn in Ha. apply andb_true_iff in Ha as [[Ha _]%andb_true_iff _].
  unfold show_args. cbn [fmap list_fmap concat]. rewrite <- !app_assoc.
  destruct (word_hd wd (show_redirs rs ++ concat ((fun '(w, rs) => tok w ++ show_redirs rs) <$> args) ++ k) Ha) as (x & k' & -> & Hx & _).
  by apply wordchar_sym.
Qed.

Lemma stops_show :
  (forall l k, line_wf l = true -> stops k -> stops (show_line l ++ k)) /\
  (forall p k, pipe_wf p = true -> stops k -> stops (show_pipe p ++ k)) /\
  (forall e k, exec_wf e = true -> stops k -> stops (show_exec e ++ k)).
Proof.
  apply grammar_ind; cbn [show_line show_pipe show_exec line_wf pipe_wf exec_wf].
  - intros p IH n k Hw Hk. rewrite <- app_assoc. apply IH; [done|]. by destruct n.
  - intros p IH n l _ k [Hw _]%andb_true_iff Hk. rewrite <- !app_assoc. apply IH; [done|]. by destruct n.
  - done.
  - intros e IH p _ k [Hw _]%andb_true_iff Hk. rewrite <- !app_assoc. by apply IH.
  - intros rs args k [[_ Ha]%andb_true_iff _]%andb_true_iff Hk. rewrite <- app_assoc. by apply stops_redirs, stops_args.
  - done.
Qed.
End follow.

(** ** The parser on a printed line *)

Section round.
Context {W : Type} {os : OS W} (b : str) (es : Z).
Implicit Types (pre k wd : str) (w : W) (f : nat) (c : cmd word).

(** [pre] is read, [suf] is left. *)
Definition unread pre (suf : str) : Prop := exists rest, b = text pre suf rest /\ es = stop pre suf.

Lemma unread_step pre a suf : unread pre (a ++ suf) -> unread (pre ++ a) suf.
Proof. intros (rest & Eb & Ee). exists rest. by rewrite <- text_step, <- stop_step. Qed.

Lemma peek_at pre k toks w : unread pre k -> stops k -> peek b es (alen pre) toks w = Got (hd_in toks k, alen pre) w.
Proof. intros (rest & -> & ->) Hk. by apply peek_ok. Qed.
Lemma word_at pre wd k w : unread pre (tok wd ++ k) -> word_str wd = true -> stops k ->
  gettoken b es (alen pre) w = Got (c_a, (alen pre, alen (pre ++ wd)), alen (pre ++ tok wd)) w.
Proof. intros (rest & -> & ->). apply gettoken_word. Qed.
Lemma sym_at pre x k w : unread pre (tok [x] ++ k) -> isin (chars "|();&<") x = true -> stops k ->
  gettoken b es (alen pre) w = Got (x, (alen pre, alen (pre ++ [x])), alen (pre ++ tok [x])) w.
Proof. intros (rest & -> & ->). apply gettoken_sym. Qed.
Lemma op_at pre o k w : unread pre (tok (show_op o) ++ k) -> stops k ->
  gettoken b es (alen pre) w = Got (match o with RIn => c_less | ROut => c_more | RAppend => c_plus end,
    (alen pre, alen (pre ++ show_op o)), alen (pre ++ tok (show_op o))) w.
Proof. intros (rest & -> & ->). apply gettoken_op. Qed.

Lemma end_at pre w : unread pre [] -> gettoken b es (alen pre) w = Got (0, (alen pre, alen pre), alen pre) w.
Proof.
  intros (rest & -> & ->). unfold gettoken. urun (skip_none pre [] rest w I). urun urd_hd. cbn [hd Z.eqb]. ustep.
  by urun (skip_none pre [] rest w I).
Qed.

Definition named c : cmd str := cmd_map (text_of b) c.

Lemma word_text pre wd k : unread pre (tok wd ++ k) -> text_of b (alen pre, alen (pre ++ wd)) = wd.
Proof.
  intros (rest & -> & _). unfold text_of, text, tok. cbn [fst snd]. rewrite <- !app_assoc, drop_pre, alen_app.
  apply take_app_length'. unfold alen. lia.
Qed.

Lemma named_arg c x : named (add_arg c x) = add_arg (named c) (text_of b x).
Proof. unfold named. induction c; cbn [add_arg cmd_map]; [by rewrite fmap_app|congruence|done..]. Qed.

Lemma show_redirs_cons o file rs :
  show_redirs (mkredir o file :: rs) = tok (show_op o) ++ tok file ++ show_redirs rs.
Proof. unfold show_redirs, show_redir. cbn [fmap list_fmap concat r_op r_file]. by rewrite <- app_assoc. Qed.

Lemma redirs_ok rs : forall f c pre k w,
  unread pre (show_redirs rs ++ k) -> redirs_wf rs = true -> stops k -> hd_in (chars "<>") k = false ->
  (length (show_redirs rs) < f)%nat ->
  exists c', parseredirs f b es c (alen pre) w = Got (c', alen (pre ++ show_redirs rs)) w /\
    named c' = add_redirs (named c) rs.
Proof.
  induction rs as [|[o file] rs IH]; intros f c pre k w Hu Hwf Hk Hno Hf; (destruct f as [|f]; [lia|]); cbn [parseredirs].
  - cbn [show_redirs fmap list_fmap concat app] in Hu. urun (peek_at pre k (chars "<>") w Hu Hk). rewrite Hno.
    exists c. by rewrite app_nil_r.
  - rewrite show_redirs_cons in *. rewrite <- !app_assoc in Hu.
    cbn [redirs_wf forallb r_file] in Hwf. apply andb_true_iff in Hwf as [Hw Hwf].
    urun (peek_at pre _ (chars "<>") w Hu ltac:(by destruct o)).
    assert (hd_in (chars "<>") (tok (show_op o) ++ tok file ++ show_redirs rs ++ k) = true) as -> by (by destruct o).
    urun (op_at pre o _ w Hu (stops_word _ _ Hw)). apply unread_step in Hu as Hu1.
    urun (word_at _ file _ w Hu1 Hw (stops_redirs rs k Hk)). change (c_a =? c_a) with true. cbn [negb].
    apply unread_step in Hu1 as Hu2. rewrite !length_app in Hf.
    match goal with |- exists c', parseredirs f b es ?c1 _ _ = _ /\ _ =>
      destruct (IH f c1 _ k w Hu2 Hwf Hk Hno) as (c' & E & Hn) end.
    { unfold tok in Hf. rewrite !length_app in Hf. simpl in Hf. lia. }
    exists c'. rewrite E, Hn. split; [by rewrite <- !app_assoc|].
    unfold add_redirs. cbn [foldl]. f_equal. unfold add_redir. cbn [r_op r_file].
    destruct o; cbv [c_less c_more c_plus Z.eqb Pos.eqb]; unfold named; cbn [cmd_map]; by rewrite (word_text _ file _ Hu1).
Qed.

Lemma show_args_cons wd rs args : show_args ((wd, rs) :: args) = tok wd ++ show_redirs rs ++ show_args args.
Proof. unfold show_args. cbn [fmap list_fmap concat]. by rewrite <- app_assoc. Qed.

Lemma ends_args k : ends (chars "|)&;") k -> stops k /\ hd_in (chars "<>") k = false.
Proof. intros H. split; [by eapply ends_stops|by eapply ends_not]. Qed.

Lemma args_ok args : forall f argc c pre k w,
  unread pre (show_args args ++ k) -> args_wf args = true -> ends (chars "|)&;") k ->
  0 <= argc -> argc + alen args < MAXARGS -> (length (show_args args) < f)%nat ->
  exists c', parseargs f b es argc c (alen pre) w = Got (c', alen (pre ++ show_args args)) w /\
    named c' = add_args (named c) args.
Proof.
  induction args as [|[wd rs] args IH]; intros f argc c pre k w Hu Hwf Hk Ha Hmax Hf; (destruct f as [|f]; [lia|]);
    cbn [parseargs]; destruct (ends_args k Hk) as [Hstop Hno].
  - cbn [show_args fmap list_fmap concat app] in *. rewrite app_nil_r.
    urun (peek_at pre k (chars "|)&;") w Hu Hstop). exists c. split; [|done].
    destruct Hk as [->|Hk]; [|by rewrite Hk]. cbn [hd_in]. cbv iota. by urun end_at.
  - rewrite show_args_cons in *. rewrite <- !app_assoc in Hu. cbn [args_wf forallb] in Hwf.
    apply andb_true_iff in Hwf as [[Hw Hrs]%andb_true_iff Hwf].
    assert (Hst : stops (show_redirs rs ++ show_args args ++ k)) by (by apply stops_redirs, stops_args).
    urun (peek_at pre _ (chars "|)&;") w Hu (stops_word _ _ Hw)).
    assert (hd_in (chars "|)&;") (tok wd ++ show_redirs rs ++ show_args args ++ k) = false) as ->.
    { destruct (word_hd wd (show_redirs rs ++ show_args args ++ k) Hw) as (x & k' & -> & Hx & _). by apply wordchar_sym. }
    urun (word_at pre wd _ w Hu Hw Hst). change (c_a =? 0) with false. change (c_a =? c_a) with true. cbn [negb].
    rewrite alen_cons in Hmax. pose proof (alen_nonneg args).
    destruct (Z.leb_spec MAXARGS (argc + 1)); [lia|]. apply unread_step in Hu as Hu1. rewrite !length_app in Hf.
    destruct (redirs_ok rs f (add_arg c (alen pre, alen (pre ++ wd))) _ _ w Hu1 Hrs) as (c1 & E1 & N1).
    { by apply stops_args. }
    { by apply args_hd. }
    { unfold tok in Hf. rewrite length_app in Hf. simpl in Hf. lia. }
    urun E1. apply unread_step in Hu1 as Hu2.
    destruct (IH f (argc + 1) c1 _ k w Hu2 Hwf Hk) as (c2 & E2 & N2); [lia|lia|unfold tok in Hf; rewrite length_app in Hf; simpl in Hf; lia|].
    exists c2. rewrite E2, N2, N1, named_arg, (word_text _ _ _ Hu). by rewrite <- !app_assoc.
Qed.

Lemma backs_ok n : forall f c pre k w,
  unread pre (show_backs n ++ k) -> stops k -> hd_in (chars "&") k = false -> (length (show_backs n) < f)%nat ->
  exists c', parsebacks f b es c (alen pre) w = Got (c', alen (pre ++ show_backs n)) w /\
    named c' = Nat.iter n BACK (named c).
Proof.
  induction n as [|n IH]; intros f c pre k w Hu Hk Hno Hf; (destruct f as [|f]; [lia|]); cbn [parsebacks].
  - cbn [show_backs replicate concat app] in *. rewrite app_nil_r. urun (peek_at pre k (chars "&") w Hu Hk). rewrite Hno.
    by exists c.
  - change (show_backs (S n)) with (tok [38] ++ show_backs n) in *. rewrite <- app_assoc in Hu.
    assert (Hst : stops (show_backs n ++ k)) by (by destruct n).
    urun (peek_at pre _ (chars "&") w Hu ltac:(done)). change (hd_in (chars "&") (tok [38] ++ show_backs n ++ k)) with true.
    cbv iota. urun (sym_at pre 38 _ w Hu eq_refl Hst). apply unread_step in Hu as Hu1.
    rewrite length_app in Hf. simpl in Hf.
    destruct (IH f (BACK c) _ k w Hu1 Hk Hno ltac:(lia)) as (c' & E & N). exists c'. rewrite E, N, <- app_assoc.
    split; [done|]. change (named (BACK c)) with (BACK (named c)). by rewrite Nat.iter_swap.
Qed.

Lemma stops_back n l k : stops k -> stops (show_backs n ++ tok [59] ++ show_line l ++ k) /\ stops (show_backs n ++ k).
Proof. intros Hk. by destruct n. Qed.
Lemma ends_back n k : ends (chars ")&;") (show_backs n ++ tok [59] ++ k) /\ (ends (chars ")") k -> ends (chars ")&;") (show_backs n ++ k)).
Proof.
  split; [by destruct n; right|]. intros Hk. destruct n; [by apply (ends_sub (chars ")"))|by right].
Qed.

Ltac assoc := rewrite <- ?app_assoc in *.

(** The parser reads the printed form of a part of the line, and stops there. *)
Definition line_reads (l : aline) : Prop := forall f pre k w,
  line_wf l = true -> unread pre (show_line l ++ k) -> ends (chars ")") k -> (4 * length (show_line l ++ k) + 4 <= f)%nat ->
  exists c, parseline f b es (alen pre) w = Got (c, alen (pre ++ show_line l)) w /\ named c = line_cmd l.
Definition pipe_reads (p : apipe) : Prop := forall f pre k w,
  pipe_wf p = true -> unread pre (show_pipe p ++ k) -> ends (chars ")&;") k -> (4 * length (show_pipe p ++ k) + 3 <= f)%nat ->
  exists c, parsepipe f b es (alen pre) w = Got (c, alen (pre ++ show_pipe p)) w /\ named c = pipe_cmd p.
Definition exec_reads (e : aexec) : Prop := forall f pre k w,
  exec_wf e = true -> unread pre (show_exec e ++ k) -> ends (chars "|)&;") k -> (4 * length (show_exec e ++ k) + 2 <= f)%nat ->
  exists c, parseexec f b es (alen pre) w = Got (c, alen (pre ++ show_exec e)) w /\ named c = exec_cmd e.

Ltac reads := unfold line_reads, pipe_reads, exec_reads;
  cbn [show_line show_pipe show_exec line_wf pipe_wf exec_wf line_cmd pipe_cmd exec_cmd].

Lemma last_ok p n : pipe_reads p -> line_reads (ALast p n).
Proof.
  reads. intros IH f pre k w Hw Hu Hk Hf. assoc. destruct f as [|f]; [lia|]. cbn [parseline].
  assert (Hst : stops k) by (by eapply ends_stops).
  destruct (IH f pre _ w Hw Hu (proj2 (ends_back n _) Hk)) as (c & E & N); [lia|]. urun E. apply unread_step in Hu as Hu1.
  rewrite !length_app in Hf.
  destruct (backs_ok n f c _ k w Hu1 Hst (ends_not _ (chars "&") k Hk eq_refl)) as (c1 & E1 & N1); [lia|]. urun E1.
  apply unread_step in Hu1 as Hu2. urun (peek_at _ k (chars ";") w Hu2 Hst). rewrite (ends_not _ (chars ";") k Hk eq_refl).
  exists c1. rewrite N1, N. by assoc.
Qed.

Lemma next_ok p n l : pipe_reads p -> line_reads l -> line_reads (ANext p n l).
Proof.
  reads. intros IHp IHl f pre k w [Hw Hwl]%andb_true_iff Hu Hk Hf. assoc. destruct f as [|f]; [lia|]. cbn [parseline].
  assert (Hst : stops k) by (by eapply ends_stops).
  assert (Hsl : stops (show_line l ++ k)) by (by apply stops_show).
  destruct (IHp f pre _ w Hw Hu (proj1 (ends_back n _))) as (c & E & N); [lia|]. urun E. apply unread_step in Hu as Hu1.
  rewrite !length_app in Hf.
  destruct (backs_ok n f c _ _ w Hu1) as (c1 & E1 & N1); [done|done|lia|]. urun E1. apply unread_step in Hu1 as Hu2.
  urun (peek_at _ _ (chars ";") w Hu2 ltac:(done)). change (hd_in (chars ";") (tok [59] ++ show_line l ++ k)) with true.
  cbv iota. urun (sym_at _ 59 _ w Hu2 eq_refl Hsl). apply unread_step in Hu2 as Hu3.
  destruct (IHl f _ k w Hwl Hu3 Hk) as (c2 & E2 & N2); [unfold tok in Hf; rewrite length_app in *; simpl in Hf; lia|].
  urun E2. exists (LIST c1 c2). split; [by assoc|]. unfold named in *. cbn [cmd_map]. by rewrite N1, N, N2.
Qed.

Lemma one_ok e : exec_reads e -> pipe_reads (AOne e).
Proof.
  reads. intros IH f pre k w Hw Hu Hk Hf. destruct f as [|f]; [lia|]. cbn [parsepipe].
  assert (Hst : stops k) by (by eapply ends_stops).
  destruct (IH f pre k w Hw Hu) as (c & E & N); [by apply (ends_sub (chars ")&;"))|lia|]. urun E. apply unread_step in Hu as Hu1.
  urun (peek_at _ k (chars "|") w Hu1 Hst). rewrite (ends_not _ (chars "|") k Hk eq_refl). by exists c.
Qed.

Lemma more_ok e p : exec_reads e -> pipe_reads p -> pipe_reads (AMore e p).
Proof.
  reads. intros IHe IHp f pre k w [Hw Hwp]%andb_true_iff Hu Hk Hf. assoc. destruct f as [|f]; [lia|]. cbn [parsepipe].
  assert (Hst : stops k) by (by eapply ends_stops).
  assert (Hsp : stops (show_pipe p ++ k)) by (by apply stops_show).
  destruct (IHe f pre _ w Hw Hu) as (c & E & N); [by right|lia|]. urun E. apply unread_step in Hu as Hu1.
  rewrite !length_app in Hf.
  urun (peek_at _ _ (chars "|") w Hu1 ltac:(done)). change (hd_in (chars "|") (tok [124] ++ show_pipe p ++ k)) with true.
  cbv iota. urun (sym_at _ 124 _ w Hu1 eq_refl Hsp). apply unread_step in Hu1 as Hu2.
  destruct (IHp f _ k w Hwp Hu2 Hk) as (c2 & E2 & N2); [unfold tok in Hf; rewrite length_app in *; simpl in Hf; lia|].
  urun E2. exists (PIPE c c2). split; [by assoc|]. unfold named in *. cbn [cmd_map]. by rewrite N, N2.
Qed.

Lemma simple_ok rs args : exec_reads (ASimple rs args).
Proof.
  reads. intros f pre k w [[Hrs Ha]%andb_true_iff Hm%Z.ltb_lt]%andb_true_iff Hu Hk Hf. assoc.
  destruct f as [|f]; [lia|]. cbn [parseexec]. destruct (ends_args k Hk) as [Hst Hno].
  assert (Hsa : stops (show_args args ++ k)) by (by apply stops_args).
  urun (peek_at pre _ (chars "(") w Hu ltac:(by apply stops_redirs)).
  assert (hd_in (chars "(") (show_redirs rs ++ show_args args ++ k) = false) as ->.
  { destruct rs as [|[[] file] rs]; [|done..]. apply args_hd; [done..|]. by eapply ends_not. }
  rewrite !length_app in Hf.
  destruct (redirs_ok rs f (EXEC []) pre _ w Hu Hrs Hsa) as (c & E & N); [by apply args_hd|lia|]. urun E.
  apply unread_step in Hu as Hu1.
  destruct (args_ok args f 0 c _ k w Hu1 Ha Hk) as (c1 & E1 & N1); [lia|lia|lia|].
  exists c1. rewrite E1, N1, N. by assoc.
Qed.

Lemma block_ok l rs : line_reads l -> exec_reads (ABlock l rs).
Proof.
  reads. intros IH f pre k w [Hw Hrs]%andb_true_iff Hu Hk Hf. assoc. destruct f as [|f]; [lia|]. cbn [parseexec].
  destruct (ends_args k Hk) as [Hst Hno]. assert (Hsr : stops (show_redirs rs ++ k)) by (by apply stops_redirs).
  assert (Hsl : stops (show_line l ++ tok [41] ++ show_redirs rs ++ k)) by (by apply stops_show).
  rewrite !length_app in Hf. simpl length in Hf. destruct f as [|f]; [lia|].
  urun (peek_at pre _ (chars "(") w Hu ltac:(done)).
  change (hd_in (chars "(") (tok [40] ++ show_line l ++ tok [41] ++ show_redirs rs ++ k)) with true. cbv iota.
  cbn [parseblock]. urun (peek_at pre _ (chars "(") w Hu ltac:(done)).
  change (hd_in (chars "(") (tok [40] ++ show_line l ++ tok [41] ++ show_redirs rs ++ k)) with true. cbn [negb]. cbv iota.
  urun (sym_at pre 40 _ w Hu eq_refl Hsl). apply unread_step in Hu as Hu1.
  destruct (IH f _ _ w Hw Hu1) as (c & E & N); [by right|rewrite !length_app; simpl length; lia|]. urun E.
  apply unread_step in Hu1 as Hu2. urun (peek_at _ _ (chars ")") w Hu2 ltac:(done)).
  change (hd_in (chars ")") (tok [41] ++ show_redirs rs ++ k)) with true. cbn [negb]. cbv iota.
  urun (sym_at _ 41 _ w Hu2 eq_refl Hsr). apply unread_step in Hu2 as Hu3.
  destruct (redirs_ok rs f c _ k w Hu3 Hrs Hst Hno ltac:(lia)) as (c1 & E1 & N1). exists c1. rewrite E1, N1, N. by assoc.
Qed.

Lemma grammar_ok : (forall l, line_reads l) /\ (forall p, pipe_reads p) /\ (forall e, exec_reads e).
Proof.
  apply grammar_ind; intros; [by apply last_ok|by apply next_ok|by apply one_ok|by apply more_ok|by apply simple_ok|by apply block_ok].
Qed.
End round.

(** ** Whole lines *)

Section whole.

Lemma tok_nz s : 0 ∉ s -> 0 ∉ tok s.
Proof. intros H. unfold tok. rewrite elem_of_app, list_elem_of_singleton. by intros [?|?]. Qed.
Lemma word_nz wd : word_str wd = true -> 0 ∉ tok wd.
Proof.
  unfold word_str. intros [_ H]%andb_true_iff. apply tok_nz. intros Hin. rewrite forallb_forall in H.
  apply list_elem_of_In in Hin. by specialize (H 0 Hin).
Qed.
Lemma op_nz o : 0 ∉ tok (show_op o).
Proof. destruct o; by apply (bool_decide_unpack _). Qed.

Lemma redirs_nz rs : redirs_wf rs = true -> 0 ∉ show_redirs rs.
Proof.
  induction rs as [|[o file] rs IH]; [intros _; apply not_elem_of_nil|]. cbn [redirs_wf forallb r_file].
  intros [Hw H]%andb_true_iff. rewrite show_redirs_cons, !elem_of_app.
  intros [Ho|[Hf|Hr]]; [by eapply op_nz|by eapply word_nz|by apply IH].
Qed.
Lemma args_nz args : args_wf args = true -> 0 ∉ show_args args.
Proof.
  induction args as [|[wd rs] args IH]; [intros _; apply not_elem_of_nil|]. cbn [args_wf forallb].
  intros [[Hw Hr]%andb_true_iff H]%andb_true_iff. rewrite show_args_cons, !elem_of_app.
  intros [Ho|[Hf|Ha]]; [by eapply word_nz|by eapply redirs_nz|by apply IH].
Qed.
Lemma backs_nz n : 0 ∉ show_backs n.
Proof.
  induction n as [|n IH]; [apply not_elem_of_nil|]. change (show_backs (S n)) with ([38; 32] ++ show_backs n).
  rewrite elem_of_app. intros [H|H]; [|done]. by apply (bool_decide_pack _) in H.
Qed.

Lemma show_nz :
  (forall l, line_wf l = true -> 0 ∉ show_line l) /\ (forall p, pipe_wf p = true -> 0 ∉ show_pipe p) /\
  (forall e, exec_wf e = true -> 0 ∉ show_exec e).
Proof.
  assert (Htok : forall x, x <> 0 -> 0 ∉ tok [x]) by (intros x Hx; apply tok_nz; rewrite list_elem_of_singleton; congruence).
  apply grammar_ind; cbn [show_line show_pipe show_exec line_wf pipe_wf exec_wf].
  - intros p IH n Hw. rewrite elem_of_app. intros [H|H]; [by apply IH|by eapply backs_nz].
  - intros p IHp n l IHl [Hp Hl]%andb_true_iff. rewrite !elem_of_app.
    intros [H|[H|[H|H]]]; [by apply IHp|by eapply backs_nz|by eapply (Htok 59)|by apply IHl].
  - done.
  - intros e IHe p IHp [He Hp]%andb_true_iff. rewrite !elem_of_app.
    intros [H|[H|H]]; [by apply IHe|by eapply (Htok 124)|by apply IHp].
  - intros rs args [[Hr Ha]%andb_true_iff _]%andb_true_iff. rewrite elem_of_app.
    intros [H|H]; [by eapply redirs_nz|by eapply args_nz].
  - intros l IHl rs [Hl Hr]%andb_true_iff. rewrite !elem_of_app.
    intros [H|[H|[H|H]]]; [by eapply (Htok 40)|by apply IHl|by eapply (Htok 41)|by eapply redirs_nz].
Qed.

Lemma cmd_map_ext {S T} (g h : S -> T) c : (forall x, x ∈ words_of c -> g x = h x) -> cmd_map g c = cmd_map h c.
Proof.
  induction c as [argv|c IH file mode fd|l IHl r IHr|l IHl r IHr|c IH]; cbn [words_of cmd_map]; intros H.
  - f_equal. apply list_fmap_ext. intros i x Hx. apply H. by eapply list_elem_of_lookup_2.
  - rewrite (H file) by (apply elem_of_app; right; by left). rewrite IH; [done|]. intros x Hx. apply H, elem_of_app. by left.
  - rewrite IHl, IHr; [done|intros x Hx; apply H, elem_of_app; by right|intros x Hx; apply H, elem_of_app; by left].
  - rewrite IHl, IHr; [done|intros x Hx; apply H, elem_of_app; by right|intros x Hx; apply H, elem_of_app; by left].
  - by rewrite IH.
Qed.
Lemma cmd_map_map {R S T} (g : R -> S) (h : S -> T) c : cmd_map h (cmd_map g c) = cmd_map (fun x => h (g x)) c.
Proof. induction c; cbn [cmd_map]; [by rewrite <- list_fmap_compose|congruence..]. Qed.

(** C12. The parser reads back what is printed: on the printed form of any line of the
    grammar (lists, background commands, pipelines, blocks, redirections and words),
    [parsecmd] returns the command the line stands for, each of its words pointing
    to the string in the buffer. *)
Theorem parsecmd_show {W} {os : OS W} (l : aline) (rest : str) (w : W) :
  line_wf l = true ->
  exists b' c, parsecmd (show_line l ++ 0 :: rest) w = Got (b', c) w /\
    cmd_map (fun x => string_at b' x.1) c = cmd_map Some (line_cmd l).
Proof.
  intros Hl. pose proof (proj1 show_nz l Hl) as H0. set (b := show_line l ++ 0 :: rest).
  assert (Hb : holds_line b (alen (show_line l))) by (by exists (show_line l), rest).
  assert (Hu : unread b (alen (show_line l)) [] (show_line l ++ [])) by (exists rest; unfold text, stop; by rewrite !app_nil_r).
  destruct (proj1 (grammar_ok b (alen (show_line l))) l (4 * S (length (show_line l)))%nat [] [] w Hl Hu) as (c & E & N);
    [by left|rewrite app_nil_r; lia|].
  change (alen []) with 0 in E. cbn [app] in E. apply unread_step in Hu. cbn [app] in Hu.
  destruct (parsecmd_ends b _ c w Hb) as (b' & En & Hw).
  { pose proof (safe_parse b _ Hb (4 * S (length (show_line l)))%nat 0) as [Hs _]; [pose proof (alen_nonneg (show_line l)); lia|].
    specialize (Hs ltac:(unfold left_of, alen; lia) w). rewrite E in Hs. apply Hs. }
  exists b', c. split.
  - unfold parsecmd. rewrite (string_at_ok [] (show_line l) rest H0 : string_at b 0 = Some (show_line l)). unfold strlen.
    urun E. urun (peek_at b _ _ [] [] w Hu I). rewrite Z.eqb_refl. cbn [negb]. by urun En.
  - rewrite <- N. unfold named. rewrite cmd_map_map. by apply cmd_map_ext.
Qed.
End whole.
