(* ===== verification/UserExamples.v ===== *)
(** * The user programs on concrete streams

    A world of input and output streams, with a limit on what one read gives: a
    regular file gives all that is asked for, a pipe or a terminal may give less.
    It instantiates the interface of [UserSpec] and witnesses its theorems. *)

From S2P Require Import Prelude State Console User UserSpec Tools ToolsSpec GrepSpec Shell ShellSpec ShellRound Umalloc UmallocSpec.
From S2P Require Import Spinlock Kalloc Vm Message Container Proc Syscall Sleeplock Bio Log Fs Input FsExamples InputExamples.
Import Ulib Printf.
Open Scope Z_scope.

Record streams := mkstreams { s_in : list (Z * list Z); s_out : list (Z * list Z) }.

Definition of_fd (l : list (Z * list Z)) (fd : Z) : list Z :=
  concat ((fun '(f, bs) => if f =? fd then bs else []) <$> l).
Definition set_in (fd : Z) (bs : list Z) (w : streams) : streams :=
  mkstreams ((fd, bs) :: filter (fun x => x.1 <> fd) (s_in w)) (s_out w).

(** [cap n] bounds what a read of [n] bytes gives. *)
Definition stream_trap (cap : Z -> Z) (c : call) (w : streams) : reply * streams :=
  match c with
  | Read fd n =>
      let data := take (Z.to_nat (cap n)) (of_fd (s_in w) fd) in
      (mkreply (alen data) data, set_in fd (drop (Z.to_nat (cap n)) (of_fd (s_in w) fd)) w)
  | Write fd bs => (mkreply (alen bs) [], mkstreams (s_in w) (s_out w ++ [(fd, bs)]))
  | _ => (mkreply (-1) [], w)
  end.

Lemma of_fd_app a b fd : of_fd (a ++ b) fd = of_fd a fd ++ of_fd b fd.
Proof. unfold of_fd. by rewrite fmap_app, concat_app. Qed.

Lemma of_fd_set fd bs w : of_fd (s_in (set_in fd bs w)) fd = bs.
Proof.
  unfold set_in, of_fd. cbn [s_in fmap list_fmap concat]. rewrite Z.eqb_refl.
  assert (H : forall l : list (Z * list Z),
    concat ((fun '(f, bs) => if f =? fd then bs else []) <$> filter (fun x => x.1 <> fd) l) = []).
  { induction l as [|[f b] l IH]; [done|]. rewrite filter_cons. destruct (decide _) as [Hn|]; [|done].
    cbn in Hn |- *. destruct (Z.eqb_spec f fd); [done|exact IH]. }
  rewrite H. apply app_nil_r.
Qed.

Definition stream_streams (cap : Z -> Z) (H : forall n, 0 < n -> 0 < cap n <= n) : Streams (stream_trap cap).
Proof.
  refine {| inp fd w := of_fd (s_in w) fd; out fd w := of_fd (s_out w) fd |}.
  - intros fd n w Hn. specialize (H n Hn). eexists _, _. split; [reflexivity|]. split_and!; [| | |done].
    + unfold alen. rewrite length_take. lia.
    + rewrite of_fd_set. by rewrite take_drop.
    + destruct (of_fd (s_in w) fd); [done|]. destruct (Z.to_nat (cap n)) eqn:E; [lia|done].
  - intros fd bs w. eexists. split; [reflexivity|]. split; [|done]. cbn [s_out]. rewrite of_fd_app. f_equal.
    unfold of_fd. cbn. rewrite Z.eqb_refl. apply app_nil_r.
Defined.

Lemma all_of_it n : 0 < n -> 0 < n <= n.
Proof. lia. Qed.
Lemma one_of_it n : 0 < n -> 0 < 1 <= n.
Proof. lia. Qed.

(** A regular file, and a terminal that gives one byte at a time. *)
Definition regular : OS streams := stream_trap (fun n => n).
Definition terminal : OS streams := stream_trap (fun _ => 1).
Definition regular_streams : Streams regular := stream_streams (fun n => n) all_of_it.
Definition terminal_streams : Streams terminal := stream_streams (fun _ => 1) one_of_it.

Definition two_lines : streams := mkstreams [(0, bytes "ab c" ++ nl :: bytes "xyz" ++ [nl])] [].

Lemma regular_full fd : full_reads (os := regular) (st := regular_streams) fd.
Proof. intros n w data w' Hn E. injection E as _ E _. done. Qed.

Definition twenty : Fuel := 20%nat.

Lemma grep_prints_witness :
  exists w', grep (fuel := twenty) (os := regular) (bytes "y") 0 two_lines = Got tt w' /\
    of_fd (s_out w') 1 = bytes "xyz" ++ [nl].
Proof.
  destruct (@grep_prints streams regular regular_streams twenty (bytes "y") 0 two_lines) as (w' & E & _ & O).
  - apply regular_full.
  - vm_compute. lia.
  - vm_compute. intros H. repeat (apply elem_of_cons in H as [H|H]; [discriminate|]). by apply elem_of_nil in H.
  - intros l Hl. vm_compute in Hl. repeat (apply elem_of_cons in Hl as [->|Hl]; [vm_compute; reflexivity|]).
    by apply elem_of_nil in Hl.
  - exists w'. split; [exact E|]. exact O.
Defined.

(** After a null byte nothing is found in the rest of the buffer: [strchr] stops
    there, and the text is discarded. *)
Example grep_stops_at_null :
  let w := mkstreams [(0, bytes "a" ++ [0] ++ bytes "b" ++ [nl] ++ bytes "xyz" ++ [nl])] [] in
  match grep (fuel := twenty) (os := regular) (bytes "y") 0 w with Got _ w' => of_fd (s_out w') 1 = [] | _ => False end.
Proof. vm_compute. reflexivity. Qed.

(** The line [y] typed in two pieces is not found. *)
Lemma grep_forgets_witness :
  (exists buf, alen buf = 1024 /\
    grep (fuel := twenty) (os := terminal) (bytes "y") 0 (mkstreams [(0, [121; nl])] []) =
    grep_loop (os := terminal) 19 (bytes "y") 0 buf 0 (mkstreams [(0, [nl])] [])) /\
  grep (fuel := twenty) (os := terminal) (bytes "y") 0 (mkstreams [(0, [121; nl])] []) = Got tt (mkstreams [(0, [])] []).
Proof.
  split; [|vm_compute; reflexivity].
  apply (@grep_forgets streams terminal 19 (bytes "y") 0 (replicate 1024 0) [121]).
  - reflexivity.
  - reflexivity.
  - vm_compute. split; [reflexivity|discriminate].
  - apply not_elem_of_cons. split; [discriminate|apply not_elem_of_nil].
  - apply not_elem_of_cons. split; [discriminate|apply not_elem_of_nil].
Defined.

Lemma wc_counts_witness :
  exists w', wc (fuel := twenty) (os := terminal) 0 (bytes "f") two_lines = Got tt w' /\
    of_fd (s_out w') 1 = bytes "2 3 9 f" ++ [nl].
Proof.
  destruct (@wc_counts streams terminal terminal_streams twenty 0 (bytes "f") two_lines) as (w' & s & E & O & R).
  - vm_compute. lia.
  - vm_compute. reflexivity.
  - exists w'. split; [exact E|]. vm_compute in R. injection R as <-. exact O.
Defined.

Lemma cat_copies_witness :
  exists w', cat (fuel := twenty) (os := terminal) 0 two_lines = Got tt w' /\
    of_fd (s_out w') 1 = of_fd (s_in two_lines) 0.
Proof.
  destruct (@cat_copies streams terminal terminal_streams twenty 0 two_lines) as (w' & E & O & _).
  - vm_compute. lia.
  - exists w'. split; [exact E|]. exact O.
Defined.

(** A console that locks, as it does when user programs run. *)
Definition kernel_locking : kernel := kernel_cons <| k_cons_locking := 1 |>.
Lemma kernel_locking_ready : cons_ready kernel_locking.
Proof. split; [by exists 0, (mkcpu 0 0 false (Some 0%nat)); split_and!|right; by eexists]. Qed.

Lemma console_printed k mc s : k_console ((kst k mc) <| k_console ::= fun o => o ++ s |>) = k_console k ++ s.
Proof. done. Qed.

Lemma printf_agrees_with_cprintf_witness :
  exists k' w', cprintf (bytes "pid %d: %s at %x") [AInt 7; AStr (Some (bytes "cafe")); AInt 0xbeef] kernel_locking = Ret tt k' /\
    k_console k' = k_console kernel_locking ++ bytes "pid 7: cafe at beef" /\
    Printf.printf (os := regular) 1 (bytes "pid %d: %s at %x") [AInt 7; AStr (Some (bytes "cafe")); AInt 0xbeef] two_lines = Got tt w' /\
    of_fd (s_out w') 1 = bytes "pid 7: cafe at BEEF".
Proof.
  destruct (@printf_agrees_with_cprintf streams regular regular_streams 1 (bytes "pid %d: %s at %x")
    [AInt 7; AStr (Some (bytes "cafe")); AInt 0xbeef] (bytes "pid 7: cafe at beef") kernel_locking two_lines) as (Ek & w' & t & E & O & Ht & _).
  - reflexivity.
  - change (dirs (bytes "pid %d: %s at %x")) with [100; 115; 120]. rewrite !not_elem_of_cons. split_and!; [done..|apply not_elem_of_nil].
  - exact kernel_locking_ready.
  - eexists _, w'. split; [exact Ek|]. split; [apply console_printed|]. split; [exact E|]. destruct O as [O _].
    assert (t = bytes "pid 7: cafe at BEEF") as -> by (vm_compute in Ht; injection Ht as <-; reflexivity).
    exact O.
Defined.

Lemma atoi_printint_witness : exists ds, Printf.printint_chars 2019 10 1 = Some ds /\ atoi (ds ++ [nl]) = 2019.
Proof. apply (atoi_printint 2019 [nl]); [lia|]. intros c Hc. injection Hc as <-. vm_compute. intros [H _]. by apply H. Defined.

(** ** The shell *)

Lemma regular_pipe : pipe_law (os := regular).
Proof. intros w r w' E Hr. injection E as <- _. cbn in Hr. lia. Qed.

Definition line_of (t : str) : str := t ++ [0].
Lemma line_of_holds t : forallb (fun x => negb (x =? 0)) t = true -> holds_line (line_of t) (alen t).
Proof.
  intros H. exists t, []. split_and!; [done..|]. intros Hin. rewrite forallb_forall in H. apply list_elem_of_In in Hin.
  by specialize (H 0 Hin).
Qed.

Lemma runline_leaves_witness : exists w', runline (os := regular) (line_of (bytes "echo hi | wc > out &")) two_lines = Gone w'.
Proof.
  apply (@runline_leaves streams regular (line_of (bytes "echo hi | wc > out &")) (alen (bytes "echo hi | wc > out &")) two_lines).
  - exact regular_pipe.
  - by apply line_of_holds.
Defined.

Definition ls_line : str := bytes "ls>out".
Definition ls_parsed : str * cmd word := (bytes "ls" ++ 0 :: bytes "out" ++ [0], REDIR (EXEC [(0, 2)]) (3, 6) 0x201 1).

Lemma parsecmd_typed_witness :
  cmd_ok (line_of ls_line) 6 ls_parsed.2 /\ string_at ls_parsed.1 3 = Some (bytes "out").
Proof.
  destruct (@parsecmd_typed streams regular (line_of ls_line) 6 two_lines ls_parsed.1 ls_parsed.2 two_lines) as [H1 H2].
  - by apply line_of_holds.
  - vm_compute. reflexivity.
  - split; [exact H1|]. apply (H2 (3, 6)). right. by left.
Defined.

(** [( a < f ; b ) > g | c &] *)
Definition block_line : aline :=
  ALast (AMore (ABlock (ANext (AOne (ASimple [] [(bytes "a", [mkredir RIn (bytes "f")])])) 0
      (ALast (AOne (ASimple [] [(bytes "b", [])])) 0)) [mkredir ROut (bytes "g")])
    (AOne (ASimple [] [(bytes "c", [])]))) 1.

Lemma parsecmd_show_witness :
  exists b' c, parsecmd (os := regular) (show_line block_line ++ [0]) two_lines = Got (b', c) two_lines /\
    cmd_map (fun x => string_at b' x.1) c =
      BACK (PIPE (REDIR (LIST (REDIR (EXEC [Some (bytes "a")]) (Some (bytes "f")) 0 0) (EXEC [Some (bytes "b")]))
        (Some (bytes "g")) 0x201 1) (EXEC [Some (bytes "c")])).
Proof. apply (@parsecmd_show streams regular block_line [] two_lines). reflexivity. Defined.

(** ** The allocator *)

(** A process whose memory can grow up to the kernel. *)
Definition brk_trap (c : call) (top : Z) : reply * Z :=
  match c with
  | Sbrk n => if top + n <=? 2 ^ 31 then (mkreply top [], top + n) else (mkreply (-1) [], top)
  | _ => (mkreply (-1) [], top)
  end.
Definition brk_os : OS Z := brk_trap.
Definition brk_of : Brk brk_os.
Proof.
  refine {| brk := fun top => top |}. intros n top r top' Hn E. unfold trap, brk_os, brk_trap in E.
  destruct (Z.leb_spec (top + n) (2 ^ 31)); injection E as <- <-; [by right|by left].
Defined.

Definition four_calls : list aop := [AMalloc 100; AMalloc 20; AFree 1; AMalloc 8].

Lemma allocator_sound_witness :
  exists h live free_blocks,
    alloc_ops (os := brk_os) (fuel := twenty) 4000 four_calls (mkheap ∅ 0, []) 8192 = Got (h, live) 40960 /\
    live = [(40952, 8); (40824, 20)] /\ all_bytes (free_blocks ++ (block_of <$> live)) ≡ₚ seqZ 8192 32768.
Proof.
  destruct (@allocator_sound Z brk_os brk_of twenty 4000 four_calls (mkheap ∅ 0) 8192) as (h & live & top & F & E & H & _).
  - reflexivity.
  - lia.
  - split; vm_compute; discriminate.
  - repeat constructor; cbn; lia.
  - vm_compute. lia.
  - assert (top = 40960 /\ live = [(40952, 8); (40824, 20)]) as [-> ->].
    { pose proof E as E'. vm_compute in E'. injection E' as _ Hl Ht. split; symmetry; [exact Ht|exact Hl]. }
    exists h, [(40952, 8); (40824, 20)], F. split; [exact E|]. split; [reflexivity|exact H].
Defined.
