(* ===== verification/Mkfs.v ===== *)
(** * Making a file system image ([mkfs.c])

    [mkfs] runs on the host and writes the image the kernel boots from.  The
    image is a list of blocks of 512 bytes; leaving with [exit(1)] is [Panic],
    a failed assertion is [Fault].  The host is little-endian: [xint] and
    [xshort] are the identity on the values they are given.  What the host's
    [open] and [read] give for a file is an argument: nothing, or the pieces it
    is read in. *)

From S2P Require Import Prelude State Spinlock CString Kalloc Console Vm Message Container Proc Syscall.
From S2P Require Import Sleeplock Bio Log Words Fs.
Open Scope Z_scope.

Definition NINODES : Z := 200.
Definition nbitmap : Z := FSSIZE / (BSIZE * 8) + 1.
Definition ninodeblocks : Z := NINODES / IPB + 1.
Definition nlog : Z := LOGSIZE.
Definition nmeta : Z := 2 + nlog + ninodeblocks + nbitmap.
Definition nblocks : Z := FSSIZE - nmeta.
Definition sb : superblock :=
  mksb FSSIZE nblocks NINODES nlog 2 (2 + nlog) (2 + nlog + ninodeblocks).

Definition zeroes : list Z := replicate (Z.to_nat BSIZE) 0.

(** [struct dinode], and its 64 bytes. *)
Record dinode := mkdinode {
  d_type : Z; d_major : Z; d_minor : Z; d_nlink : Z; d_size : Z; d_addrs : list Z }.
Definition bytes_of_dinode (d : dinode) : list Z :=
  le_bytes 2 (d_type d) ++ le_bytes 2 (d_major d) ++ le_bytes 2 (d_minor d) ++ le_bytes 2 (d_nlink d) ++
  le_bytes 4 (d_size d) ++ concat (le_bytes 4 <$> d_addrs d).
Definition dinode_of (bs : list Z) : dinode :=
  mkdinode (of_le (slice bs 0 2)) (of_le (slice bs 2 2)) (of_le (slice bs 4 2)) (of_le (slice bs 6 2))
    (wd bs 2) ((fun j => wd bs (3 + j)) <$> seqZ 0 (NDIRECT + 1)).

(** The image and the counters. *)
Record image := mkimage { m_sect : list (list Z); m_freeinode : Z; m_freeblock : Z }.
#[export] Instance eta_image : Eta image :=
  mkEta _ (fun r => mkimage (m_sect r) (m_freeinode r) (m_freeblock r)).

Notation MK := (M image).

(** Writing beyond the end leaves a hole of zeroes. *)
Definition put_sect (l : list (list Z)) (sec : Z) (bs : list Z) : list (list Z) :=
  if sec <? alen l then <[Z.to_nat sec := bs]> l
  else l ++ replicate (Z.to_nat (sec - alen l)) zeroes ++ [bs].
Definition wsect (sec : Z) (bs : list Z) : MK unit := modify (fun s => s <| m_sect ::= fun l => put_sect l sec bs |>).
Definition rsect (sec : Z) : MK (list Z) :=
  s ← get;
  match aget (m_sect s) sec with Some b => mret b | None => panic "read" end.

Definition assert_ (b : bool) : MK unit := if b then mret tt else fault "assert".

Definition inode_at (inum : Z) : Z := 64 * (inum mod IPB).
Definition winode (inum : Z) (ip : dinode) : MK unit :=
  buf ← rsect (IBLOCK inum sb);
  wsect (IBLOCK inum sb) (splice buf (inode_at inum) (bytes_of_dinode ip)).
Definition rinode (inum : Z) : MK dinode :=
  buf ← rsect (IBLOCK inum sb);
  mret (dinode_of (slice buf (inode_at inum) 64)).

Definition ialloc (type : Z) : MK Z :=
  inum ← gets m_freeinode;
  modify (fun s => s <| m_freeinode ::= fun n => u32 (n + 1) |>) ;;;
  winode inum (mkdinode type 0 0 1 0 (replicate (Z.to_nat (NDIRECT + 1)) 0)) ;;;
  mret inum.

(** [buf[i/8] | (0x1 << (i%8))] for the first [used] bits. *)
Fixpoint set_bits (n : nat) (i : Z) (buf : list Z) : MK (list Z) :=
  match n with
  | O => mret buf
  | S n' =>
      x ← rd "buf" buf (i / 8);
      buf ← wr "buf" buf (i / 8) (Z.lor x (Z.shiftl 1 (i mod 8)));
      set_bits n' (i + 1) buf
  end.
Definition balloc (used : Z) : MK unit :=
  assert_ (used <? BSIZE * 8) ;;;
  buf ← set_bits (Z.to_nat used) 0 zeroes;
  wsect (sb_bmapstart sb) buf.

(** [xint(freeblock++)] *)
Definition newblock : MK Z :=
  b ← gets m_freeblock;
  modify (fun s => s <| m_freeblock ::= fun n => u32 (n + 1) |>) ;;;
  mret b.

(** The block that holds block [fbn] of the file, allocated if there is none. *)
Definition block_for (din : dinode) (fbn : Z) : MK (dinode * Z) :=
  if fbn <? NDIRECT then
    a ← rd "addrs" (d_addrs din) fbn;
    if a =? 0 then
      b ← newblock;
      l ← wr "addrs" (d_addrs din) fbn b;
      mret (mkdinode (d_type din) (d_major din) (d_minor din) (d_nlink din) (d_size din) l, b)
    else mret (din, a)
  else
    a ← rd "addrs" (d_addrs din) NDIRECT;
    din ←
      (if a =? 0 then
         b ← newblock;
         l ← wr "addrs" (d_addrs din) NDIRECT b;
         mret (mkdinode (d_type din) (d_major din) (d_minor din) (d_nlink din) (d_size din) l)
       else mret din);
    a ← rd "addrs" (d_addrs din) NDIRECT;
    indirect ← rsect a;
    if wd indirect (fbn - NDIRECT) =? 0 then
      b ← newblock;
      let indirect := splice indirect (4 * (fbn - NDIRECT)) (le_bytes 4 b) in
      wsect a indirect ;;;
      mret (din, wd indirect (fbn - NDIRECT))
    else mret (din, wd indirect (fbn - NDIRECT)).

(** The loop of [iappend]: every round copies at least one byte. *)
Fixpoint append_loop (f : nat) (din : dinode) (off : Z) (p : list Z) : MK (dinode * Z) :=
  if 0 <? alen p then
    match f with
    | O => fun _ => Diverge
    | S f' =>
        let fbn := off / BSIZE in
        assert_ (fbn <? MAXFILE) ;;;
        '(din, x) ← block_for din fbn;
        let n1 := Z.min (alen p) ((fbn + 1) * BSIZE - off) in
        buf ← rsect x;
        wsect x (splice buf (off - fbn * BSIZE) (take (Z.to_nat n1) p)) ;;;
        append_loop f' din (off + n1) (drop (Z.to_nat n1) p)
    end
  else mret (din, off).
Definition iappend (inum : Z) (xp : list Z) : MK unit :=
  din ← rinode inum;
  '(din, off) ← append_loop (length xp) din (d_size din) xp;
  winode inum (mkdinode (d_type din) (d_major din) (d_minor din) (d_nlink din) off (d_addrs din)).

(** A directory entry: the inode number and the name in 14 bytes. *)
Definition dirent (inum : Z) (name : list Z) : list Z :=
  le_bytes 2 inum ++ take (Z.to_nat DIRSIZ) (name ++ replicate (Z.to_nat DIRSIZ) 0).

Fixpoint append_all (inum : Z) (pieces : list (list Z)) : MK unit :=
  match pieces with
  | [] => mret tt
  | p :: pieces' => if 0 <? alen p then iappend inum p ;;; append_all inum pieces' else mret tt
  end.

(** The names without the leading underscore. *)
Definition strip (name : list Z) : list Z := match name with 95 :: name' => name' | _ => name end.

Fixpoint add_files (rootino : Z) (files : list (list Z * option (list (list Z)))) : MK unit :=
  match files with
  | [] => mret tt
  | (name, content) :: files' =>
      assert_ (negb (existsb (Z.eqb 47) name)) ;;;
      match content with
      | None => panic "open"
      | Some pieces =>
          inum ← ialloc T_FILE;
          iappend rootino (dirent (inum mod 2 ^ 16) (strip name)) ;;;
          append_all inum pieces ;;;
          add_files rootino files'
      end
  end.

Definition superblock_bytes : list Z :=
  concat (le_bytes 4 <$> [sb_size sb; sb_nblocks sb; sb_ninodes sb; sb_nlog sb; sb_logstart sb; sb_inodestart sb; sb_bmapstart sb]).

(** [main], after the image file is open. *)
Definition mkfs (files : list (list Z * option (list (list Z)))) : MK unit :=
  modify (fun s => s <| m_freeblock := nmeta |>) ;;;
  each (Z.to_nat FSSIZE) 0 (fun i => wsect i zeroes) ;;;
  wsect 1 (splice zeroes 0 superblock_bytes) ;;;
  rootino ← ialloc T_DIR;
  assert_ (rootino =? ROOTINO) ;;;
  iappend rootino (dirent rootino [46]) ;;;
  iappend rootino (dirent rootino [46; 46]) ;;;
  add_files rootino files ;;;
  din ← rinode rootino;
  let off := (d_size din / BSIZE + 1) * BSIZE in
  winode rootino (mkdinode (d_type din) (d_major din) (d_minor din) (d_nlink din) (u32 off) (d_addrs din)) ;;;
  used ← gets m_freeblock;
  balloc used.

Definition image0 : image := mkimage [] 1 0.
