(* ===== verification/MkfsBlocks.v ===== *)
(** * The blocks of the files of an image

    The inode of a file names its blocks, directly and through the indirect
    block; appending bytes fills the last block and then takes free ones. *)

From S2P Require Import Prelude State Spinlock CString Kalloc Console Vm Message Container Proc Syscall.
From S2P Require Import Sleeplock Bio Log Words Journal Fs Mkfs.
Open Scope Z_scope.

(** ** On-disk inodes *)

Section bytes.
Implicit Types (a b bs : list Z) (o n i j v : Z).

Lemma slice_app_r a b o n : alen a <= o -> slice (a ++ b) o n = slice b (o - alen a) n.
Proof.
  intros H. unfold slice. rewrite drop_app_ge by (unfold alen in H; lia). do 2 f_equal. unfold alen in *. lia.
Qed.
Lemma slice_app_l a b n : n = alen a -> slice (a ++ b) 0 n = a.
Proof. intros ->. unfold slice, alen. rewrite Nat2Z.id, drop_0. apply take_app_length. Qed.

Lemma field_le (n : nat) v b o : 0 <= v < 256 ^ Z.of_nat n -> o = 0 -> of_le (slice (le_bytes n v ++ b) o (Z.of_nat n)) = v.
Proof. intros Hv ->. rewrite slice_app_l by (by rewrite alen_le). rewrite of_le_bytes. by apply Z.mod_small. Qed.

Lemma wd_words ws i rest : Forall (fun v => 0 <= v < 2 ^ 32) ws -> 0 <= i ->
  forall v, aget ws i = Some v -> wd (concat (le_bytes 4 <$> ws) ++ rest) i = v.
Proof.
  revert i. induction ws as [|x ws IH]; intros i Hr Hi v Hv; [apply aget_lt in Hv; unfold alen in Hv; simpl in Hv; lia|].
  apply Forall_cons in Hr as [Hx Hr]. change (concat (le_bytes 4 <$> x :: ws)) with (le_bytes 4 x ++ concat (le_bytes 4 <$> ws)).
  rewrite <- app_assoc. unfold wd. destruct (Z.eq_dec i 0) as [->|Hne].
  - injection Hv as <-. by apply (field_le 4).
  - rewrite slice_app_r by (rewrite alen_le; lia). rewrite alen_le.
    replace (4 * i - Z.of_nat 4) with (4 * (i - 1)) by lia. apply IH; [done|lia|].
    unfold aget in *. destruct (Z.leb_spec 0 i); [|lia]. destruct (Z.leb_spec 0 (i - 1)); [|lia].
    replace (Z.to_nat i) with (S (Z.to_nat (i - 1))) in Hv by lia. done.
Qed.
End bytes.

Record dinode_ok (d : dinode) : Prop := {
  do_type : 0 <= d_type d < 2 ^ 16; do_major : 0 <= d_major d < 2 ^ 16; do_minor : 0 <= d_minor d < 2 ^ 16;
  do_nlink : 0 <= d_nlink d < 2 ^ 16; do_size : 0 <= d_size d < 2 ^ 32;
  do_len : alen (d_addrs d) = 13; do_addrs : Forall (fun v => 0 <= v < 2 ^ 32) (d_addrs d) }.

Lemma alen_dinode d : dinode_ok d -> alen (bytes_of_dinode d) = 64.
Proof. intros H. unfold bytes_of_dinode. rewrite !alen_app, !alen_le, alen_words, (do_len _ H). done. Qed.

(** An inode that is written is read back. *)
Lemma dinode_roundtrip d : dinode_ok d -> dinode_of (bytes_of_dinode d) = d.
Proof.
  intros [H1 H2 H3 H4 H5 H6 H7]. unfold dinode_of, bytes_of_dinode, wd.
  assert (Hl : forall v, alen (le_bytes 2 v) = 2) by (intros; apply alen_le).
  assert (Hl4 : forall v, alen (le_bytes 4 v) = 4) by (intros; apply alen_le).
  destruct d as [ty ma mi nl sz ad]; cbn [d_type d_major d_minor d_nlink d_size d_addrs] in *. f_equal.
  - by apply (field_le 2).
  - rewrite slice_app_r, Hl by (rewrite Hl; lia). by apply (field_le 2).
  - do 2 (rewrite slice_app_r by (rewrite Hl; lia); rewrite Hl). by apply (field_le 2).
  - do 3 (rewrite slice_app_r by (rewrite Hl; lia); rewrite Hl). by apply (field_le 2).
  - do 4 (rewrite slice_app_r by (rewrite Hl; lia); rewrite Hl). by apply (field_le 4).
  - apply list_eq. intros i. rewrite list_lookup_fmap. destruct (decide (i < 13)%nat) as [Hi|Hi].
    + assert (Ha : is_Some (ad !! i)) by (apply lookup_lt_is_Some; unfold alen in H6; lia). destruct Ha as [v Hv].
      rewrite lookup_seqZ_lt by (unfold NDIRECT; lia). rewrite Hv. cbn [fmap option_fmap option_map]. f_equal.
      do 4 (rewrite slice_app_r by (rewrite Hl; lia); rewrite Hl). rewrite slice_app_r, Hl4 by (rewrite Hl4; lia).
      rewrite <- (app_nil_r (concat _)). replace (4 * (3 + (0 + Z.of_nat i)) - 2 - 2 - 2 - 2 - 4) with (4 * Z.of_nat i) by lia.
      apply (wd_words ad (Z.of_nat i) []); [done|lia|]. by rewrite aget_nat.
    + rewrite lookup_seqZ_ge by (unfold NDIRECT; lia). symmetry. apply lookup_ge_None_2. unfold alen in H6. lia.
Qed.

(** ** Blocks of the image *)

Section sectors.
Implicit Types (s : list (list Z)) (bs : list Z) (b x k j : Z) (st : image).

Definition sect s b : list Z := default [] (aget s b).

Record good s : Prop := { gd_len : alen s = FSSIZE; gd_blocks : forall b, 0 <= b < FSSIZE -> alen (sect s b) = BSIZE }.

Lemma sect_insert s b bs x : good s -> 0 <= b < FSSIZE ->
  sect (<[Z.to_nat b := bs]> s) x = if decide (b = x) then bs else sect s x.
Proof.
  intros [Hl _] Hb. unfold sect. rewrite aget_insert by lia. by case_decide.
Qed.

Lemma good_insert s b bs : good s -> 0 <= b < FSSIZE -> alen bs = BSIZE -> good (<[Z.to_nat b := bs]> s).
Proof.
  intros Hg Hb Hbs. split.
  - rewrite alen_insert. apply Hg.
  - intros x Hx. rewrite sect_insert by done. case_decide; [done|by apply Hg].
Qed.

Lemma wsect_ok b bs st : good (m_sect st) -> 0 <= b < FSSIZE ->
  wsect b bs st = Ret tt (mkimage (<[Z.to_nat b := bs]> (m_sect st)) (m_freeinode st) (m_freeblock st)).
Proof.
  intros [Hl _] Hb. unfold wsect, modify. f_equal. destruct st as [s fi fb]. cbn [m_sect m_freeinode m_freeblock] in *.
  unfold upd; cbn. f_equal. unfold put_sect. destruct (Z.ltb_spec b (alen s)); [done|lia].
Qed.

Lemma rsect_ok b st : good (m_sect st) -> 0 <= b < FSSIZE -> rsect b st = Ret (sect (m_sect st) b) st.
Proof.
  intros [Hl _] Hb. unfold rsect. mstep. unfold sect. destruct (aget_is_Some (m_sect st) b) as [v ->]; [lia|]. done.
Qed.

(** ** The content of a file *)

Definition nblk (n : Z) : Z := (n + 511) / 512.
Definition ind (d : dinode) : Z := default 0 (aget (d_addrs d) NDIRECT).
Definition blk_at (blocks : list Z) j : Z := default 0 (aget blocks j).
Definition used (d : dinode) (blocks : list Z) : list Z := blocks ++ (if alen blocks <=? NDIRECT then [] else [ind d]).

(** The inode [d] names [blocks], and they hold [data] followed by zeroes. *)
Record rep s (d : dinode) (data blocks : list Z) : Prop := {
  rp_ok : dinode_ok d;
  rp_dir : forall j, 0 <= j < NDIRECT -> aget (d_addrs d) j = Some (blk_at blocks j);
  rp_ind : if alen blocks <=? NDIRECT then ind d = 0
           else ind d <> 0 /\ forall j, 0 <= j < NINDIRECT -> wd (sect s (ind d)) j = blk_at blocks (NDIRECT + j);
  rp_max : alen blocks <= MAXFILE;
  rp_cover : nblk (alen data) <= alen blocks;
  rp_data : forall k, 0 <= k < BSIZE * alen blocks ->
              aget (sect s (blk_at blocks (k / BSIZE))) (k mod BSIZE) = Some (default 0 (aget data k)) }.

Lemma byte_block (blocks : list Z) k : 0 <= k < BSIZE * alen blocks -> 0 <= k / BSIZE < alen blocks.
Proof. intros Hk. unfold BSIZE in *. split; [apply Z.div_pos; lia|]. apply Z.div_lt_upper_bound; lia. Qed.

Lemma nblk_bytes (n nb : Z) : nblk n <= nb -> n <= BSIZE * nb.
Proof. intros H. unfold nblk, BSIZE in *. pose proof (Z.mul_succ_div_gt (n + 511) 512). lia. Qed.

(** Blocks outside [used] do not matter. *)
Lemma rep_frame s s' d data blocks : rep s d data blocks -> (forall b, b ∈ used d blocks -> sect s' b = sect s b) ->
  rep s' d data blocks.
Proof.
  intros [H1 H2 H3 H4 H5 H6] Hs. split; try done.
  - unfold used in Hs. destruct (Z.leb_spec (alen blocks) NDIRECT); [done|]. destruct H3 as [H3 H3']. split; [done|].
    intros j Hj. rewrite Hs; [by apply H3'|]. apply elem_of_app. right. by left.
  - intros k Hk. rewrite <- H6 by done. rewrite Hs; [done|]. unfold used. apply elem_of_app. left.
    unfold blk_at. destruct (aget_is_Some blocks (k / BSIZE)) as [v Hv]; [by apply byte_block|].
    rewrite Hv. unfold aget in Hv. destruct (Z.leb_spec 0 (k / BSIZE)); [|done]. by eapply list_elem_of_lookup_2.
Qed.
End sectors.

(** ** Allocating a block of a file *)

(** The blocks of a file of [nb] blocks, the indirect one included. *)
Definition need (nb : Z) : Z := nb + (if nb <=? NDIRECT then 0 else 1).

(** One file, and the blocks [others] of the other ones. *)
Record pool (st : image) (d : dinode) (data blocks others : list Z) : Prop := {
  po_good : good (m_sect st);
  po_rep : rep (m_sect st) d data blocks;
  po_nodup : NoDup (used d blocks ++ others);
  po_range : forall b, b ∈ used d blocks ++ others -> nmeta <= b < m_freeblock st;
  po_free : nmeta <= m_freeblock st <= FSSIZE;
  po_zero : forall b, m_freeblock st <= b < FSSIZE -> sect (m_sect st) b = zeroes }.

Definition same_node (d d' : dinode) : Prop :=
  d_type d' = d_type d /\ d_major d' = d_major d /\ d_minor d' = d_minor d /\ d_nlink d' = d_nlink d /\ d_size d' = d_size d.

(** What changes from [st] to [st']: blocks of the file and free blocks. *)
Record grown (st st' : image) (d : dinode) (blocks : list Z) (d' : dinode) (blocks' : list Z) : Prop := {
  gr_outside : forall b, b < m_freeblock st -> b ∉ used d blocks -> sect (m_sect st') b = sect (m_sect st) b;
  gr_new : forall b, b ∈ used d' blocks' -> b ∈ used d blocks \/ m_freeblock st <= b;
  gr_count : m_freeblock st' = m_freeblock st + need (alen blocks') - need (alen blocks);
  gr_inode : m_freeinode st' = m_freeinode st;
  gr_same : same_node d d' }.

Section alloc.
Implicit Types (s : list (list Z)) (bs : list Z) (b x k j : Z) (st : image) (d : dinode) (data blocks others : list Z).

Lemma nmeta_val : nmeta = 59.
Proof. reflexivity. Qed.

Lemma maxfile_val : MAXFILE = 140.
Proof. reflexivity. Qed.

Lemma newblock_ok st : nmeta <= m_freeblock st < FSSIZE ->
  newblock st = Ret (m_freeblock st) (mkimage (m_sect st) (m_freeinode st) (m_freeblock st + 1)).
Proof.
  rewrite nmeta_val. intros H. unfold newblock. mstep. mstep. unfold mret, M_ret. f_equal. destruct st as [s fi fb].
  unfold upd; cbn in *. f_equal. apply u32_small. unfold FSSIZE in H. lia.
Qed.

Lemma blk_at_lookup blocks j : 0 <= j < alen blocks -> aget blocks j = Some (blk_at blocks j) /\ blk_at blocks j ∈ blocks.
Proof.
  intros Hj. unfold blk_at. destruct (aget_is_Some blocks j Hj) as [v Hv]. rewrite Hv. split; [done|].
  unfold aget in Hv. destruct (Z.leb_spec 0 j); [|done]. by eapply list_elem_of_lookup_2.
Qed.
Lemma blk_at_beyond blocks j : alen blocks <= j -> blk_at blocks j = 0.
Proof. intros Hj. unfold blk_at. by rewrite aget_None by lia. Qed.
Lemma blk_at_snoc blocks v j : 0 <= j -> blk_at (blocks ++ [v]) j = if decide (j = alen blocks) then v else blk_at blocks j.
Proof.
  intros Hj. unfold blk_at, aget. destruct (Z.leb_spec 0 j); [|lia]. case_decide as E.
  - subst. unfold alen. by rewrite Nat2Z.id, lookup_app_r, Nat.sub_diag by lia.
  - destruct (decide (j < alen blocks)); unfold alen in *; [by rewrite lookup_app_l by lia|].
    rewrite lookup_app_r by lia. rewrite (lookup_ge_None_2 blocks) by lia. by rewrite lookup_ge_None_2 by (simpl; lia).
Qed.

(** The block is there. *)
Lemma block_for_old st d data blocks others fbn :
  pool st d data blocks others -> 0 <= fbn < alen blocks -> block_for d fbn st = Ret (d, blk_at blocks fbn) st.
Proof.
  intros [Hg [H1 H2 H3 H4 H5 H6] Hnd Hr Hf Hz] Hfbn. destruct (blk_at_lookup blocks fbn Hfbn) as [Ea Hin].
  assert (Hpos : nmeta <= blk_at blocks fbn) by (apply Hr; unfold used; rewrite !elem_of_app; tauto). rewrite nmeta_val in Hpos.
  unfold block_for. destruct (Z.ltb_spec fbn NDIRECT) as [Hlt|Hge].
  - run (rd_Some "addrs" _ fbn _ st (H2 fbn ltac:(lia))). destruct (Z.eqb_spec (blk_at blocks fbn) 0); [lia|]. done.
  - destruct (Z.leb_spec (alen blocks) NDIRECT); [lia|]. destruct H3 as [Hi Hw].
    assert (Ha : aget (d_addrs d) NDIRECT = Some (ind d)).
    { unfold ind. destruct (aget_is_Some (d_addrs d) NDIRECT) as [v Hv]; [rewrite (do_len _ H1); unfold NDIRECT; lia|]. by rewrite Hv. }
    assert (Hir : nmeta <= ind d < m_freeblock st).
    { apply Hr. unfold used. destruct (Z.leb_spec (alen blocks) NDIRECT); [lia|]. rewrite !elem_of_app, list_elem_of_singleton. tauto. }
    rewrite nmeta_val in Hir. run (rd_Some "addrs" _ _ _ st Ha). destruct (Z.eqb_spec (ind d) 0); [done|]. mstep.
    run (rd_Some "addrs" _ _ _ st Ha). run rsect_ok; [|done|unfold FSSIZE in *; lia].
    assert (wd (sect (m_sect st) (ind d)) (fbn - NDIRECT) = blk_at blocks fbn) as ->.
    { rewrite Hw; [f_equal; lia|]. unfold MAXFILE, NDIRECT, NINDIRECT in *. lia. }
    destruct (Z.eqb_spec (blk_at blocks fbn) 0); [lia|]. done.
Qed.

Definition with_addr d j v : dinode :=
  mkdinode (d_type d) (d_major d) (d_minor d) (d_nlink d) (d_size d) (<[Z.to_nat j := v]> (d_addrs d)).

Lemma with_addr_ok d j v : dinode_ok d -> 0 <= v < 2 ^ 32 -> dinode_ok (with_addr d j v).
Proof.
  intros [H1 H2 H3 H4 H5 H6 H7] Hv. split; cbn; try done; [by rewrite alen_insert|]. by apply Forall_insert.
Qed.
Lemma with_addr_at d j v i : dinode_ok d -> 0 <= j <= NDIRECT ->
  aget (d_addrs (with_addr d j v)) i = if decide (j = i) then Some v else aget (d_addrs d) i.
Proof. intros H Hj. cbn. apply aget_insert. rewrite (do_len _ H). unfold NDIRECT in Hj. lia. Qed.

(** Adding fresh blocks to a file. *)
Lemma fresh_nodup (news olds others : list Z) lo hi : NoDup (olds ++ others) -> NoDup news ->
  (forall b, b ∈ olds ++ others -> lo <= b < hi) -> (forall b, b ∈ news -> hi <= b) ->
  forall l, l ≡ₚ news ++ olds -> NoDup (l ++ others).
Proof.
  intros H1 H2 H3 H4 l ->. rewrite <- app_assoc. apply NoDup_app. split_and!; [done| |done].
  intros b Hb Hb'. apply H3 in Hb'. apply H4 in Hb. lia.
Qed.

Lemma used_dir d blocks : alen blocks <= NDIRECT -> used d blocks = blocks.
Proof. intros H. unfold used. destruct (Z.leb_spec (alen blocks) NDIRECT); [apply app_nil_r|lia]. Qed.
Lemma used_ind d blocks : NDIRECT < alen blocks -> used d blocks = blocks ++ [ind d].
Proof. intros H. unfold used. destruct (Z.leb_spec (alen blocks) NDIRECT); [lia|done]. Qed.

(** A file that is given the fresh blocks [news]. *)
Lemma pool_grow st st' d d' data blocks blocks' others news :
  pool st d data blocks others -> good (m_sect st') -> rep (m_sect st') d' data blocks' ->
  used d' blocks' ≡ₚ news ++ used d blocks -> NoDup news ->
  (forall b, b ∈ news -> m_freeblock st <= b < m_freeblock st') -> m_freeblock st <= m_freeblock st' <= FSSIZE ->
  (forall b, m_freeblock st' <= b < FSSIZE -> sect (m_sect st') b = zeroes) ->
  pool st' d' data blocks' others /\ forall b, b ∈ used d' blocks' -> b ∈ used d blocks \/ m_freeblock st <= b.
Proof.
  intros [Hg Hrep Hnd Hr Hf Hz] Hg' Hrep' Hp Hn Hnew Hf' Hz'. split; [split; try done|].
  - apply (fresh_nodup news (used d blocks) others nmeta (m_freeblock st)); try done. intros b Hb. by apply Hnew.
  - intros b. rewrite Hp, !elem_of_app. intros [[Hb|Hb]|Hb]; [apply Hnew in Hb; lia|..];
      specialize (Hr b ltac:(apply elem_of_app; tauto)); lia.
  - lia.
  - intros b. rewrite Hp, elem_of_app. intros [Hb|Hb]; [right; by apply Hnew|by left].
Qed.

Lemma wd_zeroes j : 0 <= j < NINDIRECT -> wd zeroes j = 0.
Proof.
  intros Hj. change NINDIRECT with 128 in Hj. unfold wd, slice, zeroes. rewrite drop_replicate, take_replicate.
  replace (Z.to_nat 4 `min` (Z.to_nat BSIZE - Z.to_nat (4 * j)))%nat with 4%nat by (unfold BSIZE; lia). done.
Qed.

Lemma addr_ind d : dinode_ok d -> aget (d_addrs d) NDIRECT = Some (ind d).
Proof.
  intros H. unfold ind. destruct (aget_is_Some (d_addrs d) NDIRECT) as [v Hv]; [rewrite (do_len _ H); unfold NDIRECT; lia|]. by rewrite Hv.
Qed.

Lemma splice_entry bs j (v : Z) : alen bs = BSIZE -> 0 <= j < NINDIRECT -> alen (splice bs (4 * j) (le_bytes 4 v)) = BSIZE.
Proof. intros Hl Hj. change NINDIRECT with 128 in Hj. rewrite splice_length; [done|lia|]. rewrite alen_le, Hl. unfold BSIZE. lia. Qed.

(** The entry of the indirect block [ib] for the block after [blocks] is set. *)
Lemma ind_entry s ib blocks (fb j : Z) : alen (sect s ib) = BSIZE -> NDIRECT <= alen blocks < MAXFILE -> 0 <= fb < 2 ^ 32 ->
  (forall j, 0 <= j < NINDIRECT -> wd (sect s ib) j = blk_at blocks (NDIRECT + j)) -> 0 <= j < NINDIRECT ->
  wd (splice (sect s ib) (4 * (alen blocks - NDIRECT)) (le_bytes 4 fb)) j = blk_at (blocks ++ [fb]) (NDIRECT + j).
Proof.
  intros Hl Hb Hfb Hw Hj. change NINDIRECT with 128 in *. rewrite maxfile_val in Hb. unfold NDIRECT, BSIZE in *.
  rewrite wd_splice by lia. rewrite blk_at_snoc by lia.
  destruct (decide (j = alen blocks - 12)), (decide (12 + j = alen blocks)); try lia. by apply Hw.
Qed.

(** A fresh block holds zeroes. *)
Lemma data_snoc s data blocks (fb : Z) : nblk (alen data) <= alen blocks -> sect s fb = zeroes ->
  (forall k, 0 <= k < BSIZE * alen blocks -> aget (sect s (blk_at blocks (k / BSIZE))) (k mod BSIZE) = Some (default 0 (aget data k))) ->
  forall k, 0 <= k < BSIZE * alen (blocks ++ [fb]) ->
    aget (sect s (blk_at (blocks ++ [fb]) (k / BSIZE))) (k mod BSIZE) = Some (default 0 (aget data k)).
Proof.
  intros Hn%nblk_bytes Hz H k Hk. pose proof (byte_block _ _ Hk). pose proof (Z.mod_pos_bound k BSIZE ltac:(done)).
  pose proof (Z.div_mod k BSIZE ltac:(done)). rewrite alen_app in *. change (alen [fb]) with 1 in *. rewrite blk_at_snoc by lia. case_decide as E.
  - rewrite Hz. unfold zeroes. rewrite aget_replicate by (unfold BSIZE in *; lia). rewrite aget_None; [done|]. rewrite <- E in Hn. lia.
  - apply H. unfold BSIZE in *. lia.
Qed.

(** The next block is a direct one. *)
Lemma block_for_direct st d data blocks others :
  pool st d data blocks others -> alen blocks < NDIRECT -> m_freeblock st < FSSIZE ->
  exists d' st', block_for d (alen blocks) st = Ret (d', m_freeblock st) st' /\
    pool st' d' data (blocks ++ [m_freeblock st]) others /\ grown st st' d blocks d' (blocks ++ [m_freeblock st]).
Proof.
  intros Hpool Hlt Hcap. pose proof Hpool as [Hg [H1 H2 H3 H4 H5 H6] _ Hr Hf Hz]. pose proof (alen_nonneg blocks).
  rewrite nmeta_val in *. set (fb := m_freeblock st) in *.
  exists (with_addr d (alen blocks) fb), (mkimage (m_sect st) (m_freeinode st) (fb + 1)).
  assert (Hl : alen (blocks ++ [fb]) = alen blocks + 1) by (by rewrite alen_app).
  destruct (pool_grow st (mkimage (m_sect st) (m_freeinode st) (fb + 1)) d (with_addr d (alen blocks) fb) data blocks (blocks ++ [fb]) others [fb])
    as [Hp Hnew]; try done.
  - cbn [m_sect]. split; try done; [..|lia|].
    + apply with_addr_ok; [done|]. unfold FSSIZE in *. lia.
    + intros j Hj. rewrite with_addr_at by (done || lia). rewrite blk_at_snoc by lia.
      destruct (decide (alen blocks = j)), (decide (j = alen blocks)); try lia; [done|]. by apply H2.
    + rewrite Hl. destruct (Z.leb_spec (alen blocks + 1) NDIRECT); [|lia]. destruct (Z.leb_spec (alen blocks) NDIRECT); [|lia].
      unfold ind. rewrite with_addr_at by (done || lia). destruct (decide (alen blocks = NDIRECT)); [lia|done].
    + rewrite Hl, maxfile_val. unfold NDIRECT in *. lia.
    + apply data_snoc; try done. apply Hz. lia.
  - rewrite !used_dir by lia. apply Permutation_app_comm.
  - apply NoDup_singleton.
  - intros b ->%list_elem_of_singleton. cbn. fold fb. lia.
  - cbn. fold fb. lia.
  - intros b Hb. cbn [m_freeblock m_sect] in *. apply Hz. lia.
  - split; [|split; [done|]].
    + unfold block_for. destruct (Z.ltb_spec (alen blocks) NDIRECT); [|lia]. run (rd_Some "addrs" _ _ _ st (H2 (alen blocks) ltac:(lia))).
      rewrite blk_at_beyond by lia. cbn [Z.eqb]. run newblock_ok; [|rewrite nmeta_val; fold fb; lia].
      run wr_Some; [done|]. rewrite (do_len _ H1). unfold NDIRECT in *. lia.
    + split; try done. cbn [m_freeblock]. fold fb. rewrite Hl. unfold need.
      destruct (Z.leb_spec (alen blocks + 1) NDIRECT), (Z.leb_spec (alen blocks) NDIRECT); lia.
Qed.

(** The data of the file when its indirect block [ib] is rewritten for one more block. *)
Lemma rep_indirect s d d' data blocks ib (fb : Z) bs : rep s d data blocks -> good s -> 0 <= ib < FSSIZE -> ib <> 0 -> ib ∉ blocks -> fb <> ib -> sect s fb = zeroes ->
  dinode_ok d' -> (forall j, 0 <= j < NDIRECT -> aget (d_addrs d') j = aget (d_addrs d) j) -> ind d' = ib ->
  NDIRECT <= alen blocks < MAXFILE ->
  (forall j, 0 <= j < NINDIRECT -> wd bs j = blk_at (blocks ++ [fb]) (NDIRECT + j)) ->
  rep (<[Z.to_nat ib := bs]> s) d' data (blocks ++ [fb]).
Proof.
  intros [H1 H2 H3 H4 H5 H6] Hg Hib Hi0 Hin Hfb Hz Hd' Hdir Hind Hlt Hent.
  assert (Hl : alen (blocks ++ [fb]) = alen blocks + 1) by (by rewrite alen_app). split; [done|..].
  - intros j Hj. rewrite blk_at_snoc by lia. rewrite decide_False by lia. rewrite Hdir by done. by apply H2.
  - rewrite Hl. destruct (Z.leb_spec (alen blocks + 1) NDIRECT); [lia|]. rewrite Hind. split; [done|]. intros j Hj.
    rewrite sect_insert by done. rewrite decide_True by done. by apply Hent.
  - lia.
  - lia.
  - apply data_snoc; [done|rewrite sect_insert by done; by rewrite decide_False|]. intros k Hk. rewrite <- H6 by done.
    rewrite sect_insert by done. rewrite decide_False; [done|]. intros ->. by apply Hin, blk_at_lookup, byte_block.
Qed.

(** The file has an indirect block already. *)
Lemma block_for_indirect st d data blocks others :
  pool st d data blocks others -> NDIRECT < alen blocks < MAXFILE -> m_freeblock st < FSSIZE ->
  exists d' st', block_for d (alen blocks) st = Ret (d', m_freeblock st) st' /\
    pool st' d' data (blocks ++ [m_freeblock st]) others /\ grown st st' d blocks d' (blocks ++ [m_freeblock st]).
Proof.
  intros Hpool Hlt Hcap. pose proof Hpool as [Hg Hrep Hnd Hr Hf Hz]. pose proof Hrep as [H1 H2 H3 H4 H5 H6]. pose proof (alen_nonneg blocks).
  rewrite nmeta_val in *. set (fb := m_freeblock st) in *.
  set (bs := splice (sect (m_sect st) (ind d)) (4 * (alen blocks - NDIRECT)) (le_bytes 4 fb)).
  exists d, (mkimage (<[Z.to_nat (ind d) := bs]> (m_sect st)) (m_freeinode st) (fb + 1)).
  assert (Hl : alen (blocks ++ [fb]) = alen blocks + 1) by (by rewrite alen_app).
  destruct (Z.leb_spec (alen blocks) NDIRECT); [lia|]. destruct H3 as [Hi Hw]. rewrite used_ind in Hnd, Hr by lia.
  assert (Hif : 59 <= ind d < FSSIZE) by (specialize (Hr (ind d) ltac:(rewrite !elem_of_app, list_elem_of_singleton; tauto)); lia).
  pose proof (addr_ind d H1) as Ha. assert (Hsl : alen (sect (m_sect st) (ind d)) = BSIZE) by (apply Hg; lia).
  assert (Hent : forall j, 0 <= j < NINDIRECT -> wd bs j = blk_at (blocks ++ [fb]) (NDIRECT + j)).
  { intros j Hj. apply ind_entry; try done; unfold FSSIZE in *; lia. }
  assert (Hj0 : 0 <= alen blocks - NDIRECT < NINDIRECT) by (change NINDIRECT with 128; rewrite maxfile_val in Hlt; unfold NDIRECT in *; lia).
  destruct (pool_grow st (mkimage (<[Z.to_nat (ind d) := bs]> (m_sect st)) (m_freeinode st) (fb + 1)) d d data blocks (blocks ++ [fb]) others [fb])
    as [Hp Hnew]; try done.
  - cbn [m_sect]. apply good_insert; [done|lia|]. by apply splice_entry.
  - cbn [m_sect]. assert (Hne : ind d < fb) by (apply Hr; rewrite !elem_of_app, list_elem_of_singleton; tauto).
    apply (rep_indirect _ d); try done; [lia| |lia|apply Hz; lia|lia].
    rewrite <- app_assoc in Hnd. apply NoDup_app in Hnd as (_ & Hd & _). intros Hin. apply (Hd _ Hin). by left.
  - rewrite !used_ind by lia. rewrite <- app_assoc. cbn [app]. by rewrite <- Permutation_middle.
  - apply NoDup_singleton.
  - intros b ->%list_elem_of_singleton. cbn. fold fb. lia.
  - cbn. fold fb. lia.
  - intros b Hb. cbn [m_freeblock m_sect] in *. rewrite sect_insert by (done || lia).
    specialize (Hr (ind d) ltac:(rewrite !elem_of_app, list_elem_of_singleton; tauto)). rewrite decide_False by lia. apply Hz. lia.
  - split; [|split; [done|]].
    + unfold block_for. destruct (Z.ltb_spec (alen blocks) NDIRECT); [lia|]. run (rd_Some "addrs" _ _ _ st Ha).
      destruct (Z.eqb_spec (ind d) 0); [done|]. mstep. run (rd_Some "addrs" _ _ _ st Ha). run (rsect_ok (ind d) st Hg ltac:(lia)).
      rewrite Hw by done. rewrite blk_at_beyond by lia. cbn [Z.eqb]. run newblock_ok; [|rewrite nmeta_val; fold fb; lia].
      cbv zeta. run wsect_ok; [|done|lia]. fold fb bs. rewrite Hent by done. replace (NDIRECT + (alen blocks - NDIRECT)) with (alen blocks) by lia.
      rewrite blk_at_snoc by lia. by rewrite decide_True.
    + split; try done.
      * intros b Hb Hnot. cbn [m_sect]. rewrite sect_insert by (done || lia). rewrite decide_False; [done|]. intros <-. apply Hnot.
        rewrite used_ind by lia. apply elem_of_app. right. by left.
      * cbn [m_freeblock]. fold fb. rewrite Hl. unfold need. destruct (Z.leb_spec (alen blocks + 1) NDIRECT), (Z.leb_spec (alen blocks) NDIRECT); lia.
Qed.

Lemma grab_indirect st d : dinode_ok d -> nmeta <= m_freeblock st < FSSIZE ->
  (b ← newblock;
   l ← wr "addrs" (d_addrs d) NDIRECT b;
   mret (mkdinode (d_type d) (d_major d) (d_minor d) (d_nlink d) (d_size d) l)) st =
  Ret (with_addr d NDIRECT (m_freeblock st)) (mkimage (m_sect st) (m_freeinode st) (m_freeblock st + 1)).
Proof. intros Hd Hf. run newblock_ok; [|done]. by run wr_Some; [|rewrite (do_len _ Hd)]. Qed.

(** The file gets its indirect block. *)
Lemma block_for_first st d data blocks others :
  pool st d data blocks others -> alen blocks = NDIRECT -> m_freeblock st + 1 < FSSIZE ->
  exists d' st', block_for d (alen blocks) st = Ret (d', m_freeblock st + 1) st' /\
    pool st' d' data (blocks ++ [m_freeblock st + 1]) others /\ grown st st' d blocks d' (blocks ++ [m_freeblock st + 1]).
Proof.
  intros Hpool Hlt Hcap. pose proof Hpool as [Hg Hrep Hnd Hr Hf Hz]. pose proof Hrep as [H1 H2 H3 H4 H5 H6]. pose proof (alen_nonneg blocks).
  rewrite nmeta_val in *. set (fb := m_freeblock st) in *. rewrite used_dir in Hnd, Hr by lia.
  set (bs := splice (sect (m_sect st) fb) (4 * (alen blocks - NDIRECT)) (le_bytes 4 (fb + 1))). set (d' := with_addr d NDIRECT fb).
  set (st' := mkimage (<[Z.to_nat fb := bs]> (m_sect st)) (m_freeinode st) (fb + 1 + 1)).
  exists d', st'. assert (Hl : alen (blocks ++ [fb + 1]) = alen blocks + 1) by (by rewrite alen_app).
  assert (Hz' : sect (m_sect st) fb = zeroes) by (apply Hz; lia). assert (Hj0 : 0 <= alen blocks - NDIRECT < NINDIRECT) by (rewrite Hlt; done).
  assert (Hw0 : wd (sect (m_sect st) fb) (alen blocks - NDIRECT) = 0) by (rewrite Hz'; by apply wd_zeroes).
  assert (Hat : forall j, aget (d_addrs d') j = if decide (NDIRECT = j) then Some fb else aget (d_addrs d) j) by (intros; by apply with_addr_at).
  assert (Hi' : ind d' = fb) by (unfold ind; by rewrite Hat, decide_True).
  assert (Hent : forall j, 0 <= j < NINDIRECT -> wd bs j = blk_at (blocks ++ [fb + 1]) (NDIRECT + j)).
  { intros j Hj. apply ind_entry; try done; [by rewrite Hz'|rewrite Hlt; done|unfold FSSIZE in *; lia|].
    intros i Hi. rewrite Hz', wd_zeroes by done. by rewrite blk_at_beyond by lia. }
  destruct (pool_grow st st' d d' data blocks (blocks ++ [fb + 1]) others [fb + 1; fb]) as [Hp Hnew]; try done.
  - apply good_insert; [done|lia|]. apply splice_entry; [by rewrite Hz'|done].
  - apply (rep_indirect _ d); try done; [lia|lia|..].
    + intros Hin. specialize (Hr fb ltac:(apply elem_of_app; tauto)). lia.
    + lia.
    + apply Hz. lia.
    + apply with_addr_ok; [done|]. unfold FSSIZE in *. lia.
    + intros j Hj. rewrite Hat. rewrite decide_False by lia. done.
    + rewrite Hlt. done.
  - rewrite (used_ind d'), (used_dir d), Hi' by lia. rewrite <- app_assoc. apply Permutation_app_comm.
  - apply NoDup_cons. split; [rewrite list_elem_of_singleton; lia|apply NoDup_singleton].
  - intros b [->| ->%list_elem_of_singleton]%elem_of_cons; unfold st'; cbn; fold fb; lia.
  - unfold st'. cbn. fold fb. lia.
  - intros b Hb. unfold st' in *. cbn [m_freeblock m_sect] in *. rewrite sect_insert by (done || lia).
    rewrite decide_False by lia. apply Hz. lia.
  - split; [|split; [done|]].
    + unfold block_for. destruct (Z.ltb_spec (alen blocks) NDIRECT); [lia|]. run (rd_Some "addrs" _ _ _ st (addr_ind d H1)).
      destruct (Z.leb_spec (alen blocks) NDIRECT); [|lia]. rewrite H3. cbn [Z.eqb].
      run (grab_indirect st d H1); [|rewrite nmeta_val; fold fb; lia]. fold fb d'.
      run rd_Some; [|by rewrite Hat, decide_True]. run rsect_ok; [|done|lia]. cbn [m_sect]. rewrite Hw0.
      cbn [Z.eqb]. run newblock_ok; [|rewrite nmeta_val; cbn; lia].
      cbv zeta. run wsect_ok; [|done|lia]. fold fb bs. rewrite Hent by done. replace (NDIRECT + (alen blocks - NDIRECT)) with (alen blocks) by lia.
      rewrite blk_at_snoc by lia. by rewrite decide_True.
    + split; try done.
      * intros b Hb Hnot. unfold st'. cbn [m_sect]. rewrite sect_insert by (done || lia). rewrite decide_False by lia. done.
      * unfold st'. cbn [m_freeblock]. fold fb. rewrite Hl. unfold need. destruct (Z.leb_spec (alen blocks + 1) NDIRECT), (Z.leb_spec (alen blocks) NDIRECT); lia.
Qed.

Lemma block_for_new st d data blocks others :
  pool st d data blocks others -> alen blocks < MAXFILE ->
  m_freeblock st + need (alen blocks + 1) - need (alen blocks) <= FSSIZE ->
  exists d' x st', block_for d (alen blocks) st = Ret (d', x) st' /\
    pool st' d' data (blocks ++ [x]) others /\ grown st st' d blocks d' (blocks ++ [x]).
Proof.
  intros Hp Hm Hcap. unfold need in Hcap.
  destruct (Z.leb_spec (alen blocks + 1) NDIRECT) as [?|?], (Z.leb_spec (alen blocks) NDIRECT) as [?|?]; try lia.
  - destruct (block_for_direct st d data blocks others) as (d' & st' & H'); try done; try lia. eauto.
  - destruct (block_for_first st d data blocks others) as (d' & st' & H'); try done; try lia. eauto.
  - destruct (block_for_indirect st d data blocks others) as (d' & st' & H'); try done; try lia. eauto.
Qed.
End alloc.

(** ** Writing the data *)

Section write.
Implicit Types (s : list (list Z)) (bs chunk : list Z) (b x k j : Z) (st : image) (d : dinode) (data blocks others : list Z).

Lemma blk_at_inj blocks i j : NoDup blocks -> 0 <= i < alen blocks -> 0 <= j < alen blocks -> blk_at blocks i = blk_at blocks j -> i = j.
Proof.
  intros Hn Hi Hj E. pose proof (proj1 (blk_at_lookup blocks i Hi)) as E1. pose proof (proj1 (blk_at_lookup blocks j Hj)) as E2.
  rewrite <- E in E2. unfold aget in E1, E2. destruct (Z.leb_spec 0 i), (Z.leb_spec 0 j); try lia.
  pose proof (NoDup_lookup blocks _ _ _ Hn E1 E2). lia.
Qed.

(** The last block of a file takes more bytes. *)
Lemma rep_fill s d data blocks chunk : rep s d data blocks -> good s -> NoDup (used d blocks) ->
  (forall b, b ∈ used d blocks -> 0 <= b < FSSIZE) -> let fbn := alen data / BSIZE in
  let x := blk_at blocks fbn in fbn < alen blocks -> alen data mod BSIZE + alen chunk <= BSIZE -> chunk <> [] ->
  rep (<[Z.to_nat x := splice (sect s x) (alen data mod BSIZE) chunk]> s) d (data ++ chunk) blocks.
Proof.
  intros [H1 H2 H3 H4 H5 H6] Hg Hnd Hr fbn x Hf Hc Hne. pose proof (alen_nonneg data). pose proof (alen_nonneg chunk).
  assert (Hfbn : 0 <= fbn < alen blocks) by (split; [apply Z.div_pos; unfold BSIZE; lia|done]).
  pose proof (Z.mod_pos_bound (alen data) BSIZE ltac:(done)) as Hm. pose proof (Z.div_mod (alen data) BSIZE ltac:(done)) as Hdm. fold fbn in Hdm.
  destruct (blk_at_lookup blocks fbn Hfbn) as [_ Hin]. fold x in Hin. apply NoDup_app in Hnd as (Hnd & Hdisj & _).
  assert (Hx : 0 <= x < FSSIZE) by (apply Hr; apply elem_of_app; by left). assert (Hxl : alen (sect s x) = BSIZE) by (by apply Hg).
  split; try done.
  - specialize (Hdisj x Hin). destruct (Z.leb_spec (alen blocks) NDIRECT); [done|]. destruct H3 as [Hi Hw]. split; [done|].
    intros j Hj. rewrite sect_insert by done. rewrite decide_False; [by apply Hw|]. intros ->. apply Hdisj. by left.
  - rewrite alen_app. unfold nblk, BSIZE in *. apply Z.lt_succ_r, Z.div_lt_upper_bound; lia.
  - intros k Hk. pose proof (byte_block _ _ Hk) as Hkb. rewrite aget_app by lia. rewrite sect_insert by done.
    pose proof (Z.mod_pos_bound k BSIZE ltac:(done)). pose proof (Z.div_mod k BSIZE ltac:(done)). specialize (H6 k Hk).
    destruct (decide (x = blk_at blocks (k / BSIZE))) as [E|E].
    + apply blk_at_inj in E; [|done..]. fold x in H6. rewrite <- E in *. fold x in H6. rewrite aget_splice by lia. case_decide.
      * rewrite decide_False by lia. replace (k - alen data) with (k mod BSIZE - alen data mod BSIZE) by lia.
        destruct (aget_is_Some chunk (k mod BSIZE - alen data mod BSIZE)) as [v ->]; [lia|done].
      * rewrite H6. case_decide; [done|]. rewrite !aget_None by lia. done.
    + rewrite H6. case_decide; [done|]. rewrite !aget_None; [done| |lia]. intros Hin'. apply E. unfold x. f_equal.
      apply (Z.div_unique _ _ _ (alen data mod BSIZE + (k - alen data))); lia.
Qed.

Lemma same_node_refl d : same_node d d.
Proof. done. Qed.
Lemma same_node_trans d1 d2 d3 : same_node d1 d2 -> same_node d2 d3 -> same_node d1 d3.
Proof. unfold same_node. intuition congruence. Qed.

Lemma grown_trans st st1 st2 d blocks d1 blocks1 d2 blocks2 : m_freeblock st <= m_freeblock st1 ->
  grown st st1 d blocks d1 blocks1 -> grown st1 st2 d1 blocks1 d2 blocks2 -> grown st st2 d blocks d2 blocks2.
Proof.
  intros Hf [A1 A2 A3 A4 A5] [B1 B2 B3 B4 B5]. split; [..|lia|lia|by eapply same_node_trans].
  - intros b Hb Hn. rewrite B1; [by apply A1|lia|]. intros [?|?]%A2; [done|lia].
  - intros b [Hb|?]%B2; [by apply A2|right; lia].
Qed.

Lemma nblk_split (n q r : Z) : n = BSIZE * q + r -> 0 < r <= BSIZE -> nblk n = q + 1.
Proof. intros -> Hr. unfold nblk, BSIZE in *. symmetry. apply (Z.div_unique _ _ _ (r - 1)); lia. Qed.
Lemma nblk_mono (n m : Z) : n <= m -> nblk n <= nblk m.
Proof. intros H. unfold nblk. apply Z.div_le_mono; lia. Qed.
Lemma need_mono (n m : Z) : n <= m -> need n <= need m.
Proof. intros H. unfold need. destruct (Z.leb_spec n NDIRECT), (Z.leb_spec m NDIRECT); lia. Qed.

Lemma pool_fill st d data blocks others chunk : pool st d data blocks others -> let fbn := alen data / BSIZE in
  let x := blk_at blocks fbn in fbn < alen blocks -> alen data mod BSIZE + alen chunk <= BSIZE -> chunk <> [] ->
  let st' := mkimage (<[Z.to_nat x := splice (sect (m_sect st) x) (alen data mod BSIZE) chunk]> (m_sect st)) (m_freeinode st) (m_freeblock st) in
  0 <= x < FSSIZE /\ pool st' d (data ++ chunk) blocks others /\ grown st st' d blocks d blocks.
Proof.
  intros [Hg Hrep Hnd Hr Hf Hz] fbn x Hlt Hc Hne st'. pose proof (alen_nonneg data). rewrite nmeta_val in *.
  assert (Hin : x ∈ used d blocks).
  { apply elem_of_app. left. apply blk_at_lookup. split; [apply Z.div_pos; unfold BSIZE; lia|done]. }
  assert (Hx : 59 <= x < m_freeblock st) by (apply Hr, elem_of_app; by left).
  assert (Hs : forall b, x <> b -> sect (m_sect st') b = sect (m_sect st) b).
  { intros b Hb. unfold st'. cbn [m_sect]. rewrite sect_insert by (done || lia). by rewrite decide_False. }
  pose proof (Z.mod_pos_bound (alen data) BSIZE ltac:(done)) as Hm. split; [lia|]. split; [split; try done|split; try done].
  - apply good_insert; [done|lia|]. rewrite splice_length; [apply Hg; lia|lia|]. rewrite (gd_blocks _ Hg) by lia. done.
  - apply rep_fill; try done; [by apply NoDup_app in Hnd as (? & _)|]. intros b Hb. specialize (Hr b). rewrite elem_of_app in Hr. intuition lia.
  - intros b Hb. unfold st' in Hb. cbn [m_freeblock] in Hb. rewrite Hs by lia. by apply Hz.
  - intros b Hb Hn. apply Hs. by intros ->.
  - intros b Hb. by left.
  - unfold st'. cbn. lia.
Qed.

(** One round of the loop. *)
Lemma append_step st d data blocks others p : pool st d data blocks others -> alen blocks = nblk (alen data) -> p <> [] ->
  let fbn := alen data / BSIZE in let n1 := Z.min (alen p) ((fbn + 1) * BSIZE - alen data) in let chunk := take (Z.to_nat n1) p in
  alen data + n1 <= MAXFILE * BSIZE -> m_freeblock st + need (nblk (alen data + n1)) - need (nblk (alen data)) <= FSSIZE ->
  exists d' x st1 blocks', fbn < MAXFILE /\ block_for d fbn st = Ret (d', x) st1 /\ good (m_sect st1) /\ 0 <= x < FSSIZE /\
    0 < n1 /\ alen chunk = n1 /\
    let st' := mkimage (<[Z.to_nat x := splice (sect (m_sect st1) x) (alen data - fbn * BSIZE) chunk]> (m_sect st1)) (m_freeinode st1) (m_freeblock st1) in
    pool st' d' (data ++ chunk) blocks' others /\ alen blocks' = nblk (alen (data ++ chunk)) /\ grown st st' d blocks d' blocks'.
Proof.
  intros Hp Hb Hne fbn n1 chunk Hmax Hcap. pose proof (alen_nonneg data). assert (0 < alen p) by (destruct p; [done|rewrite alen_cons; pose proof (alen_nonneg p); lia]).
  pose proof (Z.mod_pos_bound (alen data) BSIZE ltac:(done)) as Hm. pose proof (Z.div_mod (alen data) BSIZE ltac:(done)) as Hdm. fold fbn in Hdm.
  assert (Hn1 : 0 < n1 /\ n1 <= alen p /\ alen data mod BSIZE + n1 <= BSIZE) by (unfold n1, BSIZE in *; lia).
  assert (Hc : alen chunk = n1) by (unfold chunk, alen in *; rewrite length_take; lia).
  assert (Hcne : chunk <> []) by (intros E; rewrite E in Hc; unfold alen in Hc; cbn in Hc; lia).
  assert (Hfb : fbn < MAXFILE) by (unfold MAXFILE, BSIZE in *; lia).
  assert (En : nblk (alen data + n1) = fbn + 1) by (apply (nblk_split _ _ (alen data mod BSIZE + n1)); lia).
  replace (alen data - fbn * BSIZE) with (alen data mod BSIZE) by lia. rewrite alen_app, Hc, En. rewrite En in Hcap.
  assert (nblk (alen data) = if alen data mod BSIZE =? 0 then fbn else fbn + 1) as El
    by (destruct (Z.eqb_spec (alen data mod BSIZE) 0); [rewrite <- (Z.sub_add 1 fbn); apply (nblk_split _ _ BSIZE)|apply (nblk_split _ _ (alen data mod BSIZE))]; lia).
  destruct (Z.eqb_spec (alen data mod BSIZE) 0) as [E0|E0]; rewrite El in *.
  - destruct (block_for_new st d data blocks others Hp) as (d' & x & st1 & Hbf & Hp1 & Hg1); [lia|by rewrite Hb|].
    assert (Hx : x = blk_at (blocks ++ [x]) fbn) by (rewrite blk_at_snoc by lia; by rewrite decide_True).
    destruct (pool_fill st1 d' data (blocks ++ [x]) others chunk Hp1) as (Hr & Hp2 & Hg2); [rewrite alen_app; unfold alen in *; cbn in *; lia|lia|done|].
    fold fbn in Hr, Hp2, Hg2. rewrite <- Hx in Hr, Hp2, Hg2. exists d', x, st1, (blocks ++ [x]). rewrite Hb in Hbf.
    split_and!; try done; try lia; [apply Hp1|]. split_and!; [done|by rewrite alen_app, Hb|]. eapply grown_trans; [|done..].
    rewrite (gr_count _ _ _ _ _ _ Hg1). rewrite alen_app. pose proof (need_mono (alen blocks) (alen blocks + alen [x]) ltac:(unfold alen; cbn; lia)). lia.
  - destruct (pool_fill st d data blocks others chunk Hp) as (Hr & Hp2 & Hg2); [fold fbn; lia|lia|done|].
    fold fbn in Hr, Hp2, Hg2. exists d, (blk_at blocks fbn), st, blocks. rewrite (block_for_old _ _ _ _ _ fbn Hp) by (split; [apply Z.div_pos; unfold BSIZE; lia|lia]).
    cbv zeta. split_and!; try done; try lia; apply Hp.
Qed.

Lemma append_loop_ok f : forall st d data blocks others p, pool st d data blocks others -> alen blocks = nblk (alen data) ->
  (length p <= f)%nat -> alen (data ++ p) <= MAXFILE * BSIZE -> m_freeblock st + need (nblk (alen (data ++ p))) - need (nblk (alen data)) <= FSSIZE ->
  exists d' blocks' st', append_loop f d (alen data) p st = Ret (d', alen (data ++ p)) st' /\
    pool st' d' (data ++ p) blocks' others /\ alen blocks' = nblk (alen (data ++ p)) /\ grown st st' d blocks d' blocks'.
Proof.
  induction f as [|f IH]; intros st d data blocks others p Hp Hb Hf Hmax Hcap.
  - destruct p; [|simpl in Hf; lia]. rewrite app_nil_r. exists d, blocks, st. split_and!; try done. split; try done; [by left|lia].
  - destruct (decide (p = [])) as [->|Hne].
    { rewrite app_nil_r. exists d, blocks, st. split_and!; try done. split; try done; [by left|lia]. }
    rewrite alen_app in Hmax, Hcap. assert (Hpos : 0 < alen p) by (destruct p; [done|rewrite alen_cons; pose proof (alen_nonneg p); lia]).
    set (fbn := alen data / BSIZE). set (n1 := Z.min (alen p) ((fbn + 1) * BSIZE - alen data)).
    pose proof (need_mono _ _ (nblk_mono (alen data + n1) (alen data + alen p) ltac:(lia))).
    destruct (append_step st d data blocks others p Hp Hb Hne) as (d1 & x & st1 & b1 & Hlt & Hbf & Hg1 & Hx & Hn0 & Hc & Hp2 & Hb2 & Hgr);
      [fold fbn n1; lia..|]. fold fbn n1 in Hlt, Hbf, Hn0, Hc, Hp2, Hb2, Hgr. set (st2 := mkimage _ _ _) in *. set (chunk := take (Z.to_nat n1) p) in *.
    assert (Hcat : (data ++ chunk) ++ drop (Z.to_nat n1) p = data ++ p) by (rewrite <- app_assoc; unfold chunk; by rewrite take_drop).
    assert (Hfree : m_freeblock st2 = m_freeblock st + need (nblk (alen data + n1)) - need (nblk (alen data))).
    { rewrite (gr_count _ _ _ _ _ _ Hgr), Hb2, Hb, alen_app, Hc. done. }
    destruct (IH st2 d1 (data ++ chunk) b1 others (drop (Z.to_nat n1) p)) as (d' & b' & st' & Hl & Hp' & Hb' & Hg'); try done.
    { rewrite length_drop. lia. } { rewrite Hcat, alen_app. lia. } { rewrite Hcat, !alen_app, Hc. lia. }
    rewrite Hcat in *. exists d', b', st'. split_and!; try done.
    + cbn [append_loop]. destruct (Z.ltb_spec 0 (alen p)); [|lia]. cbv zeta. fold fbn. fold n1. unfold assert_.
      destruct (Z.ltb_spec fbn MAXFILE); [|lia]. mstep. run Hbf. run rsect_ok; [|done..]. run wsect_ok; [|done..]. fold chunk st2.
      rewrite <- Hl. rewrite alen_app, Hc. done.
    + eapply grown_trans; [|done..]. pose proof (need_mono _ _ (nblk_mono (alen data) (alen data + n1) ltac:(lia))). lia.
Qed.
End write.
