(* ===== verification/MkfsSpec.v ===== *)
(** * The files of an image

    The state of [mkfs] between two operations: the inodes, the blocks of every
    file and the counters agree.  Allocating an inode, appending to a file and
    adding the files keep that, and the files hold what was appended. *)

From S2P Require Import Prelude State Spinlock CString Kalloc Console Vm Message Container Proc Syscall.
From S2P Require Import Sleeplock Bio Log Words Journal Fs Mkfs MkfsBlocks.
Open Scope Z_scope.

(** ** Inodes of the image *)

Section inodes.
Implicit Types (s : list (list Z)) (bs : list Z) (b i j : Z) (st : image) (d : dinode).

Definition node s i : dinode := dinode_of (slice (sect s (IBLOCK i sb)) (inode_at i) 64).
Definition put_node s i d : list (list Z) :=
  <[Z.to_nat (IBLOCK i sb) := splice (sect s (IBLOCK i sb)) (inode_at i) (bytes_of_dinode d)]> s.

Lemma iblock_val i : 0 <= i < NINODES -> IBLOCK i sb = i / 8 + 32.
Proof. intros H. unfold IBLOCK. change (sb_inodestart sb) with 32. change IPB with 8. unfold NINODES in H. apply u32_small. dlia. Qed.
Lemma iblock_range i : 0 <= i < NINODES -> 32 <= IBLOCK i sb < 58.
Proof. intros H. rewrite iblock_val by done. unfold NINODES in H. dlia. Qed.
Lemma inode_at_range i : 0 <= inode_at i /\ inode_at i + 64 <= BSIZE.
Proof. unfold inode_at. change IPB with 8. unfold BSIZE. pose proof (Z.mod_pos_bound i 8). lia. Qed.

Lemma rinode_ok i st : good (m_sect st) -> 0 <= i < NINODES -> rinode i st = Ret (node (m_sect st) i) st.
Proof. intros Hg Hi%iblock_range. unfold rinode. by run rsect_ok; [|done|unfold FSSIZE; lia]. Qed.
Lemma winode_ok i d st : good (m_sect st) -> 0 <= i < NINODES ->
  winode i d st = Ret tt (mkimage (put_node (m_sect st) i d) (m_freeinode st) (m_freeblock st)).
Proof. intros Hg Hi%iblock_range. unfold winode. run rsect_ok; [|done|unfold FSSIZE; lia]. apply wsect_ok; [done|unfold FSSIZE; lia]. Qed.

Lemma good_put s i d : good s -> 0 <= i < NINODES -> dinode_ok d -> good (put_node s i d).
Proof.
  intros Hg Hi%iblock_range Hd. pose proof (inode_at_range i). assert (Hb : alen (sect s (IBLOCK i sb)) = BSIZE) by (apply Hg; unfold FSSIZE; lia).
  apply good_insert; [done|unfold FSSIZE; lia|]. rewrite splice_length; rewrite ?alen_dinode; lia || done.
Qed.
Lemma sect_put s i d b : good s -> 0 <= i < NINODES -> b < 32 \/ 58 <= b -> sect (put_node s i d) b = sect s b.
Proof. intros Hg Hi%iblock_range Hb. unfold put_node. rewrite sect_insert by (done || unfold FSSIZE; lia). rewrite decide_False; [done|lia]. Qed.

Lemma node_put s i d j : good s -> dinode_ok d -> 0 <= i < NINODES -> 0 <= j < NINODES ->
  node (put_node s i d) j = if decide (i = j) then d else node s j.
Proof.
  intros Hg Hd Hi Hj. pose proof (iblock_range i Hi). pose proof (inode_at_range i). pose proof (inode_at_range j).
  assert (Hb : alen (sect s (IBLOCK i sb)) = BSIZE) by (apply Hg; unfold FSSIZE; lia). pose proof (alen_dinode d Hd) as Hl.
  unfold node, put_node. rewrite sect_insert by (done || unfold FSSIZE; lia). case_decide as E; case_decide as E'; subst; try done.
  - rewrite <- Hl at 1. rewrite slice_splice_eq by lia. by apply dinode_roundtrip.
  - rewrite E in Hb |- *. rewrite slice_splice_ne; [done|lia..|]. rewrite Hl. unfold inode_at. rewrite !iblock_val in E by done. change IPB with 8.
    pose proof (Z.div_mod i 8). pose proof (Z.div_mod j 8). lia.
Qed.
End inodes.

(** ** The image with its files *)

Record fnode := mkf { f_type : Z; f_data : list Z; f_din : dinode; f_blocks : list Z }.

Definition f_used (f : fnode) : list Z := used (f_din f) (f_blocks f).
Definition uses (l : list fnode) : list Z := concat (f_used <$> l).

Record frep (s : list (list Z)) (f : fnode) : Prop := {
  fr_rep : rep s (f_din f) (f_data f) (f_blocks f);
  fr_type : d_type (f_din f) = f_type f;
  fr_nlink : d_nlink (f_din f) = 1;
  fr_size : d_size (f_din f) = alen (f_data f);
  fr_blocks : alen (f_blocks f) = nblk (alen (f_data f)) }.

Definition superblock_sect : list Z := splice zeroes 0 superblock_bytes.

Record fs_ok (st : image) (l : list fnode) : Prop := {
  fo_good : good (m_sect st);
  fo_inode : m_freeinode st = alen l + 1;
  fo_max : alen l < NINODES;
  fo_node : forall i f, l !! i = Some f -> node (m_sect st) (Z.of_nat i + 1) = f_din f /\ frep (m_sect st) f;
  fo_unused : forall i, alen l < i < NINODES -> d_type (node (m_sect st) i) = 0;
  fo_nodup : NoDup (uses l);
  fo_range : forall b, b ∈ uses l -> nmeta <= b < m_freeblock st;
  fo_free : nmeta <= m_freeblock st <= FSSIZE;
  fo_zero : forall b, m_freeblock st <= b < FSSIZE -> sect (m_sect st) b = zeroes;
  fo_count : m_freeblock st = nmeta + alen (uses l);
  fo_meta : forall b, 0 <= b < 32 \/ b = 58 -> sect (m_sect st) b = if decide (b = 1) then superblock_sect else zeroes }.

Section files.
Implicit Types (s : list (list Z)) (bs : list Z) (b : Z) (st : image) (d : dinode) (f : fnode) (l : list fnode).

Lemma uses_middle l1 f l2 : uses (l1 ++ f :: l2) ≡ₚ f_used f ++ uses (l1 ++ l2).
Proof. unfold uses. rewrite !fmap_app, fmap_cons, !concat_app. cbn [concat]. rewrite !app_assoc. apply Permutation_app_tail, Permutation_app_comm. Qed.

Lemma elem_of_uses l i f b : l !! i = Some f -> b ∈ f_used f -> b ∈ uses l.
Proof.
  intros Hl Hb. apply list_elem_of_split_length in Hl as (l1 & l2 & -> & _). rewrite uses_middle. apply elem_of_app. by left.
Qed.

Lemma alen_used d blocks : alen (used d blocks) = need (alen blocks).
Proof. unfold used, need. rewrite alen_app. by destruct (Z.leb_spec (alen blocks) NDIRECT). Qed.

Lemma alen_perm {A} (l l' : list A) : l ≡ₚ l' -> alen l = alen l'.
Proof. intros H. unfold alen. by rewrite H. Qed.

Lemma fs_pool st l1 f l2 : fs_ok st (l1 ++ f :: l2) -> pool st (f_din f) (f_data f) (f_blocks f) (uses (l1 ++ l2)).
Proof.
  intros H. pose proof (uses_middle l1 f l2) as Hp. split; [apply H|..|apply H|apply H].
  - apply (fo_node _ _ H (length l1)). by rewrite list_lookup_middle.
  - fold (f_used f). rewrite <- Hp. apply H.
  - intros b. fold (f_used f). rewrite <- Hp. apply H.
Qed.

(** Only the size of an inode changes. *)
Definition with_size d (n : Z) : dinode := mkdinode (d_type d) (d_major d) (d_minor d) (d_nlink d) n (d_addrs d).
Lemma with_size_ok d (n : Z) : dinode_ok d -> 0 <= n < 2 ^ 32 -> dinode_ok (with_size d n).
Proof. intros [H1 H2 H3 H4 H5 H6 H7] Hn. by split. Qed.
Lemma rep_size s d data blocks (n : Z) : rep s d data blocks -> 0 <= n < 2 ^ 32 -> rep s (with_size d n) data blocks.
Proof. intros [H1 H2 H3 H4 H5 H6] Hn. split; try done. by apply with_size_ok. Qed.

Lemma frep_frame s s' f : frep s f -> (forall b, b ∈ f_used f -> sect s' b = sect s b) -> frep s' f.
Proof. intros [H1 H2 H3 H4 H5] Hs. split; try done. by eapply rep_frame. Qed.

Lemma lookup_other l1 f f' l2 (i : nat) g : (l1 ++ f' :: l2) !! i = Some g -> i <> length l1 ->
  (l1 ++ f :: l2) !! i = Some g /\ exists j, (l1 ++ l2) !! j = Some g.
Proof.
  intros H Hne. destruct (decide (i < length l1)%nat).
  - rewrite lookup_app_l in H by done. rewrite !lookup_app_l by done. split; [done|]. exists i. by rewrite lookup_app_l.
  - rewrite lookup_app_r in H |- * by lia. destruct (i - length l1)%nat as [|k] eqn:E; [lia|]. split; [done|].
    exists (length l1 + k)%nat. rewrite lookup_app_r by lia. rewrite <- H. cbn. f_equal. lia.
Qed.

(** The other files keep their blocks while one of them grows. *)
Lemma fs_frame st st1 l1 f l2 d' blocks' (inum : Z) d'' : fs_ok st (l1 ++ f :: l2) ->
  grown st st1 (f_din f) (f_blocks f) d' blocks' -> good (m_sect st1) -> inum = alen l1 + 1 -> dinode_ok d'' ->
  let s2 := put_node (m_sect st1) inum d'' in
  (forall i, 0 <= i < NINODES -> i <> inum -> node s2 i = node (m_sect st) i) /\
  (forall i g, (l1 ++ l2) !! i = Some g -> frep (m_sect st) g -> frep s2 g) /\
  (forall b, 0 <= b < 32 \/ b = 58 -> sect s2 b = sect (m_sect st) b).
Proof.
  intros H Hgr Hg1 -> Hd'' s2. pose proof (fs_pool _ _ _ _ H) as [_ _ Hnd Hr Hf _]. fold (f_used f) in Hnd, Hr. rewrite nmeta_val in Hr, Hf.
  pose proof (fo_max _ _ H) as Hmax. rewrite alen_app, alen_cons in Hmax. pose proof (alen_nonneg l1). pose proof (alen_nonneg l2).
  assert (Hlow : forall b, 0 <= b < 59 -> sect (m_sect st1) b = sect (m_sect st) b).
  { intros b Hb. apply (gr_outside _ _ _ _ _ _ Hgr); [lia|]. intros Hin. specialize (Hr b ltac:(apply elem_of_app; by left)). lia. }
  split_and!.
  - intros i Hi Hne. unfold s2. rewrite node_put by (done || lia). rewrite decide_False by done. unfold node. rewrite Hlow; [done|].
    apply iblock_range in Hi. lia.
  - intros i g Hl Hrep. eapply frep_frame; [done|]. intros b Hb. pose proof (elem_of_uses _ _ _ _ Hl Hb) as Hu.
    specialize (Hr b ltac:(apply elem_of_app; by right)). unfold s2. rewrite sect_put by (done || lia).
    apply (gr_outside _ _ _ _ _ _ Hgr); [lia|]. intros Hin. apply NoDup_app in Hnd as (_ & Hd & _). by apply (Hd b).
  - intros b Hb. unfold s2. rewrite sect_put by (done || lia). apply Hlow. lia.
Qed.

Lemma frep_put st1 d' data' blocks' others (inum ty : Z) : pool st1 d' data' blocks' others -> alen blocks' = nblk (alen data') ->
  d_type d' = ty -> d_nlink d' = 1 -> 0 <= inum < NINODES -> alen data' < 2 ^ 32 ->
  frep (put_node (m_sect st1) inum (with_size d' (alen data'))) (mkf ty data' (with_size d' (alen data')) blocks').
Proof.
  intros Hp Hb Ht Hn Hi Hd. pose proof (alen_nonneg data'). split; try done. apply rep_size; [|lia].
  apply (rep_frame (m_sect st1)); [apply Hp|]. intros b Hu. apply sect_put; [apply Hp|done|]. right.
  pose proof (po_range _ _ _ _ _ Hp b ltac:(apply elem_of_app; by left)). rewrite nmeta_val in *. lia.
Qed.

(** The file [f] has grown and its inode is written. *)
Lemma fs_grown st st1 l1 f l2 d' data' blocks' (inum : Z) : fs_ok st (l1 ++ f :: l2) -> inum = alen l1 + 1 ->
  pool st1 d' data' blocks' (uses (l1 ++ l2)) -> alen blocks' = nblk (alen data') -> alen data' < 2 ^ 32 ->
  grown st st1 (f_din f) (f_blocks f) d' blocks' ->
  fs_ok (mkimage (put_node (m_sect st1) inum (with_size d' (alen data'))) (m_freeinode st1) (m_freeblock st1))
    (l1 ++ mkf (f_type f) data' (with_size d' (alen data')) blocks' :: l2).
Proof.
  intros H Hi Hp1 Hb1 Hd32 Hgr. destruct (fo_node _ _ H (length l1) f) as [Hn [Hrep Hty Hnl Hsz Hbl]]; [by rewrite list_lookup_middle|].
  pose proof (fo_max _ _ H) as Hmax. rewrite alen_app, alen_cons in Hmax. pose proof (alen_nonneg l1). pose proof (alen_nonneg l2). pose proof (alen_nonneg data').
  pose proof (rp_ok _ _ _ _ (po_rep _ _ _ _ _ Hp1)) as Hd1. pose proof (with_size_ok d' (alen data') Hd1 ltac:(lia)) as Hd2.
  destruct (fs_frame st st1 l1 f l2 d' blocks' inum _ H Hgr (po_good _ _ _ _ _ Hp1) Hi Hd2) as (Fn & Fr & Fm).
  set (f' := mkf (f_type f) data' (with_size d' (alen data')) blocks').
  assert (Hu : uses (l1 ++ f' :: l2) ≡ₚ used d' blocks' ++ uses (l1 ++ l2)) by apply uses_middle.
  destruct (gr_same _ _ _ _ _ _ Hgr) as (St & _ & _ & Sn & _). split; cbn [m_sect m_freeinode m_freeblock].
  - apply good_put; [apply Hp1|lia|done].
  - rewrite (gr_inode _ _ _ _ _ _ Hgr), (fo_inode _ _ H). by rewrite !alen_app, !alen_cons.
  - by rewrite alen_app, alen_cons.
  - intros i g Hg. destruct (decide (i = length l1)) as [->|Hne].
    + rewrite list_lookup_middle in Hg by done. injection Hg as <-. change (Z.of_nat (length l1)) with (alen l1). rewrite <- Hi. split.
      * rewrite node_put by (apply Hp1 || done || lia). by rewrite decide_True.
      * eapply frep_put; try done; [congruence|congruence|lia].
    + pose proof Hg as Ho. apply (lookup_other l1 f) in Ho as [Ho [j Hj]]; [|done]. destruct (fo_node _ _ H i g Ho) as [Hn' Hr'].
      split; [|by eapply Fr]. rewrite <- Hn'. apply lookup_lt_Some in Ho. rewrite length_app in Ho. cbn [length] in Ho. unfold alen in *. apply Fn; lia.
  - intros i Hi'. rewrite alen_app, alen_cons in Hi'. rewrite Fn by lia. apply (fo_unused _ _ H). rewrite alen_app, alen_cons. lia.
  - rewrite Hu. apply Hp1.
  - intros b. rewrite Hu. apply Hp1.
  - apply Hp1.
  - intros b Hb. pose proof (po_free _ _ _ _ _ Hp1) as Hf1. rewrite nmeta_val in Hf1. rewrite sect_put; [by apply Hp1|apply Hp1|lia|lia].
  - rewrite (alen_perm _ _ Hu), alen_app, alen_used. rewrite (gr_count _ _ _ _ _ _ Hgr), (fo_count _ _ H).
    rewrite (alen_perm _ _ (uses_middle l1 f l2)), alen_app. unfold f_used. rewrite alen_used. lia.
  - intros b Hb. rewrite Fm by done. by apply (fo_meta _ _ H).
Qed.

Lemma iappend_ok st l1 f l2 (inum : Z) p : fs_ok st (l1 ++ f :: l2) -> inum = alen l1 + 1 ->
  alen (f_data f ++ p) <= MAXFILE * BSIZE ->
  m_freeblock st + need (nblk (alen (f_data f ++ p))) - need (nblk (alen (f_data f))) <= FSSIZE ->
  exists f' st', iappend inum p st = Ret tt st' /\ fs_ok st' (l1 ++ f' :: l2) /\ f_type f' = f_type f /\ f_data f' = f_data f ++ p /\
    m_freeblock st' = m_freeblock st + need (nblk (alen (f_data f ++ p))) - need (nblk (alen (f_data f))).
Proof.
  intros H Hi Hm Hc. pose proof (fs_pool _ _ _ _ H) as Hp. destruct (fo_node _ _ H (length l1) f) as [Hn [Hrep Hty Hnl Hsz Hbl]]; [by rewrite list_lookup_middle|].
  pose proof (fo_max _ _ H) as Hmax. rewrite alen_app, alen_cons in Hmax. pose proof (alen_nonneg l1). pose proof (alen_nonneg l2). pose proof (alen_nonneg (f_data f ++ p)).
  destruct (append_loop_ok (length p) st (f_din f) (f_data f) (f_blocks f) _ p Hp Hbl) as (d' & blocks' & st1 & Hl & Hp1 & Hb1 & Hgr); [lia|done|done|].
  assert (Hn32 : alen (f_data f ++ p) < 2 ^ 32) by (rewrite maxfile_val in Hm; unfold BSIZE in Hm; lia).
  eexists _, _. split_and!; [|by eapply fs_grown|done|done|].
  - unfold iappend. change (Z.of_nat (length l1)) with (alen l1) in Hn. rewrite <- Hi in Hn.
    run rinode_ok; [|apply H|lia]. rewrite Hn, Hsz. run Hl. apply winode_ok; [apply Hp1|lia].
  - cbn. rewrite (gr_count _ _ _ _ _ _ Hgr). by rewrite Hb1, Hbl.
Qed.

Definition empty_node (ty : Z) : fnode := mkf ty [] (mkdinode ty 0 0 1 0 (replicate (Z.to_nat (NDIRECT + 1)) 0)) [].

Lemma empty_rep s (ty : Z) : 0 <= ty < 2 ^ 16 -> frep s (empty_node ty).
Proof.
  intros Ht. split; try done. split; cbn [f_din f_data f_blocks empty_node d_addrs]; try done.
  - split; try done. apply Forall_replicate. lia.
  - intros j Hj. unfold NDIRECT in Hj. rewrite aget_replicate by (unfold NDIRECT; lia). unfold blk_at. by rewrite aget_None by (unfold alen; cbn; lia).
  - unfold alen. cbn [length]. intros k Hk. lia.
Qed.

Lemma uses_snoc l (ty : Z) : uses (l ++ [empty_node ty]) = uses l.
Proof. unfold uses. rewrite fmap_app, concat_app. cbn. by rewrite !app_nil_r. Qed.

Lemma ialloc_ok st l (ty : Z) : fs_ok st l -> alen l + 1 < NINODES -> 0 <= ty < 2 ^ 16 ->
  exists st', Mkfs.ialloc ty st = Ret (alen l + 1) st' /\ fs_ok st' (l ++ [empty_node ty]) /\ m_freeblock st' = m_freeblock st.
Proof.
  intros H Hl Ht. pose proof (alen_nonneg l). destruct H as [Hg Hi Hm Hn Hun Hnd Hr Hf Hz Hc Hme]. pose proof (empty_rep (m_sect st) ty Ht) as He.
  set (d := f_din (empty_node ty)) in *. assert (Hd : dinode_ok d) by apply He.
  exists (mkimage (put_node (m_sect st) (alen l + 1) d) (alen l + 2) (m_freeblock st)). split; [|split; [|done]].
  - unfold Mkfs.ialloc. mstep. rewrite Hi. mstep. run winode_ok; [|done|lia]. unfold upd; cbn. rewrite Hi. do 2 f_equal. unfold NINODES in *. rewrite u32_small; lia.
  - assert (Hlow : forall b, nmeta <= b -> sect (put_node (m_sect st) (alen l + 1) d) b = sect (m_sect st) b).
    { intros b Hb. rewrite nmeta_val in Hb. apply sect_put; [done|lia|lia]. }
    split; cbn [m_sect m_freeinode m_freeblock]; rewrite ?uses_snoc, ?alen_app; try done.
    + apply good_put; done || lia.
    + change (alen [empty_node ty]) with 1. lia.
    + intros i g Hlk. destruct (decide (i < length l)%nat) as [Hlt|Hge].
      * rewrite lookup_app_l in Hlk by done. destruct (Hn i g Hlk) as [Hn1 Hn2]. split.
        -- rewrite node_put by (done || unfold alen in *; lia). rewrite decide_False by (unfold alen in *; lia). done.
        -- eapply frep_frame; [done|]. intros b Hb. apply Hlow. by eapply Hr, elem_of_uses.
      * assert (i = length l) as -> by (apply lookup_lt_Some in Hlk; rewrite length_app in Hlk; cbn in Hlk; lia).
        rewrite list_lookup_middle in Hlk by done. injection Hlk as <-. change (Z.of_nat (length l)) with (alen l).
        rewrite node_put by (done || lia). rewrite decide_True by done. split; [done|by apply empty_rep].
    + change (alen [empty_node ty]) with 1. intros i Hi'. rewrite node_put by (done || lia). rewrite decide_False by lia. apply Hun. lia.
    + intros b Hb. rewrite Hlow by lia. by apply Hz.
    + intros b Hb. rewrite sect_put by (done || lia). by apply Hme.
Qed.

(** What [read] gives until it gives nothing. *)
Fixpoint upto_eof (pieces : list (list Z)) : list Z :=
  match pieces with
  | [] => []
  | p :: pieces' => if 0 <? alen p then p ++ upto_eof pieces' else []
  end.

Definition cost (n : Z) : Z := need (nblk n).
Lemma cost_mono (n m : Z) : n <= m -> cost n <= cost m.
Proof. intros H. by apply need_mono, nblk_mono. Qed.
Lemma cost_nonneg (n : Z) : 0 <= n -> 0 <= cost n.
Proof. intros H. apply (cost_mono 0) in H. done. Qed.

Lemma append_all_ok pieces : forall st l1 f (inum : Z), fs_ok st (l1 ++ [f]) -> inum = alen l1 + 1 ->
  let data := f_data f ++ upto_eof pieces in
  alen data <= MAXFILE * BSIZE -> m_freeblock st + cost (alen data) - cost (alen (f_data f)) <= FSSIZE ->
  exists f' st', append_all inum pieces st = Ret tt st' /\ fs_ok st' (l1 ++ [f']) /\ f_type f' = f_type f /\ f_data f' = data /\
    m_freeblock st' = m_freeblock st + cost (alen data) - cost (alen (f_data f)).
Proof.
  induction pieces as [|p pieces IH]; intros st l1 f inum H Hi data Hm Hc; unfold data in *; cbn [upto_eof append_all] in *.
  - exists f, st. rewrite app_nil_r in *. split_and!; done || lia.
  - destruct (Z.ltb_spec 0 (alen p)) as [Hp|Hp].
    2:{ exists f, st. rewrite app_nil_r in *. split_and!; done || lia. }
    rewrite app_assoc in *. pose proof (alen_nonneg (upto_eof pieces)).
    pose proof (cost_mono (alen (f_data f ++ p)) (alen ((f_data f ++ p) ++ upto_eof pieces)) ltac:(rewrite (alen_app _ (upto_eof _)); lia)).
    destruct (iappend_ok st l1 f [] inum p H Hi) as (f1 & st1 & E1 & K1 & T1 & D1 & F1); [rewrite alen_app in Hm; lia|unfold cost in *; lia|].
    destruct (IH st1 l1 f1 inum K1 Hi) as (f2 & st2 & E2 & K2 & T2 & D2 & F2); [by rewrite D1|rewrite D1; unfold cost in *; lia|].
    exists f2, st2. rewrite D1 in *. split_and!; try congruence; [by run E1|]. unfold cost in *. lia.
Qed.

(** The entries of the root directory. *)
Fixpoint dirents (inum : Z) (names : list (list Z)) : list Z :=
  match names with
  | [] => []
  | name :: names' => dirent (inum mod 2 ^ 16) (strip name) ++ dirents (inum + 1) names'
  end.

Lemma alen_dirent (i : Z) name : alen (dirent i name) = 16.
Proof.
  unfold dirent. rewrite alen_app, alen_le. unfold alen. rewrite length_take, length_app, length_replicate. unfold DIRSIZ. lia.
Qed.
Lemma alen_dirents names : forall (i : Z), alen (dirents i names) = 16 * alen names.
Proof. induction names as [|n names IH]; intros i; [done|]. cbn [dirents]. rewrite alen_app, alen_dirent, IH, alen_cons. lia. Qed.

Notation file := (list Z * option (list (list Z)))%type.
Definition contents (fl : list file) : list (list Z) := (fun x : file => upto_eof (default [] x.2)) <$> fl.
Definition total (cs : list (list Z)) : Z := foldr (fun c (n : Z) => cost (alen c) + n) 0 cs.

(** A file [mkfs] takes: a plain name, and it can be read. *)
Record given (f : file) : Prop := {
  gv_name : existsb (Z.eqb 47) f.1 = false;
  gv_open : is_Some f.2;
  gv_size : alen (upto_eof (default [] f.2)) <= MAXFILE * BSIZE }.

Lemma total_nonneg cs : 0 <= total cs.
Proof. induction cs as [|c cs IH]; [done|]; cbn [total foldr]; fold (total cs). pose proof (cost_nonneg (alen c) (alen_nonneg c)). lia. Qed.

Definition summary (f : fnode) : Z * list Z := (f_type f, f_data f).

Lemma add_files_ok fl : forall st root l, fs_ok st (root :: l) -> Forall given fl -> alen l + 1 + alen fl < NINODES ->
  let data := f_data root ++ dirents (alen l + 2) fl.*1 in
  alen data <= MAXFILE * BSIZE ->
  m_freeblock st + cost (alen data) - cost (alen (f_data root)) + total (contents fl) <= FSSIZE ->
  exists root' l' st', add_files 1 fl st = Ret tt st' /\ fs_ok st' (root' :: l') /\ f_type root' = f_type root /\ f_data root' = data /\
    (summary <$> l') = (summary <$> l) ++ ((fun c => (T_FILE, c)) <$> contents fl).
Proof.
  induction fl as [|[name content] fl IH]; intros st root l H Hg Hl data Hm Hc; subst data; cbn [fmap list_fmap dirents add_files contents fst] in *.
  { exists root, l, st. rewrite !app_nil_r in *. split_and!; done. }
  apply Forall_cons in Hg as [[Gn [pieces Gp] Gs] Hg]. cbn in Gn, Gp, Gs. subst content. cbn [default] in *. rewrite alen_cons in Hl.
  cbn [total foldr snd] in Hc. fold (contents fl) in *. fold (total (contents fl)) in Hc. rewrite app_assoc in *.
  pose proof (alen_nonneg l). pose proof (alen_nonneg fl). pose proof (total_nonneg (contents fl)). 
  set (de := dirent _ _) in *. assert (Hde : alen de = 16) by apply alen_dirent. assert (Ede : de = dirent ((alen l + 2) mod 2 ^ 16) (strip name)) by done. clearbody de. cbn in Hc, Gs. set (data := upto_eof pieces) in *. pose proof (cost_nonneg (alen data) (alen_nonneg data)). pose proof (alen_nonneg (dirents (alen l + 2 + 1) fl.*1)).
  pose proof (cost_mono (alen (f_data root ++ de)) (alen ((f_data root ++ de) ++ dirents (alen l + 2 + 1) fl.*1)) ltac:(rewrite (alen_app _ (dirents _ _)); lia)).
  destruct (ialloc_ok st (root :: l) T_FILE H) as (st1 & E1 & K1 & F1); [rewrite alen_cons; lia|done|].
  destruct (iappend_ok st1 [] root (l ++ [empty_node T_FILE]) 1 de K1) as (root2 & st2 & E2 & K2 & T2 & D2 & F2);
    [done|rewrite alen_app in Hm; lia|unfold cost in *; lia|].
  destruct (append_all_ok pieces st2 (root2 :: l) (empty_node T_FILE) (alen (root :: l) + 1) K2) as (f3 & st3 & E3 & K3 & T3 & D3 & F3);
    [done|done|cbn [f_data empty_node app]; fold data; change (cost (alen [])) with 0; unfold cost in *; lia|].
  cbn [f_data empty_node app] in F3, D3. fold data in F3, D3. change (cost (alen [])) with 0 in F3. unfold cost in *.
  assert (Hx : alen (l ++ [f3]) + 2 = alen l + 2 + 1) by (rewrite alen_app; change (alen [f3]) with 1; lia).
  destruct (IH st3 root2 (l ++ [f3]) K3 Hg) as (root4 & l4 & st4 & E4 & K4 & T4 & D4 & S4); rewrite ?Hx, ?D2; [lia|done|lia|].
  exists root4, l4, st4. split_and!; [|done|congruence|by rewrite D4, Hx, D2|].
  - unfold assert_. rewrite Gn. cbn [negb]. mstep. run E1. rewrite alen_cons in E3 |- *. replace (1 + alen l + 1) with (alen l + 2) in * by lia.
    rewrite <- Ede. run E2. by run E3.
  - rewrite S4, fmap_app, <- app_assoc. cbn. unfold summary at 2. rewrite T3, D3. done.
Qed.
End files.
