(* ===== verification/MkfsImage.v ===== *)
(** * The image [mkfs] makes

    Every file of the image reads back as what was given, the blocks in use are
    distinct and are the ones the bitmap marks, and the log of the image is
    empty, so that a machine can boot from it. *)

From S2P Require Import Prelude State Spinlock CString Kalloc Console Vm Message Container Proc Syscall.
From S2P Require Import Sleeplock Bio Log Words Journal Fs Mkfs MkfsBlocks MkfsSpec.
Open Scope Z_scope.

(** ** Reading a file of an image *)

Section reading.
Implicit Types (s : list (list Z)) (b k j : Z) (d : dinode) (data blocks : list Z).

(** The address of block [j] of a file; 0 is a hole. *)
Definition file_block s d j : Z :=
  if j <? NDIRECT then default 0 (aget (d_addrs d) j)
  else if ind d =? 0 then 0 else wd (sect s (ind d)) (j - NDIRECT).
Definition file_byte s d k : Z :=
  let a := file_block s d (k / BSIZE) in
  if a =? 0 then 0 else default 0 (aget (sect s a) (k mod BSIZE)).
Definition read_file s d : list Z := file_byte s d <$> seqZ 0 (d_size d).
(** The blocks of a file, the indirect one included. *)
Definition blocks_of s d : list Z := filter (fun b => b <> 0) ((file_block s d <$> seqZ 0 (nblk (d_size d))) ++ [ind d]).

Lemma file_block_rep s d data blocks j : rep s d data blocks -> 0 <= j < MAXFILE -> file_block s d j = blk_at blocks j.
Proof.
  intros [H1 H2 H3 H4 H5 H6] Hj. unfold file_block. destruct (Z.ltb_spec j NDIRECT); [by rewrite H2 by lia|].
  destruct (Z.leb_spec (alen blocks) NDIRECT).
  - rewrite H3. cbn. by rewrite blk_at_beyond by lia.
  - destruct H3 as [Hi Hw]. destruct (Z.eqb_spec (ind d) 0); [done|]. rewrite Hw; [f_equal; lia|].
    rewrite maxfile_val in Hj. change NINDIRECT with 128. unfold NDIRECT in *. lia.
Qed.

Lemma file_byte_rep s d data blocks k : rep s d data blocks -> (forall b, b ∈ blocks -> b <> 0) -> 0 <= k < MAXFILE * BSIZE ->
  file_byte s d k = default 0 (aget data k).
Proof.
  intros Hr Hn Hk. rewrite maxfile_val in Hk. unfold BSIZE in Hk. assert (Hj : 0 <= k / BSIZE < MAXFILE) by (rewrite maxfile_val; unfold BSIZE; dlia).
  unfold file_byte. rewrite (file_block_rep s d data blocks) by done. destruct (decide (k / BSIZE < alen blocks)) as [Hl|Hl].
  - destruct (blk_at_lookup blocks (k / BSIZE)) as [_ Hin]; [lia|]. destruct (Z.eqb_spec (blk_at blocks (k / BSIZE)) 0) as [E|E]; [by apply Hn in E|].
    rewrite (rp_data _ _ _ _ Hr); [done|]. unfold BSIZE in *. dlia.
  - rewrite blk_at_beyond by lia. cbn. rewrite aget_None; [done|]. pose proof (nblk_bytes _ _ (rp_cover _ _ _ _ Hr)). unfold BSIZE in *. dlia.
Qed.

Lemma read_file_rep s d data blocks (pad : nat) : rep s d data blocks -> (forall b, b ∈ blocks -> b <> 0) ->
  d_size d = alen data + Z.of_nat pad -> d_size d <= MAXFILE * BSIZE -> read_file s d = data ++ replicate pad 0.
Proof.
  intros Hr Hn Hs Hm. apply list_eq. intros i. unfold read_file. rewrite list_lookup_fmap. unfold alen in Hs.
  destruct (decide (i < length data + pad)%nat) as [Hi|Hi].
  - rewrite lookup_seqZ_lt by lia. cbn. rewrite (file_byte_rep s d data blocks) by (done || lia). rewrite Z.add_0_l, aget_nat.
    destruct (decide (i < length data)%nat) as [Hl|Hl].
    + rewrite lookup_app_l by done. by destruct (lookup_lt_is_Some_2 data i Hl) as [v ->].
    + rewrite lookup_app_r by lia. rewrite lookup_replicate_2 by lia. by rewrite lookup_ge_None_2 by lia.
  - rewrite lookup_seqZ_ge by lia. symmetry. apply lookup_ge_None_2. rewrite length_app, length_replicate. lia.
Qed.

Lemma filter_all (l : list Z) : (forall b, b ∈ l -> b <> 0) -> filter (fun b => b <> 0) l = l.
Proof.
  induction l as [|x l IH]; intros H; [done|]. rewrite filter_cons_True by (apply H; by left). rewrite IH; [done|]. intros b Hb. apply H. by right.
Qed.

Lemma blocks_of_rep s d data blocks : rep s d data blocks -> (forall b, b ∈ used d blocks -> b <> 0) ->
  alen blocks <= nblk (d_size d) <= MAXFILE -> blocks_of s d = used d blocks.
Proof.
  intros Hr Hn Hb. pose proof (alen_nonneg blocks). set (n := nblk (d_size d)) in *. unfold blocks_of. fold n.
  assert (E : (file_block s d <$> seqZ 0 n) = blocks ++ replicate (Z.to_nat (n - alen blocks)) 0).
  { apply list_eq. intros i. rewrite list_lookup_fmap. unfold alen in *. destruct (decide (Z.of_nat i < n)).
    - rewrite lookup_seqZ_lt by lia. cbn. rewrite (file_block_rep s d data blocks) by (done || lia). unfold blk_at. rewrite Z.add_0_l, aget_nat.
      destruct (decide (i < length blocks)%nat) as [Hl|Hl].
      + rewrite lookup_app_l by done. by destruct (lookup_lt_is_Some_2 blocks i Hl) as [v ->].
      + rewrite lookup_app_r by lia. rewrite lookup_replicate_2 by lia. by rewrite lookup_ge_None_2 by lia.
    - rewrite lookup_seqZ_ge by lia. symmetry. apply lookup_ge_None_2. rewrite length_app, length_replicate. lia. }
  rewrite E, !filter_app. assert (Hz : filter (fun b => b <> 0) (replicate (Z.to_nat (n - alen blocks)) 0) = []).
  { generalize (Z.to_nat (n - alen blocks)). intros m. induction m; [done|]. cbn [replicate]. by rewrite filter_cons_False by lia. }
  rewrite Hz, app_nil_r. unfold used in *. f_equal.
  - apply filter_all. intros b Hin. apply Hn, elem_of_app. by left.
  - pose proof (rp_ind _ _ _ _ Hr) as Hi. destruct (Z.leb_spec (alen blocks) NDIRECT); [by rewrite Hi|]. destruct Hi as [Hi _]. by rewrite filter_cons_True.
Qed.
End reading.

(** ** The bitmap *)

Section bitmap.
Implicit Types (buf : list Z) (k i : Z) (st : image).

Definition bit buf k : bool := Z.testbit (default 0 (aget buf (k / 8))) (k mod 8).

Lemma bit_set buf i x k : aget buf (i / 8) = Some x -> 0 <= i -> 0 <= k ->
  bit (<[Z.to_nat (i / 8) := Z.lor x (Z.shiftl 1 (i mod 8))]> buf) k = bit buf k || (k =? i).
Proof.
  intros Hx Hi Hk. pose proof (Z.mod_pos_bound i 8 ltac:(done)). pose proof (Z.mod_pos_bound k 8 ltac:(done)).
  unfold bit. rewrite aget_insert by (by apply aget_lt in Hx). case_decide as E.
  - rewrite <- E, Hx. cbn [default from_option id]. unfold id. rewrite Z.lor_spec, Z.shiftl_1_l, Z.pow2_bits_eqb by lia. f_equal.
    destruct (Z.eqb_spec (i mod 8) (k mod 8)), (Z.eqb_spec k i); try done; subst; try done. dlia.
  - destruct (Z.eqb_spec k i); [subst; done|]. by rewrite orb_false_r.
Qed.

Lemma set_bits_ok n : forall i buf st, 0 <= i -> i + Z.of_nat n <= 8 * alen buf ->
  exists buf', set_bits n i buf st = Ret buf' st /\ alen buf' = alen buf /\
    forall k, 0 <= k -> bit buf' k = bit buf k || ((i <=? k) && (k <? i + Z.of_nat n)).
Proof.
  induction n as [|n IH]; intros i buf st Hi Hn; cbn [set_bits].
  - exists buf. split_and!; try done. intros k Hk. destruct (Z.leb_spec i k), (Z.ltb_spec k (i + Z.of_nat 0)); cbn; rewrite ?orb_false_r; done || lia.
  - destruct (aget_is_Some buf (i / 8)) as [x Hx]; [dlia|]. run (rd_Some "buf" buf (i / 8) x st Hx). run wr_Some; [|dlia].
    destruct (IH (i + 1) (<[Z.to_nat (i / 8) := Z.lor x (Z.shiftl 1 (i mod 8))]> buf) st) as (buf' & E & El & Eb); [lia|rewrite alen_insert; lia|].
    exists buf'. rewrite alen_insert in El. split_and!; try done. intros k Hk. rewrite Eb, (bit_set _ _ x) by done. rewrite <- orb_assoc. f_equal.
    destruct (Z.eqb_spec k i), (Z.leb_spec (i + 1) k), (Z.leb_spec i k), (Z.ltb_spec k (i + 1 + Z.of_nat n)), (Z.ltb_spec k (i + Z.of_nat (S n))); cbn; done || lia.
Qed.

Lemma bit_zeroes k : 0 <= k -> bit zeroes k = false.
Proof.
  intros Hk. unfold bit, zeroes, aget. destruct (Z.leb_spec 0 (k / 8)); [|dlia].
  destruct (decide (Z.to_nat (k / 8) < Z.to_nat BSIZE)%nat).
  - rewrite lookup_replicate_2 by done. apply Z.testbit_0_l.
  - rewrite lookup_ge_None_2 by (rewrite length_replicate; lia). apply Z.testbit_0_l.
Qed.

Lemma balloc_ok st (n : Z) : good (m_sect st) -> 0 <= n < BSIZE * 8 ->
  exists bs, Mkfs.balloc n st = Ret tt (mkimage (<[58%nat := bs]> (m_sect st)) (m_freeinode st) (m_freeblock st)) /\ alen bs = BSIZE /\
    forall k, 0 <= k -> bit bs k = (k <? n).
Proof.
  intros Hg Hn. unfold BSIZE in Hn. destruct (set_bits_ok (Z.to_nat n) 0 zeroes st) as (bs & E & El & Eb); [done| |].
  { change (alen zeroes) with 512. lia. }
  exists bs. split_and!; [|done|].
  - unfold Mkfs.balloc, assert_. destruct (Z.ltb_spec n (BSIZE * 8)); [|unfold BSIZE in *; lia]. mstep. run E. by apply (wsect_ok 58).
  - intros k Hk. rewrite Eb, bit_zeroes by done. cbn [orb]. rewrite Z.add_0_l, Z2Nat.id by lia. destruct (Z.leb_spec 0 k); done || lia.
Qed.
End bitmap.

(** ** The image *)

Notation file := (list Z * option (list (list Z)))%type.

Definition root_data (fl : list file) : list Z := dirent 1 [46] ++ dirent 1 [46; 46] ++ dirents 2 fl.*1.

(** [free] is the first block that is in no file. *)
Record formatted (fl : list file) (s : list (list Z)) (free : Z) : Prop := {
  fm_super : let b := sect s 1 in mksb (wd b 0) (wd b 1) (wd b 2) (wd b 3) (wd b 4) (wd b 5) (wd b 6) = sb;
  fm_boot : bootable (sb_logstart sb) (sb_nlog sb) s;
  fm_root : let d := node s ROOTINO in d_type d = T_DIR /\ exists pad, read_file s d = root_data fl ++ replicate pad 0;
  fm_file : forall i f, fl !! i = Some f ->
    let d := node s (Z.of_nat i + 2) in d_type d = T_FILE /\ d_nlink d = 1 /\ read_file s d = upto_eof (default [] f.2);
  fm_unused : forall i, alen fl + 2 <= i < NINODES -> d_type (node s i) = 0;
  fm_blocks : concat ((fun i => blocks_of s (node s i)) <$> seqZ 1 (alen fl + 1)) ≡ₚ seqZ nmeta (free - nmeta);
  fm_bitmap : forall b, 0 <= b < FSSIZE -> bit (sect s (sb_bmapstart sb)) b = (b <? free);
  fm_free : nmeta <= free <= FSSIZE }.

Section final.
Implicit Types (s : list (list Z)) (b : Z) (st : image) (l : list fnode) (fl : list file).

Lemma perm_range (l : list Z) (lo : Z) : NoDup l -> (forall b, b ∈ l -> lo <= b < lo + alen l) -> l ≡ₚ seqZ lo (alen l).
Proof.
  intros Hn Hr. apply submseteq_length_Permutation.
  - apply NoDup_submseteq; [done|]. intros b Hb. apply elem_of_seqZ. by apply Hr.
  - rewrite length_seqZ. unfold alen. lia.
Qed.

(** The blank image. *)
Lemma blank_loop (n : nat) : forall (l : nat) st, m_sect st = replicate l zeroes ->
  each n (Z.of_nat l) (fun i => wsect i zeroes) st = Ret tt (mkimage (replicate (l + n) zeroes) (m_freeinode st) (m_freeblock st)).
Proof.
  induction n as [|n IH]; intros l st Hs; cbn [each].
  - rewrite Nat.add_0_r, <- Hs. by destruct st.
  - unfold wsect. mstep. replace (Z.of_nat l + 1) with (Z.of_nat (S l)) by lia. rewrite (IH (S l)); [do 3 f_equal; lia|].
    transitivity (put_sect (m_sect st) (Z.of_nat l) zeroes); [done|]. unfold put_sect. rewrite Hs. unfold alen. rewrite length_replicate.
    destruct (Z.ltb_spec (Z.of_nat l) (Z.of_nat l)); [lia|]. rewrite Z.sub_diag. change (replicate (Z.to_nat 0) zeroes ++ [zeroes]) with [zeroes]. by rewrite replicate_S_end.
Qed.

Definition blank : list (list Z) := <[1%nat := superblock_sect]> (replicate (Z.to_nat FSSIZE) zeroes).

Lemma sect_blank b : 0 <= b < FSSIZE -> sect blank b = if decide (b = 1) then superblock_sect else zeroes.
Proof.
  intros Hb. unfold sect, blank. rewrite (aget_insert _ 1) by done. destruct (decide (1 = b)), (decide (b = 1)); try lia; [done|].
  by rewrite aget_replicate by lia.
Qed.

Lemma good_zeroes : good (replicate (Z.to_nat FSSIZE) zeroes).
Proof. split; [done|]. intros b Hb. unfold sect. by rewrite aget_replicate by lia. Qed.

Lemma blank_ok : fs_ok (mkimage blank 1 nmeta) [].
Proof.
  split; cbn [m_sect m_freeinode m_freeblock]; try done.
  - split; [done|]. intros b Hb. rewrite sect_blank by done. by case_decide.
  - intros i Hi. change (alen []) with 0 in Hi. pose proof (iblock_range i ltac:(lia)). pose proof (inode_at_range i). unfold node. rewrite sect_blank by (unfold FSSIZE; lia).
    rewrite decide_False by lia. unfold slice, zeroes. rewrite drop_replicate, take_replicate. unfold BSIZE in *.
    by replace (Z.to_nat 64 `min` (Z.to_nat 512 - Z.to_nat (inode_at i)))%nat with 64%nat by lia.
  - apply NoDup_nil_2.
  - intros b Hb. by apply elem_of_nil in Hb.
  - intros b Hb. rewrite nmeta_val in Hb. rewrite sect_blank by lia. by rewrite decide_False by lia.
  - intros b Hb. apply sect_blank. unfold FSSIZE. lia.
Qed.

(** The last two steps write the inode of the root and the bitmap. *)
Section finish.
Context (st : image) (root : fnode) (l : list fnode) (bs : list Z) (pad : nat).
Context (H : fs_ok st (root :: l)) (Hbs : alen bs = BSIZE) (Hbits : forall k, 0 <= k -> bit bs k = (k <? m_freeblock st)).
Let d : dinode := with_size (f_din root) (alen (f_data root) + Z.of_nat pad).
Let s' : list (list Z) := <[58%nat := bs]> (put_node (m_sect st) 1 d).
Context (Hsz : alen (f_data root) + Z.of_nat pad <= MAXFILE * BSIZE).

Lemma finish_dinode : dinode_ok d.
Proof.
  destruct (fo_node _ _ H 0 root eq_refl) as [_ Hr]. apply with_size_ok; [apply Hr|]. rewrite maxfile_val in Hsz. unfold BSIZE in Hsz.
  pose proof (alen_nonneg (f_data root)). lia.
Qed.

Lemma finish_put : good (put_node (m_sect st) 1 d).
Proof. apply good_put; [apply H|done|apply finish_dinode]. Qed.
Lemma finish_good : good s'.
Proof. apply (good_insert _ 58); [apply finish_put|done|done]. Qed.

Lemma finish_sect b : b < 32 \/ nmeta <= b -> sect s' b = sect (m_sect st) b.
Proof.
  rewrite nmeta_val. intros Hb. unfold s'. rewrite (sect_insert _ 58) by (done || apply finish_put).
  rewrite decide_False by lia. apply sect_put; [apply H|done|lia].
Qed.

Lemma finish_node i : 0 <= i < NINODES -> node s' i = if decide (1 = i) then d else node (m_sect st) i.
Proof.
  intros Hi. pose proof (iblock_range i Hi). rewrite <- node_put by (apply H || done || apply finish_dinode). unfold node at 1, s'.
  rewrite (sect_insert _ 58) by (done || apply finish_put). by rewrite decide_False by lia.
Qed.

Lemma finish_used i f : (root :: l) !! i = Some f -> forall b, b ∈ f_used f -> b <> 0 /\ sect s' b = sect (m_sect st) b.
Proof.
  intros Hl b Hb. pose proof (fo_range _ _ H b (elem_of_uses _ _ _ _ Hl Hb)) as Hr. split; [rewrite nmeta_val in Hr; lia|]. apply finish_sect. lia.
Qed.

Lemma finish_rep i f : (root :: l) !! i = Some f -> rep s' (node s' (Z.of_nat i + 1)) (f_data f) (f_blocks f) /\
  d_type (node s' (Z.of_nat i + 1)) = f_type f /\ d_nlink (node s' (Z.of_nat i + 1)) = 1 /\ used (node s' (Z.of_nat i + 1)) (f_blocks f) = f_used f /\
  d_size (node s' (Z.of_nat i + 1)) = alen (f_data f) + (if decide (i = 0%nat) then Z.of_nat pad else 0).
Proof.
  intros Hl. destruct (fo_node _ _ H i f Hl) as [Hn [Hr Ht Hk Hs Hb]]. pose proof (fo_max _ _ H) as Hm. pose proof (lookup_lt_Some _ _ _ Hl) as Hlt.
  assert (Hf : rep s' (f_din f) (f_data f) (f_blocks f)) by (eapply rep_frame; [done|]; intros b Hu; by eapply finish_used).
  unfold alen in Hm. rewrite finish_node by lia. destruct (decide (i = 0%nat)) as [->|Hne].
  - injection Hl as <-. rewrite decide_True by done. split_and!; try done. apply rep_size; [done|]. apply finish_dinode.
  - rewrite decide_False by lia. rewrite Hn. split_and!; done || lia.
Qed.

Lemma finish_read i f : (root :: l) !! i = Some f -> alen (f_data f) <= MAXFILE * BSIZE ->
  read_file s' (node s' (Z.of_nat i + 1)) = f_data f ++ (if decide (i = 0%nat) then replicate pad 0 else []).
Proof.
  intros Hl Hm. destruct (finish_rep i f Hl) as (Hr & _ & _ & Hu & Hs).
  assert (Hnz : forall b, b ∈ f_blocks f -> b <> 0) by (intros b Hb; apply (finish_used i f Hl); apply elem_of_app; by left).
  case_decide; subst.
  - injection Hl as <-. eapply read_file_rep; [done|done|done|]. rewrite Hs. done.
  - apply (read_file_rep s' _ _ _ 0 Hr Hnz); [by rewrite Hs|lia].
Qed.

Lemma nblk_max (n : Z) : n <= MAXFILE * BSIZE -> nblk n <= MAXFILE.
Proof. intros Hn. apply nblk_mono in Hn. by change (nblk (MAXFILE * BSIZE)) with MAXFILE in Hn. Qed.

Lemma finish_blocks : (forall i f, (root :: l) !! i = Some f -> alen (f_data f) <= MAXFILE * BSIZE) ->
  concat ((fun i => blocks_of s' (node s' i)) <$> seqZ 1 (alen (root :: l))) = uses (root :: l).
Proof.
  intros Hm. unfold uses. f_equal. apply list_eq. intros i. rewrite !list_lookup_fmap. destruct ((root :: l) !! i) as [f|] eqn:Hl.
  - rewrite lookup_seqZ_lt by (apply lookup_lt_Some in Hl; unfold alen; lia). cbn [fmap option_fmap option_map]. f_equal.
    destruct (finish_rep i f Hl) as (Hr & _ & _ & Hu & Hs). rewrite <- Hu, Z.add_comm. destruct (fo_node _ _ H i f Hl) as [_ Hf].
    eapply blocks_of_rep; [done|rewrite Hu; intros b Hb; by eapply finish_used|]. rewrite (fr_blocks _ _ Hf), Hs.
    split; [apply nblk_mono; case_decide; lia|]. apply nblk_max. case_decide; subst; [by injection Hl as <-|]. rewrite Z.add_0_r. by eapply Hm.
  - rewrite lookup_seqZ_ge; [done|]. apply lookup_ge_None_1 in Hl. unfold alen. lia.
Qed.

Lemma finish_boot : bootable 2 30 s'.
Proof.
  assert (Hz : at_ s' 2 = zeroes).
  { change (at_ s' 2) with (sect s' 2). rewrite finish_sect by lia. by rewrite (fo_meta _ _ H) by lia. }
  assert (He : entries (at_ s' 2) = []) by (by rewrite Hz).
  pose proof finish_good as [Hgl Hgb]. split; rewrite ?He.
  - split; try done; [apply NoDup_nil_2|intros m Hm; by apply elem_of_nil in Hm|by rewrite Hgl|by rewrite Hgl].
  - by rewrite Hz.
  - apply Forall_forall. intros b Hb. apply list_elem_of_lookup in Hb as [i Hi]. specialize (Hgb (Z.of_nat i)). unfold sect in Hgb.
    rewrite aget_nat, Hi in Hgb. apply Hgb. apply lookup_lt_Some in Hi. unfold alen in Hgl. lia.
Qed.

Lemma finish_formatted (fl : list file) : f_type root = T_DIR -> f_data root = root_data fl ->
  (summary <$> l) = (fun c => (T_FILE, c)) <$> contents fl -> Forall given fl -> formatted fl s' (m_freeblock st).
Proof.
  intros Ht Hd Hsum Hg. assert (Hlen : alen l = alen fl).
  { apply (f_equal length) in Hsum. unfold contents in Hsum. rewrite !length_fmap in Hsum. unfold alen. lia. }
  assert (Hfile : forall i x, fl !! i = Some x -> exists f, l !! i = Some f /\ f_type f = T_FILE /\ f_data f = upto_eof (default [] x.2)).
  { intros i x Hi. apply (f_equal (fun m => m !! i)) in Hsum. unfold contents in Hsum. rewrite !list_lookup_fmap, Hi in Hsum.
    destruct (l !! i) as [f|]; [|done]. injection Hsum as E1 E2. eauto. }
  assert (Hmax : forall i f, (root :: l) !! i = Some f -> alen (f_data f) <= MAXFILE * BSIZE).
  { intros [|i] f Hl; [injection Hl as <-; lia|]. change ((root :: l) !! S i) with (l !! i) in Hl. assert (Hi : (i < length fl)%nat) by (apply lookup_lt_Some in Hl; unfold alen in Hlen; lia).
    apply lookup_lt_is_Some_2 in Hi as [x Hx]. destruct (Hfile i x Hx) as (f' & Hl' & _ & Hd'). rewrite Hl in Hl'. injection Hl' as <-.
    rewrite Hd'. rewrite Forall_lookup in Hg. by apply (Hg i x Hx). }
  pose proof (fo_count _ _ H) as Hc. pose proof (fo_free _ _ H) as Hf. split; try done.
  - cbv zeta. rewrite finish_sect by lia. rewrite (fo_meta _ _ H) by lia. done.
  - apply finish_boot.
  - destruct (finish_rep 0 root eq_refl) as (_ & Ht' & _). split; [by rewrite <- Ht|]. exists pad. rewrite <- Hd.
    apply (finish_read 0 root eq_refl). by apply (Hmax 0%nat).
  - intros i x Hi. destruct (Hfile i x Hi) as (f & Hl & Tf & Df). destruct (finish_rep (S i) f Hl) as (_ & Ht' & Hk' & _).
    replace (Z.of_nat i + 2) with (Z.of_nat (S i) + 1) by lia. split_and!; [congruence|done|]. rewrite (finish_read (S i) f Hl) by (by apply (Hmax (S i))).
    rewrite decide_False by done. by rewrite app_nil_r.
  - intros i Hi. pose proof (alen_nonneg fl). rewrite finish_node by lia. rewrite decide_False by lia. apply (fo_unused _ _ H). rewrite alen_cons. lia.
  - rewrite <- Hlen. replace (alen l + 1) with (alen (root :: l)) by (rewrite alen_cons; lia). rewrite finish_blocks by done.
    replace (m_freeblock st - nmeta) with (alen (uses (root :: l))) by lia. apply perm_range; [apply H|]. intros b Hb. apply (fo_range _ _ H) in Hb. lia.
  - intros b Hb. change (sb_bmapstart sb) with 58. unfold s'. rewrite (sect_insert _ 58) by (done || apply finish_put). rewrite decide_True by done. apply Hbits. lia.
Qed.
End finish.

(** C7. [mkfs] builds a file system from files that fit.  The superblock
    describes the layout, the log is empty so that recovery can start, the root
    directory lists the files, every file reads back byte for byte, the other
    inodes are free, no block belongs to two files, and the bitmap marks
    exactly the blocks in use. *)
Theorem mkfs_formats fl : Forall given fl -> alen fl + 1 < NINODES ->
  nmeta + cost (16 * (alen fl + 2)) + total (contents fl) <= FSSIZE ->
  exists st, mkfs fl image0 = Ret tt st /\ formatted fl (m_sect st) (m_freeblock st).
Proof.
  intros Hg Hn Hc. pose proof (alen_nonneg fl). pose proof (total_nonneg (contents fl)). rewrite nmeta_val in Hc. unfold NINODES in Hn.
  assert (Hm : forall n : Z, n <= 200 -> 16 * n <= MAXFILE * BSIZE) by (intros n Hn'; rewrite maxfile_val; unfold BSIZE; lia).
  assert (Hd : alen (root_data fl) = 16 * (alen fl + 2)) by (unfold root_data; rewrite !alen_app, !alen_dirent, alen_dirents; unfold alen; rewrite length_fmap; lia).
  destruct (ialloc_ok (mkimage blank 1 nmeta) [] T_DIR blank_ok) as (st1 & E1 & K1 & F1); [done|done|].
  destruct (iappend_ok st1 [] (empty_node T_DIR) [] 1 (dirent 1 [46]) K1) as (r2 & st2 & E2 & K2 & T2 & D2 & F2); [done|done|by rewrite F1|].
  assert (F2' : m_freeblock st2 = 60) by (by rewrite F2, F1). clear F1 F2.
  destruct (iappend_ok st2 [] r2 [] 1 (dirent 1 [46; 46]) K2) as (r3 & st3 & E3 & K3 & T3 & D3 & F3); [done|by rewrite D2|by rewrite D2, F2'|].
  assert (F3' : m_freeblock st3 = 60) by (by rewrite F3, D2, F2'). clear F2' F3. rewrite D2 in D3.
  assert (D3' : f_data r3 ++ dirents (alen (@nil fnode) + 2) fl.*1 = root_data fl) by (rewrite D3; unfold root_data; cbn [f_data empty_node app]; by rewrite <- app_assoc).
  assert (C3 : cost (alen (f_data r3)) = 1) by (by rewrite D3).
  destruct (add_files_ok fl st3 r3 [] K3 Hg) as (r4 & l4 & st4 & E4 & K4 & T4 & D4 & S4); rewrite ?D3', ?Hd, ?F3', ?C3;
    [change (alen (@nil fnode)) with 0; unfold NINODES; lia|apply Hm; lia|lia|]. rewrite D3' in D4.
  destruct (fo_node _ _ K4 0 r4 eq_refl) as [N4 R4]. pose proof (alen_nonneg (f_data r4)) as Hpos. pose proof (fo_free _ _ K4) as Hf4. rewrite nmeta_val in Hf4.
  set (off := (alen (f_data r4) / BSIZE + 1) * BSIZE). assert (Hoff : alen (f_data r4) <= off <= 3712) by (unfold off; rewrite D4, Hd; unfold BSIZE; dlia).
  destruct (balloc_ok (mkimage (put_node (m_sect st4) 1 (with_size (f_din r4) off)) (m_freeinode st4) (m_freeblock st4)) (m_freeblock st4)) as (bs & Eb & Lb & Bb).
  { apply good_put; [apply K4|done|]. apply with_size_ok; [apply R4|lia]. } { unfold BSIZE, FSSIZE in *. lia. }
  eexists. split.
  - unfold mkfs. mstep. run (blank_loop 1000 0); [|done]. run wsect_ok; [|apply good_zeroes|done].
    change (mkimage _ _ _) with (mkimage blank 1 nmeta). run E1. unfold assert_. mstep.
    run E2. run E3. run E4. run rinode_ok; [|apply K4|done]. change (alen (@nil fnode) + 1) with 1. change (Z.of_nat 0 + 1) with 1 in N4.
    rewrite N4, (fr_size _ _ R4). fold off. rewrite u32_small by lia. fold (with_size (f_din r4) off). run winode_ok; [|apply K4|done]. mstep. apply Eb.
  - cbn [m_sect m_freeblock]. replace off with (alen (f_data r4) + Z.of_nat (Z.to_nat (off - alen (f_data r4)))) by lia.
    apply (finish_formatted st4 r4 l4 bs); try done; [rewrite maxfile_val; unfold BSIZE; lia|by rewrite T4, T3, T2].
Qed.
End final.

(** The hypotheses of [mkfs_formats] hold of a small program and an empty file. *)
Lemma mkfs_formats_witness :
  let fl := [([95; 99; 97; 116], Some [[127; 69; 76; 70]; [1; 2; 3]]); ([82; 69; 65; 68; 77; 69], Some [])] in
  exists st, mkfs fl image0 = Ret tt st /\ formatted fl (m_sect st) (m_freeblock st).
Proof.
  apply mkfs_formats; [|done|done]. repeat constructor; try done; by eexists.
Defined.
