(* ===== verification/Network.v ===== *)
(** * Processes that talk through pipes and mailboxes

    The distributed programs fork processes that exchange messages of a fixed
    size through pipes and through the kernel's mailboxes.  A program is a tree
    of the system calls it makes; a network runs several of them, one system
    call of one process at a time, in any order.  A pipe holds 512 bytes and
    passes messages on in order ([pipe_refines_stream]), a mailbox takes messages
    from everyone ([messages_refine_mailboxes]).

    A receive from a mailbox is one step.  [sys_recv] first tests the queue and
    then sleeps, with no lock held in between, so that it can miss the wakeup of a
    message sent just then; that is not in the model.  A message is what the
    program sends: the kernel always copies 60 bytes, and what it writes beyond the
    receiver's variable is not in the model either. *)

From S2P Require Import Prelude.
Open Scope Z_scope.

(** ** Programs *)

(** A pipe is an element of an array of pipes. *)
Abbreviation pipe := (string * Z)%type.

Inductive io (M A : Type) : Type :=
| Done (a : A)
| Crash (what : string)
| Cut
| Write (p : pipe) (m : M) (k : io M A)
| Read (p : pipe) (k : M -> io M A)
| Post (to : Z) (m : M) (k : io M A)
| Take (k : M -> io M A)
| Uptime (k : Z -> io M A)
| Say (o : list Z) (k : io M A)
| Sleep (n : Z) (k : io M A)
| Wait (k : io M A).
Arguments Done {M A} a.
Arguments Crash {M A} what.
Arguments Cut {M A}.
Arguments Write {M A} p m k.
Arguments Read {M A} p k.
Arguments Post {M A} to m k.
Arguments Take {M A} k.
Arguments Uptime {M A} k.
Arguments Say {M A} o k.
Arguments Sleep {M A} n k.
Arguments Wait {M A} k.

Fixpoint io_bind {M A B} (f : A -> io M B) (x : io M A) : io M B :=
  match x with
  | Done a => f a
  | Crash w => Crash w
  | Cut => Cut
  | Write p m k => Write p m (io_bind f k)
  | Read p k => Read p (fun m => io_bind f (k m))
  | Post to m k => Post to m (io_bind f k)
  | Take k => Take (fun m => io_bind f (k m))
  | Uptime k => Uptime (fun t => io_bind f (k t))
  | Say o k => Say o (io_bind f k)
  | Sleep n k => Sleep n (io_bind f k)
  | Wait k => Wait (io_bind f k)
  end.
#[export] Instance io_mret {M} : MRet (io M) := fun A a => Done a.
#[export] Instance io_mbind {M} : MBind (io M) := fun A B f x => io_bind f x.
Notation "m ;; k" := (mbind (M := io _) (fun _ => k) m) (at level 100, right associativity, only parsing).

(** The system calls. *)
Section calls.
Context {M : Type}.
Definition p_write (p : pipe) (m : M) : io M unit := Write p m (Done tt).
Definition p_read (p : pipe) : io M M := Read p Done.
Definition p_send (to : Z) (m : M) : io M unit := Post to m (Done tt).
Definition p_recv : io M M := Take Done.
Definition p_uptime : io M Z := Uptime Done.
Definition p_print (o : list Z) : io M unit := Say o (Done tt).
Definition p_sleep (n : Z) : io M unit := Sleep n (Done tt).
Definition p_wait : io M unit := Wait (Done tt).

(** An array access. *)
Definition p_at {A} (what : string) (l : list A) (i : Z) : io M A :=
  match aget l i with Some x => Done x | None => Crash what end.
Definition p_set {A} (what : string) (l : list A) (i : Z) (x : A) : io M (list A) :=
  match aset l i x with Some l' => Done l' | None => Crash what end.

(** [for(t = lo; t < lo + n; t++) s = body(t, s);] *)
Fixpoint p_for {S} (n : nat) (t : Z) (body : Z -> S -> io M S) (s : S) : io M S :=
  match n with
  | O => Done s
  | S n' => s' ← body t s; p_for n' (t + 1) body s'
  end.
(** [for(t = lo; t < hi; t++)] *)
Definition p_range {S} (lo hi : Z) (body : Z -> S -> io M S) (s : S) : io M S := p_for (Z.to_nat (hi - lo)) lo body s.
End calls.

(** ** Networks *)

Section net.
Context {M : Type} (size : M -> Z).

(** The processes, the pipes, the mailboxes, the clock, how many processes have
    been waited for, and what has been printed. *)
Record net := mknet {
  n_progs : list (io M unit);
  n_pipes : gmap pipe (list M);
  n_boxes : gmap Z (list M);
  n_time : Z;
  n_reaped : nat;
  n_out : list Z }.

Definition done (p : io M unit) : bool := match p with Done _ => true | _ => false end.
Definition exited (ps : list (io M unit)) : nat := length (filter (fun p => done p = true) ps).

(** The bytes in a pipe. *)
Definition pipe_size (q : list M) : Z := foldr (fun m n => size m + n) 0 q.

Definition set_prog (c : net) (i : nat) (p : io M unit) : net :=
  mknet (<[i := p]> (n_progs c)) (n_pipes c) (n_boxes c) (n_time c) (n_reaped c) (n_out c).
Definition set_pipe (c : net) (p : pipe) (q : list M) : net :=
  mknet (n_progs c) (<[p := q]> (n_pipes c)) (n_boxes c) (n_time c) (n_reaped c) (n_out c).
Definition set_box (c : net) (b : Z) (q : list M) : net :=
  mknet (n_progs c) (n_pipes c) (<[b := q]> (n_boxes c)) (n_time c) (n_reaped c) (n_out c).

(** Process [i] makes its next system call; there is no step when it has none
    or has to wait.  A pipe that does not exist is an error. *)
Definition step (i : nat) (c : net) : option net :=
  x ← n_progs c !! i;
  match x with
  | Done _ | Crash _ | Cut => None
  | Write p m k =>
      match n_pipes c !! p with
      | None => Some (set_prog c i (Crash "pipe"))
      | Some q => if pipe_size q + size m <=? 512 then Some (set_pipe (set_prog c i k) p (q ++ [m])) else None
      end
  | Read p k =>
      match n_pipes c !! p with
      | None => Some (set_prog c i (Crash "pipe"))
      | Some [] => None
      | Some (m :: q) => Some (set_pipe (set_prog c i (k m)) p q)
      end
  | Post to m k => Some (set_box (set_prog c i k) to (default [] (n_boxes c !! to) ++ [m]))
  | Take k =>
      match n_boxes c !! Z.of_nat i with
      | Some (m :: q) => Some (set_box (set_prog c i (k m)) (Z.of_nat i) q)
      | _ => None
      end
  | Uptime k => Some (set_prog c i (k (n_time c)))
  | Say o k =>
      let c := set_prog c i k in
      Some (mknet (n_progs c) (n_pipes c) (n_boxes c) (n_time c) (n_reaped c) (n_out c ++ o))
  | Sleep n k => Some (set_prog c i k)
  | Wait k =>
      if (n_reaped c <? exited (n_progs c))%nat then
        let c := set_prog c i k in
        Some (mknet (n_progs c) (n_pipes c) (n_boxes c) (n_time c) (S (n_reaped c)) (n_out c))
      else None
  end.

(** A schedule: which process goes next, or the clock ticks. *)
Inductive move := Go (i : nat) | Tick.
Definition move_step (a : move) (c : net) : option net :=
  match a with
  | Go i => step i c
  | Tick => Some (mknet (n_progs c) (n_pipes c) (n_boxes c) (n_time c + 1) (n_reaped c) (n_out c))
  end.
Fixpoint play (sched : list move) (c : net) : option net :=
  match sched with
  | [] => Some c
  | a :: sched' => c' ← move_step a c; play sched' c'
  end.

(** All processes have exited. *)
Definition all_done (c : net) : Prop := Forall (fun x => x = Done tt) (n_progs c).
End net.
(** The system calls in a schedule. *)
Definition goes (sched : list move) : nat := length (omap (fun a => match a with Go i => Some i | Tick => None end) sched).
Arguments net M : clear implicits.
Arguments mknet {M} _ _ _ _ _ _.
