(* ===== verification/Kahn.v ===== *)
(** * Networks in which every pipe has one writer and one reader

    What each process does then does not depend on the schedule.  The account
    of a run gives every process the events it still has to perform, each with
    a rank.  If the messages of a pipe are written at lower ranks than they are
    read, and at no rank more is written than has been read and fits, then no
    schedule blocks before all events have been performed. *)

From stdpp Require Import sorting.
From S2P Require Import Prelude Network.
Open Scope Z_scope.

Section kahn.
Context {M : Type}.

(** ** Events *)

Inductive event := EWrite (p : pipe) (m : M) | ERead (p : pipe) (m : M) | EPost (to : Z) (m : M).
Abbreviation trace := (list (nat * event)).

(** [x] performs the events [tr] and then is [y]. *)
Inductive reach {A} : io M A -> trace -> io M A -> Prop :=
| reach_nil x : reach x [] x
| reach_write r p m k tr y : reach k tr y -> reach (Write p m k) ((r, EWrite p m) :: tr) y
| reach_read r p m k tr y : reach (k m) tr y -> reach (Read p k) ((r, ERead p m) :: tr) y
| reach_post r to m k tr y : reach k tr y -> reach (Post to m k) ((r, EPost to m) :: tr) y.

Lemma reach_app {A} (x y z : io M A) tr1 tr2 : reach x tr1 y -> reach y tr2 z -> reach x (tr1 ++ tr2) z.
Proof. intros H1 H2. induction H1; [done|..]; cbn [app]; by constructor; apply IHreach. Qed.

Lemma reach_io_bind {A B} (f : A -> io M B) x tr y : reach x tr y -> reach (x ≫= f) tr (y ≫= f).
Proof. intros H. induction H; [constructor|..]; by constructor. Qed.

Lemma reach_bind {A B} (f : A -> io M B) x tr1 tr2 a y : reach x tr1 (Done a) -> reach (f a) tr2 y -> reach (x ≫= f) (tr1 ++ tr2) y.
Proof. intros H1 H2. eapply reach_app; [by apply reach_io_bind|]. done. Qed.

Lemma reach_p_write {A} r p m (f : unit -> io M A) tr y : reach (f tt) tr y -> reach (p_write p m ≫= f) ((r, EWrite p m) :: tr) y.
Proof. intros H. by constructor. Qed.

Lemma reach_p_read {A} r p m (f : M -> io M A) tr y : reach (f m) tr y -> reach (p_read p ≫= f) ((r, ERead p m) :: tr) y.
Proof. intros H. by constructor. Qed.

Lemma reach_p_send {A} r to m (f : unit -> io M A) tr y : reach (f tt) tr y -> reach (p_send to m ≫= f) ((r, EPost to m) :: tr) y.
Proof. intros H. by constructor. Qed.

(** A loop performs the events of its rounds. *)
Lemma reach_for {S} (body : Z -> S -> io M S) (I : Z -> S -> Prop) (ev : Z -> trace) n : forall lo s,
  (forall t s, lo <= t < lo + Z.of_nat n -> I t s -> exists s', reach (body t s) (ev t) (Done s') /\ I (t + 1) s') -> I lo s ->
  exists s', reach (p_for n lo body s) (concat (ev <$> seqZ lo (Z.of_nat n))) (Done s') /\ I (lo + Z.of_nat n) s'.
Proof.
  induction n as [|n IH]; intros lo s H Hs; cbn [p_for].
  - exists s. rewrite Z.add_0_r. by split; [constructor|].
  - rewrite seqZ_cons by lia. replace (Z.pred (Z.of_nat (Datatypes.S n))) with (Z.of_nat n) by lia. cbn [fmap list_fmap concat].
    destruct (H lo s) as (s1 & E1 & H1); [lia|done|]. change (Z.succ lo) with (lo + 1).
    destruct (IH (lo + 1) s1) as (s' & E & Hs'); [intros t s0 Ht; apply H; lia|done|].
    exists s'. split; [by eapply reach_bind|]. by replace (lo + Z.of_nat (Datatypes.S n)) with (lo + 1 + Z.of_nat n) by lia.
Qed.

(** ** The account of a run *)

Definition writes (p : pipe) (tr : trace) : list (nat * M) :=
  omap (fun e => match e.2 with EWrite p' m => if decide (p' = p) then Some (e.1, m) else None | _ => None end) tr.
Definition reads (p : pipe) (tr : trace) : list (nat * M) :=
  omap (fun e => match e.2 with ERead p' m => if decide (p' = p) then Some (e.1, m) else None | _ => None end) tr.
Definition touches (p : pipe) (e : event) : Prop :=
  match e with EWrite p' _ | ERead p' _ => p' = p | EPost _ _ => False end.

(** How many are at most, or less than, rank [r]. *)
Definition upto (r : nat) (l : list (nat * M)) : nat := length (filter (fun x => x.1 <= r)%nat l).
Definition below (r : nat) (l : list (nat * M)) : nat := length (filter (fun x => x.1 < r)%nat l).

Definition todo (trs : list trace) (i : nat) : trace := default [] (trs !! i).
Definition content (pipes : gmap pipe (list M)) (p : pipe) : list M := default [] (pipes !! p).

(** [W p] and [R p] are the writer and the reader of [p], [cap] is how many
    messages a pipe holds, [trs] are the events the processes still have to
    perform. *)
Record account (cap : nat) (W R : pipe -> nat) (trs : list trace) (pipes : gmap pipe (list M)) : Prop := {
  ac_writer : forall i p, writes p (todo trs i) <> [] -> W p = i;
  ac_reader : forall i p, reads p (todo trs i) <> [] -> R p = i;
  ac_pipe : forall i r e p, (r, e) ∈ todo trs i -> touches p e -> is_Some (pipes !! p);
  ac_sorted : forall i, StronglySorted le (fst <$> todo trs i);
  ac_data : forall p, content pipes p ++ (snd <$> writes p (todo trs (W p))) = snd <$> reads p (todo trs (R p));
  ac_sent : forall p r, (upto r (reads p (todo trs (R p))) <= length (content pipes p) + below r (writes p (todo trs (W p))))%nat;
  ac_room : forall p r, (length (content pipes p) + upto r (writes p (todo trs (W p))) <= cap + below r (reads p (todo trs (R p))))%nat }.

Lemma todo_insert (trs : list trace) i tr j : (i < length trs)%nat -> todo (<[i := tr]> trs) j = if decide (j = i) then tr else todo trs j.
Proof. intros Hi. unfold todo. case_decide as E; [subst; by rewrite list_lookup_insert_eq|by rewrite list_lookup_insert_ne]. Qed.

Lemma writes_cons p r e tr : writes p ((r, e) :: tr) =
  match e with EWrite p' m => if decide (p' = p) then (r, m) :: writes p tr else writes p tr | _ => writes p tr end.
Proof. destruct e; try done. unfold writes. cbn. by case_decide. Qed.
Lemma reads_cons p r e tr : reads p ((r, e) :: tr) =
  match e with ERead p' m => if decide (p' = p) then (r, m) :: reads p tr else reads p tr | _ => reads p tr end.
Proof. destruct e; try done. unfold reads. cbn. by case_decide. Qed.

Lemma upto_cons r x l : upto r (x :: l) = if decide (x.1 <= r)%nat then S (upto r l) else upto r l.
Proof. unfold upto. rewrite filter_cons. by case_decide. Qed.
Lemma below_cons r x l : below r (x :: l) = if decide (x.1 < r)%nat then S (below r l) else below r l.
Proof. unfold below. rewrite filter_cons. by case_decide. Qed.

(** Ranks of a pipe's events are ranks of the trace. *)
Lemma writes_ranks p r tr : Forall (le r) (fst <$> tr) -> Forall (fun x => r <= x.1)%nat (writes p tr).
Proof.
  induction tr as [|[r' e] tr IH]; [done|]. cbn [fmap list_fmap fst]. intros [H1 H2]%Forall_cons. rewrite writes_cons.
  destruct e; [case_decide; [constructor; [done|]|]|..]; by apply IH.
Qed.
Lemma reads_ranks p r tr : Forall (le r) (fst <$> tr) -> Forall (fun x => r <= x.1)%nat (reads p tr).
Proof.
  induction tr as [|[r' e] tr IH]; [done|]. cbn [fmap list_fmap fst]. intros [H1 H2]%Forall_cons. rewrite reads_cons.
  destruct e; [|case_decide; [constructor; [done|]|]|]; by apply IH.
Qed.
Lemma upto_none r r0 l : Forall (fun x => r0 <= x.1)%nat l -> (r < r0)%nat -> upto r l = 0%nat.
Proof.
  intros H Hr. induction H as [|x l Hx _ IH]; [done|]. rewrite upto_cons, decide_False by lia. done.
Qed.

Section moves.
Context (cap : nat) (W R : pipe -> nat) (trs : list trace) (pipes : gmap pipe (list M)) (i r : nat) (tr : trace).
Context (Hac : account cap W R trs pipes).

Lemma todo_lt e : todo trs i = e :: tr -> (i < length trs)%nat.
Proof. unfold todo. intros E. apply lookup_lt_is_Some. destruct (trs !! i); [by eexists|done]. Qed.

Lemma todo_ranks e : todo trs i = (r, e) :: tr -> Forall (le r) (fst <$> tr) /\ StronglySorted le (fst <$> tr).
Proof. intros E. pose proof (ac_sorted _ _ _ _ _ Hac i) as H. rewrite E in H. cbn in H. by inversion H. Qed.

(** The parts of the account that only mention the events. *)
Lemma account_todo e : todo trs i = (r, e) :: tr ->
  (forall j p, writes p (todo (<[i := tr]> trs) j) <> [] -> W p = j) /\
  (forall j p, reads p (todo (<[i := tr]> trs) j) <> [] -> R p = j) /\
  (forall j r' e' p, (r', e') ∈ todo (<[i := tr]> trs) j -> touches p e' -> is_Some (pipes !! p)) /\
  (forall j, StronglySorted le (fst <$> todo (<[i := tr]> trs) j)).
Proof.
  intros E. pose proof (todo_lt _ E) as Hi. destruct (todo_ranks _ E) as [_ Hs]. destruct Hac as [A1 A2 A3 A4 _ _ _].
  split_and!; intros j; rewrite todo_insert by done; case_decide as D; subst; eauto.
  - intros p H. apply A1. rewrite E, writes_cons. destruct e; [case_decide|..]; done.
  - intros p H. apply A2. rewrite E, reads_cons. destruct e; [|case_decide|]; done.
  - intros r' e' p H. apply (A3 i r'). rewrite E. by right.
Qed.

Lemma account_post to m : todo trs i = (r, EPost to m) :: tr -> account cap W R (<[i := tr]> trs) pipes.
Proof.
  intros E. destruct (account_todo _ E) as (B1 & B2 & B3 & B4). pose proof (todo_lt _ E) as Hi. destruct Hac as [_ _ _ _ A5 A6 A7].
  assert (Hw : forall p j, writes p (todo (<[i := tr]> trs) j) = writes p (todo trs j)).
  { intros p j. rewrite todo_insert by done. case_decide; [|done]. subst. by rewrite E, writes_cons. }
  assert (Hr : forall p j, reads p (todo (<[i := tr]> trs) j) = reads p (todo trs j)).
  { intros p j. rewrite todo_insert by done. case_decide; [|done]. subst. by rewrite E, reads_cons. }
  split; try done; intros p; rewrite Hw, Hr; auto.
Qed.

Lemma account_write p m q : todo trs i = (r, EWrite p m) :: tr -> pipes !! p = Some q -> (length q < cap)%nat ->
  account cap W R (<[i := tr]> trs) (<[p := q ++ [m]]> pipes).
Proof.
  intros E Hq Hc. destruct (account_todo _ E) as (B1 & B2 & B3 & B4). pose proof (todo_lt _ E) as Hi. destruct (todo_ranks _ E) as [Hrk _].
  destruct Hac as [A1 _ _ _ A5 A6 A7].
  assert (HW : W p = i) by (apply A1; rewrite E, writes_cons, decide_True by done; done).
  assert (Hw : forall p', p' <> p -> forall j, writes p' (todo (<[i := tr]> trs) j) = writes p' (todo trs j)).
  { intros p' Hp' j. rewrite todo_insert by done. case_decide; [|done]. subst. by rewrite E, writes_cons, decide_False by done. }
  assert (Hr : forall p' j, reads p' (todo (<[i := tr]> trs) j) = reads p' (todo trs j)).
  { intros p' j. rewrite todo_insert by done. case_decide; [|done]. subst. by rewrite E, reads_cons. }
  assert (Hw0 : writes p (todo trs (W p)) = (r, m) :: writes p tr) by (by rewrite HW, E, writes_cons, decide_True by done).
  assert (Hw1 : writes p (todo (<[i := tr]> trs) (W p)) = writes p tr) by (by rewrite HW, todo_insert, decide_True by done).
  assert (Hct : content pipes p = q) by (unfold content; by rewrite Hq).
  assert (Hc1 : forall p', content (<[p := q ++ [m]]> pipes) p' = if decide (p' = p) then q ++ [m] else content pipes p').
  { intros p'. unfold content. case_decide; [subst; by rewrite lookup_insert_eq|by rewrite lookup_insert_ne]. }
  split; try done.
  - intros j r' e' p' H1 H2. destruct (decide (p' = p)) as [->|Hp]; [by rewrite lookup_insert_eq|rewrite lookup_insert_ne by done; eauto].
  - intros p'. rewrite Hc1, Hr. case_decide as D; [subst p'|rewrite Hw by done; apply A5].
    rewrite Hw1. rewrite <- A5, Hct, Hw0. cbn. by rewrite <- app_assoc.
  - intros p' r'. rewrite Hc1, Hr. case_decide as D; [subst p'|rewrite Hw by done; apply A6].
    rewrite Hw1, length_app. pose proof (A6 p r') as H. rewrite Hct, Hw0, below_cons in H. cbn [length]. case_decide; lia.
  - intros p' r'. rewrite Hc1, Hr. case_decide as D; [subst p'|rewrite Hw by done; apply A7].
    rewrite Hw1, length_app. pose proof (A7 p r') as H. rewrite Hct, Hw0, upto_cons in H. cbn [length fst] in *. case_decide; [lia|].
    rewrite (upto_none r' r); [lia|by apply writes_ranks|lia].
Qed.

Lemma account_read p m m' q : todo trs i = (r, ERead p m) :: tr -> pipes !! p = Some (m' :: q) ->
  m' = m /\ account cap W R (<[i := tr]> trs) (<[p := q]> pipes).
Proof.
  intros E Hq. destruct (account_todo _ E) as (B1 & B2 & B3 & B4). pose proof (todo_lt _ E) as Hi. destruct (todo_ranks _ E) as [Hrk _].
  destruct Hac as [_ A2 _ _ A5 A6 A7].
  assert (HR : R p = i) by (apply A2; rewrite E, reads_cons, decide_True by done; done).
  assert (Hr : forall p', p' <> p -> forall j, reads p' (todo (<[i := tr]> trs) j) = reads p' (todo trs j)).
  { intros p' Hp' j. rewrite todo_insert by done. case_decide; [|done]. subst. by rewrite E, reads_cons, decide_False by done. }
  assert (Hw : forall p' j, writes p' (todo (<[i := tr]> trs) j) = writes p' (todo trs j)).
  { intros p' j. rewrite todo_insert by done. case_decide; [|done]. subst. by rewrite E, writes_cons. }
  assert (Hr0 : reads p (todo trs (R p)) = (r, m) :: reads p tr) by (by rewrite HR, E, reads_cons, decide_True by done).
  assert (Hr1 : reads p (todo (<[i := tr]> trs) (R p)) = reads p tr) by (by rewrite HR, todo_insert, decide_True by done).
  assert (Hct : content pipes p = m' :: q) by (unfold content; by rewrite Hq).
  assert (Hc1 : forall p', content (<[p := q]> pipes) p' = if decide (p' = p) then q else content pipes p').
  { intros p'. unfold content. case_decide; [subst; by rewrite lookup_insert_eq|by rewrite lookup_insert_ne]. }
  pose proof (A5 p) as Hd. rewrite Hct, Hr0 in Hd. cbn in Hd. injection Hd as -> Hd. split; [done|]. split; try done.
  - intros j r' e' p' H1 H2. destruct (decide (p' = p)) as [->|Hp]; [by rewrite lookup_insert_eq|rewrite lookup_insert_ne by done; eauto].
  - intros p'. rewrite Hc1, Hw. case_decide as D; [subst p'|rewrite Hr by done; apply A5]. by rewrite Hr1.
  - intros p' r'. rewrite Hc1, Hw. case_decide as D; [subst p'|rewrite Hr by done; apply A6].
    rewrite Hr1. pose proof (A6 p r') as H. rewrite Hct, Hr0, upto_cons in H. cbn [length fst] in *. case_decide; [lia|].
    rewrite (upto_none r' r); [lia|by apply reads_ranks|lia].
  - intros p' r'. rewrite Hc1, Hw. case_decide as D; [subst p'|rewrite Hr by done; apply A7].
    rewrite Hr1. pose proof (A7 p r') as H. rewrite Hct, Hr0, below_cons in H. cbn [length fst] in *. case_decide; lia.
Qed.
End moves.

(** ** Progress *)

Lemma least (l : list nat) : l <> [] -> exists x, x ∈ l /\ Forall (le x) l.
Proof.
  induction l as [|a l IH]; [done|]. intros _. destruct l as [|b l].
  - exists a. split; [by left|by repeat constructor].
  - destruct IH as (x & Hx & Hl); [done|]. destruct (le_lt_dec a x) as [H|H].
    + exists a. split; [by left|]. constructor; [done|]. eapply Forall_impl; [exact Hl|]. cbn. lia.
    + exists x. split; [by right|]. constructor; [lia|done].
Qed.

Definition next_rank (tr : trace) : option nat := fst <$> head tr.

Lemma least_head (trs : list trace) i e tr : todo trs i = e :: tr ->
  exists j r e' tr', todo trs j = (r, e') :: tr' /\ forall k x y, todo trs k = x :: y -> (r <= x.1)%nat.
Proof.
  intros E. assert (Hin : forall k x y, todo trs k = x :: y -> x.1 ∈ omap next_rank trs).
  { intros k x y Ek. unfold todo in Ek. destruct (trs !! k) as [t|] eqn:Et; [|done]. cbn in Ek. subst t.
    apply list_elem_of_omap. exists (x :: y). split; [by eapply list_elem_of_lookup_2|done]. }
  destruct (least (omap next_rank trs)) as (r & Hr & Hl).
  { intros H. specialize (Hin _ _ _ E). rewrite H in Hin. by apply elem_of_nil in Hin. }
  apply list_elem_of_omap in Hr as (t & Ht & Hh). apply list_elem_of_lookup_1 in Ht as [j Hj]. destruct t as [|[r' e'] t]; [done|]. injection Hh as <-.
  exists j, r', e', t. split; [unfold todo; by rewrite Hj|]. intros k x y Ek. rewrite Forall_forall in Hl. by eapply Hl, Hin.
Qed.

(** Nothing is left below a rank that no process has left behind. *)
Lemma below_none r (l : list (nat * M)) : Forall (fun x => r <= x.1)%nat l -> below r l = 0%nat.
Proof. intros H. induction H as [|x l Hx _ IH]; [done|]. by rewrite below_cons, decide_False by lia. Qed.

Definition enabled (cap : nat) (pipes : gmap pipe (list M)) (e : event) : Prop :=
  match e with
  | EWrite p _ => exists q, pipes !! p = Some q /\ (length q < cap)%nat
  | ERead p m => exists q, pipes !! p = Some (m :: q)
  | EPost _ _ => True
  end.

Lemma account_progress cap W R trs pipes i e tr : account cap W R trs pipes -> todo trs i = e :: tr ->
  exists j r e' tr', todo trs j = (r, e') :: tr' /\ enabled cap pipes e'.
Proof.
  intros Hac E. destruct (least_head _ _ _ _ E) as (j & r & e' & tr' & Ej & Hmin). exists j, r, e', tr'. split; [done|].
  assert (Hall : forall k, Forall (le r) (fst <$> todo trs k)).
  { intros k. destruct (todo trs k) as [|x y] eqn:Ek; [constructor|]. pose proof (ac_sorted _ _ _ _ _ Hac k) as Hs. rewrite Ek in Hs. cbn in Hs |- *.
    inversion Hs as [|? ? _ Hf]; subst. pose proof (Hmin _ _ _ Ek). constructor; [done|]. eapply Forall_impl; [exact Hf|]. cbn. lia. }
  destruct e' as [p m|p m|to m]; [| |done].
  - assert (HW : W p = j) by (apply (ac_writer _ _ _ _ _ Hac); rewrite Ej, writes_cons, decide_True by done; done).
    destruct (ac_pipe _ _ _ _ _ Hac j r (EWrite p m) p) as [q Hq]; [rewrite Ej; by left|done|]. exists q. split; [done|].
    pose proof (ac_room _ _ _ _ _ Hac p r) as H. rewrite HW, Ej, writes_cons, decide_True in H by done. rewrite upto_cons, decide_True in H by done.
    rewrite (below_none r) in H by (apply reads_ranks, Hall). unfold content in H. rewrite Hq in H. cbn in H. lia.
  - assert (HR : R p = j) by (apply (ac_reader _ _ _ _ _ Hac); rewrite Ej, reads_cons, decide_True by done; done).
    destruct (ac_pipe _ _ _ _ _ Hac j r (ERead p m) p) as [q Hq]; [rewrite Ej; by left|done|].
    pose proof (ac_sent _ _ _ _ _ Hac p r) as H. rewrite HR, Ej, reads_cons, decide_True in H by done. rewrite upto_cons, decide_True in H by done.
    rewrite (below_none r) in H by (apply writes_ranks, Hall). unfold content in H. rewrite Hq in H. cbn in H.
    pose proof (ac_data _ _ _ _ _ Hac p) as Hd. rewrite HR, Ej, reads_cons, decide_True in Hd by done. unfold content in Hd. rewrite Hq in Hd. cbn in Hd.
    destruct q as [|m' q]; [cbn in H; lia|]. injection Hd as -> _. by exists q.
Qed.
End kahn.
Arguments event M : clear implicits.
