(* ===== verification/Jacob.v ===== *)
(** * Jacobi iteration on a grid ([jacob.c])

    The program solves for the steady state of a heated plate: every interior
    point becomes the mean of its four neighbours until the largest change is
    at most [E] or more than [L] rounds have been made.  With one process it
    iterates in place; with [P] of them each gets a block of rows, sends its
    edge rows to its neighbours through pipes, and a coordinator decides when to
    stop and collects the rows through its mailbox.

    The grids are taken to fit the stack, the pipes the file tables and the
    values the mailbox; a [printf] is one output. *)

From S2P Require Import Prelude CString Console User Network.
Open Scope Z_scope.

(** ** Floating point

    What the program uses of the floating-point unit.  [ddiv x n] is a division
    by a whole number in double precision, rounded. *)
Class Arith := mkArith {
  float : Type;
  of_int : Z -> float;
  to_int : float -> Z;
  fadd : float -> float -> float;
  fsub : float -> float -> float;
  fmul : float -> float -> float;
  fdiv : float -> float -> float;
  ddiv : float -> Z -> float;
  flt : float -> float -> bool;
  fle : float -> float -> bool }.

(** What is relied on.  A NaN is not even equal to itself and compares with
    nothing; the comparisons order the other values, zero among them; small
    integers are exact. *)
Class ArithLaws (arith : Arith) := {
  fle_num : forall x y, fle x y = true -> fle x x = true /\ fle y y = true;
  flt_num : forall x y, flt x y = true -> fle x x = true /\ fle y y = true;
  flt_fle : forall x y, fle x x = true -> fle y y = true -> flt x y = negb (fle y x);
  fle_total : forall x y, fle x x = true -> fle y y = true -> fle x y = true \/ fle y x = true;
  fle_trans : forall x y z, fle x y = true -> fle y z = true -> fle x z = true;
  zero_num : fle (of_int 0) (of_int 0) = true;
  int_exact : forall n, -1 <= n < 2 ^ 24 -> to_int (of_int n) = n }.

Section jacob.
Context {arith : Arith}.
Abbreviation grid := (list (list float)).

Definition fabsm (a : float) : float := if flt a (of_int 0) then fmul (of_int (-1)) a else a.

(** ** The share of a process *)

Definition getStartingForI (n nt i : Z) : Z :=
  let divtemp := Z.quot n nt in
  let remtemp := Z.rem n nt in
  let i := i + 1 in
  if i <=? remtemp then (divtemp + 1) * (i - 1) else divtemp * (i - 1) + remtemp.

Definition getNumberOfElements (n nt i : Z) : Z :=
  let i := i + 1 in
  if i <=? Z.rem n nt then Z.quot n nt + 1 else Z.quot n nt.

(** ** Input

    A number ends at a newline; without one the loop does not end. *)
Fixpoint readInt_loop (n : Z) (cs : list Z) : option (Z * list Z) :=
  match cs with
  | [] => None
  | c :: cs' => if c =? 10 then Some (n, cs') else readInt_loop (i32 (10 * n + (c - 48))) cs'
  end.
Definition readInt (cs : list Z) : option (Z * list Z) := readInt_loop 0 cs.

(** [count11] is the number of digits after the point; none before it. *)
Fixpoint readFloat_loop (e : float) (count11 : option Z) (cs : list Z) : option (float * list Z) :=
  match cs with
  | [] => None
  | c :: cs' =>
      if c =? 10 then Some (e, cs')
      else if c =? 46 then readFloat_loop e (Some 0) cs'
      else
        match count11 with
        | None => readFloat_loop (fadd (fmul (of_int 10) e) (of_int (c - 48))) None cs'
        | Some n =>
            let n := n + 1 in
            let tt := fdiv (of_int (c - 48)) (of_int (i32 (10 ^ n))) in
            readFloat_loop (fadd e tt) (Some n) cs'
        end
  end.
Definition readFloat (cs : list Z) : option (float * list Z) := readFloat_loop (of_int 0) None cs.

(** ** The grid *)

Definition cell (u : grid) (i j : Z) : option float := r ← aget u i; aget r j.
Definition put (u : grid) (i j : Z) (x : float) : option grid :=
  r ← aget u i;
  r' ← aset r j x;
  aset u i r'.

(** [for(t = lo; t < lo + n; t++)] in code without system calls. *)
Fixpoint ofor {S} (n : nat) (t : Z) (body : Z -> S -> option S) (s : S) : option S :=
  match n with
  | O => Some s
  | S n' => s' ← body t s; ofor n' (t + 1) body s'
  end.
(** [for(t = lo; t < hi; t++)] *)
Definition orange {S} (lo hi : Z) (body : Z -> S -> option S) (s : S) : option S := ofor (Z.to_nat (hi - lo)) lo body s.

Definition boundary (N : Z) (T : float) (i : Z) (s : grid * float) : option (grid * float) :=
  let '(u, mean) := s in
  u ← put u 0 i T;
  u ← put u i (N - 1) T;
  u ← put u i 0 T;
  u ← put u (N - 1) i (of_int 0);
  a ← cell u i 0;
  b ← cell u i (N - 1);
  c ← cell u 0 i;
  d ← cell u (N - 1) i;
  Some (u, fadd mean (fadd (fadd (fadd a b) c) d)).

(** The boundary, and the mean of its values inside; the memory holds [junk]. *)
Definition init_grid (junk : float) (N : Z) (T : float) : option grid :=
  '(u, mean) ← orange 0 N (boundary N T) (replicate (Z.to_nat N) (replicate (Z.to_nat N) junk), of_int 0);
  let mean := ddiv mean (4 * N) in
  orange 1 (N - 1) (fun i u => orange 1 (N - 1) (fun j u => put u i j mean) u) u.

(** New values of the rows from [lo] on and the largest change. *)
Definition sweep_cell (u : grid) (j k : Z) (s : grid * float) : option (grid * float) :=
  let '(w, diff) := s in
  a ← cell u (j - 1) k;
  b ← cell u (j + 1) k;
  c ← cell u j (k - 1);
  d ← cell u j (k + 1);
  w ← put w j k (ddiv (fadd (fadd (fadd a b) c) d) 4);
  x ← cell w j k;
  y ← cell u j k;
  Some (w, if flt diff (fabsm (fsub x y)) then fabsm (fsub x y) else diff).
Definition sweep (N lo hi : Z) (u w : grid) : option (grid * float) :=
  orange lo hi (fun j s => orange 1 (N - 1) (fun k s => sweep_cell u j k s) s) (w, of_int 0).

Definition copy_rows (N lo hi : Z) (u w : grid) : option grid :=
  orange lo hi (fun r u => orange 1 (N - 1) (fun po u => x ← cell w r po; put u r po x) u) u.

(** ** Messages *)

(** Sixteen bytes: four floats. *)
Record msg := mkmsg { m0 : float; m1 : float; m2 : float; m3 : float }.
Definition STARTCHILD : Z := 0.
Definition CONTINUE_STOP_CHILD : Z := 1.
Definition GHOSTVALUE : Z := 2.
Definition DIFFERENCE : Z := 3.
Definition RETURNINGVALUES : Z := 4.
Definition msg_size (m : msg) : Z := 16.
Abbreviation P := (io msg).

Definition fd_cor_child (i : Z) : pipe := ("fd_cor_child", i).
Definition fd_child_cor (i : Z) : pipe := ("fd_child_cor", i).
Definition child_sends_lower (i : Z) : pipe := ("child_sends_lower", i).
Definition child_sends_upper (i : Z) : pipe := ("child_sends_upper", i).

(** Code without system calls; an access outside an array is a crash. *)
Definition p_some {A} (o : option A) : P A := match o with Some a => Done a | None => Crash "grid" end.

Definition show_int (z : Z) : list Z := default [] (Printf.printint_chars z 10 1).

(** [printf(1,"%d ",((int)u[i][j]))] for every point, and a newline after
    every row. *)
Definition print_grid (N : Z) (u : grid) : P unit :=
  p_range 0 N (fun i _ =>
    p_range 0 N (fun j _ =>
      x ← p_some (cell u i j);
      p_print (show_int (to_int x) ++ [32])) tt ;;
    p_print [10]) tt.

(** ** One process *)

Fixpoint serial_loop (fuel : nat) (N : Z) (E : float) (L count : Z) (u w : grid) : P grid :=
  match fuel with
  | O => Cut
  | S fuel' =>
      '(w, diff) ← p_some (sweep N 1 (N - 1) u w);
      let count := count + 1 in
      if fle diff E || (L <? count) then Done u
      else
        u ← p_some (copy_rows N 1 (N - 1) u w);
        serial_loop fuel' N E L count u w
  end.

(** At most [L + 1] rounds are made. *)
Definition rounds (L : Z) : nat := Z.to_nat (Z.max 0 L + 1).
Definition jacob_serial (N : Z) (E : float) (L : Z) (u w : grid) : P unit :=
  u ← serial_loop (rounds L) N E L 0 u w;
  print_grid N u.

(** ** A child *)

(** A row of ghost values to a neighbour; [dir] is 1 upwards and -1 downwards. *)
Definition send_row (N : Z) (p : pipe) (dir row : Z) (u : grid) : P unit :=
  p_range 1 (N - 1) (fun t _ =>
    x ← p_some (cell u row t);
    p_write p (mkmsg (of_int dir) (of_int t) x (of_int GHOSTVALUE))) tt.

Definition recv_row (N : Z) (p : pipe) (start numA : Z) (u : grid) : P grid :=
  p_range 1 (N - 1) (fun _ u =>
    buf ← p_read p;
    if to_int (m3 buf) =? GHOSTVALUE then
      if to_int (m0 buf) =? 1 then p_some (put u (start + numA) (to_int (m1 buf)) (m2 buf))
      else p_some (put u (start - 1) (to_int (m1 buf)) (m2 buf))
    else
      p_print (bytes "Received wrong message instead of ghostvalue" ++ [10]) ;;
      Done u) u.

Definition exchange (N start numA i : Z) (u : grid) : P grid :=
  (if negb (start =? 0) then send_row N (child_sends_upper i) 1 start u else Done tt) ;;
  (if negb (start + numA =? N) then send_row N (child_sends_lower i) (-1) (start + numA - 1) u else Done tt) ;;
  if start =? 0 then recv_row N (child_sends_upper (i + 1)) start numA u
  else if start + numA =? N then recv_row N (child_sends_lower (i - 1)) start numA u
  else
    u ← recv_row N (child_sends_upper (i + 1)) start numA u;
    recv_row N (child_sends_lower (i - 1)) start numA u.

Fixpoint child_loop (fuel : nat) (N start numA i : Z) (u w : grid) : P grid :=
  match fuel with
  | O => Cut
  | S fuel' =>
      u ← exchange N start numA i u;
      '(w, diff1) ← p_some (sweep N (Z.max start 1) (Z.min (start + numA) (N - 1)) u w);
      p_write (fd_child_cor i) (mkmsg diff1 (of_int 0) (of_int 1) (of_int DIFFERENCE)) ;;
      readbuf2 ← p_read (fd_cor_child i);
      (if negb (to_int (m3 readbuf2) =? CONTINUE_STOP_CHILD)
       then p_print (bytes "received %f instead of continue or stop " ++ [10]) else Done tt) ;;
      if to_int (m0 readbuf2) =? -1 then Done u
      else
        u ← p_some (copy_rows N (Z.max start 1) (Z.min (start + numA) (N - 1)) u w);
        child_loop fuel' N start numA i u w
  end.

(** [coordinator_id] is the process with number [np]. *)
Definition child (N np L i : Z) (u w : grid) : P unit :=
  p_read (fd_cor_child i) ;;
  let start := getStartingForI N np i in
  let numA := getNumberOfElements N np i in
  u ← child_loop (rounds L) N start numA i u w;
  p_range (Z.max start 1) (Z.min (start + numA) (N - 1)) (fun x _ =>
    p_range 1 (N - 1) (fun y _ =>
      v ← p_some (cell u x y);
      p_send np (mkmsg (of_int x) (of_int y) v (of_int RETURNINGVALUES))) tt) tt.

(** ** The coordinator *)

Fixpoint coord_loop (fuel : nat) (E : float) (np L it : Z) : P unit :=
  match fuel with
  | O => Cut
  | S fuel' =>
      diffglobal ← p_range 0 np (fun i diffglobal =>
        buf ← p_read (fd_child_cor i);
        if to_int (m3 buf) =? DIFFERENCE then Done (if flt diffglobal (m0 buf) then m0 buf else diffglobal)
        else
          p_print (bytes "received wrong message of type " ++ show_int (to_int (m3 buf)) ++ [32; 10]) ;;
          Done diffglobal) (of_int 0);
      let stop := fle diffglobal E || (L <? it) in
      p_range 0 np (fun i _ =>
        p_write (fd_cor_child i) (mkmsg (of_int (if stop then -1 else 1)) (of_int 0) (of_int 0) (of_int CONTINUE_STOP_CHILD))) tt ;;
      if stop then Done tt else coord_loop fuel' E np L (it + 1)
  end.

Definition gather (N : Z) (u : grid) : P grid :=
  p_range 1 (N - 1) (fun _ u =>
    p_range 1 (N - 1) (fun _ u =>
      buf ← p_recv;
      if to_int (m3 buf) =? RETURNINGVALUES then p_some (put u (to_int (m0 buf)) (to_int (m1 buf)) (m2 buf))
      else
        p_print (bytes "received wrong message of type %f instead of returning values " ++ [10]) ;;
        Done u) u) u.

Definition coordinator (N : Z) (E : float) (np L : Z) (u : grid) : P unit :=
  p_range 0 np (fun i _ => p_write (fd_cor_child i) (mkmsg (of_int STARTCHILD) (of_int 0) (of_int 0) (of_int 0))) tt ;;
  coord_loop (rounds L) E np L 1 ;;
  u ← gather N u;
  p_range 0 np (fun _ _ => p_wait) tt ;;
  print_grid N u.

(** ** The program

    The network after the forks: the children have copies of the grid; the
    coordinator is the last process.  With one process there is no fork.
    [rec_pids] has eight entries: a ninth child's process number is written
    past its end. *)
Definition pipes_of (np : Z) : gmap pipe (list msg) :=
  list_to_map (concat ((fun i => [(fd_cor_child i, []); (fd_child_cor i, []); (child_sends_lower i, []); (child_sends_upper i, [])]) <$> seqZ 0 np)).

Definition jacob_net (junk : float) (N : Z) (E T : float) (np L : Z) : option (net msg) :=
  u ← init_grid junk N T;
  let w := replicate (Z.to_nat N) (replicate (Z.to_nat N) junk) in
  if np =? 1 then Some (mknet [jacob_serial N E L u w] ∅ ∅ 0 0 [])
  else if 8 <? np then None
  else Some (mknet (((fun i => child N np L i u w) <$> seqZ 0 np) ++ [coordinator N E np L u]) (pipes_of np) ∅ 0 0 []).

(** [cs] is the content of the input file. *)
Definition jacob_main (junk : float) (cs : list Z) : option (net msg) :=
  '(N, cs) ← readInt cs;
  '(E, cs) ← readFloat cs;
  '(T, cs) ← readFloat cs;
  '(np, cs) ← readInt cs;
  '(L, cs) ← readInt cs;
  jacob_net junk N E T np L.
End jacob.
