(* ===== verification/JacobGrid.v ===== *)
(** * The arithmetic of the Jacobi iteration

    What the loops of [jacob.c] compute on the grid, stated with fields, that
    is functions from positions to numbers: a sweep over some rows gives the
    means of the neighbours and the largest change, copying gives the next
    field, and the program with one process prints the field at which the
    iteration stops. *)

From S2P Require Import Prelude CString Console User Network Jacob.
Open Scope Z_scope.

Section grid.
Context {arith : Arith}.
Abbreviation field := (Z -> Z -> float).
Implicit Types (u w : list (list float)) (V : field).

(** ** Loops *)

Lemma ofor_inv {S} (body : Z -> S -> option S) (I : Z -> S -> Prop) n : forall lo s,
  (forall t s, lo <= t < lo + Z.of_nat n -> I t s -> exists s', body t s = Some s' /\ I (t + 1) s') -> I lo s ->
  exists s', ofor n lo body s = Some s' /\ I (lo + Z.of_nat n) s'.
Proof.
  induction n as [|n IH]; intros lo s H Hs; cbn [ofor].
  - exists s. by rewrite Z.add_0_r.
  - destruct (H lo s) as (s1 & E1 & H1); [lia|done|]. rewrite E1. cbn [mbind option_bind].
    destruct (IH (lo + 1) s1) as (s' & E & Hs'); [|done|].
    + intros t s0 Ht. apply H. lia.
    + exists s'. split; [done|]. by replace (lo + Z.of_nat (Datatypes.S n)) with (lo + 1 + Z.of_nat n) by lia.
Qed.

Lemma orange_inv {S} (body : Z -> S -> option S) (I : Z -> S -> Prop) lo hi s : lo <= hi ->
  (forall t s, lo <= t < hi -> I t s -> exists s', body t s = Some s' /\ I (t + 1) s') -> I lo s ->
  exists s', orange lo hi body s = Some s' /\ I hi s'.
Proof.
  intros Hle H Hs. unfold orange. destruct (ofor_inv body I (Z.to_nat (hi - lo)) lo s) as (s' & E & Hs'); [|done|].
  - intros t s0 Ht. apply H. lia.
  - exists s'. split; [done|]. by replace (lo + Z.of_nat (Z.to_nat (hi - lo))) with hi in Hs' by lia.
Qed.

Lemma orange_nil {S} (body : Z -> S -> option S) lo hi s : hi <= lo -> orange lo hi body s = Some s.
Proof. intros H. unfold orange. by replace (Z.to_nat (hi - lo)) with 0%nat by lia. Qed.

(** ** Cells *)

Context (N : Z).

Definition square u : Prop := alen u = N /\ Forall (fun r => alen r = N) u.

Lemma square_row u i : square u -> 0 <= i < N -> exists r, aget u i = Some r /\ alen r = N.
Proof.
  intros [H1 H2] Hi. destruct (aget_is_Some u i) as [r Hr]; [lia|]. exists r. split; [done|].
  rewrite Forall_forall in H2. apply H2. unfold aget in Hr. case_match; [|done]. by eapply list_elem_of_lookup_2.
Qed.

Lemma cell_Some u i j : square u -> 0 <= i < N -> 0 <= j < N -> exists x, cell u i j = Some x.
Proof.
  intros H Hi Hj. destruct (square_row u i H Hi) as (r & Hr & Hl). unfold cell. rewrite Hr. cbn. destruct (aget_is_Some r j) as [x Hx]; [lia|eauto].
Qed.

Lemma put_ok u i j x : square u -> 0 <= i < N -> 0 <= j < N -> exists u', put u i j x = Some u' /\ square u' /\
  forall i' j', cell u' i' j' = if bool_decide (i' = i /\ j' = j) then Some x else cell u i' j'.
Proof.
  intros H Hi Hj. destruct (square_row u i H Hi) as (r & Hr & Hl). unfold put. rewrite Hr. cbn [mbind option_bind].
  rewrite aset_Some by lia. cbn [mbind option_bind]. destruct H as [H1 H2]. rewrite aset_Some by lia. eexists. split; [done|].
  split; [split; [by rewrite alen_insert|by apply Forall_insert; [|rewrite alen_insert]]|].
  intros i' j'. unfold cell. destruct (decide (i' = i)) as [->|Hne].
  - rewrite aget_insert_eq by lia. cbn [mbind option_bind]. rewrite Hr. cbn [mbind option_bind]. case_bool_decide as D.
    + destruct D as [_ ->]. by rewrite aget_insert_eq by lia.
    + rewrite aget_insert_ne; [done|lia|]. intros ->. by apply D.
  - rewrite aget_insert_ne by (lia || done). rewrite bool_decide_false; [done|]. by intros [? _].
Qed.

(** ** Fields *)

Definition inside (j k : Z) : bool := (1 <=? j) && (j <? N - 1) && (1 <=? k) && (k <? N - 1).
Definition mean4 V (j k : Z) : float := ddiv (fadd (fadd (fadd (V (j - 1) k) (V (j + 1) k)) (V j (k - 1))) (V j (k + 1))) 4.
Definition next V : field := fun j k => if inside j k then mean4 V j k else V j k.
Definition delta V (j k : Z) : float := fabsm (fsub (mean4 V j k) (V j k)).
Definition dmax (d x : float) : float := if flt d x then x else d.

(** The interior points of the rows from [lo] to [hi], and the largest change there. *)
Definition row_cells (j : Z) : list (Z * Z) := (fun k : Z => (j, k)) <$> seqZ 1 (N - 2).
Definition cells (lo hi : Z) : list (Z * Z) := concat (row_cells <$> seqZ lo (hi - lo)).
Definition diff_of V (ps : list (Z * Z)) : float := foldl (fun d (p : Z * Z) => dmax d (delta V p.1 p.2)) (of_int 0) ps.

(** Rows [lo] to [hi] of [u] show [V], in the columns from [a] to [b]. *)
Definition shows u V (lo hi a b : Z) : Prop := forall j k, lo <= j < hi -> a <= k < b -> cell u j k = Some (V j k).

Lemma seqZ_snoc lo n : 0 <= n -> seqZ lo (n + 1) = seqZ lo n ++ [lo + n].
Proof. intros Hn. by rewrite seqZ_app by lia. Qed.

Lemma cells_snoc lo j : lo <= j -> cells lo (j + 1) = cells lo j ++ row_cells j.
Proof.
  intros Hj. unfold cells. replace (j + 1 - lo) with ((j - lo) + 1) by lia. rewrite seqZ_snoc by lia. rewrite fmap_app, concat_app.
  f_equal. cbn [fmap list_fmap concat]. rewrite app_nil_r. f_equal. lia.
Qed.

(** ** A sweep *)

Lemma sweep_cell_ok u V w d j k : shows u V j (j + 1) 0 N -> cell u (j - 1) k = Some (V (j - 1) k) -> cell u (j + 1) k = Some (V (j + 1) k) ->
  square w -> 0 <= j < N -> 1 <= k < N - 1 ->
  exists w', sweep_cell u j k (w, d) = Some (w', dmax d (delta V j k)) /\ square w' /\
    forall j' k', cell w' j' k' = if bool_decide (j' = j /\ k' = k) then Some (mean4 V j k) else cell w j' k'.
Proof.
  intros Hu Ha Hb Hw Hj Hk. unfold sweep_cell. rewrite Ha, Hb, !Hu by lia. cbn [mbind option_bind].
  destruct (put_ok w j k (mean4 V j k)) as (w' & E & Hw' & Hc); [done|lia|lia|]. fold (mean4 V j k). rewrite E. cbn [mbind option_bind].
  rewrite Hc, bool_decide_true by done. cbn [mbind option_bind]. by exists w'.
Qed.

(** What a sweep over rows [lo] to [hi] needs and gives. *)
Definition around u V (lo hi : Z) : Prop :=
  shows u V lo hi 0 N /\ shows u V (lo - 1) lo 1 (N - 1) /\ shows u V hi (hi + 1) 1 (N - 1).

Lemma sweep_ok u V w lo hi : around u V lo hi -> square w -> 1 <= lo -> hi <= N - 1 ->
  exists w', sweep N lo hi u w = Some (w', diff_of V (cells lo hi)) /\ square w' /\ shows w' (mean4 V) lo hi 1 (N - 1).
Proof.
  intros (Hu & Ha & Hb) Hw Hlo Hhi. unfold sweep. destruct (Z.le_gt_cases lo hi) as [Hle|Hgt].
  2:{ rewrite orange_nil by lia. exists w. unfold cells. rewrite seqZ_nil by lia. split; [done|]. split; [done|]. intros j k Hj. lia. }
  destruct (orange_inv (fun j s => orange 1 (N - 1) (fun k s => sweep_cell u j k s) s)
    (fun j s => s.2 = diff_of V (cells lo j) /\ square s.1 /\ shows s.1 (mean4 V) lo j 1 (N - 1)) lo hi (w, of_int 0)) as ([w' d'] & E & Hd & Hw' & Hs).
  - done.
  - intros j [w1 d1] Hj (Hd1 & Hw1 & Hs1). cbn [fst snd] in *. destruct (Z.le_gt_cases 1 (N - 1)) as [HN|HN]; [|lia].
    destruct (orange_inv (fun k s => sweep_cell u j k s)
      (fun k s => s.2 = foldl (fun d (p : Z * Z) => dmax d (delta V p.1 p.2)) d1 ((fun k : Z => (j, k)) <$> seqZ 1 (k - 1)) /\ square s.1 /\
        shows s.1 (mean4 V) lo j 1 (N - 1) /\ shows s.1 (mean4 V) j (j + 1) 1 k) 1 (N - 1) (w1, d1)) as ([w2 d2] & E2 & Hd2 & Hw2 & Hs2 & Hs2').
    + done.
    + intros k [w3 d3] Hk (Hd3 & Hw3 & Hs3 & Hs3'). cbn [fst snd] in *.
      destruct (sweep_cell_ok u V w3 d3 j k) as (w4 & E4 & Hw4 & Hc4); [|..|done|lia|lia|].
      { intros j' k' Hj' Hk'. apply Hu; lia. }
      { destruct (decide (j = lo)) as [->|]; [apply Ha; lia|apply Hu; lia]. }
      { destruct (decide (j + 1 = hi)) as [->|]; [apply Hb; lia|apply Hu; lia]. }
      exists (w4, dmax d3 (delta V j k)). split; [done|]. cbn [fst snd]. split_and!; [|done|..].
      * replace (k + 1 - 1) with ((k - 1) + 1) by lia. rewrite seqZ_snoc, fmap_app, foldl_app, <- Hd3 by lia. cbn. by replace (1 + (k - 1)) with k by lia.
      * intros j' k' Hj' Hk'. rewrite Hc4, bool_decide_false by lia. by apply Hs3.
      * intros j' k' Hj' Hk'. assert (j' = j) as -> by lia. rewrite Hc4. case_bool_decide as D; [by destruct D as [_ ->]|]. apply Hs3'; [lia|]. destruct (decide (k' = k)); [by subst; destruct D|lia].
    + cbn [fst snd]. split_and!; [by rewrite seqZ_nil by lia|done|done|]. intros j' k' _ Hk'. lia.
    + exists (w2, d2). split; [done|]. cbn [fst snd] in *. split_and!; [|done|].
      * rewrite cells_snoc by lia. unfold diff_of. rewrite foldl_app. fold (diff_of V (cells lo j)). rewrite <- Hd1, Hd2. unfold row_cells. by replace (N - 1 - 1) with (N - 2) by lia.
      * intros j' k' Hj' Hk'. destruct (decide (j' = j)) as [->|]; [apply Hs2'; lia|apply Hs2; lia].
  - cbn [fst snd]. split_and!; [unfold cells; by rewrite seqZ_nil by lia|done|]. intros j' k' Hj'. lia.
  - rewrite E. exists w'. cbn [fst snd] in *. by rewrite Hd.
Qed.

(** ** Copying *)

(** [u'] is [u] with the interior of rows [lo] to [hi] brought up to date. *)
Definition copied V u (lo hi : Z) u' : Prop :=
  square u' /\ forall j k, cell u' j k = if bool_decide (lo <= j < hi /\ 1 <= k < N - 1) then Some (mean4 V j k) else cell u j k.

Lemma copy_rows_ok u w V lo hi : square u -> square w -> shows w (mean4 V) lo hi 1 (N - 1) -> 1 <= lo -> hi <= N - 1 ->
  exists u', copy_rows N lo hi u w = Some u' /\ copied V u lo hi u'.
Proof.
  intros Hu Hw Hs Hlo Hhi. unfold copy_rows. destruct (Z.le_gt_cases lo hi) as [Hle|Hgt].
  2:{ rewrite orange_nil by lia. exists u. split; [done|]. split; [done|]. intros j k. by rewrite bool_decide_false by lia. }
  apply (orange_inv (fun r u => orange 1 (N - 1) (fun po u => x ← cell w r po; put u r po x) u) (copied V u lo)); [done| |].
  - intros r u1 Hr (H1 & Hc1). destruct (orange_inv (fun po u => x ← cell w r po; put u r po x)
      (fun p u' => square u' /\ forall j k, cell u' j k = if bool_decide (j = r /\ 1 <= k < p) then Some (mean4 V j k) else cell u1 j k) 1 (N - 1) u1) as (u2 & E2 & H2 & Hc2); [lia|..].
    + intros p u3 Hp (H3 & Hc3). rewrite Hs by lia. cbn [mbind option_bind]. destruct (put_ok u3 r p (mean4 V r p)) as (u4 & E4 & H4 & Hc4); [done|lia|lia|].
      exists u4. split; [done|]. split; [done|]. intros j k. rewrite Hc4. case_bool_decide as D; [destruct D as [-> ->]; by rewrite bool_decide_true by lia|].
      rewrite Hc3. case_bool_decide as D1; case_bool_decide as D2; try done; [lia|]. destruct D. lia.
    + split; [done|]. intros j k. by rewrite bool_decide_false by lia.
    + exists u2. split; [done|]. split; [done|]. intros j k. rewrite Hc2, Hc1. repeat case_bool_decide; try done; lia.
  - split; [done|]. intros j k. by rewrite bool_decide_false by lia.
Qed.

(** ** The first grid *)

Lemma boundary_ok T i u m : square u -> 0 <= i < N -> exists u' m', boundary N T i (u, m) = Some (u', m') /\ square u'.
Proof.
  intros Hu Hi. unfold boundary.
  destruct (put_ok u 0 i T) as (u1 & -> & H1 & _); [done|lia|lia|]. cbn [mbind option_bind].
  destruct (put_ok u1 i (N - 1) T) as (u2 & -> & H2 & _); [done|lia|lia|]. cbn [mbind option_bind].
  destruct (put_ok u2 i 0 T) as (u3 & -> & H3 & _); [done|lia|lia|]. cbn [mbind option_bind].
  destruct (put_ok u3 (N - 1) i (of_int 0)) as (u4 & -> & H4 & _); [done|lia|lia|]. cbn [mbind option_bind].
  destruct (cell_Some u4 i 0) as [a ->]; [done|lia|lia|]. cbn [mbind option_bind]. destruct (cell_Some u4 i (N - 1)) as [b ->]; [done|lia|lia|]. cbn [mbind option_bind].
  destruct (cell_Some u4 0 i) as [c ->]; [done|lia|lia|]. cbn [mbind option_bind]. destruct (cell_Some u4 (N - 1) i) as [d ->]; [done|lia|lia|].
  cbn [mbind option_bind]. by eexists _, _.
Qed.

Lemma init_grid_ok junk T : 1 <= N -> exists u, init_grid junk N T = Some u /\ square u.
Proof.
  intros HN. unfold init_grid.
  destruct (orange_inv (boundary N T) (fun _ s => square s.1) 0 N (replicate (Z.to_nat N) (replicate (Z.to_nat N) junk), of_int 0)) as ([u m] & -> & Hu); [lia|..].
  { intros t [u m] Ht Hu. destruct (boundary_ok T t u m) as (u' & m' & E & H'); [done|lia|]. by exists (u', m'). }
  { split; cbn [fst]; [unfold alen; rewrite length_replicate; lia|]. apply Forall_replicate. unfold alen. rewrite length_replicate. lia. }
  cbn [mbind option_bind fst] in *. destruct (Z.le_gt_cases 1 (N - 1)); [|rewrite orange_nil by lia; by exists u].
  apply (orange_inv (fun i u => orange 1 (N - 1) (fun j u => put u i j (ddiv m (4 * N))) u) (fun _ u => square u)); [done| |done].
  intros i u1 Hi H1. apply (orange_inv (fun j u => put u i j (ddiv m (4 * N))) (fun _ u => square u)); [done| |done].
  intros j u2 Hj H2. destruct (put_ok u2 i j (ddiv m (4 * N))) as (u' & E & H' & _); [done|lia|lia|eauto].
Qed.

(** ** Printing *)

(** A program that prints [o] with [n] calls and is done. *)
Inductive says : nat -> list Z -> io msg unit -> Prop :=
| says_done : says 0 [] (Done tt)
| says_say n o o' k : says n o k -> says (S n) (o' ++ o) (Say o' k).

Lemma says_one o : says 1 o (p_print o).
Proof. pose proof (says_say 0 [] o (Done tt) says_done) as H. by rewrite app_nil_r in H. Qed.

Lemma says_bind n1 o1 x : says n1 o1 x -> forall n2 o2 (f : unit -> io msg unit), says n2 o2 (f tt) -> says (n1 + n2) (o1 ++ o2) (x ≫= f).
Proof. intros H. induction H; intros n2 o2 f Hf; [done|]. rewrite <- app_assoc. constructor. by apply IHsays. Qed.

Lemma says_for (body : Z -> unit -> io msg unit) (c : nat) (o : Z -> list Z) n : forall lo,
  (forall t, lo <= t < lo + Z.of_nat n -> says c (o t) (body t tt)) -> says (n * c) (concat (o <$> seqZ lo (Z.of_nat n))) (p_for n lo body tt).
Proof.
  induction n as [|n IH]; intros lo H; [constructor|]. cbn [p_for]. rewrite seqZ_cons by lia. cbn [fmap list_fmap concat Nat.mul].
  apply says_bind; [apply H; lia|]. replace (Z.pred (Z.of_nat (S n))) with (Z.of_nat n) by lia. apply IH. intros t Ht. apply H. lia.
Qed.

Definition text V : list Z :=
  concat ((fun i => concat ((fun j => show_int (to_int (V i j)) ++ [32]) <$> seqZ 0 N) ++ [10]) <$> seqZ 0 N).
Definition lines : nat := Z.to_nat N * (Z.to_nat N * 1 + 1).

Lemma print_grid_says u V : 0 <= N -> shows u V 0 N 0 N -> says lines (text V) (print_grid N u).
Proof.
  intros HN Hu. unfold print_grid, text, lines, p_range. replace (N - 0) with (Z.of_nat (Z.to_nat N)) by lia. replace (seqZ 0 N) with (seqZ 0 (Z.of_nat (Z.to_nat N))) by (f_equal; lia).
  rewrite Nat2Z.id. apply says_for. intros i Hi. apply says_bind.
  - apply says_for. intros j Hj. rewrite (Hu i j) by lia. apply says_one.
  - apply says_one.
Qed.

(** ** The iteration *)

Lemma copied_next u V a b u' : copied V u (Z.max a 1) (Z.min b (N - 1)) u' -> shows u V a b 0 N -> 0 <= a -> b <= N -> shows u' (next V) a b 0 N.
Proof.
  intros [_ Hc] Hu Ha Hb j k Hj Hk. rewrite Hc. unfold next, inside.
  destruct (Z.leb_spec 1 j), (Z.ltb_spec j (N - 1)), (Z.leb_spec 1 k), (Z.ltb_spec k (N - 1)); cbn [andb];
    (rewrite bool_decide_true by lia; done) || (rewrite bool_decide_false by lia; by apply Hu).
Qed.

Context (g0 : list (list float)) (E : float) (L : Z).

Definition first_field : field := fun j k => default (of_int 0) (cell g0 j k).
Definition iter (t : nat) : field := Nat.iter t next first_field.
(** The iteration ends in round [t]. *)
Definition stops (t : nat) : bool := fle (diff_of (iter (t - 1)) (cells 1 (N - 1))) E || (L <? Z.of_nat t).

Lemma stop_time : exists T, (1 <= T <= rounds L)%nat /\ stops T = true /\ forall t, (1 <= t < T)%nat -> stops t = false.
Proof.
  assert (H : forall n, (exists T, (1 <= T <= n)%nat /\ stops T = true /\ forall t, (1 <= t < T)%nat -> stops t = false) \/ forall t, (1 <= t <= n)%nat -> stops t = false).
  { induction n as [|n [(T & HT & Hs & Hb)|IH]]; [right; lia|left; exists T; split_and!; [lia|lia|done..]|].
    destruct (stops (S n)) eqn:Es; [left; exists (S n); split_and!; [lia|lia|done|intros t Ht; apply IH; lia]|right]. intros t Ht.
    destruct (decide (t = S n)) as [->|]; [done|apply IH; lia]. }
  destruct (H (rounds L)) as [H1|H1]; [done|]. exfalso. specialize (H1 (rounds L)). unfold stops, rounds in H1.
  rewrite (proj2 (Z.ltb_lt _ _)) in H1 by lia. rewrite orb_true_r in H1. discriminate H1. lia.
Qed.

Lemma first_shows : square g0 -> shows g0 first_field 0 N 0 N.
Proof. intros H j k Hj Hk. unfold first_field. by destruct (cell_Some g0 j k H Hj Hk) as [x ->]. Qed.

Lemma shows_around u V : shows u V 0 N 0 N -> 2 <= N -> around u V 1 (N - 1).
Proof. intros H HN. split_and!; intros j k Hj Hk; apply H; lia. Qed.

Lemma serial_loop_ok T : 2 <= N -> stops T = true -> (forall t, (1 <= t < T)%nat -> stops t = false) -> forall fuel t u w,
  (T <= t + fuel)%nat -> (t < T)%nat -> square u -> square w -> shows u (iter t) 0 N 0 N ->
  exists u', serial_loop fuel N E L (Z.of_nat t) u w = Done u' /\ shows u' (iter (T - 1)) 0 N 0 N.
Proof.
  intros HN HT Hbefore fuel. induction fuel as [|fuel IH]; intros t u w Hf Ht Hu Hw Hs; [lia|]. cbn [serial_loop].
  destruct (sweep_ok u (iter t) w 1 (N - 1)) as (w' & E1 & Hw' & Hsw); [by apply shows_around|done|lia|lia|]. rewrite E1. cbn.
  assert (Hst : (fle (diff_of (iter t) (cells 1 (N - 1))) E || (L <? Z.of_nat t + 1)) = stops (S t)).
  { unfold stops. replace (S t - 1)%nat with t by lia. by replace (Z.of_nat (S t)) with (Z.of_nat t + 1) by lia. }
  rewrite Hst. destruct (decide (T = S t)) as [->|Hne].
  - rewrite HT. exists u. split; [done|]. by replace (S t - 1)%nat with t by lia.
  - rewrite Hbefore by lia. destruct (copy_rows_ok u w' (iter t) 1 (N - 1)) as (u' & E2 & Hc); [done..|lia|lia|]. rewrite E2. cbn.
    replace (Z.of_nat t + 1) with (Z.of_nat (S t)) by lia. apply IH; [lia|lia|apply Hc|done|].
    apply (copied_next u (iter t) 0 N u'); [|done|lia|lia]. by replace (Z.max 0 1) with 1 by lia; replace (Z.min N (N - 1)) with (N - 1) by lia.
Qed.
End grid.
