(* ===== verification/JacobEvents.v ===== *)
(** * The events of the parallel Jacobi iteration

    What the children and the coordinator write and read in every round, as
    traces; that the programs perform them; and that they are an account of the
    network: every pipe has one writer and one reader, messages are read at
    higher ranks than they are written, and a row of ghost values fits in a
    pipe. *)

From stdpp Require Import sorting.
From S2P Require Import Prelude CString Console User Network Kahn Jacob JacobGrid.
Open Scope Z_scope.

(** ** The shares *)

Section shares.
Context (N np : Z) (Hnp : 2 <= np <= N).

Definition start (i : Z) : Z := getStartingForI N np i.

Lemma share_div i : 0 <= i <= np ->
  start i = if decide (i + 1 <= N mod np) then (N / np + 1) * i else N / np * i + N mod np.
Proof.
  intros Hi. unfold start, getStartingForI. rewrite Z.quot_div_nonneg, Z.rem_mod_nonneg by lia. replace (i + 1 - 1) with i by lia.
  destruct (Z.leb_spec (i + 1) (N mod np)); [by rewrite decide_True|by rewrite decide_False by lia].
Qed.

Lemma share_num i : 0 <= i < np -> getNumberOfElements N np i = start (i + 1) - start i.
Proof.
  intros Hi. rewrite !share_div by lia. unfold getNumberOfElements. rewrite Z.quot_div_nonneg, Z.rem_mod_nonneg by lia.
  destruct (Z.leb_spec (i + 1) (N mod np)); repeat case_decide; lia.
Qed.

Lemma start_first : start 0 = 0.
Proof. rewrite share_div by lia. pose proof (Z.mod_pos_bound N np). case_decide; lia. Qed.
Lemma start_last : start np = N.
Proof. rewrite share_div by lia. pose proof (Z.mod_pos_bound N np). pose proof (Z.div_mod N np). case_decide; lia. Qed.

Lemma start_step i : 0 <= i < np -> start i + 1 <= start (i + 1).
Proof.
  intros Hi. assert (1 <= N / np) by (apply Z.div_le_lower_bound; lia). rewrite !share_div by lia. pose proof (Z.mod_pos_bound N np). repeat case_decide; nia.
Qed.

Lemma start_mono i j : 0 <= i -> i <= j -> j <= np -> start i + (j - i) <= start j.
Proof.
  intros Hi Hij Hj. replace j with (i + Z.of_nat (Z.to_nat (j - i))) by lia. assert (Hk : (Z.to_nat (j - i) <= Z.to_nat (np - i))%nat) by lia.
  generalize dependent (Z.to_nat (j - i)). intros n Hk. clear Hij Hj. induction n as [|n IH]; [replace (i + Z.of_nat 0) with i by lia; lia|].
  pose proof (start_step (i + Z.of_nat n)). replace (i + Z.of_nat (S n)) with (i + Z.of_nat n + 1) by lia. lia.
Qed.

(** The rows a child computes. *)
Definition lo (i : Z) : Z := Z.max (start i) 1.
Definition hi (i : Z) : Z := Z.min (start (i + 1)) (N - 1).

Lemma lo_hi i : 0 <= i < np -> 1 <= lo i <= hi i /\ hi i <= N - 1.
Proof.
  intros Hi. unfold lo, hi. pose proof (start_mono 0 i). pose proof (start_step i Hi). pose proof (start_mono (i + 1) np). rewrite start_first, start_last in *. lia.
Qed.

Lemma lo_next i : 0 <= i -> i + 1 < np -> lo (i + 1) = hi i.
Proof.
  intros Hi Hn. unfold lo, hi. pose proof (start_mono 0 (i + 1)). pose proof (start_mono (i + 1) np). rewrite start_first, start_last in *. lia.
Qed.

Lemma cells_app a b c : a <= b -> b <= c -> cells N a c = cells N a b ++ cells N b c.
Proof.
  intros H1 H2. unfold cells. replace (c - a) with ((b - a) + (c - b)) by lia. rewrite seqZ_app by lia. rewrite fmap_app, concat_app. do 3 f_equal. by replace (a + (b - a)) with b by lia.
Qed.

Lemma cells_split : cells N 1 (N - 1) = concat ((fun i => cells N (lo i) (hi i)) <$> seqZ 0 np).
Proof.
  assert (H : forall n, (1 <= n <= Z.to_nat np)%nat -> cells N 1 (hi (Z.of_nat n - 1)) = concat ((fun i => cells N (lo i) (hi i)) <$> seqZ 0 (Z.of_nat n))).
  { induction n as [|n IH]; [lia|]. intros Hn. replace (Z.of_nat (S n)) with (Z.of_nat n + 1) by lia. rewrite seqZ_snoc, fmap_app, concat_app by lia. cbn [fmap list_fmap concat].
    rewrite app_nil_r. replace (Z.of_nat n + 1 - 1) with (Z.of_nat n) by lia. rewrite Z.add_0_l. destruct n as [|n].
    - change (Z.of_nat 0) with 0. rewrite seqZ_nil by lia. cbn [fmap list_fmap concat app]. by replace (lo 0) with 1 by (unfold lo; rewrite start_first; lia).
    - rewrite <- IH by lia. replace (lo (Z.of_nat (S n))) with (hi (Z.of_nat (S n) - 1)) by (rewrite <- lo_next by lia; f_equal; lia).
      pose proof (lo_hi (Z.of_nat (S n) - 1)). pose proof (lo_hi (Z.of_nat (S n))). pose proof (lo_next (Z.of_nat (S n) - 1)).
      apply cells_app; [lia|]. replace (Z.of_nat (S n) - 1 + 1) with (Z.of_nat (S n)) in * by lia. lia. }
  rewrite <- (Z2Nat.id np) by lia. rewrite <- H by lia. f_equal. unfold hi. replace (Z.of_nat (Z.to_nat np) - 1 + 1) with np by lia. rewrite start_last. lia.
Qed.
End shares.

(** ** The decision to stop *)

Section decision.
Context {arith : Arith} {laws : ArithLaws arith} (N np : Z) (Hnp : 2 <= np <= N).

(** A NaN does not count: the largest change is a number, and it is at most [y]
    exactly when no change exceeds [y]. *)
Lemma dmax_num d x : fle d d = true -> fle (dmax d x) (dmax d x) = true.
Proof. intros H. unfold dmax. destruct (flt d x) eqn:E; [by apply (flt_num d x)|done]. Qed.

Lemma fle_dmax d x y : fle d d = true -> fle y y = true -> fle (dmax d x) y = fle d y && negb (flt y x).
Proof.
  intros Hd Hy. unfold dmax. destruct (flt d x) eqn:E.
  - destruct (flt_num d x E) as [_ Hx]. rewrite (flt_fle y x) by done. rewrite negb_involutive. rewrite (flt_fle d x) in E by done. apply negb_true_iff in E.
    destruct (fle x y) eqn:E1; [|by rewrite andb_false_r]. destruct (fle_total x d) as [H|H]; [done|done|by rewrite H in E|]. by rewrite (fle_trans d x y).
  - destruct (fle d y) eqn:E1; [|done]. destruct (flt y x) eqn:E2; [|done]. exfalso. destruct (flt_num y x E2) as [_ Hx].
    rewrite (flt_fle d x) in E by done. rewrite (flt_fle y x) in E2 by done. apply negb_false_iff in E. by rewrite (fle_trans x d y) in E2.
Qed.

Lemma foldl_num {A} (f : A -> float) (l : list A) : forall d, fle d d = true -> fle (foldl (fun d a => dmax d (f a)) d l) (foldl (fun d a => dmax d (f a)) d l) = true.
Proof. induction l as [|a l IH]; intros d Hd; cbn; [done|]. by apply IH, dmax_num. Qed.

Lemma fle_foldl {A} (f : A -> float) (l : list A) y : fle y y = true -> forall d, fle d d = true ->
  fle (foldl (fun d a => dmax d (f a)) d l) y = fle d y && forallb (fun a => negb (flt y (f a))) l.
Proof.
  intros Hy. induction l as [|a l IH]; intros d Hd; cbn; [by rewrite andb_true_r|]. by rewrite IH, fle_dmax, andb_assoc by (done || by apply dmax_num).
Qed.

(** The coordinator's largest change, from those of the children. *)
Definition global_diff (V : Z -> Z -> float) : float :=
  foldl (fun d i => dmax d (diff_of V (cells N (lo N np i) (hi N np i)))) (of_int 0) (seqZ 0 np).

Lemma global_diff_le V y : fle (global_diff V) y = fle (diff_of V (cells N 1 (N - 1))) y.
Proof.
  pose proof zero_num as H0. unfold global_diff, diff_of. destruct (fle y y) eqn:Hy; cycle 1.
  { assert (Hno : forall x, fle x y = false) by (intros x; destruct (fle x y) eqn:E; [|done]; apply fle_num in E as [_ E]; congruence). by rewrite !Hno. }
  rewrite (cells_split N np) by done. rewrite !fle_foldl by done.
  destruct (fle (of_int 0) y) eqn:E; [|done]. cbn [andb].
  induction (seqZ 0 np) as [|i l IH]; [done|]. cbn [forallb fmap list_fmap concat]. rewrite forallb_app, <- IH. f_equal.
  rewrite flt_fle, negb_involutive, fle_foldl, E by (done || by apply foldl_num). done.
Qed.
End decision.

(** ** The events *)

Section events.
Context {arith : Arith} {laws : ArithLaws arith} (N np : Z) (E : float) (L : Z) (g0 : list (list float)) (T : nat).
Context (Hnp : 2 <= np <= N) (HN : N <= 34) (Hg0 : square N g0).
Abbreviation start := (start N np).
Abbreviation lo := (lo N np).
Abbreviation hi := (hi N np).
Implicit Types (u w : list (list float)) (V : Z -> Z -> float) (i : Z).

(** The field before round [t]. *)
Definition before (t : nat) : Z -> Z -> float := iter N g0 (t - 1).

Definition row_msgs (dir row : Z) V : list msg :=
  (fun k => mkmsg (of_int dir) (of_int k) (V row k) (of_int GHOSTVALUE)) <$> seqZ 1 (N - 2).
Definition diff_msg i (t : nat) : msg :=
  mkmsg (diff_of (before t) (cells N (lo i) (hi i))) (of_int 0) (of_int 1) (of_int DIFFERENCE).
(** What the coordinator says at the start, and after round [t]. *)
Definition cor_msg (t : nat) : msg :=
  if decide (t = 0)%nat then mkmsg (of_int STARTCHILD) (of_int 0) (of_int 0) (of_int 0)
  else mkmsg (of_int (if decide (t = T) then -1 else 1)) (of_int 0) (of_int 0) (of_int CONTINUE_STOP_CHILD).
Definition value_msg (p : Z * Z) : msg :=
  mkmsg (of_int p.1) (of_int p.2) (before T p.1 p.2) (of_int RETURNINGVALUES).

Definition wr (r : nat) (p : pipe) (ms : list msg) : list (nat * event msg) := (fun m => (r, EWrite p m)) <$> ms.
Definition rd (r : nat) (p : pipe) (ms : list msg) : list (nat * event msg) := (fun m => (r, ERead p m)) <$> ms.

Definition ghosts i (t : nat) : list (nat * event msg) :=
  (if decide (i = 0) then [] else wr (6 * t + 0) (child_sends_upper i) (row_msgs 1 (start i) (before t))) ++
  (if decide (i = np - 1) then [] else wr (6 * t + 0) (child_sends_lower i) (row_msgs (-1) (start (i + 1) - 1) (before t))) ++
  (if decide (i = np - 1) then [] else rd (6 * t + 1) (child_sends_upper (i + 1)) (row_msgs 1 (start (i + 1)) (before t))) ++
  (if decide (i = 0) then [] else rd (6 * t + 1) (child_sends_lower (i - 1)) (row_msgs (-1) (start i - 1) (before t))).
Definition child_round i (t : nat) : list (nat * event msg) :=
  ghosts i t ++ [((6 * t + 2)%nat, EWrite (fd_child_cor i) (diff_msg i t)); ((6 * t + 5)%nat, ERead (fd_cor_child i) (cor_msg t))].
Definition posts i : list (nat * event msg) := (fun p => ((6 * T + 6)%nat, EPost np (value_msg p))) <$> cells N (lo i) (hi i).
Definition child_trace i : list (nat * event msg) :=
  rd 5 (fd_cor_child i) [cor_msg 0] ++ concat (child_round i <$> seq 1 T) ++ posts i.

Definition coord_round (t : nat) : list (nat * event msg) :=
  ((fun i => ((6 * t + 3)%nat, ERead (fd_child_cor i) (diff_msg i t))) <$> seqZ 0 np) ++
  ((fun i => ((6 * t + 4)%nat, EWrite (fd_cor_child i) (cor_msg t))) <$> seqZ 0 np).
Definition coord_trace : list (nat * event msg) :=
  ((fun i => (4%nat, EWrite (fd_cor_child i) (cor_msg 0))) <$> seqZ 0 np) ++ concat (coord_round <$> seq 1 T).

(** *** The programs perform them *)

Lemma concat_single {A B} (f : A -> B) (l : list A) : concat ((fun a => [f a]) <$> l) = f <$> l.
Proof. induction l; cbn; [done|by f_equal]. Qed.

Lemma send_row_reach r p dir row u V : shows u V row (row + 1) 0 N -> reach (send_row N p dir row u) (wr r p (row_msgs dir row V)) (Done tt).
Proof.
  intros Hu. unfold send_row, p_range. destruct (reach_for (fun t _ => x ← p_some (cell u row t); p_write p (mkmsg (of_int dir) (of_int t) x (of_int GHOSTVALUE)))
    (fun _ _ => True) (fun t => [(r, EWrite p (mkmsg (of_int dir) (of_int t) (V row t) (of_int GHOSTVALUE)))]) (Z.to_nat (N - 1 - 1)) 1 tt) as ([] & H & _); [|done|].
  - intros t [] Ht _. exists tt. split; [|done]. rewrite Hu by lia. apply (reach_p_write r). constructor.
  - unfold wr, row_msgs. rewrite <- list_fmap_compose. rewrite concat_single in H. replace (Z.of_nat (Z.to_nat (N - 1 - 1))) with (N - 2) in H by lia. exact H.
Qed.

(** A row of ghost values arrives. *)
Definition got_row u V (row : Z) u' : Prop :=
  square N u' /\ forall j k, cell u' j k = if bool_decide (j = row /\ 1 <= k < N - 1) then Some (V j k) else cell u j k.

Lemma recv_row_reach r p dir st num u V : square N u -> dir = 1 \/ dir = -1 -> let row := if decide (dir = 1) then st + num else st - 1 in 0 <= row < N ->
  exists u', reach (recv_row N p st num u) (rd r p (row_msgs dir row V)) (Done u') /\ got_row u V row u'.
Proof.
  intros Hu Hdir row Hrow. unfold recv_row, p_range.
  destruct (reach_for (fun (_ : Z) u => buf ← p_read p;
      if to_int (m3 buf) =? GHOSTVALUE then
        if to_int (m0 buf) =? 1 then p_some (put u (st + num) (to_int (m1 buf)) (m2 buf)) else p_some (put u (st - 1) (to_int (m1 buf)) (m2 buf))
      else p_print (bytes "Received wrong message instead of ghostvalue" ++ [10]) ;; Done u)
    (fun t u' => square N u' /\ forall j k, cell u' j k = if bool_decide (j = row /\ 1 <= k < t) then Some (V j k) else cell u j k)
    (fun t => [(r, ERead p (mkmsg (of_int dir) (of_int t) (V row t) (of_int GHOSTVALUE)))]) (Z.to_nat (N - 1 - 1)) 1 u) as (u' & H & Hu').
  - intros t u1 Ht (Hu1 & Hc1). destruct (put_ok N u1 row t (V row t)) as (u2 & E2 & Hu2 & Hc2); [done|lia|lia|]. exists u2. split.
    + apply (reach_p_read r). cbn [m0 m1 m2 m3]. rewrite !int_exact by (unfold GHOSTVALUE; lia). rewrite Z.eqb_refl.
      replace (if dir =? 1 then _ else _) with (p_some (put u1 row t (V row t))); [rewrite E2; constructor|].
      unfold row. by destruct Hdir as [-> | ->].
    + split; [done|]. intros j k. rewrite Hc2, Hc1. case_bool_decide as D; [destruct D as [-> ->]; by rewrite bool_decide_true by lia|].
      case_bool_decide as D1; case_bool_decide as D2; try done; [lia|]. destruct D. lia.
  - split; [done|]. intros j k. by rewrite bool_decide_false by lia.
  - exists u'. unfold rd, row_msgs. rewrite <- list_fmap_compose. rewrite concat_single in H. replace (Z.of_nat (Z.to_nat (N - 1 - 1))) with (N - 2) in H by lia. split; [exact H|].
    replace (1 + Z.of_nat (Z.to_nat (N - 1 - 1))) with (N - 1) in Hu' by lia. exact Hu'.
Qed.

Lemma start_zero i : 0 <= i < np -> (start i =? 0) = bool_decide (i = 0).
Proof.
  intros Hi. pose proof (start_mono N np Hnp 0 i). rewrite start_first in * by done. case_bool_decide as D; [subst; by rewrite start_first|]. apply Z.eqb_neq. lia.
Qed.
Lemma start_top i : 0 <= i < np -> (start (i + 1) =? N) = bool_decide (i = np - 1).
Proof.
  intros Hi. pose proof (start_mono N np Hnp (i + 1) np). rewrite start_last in * by done. case_bool_decide as D; [|apply Z.eqb_neq; lia].
  subst. replace (np - 1 + 1) with np by lia. rewrite start_last by done. apply Z.eqb_refl.
Qed.
Lemma start_range i : 0 <= i < np -> 0 <= start i < start (i + 1) /\ start (i + 1) <= N.
Proof. intros Hi. pose proof (start_mono N np Hnp 0 i). pose proof (start_mono N np Hnp (i + 1) np). pose proof (start_step N np Hnp i Hi). rewrite start_first, start_last in * by done. lia. Qed.

(** What child [i] has: its rows of the field. *)
Definition rows i u V : Prop := square N u /\ shows u V (start i) (start (i + 1)) 0 N.

Lemma got_rows i u V row u' : rows i u V -> got_row u V row u' -> rows i u' V.
Proof.
  intros [Hu Hs] [Hu' Hc]. split; [done|]. intros j k Hj Hk. rewrite Hc. case_bool_decide; [done|]. by apply Hs.
Qed.
Lemma got_other u V row u' j k : got_row u V row u' -> cell u j k = Some (V j k) -> cell u' j k = Some (V j k).
Proof. intros [_ Hc] H. rewrite Hc. by case_bool_decide. Qed.

(** The neighbouring rows have arrived. *)
Definition ready i u V : Prop := rows i u V /\
  (i <> 0 -> shows u V (start i - 1) (start i) 1 (N - 1)) /\ (i <> np - 1 -> shows u V (start (i + 1)) (start (i + 1) + 1) 1 (N - 1)).

Lemma ready_around i u V : 0 <= i < np -> ready i u V -> around N u V (lo i) (hi i).
Proof.
  intros Hi ([Hu Hs] & Hup & Hdn). pose proof (start_range i Hi) as (Hr1 & Hr2). pose proof (start_zero i Hi) as H0. pose proof (start_top i Hi) as H1. unfold lo, hi.
  split_and!; intros j k Hj Hk; (destruct (decide (start i <= j < start (i + 1))); [apply Hs; lia|]).
  - lia.
  - apply Hup; [|lia..]. intros ->. rewrite start_first in * by done. lia.
  - apply Hdn; [|lia..]. intros ->. replace (np - 1 + 1) with np in * by lia. rewrite start_last in * by done. lia.
Qed.

Lemma recv_upper i u V (r : nat) : 0 <= i < np - 1 -> rows i u V ->
  exists u', reach (recv_row N (child_sends_upper (i + 1)) (start i) (start (i + 1) - start i) u) (rd r (child_sends_upper (i + 1)) (row_msgs 1 (start (i + 1)) V)) (Done u') /\
    got_row u V (start (i + 1)) u'.
Proof.
  intros Hi [Hu _]. pose proof (start_range (i + 1)) as H. destruct (recv_row_reach r (child_sends_upper (i + 1)) 1 (start i) (start (i + 1) - start i) u V) as (u' & R & G); [done|by left| |].
  - rewrite decide_True by done. lia.
  - rewrite decide_True in R, G by done. replace (start i + (start (i + 1) - start i)) with (start (i + 1)) in R, G by lia. by exists u'.
Qed.
Lemma recv_lower i u V (r : nat) num : 0 < i < np -> square N u ->
  exists u', reach (recv_row N (child_sends_lower (i - 1)) (start i) num u) (rd r (child_sends_lower (i - 1)) (row_msgs (-1) (start i - 1) V)) (Done u') /\
    got_row u V (start i - 1) u'.
Proof.
  intros Hi Hu. pose proof (start_range i) as H. pose proof (start_mono N np Hnp 0 i) as H'. rewrite start_first in H' by done.
  destruct (recv_row_reach r (child_sends_lower (i - 1)) (-1) (start i) num u V) as (u' & R & G); [done|by right| |].
  - rewrite decide_False by done. lia.
  - rewrite decide_False in R, G by done. by exists u'.
Qed.

Lemma exchange_reach i (t : nat) u : 0 <= i < np -> rows i u (before t) ->
  exists u', reach (exchange N (start i) (getNumberOfElements N np i) i u) (ghosts i t) (Done u') /\ ready i u' (before t).
Proof.
  intros Hi Hr. pose proof (start_range i Hi) as (Hst & Hst'). unfold exchange, ghosts. rewrite (share_num N np Hnp i Hi). fold (start i) (start (i + 1)).
  replace (start i + (start (i + 1) - start i)) with (start (i + 1)) by lia. rewrite start_zero, start_top by done.
  assert (Hup : reach (if negb (bool_decide (i = 0)) then send_row N (child_sends_upper i) 1 (start i) u else Done tt)
    (if decide (i = 0) then [] else wr (6 * t + 0) (child_sends_upper i) (row_msgs 1 (start i) (before t))) (Done tt)).
  { destruct (decide (i = 0)) as [D|D]; [rewrite (bool_decide_true _ D); constructor|rewrite (bool_decide_false _ D)]. apply send_row_reach. intros j k Hj Hk. apply Hr; lia. }
  assert (Hdn : reach (if negb (bool_decide (i = np - 1)) then send_row N (child_sends_lower i) (-1) (start (i + 1) - 1) u else Done tt)
    (if decide (i = np - 1) then [] else wr (6 * t + 0) (child_sends_lower i) (row_msgs (-1) (start (i + 1) - 1) (before t))) (Done tt)).
  { destruct (decide (i = np - 1)) as [D|D]; [rewrite (bool_decide_true _ D); constructor|rewrite (bool_decide_false _ D)]. apply send_row_reach. intros j k Hj Hk. apply Hr; lia. }
  cut (exists u', reach (if bool_decide (i = 0) then recv_row N (child_sends_upper (i + 1)) (start i) (start (i + 1) - start i) u
      else if bool_decide (i = np - 1) then recv_row N (child_sends_lower (i - 1)) (start i) (start (i + 1) - start i) u
      else u ← recv_row N (child_sends_upper (i + 1)) (start i) (start (i + 1) - start i) u; recv_row N (child_sends_lower (i - 1)) (start i) (start (i + 1) - start i) u)
    ((if decide (i = np - 1) then [] else rd (6 * t + 1) (child_sends_upper (i + 1)) (row_msgs 1 (start (i + 1)) (before t))) ++
     (if decide (i = 0) then [] else rd (6 * t + 1) (child_sends_lower (i - 1)) (row_msgs (-1) (start i - 1) (before t)))) (Done u') /\ ready i u' (before t)).
  { intros (u' & R & H). exists u'. split; [|done]. eapply reach_bind; [exact Hup|]. eapply reach_bind; [exact Hdn|]. exact R. }
  destruct (decide (i = 0)) as [H0|H0], (decide (i = np - 1)) as [H1|H1]; [lia|..]; rewrite ?(bool_decide_true (i = 0)), ?(bool_decide_false (i = 0)), ?(bool_decide_true (i = np - 1)), ?(bool_decide_false (i = np - 1)) by done.
  - destruct (recv_upper i u (before t) (6 * t + 1)) as (u' & R & G); [lia|done|]. exists u'. rewrite app_nil_r. split; [exact R|]. split; [by eapply got_rows|]. split; [done|].
    intros _ j k Hj Hk. destruct G as [_ G]. by rewrite G, bool_decide_true by lia.
  - destruct (recv_lower i u (before t) (6 * t + 1) (start (i + 1) - start i)) as (u' & R & G); [lia|apply Hr|]. exists u'. split; [exact R|]. split; [by eapply got_rows|]. split; [|done].
    intros _ j k Hj Hk. destruct G as [_ G]. by rewrite G, bool_decide_true by lia.
  - destruct (recv_upper i u (before t) (6 * t + 1)) as (u1 & R1 & G1); [lia|done|]. destruct (recv_lower i u1 (before t) (6 * t + 1) (start (i + 1) - start i)) as (u2 & R2 & G2); [lia|apply G1|].
    exists u2. split; [by eapply reach_bind|]. split; [eapply got_rows; [eapply got_rows; done|done]|]. split; intros _ j k Hj Hk.
    + destruct G2 as [_ G2]. by rewrite G2, bool_decide_true by lia.
    + eapply got_other; [done|]. destruct G1 as [_ G1]. by rewrite G1, bool_decide_true by lia.
Qed.

Lemma before_S (t : nat) : (1 <= t)%nat -> before (S t) = next N (before t).
Proof. intros Ht. unfold before, iter. replace (S t - 1)%nat with (S (t - 1)) by lia. done. Qed.

Lemma cor_stop (t : nat) : (1 <= t)%nat -> to_int (m3 (cor_msg t)) = CONTINUE_STOP_CHILD /\ to_int (m0 (cor_msg t)) = if decide (t = T) then -1 else 1.
Proof. intros Ht. unfold cor_msg. rewrite decide_False by lia. cbn [m0 m3]. rewrite !int_exact; [done|case_decide; lia|unfold CONTINUE_STOP_CHILD; lia]. Qed.

Lemma child_loop_reach i : 0 <= i < np -> forall fuel (t : nat) u w, (1 <= t <= T)%nat -> (T - t < fuel)%nat -> rows i u (before t) -> square N w ->
  exists u', reach (child_loop fuel N (start i) (getNumberOfElements N np i) i u w) (concat (child_round i <$> seq t (T - t + 1))) (Done u') /\ rows i u' (before T).
Proof.
  intros Hi fuel. induction fuel as [|fuel IH]; intros t u w Ht Hf Hr Hw; [lia|]. cbn [child_loop].
  destruct (exchange_reach i t u Hi Hr) as (u1 & R1 & Hr1). pose proof (lo_hi N np Hnp i Hi) as (Hlo & Hhi).
  replace (Z.max (start i) 1) with (lo i) by done. replace (Z.min (start i + getNumberOfElements N np i) (N - 1)) with (hi i) by (rewrite share_num by done; unfold hi; lia).
  destruct (sweep_ok N u1 (before t) w (lo i) (hi i)) as (w1 & E1 & Hw1 & Hs1); [by apply ready_around|done|lia|lia|].
  rewrite Nat.add_1_r. cbn [seq fmap list_fmap concat]. unfold child_round at 1. rewrite <- !app_assoc.
  destruct (cor_stop t ltac:(lia)) as [M3 M0].
  cut (exists u', reach (if to_int (m0 (cor_msg t)) =? -1 then Done u1 else u ← p_some (copy_rows N (lo i) (hi i) u1 w1); child_loop fuel N (start i) (getNumberOfElements N np i) i u w1)
    (concat (child_round i <$> seq (S t) (T - t))) (Done u') /\ rows i u' (before T)).
  { intros (u' & R & H'). exists u'. split; [|done]. eapply reach_bind; [exact R1|]. rewrite E1. apply (reach_p_write (6 * t + 2)). apply (reach_p_read (6 * t + 5)).
    rewrite M3, Z.eqb_refl. exact R. }
  rewrite M0. destruct (decide (t = T)) as [->|Hne].
  - exists u1. rewrite Nat.sub_diag. split; [constructor|apply Hr1].
  - destruct (copy_rows_ok N u1 w1 (before t) (lo i) (hi i)) as (u2 & E2 & Hc); [apply Hr1|done..|lia|lia|].
    destruct (IH (S t) u2 w1) as (u' & R & H'); [lia|lia| |done|].
    + split; [apply Hc|]. rewrite before_S by lia. pose proof (start_range i Hi) as (? & ?). apply (copied_next N u1); [exact Hc|apply Hr1|lia|lia].
    + exists u'. split; [|done]. rewrite E2. replace (T - t)%nat with (T - S t + 1)%nat by lia. exact R.
Qed.

Lemma fmap_cells {B} (f : Z * Z -> B) a b : f <$> cells N a b = concat ((fun x => (fun y => f (x, y)) <$> seqZ 1 (N - 2)) <$> seqZ a (b - a)).
Proof.
  unfold cells. induction (seqZ a (b - a)) as [|x l IH]; [done|]. cbn [fmap list_fmap concat]. rewrite fmap_app, IH. f_equal. unfold row_cells. by rewrite <- list_fmap_compose.
Qed.

Lemma child_reach i w : 0 <= i < np -> (1 <= T <= rounds L)%nat -> square N w -> reach (child N np L i g0 w) (child_trace i) (Done tt).
Proof.
  intros Hi HT Hw. unfold child, child_trace, rd. cbn [fmap list_fmap app]. apply (reach_p_read 5). fold (start i). pose proof (start_range i Hi) as (? & ?).
  destruct (child_loop_reach i Hi (rounds L) 1 g0 w) as (u & R & [Hu Hs]); [lia|lia| |done|].
  { split; [done|]. intros j k Hj Hk. apply (first_shows N g0); [done|lia|lia]. }
  replace (T - 1 + 1)%nat with T in R by lia. eapply reach_bind; [exact R|]. pose proof (lo_hi N np Hnp i Hi) as (Hlo & Hhi).
  replace (Z.max (start i) 1) with (lo i) by done. replace (Z.min (start i + getNumberOfElements N np i) (N - 1)) with (hi i) by (rewrite share_num by done; unfold hi; lia).
  unfold posts, p_range. rewrite fmap_cells.
  match goal with |- reach (p_for ?n ?a ?body tt) _ _ => destruct (reach_for body (fun _ _ => True)
    (fun x => (fun y => ((6 * T + 6)%nat, EPost np (value_msg (x, y)))) <$> seqZ 1 (N - 2)) n a tt) as ([] & R' & _); [|done|] end.
  2:{ by replace (Z.of_nat (Z.to_nat (hi i - lo i))) with (hi i - lo i) in R' by lia. }
  intros x [] Hx _. exists tt. split; [|done].
  match goal with |- reach (p_for ?n ?a ?body tt) _ _ => destruct (reach_for body (fun _ _ => True) (fun y => [((6 * T + 6)%nat, EPost np (value_msg (x, y)))]) n a tt) as ([] & R' & _); [|done|] end.
  2:{ rewrite concat_single in R'. by replace (Z.of_nat (Z.to_nat (N - 1 - 1))) with (N - 2) in R' by lia. }
  intros y [] Hy _. exists tt. split; [|done]. rewrite Hs by (unfold lo, hi in *; lia). apply (reach_p_send (6 * T + 6)). constructor.
Qed.

Context (HT : stops N g0 E L T = true) (Hbefore : forall t : nat, (1 <= t < T)%nat -> stops N g0 E L t = false).

Lemma stops_global (t : nat) : (1 <= t <= T)%nat -> (fle (global_diff N np (before t)) E || (L <? Z.of_nat t)) = bool_decide (t = T).
Proof.
  intros Ht. rewrite global_diff_le by done. change (stops N g0 E L t = bool_decide (t = T)). case_bool_decide as D; [by subst|]. apply Hbefore. lia.
Qed.

Lemma coord_loop_reach fuel : forall t : nat, (1 <= t <= T)%nat -> (T - t < fuel)%nat ->
  reach (coord_loop fuel E np L (Z.of_nat t)) (concat (coord_round <$> seq t (T - t + 1))) (Done tt).
Proof.
  induction fuel as [|fuel IH]; intros t Ht Hf; [lia|]. cbn [coord_loop]. rewrite Nat.add_1_r. cbn [seq fmap list_fmap concat]. unfold coord_round at 1. rewrite <- !app_assoc.
  unfold p_range. rewrite Z.sub_0_r.
  match goal with |- reach (p_for ?n ?a ?body ?s ≫= _) _ _ => destruct (reach_for body (fun i d => d = foldl (fun d i => dmax d (diff_of (before t) (cells N (lo i) (hi i)))) (of_int 0) (seqZ 0 i))
    (fun i => [((6 * t + 3)%nat, ERead (fd_child_cor i) (diff_msg i t))]) n a s) as (d & R & Hd); [|done|] end.
  { intros i d Hi Hd. eexists. split.
    - apply (reach_p_read (6 * t + 3)). cbn [m0 m3 diff_msg]. rewrite int_exact by (unfold DIFFERENCE; lia). rewrite Z.eqb_refl. constructor.
    - rewrite seqZ_snoc, foldl_app by lia. cbn. rewrite <- Hd. reflexivity. }
  rewrite concat_single in R. replace (Z.of_nat (Z.to_nat np)) with np in R, Hd by lia. eapply reach_bind; [exact R|]. cbv beta zeta.
  replace (fle d E || (L <? Z.of_nat t)) with (bool_decide (t = T)) by (rewrite Hd; symmetry; by apply stops_global).
  match goal with |- reach (p_for ?n ?a ?body ?s ≫= _) _ _ => destruct (reach_for body (fun _ _ => True)
    (fun i => [((6 * t + 4)%nat, EWrite (fd_cor_child i) (cor_msg t))]) n a s) as ([] & R' & _); [|done|] end.
  { intros i [] Hi _. exists tt. split; [|done]. replace (mkmsg _ _ _ _) with (cor_msg t); [apply (reach_p_write (6 * t + 4)); constructor|].
    unfold cor_msg. rewrite decide_False by lia. do 2 f_equal. by case_bool_decide; case_decide. }
  rewrite concat_single in R'. replace (Z.of_nat (Z.to_nat np)) with np in R' by lia. eapply reach_bind; [exact R'|]. cbv beta.
  case_bool_decide as D; [subst; rewrite Nat.sub_diag; constructor|]. replace (Z.of_nat t + 1) with (Z.of_nat (S t)) by lia.
  replace (T - t)%nat with (T - S t + 1)%nat by lia. apply IH; lia.
Qed.

(** What is left of the coordinator once the children have been told to stop. *)
Definition collect : io msg unit :=
  u ← gather N g0;
  p_range 0 np (fun _ _ => p_wait) tt ;;
  print_grid N u.

Lemma coord_reach : (1 <= T <= rounds L)%nat -> reach (coordinator N E np L g0) coord_trace collect.
Proof.
  intros Hr. unfold coordinator, collect, coord_trace, p_range. rewrite Z.sub_0_r.
  match goal with |- reach (p_for ?n ?a ?body ?s ≫= _) _ _ => destruct (reach_for body (fun _ _ => True)
    (fun i => [(4%nat, EWrite (fd_cor_child i) (cor_msg 0))]) n a s) as ([] & R & _); [|done|] end.
  { intros i [] Hi _. exists tt. split; [|done]. apply (reach_p_write 4). constructor. }
  rewrite concat_single in R. replace (Z.of_nat (Z.to_nat np)) with np in R by lia. eapply reach_bind; [exact R|].
  rewrite <- (app_nil_r (concat _)). eapply reach_bind; [|apply reach_nil]. replace T with (T - 1 + 1)%nat at 1 by lia. apply (coord_loop_reach (rounds L) 1); lia.
Qed.

(** *** They are an account of the network *)

(** Messages at ranks [6 * t + c]. *)
Definition blocks (c : nat) (f : nat -> list msg) (ts : list nat) : list (nat * msg) :=
  concat ((fun t => (fun m => ((6 * t + c)%nat, m)) <$> f t) <$> ts).

Lemma blocks_cons c f t ts : blocks c f (t :: ts) = ((fun m => ((6 * t + c)%nat, m)) <$> f t) ++ blocks c f ts.
Proof. done. Qed.
Lemma blocks_nil c f ts : (forall t, f t = []) -> blocks c f ts = [].
Proof. intros H. induction ts as [|t ts IH]; [done|]. by rewrite blocks_cons, H, IH. Qed.

Lemma blocks_snd c f ts : snd <$> blocks c f ts = concat (f <$> ts).
Proof. induction ts as [|t ts IH]; [done|]. rewrite blocks_cons, fmap_app, IH, <- list_fmap_compose. cbn [fmap list_fmap concat]. f_equal. apply list_fmap_id. Qed.

Lemma upto_app r (l1 l2 : list (nat * msg)) : upto r (l1 ++ l2) = (upto r l1 + upto r l2)%nat.
Proof. unfold upto. by rewrite filter_app, length_app. Qed.
Lemma below_app r (l1 l2 : list (nat * msg)) : below r (l1 ++ l2) = (below r l1 + below r l2)%nat.
Proof. unfold below. by rewrite filter_app, length_app. Qed.
Lemma upto_block r r' (ms : list msg) : upto r ((fun m => (r', m)) <$> ms) = if decide (r' <= r)%nat then length ms else 0%nat.
Proof. induction ms as [|m ms IH]; [by case_decide|]. rewrite fmap_cons, upto_cons, IH. cbn [fst length]. by case_decide. Qed.
Lemma below_block r r' (ms : list msg) : below r ((fun m => (r', m)) <$> ms) = if decide (r' < r)%nat then length ms else 0%nat.
Proof. induction ms as [|m ms IH]; [by case_decide|]. rewrite fmap_cons, below_cons, IH. cbn [fst length]. by case_decide. Qed.

Lemma blocks_sent r c f ts : (upto r (blocks (c + 1) f ts) <= below r (blocks c f ts))%nat.
Proof.
  induction ts as [|t ts IH]; [done|]. rewrite !blocks_cons, upto_app, below_app, upto_block, below_block. repeat case_decide; lia.
Qed.

Lemma blocks_late r c f n : forall s, (r < 6 * s + c)%nat -> upto r (blocks c f (seq s n)) = 0%nat.
Proof.
  induction n as [|n IH]; intros s Hs; [done|]. cbn [seq]. rewrite blocks_cons, upto_app, upto_block, IH by lia. rewrite decide_False by lia. done.
Qed.

Lemma blocks_room r c f n : (c < 5)%nat -> (forall t, length (f t) <= 32)%nat -> forall s,
  (upto r (blocks c f (seq s n)) <= 32 + below r (blocks (c + 1) f (seq s n)))%nat.
Proof.
  intros Hc Hf. induction n as [|n IH]; intros s; [cbn; lia|]. cbn [seq]. rewrite !blocks_cons, upto_app, below_app, upto_block, below_block.
  pose proof (IH (S s)). destruct (decide (6 * s + (c + 1) < r)%nat); [rewrite decide_True by lia; lia|].
  rewrite (blocks_late r c f n (S s)) by lia. pose proof (Hf s). case_decide; lia.
Qed.

Lemma writes_app p tr1 tr2 : writes p (tr1 ++ tr2) = writes p tr1 ++ writes (M := msg) p tr2.
Proof. unfold writes. apply omap_app. Qed.
Lemma reads_app p tr1 tr2 : reads p (tr1 ++ tr2) = reads p tr1 ++ reads (M := msg) p tr2.
Proof. unfold reads. apply omap_app. Qed.
Lemma writes_wr p r p0 ms : writes p (wr r p0 ms) = if decide (p0 = p) then (fun m => (r, m)) <$> ms else [].
Proof. induction ms as [|m ms IH]; [by case_decide|]. cbn [wr fmap list_fmap]. rewrite writes_cons. fold (wr r p0 ms). rewrite IH. by case_decide. Qed.
Lemma reads_rd p r p0 ms : reads p (rd r p0 ms) = if decide (p0 = p) then (fun m => (r, m)) <$> ms else [].
Proof. induction ms as [|m ms IH]; [by case_decide|]. cbn [rd fmap list_fmap]. rewrite reads_cons. fold (rd r p0 ms). rewrite IH. by case_decide. Qed.
Lemma writes_rd p r p0 ms : writes p (rd r p0 ms) = [].
Proof. induction ms as [|m ms IH]; [done|]. cbn [rd fmap list_fmap]. by rewrite writes_cons. Qed.
Lemma reads_wr p r p0 ms : reads p (wr r p0 ms) = [].
Proof. induction ms as [|m ms IH]; [done|]. cbn [wr fmap list_fmap]. by rewrite reads_cons. Qed.
Lemma writes_concat {A} p (f : A -> list (nat * event msg)) l : writes p (concat (f <$> l)) = concat ((fun a => writes p (f a)) <$> l).
Proof. induction l as [|a l IH]; [done|]. cbn [fmap list_fmap concat]. by rewrite writes_app, IH. Qed.
Lemma reads_concat {A} p (f : A -> list (nat * event msg)) l : reads p (concat (f <$> l)) = concat ((fun a => reads p (f a)) <$> l).
Proof. induction l as [|a l IH]; [done|]. cbn [fmap list_fmap concat]. by rewrite reads_app, IH. Qed.
Lemma no_posts i p : writes p (posts i) = [] /\ reads p (posts i) = [].
Proof. unfold posts. induction (cells N (lo i) (hi i)) as [|c l [IH1 IH2]]; [done|]. cbn [fmap list_fmap]. by rewrite writes_cons, reads_cons. Qed.

(** The pipe [(s, i)] is the pipe [(name, j)]. *)
Definition same_pipe (s name : string) (i j : Z) : bool := String.eqb name s && (i =? j).

Lemma same_pipe_spec s name i j : Bool.reflect ((s, i) = (name, j)) (same_pipe s name i j).
Proof. unfold same_pipe. destruct (String.eqb_spec name s), (Z.eqb_spec i j); constructor; congruence. Qed.

(** One event for every child. *)
Lemma writes_each (s name : string) r (f : Z -> msg) j n :
  writes (name, j) ((fun i => (r, EWrite (s, i) (f i))) <$> seqZ 0 (Z.of_nat n)) = if String.eqb name s && ((0 <=? j) && (j <? Z.of_nat n)) then [(r, f j)] else [].
Proof.
  induction n as [|n IH].
  - change (Z.of_nat 0) with 0. destruct (String.eqb name s), (Z.leb_spec 0 j), (Z.ltb_spec j 0); (done || lia).
  - replace (Z.of_nat (S n)) with (Z.of_nat n + 1) by lia. rewrite seqZ_snoc, fmap_app, writes_app, IH by lia. cbn [fmap list_fmap]. rewrite Z.add_0_l.
    change [(r, EWrite (s, Z.of_nat n) (f (Z.of_nat n)))] with (wr r (s, Z.of_nat n) [f (Z.of_nat n)]). rewrite writes_wr.
    destruct (String.eqb_spec name s) as [->|Hs]; [|rewrite decide_False by congruence; done]. cbn [andb].
    destruct (Z.leb_spec 0 j), (Z.ltb_spec j (Z.of_nat n)), (Z.ltb_spec j (Z.of_nat n + 1)); try lia; cbn [andb]; try (rewrite decide_False by (intros [=]; lia); done).
    assert (j = Z.of_nat n) as -> by lia. by rewrite decide_True.
Qed.
Lemma reads_each (s name : string) r (f : Z -> msg) j n :
  reads (name, j) ((fun i => (r, ERead (s, i) (f i))) <$> seqZ 0 (Z.of_nat n)) = if String.eqb name s && ((0 <=? j) && (j <? Z.of_nat n)) then [(r, f j)] else [].
Proof.
  induction n as [|n IH].
  - change (Z.of_nat 0) with 0. destruct (String.eqb name s), (Z.leb_spec 0 j), (Z.ltb_spec j 0); (done || lia).
  - replace (Z.of_nat (S n)) with (Z.of_nat n + 1) by lia. rewrite seqZ_snoc, fmap_app, reads_app, IH by lia. cbn [fmap list_fmap]. rewrite Z.add_0_l.
    change [(r, ERead (s, Z.of_nat n) (f (Z.of_nat n)))] with (rd r (s, Z.of_nat n) [f (Z.of_nat n)]). rewrite reads_rd.
    destruct (String.eqb_spec name s) as [->|Hs]; [|rewrite decide_False by congruence; done]. cbn [andb].
    destruct (Z.leb_spec 0 j), (Z.ltb_spec j (Z.of_nat n)), (Z.ltb_spec j (Z.of_nat n + 1)); try lia; cbn [andb]; try (rewrite decide_False by (intros [=]; lia); done).
    assert (j = Z.of_nat n) as -> by lia. by rewrite decide_True.
Qed.
Lemma writes_reads p r (q : Z -> pipe) (f : Z -> msg) l : writes p ((fun i => (r, ERead (q i) (f i))) <$> l) = [].
Proof. induction l; [done|]. cbn [fmap list_fmap]. by rewrite writes_cons. Qed.
Lemma reads_writes p r (q : Z -> pipe) (f : Z -> msg) l : reads p ((fun i => (r, EWrite (q i) (f i))) <$> l) = [].
Proof. induction l; [done|]. cbn [fmap list_fmap]. by rewrite reads_cons. Qed.

Lemma writes_wr_at (s name : string) i j r ms : writes (name, j) (wr r (s, i) ms) = if same_pipe s name i j then (fun m => (r, m)) <$> ms else [].
Proof. rewrite writes_wr. destruct (same_pipe_spec s name i j); [by rewrite decide_True|by rewrite decide_False]. Qed.
Lemma reads_rd_at (s name : string) i j r ms : reads (name, j) (rd r (s, i) ms) = if same_pipe s name i j then (fun m => (r, m)) <$> ms else [].
Proof. rewrite reads_rd. destruct (same_pipe_spec s name i j); [by rewrite decide_True|by rewrite decide_False]. Qed.

(** [l] unless [i = n]. *)
Definition unless {A} (i n : Z) (l : list A) : list A := if i =? n then [] else l.
Lemma if_unless {A} (i n : Z) (l : list A) : (if decide (i = n) then [] else l) = unless i n l.
Proof. unfold unless. destruct (Z.eqb_spec i n); [by rewrite decide_True|by rewrite decide_False]. Qed.

Lemma writes_round name i j t : writes (name, j) (child_round i t) =
  unless i 0 (if same_pipe "child_sends_upper" name i j then (fun m => ((6 * t + 0)%nat, m)) <$> row_msgs 1 (start i) (before t) else []) ++
  unless i (np - 1) (if same_pipe "child_sends_lower" name i j then (fun m => ((6 * t + 0)%nat, m)) <$> row_msgs (-1) (start (i + 1) - 1) (before t) else []) ++
  (if same_pipe "fd_child_cor" name i j then [((6 * t + 2)%nat, diff_msg i t)] else []).
Proof.
  change (child_round i t) with (ghosts i t ++ wr (6 * t + 2) (fd_child_cor i) [diff_msg i t] ++ rd (6 * t + 5) (fd_cor_child i) [cor_msg t]). unfold ghosts, fd_child_cor, child_sends_upper, child_sends_lower, fd_cor_child.
  rewrite <- !app_assoc, !writes_app, writes_rd, writes_wr_at, app_nil_r, !if_unless.
  assert (Hrd : forall n r p ms, writes (name, j) (unless i n (rd r p ms)) = []) by (intros; unfold unless; case_match; [done|apply writes_rd]).
  assert (Hwr : forall n r s i' ms, writes (name, j) (unless i n (wr r (s, i') ms)) = unless i n (if same_pipe s name i' j then (fun m => (r, m)) <$> ms else []))
    by (intros; unfold unless; case_match; [done|apply writes_wr_at]).
  by rewrite !Hwr, !Hrd.
Qed.

Lemma reads_round name i j t : reads (name, j) (child_round i t) =
  unless i (np - 1) (if same_pipe "child_sends_upper" name (i + 1) j then (fun m => ((6 * t + 1)%nat, m)) <$> row_msgs 1 (start (i + 1)) (before t) else []) ++
  unless i 0 (if same_pipe "child_sends_lower" name (i - 1) j then (fun m => ((6 * t + 1)%nat, m)) <$> row_msgs (-1) (start i - 1) (before t) else []) ++
  (if same_pipe "fd_cor_child" name i j then [((6 * t + 5)%nat, cor_msg t)] else []).
Proof.
  change (child_round i t) with (ghosts i t ++ wr (6 * t + 2) (fd_child_cor i) [diff_msg i t] ++ rd (6 * t + 5) (fd_cor_child i) [cor_msg t]). unfold ghosts, fd_child_cor, child_sends_upper, child_sends_lower, fd_cor_child.
  rewrite <- !app_assoc, !reads_app, reads_wr, reads_rd_at, !if_unless.
  assert (Hwr : forall n r p ms, reads (name, j) (unless i n (wr r p ms)) = []) by (intros; unfold unless; case_match; [done|apply reads_wr]).
  assert (Hrd : forall n r s i' ms, reads (name, j) (unless i n (rd r (s, i') ms)) = unless i n (if same_pipe s name i' j then (fun m => (r, m)) <$> ms else []))
    by (intros; unfold unless; case_match; [done|apply reads_rd_at]).
  by rewrite !Hrd, !Hwr.
Qed.

Lemma writes_child name i j : writes (name, j) (child_trace i) = concat ((fun t => writes (name, j) (child_round i t)) <$> seq 1 T).
Proof. unfold child_trace. rewrite !writes_app, writes_rd, writes_concat. destruct (no_posts i (name, j)) as [-> _]. by rewrite app_nil_r. Qed.
Lemma reads_child name i j : reads (name, j) (child_trace i) =
  (if same_pipe "fd_cor_child" name i j then [(5%nat, cor_msg 0)] else []) ++ concat ((fun t => reads (name, j) (child_round i t)) <$> seq 1 T).
Proof. unfold child_trace. rewrite !reads_app, reads_concat. destruct (no_posts i (name, j)) as [_ ->]. rewrite app_nil_r. f_equal. apply reads_rd_at. Qed.

Lemma writes_coord name j : writes (name, j) coord_trace = if String.eqb name "fd_cor_child" && ((0 <=? j) && (j <? np)) then blocks 4 (fun t => [cor_msg t]) (seq 0 (S T)) else [].
Proof.
  unfold coord_trace, coord_round, fd_cor_child. rewrite writes_app, writes_concat.
  assert (Hw : forall (r : nat) (m : msg), writes (name, j) ((fun i => (r, EWrite ("fd_cor_child", i) m)) <$> seqZ 0 np) =
    if String.eqb name "fd_cor_child" && ((0 <=? j) && (j <? np)) then [(r, m)] else []).
  { intros r m. pose proof (writes_each "fd_cor_child" name r (fun _ => m) j (Z.to_nat np)) as H. by rewrite Z2Nat.id in H by lia. }
  rewrite Hw. rewrite (list_fmap_ext _ (fun t => if String.eqb name "fd_cor_child" && ((0 <=? j) && (j <? np)) then [((6 * t + 4)%nat, cor_msg t)] else [])).
  - case_match; [done|]. by induction (seq 1 T).
  - intros k t _. by rewrite writes_app, writes_reads, Hw.
Qed.

Lemma reads_coord name j : reads (name, j) coord_trace = if String.eqb name "fd_child_cor" && ((0 <=? j) && (j <? np)) then blocks 3 (fun t => [diff_msg j t]) (seq 1 T) else [].
Proof.
  unfold coord_trace, coord_round, fd_child_cor. rewrite reads_app, reads_concat, reads_writes.
  rewrite (list_fmap_ext _ (fun t => if String.eqb name "fd_child_cor" && ((0 <=? j) && (j <? np)) then [((6 * t + 3)%nat, diff_msg j t)] else [])).
  - case_match; [done|]. by induction (seq 1 T).
  - intros k t _. rewrite reads_app, reads_writes, app_nil_r. pose proof (reads_each "fd_child_cor" name (6 * t + 3) (fun i => diff_msg i t) j (Z.to_nat np)) as H. by rewrite Z2Nat.id in H by lia.
Qed.

(** Every pipe: its writer, its reader, the rank of a message within its round,
    the messages of a round, and the rounds. *)
Record flow := mkflow { fl_from : Z; fl_to : Z; fl_c : nat; fl_msgs : nat -> list msg; fl_first : nat; fl_rounds : nat }.
Definition flow_of (p : pipe) : option flow :=
  let '(name, j) := p in
  if String.eqb name "child_sends_upper" then
    if (0 <? j) && (j <? np) then Some (mkflow j (j - 1) 0 (fun t => row_msgs 1 (start j) (before t)) 1 T) else None
  else if String.eqb name "child_sends_lower" then
    if (0 <=? j) && (j <? np - 1) then Some (mkflow j (j + 1) 0 (fun t => row_msgs (-1) (start (j + 1) - 1) (before t)) 1 T) else None
  else if String.eqb name "fd_child_cor" then
    if (0 <=? j) && (j <? np) then Some (mkflow j np 2 (fun t => [diff_msg j t]) 1 T) else None
  else if String.eqb name "fd_cor_child" then
    if (0 <=? j) && (j <? np) then Some (mkflow np j 4 (fun t => [cor_msg t]) 0 (S T)) else None
  else None.
Definition sends_of (p : pipe) (k : Z) : list (nat * msg) :=
  match flow_of p with Some f => if k =? fl_from f then blocks (fl_c f) (fl_msgs f) (seq (fl_first f) (fl_rounds f)) else [] | None => [] end.
Definition recvs_of (p : pipe) (k : Z) : list (nat * msg) :=
  match flow_of p with Some f => if k =? fl_to f then blocks (fl_c f + 1) (fl_msgs f) (seq (fl_first f) (fl_rounds f)) else [] | None => [] end.

Lemma concat_nils {A B} (l : list A) : concat ((fun _ => [] : list B) <$> l) = [].
Proof. by induction l. Qed.

Lemma blocks_tail c f ts : concat ((fun t => ((fun m => ((6 * t + c)%nat, m)) <$> f t) ++ []) <$> ts) = blocks c f ts.
Proof. unfold blocks. f_equal. apply list_fmap_ext. intros k t _. apply app_nil_r. Qed.

(** Decide which pipe it is, and compare its index. *)
Ltac pipe_names name := destruct (String.eqb_spec name "child_sends_upper") as [->|N1]; [|destruct (String.eqb_spec name "child_sends_lower") as [->|N2];
  [|destruct (String.eqb_spec name "fd_child_cor") as [->|N3]; [|destruct (String.eqb_spec name "fd_cor_child") as [->|N4]]]];
  cbn [String.eqb Ascii.eqb Bool.eqb andb].
Ltac indices := repeat (match goal with
  | |- context [?a =? ?b] => destruct (Z.eqb_spec a b)
  | |- context [?a <? ?b] => destruct (Z.ltb_spec a b)
  | |- context [?a <=? ?b] => destruct (Z.leb_spec a b)
  end; try lia; subst; cbn [app andb fl_from fl_to fl_c fl_msgs fl_first fl_rounds]).

Lemma child_sends p i : 0 <= i < np -> writes p (child_trace i) = sends_of p i.
Proof.
  intros Hi. destruct p as [name j]. rewrite writes_child. unfold sends_of, flow_of. rewrite (list_fmap_ext _ _ _ (fun k t _ => writes_round name i j t)).
  unfold same_pipe, unless. pipe_names name; indices; try done; apply concat_nils || apply blocks_tail.
Qed.

Lemma child_recvs p i : 0 <= i < np -> reads p (child_trace i) = recvs_of p i.
Proof.
  intros Hi. destruct p as [name j]. rewrite reads_child. unfold recvs_of, flow_of. rewrite (list_fmap_ext _ _ _ (fun k t _ => reads_round name i j t)).
  unfold same_pipe, unless. pipe_names name; indices; try done; try apply concat_nils; try apply blocks_tail. all: rewrite Z.sub_add; apply blocks_tail.
Qed.

Lemma coord_sends p : writes p coord_trace = sends_of p np.
Proof. destruct p as [name j]. rewrite writes_coord. unfold sends_of, flow_of. pipe_names name; indices; done. Qed.
Lemma coord_recvs p : reads p coord_trace = recvs_of p np.
Proof. destruct p as [name j]. rewrite reads_coord. unfold recvs_of, flow_of. pipe_names name; indices; done. Qed.

(** The children, then the coordinator. *)
Definition traces : list (list (nat * event msg)) := (child_trace <$> seqZ 0 np) ++ [coord_trace].
Definition writer (p : pipe) : nat := match flow_of p with Some f => Z.to_nat (fl_from f) | None => 0%nat end.
Definition reader (p : pipe) : nat := match flow_of p with Some f => Z.to_nat (fl_to f) | None => 0%nat end.

Lemma todo_traces k : todo traces k = if decide (Z.of_nat k < np) then child_trace (Z.of_nat k) else if decide (Z.of_nat k = np) then coord_trace else [].
Proof.
  unfold todo, traces. case_decide as D.
  - rewrite lookup_app_l by (rewrite length_fmap, length_seqZ; lia). rewrite list_lookup_fmap, lookup_seqZ_lt by lia. done.
  - rewrite lookup_app_r by (rewrite length_fmap, length_seqZ; lia). rewrite length_fmap, length_seqZ. case_decide as D2.
    + by replace (k - Z.to_nat np)%nat with 0%nat by lia.
    + destruct (k - Z.to_nat np)%nat eqn:Ek; [lia|done].
Qed.

Lemma todo_sends p k : writes p (todo traces k) = sends_of p (Z.of_nat k).
Proof.
  rewrite todo_traces. case_decide; [apply child_sends; lia|]. case_decide as D; [rewrite D; apply coord_sends|].
  unfold sends_of. destruct p as [name j]. unfold flow_of. pipe_names name; indices; done.
Qed.
Lemma todo_recvs p k : reads p (todo traces k) = recvs_of p (Z.of_nat k).
Proof.
  rewrite todo_traces. case_decide; [apply child_recvs; lia|]. case_decide as D; [rewrite D; apply coord_recvs|].
  unfold recvs_of. destruct p as [name j]. unfold flow_of. pipe_names name; indices; done.
Qed.

(** Sorted ranks from [a] to [b]. *)
Definition within (a b : nat) (tr : list (nat * event msg)) : Prop := StronglySorted le (fst <$> tr) /\ Forall (fun x => a <= x.1 <= b)%nat tr.

Lemma within_nil a b : within a b [].
Proof. split; constructor. Qed.
Lemma within_app a b c d tr1 tr2 : within a b tr1 -> within c d tr2 -> (a <= c)%nat -> (b <= c)%nat -> (b <= d)%nat -> within a d (tr1 ++ tr2).
Proof.
  intros [S1 F1] [S2 F2] Hac Hbc Hbd. split.
  - rewrite fmap_app. induction tr1 as [|x tr1 IH]; [done|]. cbn in *. apply Forall_cons in F1 as [Hx F1]. inversion S1 as [|? ? S1' F1']; subst.
    constructor; [by apply IH|]. apply Forall_app. split; [done|]. apply Forall_fmap. eapply Forall_impl; [exact F2|]. cbn. lia.
  - apply Forall_app. split; (eapply Forall_impl; [done|]); cbn; lia.
Qed.
Lemma within_same r (tr : list (nat * event msg)) : Forall (fun x => x.1 = r) tr -> within r r tr.
Proof.
  intros H. split; [|eapply Forall_impl; [exact H|]; cbn; lia]. induction H as [|x tr Hx H IH]; [constructor|]. cbn. constructor; [done|]. apply Forall_fmap.
  eapply Forall_impl; [exact H|]. cbn. lia.
Qed.
Lemma within_map {A} r (f : A -> event msg) l : within r r ((fun a => (r, f a)) <$> l).
Proof. apply within_same, Forall_fmap, Forall_true. done. Qed.
Lemma within_weaken a b c d tr : within a b tr -> (c <= a)%nat -> (b <= d)%nat -> within c d tr.
Proof. intros [H1 H2] ? ?. split; [done|]. eapply Forall_impl; [exact H2|]. cbn. lia. Qed.

Lemma within_rounds (f : nat -> list (nat * event msg)) n : (forall t, within (6 * t) (6 * t + 5) (f t)) -> forall s, within (6 * s) (6 * (s + n)) (concat (f <$> seq s n)).
Proof.
  intros Hf. induction n as [|n IH]; intros s; [apply within_nil|]. cbn [seq fmap list_fmap concat].
  eapply within_weaken; [eapply within_app; [apply Hf|apply (IH (S s))|lia..]|lia..].
Qed.

Lemma within_if P `{Decision P} r tr : within r r tr -> within r r (if decide P then [] else tr).
Proof. intros. case_decide; [apply within_nil|done]. Qed.

Lemma within_child i : within 5 (6 * T + 6) (child_trace i).
Proof.
  unfold child_trace. apply (within_app 5 5 (6 * 1) (6 * T + 6)); [apply within_map| |lia..].
  apply (within_app (6 * 1) (6 * (1 + T)) (6 * T + 6) (6 * T + 6)); [apply (within_rounds (child_round i) T)|apply within_map|lia..]. intros t. unfold child_round, ghosts.
  apply (within_weaken (6 * t + 0) (6 * t + 5)); [|lia..]. apply (within_app _ (6 * t + 1) (6 * t + 2)); [|apply (within_app _ (6 * t + 2) (6 * t + 5) _ [_] [_]); [by apply within_same; repeat constructor..|lia|lia|lia]|lia..].
  apply (within_app _ (6 * t + 0) (6 * t + 0)); [by apply within_if, within_map| |lia..]. apply (within_app _ (6 * t + 0) (6 * t + 1)); [by apply within_if, within_map| |lia..].
  apply (within_app _ (6 * t + 1) (6 * t + 1)); [by apply within_if, within_map|by apply within_if, within_map|lia..].
Qed.

Lemma within_coord : within 4 (6 * T + 6) coord_trace.
Proof.
  unfold coord_trace. apply (within_app 4 4 (6 * 1) (6 * T + 6)); [apply within_map| |lia..].
  apply (within_weaken (6 * 1) (6 * (1 + T))); [|lia..]. apply (within_rounds coord_round T). intros t. unfold coord_round.
  apply (within_weaken (6 * t + 3) (6 * t + 4)); [|lia..]. apply (within_app _ (6 * t + 3) (6 * t + 4)); [apply within_map|apply within_map|lia..].
Qed.

Lemma flow_ranges p f : flow_of p = Some f -> 0 <= fl_from f <= np /\ 0 <= fl_to f <= np /\ (fl_c f < 5)%nat /\ forall t, (length (fl_msgs f t) <= 32)%nat.
Proof.
  destruct p as [name j]. unfold flow_of. intros Hf. repeat case_match; try done; simplify_eq; cbn [fl_from fl_to fl_c fl_msgs length]; split_and!; try lia;
    intros t; try lia; unfold row_msgs; rewrite length_fmap, length_seqZ; lia.
Qed.

Lemma elem_of_concat {A} (x : A) ls : x ∈ concat ls <-> exists l, x ∈ l /\ l ∈ ls.
Proof.
  induction ls as [|l ls IH]; cbn; [split; [by intros ?%elem_of_nil|intros (l & _ & ?%elem_of_nil); done]|]. rewrite elem_of_app, IH. split.
  - intros [H|(l' & H & Hl)]; [exists l; split; [done|by left]|exists l'; split; [done|by right]].
  - intros (l' & H & [->|Hl]%elem_of_cons); [by left|right; eauto].
Qed.

Lemma flow_pipe p f : flow_of p = Some f -> is_Some (pipes_of (arith := arith) np !! p).
Proof.
  intros Hf. apply not_eq_None_Some. intros Hn. apply not_elem_of_list_to_map_2 in Hn. apply Hn. apply list_elem_of_fmap. exists (p, []). split; [done|]. destruct p as [name j]. unfold flow_of in Hf.
  assert (Hj : 0 <= j < np) by (repeat case_match; try done; lia). apply elem_of_concat. eexists. split; [|apply list_elem_of_fmap; exists j; split; [reflexivity|by apply elem_of_seqZ]].
  unfold fd_cor_child, fd_child_cor, child_sends_lower, child_sends_upper. revert Hf. pipe_names name; intros Hf; [repeat first [by left|right]..|done].
Qed.

Lemma pipes_empty p q : pipes_of (arith := arith) np !! p = Some q -> q = [].
Proof.
  intros H. apply elem_of_list_to_map_2, elem_of_concat in H as (l & Hl & (i & -> & _)%list_elem_of_fmap).
  repeat (apply elem_of_cons in Hl as [[=]|Hl]; [done|]). by apply elem_of_nil in Hl.
Qed.

Lemma content_empty p : content (pipes_of (arith := arith) np) p = [].
Proof. unfold content. destruct (pipes_of np !! p) eqn:Ep; [|done]. by apply pipes_empty in Ep. Qed.

Lemma in_writes (tr : list (nat * event msg)) r p m : (r, EWrite p m) ∈ tr -> writes p tr <> [].
Proof. intros H E0. assert (Hx : (r, m) ∈ writes p tr); [|rewrite E0 in Hx; by apply elem_of_nil in Hx]. apply list_elem_of_omap. exists (r, EWrite p m). split; [done|]. cbn. by rewrite decide_True. Qed.
Lemma in_reads (tr : list (nat * event msg)) r p m : (r, ERead p m) ∈ tr -> reads p tr <> [].
Proof. intros H E0. assert (Hx : (r, m) ∈ reads p tr); [|rewrite E0 in Hx; by apply elem_of_nil in Hx]. apply list_elem_of_omap. exists (r, ERead p m). split; [done|]. cbn. by rewrite decide_True. Qed.

(** The writer's messages, and the reader's. *)
Lemma flow_ends p : match flow_of p with
  | Some f => writes p (todo traces (writer p)) = blocks (fl_c f) (fl_msgs f) (seq (fl_first f) (fl_rounds f)) /\
              reads p (todo traces (reader p)) = blocks (fl_c f + 1) (fl_msgs f) (seq (fl_first f) (fl_rounds f))
  | None => writes p (todo traces (writer p)) = [] /\ reads p (todo traces (reader p)) = []
  end.
Proof.
  rewrite todo_sends, todo_recvs. unfold sends_of, recvs_of, writer, reader. destruct (flow_of p) as [f|] eqn:Ef; [|done]. destruct (flow_ranges p f Ef) as (? & ? & _).
  rewrite !Z2Nat.id by lia. by rewrite !Z.eqb_refl.
Qed.

Lemma account_init : account 32 writer reader traces (pipes_of np).
Proof.
  split.
  - intros i p H. rewrite todo_sends in H. unfold sends_of in H. unfold writer. destruct (flow_of p) as [f|]; [|done]. case_match; [lia|done].
  - intros i p H. rewrite todo_recvs in H. unfold recvs_of in H. unfold reader. destruct (flow_of p) as [f|]; [|done]. case_match; [lia|done].
  - intros i r e p Hin Ht. assert (Hf : is_Some (flow_of p)); [|destruct Hf as [f Hf]; by eapply flow_pipe].
    destruct e as [p' m|p' m|]; cbn in Ht; [subst p'..|done]; [apply in_writes in Hin; rewrite todo_sends in Hin; unfold sends_of in Hin|apply in_reads in Hin; rewrite todo_recvs in Hin; unfold recvs_of in Hin];
      destruct (flow_of p); done.
  - intros i. rewrite todo_traces. case_decide; [apply within_child|]. case_decide; [apply within_coord|constructor].
  - intros p. rewrite content_empty. cbn [app]. pose proof (flow_ends p) as H. destruct (flow_of p) as [f|]; destruct H as [-> ->]; [|done]. by rewrite !blocks_snd.
  - intros p r. rewrite content_empty. cbn [length]. pose proof (flow_ends p) as H. destruct (flow_of p) as [f|]; destruct H as [-> ->]; [apply blocks_sent|cbn; lia].
  - intros p r. rewrite content_empty. cbn [length]. pose proof (flow_ends p) as H. destruct (flow_of p) as [f|] eqn:Ef; destruct H as [-> ->]; [|cbn; lia].
    destruct (flow_ranges p f Ef) as (_ & _ & Hc & Hl). by apply blocks_room.
Qed.
End events.
