(* ===== verification/JacobSpec.v ===== *)
(** * The parallel Jacobi iteration computes what the serial one does

    Once the children have been told to stop they send their values to the
    coordinator's mailbox, in an order that depends on the schedule; the
    coordinator stores them, waits for the children and prints the grid.  The
    invariant says how many system calls are left, that the events still to
    come are an account of the network, and which values have been stored.
    [jacob_parallel] concludes: whatever the schedule, the processes come to an
    end, and the coordinator prints what one process alone would print. *)

From S2P Require Import Prelude CString Console User Network Kahn Jacob JacobGrid JacobEvents.
Open Scope Z_scope.

Section collect.
Context {arith : Arith} {laws : ArithLaws arith} (N np : Z) (g0 : list (list float)) (T : nat).
Context (Hnp : 2 <= np <= N) (HN : N <= 34) (Hg0 : square N g0).
Abbreviation result := (before N g0 T).
Abbreviation value := (value_msg N g0 T).
Implicit Types (u : list (list float)) (x y : io msg unit) (p : Z * Z).


(** ** Storing the values *)

















(** ** The events still to come *)

Abbreviation events := (list (nat * event msg)).






Abbreviation W := (writer N np g0 T).
Abbreviation R := (reader N np g0 T).
Abbreviation last := (Z.to_nat np).
Implicit Types (c : net msg) (trs : list events).




(** ** The invariant *)














(** ** Somebody can move until all have ended *)







(** ** The start *)






Context (E : float) (L : Z) (HT : (1 <= T <= rounds L)%nat) (Hstop : stops N g0 E L T = true) (Hgo : forall t, (1 <= t < T)%nat -> stops N g0 E L t = false).

End collect.

(** ** Schedules *)

Section schedules.
Context {arith : Arith} {laws : ArithLaws arith}.


End schedules.

