(* ===== verification/Maekawa.v ===== *)
(** * Maekawa's mutual exclusion ([maekawa.c])

    [P] processes stand in a square of [N] rows.  A process that wants the lock
    asks the processes of its row and of its column; each of them grants its own
    lock to one request at a time, queues the others, and may ask for the lock
    back (INQUIRE, RELINQUISH) when an older request comes in.  Every process has
    one pipe, into which all the others write; a parent starts them by sending
    everyone the list of process numbers.

    Process numbers are taken to be consecutive, as the program does, and they and
    the times to be below [2^24], so that a [float] holds them exactly.  All
    messages but the first are 16 bytes and a pipe holds a multiple of that, so
    that they are written and read in one piece. *)

From S2P Require Import Prelude CString Console User Network Jacob.
Open Scope Z_scope.

Definition REQUEST : Z := 0.
Definition LOCKED : Z := 1.
Definition INQUIRE : Z := 2.
Definition RELEASE : Z := 3.
Definition RELINQUISH : Z := 4.
Definition FAILED : Z := 5.
Definition COMPLETE : Z := 6.
Definition MAXNODESMAEKAWA : Z := 25.
Definition MAXQSize : Z := 100.

(** The list of process numbers, or [buf[0]], [buf[1]] and [buf[2]]; only a
    REQUEST sets [buf[2]], and only there is it read. *)
Inductive mmsg :=
| Pids (pids : list Z)
| Buf (type pid time : Z).
Definition mmsg_size (m : mmsg) : Z := match m with Pids _ => 100 | Buf _ _ _ => 16 end.
Abbreviation IO := (io mmsg).

Definition childPipe (i : Z) : pipe := ("childPipe", i).

Record request := mkrequest { r_pid : Z; r_time : Z }.

(** ** The queue of requests *)

Record queueRequest := mkqueue {
  q_size : Z;
  q_data : list request;
  q_head : Z;
  q_tail : Z }.

Definition isEmptyRequestQueue (q : queueRequest) : bool := q_size q =? 0.
Definition isFullRequestQueue (q : queueRequest) : bool := q_size q =? MAXQSize.
Definition getRequestQueueSize (q : queueRequest) : Z := q_size q.

(** A full queue drops the request. *)
Definition enqueueRequestQueue (q : queueRequest) (a : request) : IO queueRequest :=
  if q_size q =? MAXQSize then Done q
  else
    d ← p_set "data" (q_data q) (q_tail q) a;
    Done (mkqueue (q_size q + 1) d (q_head q) (Z.rem (q_tail q + 1) MAXQSize)).

(** Of an empty queue the request returned is not initialised. *)
Definition dequeueRequestQueue (q : queueRequest) : IO (option request * queueRequest) :=
  if isEmptyRequestQueue q then
    p_print (bytes "empty q dequeued" ++ [10]) ;;
    Done (None, q)
  else
    a ← p_at "data" (q_data q) (q_head q);
    Done (Some a, mkqueue (q_size q - 1) (q_data q) (Z.rem (q_head q + 1) MAXQSize) (q_tail q)).

(** [for(int i=u;i<q->tail-1;i++) q->data[i] = q->data[i+1];] *)
Definition shift_left (d : list request) (u tail : Z) : IO (list request) :=
  p_range u (tail - 1) (fun i d => x ← p_at "data" d (i + 1); p_set "data" d i x) d.

Definition removeElementRequestQueue (q : queueRequest) (u : Z) : IO queueRequest :=
  if q_size q =? 0 then Done q
  else if q_size q =? 1 then
    if u =? q_head q then Done (mkqueue (q_size q - 1) (q_data q) (Z.rem (q_head q + 1) MAXQSize) (q_tail q))
    else Done q
  else if q_head q <? q_tail q then
    d ← shift_left (q_data q) u (q_tail q);
    let tail := q_tail q - 1 in
    let tail := if tail =? -1 then MAXQSize - 1 else tail in
    Done (mkqueue (q_size q - 1) d (q_head q) tail)
  else
    p_print (bytes "Implement this part of the removeElementQueue" ++ [10]) ;;
    Done q.

Definition precedes (a b : request) : bool :=
  (r_time a <? r_time b) || ((r_time a =? r_time b) && (r_pid a <? r_pid b)).

(** ** A process

    Its entries of the arrays [FailedBit] and [wait_queue] and its copies of the
    global variables; [pendingInquire] is never written. *)
Record node := mknode {
  FailedBit : Z;
  processStatus : Z;
  lockedCount : Z;
  currentLockingRequest : request;
  wait_queue : queueRequest;
  completeAndStop : Z }.

Section maekawa.
(** The parent's process number, and this process's. *)
Context (offset : Z) (K : Z).

(** [write(childPipe[pid - offset - 1][1],buf,sizeof(buf))] *)
Definition tell (to type me : Z) : IO unit := p_write (childPipe (to - offset - 1)) (Buf type me 0).

Definition sendRequest (me : Z) (S : list Z) : IO unit :=
  t ← p_uptime;
  p_range 0 (alen S) (fun l _ => s ← p_at "S" S l; p_write (childPipe (s - offset - 1)) (Buf REQUEST me t)) tt.

(** Does a waiting request precede [req]?  The cells are looked at from 0 on. *)
Definition queue_precedes (q : queueRequest) (req : request) : IO bool :=
  p_range 0 (getRequestQueueSize q) (fun u flag => if flag : bool then Done true else x ← p_at "data" (q_data q) u; Done (precedes x req)) false.

(** From cell [ptr] on, [n] cells: the request that precedes the ones before it
    and [best]. *)
Fixpoint first_request (n : nat) (d : list request) (ptr : Z) (best : request * Z) : IO (request * Z) :=
  match n with
  | O => Done best
  | S n' =>
      x ← p_at "data" d ptr;
      first_request n' d (Z.rem (ptr + 1) MAXQSize) (if precedes x best.1 then (x, ptr) else best)
  end.

Definition on_request (me p t : Z) (s : node) : IO node :=
  if negb (processStatus s =? 1) then
    tell p LOCKED me ;;
    Done (mknode (FailedBit s) 1 (lockedCount s) (mkrequest p t) (wait_queue s) (completeAndStop s))
  else
    let req := mkrequest p t in
    q ← enqueueRequestQueue (wait_queue s) req;
    failed ← queue_precedes q req;
    (if failed || precedes (currentLockingRequest s) req then tell p FAILED me
     else tell (r_pid (currentLockingRequest s)) INQUIRE me) ;;
    Done (mknode (FailedBit s) (processStatus s) (lockedCount s) (currentLockingRequest s) q (completeAndStop s)).

Definition on_inquire (me p : Z) (s : node) : IO node :=
  if FailedBit s =? 1 then
    tell p RELINQUISH me ;;
    Done (mknode (FailedBit s) (processStatus s) (lockedCount s - 1) (currentLockingRequest s) (wait_queue s) (completeAndStop s))
  else Done s.

Definition on_relinquish (me : Z) (s : node) : IO node :=
  let q := wait_queue s in
  '(newRequest, newRindex) ← first_request (Z.to_nat (q_size q)) (q_data q) (q_head q) (currentLockingRequest s, -1);
  q ← removeElementRequestQueue q newRindex;
  q ← enqueueRequestQueue q (currentLockingRequest s);
  tell (r_pid newRequest) LOCKED me ;;
  Done (mknode (FailedBit s) 1 (lockedCount s) newRequest q (completeAndStop s)).

Definition on_release (me : Z) (s : node) : IO node :=
  let q := wait_queue s in
  if q_size q =? 0 then Done (mknode (FailedBit s) 0 (lockedCount s) (mkrequest (-1) (-1)) q (completeAndStop s))
  else
    newR ← p_at "data" (q_data q) (q_head q);
    '(newR, newRindex) ← first_request (Z.to_nat (q_size q - 1)) (q_data q) (Z.rem (q_head q + 1) MAXQSize) (newR, q_head q);
    q ← removeElementRequestQueue q newRindex;
    tell (r_pid newR) LOCKED me ;;
    Done (mknode (FailedBit s) 1 (lockedCount s) newR q (completeAndStop s)).

Definition recvHandler (me : Z) (f : mmsg) (s : node) : IO node :=
  match f with
  | Pids _ => Crash "message"
  | Buf type p t =>
      if type =? REQUEST then on_request me p t s
      else if type =? LOCKED then
        Done (mknode (FailedBit s) (processStatus s) (lockedCount s + 1) (currentLockingRequest s) (wait_queue s) (completeAndStop s))
      else if type =? FAILED then
        Done (mknode 1 (processStatus s) (lockedCount s) (currentLockingRequest s) (wait_queue s) (completeAndStop s))
      else if type =? INQUIRE then on_inquire me p s
      else if type =? RELINQUISH then on_relinquish me s
      else if type =? RELEASE then on_release me s
      else if type =? COMPLETE then
        Done (mknode (FailedBit s) (processStatus s) (lockedCount s) (currentLockingRequest s) (wait_queue s) (completeAndStop s + 1))
      else
        p_print (bytes "Message Received is of type " ++ show_int type ++ [32; 10]) ;;
        Done s
  end.

(** [while(lockedCount<K)] *)
Fixpoint lock_loop (fuel : nat) (me : Z) (s : node) : IO node :=
  match fuel with
  | O => Cut
  | S fuel' =>
      if lockedCount s <? K then
        buf ← p_read (childPipe (me - offset - 1));
        s ← recvHandler me buf s;
        lock_loop fuel' me s
      else Done s
  end.

Definition acquired_line (me t : Z) : list Z := show_int me ++ bytes " acquired the lock at time " ++ show_int t ++ [10].
Definition released_line (me t : Z) : list Z := show_int me ++ bytes " released the lock at time " ++ show_int t ++ [10].

Definition acquireLockMaekawa (fuel : nat) (me : Z) (S : list Z) (s : node) : IO node :=
  sendRequest me S ;;
  s ← lock_loop fuel me (mknode (FailedBit s) (processStatus s) 0 (currentLockingRequest s) (wait_queue s) (completeAndStop s));
  let s := mknode (FailedBit s) 1 K (currentLockingRequest s) (wait_queue s) (completeAndStop s) in
  t ← p_uptime;
  p_print (acquired_line me t) ;;
  Done s.

Definition releaseLockMaekawa (me : Z) (S : list Z) : IO unit :=
  p_range 0 (alen S) (fun x _ => s ← p_at "S" S x; tell s RELEASE me) tt ;;
  t ← p_uptime;
  p_print (released_line me t).

(** [while(completeAndStop<P)] *)
Fixpoint serve_loop (fuel : nat) (P i me : Z) (s : node) : IO unit :=
  match fuel with
  | O => Cut
  | S fuel' =>
      if completeAndStop s <? P then
        buf ← p_read (childPipe i);
        s ← recvHandler me buf s;
        serve_loop fuel' P i me s
      else Done tt
  end.

(** The globals as the program is loaded. *)
Definition empty_queue : queueRequest := mkqueue 0 (replicate 100 (mkrequest 0 0)) 0 0.
Definition start_node (P1 : Z) : node := mknode 0 0 0 (mkrequest 0 0) empty_queue P1.

Definition whichP (P1 P2 P3 i : Z) : Z :=
  if i <? P1 then 1 else if (P1 <=? i) && (i <? P1 + P2) then 2 else if i <? P1 + P2 + P3 then 3 else 0.

(** [S] is the row of the table of quorums for this process.  What is read first
    is taken for the list of process numbers. *)
Definition node_main (fuel : nat) (P P1 P2 P3 : Z) (S : list Z) (i : Z) : IO unit :=
  let me := offset + 1 + i in
  buf ← p_read (childPipe i);
  match buf with
  | Buf _ _ _ => Crash "pids"
  | Pids pids =>
      let w := whichP P1 P2 P3 i in
      s ← (if 1 <? w then
             STemp ← p_range 0 K (fun qw l => q ← p_at "S" S qw; x ← p_at "pids" pids q; Done (l ++ [x])) [];
             s ← acquireLockMaekawa fuel me STemp (start_node P1);
             (if w =? 2 then p_sleep 2000 else Done tt) ;;
             releaseLockMaekawa me STemp ;;
             p_range 0 P (fun po _ => p_write (childPipe po) (Buf COMPLETE me 0)) tt ;;
             Done s
           else Done (start_node P1));
      serve_loop fuel P i me s
  end.
End maekawa.

(** ** The quorums *)

(** [for(int y=0; (y < P) && (it != K ) ; y++ )]: from [y] on, [it] entries made. *)
Fixpoint quorum_loop (n : nat) (N K x y it : Z) : list Z :=
  match n with
  | O => []
  | S n' =>
      if it =? K then []
      else if (Z.quot y N =? Z.quot x N) || (Z.rem y N =? Z.rem x N) then y :: quorum_loop n' N K x (y + 1) (it + 1)
      else quorum_loop n' N K x (y + 1) it
  end.
Definition quorum (P N x : Z) : list Z := quorum_loop (Z.to_nat P) N (2 * N - 1) x 0 0.

(** [switch (P)]; for other values [N] is not initialised. *)
Definition side_of (P : Z) : option Z :=
  if P =? 4 then Some 2 else if P =? 9 then Some 3 else if P =? 16 then Some 4 else if P =? 25 then Some 5 else None.

(** ** The program *)

(** Everyone is sent the list of process numbers; then the parent waits. *)
Definition maekawa_parent (offset P : Z) : IO unit :=
  let rec_pids := (fun i => offset + 1 + i) <$> seqZ 0 P in
  p_range 0 P (fun j _ => r ← p_at "rec_pids" rec_pids j; p_write (childPipe (r - offset - 1)) (Pids rec_pids)) tt ;;
  p_range 0 P (fun _ _ => p_wait) tt.

Definition maekawa_pipes (P : Z) : gmap pipe (list mmsg) := list_to_map ((fun i => (childPipe i, [])) <$> seqZ 0 P).

(** The network after the forks; the parent is the last process. *)
Definition maekawa_net (fuel : nat) (offset P P1 P2 P3 : Z) : option (net mmsg) :=
  N ← side_of P;
  let K := 2 * N - 1 in
  Some (mknet (((fun i => node_main offset K fuel P P1 P2 P3 (quorum P N i) i) <$> seqZ 0 P) ++ [maekawa_parent offset P])
              (maekawa_pipes P) ∅ 0 0 []).

(** [cs] is the content of the input file. *)
Definition maekawa_main (fuel : nat) (offset : Z) (cs : list Z) : option (net mmsg) :=
  '(P, cs) ← readInt cs;
  '(P1, cs) ← readInt cs;
  '(P2, cs) ← readInt cs;
  '(P3, cs) ← readInt cs;
  maekawa_net fuel offset P P1 P2 P3.

(** ** The critical section

    [acquireLockMaekawa] ends by printing that the lock was acquired; what follows
    before the first RELEASE is at most a [sleep].  A process is in the section when
    it is about to print that line, or asleep. *)
Definition in_section (me : Z) (x : IO unit) : bool :=
  match x with
  | Say o _ => bool_decide (take (length (show_int me ++ bytes " acquired")) o = show_int me ++ bytes " acquired")
  | Sleep _ _ => true
  | _ => false
  end.
