(* ===== verification/MaekawaQueue.v ===== *)
(** * Quorums, queues and writers of Maekawa's algorithm

    The quorums intersect ([maekawa_quorums]); the queue of waiting requests holds
    what was put in; a program that only writes before it goes on. *)

From S2P Require Import Prelude CString Console User Network Jacob Maekawa.
Open Scope Z_scope.

(** ** The quorums *)

Definition quorum_ok (P N x : Z) : bool :=
  let S := quorum P N x in
  (alen S =? 2 * N - 1) && bool_decide (NoDup S) && bool_decide (x ∈ S) && forallb (fun y => (0 <=? y) && (y <? P)) S &&
  forallb (fun z => existsb (fun y => bool_decide (y ∈ quorum P N z)) S) (seqZ 0 P).

Lemma quorums_checked P N : side_of P = Some N -> forallb (quorum_ok P N) (seqZ 0 P) = true.
Proof.
  unfold side_of. repeat case_match; intros [= <-]; match goal with H : (P =? _) = true |- _ => apply Z.eqb_eq in H as -> end; vm_compute; reflexivity.
Qed.

Lemma quorum_spec P N x : side_of P = Some N -> 0 <= x < P ->
  alen (quorum P N x) = 2 * N - 1 /\ NoDup (quorum P N x) /\ x ∈ quorum P N x /\
  (forall y, y ∈ quorum P N x -> 0 <= y < P) /\
  forall z, 0 <= z < P -> exists y, y ∈ quorum P N x /\ y ∈ quorum P N z.
Proof.
  intros HN Hx. pose proof (quorums_checked P N HN) as Hall. rewrite forallb_forall in Hall. specialize (Hall x). unfold quorum_ok in Hall.
  rewrite !andb_true_iff, !forallb_forall in Hall. destruct Hall as [[[[H1 H2] H3] H4] H5]; [apply list_elem_of_In, elem_of_seqZ; lia|].
  apply Z.eqb_eq in H1. apply bool_decide_eq_true in H2, H3. split_and!; [done|done|done| |].
  - intros y Hy%list_elem_of_In%H4. lia.
  - intros z Hz. destruct (proj1 (existsb_exists _ _) (H5 z ltac:(apply list_elem_of_In, elem_of_seqZ; lia))) as (y & Hy & Hyz). apply bool_decide_eq_true in Hyz. exists y. by rewrite list_elem_of_In.
Qed.

(** The table of quorums, for every number of processes the program accepts:
    each process has a quorum of exactly [2 * N - 1] different processes, itself
    among them, and any two quorums have a process in common. *)
Theorem maekawa_quorums P N x : side_of P = Some N -> 0 <= x < P ->
  alen (quorum P N x) = 2 * N - 1 /\ NoDup (quorum P N x) /\ x ∈ quorum P N x /\
  (forall y, y ∈ quorum P N x -> 0 <= y < P) /\
  forall z, 0 <= z < P -> exists y, y ∈ quorum P N x /\ y ∈ quorum P N z.
Proof. apply quorum_spec. Qed.

Lemma maekawa_quorums_witness : side_of 9 = Some 3 /\ 0 <= 4 < 9 /\ alen (quorum 9 3 4) = 2 * 3 - 1.
Proof. split; [reflexivity|]. split; [lia|]. apply (maekawa_quorums 9 3 4); [reflexivity|lia]. Defined.

(** ** What is printed *)

Lemma print_digits_first fuel : forall x buf l, Printf.print_digits fuel x 10 buf = Some l -> exists d r, l = d :: r /\ d <> 73.
Proof.
  induction fuel as [|fuel IH]; intros x buf l; [done|]. cbn [Printf.print_digits]. destruct (aget Printf.digits (x mod 10)) as [d|] eqn:E; [|done].
  case_match; [intros [= <-]|apply IH]. exists d, buf. split; [done|]. intros ->.
  assert (Hin : 73 ∈ Printf.digits). { unfold aget in E. destruct (0 <=? x mod 10); [|done]. by apply list_elem_of_lookup_2 in E. }
  revert Hin. by apply (bool_decide_unpack (73 ∉ Printf.digits)).
Qed.

Lemma announce_first me : exists d r, show_int me ++ bytes " acquired" = d :: r /\ d <> 73.
Proof.
  unfold show_int, Printf.printint_chars. destruct (Printf.print_digits 33 _ 10 []) as [ds|] eqn:E; [|by eexists _, _].
  apply print_digits_first in E as (d & r & -> & Hd). case_match; [|by eexists _, _]. cbn [default from_option id]. destruct (negb _ && _); by eexists _, _.
Qed.

(** Not an announcement. *)
Definition harmless (me : Z) (o : list Z) : Prop := take (length (show_int me ++ bytes " acquired")) o <> show_int me ++ bytes " acquired".

Lemma harmless_implement me o : harmless me (73 :: o).
Proof. unfold harmless. destruct (announce_first me) as (d & r & -> & Hd). cbn. congruence. Qed.

Lemma harmless_released me t : harmless me (released_line me t).
Proof.
  unfold harmless, released_line. rewrite length_app, take_app_add. intros E%app_inv_head. discriminate E.
Qed.

(** ** The queue of requests *)

Lemma p_for_inv {M S} (body : Z -> S -> io M S) (I : Z -> S -> Prop) n : forall lo s,
  (forall t s, lo <= t < lo + Z.of_nat n -> I t s -> exists s', body t s = Done s' /\ I (t + 1) s') -> I lo s ->
  exists s', p_for n lo body s = Done s' /\ I (lo + Z.of_nat n) s'.
Proof.
  induction n as [|n IH]; intros lo s Hb Hs; [exists s; by replace (lo + Z.of_nat 0) with lo by lia|].
  destruct (Hb lo s ltac:(lia) Hs) as (s1 & E & H1). destruct (IH (lo + 1) s1) as (s2 & E2 & H2); [intros t s' Ht; apply Hb; lia|done|].
  exists s2. cbn [p_for]. rewrite E. split; [exact E2|]. by replace (lo + Z.of_nat (Datatypes.S n)) with (lo + 1 + Z.of_nat n) by lia.
Qed.

Lemma p_at_Some {M A} what (l : list A) i x : aget l i = Some x -> p_at (M := M) what l i = Done x.
Proof. unfold p_at. by intros ->. Qed.
Lemma p_set_Some {M A} what (l : list A) i x l' : aset l i x = Some l' -> p_set (M := M) what l i x = Done l'.
Proof. unfold p_set. by intros ->. Qed.

Section queue.
Context (G : request -> Prop).
Implicit Types (q : queueRequest) (r : request) (d : list request).

(** Every request that waits satisfies [G]. *)
Record queue_ok q : Prop := {
  qo_size : 0 <= q_size q <= MAXQSize;
  qo_head : 0 <= q_head q < MAXQSize;
  qo_tail : q_tail q = (q_head q + q_size q) mod MAXQSize;
  qo_data : alen (q_data q) = MAXQSize;
  qo_cells : forall k, 0 <= k < q_size q -> exists r, aget (q_data q) ((q_head q + k) mod MAXQSize) = Some r /\ G r;
}.

Lemma rem_mod a : 0 <= a -> Z.rem a MAXQSize = a mod MAXQSize.
Proof. intros. unfold MAXQSize. apply Z.rem_mod_nonneg; lia. Qed.
Lemma cell_in a : 0 <= a mod MAXQSize < MAXQSize.
Proof. apply Z.mod_pos_bound. done. Qed.

Lemma aset_in d i r : alen d = MAXQSize -> 0 <= i < MAXQSize -> exists d', aset d i r = Some d' /\ alen d' = MAXQSize /\ forall j, aget d' j = if j =? i then Some r else aget d j.
Proof.
  intros Hd Hi. unfold aset. rewrite Hd. rewrite (proj2 (andb_true_iff _ _)) by lia. eexists. split; [done|]. split; [unfold alen in *; by rewrite length_insert|].
  intros j. unfold aget. destruct (Z.eqb_spec j i) as [->|Hne].
  - rewrite (proj2 (Z.leb_le 0 i)) by lia. apply list_lookup_insert_eq. unfold alen in Hd. lia.
  - destruct (Z.leb_spec 0 j); [|done]. apply list_lookup_insert_ne. lia.
Qed.

Lemma enqueueRequest_ok q r : queue_ok q -> G r -> exists q', enqueueRequestQueue q r = Done q' /\ queue_ok q'.
Proof.
  intros [Hs Hh Ht Hd Hc] Hr. unfold enqueueRequestQueue. destruct (Z.eqb_spec (q_size q) MAXQSize) as [|Hne]; [by exists q|].
  pose proof (cell_in (q_head q + q_size q)) as Hi. rewrite <- Ht in Hi. destruct (aset_in (q_data q) (q_tail q) r Hd Hi) as (d' & E & Hd' & Hg).
  rewrite (p_set_Some _ _ _ _ _ E). eexists. split; [done|]. rewrite rem_mod by lia. split; cbn [q_size q_head q_tail q_data]; [lia|done| |done|].
  - rewrite Ht, Zplus_mod_idemp_l. f_equal. lia.
  - intros k Hk. rewrite Hg. destruct (Z.eqb_spec ((q_head q + k) mod MAXQSize) (q_tail q)) as [|Hk']; [by exists r|]. apply Hc.
    destruct (decide (k = q_size q)) as [->|]; [by rewrite Ht in Hk'|lia].
Qed.

Lemma queue_precedes_ok q r : queue_ok q -> exists b, queue_precedes q r = Done b.
Proof.
  intros [Hs _ _ Hd _]. unfold queue_precedes, p_range, getRequestQueueSize.
  match goal with |- context [p_for ?n ?lo ?body ?s] => destruct (p_for_inv body (fun _ _ => True) n lo s) as (b & E & _); [|done|by exists b] end.
  intros t flag Ht _. destruct flag; [by exists true|]. destruct (aget (q_data q) t) as [x|] eqn:E; [rewrite (p_at_Some _ _ _ _ E); by eexists|].
  exfalso. unfold aget in E. rewrite (proj2 (Z.leb_le 0 t)) in E by lia. apply lookup_ge_None in E. unfold alen in Hd. lia.
Qed.

(** A cell of the queue. *)
Definition waiting q u : Prop := exists k, 0 <= k < q_size q /\ u = (q_head q + k) mod MAXQSize.

Lemma first_request_ok q : queue_ok q -> forall n k best, 0 <= k -> k + Z.of_nat n <= q_size q -> G best.1 -> waiting q best.2 ->
  exists r u, first_request n (q_data q) ((q_head q + k) mod MAXQSize) best = Done (r, u) /\ G r /\ waiting q u.
Proof.
  intros Hq n. induction n as [|n IH]; intros k best Hk Hn Hg Hw; [destruct best as [r u]; by exists r, u|]. cbn [first_request].
  destruct (qo_cells _ Hq k ltac:(lia)) as (x & E & Hx). rewrite (p_at_Some _ _ _ _ E). cbn [mbind io_mbind io_bind].
  rewrite rem_mod by (pose proof (cell_in (q_head q + k)); lia). rewrite Zplus_mod_idemp_l, <- Z.add_assoc. apply IH; [lia|lia|by destruct (precedes x best.1)|].
  destruct (precedes x best.1); [|done]. exists k. split; [lia|done].
Qed.

Lemma shift_left_ok d lo u tail : alen d = MAXQSize -> 0 <= lo <= u -> u < tail < MAXQSize -> (forall j, lo <= j < tail -> exists r, aget d j = Some r /\ G r) ->
  exists d', shift_left d u tail = Done d' /\ alen d' = MAXQSize /\ forall j, lo <= j < tail -> exists r, aget d' j = Some r /\ G r.
Proof.
  intros Hd Hlo Hu Hc. unfold shift_left, p_range.
  match goal with |- context [p_for ?n ?a ?body ?s] => destruct (p_for_inv body (fun _ d => alen d = MAXQSize /\ forall j, lo <= j < tail -> exists r, aget d j = Some r /\ G r) n a s) as (d' & E & H) end;
    [|done|by exists d'].
  intros t s Ht [Hs Hcs]. destruct (Hcs (t + 1) ltac:(lia)) as (r & Er & Hr). rewrite (p_at_Some _ _ _ _ Er). cbn [mbind io_mbind io_bind].
  destruct (aset_in s t r Hs ltac:(lia)) as (s' & Es & Hs' & Hg). rewrite (p_set_Some _ _ _ _ _ Es). exists s'. split; [done|]. split; [done|].
  intros j Hj. rewrite Hg. destruct (j =? t); [by exists r|by apply Hcs].
Qed.
End queue.

(** ** Programs that write and then go on *)

Abbreviation acts := (list (pipe * mmsg)).

(** [x] writes the messages of a list, prints nothing that looks like an
    announcement, and becomes [y], if it does not crash. *)
Inductive outs {A} (me : Z) (y : IO A) : acts -> IO A -> Prop :=
| outs_nil : outs me y [] y
| outs_write p m k l : outs me y l k -> outs me y ((p, m) :: l) (Write p m k)
| outs_say o k l : harmless me o -> outs me y l k -> outs me y l (Say o k)
| outs_up k l : (forall t, outs me y l (k t)) -> outs me y l (Uptime k)
| outs_crash w l : outs me y l (Crash w).

(** A context that passes system calls on. *)
Record passing {A B} (C : IO A -> IO B) : Prop := {
  pass_write : forall p m k, C (Write p m k) = Write p m (C k);
  pass_read : forall p k, C (Read p k) = Read p (fun m => C (k m));
  pass_say : forall o k, C (Say o k) = Say o (C k);
  pass_up : forall k, C (Uptime k) = Uptime (fun t => C (k t));
  pass_crash : forall w, C (Crash w) = Crash w;
}.

Lemma outs_pass {A B} me (C : IO A -> IO B) y l x : passing C -> outs me y l x -> outs me (C y) l (C x).
Proof.
  intros HC H. induction H; [constructor|rewrite (pass_write _ HC)|rewrite (pass_say _ HC)|rewrite (pass_up _ HC)|rewrite (pass_crash _ HC)]; by constructor.
Qed.
Lemma passing_bind {A B D} (C : IO B -> IO D) (k : A -> IO B) : passing C -> passing (fun z => C (io_bind k z)).
Proof. intros HC. split; intros; cbn [io_bind]; apply HC. Qed.
Lemma passing_id {A} : passing (fun z : IO A => z).
Proof. by split. Qed.
Lemma outs_app {A} me (y z : IO A) l1 l2 x : outs me y l1 x -> outs me z l2 y -> outs me z (l1 ++ l2) x.
Proof. intros H. induction H; intros Hz; cbn [app]; eauto using @outs. Qed.
Lemma outs_bind {A B} me (k : A -> IO B) a l1 l2 z x : outs me (Done a) l1 x -> outs me z l2 (k a) -> outs me z (l1 ++ l2) (io_bind k x).
Proof. intros H Hz. eapply outs_app, Hz. change (k a) with (io_bind k (Done a)). apply (outs_pass me (fun x => io_bind k x)); [|done]. apply (passing_bind (fun z => z)), passing_id. Qed.

Lemma outs_for me (body : Z -> unit -> IO unit) (f : Z -> list (pipe * mmsg)) n : forall lo,
  (forall t, lo <= t < lo + Z.of_nat n -> outs me (Done tt) (f t) (body t tt)) ->
  outs me (Done tt) (concat (f <$> seqZ lo (Z.of_nat n))) (p_for n lo body tt).
Proof.
  induction n as [|n IH]; intros lo Hb; [constructor|]. rewrite seqZ_cons by lia. cbn [fmap list_fmap concat p_for]. replace (Z.pred (Z.of_nat (S n))) with (Z.of_nat n) by lia.
  eapply outs_bind; [apply Hb; lia|]. apply IH. intros t Ht. apply Hb. lia.
Qed.

Lemma remove_ok G me q u : queue_ok G q -> waiting q u -> exists q', outs me (Done q') [] (removeElementRequestQueue q u) /\ queue_ok G q'.
Proof.
  intros Hq (k & Hk & ->). destruct Hq as [Hs Hh Ht Hd Hc]. unfold removeElementRequestQueue. rewrite (proj2 (Z.eqb_neq _ 0)) by lia.
  destruct (Z.eqb_spec (q_size q) 1) as [E1|E1].
  { replace k with 0 by lia. rewrite Z.add_0_r, Z.mod_small, Z.eqb_refl by done. eexists. split; [constructor|]. rewrite rem_mod by lia.
    split; cbn [q_size q_head q_tail q_data]; [unfold MAXQSize; lia|apply cell_in| |done|lia]. rewrite Ht, Zplus_mod_idemp_l. f_equal. lia. }
  destruct (Z.ltb_spec (q_head q) (q_tail q)) as [Hlt|]; [|exists q; split; [|by split]; apply outs_say; [apply harmless_implement|constructor]].
  assert (Hsmall : q_head q + q_size q < MAXQSize).
  { destruct (Z.lt_ge_cases (q_head q + q_size q) MAXQSize) as [|Hge]; [done|]. rewrite Ht in Hlt. unfold MAXQSize in *.
    assert ((q_head q + q_size q) mod 100 = q_head q + q_size q - 100) by (symmetry; apply Z.mod_unique with 1; lia). lia. }
  rewrite Z.mod_small in Ht by lia. rewrite Z.mod_small by lia.
  destruct (shift_left_ok G (q_data q) (q_head q) (q_head q + k) (q_tail q)) as (d' & E & Hd' & Hc'); [done|lia|lia| |].
  { intros j Hj. destruct (Hc (j - q_head q) ltac:(lia)) as (r & Er & Hr). rewrite Z.mod_small in Er by lia. replace (q_head q + (j - q_head q)) with j in Er by lia. by exists r. }
  rewrite E. eexists. split; [constructor|]. rewrite (proj2 (Z.eqb_neq _ (-1))) by lia. split; cbn [q_size q_head q_tail q_data]; [lia|done| |done|].
  - rewrite Z.mod_small by lia. lia.
  - intros j Hj. rewrite Z.mod_small by lia. apply Hc'. lia.
Qed.
