(* ===== verification/MaekawaSpec.v ===== *)
(** * Maekawa's algorithm excludes as long as nobody gives a lock back

    Every process has a lock, which is with its owner, on its way to a requester
    (LOCKED), held by the requester, or on its way back (RELEASE): an invariant of
    all runs in which no RELINQUISH is sent.  A process in the critical section
    holds the locks of its quorum, so that two processes are never there together
    ([maekawa_exclusion]). *)

From stdpp Require Import functions.
From S2P Require Import Prelude CString Console User Network Jacob Maekawa MaekawaQueue.
Open Scope Z_scope.

(** ** What a process does with a message *)

Section protocol.
Context (offset P N P1 P2 P3 : Z) (fuel : nat) (HN : side_of P = Some N).
Abbreviation K := (2 * N - 1).
Abbreviation np := (Z.to_nat P).
Implicit Types (a q i j : nat) (s : node) (m : mmsg) (t : Z).

Definition pid i : Z := offset + 1 + Z.of_nat i.
Definition Sq i : list Z := quorum P N (Z.of_nat i).
(** [a] is in the quorum of [q]. *)
Definition member a q : Prop := (q < np)%nat /\ Z.of_nat a ∈ Sq q.

(** A request of a process that may ask [a]. *)
Definition asks a (r : request) : Prop := exists q, r_pid r = pid q /\ member a q.
Definition locked s : bool := processStatus s =? 1.
Record arb_ok a s : Prop := {
  ao_queue : queue_ok (asks a) (wait_queue s);
  ao_cur : locked s = true -> asks a (currentLockingRequest s);
}.
(** The lock of [s] belongs to [q]. *)
Definition owner s q : nat := if locked s && (r_pid (currentLockingRequest s) =? pid q) then 1 else 0.
Definition same_lock s s' : Prop := processStatus s' = processStatus s /\ currentLockingRequest s' = currentLockingRequest s.

Definition grant a q : acts := [(childPipe (Z.of_nat q), Buf LOCKED (pid a) 0)].
Definition noise a (l : acts) : Prop := exists p t, l = [(p, Buf t (pid a) 0)] /\ (t = FAILED \/ t = INQUIRE).

(** [s] receives a message of type [t] from [q], writes [l] and becomes [s']. *)
Inductive react a s : Z -> nat -> acts -> node -> Prop :=
| re_grant q s' : locked s = false -> member a q -> locked s' = true -> r_pid (currentLockingRequest s') = pid q -> react a s REQUEST q (grant a q) s'
| re_queue q l s' : same_lock s s' -> noise a l -> react a s REQUEST q l s'
| re_locked q s' : same_lock s s' -> react a s LOCKED q [] s'
| re_free q s' : locked s' = false -> react a s RELEASE q [] s'
| re_pass q q' s' : member a q' -> locked s' = true -> r_pid (currentLockingRequest s') = pid q' -> react a s RELEASE q (grant a q') s'
| re_other t q s' : same_lock s s' -> t <> LOCKED -> t <> RELEASE -> react a s t q [] s'.

Lemma tell_pid q type me : tell offset (pid q) type me = p_write (childPipe (Z.of_nat q)) (Buf type me 0).
Proof. unfold tell, pid. do 2 f_equal. lia. Qed.
Lemma outs_tell me to type : outs me (Done tt) [(childPipe (to - offset - 1), Buf type me 0)] (tell offset to type me).
Proof. constructor. constructor. Qed.

Lemma on_request_react a q t s : arb_ok a s -> member a q -> exists l s', outs (pid a) (Done s') l (on_request offset (pid a) (pid q) t s) /\
  arb_ok a s' /\ react a s REQUEST q l s' /\ lockedCount s' = lockedCount s.
Proof.
  intros [Hq Hc] Hm. unfold on_request. destruct (processStatus s =? 1) eqn:E; cbn [negb].
  - destruct (enqueueRequest_ok (asks a) (wait_queue s) (mkrequest (pid q) t) Hq) as (q' & -> & Hq'); [by exists q|]. cbn [mbind io_mbind io_bind].
    destruct (queue_precedes_ok (asks a) q' (mkrequest (pid q) t) Hq') as (b & ->). cbn [mbind io_mbind io_bind].
    destruct (b || precedes (currentLockingRequest s) (mkrequest (pid q) t)); eexists _, _;
      (split; [eapply outs_bind; [apply outs_tell|apply outs_nil]|]; rewrite app_nil_r; split; [split; [done|]; intros; by apply Hc|]; split; [|done]);
      (apply re_queue; [done|]; eexists _, _; split; [done|auto]).
  - rewrite tell_pid. eexists _, _. split; [by apply outs_write, outs_nil|]. split; [split; [done|]; intros _; by exists q|]. split; [|done]. by apply re_grant.
Qed.

Lemma on_release_react a q s : arb_ok a s -> exists l s', outs (pid a) (Done s') l (on_release offset (pid a) s) /\
  arb_ok a s' /\ react a s RELEASE q l s' /\ lockedCount s' = lockedCount s.
Proof.
  intros [Hq Hc]. unfold on_release. destruct (Z.eqb_spec (q_size (wait_queue s)) 0) as [E|E].
  - eexists _, _. split; [apply outs_nil|]. split; [by split|]. split; [|done]. by apply re_free.
  - pose proof (qo_size _ _ Hq) as Hs. pose proof (qo_head _ _ Hq) as Hh. destruct (qo_cells _ _ Hq 0 ltac:(lia)) as (r & Er & Hr).
    rewrite Z.add_0_r, Z.mod_small in Er by done. rewrite (p_at_Some _ _ _ _ Er). cbn [mbind io_mbind io_bind].
    destruct (first_request_ok (asks a) (wait_queue s) Hq (Z.to_nat (q_size (wait_queue s) - 1)) 1 (r, q_head (wait_queue s))) as (r' & u & E' & (q' & Eq' & Hm) & Hu);
      [lia|lia|done|exists 0; split; [lia|cbn; rewrite Z.add_0_r, Z.mod_small; done]|].
    rewrite rem_mod by lia. rewrite E'. cbn [mbind io_mbind io_bind]. destruct (remove_ok (asks a) (pid a) (wait_queue s) u Hq Hu) as (qu & Hout & Hqu).
    eexists _, _. split; [eapply outs_bind; [exact Hout|]; rewrite Eq', tell_pid; apply outs_write, outs_nil|]. split; [split; [done|]; intros _; by exists q'|]. split; [|done]. by apply (re_pass a s q q').
Qed.

(** The types of messages there are, but for RELINQUISH. *)
Definition kind t : Prop := t ∈ [REQUEST; LOCKED; INQUIRE; RELEASE; FAILED; COMPLETE].

Lemma recvHandler_react a q t tm s : arb_ok a s -> kind t -> (t = REQUEST -> member a q) ->
  (exists p k, recvHandler offset (pid a) (Buf t (pid q) tm) s = Write p (Buf RELINQUISH (pid a) 0) k) \/
  exists l s', outs (pid a) (Done s') l (recvHandler offset (pid a) (Buf t (pid q) tm) s) /\ arb_ok a s' /\ react a s t q l s' /\
    lockedCount s' = lockedCount s + (if t =? LOCKED then 1 else 0).
Proof.
  intros Ha Hk Hm. unfold recvHandler. unfold kind in Hk. rewrite !elem_of_cons in Hk. destruct Hk as [->|[->|[->|[->|[->|[->|[]%elem_of_nil]]]]]]; cbn [Z.eqb Pos.eqb REQUEST LOCKED INQUIRE RELEASE RELINQUISH FAILED COMPLETE].
  - right. destruct (on_request_react a q tm s Ha (Hm eq_refl)) as (l & s' & H1 & H2 & H3 & H4). exists l, s'. rewrite Z.add_0_r. done.
  - right. eexists [], _. split; [apply outs_nil|]. split; [destruct Ha; by split|]. split; [by apply re_locked|done].
  - unfold on_inquire. destruct (FailedBit s =? 1); [left; by eexists _, _|]. right. exists [], s. split; [apply outs_nil|]. split; [done|]. split; [by apply re_other|lia].
  - right. destruct (on_release_react a q s Ha) as (l & s' & H1 & H2 & H3 & H4). exists l, s'. rewrite Z.add_0_r. done.
  - right. eexists [], _. split; [apply outs_nil|]. split; [destruct Ha; by split|]. split; [by apply re_other|cbn; lia].
  - right. eexists [], _. split; [apply outs_nil|]. split; [destruct Ha; by split|]. split; [by apply re_other|cbn; lia].
Qed.
(** ** Messages under way *)

Definition is_msg t q m : bool := match m with Buf t' p _ => (t' =? t) && (p =? pid q) | Pids _ => false end.
Definition to_send t q (x : pipe * mmsg) : bool := bool_decide (x.1 = childPipe (Z.of_nat q)) && match x.2 with Buf t' _ _ => t' =? t | Pids _ => false end.
Definition cnt t q (l : list mmsg) : nat := length (List.filter (is_msg t q) l).
Definition pend t q (l : acts) : nat := length (List.filter (to_send t q) l).
Abbreviation pipes := (gmap pipe (list mmsg)).
Definition pipe_of (pp : pipes) q : list mmsg := default [] (pp !! childPipe (Z.of_nat q)).

(** The messages of type [t] from [f] to [q]: those in the pipe of [q] and those
    [f] is about to write. *)
Definition fl (w : nat -> acts) (pp : pipes) t f q : nat := (cnt t f (pipe_of pp q) + pend t q (w f))%nat.

Definition own_acts i (l : acts) : Prop := Forall (fun x => exists t tm, x.2 = Buf t (pid i) tm /\ kind t) l.
Definition rec_pids : list Z := (fun z : Z => offset + 1 + z) <$> seqZ 0 P.
Definition good_msg m : Prop := match m with Pids l => l = rec_pids | Buf t p _ => kind t /\ exists q, (q < np)%nat /\ p = pid q end.

Lemma pid_inj i j : pid i = pid j -> i = j.
Proof. unfold pid. lia. Qed.
Lemma childPipe_inj i j : childPipe (Z.of_nat i) = childPipe (Z.of_nat j) -> i = j.
Proof. intros [= H]. lia. Qed.

Lemma cnt_app t q l l' : cnt t q (l ++ l') = (cnt t q l + cnt t q l')%nat.
Proof. unfold cnt. by rewrite List.filter_app, length_app. Qed.
Lemma cnt_cons t q m l : cnt t q (m :: l) = ((if is_msg t q m then 1 else 0) + cnt t q l)%nat.
Proof. unfold cnt. cbn. by destruct (is_msg t q m). Qed.
Lemma pend_cons t q x l : pend t q (x :: l) = ((if to_send t q x then 1 else 0) + pend t q l)%nat.
Proof. unfold pend. cbn. by destruct (to_send t q x). Qed.
Lemma pend_app t q l l' : pend t q (l ++ l') = (pend t q l + pend t q l')%nat.
Proof. unfold pend. by rewrite List.filter_app, length_app. Qed.

Lemma is_msg_Buf t q t' q' tm : is_msg t q (Buf t' (pid q') tm) = (t' =? t) && (q' =? q)%nat.
Proof. unfold is_msg. f_equal. unfold pid. destruct (Nat.eqb_spec q' q); [subst; apply Z.eqb_refl|apply Z.eqb_neq; lia]. Qed.

(** A message that is written stays under way. *)
Lemma fl_write w pp i p m l (q0 : list mmsg) t f q : own_acts i ((p, m) :: l) -> w i = (p, m) :: l -> pp !! p = Some q0 ->
  fl (<[i := l]> w) (<[p := q0 ++ [m]]> pp) t f q = fl w pp t f q.
Proof.
  intros Hown Hw Hp. inversion Hown as [|? ? (t' & tm & Em & _) _]; subst. cbn in Em. subst m. unfold fl, pipe_of.
  assert (Hcnt : cnt t f (default [] (<[p := q0 ++ [Buf t' (pid i) tm]]> pp !! childPipe (Z.of_nat q))) =
    (cnt t f (default [] (pp !! childPipe (Z.of_nat q))) + if to_send t' q (p, Buf t' (pid i) tm) && ((t' =? t)%Z && (i =? f)%nat) then 1 else 0)%nat).
  { unfold to_send. cbn [fst snd]. case_bool_decide as D.
    - subst p. rewrite lookup_insert_eq, Hp. cbn [default from_option id andb]. rewrite cnt_app, cnt_cons, is_msg_Buf, Z.eqb_refl. cbn. lia.
    - rewrite lookup_insert_ne by done. cbn [andb]. lia. }
  rewrite Hcnt. destruct (decide (i = f)) as [<-|Hne].
  - rewrite fn_lookup_insert, Hw, pend_cons, Nat.eqb_refl. unfold to_send. cbn [fst snd]. rewrite Z.eqb_refl, !andb_true_r. lia.
  - rewrite fn_lookup_insert_ne by done. rewrite (proj2 (Nat.eqb_neq i f)), !andb_false_r by done. lia.
Qed.

Lemma fl_drop w pp i x l t f q : w i = x :: l -> (fl (<[i := l]> w) pp t f q <= fl w pp t f q)%nat.
Proof.
  intros Hw. unfold fl. destruct (decide (i = f)) as [<-|Hne]; [rewrite fn_lookup_insert, Hw, pend_cons; lia|by rewrite fn_lookup_insert_ne].
Qed.

(** A message is read and answered. *)
Lemma fl_read w pp i m l l' t f q : w i = [] -> pp !! childPipe (Z.of_nat i) = Some (m :: l) ->
  (fl (<[i := l']> w) (<[childPipe (Z.of_nat i) := l]> pp) t f q + (if (q =? i)%nat && is_msg t f m then 1 else 0) =
   fl w pp t f q + if (f =? i)%nat then pend t q l' else 0)%nat.
Proof.
  intros Hw Hp. unfold fl, pipe_of.
  assert (Hcnt : (cnt t f (default [] (<[childPipe (Z.of_nat i) := l]> pp !! childPipe (Z.of_nat q))) + (if (q =? i)%nat && is_msg t f m then 1 else 0) =
    cnt t f (default [] (pp !! childPipe (Z.of_nat q))))%nat).
  { destruct (Nat.eqb_spec q i) as [->|Hne]; [rewrite lookup_insert_eq, Hp; cbn [default from_option id andb]; rewrite cnt_cons; lia|].
    rewrite lookup_insert_ne by (by intros ?%childPipe_inj). cbn [andb]. lia. }
  destruct (Nat.eqb_spec f i) as [->|Hne]; [rewrite fn_lookup_insert, Hw; change (pend t q []) with 0%nat; lia|].
  rewrite fn_lookup_insert_ne by done. lia.
Qed.
(** ** Where a process is *)

Lemma P_pos : 0 < P.
Proof. revert HN. unfold side_of. repeat case_match; intros; try done; lia. Qed.

Lemma quorum_facts i : (i < np)%nat -> alen (Sq i) = K /\ NoDup (Sq i) /\ Z.of_nat i ∈ Sq i /\ forall y, y ∈ Sq i -> 0 <= y < P.
Proof.
  intros Hi. destruct (quorum_spec P N (Z.of_nat i) HN) as (H1 & H2 & H3 & H4 & _); [lia|]. done.
Qed.

Definition ST i : list Z := (fun z : Z => offset + 1 + z) <$> Sq i.
Definition to_all i t tm : acts := (fun z => (childPipe z, Buf t (pid i) tm)) <$> Sq i.
Definition completes i : acts := (fun z => (childPipe z, Buf COMPLETE (pid i) 0)) <$> seqZ 0 P.

Lemma concat_cells {A} (g : Z -> A) (ls : list Z) : forall pre, concat ((fun k => match aget (pre ++ ls) k with Some x => [g x] | None => [] end) <$> seqZ (alen pre) (Z.of_nat (length ls))) = g <$> ls.
Proof.
  induction ls as [|x ls IH]; intros pre; [done|]. rewrite seqZ_cons by (cbn; lia). cbn [fmap list_fmap concat]. rewrite aget_app, decide_False by (unfold alen; lia).
  rewrite Z.sub_diag. cbn [app]. f_equal. replace (Z.pred (Z.of_nat (length (x :: ls)))) with (Z.of_nat (length ls)) by (cbn [length]; lia).
  replace (Z.succ (alen pre)) with (alen (pre ++ [x])) by (unfold alen; rewrite length_app; cbn; lia). rewrite <- (IH (pre ++ [x])), <- app_assoc. done.
Qed.

Lemma outs_each me (ls : list Z) (g : Z -> pipe * mmsg) (body : Z -> unit -> IO unit) : (forall k x, aget ls k = Some x -> outs me (Done tt) [g x] (body k tt)) ->
  outs me (Done tt) (g <$> ls) (p_range 0 (alen ls) body tt).
Proof.
  intros Hb. unfold p_range. rewrite <- (concat_cells g ls []). cbn [app alen length]. replace (Z.to_nat (alen ls - 0)) with (length ls) by (unfold alen; lia).
  apply outs_for. intros k Hk. destruct (aget_is_Some ls k) as [x E]; [unfold alen; lia|]. rewrite E. by apply Hb.
Qed.

Lemma ST_length i : alen (ST i) = alen (Sq i).
Proof. unfold alen, ST. by rewrite length_fmap. Qed.

(** The same message to everyone in the quorum. *)
Lemma outs_quorum i t tm (body : Z -> unit -> IO unit) :
  (forall k x, aget (ST i) k = Some x -> body k tt = p_write (childPipe (x - offset - 1)) (Buf t (pid i) tm)) ->
  outs (pid i) (Done tt) (to_all i t tm) (p_range 0 (alen (ST i)) body tt).
Proof.
  intros Hb. rewrite ST_length. apply outs_each. intros k x E. rewrite (Hb k (offset + 1 + x)) by (unfold ST; by rewrite aget_fmap, E).
  replace (offset + 1 + x - offset - 1) with x by lia. apply outs_write, outs_nil.
Qed.

Definition serve (f : nat) i s : IO unit := serve_loop offset f P (Z.of_nat i) (pid i) s.
Definition leave i s : IO node :=
  releaseLockMaekawa offset (pid i) (ST i) ;;
  p_range 0 P (fun po _ => p_write (childPipe po) (Buf COMPLETE (pid i) 0)) tt ;;
  Done s.
Definition after_lock i s : IO node := (if whichP P1 P2 P3 (Z.of_nat i) =? 2 then p_sleep 2000 else Done tt) ;; leave i s.
Definition enter i s : IO node :=
  let s := mknode (FailedBit s) 1 K (currentLockingRequest s) (wait_queue s) (completeAndStop s) in
  t ← p_uptime;
  p_print (acquired_line (pid i) t) ;;
  Done s.
Definition waits i (z : IO node) : IO unit := io_bind (serve fuel i) (io_bind (after_lock i) (io_bind (enter i) z)).

Lemma waits_passing i : passing (waits i).
Proof. apply (passing_bind (fun z => io_bind (serve fuel i) (io_bind (after_lock i) z))), (passing_bind (fun z => io_bind (serve fuel i) z)), (passing_bind (fun z => z)), passing_id. Qed.

(** Out of the critical section. *)
Definition leaves i s (x : IO unit) : Prop := exists f, outs (pid i) (serve f i s) (to_all i RELEASE 0 ++ completes i) x.

Lemma leave_leaves i s : leaves i s (io_bind (serve fuel i) (leave i s)).
Proof.
  exists fuel. unfold leave, releaseLockMaekawa. cbn [mbind io_mbind]. rewrite <- (app_nil_r (to_all i RELEASE 0 ++ completes i)).
  eapply outs_bind; [|apply outs_nil]. eapply outs_bind with (a := tt).
  - rewrite <- (app_nil_r (to_all i RELEASE 0)). eapply outs_bind.
    + apply outs_quorum. intros k x E. rewrite (p_at_Some _ _ _ _ E). done.
    + apply outs_up. intros t. apply outs_say; [apply harmless_released|apply outs_nil].
  - rewrite <- (app_nil_r (completes i)). eapply outs_bind; [|apply outs_nil]. unfold completes. replace P with (alen (seqZ 0 P)) at 2 by (unfold alen; rewrite length_seqZ; pose proof P_pos; lia).
    apply outs_each. intros k x E. assert (x = k) as -> by (pose proof (aget_lt _ _ _ E); unfold aget in E; destruct (0 <=? k); [|done]; apply lookup_seqZ in E; lia). apply outs_write, outs_nil.
Qed.

(** In the critical section. *)
Inductive sect i s : IO unit -> Prop :=
| sc_up k : (forall t, sect i s (k t)) -> sect i s (Uptime k)
| sc_say o k : sect i s k \/ leaves i s k -> sect i s (Say o k)
| sc_sleep n k : leaves i s k -> sect i s (Sleep n k).

Lemma waits_done i s : exists s', sect i s' (waits i (Done s)) /\ processStatus s' = 1 /\ currentLockingRequest s' = currentLockingRequest s /\ wait_queue s' = wait_queue s.
Proof.
  exists (mknode (FailedBit s) 1 K (currentLockingRequest s) (wait_queue s) (completeAndStop s)). split; [|done]. unfold waits, enter. cbn [mbind io_mbind io_bind p_uptime p_print]. apply sc_up. intros t. apply sc_say.
  unfold after_lock. destruct (whichP P1 P2 P3 (Z.of_nat i) =? 2); [left; apply sc_sleep|right]; apply leave_leaves.
Qed.
(** The node, the locks it holds, what it is about to write, and its program. *)
Inductive phase i : node -> list nat -> acts -> IO unit -> Prop :=
| ph_start : phase i (start_node P1) [] [] (node_main offset K fuel P P1 P2 P3 (Sq i) (Z.of_nat i))
| ph_ask k : (forall t, outs (pid i) (waits i (lock_loop offset K fuel (pid i) (start_node P1))) (to_all i REQUEST t) (k t)) ->
    phase i (start_node P1) [] [] (Uptime k)
| ph_wait s h w f x : lockedCount s = Z.of_nat (length h) -> outs (pid i) (waits i (lock_loop offset K f (pid i) s)) w x -> phase i s h w x
| ph_sect s h x : (forall a, member a i -> a ∈ h) -> sect i s x -> phase i s h [] x
| ph_serve s h w f x : outs (pid i) (serve f i s) w x -> phase i s h w x.

Lemma STemp_ok i : (i < np)%nat ->
  p_range 0 K (fun qw l => q ← p_at "S" (Sq i) qw; x ← p_at "pids" rec_pids q; Done (l ++ [x])) [] = (Done (ST i) : IO (list Z)).
Proof.
  intros Hi. destruct (quorum_facts i Hi) as (HK & _ & _ & Hr). unfold p_range.
  match goal with |- p_for ?n ?lo ?body ?s = _ => destruct (p_for_inv body (fun t l => l = (fun z : Z => offset + 1 + z) <$> take (Z.to_nat t) (Sq i)) n lo s) as (l & -> & ->) end; [|done|].
  - intros t l Ht ->. destruct (aget_is_Some (Sq i) t) as [q E]; [lia|]. rewrite (p_at_Some _ _ _ _ E). cbn [mbind io_mbind io_bind].
    assert (Hq : 0 <= q < P). { apply Hr. unfold aget in E. destruct (0 <=? t); [|done]. by apply list_elem_of_lookup_2 in E. }
    rewrite (p_at_Some _ _ _ (offset + 1 + q)) by (unfold rec_pids, aget; rewrite (proj2 (Z.leb_le 0 q)), list_lookup_fmap, lookup_seqZ_lt by lia; cbn; f_equal; lia).
    eexists. split; [done|]. unfold aget in E. rewrite (proj2 (Z.leb_le 0 t)) in E by lia. replace (Z.to_nat (t + 1)) with (S (Z.to_nat t)) by lia.
    rewrite (take_S_r _ _ _ E), fmap_app. done.
  - f_equal. unfold ST. f_equal. apply take_ge. unfold alen in HK. lia.
Qed.

(** The first message is the list of processes. *)
Lemma start_pids i : (i < np)%nat -> exists k, node_main offset K fuel P P1 P2 P3 (Sq i) (Z.of_nat i) = Read (childPipe (Z.of_nat i)) k /\
  phase i (start_node P1) [] [] (k (Pids rec_pids)) /\ forall t p tm, k (Buf t p tm) = Crash "pids".
Proof.
  intros Hi. unfold node_main. eexists. split; [done|]. split; [|done]. cbn [io_bind]. fold (pid i). destruct (1 <? whichP P1 P2 P3 (Z.of_nat i)).
  - cbn [mbind io_mbind io_bind]. rewrite (STemp_ok i Hi). apply ph_ask. intros t. rewrite <- (app_nil_r (to_all i REQUEST t)).
    set (C := fun u : IO unit => io_bind (serve fuel i) (io_bind (after_lock i) (io_bind (fun _ => io_bind (enter i) (lock_loop offset K fuel (pid i) (start_node P1))) u))).
    assert (HC : passing C) by (apply (passing_bind (fun z => io_bind (serve fuel i) (io_bind (after_lock i) z))), (passing_bind (fun z => io_bind (serve fuel i) z)), (passing_bind (fun z => z)), passing_id).
    rewrite app_nil_r. apply (outs_pass (pid i) C (Done tt)); [done|]. apply outs_quorum. intros k x E. by rewrite (p_at_Some _ _ _ _ E).
  - apply (ph_serve i _ _ _ fuel). apply outs_nil.
Qed.

(** ** The invariant *)

Inductive parent_ok : IO unit -> Prop :=
| pa_write z k : parent_ok k -> parent_ok (Write (childPipe z) (Pids rec_pids) k)
| pa_wait k : parent_ok k -> parent_ok (Wait k)
| pa_done : parent_ok (Done tt)
| pa_crash w : parent_ok (Crash w).

Definition held (l : list nat) a : nat := if bool_decide (a ∈ l) then 1 else 0.
Implicit Types (c : net mmsg) (ns : nat -> node) (hs : nat -> list nat) (ws : nat -> acts).

(** Each lock is in one place: with its owner, on its way to the process it has
    been granted to, held there, or on its way back. *)
Definition tokens ns hs ws (pp : pipes) : Prop := forall a q, (a < np)%nat -> (q < np)%nat ->
  (fl ws pp LOCKED a q + held (hs q) a + fl ws pp RELEASE q a <= owner (ns a) q)%nat.
Definition requests ws (pp : pipes) : Prop := forall a q, (a < np)%nat -> (q < np)%nat -> (0 < fl ws pp REQUEST q a)%nat -> member a q.

Record inv ns hs ws c : Prop := {
  iv_len : length (n_progs c) = S np;
  iv_phase : forall i x, (i < np)%nat -> n_progs c !! i = Some x -> phase i (ns i) (hs i) (ws i) x;
  iv_parent : forall x, n_progs c !! np = Some x -> parent_ok x;
  iv_arb : forall a, (a < np)%nat -> arb_ok a (ns a);
  iv_acts : forall i, (i < np)%nat -> own_acts i (ws i);
  iv_msgs : forall p l, n_pipes c !! p = Some l -> Forall good_msg l;
  iv_nodup : forall q, (q < np)%nat -> NoDup (hs q);
  iv_held : forall q a, (q < np)%nat -> a ∈ hs q -> (a < np)%nat;
  iv_tokens : tokens ns hs ws (n_pipes c);
  iv_requests : requests ws (n_pipes c);
}.

(** Two processes in the critical section would own the same lock. *)
Lemma sect_exclusive ns hs ws c i j xi xj : inv ns hs ws c -> i <> j -> (i < np)%nat -> (j < np)%nat -> n_progs c !! i = Some xi -> n_progs c !! j = Some xj ->
  (forall a, member a i -> a ∈ hs i) -> (forall a, member a j -> a ∈ hs j) -> False.
Proof.
  intros Hi Hne Hin Hjn Hxi Hxj Hhi Hhj. destruct (quorum_spec P N (Z.of_nat i) HN) as (_ & _ & _ & Hr & Hmeet); [lia|]. destruct (Hmeet (Z.of_nat j)) as (y & Hyi & Hyj); [lia|].
  pose proof (Hr y Hyi) as Hy. assert (Ha : forall q, held (hs q) (Z.to_nat y) = 1%nat -> (q < np)%nat -> owner (ns (Z.to_nat y)) q = 1%nat).
  { intros q Hq Hqn. pose proof (iv_tokens _ _ _ _ Hi (Z.to_nat y) q ltac:(lia) Hqn) as Ht. rewrite Hq in Ht. unfold owner in *. destruct (_ && _); [done|lia]. }
  assert (Oi : owner (ns (Z.to_nat y)) i = 1%nat) by (apply Ha; [|done]; unfold held; rewrite bool_decide_true; [done|]; apply Hhi; split; [done|]; by rewrite Z2Nat.id by lia).
  assert (Oj : owner (ns (Z.to_nat y)) j = 1%nat) by (apply Ha; [|done]; unfold held; rewrite bool_decide_true; [done|]; apply Hhj; split; [done|]; by rewrite Z2Nat.id by lia).
  unfold owner in *. destruct (locked (ns (Z.to_nat y))); [|done]. cbn [andb] in *. destruct (Z.eqb_spec (r_pid (currentLockingRequest (ns (Z.to_nat y)))) (pid i)) as [E1|]; [|done].
  destruct (Z.eqb_spec (r_pid (currentLockingRequest (ns (Z.to_nat y)))) (pid j)) as [E2|]; [|done]. apply Hne, pid_inj. congruence.
Qed.
(** ** A process makes a step *)

(** The parts of the invariant that a step of process [i] has to establish. *)
Lemma inv_update ns hs ws ns' hs' ws' c c' i x' : inv ns hs ws c -> (i < np)%nat -> n_progs c' = <[i := x']> (n_progs c) ->
  (forall j, j <> i -> ns' j = ns j /\ hs' j = hs j /\ ws' j = ws j) ->
  phase i (ns' i) (hs' i) (ws' i) x' -> arb_ok i (ns' i) -> own_acts i (ws' i) -> NoDup (hs' i) -> (forall a, a ∈ hs' i -> (a < np)%nat) ->
  (forall p l, n_pipes c' !! p = Some l -> Forall good_msg l) -> tokens ns' hs' ws' (n_pipes c') -> requests ws' (n_pipes c') -> inv ns' hs' ws' c'.
Proof.
  intros Hi Hin Hps Hoff Hph Harb Hact Hnd Hh Hmsg Ht Hr. split; [by rewrite Hps, length_insert, (iv_len _ _ _ _ Hi)| | | | |done| | |done|done].
  - intros j x Hj. rewrite Hps. destruct (decide (j = i)) as [->|Hne]; [rewrite list_lookup_insert_eq by (rewrite (iv_len _ _ _ _ Hi); lia); by intros [= <-]|].
    rewrite list_lookup_insert_ne by done. destruct (Hoff j Hne) as (-> & -> & ->). by apply Hi.
  - intros x. rewrite Hps, list_lookup_insert_ne by lia. apply Hi.
  - intros a Ha. destruct (decide (a = i)) as [->|Hne]; [done|]. destruct (Hoff a Hne) as (-> & _ & _). by apply Hi.
  - intros j Hj. destruct (decide (j = i)) as [->|Hne]; [done|]. destruct (Hoff j Hne) as (_ & _ & ->). by apply Hi.
  - intros q Hq. destruct (decide (q = i)) as [->|Hne]; [done|]. destruct (Hoff q Hne) as (_ & -> & _). by apply Hi.
  - intros q a Hq. destruct (decide (q = i)) as [->|Hne]; [apply Hh|]. destruct (Hoff q Hne) as (_ & -> & _). by apply Hi.
Qed.

(** Nothing but the program changes. *)
Lemma inv_prog ns hs ws c c' i x' : inv ns hs ws c -> (i < np)%nat -> n_progs c' = <[i := x']> (n_progs c) -> n_pipes c' = n_pipes c ->
  phase i (ns i) (hs i) (ws i) x' -> inv ns hs ws c'.
Proof.
  intros Hi Hin Hps Hpp Hph. eapply inv_update; [exact Hi|exact Hin|exact Hps|done|done|by apply (iv_arb _ _ _ _ Hi)|by apply (iv_acts _ _ _ _ Hi)|by apply (iv_nodup _ _ _ _ Hi)|intros a; by apply (iv_held _ _ _ _ Hi)|..]; rewrite Hpp; apply Hi.
Qed.

Lemma fn_off {A} (f : nat -> A) i v j : j <> i -> (<[i := v]> f) j = f j.
Proof. intros. by rewrite fn_lookup_insert_ne. Qed.

Lemma tokens_less ns hs ws pp ws' pp' : tokens ns hs ws pp -> (forall t f q, t <> REQUEST -> (fl ws' pp' t f q <= fl ws pp t f q)%nat) -> tokens ns hs ws' pp'.
Proof. intros H Hle a q Ha Hq. specialize (H a q Ha Hq). pose proof (Hle LOCKED a q ltac:(done)). pose proof (Hle RELEASE q a ltac:(done)). lia. Qed.
Lemma requests_less ws pp ws' pp' : requests ws pp -> (forall t f q, (fl ws' pp' t f q <= fl ws pp t f q)%nat) -> requests ws' pp'.
Proof. intros H Hle a q Ha Hq Hf. apply (H a q Ha Hq). pose proof (Hle REQUEST q a). lia. Qed.

(** A process that has something to write, to print or to ask the time for. *)
Lemma outs_step ns hs ws c c' i x y : inv ns hs ws c -> (i < np)%nat -> n_progs c !! i = Some x -> outs (pid i) y (ws i) x ->
  (forall w x', outs (pid i) y w x' -> phase i (ns i) (hs i) w x') -> step mmsg_size i c = Some c' ->
  (x = y /\ ws i = []) \/ exists ws', inv ns hs ws' c'.
Proof.
  intros Hi Hin Hx Ho Hph Hst. unfold step in Hst. rewrite Hx in Hst. cbn [mbind option_bind] in Hst.
  remember (ws i) as w eqn:Ew. destruct Ho as [|p m k l Ho|o k l Hh Ho|k l Ho|what l]; [by left|right..|done].
  - pose proof (iv_acts _ _ _ _ Hi i Hin) as Hown. rewrite <- Ew in Hown. destruct (n_pipes c !! p) as [q|] eqn:Ep.
    + destruct (pipe_size mmsg_size q + mmsg_size m <=? 512); [|done]. injection Hst as <-. exists (<[i := l]> ws). pose proof (fun t f j => fl_write ws (n_pipes c) i p m l q t f j Hown (eq_sym Ew) Ep) as Hfl.
      eapply inv_update; [exact Hi|exact Hin|reflexivity|intros j Hj; by rewrite fn_off|rewrite fn_lookup_insert; by apply Hph|by apply (iv_arb _ _ _ _ Hi)|rewrite fn_lookup_insert; by inversion Hown|by apply (iv_nodup _ _ _ _ Hi)|intros a; by apply (iv_held _ _ _ _ Hi)|..]; cbn [n_pipes set_pipe set_prog].
      * intros p' l'. destruct (decide (p = p')) as [<-|Hne]; [rewrite lookup_insert_eq; intros [= <-]|rewrite lookup_insert_ne by done; apply Hi].
        apply Forall_app. split; [by eapply Hi|]. repeat constructor. inversion Hown as [|? ? (t' & tm & Em & Hk) _]; subst. cbn in Em. subst m. split; [done|]. by exists i.
      * eapply tokens_less; [apply Hi|]. intros. by rewrite Hfl.
      * eapply requests_less; [apply Hi|]. intros. by rewrite Hfl.
    + injection Hst as <-. exists (<[i := l]> ws). eapply inv_update; [exact Hi|exact Hin|reflexivity|intros j Hj; by rewrite fn_off|rewrite fn_lookup_insert; apply Hph, outs_crash|by apply (iv_arb _ _ _ _ Hi)|rewrite fn_lookup_insert; by inversion Hown|by apply (iv_nodup _ _ _ _ Hi)|intros a; by apply (iv_held _ _ _ _ Hi)|apply Hi|..]; cbn [n_pipes set_prog].
      * eapply tokens_less; [apply Hi|]. intros. by eapply fl_drop.
      * eapply requests_less; [apply Hi|]. intros. by eapply fl_drop.
  - injection Hst as <-. exists ws. eapply inv_prog; [exact Hi|done|done|done|]. rewrite <- Ew. by apply Hph.
  - injection Hst as <-. exists ws. eapply inv_prog; [exact Hi|done|done|done|]. rewrite <- Ew. by apply Hph.
Qed.

Lemma read_tokens ns hs ws pp i m l s' h' l' : tokens ns hs ws pp -> (i < np)%nat -> ws i = [] -> pp !! childPipe (Z.of_nat i) = Some (m :: l) ->
  (forall q, (q < np)%nat -> (fl ws pp LOCKED i q + pend LOCKED q l' + held (hs q) i + fl ws pp RELEASE q i <= owner s' q + if is_msg RELEASE q m then 1 else 0)%nat) ->
  (forall a, (held h' a <= held (hs i) a + if is_msg LOCKED a m then 1 else 0)%nat) -> (forall q, pend RELEASE q l' = 0%nat) ->
  tokens (<[i := s']> ns) (<[i := h']> hs) (<[i := l']> ws) (<[childPipe (Z.of_nat i) := l]> pp).
Proof.
  intros Ht Hin Hw Hp Hown Hheld Hrel a q Ha Hq. pose proof (fl_read ws pp i m l l' LOCKED a q Hw Hp) as H1. pose proof (fl_read ws pp i m l l' RELEASE q a Hw Hp) as H2.
  specialize (Ht a q Ha Hq). specialize (Hrel a). assert (Hh : (held ((<[i := h']> hs) q) a <= held (hs q) a + if (q =? i)%nat && is_msg LOCKED a m then 1 else 0)%nat).
  { destruct (Nat.eqb_spec q i) as [->|Hne]; [rewrite fn_lookup_insert; apply Hheld|rewrite fn_off by done; cbn; lia]. }
  destruct (decide (a = i)) as [->|Hne].
  - rewrite fn_lookup_insert. specialize (Hown q Hq). rewrite Nat.eqb_refl in H1, H2. cbn [andb] in H2. destruct (q =? i)%nat; lia.
  - rewrite (fn_off ns) by done. rewrite (proj2 (Nat.eqb_neq a i) Hne) in H1, H2. cbn [andb] in H2. destruct (q =? i)%nat; lia.
Qed.

Lemma to_send_one t q p t' z tm : pend t q [(p, Buf t' z tm)] = if bool_decide (p = childPipe (Z.of_nat q)) && (t' =? t) then 1%nat else 0%nat.
Proof. unfold pend, to_send. cbn. by destruct (bool_decide (p = childPipe (Z.of_nat q)) && (t' =? t)). Qed.
Lemma pend_grant a q' t q : pend t q (grant a q') = if (q' =? q)%nat && (LOCKED =? t) then 1%nat else 0%nat.
Proof.
  unfold grant. rewrite to_send_one. replace (bool_decide (childPipe (Z.of_nat q') = childPipe (Z.of_nat q))) with (q' =? q)%nat; [done|].
  destruct (Nat.eqb_spec q' q) as [->|Hne]; symmetry; [by apply bool_decide_true|apply bool_decide_false]. by intros ?%childPipe_inj.
Qed.
Lemma pend_noise a l t q : noise a l -> t <> FAILED -> t <> INQUIRE -> pend t q l = 0%nat.
Proof.
  intros (p & t' & -> & Ht) H1 H2. rewrite to_send_one. destruct (Z.eqb_spec t' t) as [->|]; [by destruct Ht|by rewrite andb_false_r].
Qed.

Lemma react_pend a s t q l s' t' q' : react a s t q l s' -> t' = RELEASE \/ t' = REQUEST -> pend t' q' l = 0%nat.
Proof. intros H Ht. destruct H; [|by eapply pend_noise; [done|..]; destruct Ht; subst|done|done| |done]; rewrite pend_grant; destruct Ht; subst; by rewrite andb_false_r. Qed.
Lemma react_own a s t q l s' : react a s t q l s' -> own_acts a l.
Proof.
  intros H. destruct H as [? ? _ _ _ _|? ? ? _ (p & t' & -> & Ht)|? ? _|? ? _|? ? ? _ _ _|? ? ? _ _ _]; constructor; try constructor; eexists _, _; (split; [done|]); unfold kind; [set_solver|destruct Ht as [->| ->]; set_solver|set_solver].
Qed.

Lemma owner_eq s q q' : r_pid (currentLockingRequest s) = pid q' -> locked s = true -> owner s q = if (q' =? q)%nat then 1%nat else 0%nat.
Proof. intros E El. unfold owner. rewrite El, E. cbn [andb]. unfold pid. destruct (Nat.eqb_spec q' q) as [->|]; [by rewrite Z.eqb_refl|]. by rewrite (proj2 (Z.eqb_neq _ _)) by lia. Qed.
Lemma owner_same s s' q : same_lock s s' -> owner s' q = owner s q.
Proof. intros [E1 E2]. unfold owner, locked. by rewrite E1, E2. Qed.
Lemma owner_one s q q' : owner s q = 1%nat -> owner s q' = if (q' =? q)%nat then 1%nat else 0%nat.
Proof.
  unfold owner. destruct (locked s); [|done]. cbn [andb]. destruct (Z.eqb_spec (r_pid (currentLockingRequest s)) (pid q)) as [->|]; [|done]. intros _.
  unfold pid. destruct (Nat.eqb_spec q' q) as [->|]; [by rewrite Z.eqb_refl|]. by rewrite (proj2 (Z.eqb_neq _ _)) by lia.
Qed.
Lemma fl_first ws pp i m l t q : pp !! childPipe (Z.of_nat i) = Some (m :: l) -> is_msg t q m = true -> (1 <= fl ws pp t q i)%nat.
Proof. intros Hp Hm. unfold fl, pipe_of. rewrite Hp. cbn [default from_option id]. rewrite cnt_cons, Hm. lia. Qed.

(** What the answer does to the lock of the process. *)
Lemma react_tokens ns hs ws pp i t q0 tm l s' l' : tokens ns hs ws pp -> (i < np)%nat -> (q0 < np)%nat -> pp !! childPipe (Z.of_nat i) = Some (Buf t (pid q0) tm :: l) ->
  react i (ns i) t q0 l' s' -> forall q, (q < np)%nat ->
  (fl ws pp LOCKED i q + pend LOCKED q l' + held (hs q) i + fl ws pp RELEASE q i <= owner s' q + if is_msg RELEASE q (Buf t (pid q0) tm) then 1 else 0)%nat.
Proof.
  intros Ht Hin Hq0 Hp Hre q Hq. pose proof (Ht i q Hin Hq) as Hiq. rewrite is_msg_Buf. remember (ns i) as s eqn:Es. symmetry in Es.
  assert (Hown : t = RELEASE -> owner s q = if (q =? q0)%nat then 1%nat else 0%nat).
  { intros ->. apply owner_one. pose proof (Ht i q0 Hin Hq0) as H0. pose proof (fl_first ws pp i _ l RELEASE q0 Hp) as H1. rewrite is_msg_Buf, Nat.eqb_refl in H1. specialize (H1 eq_refl).
    rewrite Es in H0. unfold owner in H0 |- *. destruct (locked s && _); lia. }
  destruct Hre as [q' s' Hlk Hm Hlk' Ecur|q' l' s' Hsame Hn|q' s' Hsame|q' s' Hlk'|q1 q' s' Hm Hlk' Ecur|t q' s' Hsame H1 H2].
  - rewrite (owner_eq s' q q' Ecur Hlk'), pend_grant. unfold owner in Hiq. rewrite Hlk in Hiq. cbn in Hiq |- *. rewrite andb_true_r. lia.
  - rewrite (owner_same _ _ _ Hsame), (pend_noise _ _ _ _ Hn) by done. lia.
  - rewrite (owner_same _ _ _ Hsame). change (pend LOCKED q []) with 0%nat. lia.
  - rewrite (Hown eq_refl) in Hiq. change (pend LOCKED q []) with 0%nat. rewrite Z.eqb_refl, (Nat.eqb_sym q' q). cbn [andb]. lia.
  - rewrite (Hown eq_refl) in Hiq. rewrite (owner_eq s' q q' Ecur Hlk'), pend_grant, !Z.eqb_refl, (Nat.eqb_sym q1 q), andb_true_r. cbn [andb]. lia.
  - rewrite (owner_same _ _ _ Hsame). change (pend LOCKED q []) with 0%nat. lia.
Qed.

Definition relinquishing c : Prop := exists j p me tm k, n_progs c !! j = Some (Write p (Buf RELINQUISH me tm) k).

Lemma read_requests ws pp i m l l' : requests ws pp -> ws i = [] -> pp !! childPipe (Z.of_nat i) = Some (m :: l) -> (forall q, pend REQUEST q l' = 0%nat) ->
  requests (<[i := l']> ws) (<[childPipe (Z.of_nat i) := l]> pp).
Proof.
  intros Hr Hw Hp H0 a q Ha Hq Hf. apply (Hr a q Ha Hq). pose proof (fl_read ws pp i m l l' REQUEST q a Hw Hp) as H1. rewrite H0 in H1. destruct (q =? i)%nat; lia.
Qed.

Lemma pipes_rest (pp : pipes) (p p' : pipe) (m : mmsg) (l l' : list mmsg) : (forall p l, pp !! p = Some l -> Forall good_msg l) -> pp !! p = Some (m :: l) ->
  <[p := l]> pp !! p' = Some l' -> Forall good_msg l'.
Proof.
  intros Hg Hp. destruct (decide (p = p')) as [<-|Hne]; [|rewrite lookup_insert_ne by done; apply Hg]. rewrite lookup_insert_eq. intros [= <-].
  apply Hg in Hp. by inversion Hp.
Qed.

(** A message that is none of the protocol's is read. *)
Lemma read_quiet ns hs ws c i m l x' : inv ns hs ws c -> (i < np)%nat -> ws i = [] -> n_pipes c !! childPipe (Z.of_nat i) = Some (m :: l) ->
  phase i (ns i) (hs i) [] x' -> exists ns' hs' ws', inv ns' hs' ws' (set_pipe (set_prog c i x') (childPipe (Z.of_nat i)) l).
Proof.
  intros Hi Hin Hw Hp Hph. exists (<[i := ns i]> ns), (<[i := hs i]> hs), (<[i := []]> ws).
  eapply inv_update; [exact Hi|exact Hin|reflexivity|intros j Hj; by rewrite !fn_off|..]; rewrite ?fn_lookup_insert; [done|by apply (iv_arb _ _ _ _ Hi)|constructor|by apply (iv_nodup _ _ _ _ Hi)|intros a; by apply (iv_held _ _ _ _ Hi)|..]; cbn [n_pipes set_pipe set_prog].
  - intros p' l'. by eapply pipes_rest; [apply Hi|].
  - eapply read_tokens; [apply Hi|done|done|exact Hp| |intros; lia|done]. intros q Hq. pose proof (iv_tokens _ _ _ _ Hi i q Hin Hq). change (pend LOCKED q []) with 0%nat. lia.
  - eapply read_requests; [apply Hi|done|exact Hp|done].
Qed.

Lemma read_step ns hs ws c c' i C : inv ns hs ws c -> (i < np)%nat -> ws i = [] -> passing C ->
  n_progs c !! i = Some (Read (childPipe (Z.of_nat i)) (fun m => C (recvHandler offset (pid i) m (ns i)))) ->
  (forall s' h' l x', lockedCount s' - lockedCount (ns i) = Z.of_nat (length h') - Z.of_nat (length (hs i)) -> outs (pid i) (C (Done s')) l x' -> phase i s' h' l x') ->
  step mmsg_size i c = Some c' -> ~ relinquishing c' -> exists ns' hs' ws', inv ns' hs' ws' c'.
Proof.
  intros Hi Hin Hw HC Hx Hph Hst Hnr. unfold step in Hst. rewrite Hx in Hst. cbn [mbind option_bind] in Hst.
  destruct (n_pipes c !! childPipe (Z.of_nat i)) as [[|m l]|] eqn:Ep; [done| |].
  2:{ injection Hst as <-. exists ns, hs, ws. eapply inv_prog; [exact Hi|done|done|done|]. rewrite Hw. apply Hph; [lia|apply outs_crash]. }
  injection Hst as <-. assert (Hgood : good_msg m) by (pose proof (iv_msgs _ _ _ _ Hi _ _ Ep) as H; by inversion H).
  destruct m as [pids|t p tm]; [eapply read_quiet; [done..|]; apply Hph; [lia|]; cbn [recvHandler]; rewrite (pass_crash _ HC); apply outs_crash|]. destruct Hgood as (Hk & q0 & Hq0 & ->).
  destruct (recvHandler_react i q0 t tm (ns i)) as [(p & k & E)|(l' & s' & Ho & Ha & Hre & Hlc)]; [by apply (iv_arb _ _ _ _ Hi)|done| | |].
  { intros ->. apply (iv_requests _ _ _ _ Hi); [done|done|]. eapply fl_first; [exact Ep|]. by rewrite is_msg_Buf, Nat.eqb_refl. }
  { destruct Hnr. eexists i, p, _, _, _. cbn [n_progs set_pipe set_prog]. rewrite E, (pass_write _ HC), list_lookup_insert_eq; [done|]. rewrite (iv_len _ _ _ _ Hi). lia. }
  set (h' := if t =? LOCKED then q0 :: hs i else hs i).
  assert (Hfresh : t = LOCKED -> q0 ∉ hs i).
  { intros -> Hin0. pose proof (iv_tokens _ _ _ _ Hi q0 i Hq0 Hin) as H0. pose proof (fl_first ws (n_pipes c) i _ l LOCKED q0 Ep) as H1. rewrite is_msg_Buf, Nat.eqb_refl in H1. specialize (H1 eq_refl).
    unfold held in H0. rewrite bool_decide_true in H0 by done. unfold owner in H0. destruct (_ && _); lia. }
  exists (<[i := s']> ns), (<[i := h']> hs), (<[i := l']> ws).
  eapply inv_update; [exact Hi|exact Hin|reflexivity|intros j Hj; by rewrite !fn_off|..]; rewrite ?fn_lookup_insert; cbn [n_pipes set_pipe set_prog].
  - apply Hph; [rewrite Hlc; unfold h'; destruct (t =? LOCKED); cbn; lia|]. by apply outs_pass.
  - done.
  - by eapply react_own.
  - unfold h'. destruct (Z.eqb_spec t LOCKED) as [->|]; [constructor; [by apply Hfresh|]|]; by apply (iv_nodup _ _ _ _ Hi).
  - intros a. unfold h'. destruct (t =? LOCKED); [rewrite elem_of_cons; intros [->|]; [done|]|intros ?]; by apply (iv_held _ _ _ _ Hi i).
  - intros p' l1. by eapply pipes_rest; [apply Hi|].
  - eapply read_tokens; [apply Hi|done|done|exact Ep|by eapply react_tokens; [apply Hi|..]| |intros q; eapply react_pend; [done|by left]].
    intros a. rewrite is_msg_Buf. unfold h', held. destruct (Z.eqb_spec t LOCKED) as [->|]; [|cbn [andb]; lia]. cbn [andb]. destruct (Nat.eqb_spec q0 a) as [->|Hne]; [case_bool_decide; lia|].
    rewrite (bool_decide_ext (a ∈ q0 :: hs i) (a ∈ hs i)); [lia|]. rewrite elem_of_cons. split; [intros [->|]; done|by right].
  - eapply read_requests; [apply Hi|done|exact Ep|]. intros q. eapply react_pend; [done|by right].
Qed.
(** ** Asking, entering and leaving *)

Lemma to_all_own i t tm : kind t -> own_acts i (to_all i t tm).
Proof. intros Hk. apply Forall_fmap, Forall_forall. intros z _. by exists t, tm. Qed.
Lemma completes_own i : own_acts i (completes i).
Proof. apply Forall_fmap, Forall_forall. intros z _. exists COMPLETE, 0. split; [done|]. unfold kind. set_solver. Qed.

Lemma pend_map t q i t' tm (l : list Z) : NoDup l -> pend t q ((fun z => (childPipe z, Buf t' (pid i) tm)) <$> l) = if (t' =? t) && bool_decide (Z.of_nat q ∈ l) then 1%nat else 0%nat.
Proof.
  intros H. induction H as [|z l Hz _ IH]; [by rewrite andb_comm|]. rewrite fmap_cons, pend_cons, IH. unfold to_send. cbn [fst snd].
  rewrite (bool_decide_ext (childPipe z = childPipe (Z.of_nat q)) (z = Z.of_nat q)) by (split; [by intros [=]|by intros ->]).
  rewrite (bool_decide_ext (Z.of_nat q ∈ z :: l) (z = Z.of_nat q \/ Z.of_nat q ∈ l)) by (rewrite elem_of_cons; naive_solver). rewrite bool_decide_or.
  destruct (t' =? t); [|by rewrite andb_false_r]. rewrite andb_true_r. cbn [andb]. destruct (bool_decide_reflect (z = Z.of_nat q)) as [->|]; [by rewrite (bool_decide_false (Z.of_nat q ∈ l))|done].
Qed.

(** The process writes its requests. *)
Lemma ask_step ns hs ws c i x' tm : inv ns hs ws c -> (i < np)%nat -> ws i = [] -> phase i (ns i) (hs i) (to_all i REQUEST tm) x' ->
  exists ns' hs' ws', inv ns' hs' ws' (set_prog c i x').
Proof.
  intros Hi Hin Hw Hph. exists ns, hs, (<[i := to_all i REQUEST tm]> ws). destruct (quorum_facts i Hin) as (_ & Hnd & _).
  assert (Hfl : forall t f q, fl (<[i := to_all i REQUEST tm]> ws) (n_pipes c) t f q = (fl ws (n_pipes c) t f q + if (f =? i)%nat && ((REQUEST =? t)%Z && bool_decide (Z.of_nat q ∈ Sq i)) then 1 else 0)%nat).
  { intros t f q. unfold fl. destruct (Nat.eqb_spec f i) as [->|Hne]; [|rewrite fn_off by done; cbn; lia]. rewrite fn_lookup_insert, Hw. unfold to_all. rewrite pend_map by done. change (pend t q []) with 0%nat. cbn [andb]. lia. }
  eapply inv_update; [exact Hi|exact Hin|reflexivity|intros j Hj; by rewrite fn_off|..]; rewrite ?fn_lookup_insert; cbn [n_pipes set_prog];
    [done|by apply (iv_arb _ _ _ _ Hi)|apply to_all_own; unfold kind; set_solver|by apply (iv_nodup _ _ _ _ Hi)|intros a; by apply (iv_held _ _ _ _ Hi)|apply Hi|..].
  - eapply tokens_less; [apply Hi|]. intros t f q. intros Ht. rewrite Hfl, (proj2 (Z.eqb_neq REQUEST t)), andb_false_r by congruence. lia.
  - intros a q Ha Hq. rewrite Hfl. destruct (Nat.eqb_spec q i) as [->|]; [|cbn [andb]; rewrite Nat.add_0_r; by apply (iv_requests _ _ _ _ Hi)]. rewrite Z.eqb_refl. cbn [andb].
    case_bool_decide; [by split|rewrite Nat.add_0_r; by apply (iv_requests _ _ _ _ Hi)].
Qed.
(** The process returns the locks it holds. *)
Lemma leave_step ns hs ws c c' i x' : inv ns hs ws c -> (i < np)%nat -> ws i = [] -> (forall a, member a i -> a ∈ hs i) -> leaves i (ns i) x' ->
  n_progs c' = <[i := x']> (n_progs c) -> n_pipes c' = n_pipes c -> exists ns' hs' ws', inv ns' hs' ws' c'.
Proof.
  intros Hi Hin Hw Hall (f & Ho) Hps Hpp. set (l := to_all i RELEASE 0 ++ completes i). exists ns, (<[i := []]> hs), (<[i := l]> ws). destruct (quorum_facts i Hin) as (_ & Hnd & _).
  assert (Hl : forall t q, t <> COMPLETE -> pend t q l = if (RELEASE =? t) && bool_decide (Z.of_nat q ∈ Sq i) then 1%nat else 0%nat).
  { intros t q Ht. unfold l, to_all, completes. rewrite pend_app, !pend_map by (done || apply NoDup_seqZ). rewrite (proj2 (Z.eqb_neq COMPLETE t)) by congruence. cbn [andb]. lia. }
  assert (Hfl : forall t f q, t <> COMPLETE -> fl (<[i := l]> ws) (n_pipes c) t f q = (fl ws (n_pipes c) t f q + if (f =? i)%nat && ((RELEASE =? t)%Z && bool_decide (Z.of_nat q ∈ Sq i)) then 1 else 0)%nat).
  { intros t f0 q Ht. unfold fl. destruct (Nat.eqb_spec f0 i) as [->|Hne]; [|rewrite fn_off by done; cbn; lia]. rewrite fn_lookup_insert, Hw, Hl by done. change (pend t q []) with 0%nat. cbn [andb]. lia. }
  eapply inv_update; [exact Hi|exact Hin|exact Hps|intros j Hj; by rewrite !fn_off|..]; rewrite ?fn_lookup_insert, ?Hpp;
    [by apply (ph_serve i _ _ _ f)|by apply (iv_arb _ _ _ _ Hi)|apply Forall_app; split; [apply to_all_own; unfold kind; set_solver|apply completes_own]|constructor|by intros a ?%elem_of_nil|apply Hi|..].
  - intros a q Ha Hq. pose proof (iv_tokens _ _ _ _ Hi a q Ha Hq) as H. rewrite !Hfl by done. change (RELEASE =? LOCKED) with false. rewrite Z.eqb_refl. cbn [andb]. rewrite andb_false_r, Nat.add_0_r.
    destruct (Nat.eqb_spec q i) as [->|Hne]; [|rewrite (fn_off hs) by done; cbn [andb]; lia]. rewrite fn_lookup_insert. cbn [andb]. unfold held in *. rewrite (bool_decide_false (a ∈ [])) by (by intros ?%elem_of_nil).
    destruct (bool_decide_reflect (Z.of_nat a ∈ Sq i)) as [D|D]; [|lia]. rewrite bool_decide_true in H; [lia|]. apply Hall. by split.
  - intros a q Ha Hq. rewrite Hfl by done. change (RELEASE =? REQUEST) with false. rewrite andb_false_r, Nat.add_0_r. by apply (iv_requests _ _ _ _ Hi).
Qed.

(** A process with as many locks as it needs has those of its quorum. *)
Lemma quorum_held ns hs ws c i : inv ns hs ws c -> (i < np)%nat -> K <= Z.of_nat (length (hs i)) -> forall a, member a i -> a ∈ hs i.
Proof.
  intros Hi Hin Hlen a [_ Ha]. destruct (quorum_facts i Hin) as (HK & _ & _ & _).
  assert (Hincl : incl (Z.of_nat <$> hs i) (Sq i)).
  { intros z (b & -> & Hb)%list_elem_of_In%list_elem_of_fmap. pose proof (iv_held _ _ _ _ Hi i b Hin Hb) as Hbn. pose proof (iv_tokens _ _ _ _ Hi b i Hbn Hin) as Ht. unfold held in Ht. rewrite bool_decide_true in Ht by done.
    unfold owner in Ht. destruct (locked (ns b)) eqn:El; [|cbn in Ht; lia]. cbn [andb] in Ht. destruct (Z.eqb_spec (r_pid (currentLockingRequest (ns b))) (pid i)) as [E|]; [|lia].
    destruct (ao_cur _ _ (iv_arb _ _ _ _ Hi b Hbn) El) as (q & Eq & _ & Hm). rewrite E in Eq. apply pid_inj in Eq as <-. by apply list_elem_of_In. }
  assert (Hback : incl (Sq i) (Z.of_nat <$> hs i)).
  { apply NoDup_length_incl; [|rewrite length_fmap; unfold alen in HK; lia|done]. apply NoDup_ListNoDup, NoDup_fmap_2, (iv_nodup _ _ _ _ Hi i Hin). intros x y. lia. }
  apply list_elem_of_In, Hback, list_elem_of_In, list_elem_of_fmap in Ha as (b & E & Hb). by replace a with b by lia.
Qed.

(** The process notes that it has the lock. *)
Lemma enter_section ns hs ws c i s' x : inv ns hs ws c -> (i < np)%nat -> n_progs c !! i = Some x -> ws i = [] -> (forall a, member a i -> a ∈ hs i) ->
  processStatus s' = 1 -> currentLockingRequest s' = currentLockingRequest (ns i) -> wait_queue s' = wait_queue (ns i) -> sect i s' x ->
  inv (<[i := s']> ns) hs ws c.
Proof.
  intros Hi Hin Hx Hw Hall E1 E2 E3 Hsect. destruct (quorum_facts i Hin) as (_ & _ & Hself & _).
  assert (Hlk : locked (ns i) = true).
  { pose proof (iv_tokens _ _ _ _ Hi i i Hin Hin) as Ht. unfold held in Ht. rewrite bool_decide_true in Ht by (by apply Hall). unfold owner in Ht. destruct (locked (ns i)); [done|cbn in Ht; lia]. }
  assert (Hsame : forall q, owner s' q = owner (ns i) q) by (intros q; unfold owner, locked in *; by rewrite E1, E2, Hlk).
  pose proof (iv_arb _ _ _ _ Hi i Hin) as [Hq Hc]. eapply inv_update with (x' := x); [exact Hi|exact Hin|by rewrite list_insert_id|intros j Hj; by rewrite fn_off|..]; rewrite ?fn_lookup_insert;
    [rewrite Hw; by apply ph_sect|split; rewrite ?E2, ?E3; [done|intros _; by apply Hc]|by apply (iv_acts _ _ _ _ Hi)|by apply (iv_nodup _ _ _ _ Hi)|intros a; by apply (iv_held _ _ _ _ Hi)|apply Hi| |apply Hi].
  intros a q Ha Hq'. pose proof (iv_tokens _ _ _ _ Hi a q Ha Hq') as H. destruct (decide (a = i)) as [->|Hne]; [by rewrite fn_lookup_insert, Hsame|by rewrite fn_off].
Qed.

Lemma sect_step ns hs ws c c' i x : inv ns hs ws c -> (i < np)%nat -> n_progs c !! i = Some x -> ws i = [] -> (forall a, member a i -> a ∈ hs i) -> sect i (ns i) x ->
  step mmsg_size i c = Some c' -> exists ns' hs' ws', inv ns' hs' ws' c'.
Proof.
  intros Hi Hin Hx Hw Hall Hs Hst. unfold step in Hst. rewrite Hx in Hst. cbn [mbind option_bind] in Hst. inversion Hs as [k Hk|o k [Hk|Hk]|n k Hk]; subst; injection Hst as <-.
  - exists ns, hs, ws. eapply inv_prog; [exact Hi|done|done|done|]. rewrite Hw. by apply ph_sect.
  - exists ns, hs, ws. eapply inv_prog; [exact Hi|done|done|done|]. rewrite Hw. by apply ph_sect.
  - by eapply leave_step.
  - by eapply leave_step.
Qed.
(** ** Every step keeps the invariant *)

Lemma node_start_step ns hs ws c c' i : inv ns hs ws c -> (i < np)%nat -> ws i = [] -> ns i = start_node P1 -> hs i = [] ->
  n_progs c !! i = Some (node_main offset K fuel P P1 P2 P3 (Sq i) (Z.of_nat i)) -> step mmsg_size i c = Some c' -> exists ns' hs' ws', inv ns' hs' ws' c'.
Proof.
  intros Hi Hin Hw Hn Hh Hx Hst. destruct (start_pids i Hin) as (k & E & Hk & Hcrash). rewrite E in Hx. unfold step in Hst. rewrite Hx in Hst. cbn [mbind option_bind] in Hst.
  destruct (n_pipes c !! childPipe (Z.of_nat i)) as [[|m l]|] eqn:Ep; [done| |].
  - injection Hst as <-. eapply read_quiet; [done..|]. rewrite Hn, Hh. assert (Hgood : good_msg m) by (pose proof (iv_msgs _ _ _ _ Hi _ _ Ep) as H; by inversion H).
    destruct m as [pids|t p tm]; [cbn in Hgood; by subst|]. rewrite Hcrash. apply (ph_serve i _ _ _ 0), outs_crash.
  - injection Hst as <-. exists ns, hs, ws. eapply inv_prog; [exact Hi|done|done|done|]. apply (ph_serve i _ _ _ 0), outs_crash.
Qed.

Lemma wait_step ns hs ws c c' i f x : inv ns hs ws c -> (i < np)%nat -> n_progs c !! i = Some x -> lockedCount (ns i) = Z.of_nat (length (hs i)) ->
  outs (pid i) (waits i (lock_loop offset K f (pid i) (ns i))) (ws i) x -> step mmsg_size i c = Some c' -> ~ relinquishing c' -> exists ns' hs' ws', inv ns' hs' ws' c'.
Proof.
  intros Hi Hin Hx Hlc Ho Hst Hnr. destruct (outs_step ns hs ws c c' i x _ Hi Hin Hx Ho) as [[-> Hw]|(ws' & H)]; [by intros; eapply ph_wait|done| |by exists ns, hs, ws'].
  destruct f as [|f]; [unfold step in Hst; by rewrite Hx in Hst|]. cbn [lock_loop] in Hx. destruct (Z.ltb_spec (lockedCount (ns i)) K) as [Hlt|Hge].
  - replace (childPipe (pid i - offset - 1)) with (childPipe (Z.of_nat i)) in Hx by (unfold pid; f_equal; lia).
    eapply (read_step ns hs ws c c' i (fun z => waits i (io_bind (lock_loop offset K f (pid i)) z))); [done|done|done|apply (passing_bind (waits i)), waits_passing|exact Hx| |done|done].
    intros s' h' l x' E Hx'. apply (ph_wait i _ _ _ f); [lia|exact Hx'].
  - destruct (waits_done i (ns i)) as (s' & Hs & E1 & E2 & E3). rewrite Hlc in Hge. pose proof (quorum_held ns hs ws c i Hi Hin Hge) as Hall.
    pose proof (enter_section ns hs ws c i s' _ Hi Hin Hx Hw Hall E1 E2 E3 Hs) as Hi'. eapply (sect_step _ _ _ c c' i _ Hi' Hin Hx); [done|done|by rewrite fn_lookup_insert|done].
Qed.

Lemma serve_step ns hs ws c c' i f x : inv ns hs ws c -> (i < np)%nat -> n_progs c !! i = Some x ->
  outs (pid i) (serve f i (ns i)) (ws i) x -> step mmsg_size i c = Some c' -> ~ relinquishing c' -> exists ns' hs' ws', inv ns' hs' ws' c'.
Proof.
  intros Hi Hin Hx Ho Hst Hnr. destruct (outs_step ns hs ws c c' i x _ Hi Hin Hx Ho) as [[-> Hw]|(ws' & H)]; [by intros; eapply ph_serve|done| |by exists ns, hs, ws'].
  destruct f as [|f]; [unfold step in Hst; by rewrite Hx in Hst|]. unfold serve in Hx. cbn [serve_loop] in Hx. destruct (completeAndStop (ns i) <? P); [|unfold step in Hst; by rewrite Hx in Hst].
  eapply (read_step ns hs ws c c' i (fun z => io_bind (serve f i) z)); [done|done|done|apply (passing_bind (fun z => z)), passing_id|exact Hx| |done|done].
  intros s' h' l x' _ Hx'. apply (ph_serve i _ _ _ f). exact Hx'.
Qed.

Lemma node_step ns hs ws c c' i : inv ns hs ws c -> (i < np)%nat -> step mmsg_size i c = Some c' -> ~ relinquishing c' -> exists ns' hs' ws', inv ns' hs' ws' c'.
Proof.
  intros Hi Hin Hst Hnr. destruct (lookup_lt_is_Some_2 (n_progs c) i) as [x Hx]; [rewrite (iv_len _ _ _ _ Hi); lia|]. pose proof (iv_phase _ _ _ _ Hi i x Hin Hx) as Hph.
  remember (ns i) as s eqn:Es. remember (hs i) as h eqn:Eh. remember (ws i) as w eqn:Ew.
  destruct Hph as [|k Hk|s h w f x Hlc Ho|s h x Hall Hs|s h w f x Ho].
  - by eapply node_start_step.
  - unfold step in Hst. rewrite Hx in Hst. injection Hst as <-. eapply ask_step; [done|done|done|]. rewrite <- Es, <- Eh. apply (ph_wait i _ _ _ fuel); [done|apply Hk].
  - subst. by eapply wait_step.
  - subst. by eapply sect_step.
  - subst. by eapply serve_step.
Qed.

Lemma cnt_pids t q l m : m = Pids l -> cnt t q [m] = 0%nat.
Proof. by intros ->. Qed.

Lemma parent_step ns hs ws c c' : inv ns hs ws c -> step mmsg_size np c = Some c' -> inv ns hs ws c'.
Proof.
  intros Hi Hst. destruct (lookup_lt_is_Some_2 (n_progs c) np) as [x Hx]; [rewrite (iv_len _ _ _ _ Hi); lia|]. pose proof (iv_parent _ _ _ _ Hi x Hx) as Hpa.
  assert (Hkeep : forall x' pp', parent_ok x' -> n_progs c' = <[np := x']> (n_progs c) -> n_pipes c' = pp' -> (forall p l, pp' !! p = Some l -> Forall good_msg l) ->
    (forall t f q, (fl ws pp' t f q <= fl ws (n_pipes c) t f q)%nat) -> inv ns hs ws c').
  { intros x' pp' Hx' Hps Hpp Hmsg Hfl. split; [by rewrite Hps, length_insert, (iv_len _ _ _ _ Hi)| | |apply Hi|apply Hi|by rewrite Hpp|apply Hi|apply Hi| |]; rewrite ?Hpp.
    - intros i y Hin. rewrite Hps, list_lookup_insert_ne by lia. by apply (iv_phase _ _ _ _ Hi).
    - intros y. rewrite Hps, list_lookup_insert_eq by (rewrite (iv_len _ _ _ _ Hi); lia). by intros [= <-].
    - eapply tokens_less; [apply Hi|]. intros. apply Hfl.
    - eapply requests_less; [apply Hi|]. intros. apply Hfl. }
  unfold step in Hst. rewrite Hx in Hst. cbn [mbind option_bind] in Hst. destruct Hpa as [z k Hk|k Hk| |]; [| |done|done].
  - destruct (n_pipes c !! childPipe z) as [q|] eqn:Ep; [|injection Hst as <-; by eapply Hkeep; [apply pa_crash|..|apply Hi|]].
    destruct (pipe_size mmsg_size q + mmsg_size (Pids rec_pids) <=? 512); [|done]. injection Hst as <-. eapply Hkeep; [exact Hk|reflexivity|reflexivity|..].
    + intros p l. cbn [n_pipes set_pipe set_prog]. destruct (decide (childPipe z = p)) as [<-|Hne]; [rewrite lookup_insert_eq; intros [= <-]|rewrite lookup_insert_ne by done; apply Hi].
      apply Forall_app. split; [by eapply Hi|by repeat constructor].
    + intros t f j. unfold fl, pipe_of. cbn [n_pipes set_pipe set_prog]. destruct (decide (childPipe z = childPipe (Z.of_nat j))) as [E|Hne]; [|by rewrite lookup_insert_ne].
      rewrite E, lookup_insert_eq. rewrite <- E, Ep. cbn [default from_option id]. rewrite cnt_app, (cnt_pids t f rec_pids) by done. lia.
  - destruct (n_reaped c <? exited (n_progs c))%nat; [|done]. injection Hst as <-. by eapply Hkeep; [exact Hk|..|apply Hi|].
Qed.

Lemma inv_step ns hs ws c i c' : inv ns hs ws c -> step mmsg_size i c = Some c' -> ~ relinquishing c' -> exists ns' hs' ws', inv ns' hs' ws' c'.
Proof.
  intros Hi Hst Hnr. destruct (Nat.lt_total i np) as [Hlt|[->|Hgt]].
  - by eapply node_step.
  - exists ns, hs, ws. by eapply parent_step.
  - unfold step in Hst. rewrite (proj2 (lookup_ge_None (n_progs c) i)) in Hst; [done|]. rewrite (iv_len _ _ _ _ Hi). lia.
Qed.
(** ** The start *)

Lemma parent_start : parent_ok (maekawa_parent offset P).
Proof.
  assert (Hwait : forall n lo, parent_ok (p_for n lo (fun _ _ => p_wait) tt)) by (induction n as [|n IH]; intros lo; [apply pa_done|]; cbn; apply pa_wait, IH).
  unfold maekawa_parent, p_range. fold rec_pids. set (waits := p_for _ 0 (fun _ _ => p_wait) tt). assert (Hw : parent_ok waits) by apply Hwait. clearbody waits.
  generalize (Z.to_nat (P - 0)). intros n. generalize 0. induction n as [|n IH]; intros lo; [exact Hw|].
  cbn [p_for mbind io_mbind io_bind]. destruct (aget rec_pids lo) as [r|] eqn:E.
  - rewrite (p_at_Some _ _ _ _ E). apply pa_write, IH.
  - replace (p_at "rec_pids" rec_pids lo) with (Crash "rec_pids" : IO Z) by (unfold p_at; by rewrite E). apply pa_crash.
Qed.

Lemma maekawa_pipes_empty p l : maekawa_pipes P !! p = Some l -> l = [].
Proof. intros (z & [= _ ->] & _)%elem_of_list_to_map_2%list_elem_of_fmap. done. Qed.

Lemma inv_start c : maekawa_net fuel offset P P1 P2 P3 = Some c -> inv (fun _ => start_node P1) (fun _ => []) (fun _ => []) c.
Proof.
  unfold maekawa_net. rewrite HN. intros [= <-].
  assert (Hlen : length ((fun i : Z => node_main offset K fuel P P1 P2 P3 (quorum P N i) i) <$> seqZ 0 P) = np) by (by rewrite length_fmap, length_seqZ).
  assert (Hfl : forall t f q, fl (fun _ => []) (maekawa_pipes P) t f q = 0%nat).
  { intros t f q. unfold fl, pipe_of. destruct (maekawa_pipes P !! childPipe (Z.of_nat q)) as [l|] eqn:E; [|done]. by apply maekawa_pipes_empty in E as ->. }
  split; cbn [n_progs n_pipes].
  - rewrite length_app, Hlen. cbn. lia.
  - intros i x Hi. rewrite lookup_app_l by lia. rewrite list_lookup_fmap, lookup_seqZ_lt by lia. intros [= <-]. apply ph_start.
  - intros x. rewrite lookup_app_r by lia. rewrite Hlen, Nat.sub_diag. intros [= <-]. apply parent_start.
  - intros a _. split; [|done]. split; [done|done|done|done|]. cbn. lia.
  - constructor.
  - intros p l E. apply maekawa_pipes_empty in E as ->. constructor.
  - constructor.
  - intros q a _ Ha. by apply elem_of_nil in Ha.
  - intros a q _ _. rewrite !Hfl. unfold held. rewrite bool_decide_false by (by intros ?%elem_of_nil). lia.
  - intros a q _ _. rewrite Hfl. lia.
Qed.

Lemma inv_play sched : forall ns hs ws c c', inv ns hs ws c -> play mmsg_size sched c = Some c' ->
  (forall pre post c1, sched = pre ++ post -> play mmsg_size pre c = Some c1 -> ~ relinquishing c1) -> exists ns' hs' ws', inv ns' hs' ws' c'.
Proof.
  induction sched as [|a sched IH]; intros ns hs ws c c' Hi Hp Hq; [injection Hp as <-; by exists ns, hs, ws|]. cbn [play] in Hp. destruct (move_step mmsg_size a c) as [c1|] eqn:Es; [|done].
  cbn [mbind option_bind] in Hp. assert (H1 : exists ns1 hs1 ws1, inv ns1 hs1 ws1 c1).
  { destruct a as [i|]; cbn [move_step] in Es; [eapply inv_step; [exact Hi|exact Es|]|injection Es as <-; exists ns, hs, ws; destruct Hi; by split].
    apply (Hq [Go i] sched); [done|]. cbn [play move_step]. by rewrite Es. }
  destruct H1 as (ns1 & hs1 & ws1 & Hi1). apply (IH ns1 hs1 ws1 c1 c' Hi1 Hp). intros pre post c2 -> Hpre. apply (Hq (a :: pre) post c2); [done|]. cbn [play]. by rewrite Es.
Qed.

(** A process that announces that it has the lock, or sleeps with it, holds the
    locks of its quorum. *)
Lemma in_section_held ns hs ws c i x : inv ns hs ws c -> n_progs c !! i = Some x -> in_section (pid i) x = true -> (i < np)%nat /\ forall a, member a i -> a ∈ hs i.
Proof.
  intros Hi Hx Hs. destruct (Nat.lt_total i np) as [Hlt|[->|Hgt]].
  - split; [done|]. pose proof (iv_phase _ _ _ _ Hi i x Hlt Hx) as Hph.
    assert (Hno : forall (A : Prop) (y : IO unit) l, (forall me, in_section me y = false) -> outs (pid i) y l x -> A).
    { intros A y l Hy Ho. revert Hs. destruct Ho as [|p m k l Ho|o k l Hh Ho|k l Ho|what l]; intros Hs; [rewrite Hy in Hs; discriminate Hs|discriminate Hs| |discriminate Hs|discriminate Hs]. cbn in Hs. apply bool_decide_eq_true in Hs. destruct (Hh Hs). }
    destruct Hph as [|k Hk|s h w f x Hlc Ho|s h x Hall Hsect|s h w f x Ho]; [done|done| |done|].
    + eapply Hno; [|exact Ho]. intros me. destruct f as [|f]; [done|]. cbn [lock_loop]. by destruct (lockedCount s <? K).
    + eapply Hno; [|exact Ho]. intros me. destruct f as [|f]; [done|]. unfold serve. cbn [serve_loop]. by destruct (completeAndStop s <? P).
  - pose proof (iv_parent _ _ _ _ Hi x Hx) as Hp. by destruct Hp.
  - apply lookup_lt_Some in Hx. rewrite (iv_len _ _ _ _ Hi) in Hx. lia.
Qed.
End protocol.

(** C17. Mutual exclusion.  For every number of processes the program accepts and
    every division of their roles, in every run in which no process gives a lock
    back with RELINQUISH, however the processes are scheduled and however long they
    run: two processes are never in the critical section at the same time. *)
Theorem maekawa_exclusion fuel offset P P1 P2 P3 c0 sched c i j xi xj : maekawa_net fuel offset P P1 P2 P3 = Some c0 -> play mmsg_size sched c0 = Some c ->
  (forall pre post c', sched = pre ++ post -> play mmsg_size pre c0 = Some c' -> ~ relinquishing c') ->
  n_progs c !! i = Some xi -> n_progs c !! j = Some xj -> in_section (pid offset i) xi = true -> in_section (pid offset j) xj = true -> i = j.
Proof.
  intros H0 Hp Hq Hxi Hxj Hsi Hsj. destruct (side_of P) as [N|] eqn:HN; [|unfold maekawa_net in H0; by rewrite HN in H0].
  destruct (inv_play offset P N P1 P2 P3 fuel HN sched _ _ _ c0 c (inv_start offset P N P1 P2 P3 fuel HN c0 H0) Hp Hq) as (ns & hs & ws & Hi).
  destruct (in_section_held offset P N P1 P2 P3 fuel ns hs ws c i xi Hi Hxi Hsi) as [Hin Hhi]. destruct (in_section_held offset P N P1 P2 P3 fuel ns hs ws c j xj Hi Hxj Hsj) as [Hjn Hhj].
  destruct (decide (i = j)) as [|Hne]; [done|]. exfalso. by eapply (sect_exclusive offset P N P1 P2 P3 fuel HN ns hs ws c i j xi xj).
Qed.
