(* ===== verification/MaekawaExamples.v ===== *)
(** * Maekawa's algorithm on the repository's input file

    [assig2b.inp] asks for sixteen processes, the last six of which want the lock.
    Three schedules of them: one in which two processes are in the critical
    section at the same time, one in which all processes that are left wait for a
    message, and one in which the handler of RELINQUISH writes in front of the
    array of waiting requests. *)

From S2P Require Import Prelude CString Console User Network Jacob Maekawa MaekawaQueue MaekawaSpec.
Open Scope Z_scope.

(** The content of [assig2b.inp]; the program is process 3. *)
Definition assig2b : list Z := concat ((fun l => bytes l ++ [10]) <$> ["16"; "10"; "0"; "6"]%string).
Definition assig2b_start : option (net mmsg) := maekawa_main 200 3 assig2b.

(** Number 17 is a tick of the clock. *)
Definition turns (l : list nat) : list move := (fun i => if (i =? 17)%nat then Tick else Go i) <$> l.
Definition after (l : list nat) : option (net mmsg) := c ← assig2b_start; play mmsg_size (turns l) c.

Definition both_enter : list nat :=
  [16; 16; 16; 16; 16; 16; 16; 16; 16; 16; 16; 16; 16; 16; 16; 16; 15; 7; 3; 8; 13; 10; 14; 10; 13; 10; 17;
   15; 15; 10; 10; 8; 8; 6; 13; 13; 10; 12; 12; 12; 12; 12; 12; 12; 15; 15; 8; 12; 12; 12; 13; 13; 11; 11;
   14; 14; 11; 15; 15; 1; 15; 2; 2; 2; 15; 15; 5; 15; 6; 7; 13; 13; 12; 12; 8; 6; 15; 12; 15; 11; 3; 1; 1; 3;
   14; 14; 14; 14; 13; 14; 14; 14; 13; 15; 13; 15; 15; 15; 15; 11; 11; 11; 14; 15; 8; 12; 12; 12; 12; 9; 9;
   8; 3; 12; 12; 15; 12; 11; 11; 11; 11; 14; 11; 11; 10; 9; 9; 15; 3; 13; 13; 13; 13; 13; 13; 15; 15; 10; 10;
   11; 10; 10; 12; 12; 12; 12; 12; 12; 12; 12; 12; 12; 10; 10; 14; 14; 11; 14; 13; 7; 7; 13; 12; 12; 13; 11;
   15; 15; 15; 15; 13; 10; 9; 13; 9; 15; 15; 15; 10; 10; 10; 10; 14; 14; 14; 14; 14; 14; 14; 14; 14; 11; 14;
   14; 14; 11; 11; 10; 10; 10; 10; 10; 10; 10; 10; 10; 10; 10; 10; 14; 10; 10; 10; 14; 14; 10; 10; 10; 10;
   11; 11; 8; 10; 10; 10; 10; 11; 9; 9; 11; 15; 15; 10; 10; 10; 10; 10; 10; 10; 10; 10; 13; 11; 7; 7; 3; 5;
   9; 15; 15; 10; 13; 13; 15; 13; 8; 3; 5; 15; 13; 11; 11; 11; 11; 11; 10; 10; 10; 10; 11; 14; 14; 11; 7; 13;
   7; 11; 11; 13]%nat.

Definition all_wait : list nat :=
  [16; 16; 16; 16; 16; 16; 16; 16; 16; 16; 16; 16; 16; 16; 16; 16; 7; 4; 12; 12; 12; 12; 4; 4; 12; 1; 9; 11;
   11; 11; 11; 7; 7; 11; 11; 9; 9; 11; 11; 11; 11; 11; 11; 11; 11; 5; 10; 10; 10; 10; 10; 10; 9; 9; 11; 10;
   10; 11; 11; 11; 10; 10; 10; 11; 10; 10; 11; 8; 8; 8; 12; 8; 8; 12; 8; 8; 12; 6; 6; 6; 10; 2; 2; 2; 10; 14;
   14; 14; 2; 2; 14; 6; 6; 14; 10; 10; 14; 12; 12; 14; 14; 14; 14; 14; 12; 14; 14; 12; 14; 14; 14; 14; 14;
   14; 0; 0; 0; 12; 3; 3; 3; 11; 15; 15; 15; 3; 3; 15; 7; 7; 15; 11; 11; 15; 12; 12; 15; 15; 14; 14; 15; 15;
   15; 15; 15; 15; 15; 14; 15; 15; 15; 15; 15; 15; 15; 13; 13; 13; 1; 1; 13; 5; 13; 9; 9; 13; 13; 13; 14; 14;
   13; 15; 15; 13; 13; 13; 13; 14; 13; 13; 15; 13; 13; 13; 13; 13; 13; 13; 12; 12; 12; 12; 12; 12; 12; 12;
   12; 12; 10; 12; 13; 14; 15; 11; 5; 13]%nat.

Definition overrun : list nat :=
  [16; 16; 16; 16; 16; 16; 16; 16; 16; 16; 16; 16; 16; 16; 13; 13; 17; 13; 13; 12; 12; 12; 13; 13; 12; 12;
   12; 12; 12; 12; 12; 12; 12; 12; 12; 11; 11; 11; 11; 11; 10; 10; 10; 10; 10; 8; 8; 8; 12; 8; 8; 12; 12; 8;
   8; 12; 12; 8; 8; 8]%nat.

(** A check of the state after a schedule. *)
Definition after_exists (l : list nat) (P : net mmsg -> bool) : bool := match after l with Some c => P c | None => false end.
Lemma after_spec l P : after_exists l P = true -> exists c0 c, assig2b_start = Some c0 /\ play mmsg_size (turns l) c0 = Some c /\ P c = true.
Proof.
  unfold after_exists, after. destruct assig2b_start as [c0|]; cbn; [|done]. destruct (play mmsg_size (turns l) c0) as [c|] eqn:E; [|done]. intros H. by exists c0, c.
Qed.

(** The process waits for a message that is not there, or for a child. *)
Definition starved (c : net mmsg) (i : nat) : bool :=
  match n_progs c !! i with
  | Some (Read p _) => match n_pipes c !! p with Some [] => true | _ => false end
  | Some (Wait _) => (exited (n_progs c) <=? n_reaped c)%nat
  | Some (Done _) => true
  | _ => false
  end.

Lemma starved_stuck c i : starved c i = true -> step mmsg_size i c = None.
Proof.
  unfold starved, step. destruct (n_progs c !! i) as [[]|]; try done; cbn [mbind option_bind].
  - destruct (n_pipes c !! p) as [[|]|]; done.
  - intros H%Nat.leb_le. destruct (Nat.ltb_spec (n_reaped c) (exited (n_progs c))); [lia|done].
Qed.

Definition section_of (c : net mmsg) (i : nat) : bool := match n_progs c !! i with Some x => in_section (4 + Z.of_nat i) x | None => false end.

(** C18. The algorithm as it is written does not exclude: on the input file of the
    repository there is a schedule after which processes 11 and 13 are both about
    to announce that they acquired the lock.  An INQUIRE that arrives after its
    receiver has released the lock is still answered with a RELINQUISH if an
    earlier request of the receiver had failed, so a lock is granted again while
    its holder has it. *)
Theorem maekawa_not_exclusive : exists c0 sched c, maekawa_main 200 3 assig2b = Some c0 /\ play mmsg_size sched c0 = Some c /\
  section_of c 11 = true /\ section_of c 13 = true.
Proof.
  destruct (after_spec both_enter (fun c => section_of c 11 && section_of c 13)) as (c0 & c & H0 & H & [H1 H2]%andb_prop); [vm_compute; reflexivity|]. by exists c0, (turns both_enter), c.
Qed.

(** C19. The algorithm may deadlock: on the input file of the repository there is a
    schedule after which no process can make a step, and yet not all have exited:
    those that are left wait for messages that nobody sends. *)
Theorem maekawa_deadlocks : exists c0 sched c, maekawa_main 200 3 assig2b = Some c0 /\ play mmsg_size sched c0 = Some c /\
  (forall i, step mmsg_size i c = None) /\ exists i p k, n_progs c !! i = Some (Read p k).
Proof.
  destruct (after_spec all_wait (fun c => forallb (starved c) (seq 0 17) && (length (n_progs c) =? 17)%nat && match n_progs c !! 13%nat with Some (Read _ _) => true | _ => false end))
    as (c0 & c & H0 & H & [[H1 H2%Nat.eqb_eq]%andb_prop H3]%andb_prop); [vm_compute; reflexivity|]. exists c0, (turns all_wait), c. split_and!; [done|done| |].
  - intros i. destruct (decide (i < 17)%nat).
    + apply starved_stuck. rewrite forallb_forall in H1. apply H1, in_seq. lia.
    + unfold step. by rewrite (proj2 (lookup_ge_None (n_progs c) i)) by lia.
  - destruct (n_progs c !! 13%nat) as [[]|] eqn:E; try done. by eexists 13%nat, _, _.
Qed.

(** The handler of RELINQUISH removes element -1 of the queue of waiting
    requests when none of them precedes the current one: on the input file of the
    repository there is a schedule after which a process has accessed the array
    outside its bounds. *)
Theorem maekawa_overruns : exists c0 sched c i, maekawa_main 200 3 assig2b = Some c0 /\ play mmsg_size sched c0 = Some c /\
  n_progs c !! i = Some (Crash "data").
Proof.
  destruct (after_spec overrun (fun c => match n_progs c !! 8%nat with Some (Crash w) => String.eqb w "data" | _ => false end)) as (c0 & c & H0 & H & H1); [vm_compute; reflexivity|].
  exists c0, (turns overrun), c, 8%nat. split_and!; [done|done|]. destruct (n_progs c !! 8%nat) as [[]|]; try done. apply String.eqb_eq in H1 as ->. done.
Qed.

(** ** A run in which no lock is given back *)

Definition writes_relinquish (x : io mmsg unit) : bool := match x with Write _ (Buf t _ _) _ => t =? RELINQUISH | _ => false end.
(** In no state of the run is a RELINQUISH about to be written. *)
Fixpoint no_relinquish (sched : list move) (c : net mmsg) : bool :=
  negb (existsb writes_relinquish (n_progs c)) &&
  match sched with
  | [] => true
  | a :: sched' => match move_step mmsg_size a c with Some c' => no_relinquish sched' c' | None => true end
  end.

Lemma no_relinquish_spec sched : forall c, no_relinquish sched c = true ->
  forall pre post c', sched = pre ++ post -> play mmsg_size pre c = Some c' -> ~ relinquishing c'.
Proof.
  assert (Hnow : forall c, existsb writes_relinquish (n_progs c) = false -> ~ relinquishing c).
  { intros c H (j & p & me & tm & k & Hj). apply not_true_iff_false in H. apply H. apply existsb_exists. exists (Write p (Buf RELINQUISH me tm) k). split; [|done].
    apply list_elem_of_In. by eapply list_elem_of_lookup_2. }
  induction sched as [|a sched IH]; intros c [H1%negb_true_iff H2]%andb_prop pre post c' E Hp.
  - symmetry in E. apply app_eq_nil in E as [-> _]. injection Hp as <-. by apply Hnow.
  - destruct pre as [|b pre]; [injection Hp as <-; by apply Hnow|]. injection E as <- ->. cbn [play] in Hp. destruct (move_step mmsg_size a c) as [c1|]; [|done]. by apply (IH c1 H2 pre post c').
Qed.

(** Four processes, of which the last two want the lock; process 2 gets it while
    process 3 waits. *)
Definition first_in : list move := Go <$> [4; 4; 4; 4; 2; 2; 2; 2; 2; 0; 0; 0; 3; 3; 3; 3; 3; 3; 3; 2; 2; 2; 2; 2; 2; 2; 2]%nat.
Definition four (f : net mmsg -> bool) : bool := match maekawa_net 50 3 4 2 1 1 with Some c => f c | None => false end.

Lemma maekawa_exclusion_witness : exists c0 c x, maekawa_net 50 3 4 2 1 1 = Some c0 /\ play mmsg_size first_in c0 = Some c /\ n_progs c !! 2%nat = Some x /\
  in_section (pid 3 2) x = true /\ forall j xj, n_progs c !! j = Some xj -> in_section (pid 3 j) xj = true -> 2%nat = j.
Proof.
  assert (Hq : four (no_relinquish first_in) = true) by (vm_compute; reflexivity).
  assert (Hs : four (fun c0 => match play mmsg_size first_in c0 with Some c => match n_progs c !! 2%nat with Some x => in_section (pid 3 2) x | None => false end | None => false end) = true) by (vm_compute; reflexivity).
  unfold four in Hq, Hs. destruct (maekawa_net 50 3 4 2 1 1) as [c0|] eqn:E0; [|discriminate]. destruct (play mmsg_size first_in c0) as [c|] eqn:Ep; [|discriminate].
  destruct (n_progs c !! 2%nat) as [x|] eqn:Ex; [|discriminate]. exists c0, c, x. split; [reflexivity|]. split; [exact Ep|]. split; [exact Ex|]. split; [exact Hs|].
  intros j xj Ej Hj. exact (maekawa_exclusion 50 3 4 2 1 1 c0 first_in c 2 j x xj E0 Ep (no_relinquish_spec first_in c0 Hq) Ex Ej Hs Hj).
Defined.
