(* ===== verification/Sums.v ===== *)
(** * Sums and variances by processes ([assig1_8.c], [sum_10k.c])

    Eight children each add up an eighth of an array of a thousand numbers that
    was read from a file, and send the sum to the parent.  For the variance the
    parent then multicasts the mean: it goes into a buffer of each child, and a
    signal is raised.  A child waits for that in a loop, [while(flag == 0){}]; the
    handler of the signal sets the flag and fetches the mean from the buffer, and
    the child sends the sum of the squared differences.  [sum_10k.c] is
    [assig1_8.c] without the call of [sleep].

    The processes run under a small kernel with mailboxes ([send], [recv]), one
    buffer per process that is read without waiting ([send_multi], [recv_multi]),
    and signals, which are delivered whenever the process is scheduled: the handler
    is called on top of whatever the process was doing ([scheduler_round_dispatch]
    shows this of the scheduler; the registers of the interrupted code are taken to
    be kept).  A [recv] is one step: it waits for a message and takes it.  A
    message is the number sent; the kernel copies 60 bytes, and what it writes
    beyond the receiver's variable is not in the model.

    [sums_parallel]: however the processes are scheduled, the result printed is
    that of the loop of the parent over the whole array. *)

From S2P Require Import Prelude CString Console User Jacob.
Open Scope Z_scope.

(** ** Programs *)

(** The variables of a process that its handler shares with it. *)
Record globals := mkglobals { computeSquares : list Z; meanA : Z }.

(** A program is a tree of system calls and of accesses to these variables.
    [send_multi] is a [Cast] into the buffer and a [Raise] for each receiver. *)
Inductive act (A : Type) : Type :=
| Fin (a : A)
| Trap (what : string)
| Send (to m : Z) (k : act A)
| Recv (k : Z -> act A)
| Pause (n : Z) (k : act A)
| Await (k : act A)
| Show (o : list Z) (k : act A)
| Install (k : act A)
| Cast (to m : Z) (k : act A)
| Raise (to : Z) (k : act A)
| Fetch (k : Z -> act A)
| Look (k : globals -> act A)
| Change (f : globals -> option globals) (k : act A)
| Spin (test : globals -> option bool) (k : act A).
Arguments Fin {A} a.
Arguments Trap {A} what.
Arguments Send {A} to m k.
Arguments Recv {A} k.
Arguments Pause {A} n k.
Arguments Await {A} k.
Arguments Show {A} o k.
Arguments Install {A} k.
Arguments Cast {A} to m k.
Arguments Raise {A} to k.
Arguments Fetch {A} k.
Arguments Look {A} k.
Arguments Change {A} f k.
Arguments Spin {A} test k.

Fixpoint act_bind {A B} (f : A -> act B) (x : act A) : act B :=
  match x with
  | Fin a => f a
  | Trap w => Trap w
  | Send to m k => Send to m (act_bind f k)
  | Recv k => Recv (fun m => act_bind f (k m))
  | Pause n k => Pause n (act_bind f k)
  | Await k => Await (act_bind f k)
  | Show o k => Show o (act_bind f k)
  | Install k => Install (act_bind f k)
  | Cast to m k => Cast to m (act_bind f k)
  | Raise to k => Raise to (act_bind f k)
  | Fetch k => Fetch (fun m => act_bind f (k m))
  | Look k => Look (fun g => act_bind f (k g))
  | Change g k => Change g (act_bind f k)
  | Spin t k => Spin t (act_bind f k)
  end.
#[export] Instance act_mret : MRet act := fun A a => Fin a.
#[export] Instance act_mbind : MBind act := fun A B f x => act_bind f x.
Notation "m ;; k" := (mbind (M := act) (fun _ => k) m) (at level 100, right associativity, only parsing).

Definition u_send (to m : Z) : act unit := Send to m (Fin tt).
Definition u_recv : act Z := Recv Fin.
Definition u_sleep (n : Z) : act unit := Pause n (Fin tt).
Definition u_wait : act unit := Await (Fin tt).
Definition u_print (o : list Z) : act unit := Show o (Fin tt).
(** [signal(SIGMSGSENT, hello)] *)
Definition u_signal : act unit := Install (Fin tt).
Definition u_recv_multi : act Z := Fetch Fin.
Definition u_look : act globals := Look Fin.
Definition u_change (f : globals -> option globals) : act unit := Change f (Fin tt).
(** [while(test){}]; without a value an access was out of bounds. *)
Definition u_spin (test : globals -> option bool) : act unit := Spin test (Fin tt).

(** [for(t = lo; t < lo + n; t++) s = body(t, s);] *)
Fixpoint a_for {S} (n : nat) (t : Z) (body : Z -> S -> act S) (s : S) : act S :=
  match n with
  | O => Fin s
  | S n' => s' ← body t s; a_for n' (t + 1) body s'
  end.
Definition a_range {S} (lo hi : Z) (body : Z -> S -> act S) (s : S) : act S := a_for (Z.to_nat (hi - lo)) lo body s.

(** [send_multi(sender, rec, &m, len)]: [sent_to_proc_buffer] and [sigraise] for
    each receiver. *)
Fixpoint u_send_multi (rec : list Z) (m : Z) : act unit :=
  match rec with
  | [] => Fin tt
  | to :: rec' => Cast to m (Raise to (u_send_multi rec' m))
  end.

(** ** The kernel *)

(** A process: what it does next, the code that handlers have interrupted, its
    variables, whether the handler is installed, whether the signal is pending,
    and the buffer for multicasts. *)
Record task := mktask {
  t_run : act unit;
  t_stack : list (act unit);
  t_globals : globals;
  t_handler : bool;
  t_pending : bool;
  t_buffer : Z }.
#[export] Instance eta_task : Eta task :=
  mkEta _ (fun r => mktask (t_run r) (t_stack r) (t_globals r) (t_handler r) (t_pending r) (t_buffer r)).

Record tasks := mktasks {
  ts_tasks : list task;
  ts_boxes : gmap Z (list Z);
  ts_reaped : nat;
  ts_out : list Z }.

Definition t_exited (t : task) : bool := match t_run t, t_stack t with Fin _, [] => true | _, _ => false end.

Section kernel.
Implicit Types (c : tasks) (t : task) (i : nat).

Definition put_task c i (t : task) : tasks := mktasks (<[i := t]> (ts_tasks c)) (ts_boxes c) (ts_reaped c) (ts_out c).
Definition put_box c (b : Z) (q : list Z) : tasks := mktasks (ts_tasks c) (<[b := q]> (ts_boxes c)) (ts_reaped c) (ts_out c).
Definition put_out c (o : list Z) : tasks := mktasks (ts_tasks c) (ts_boxes c) (ts_reaped c) (ts_out c ++ o).
Definition goes_on t (x : act unit) : task := t <| t_run := x |>.
Definition on_task c (j : Z) (f : task -> task) : tasks := mktasks (alter f (Z.to_nat j) (ts_tasks c)) (ts_boxes c) (ts_reaped c) (ts_out c).

(** Process [i] goes on; there is no step when it has exited or has to wait.  A
    handler that ends returns to the code it has interrupted. *)
Definition tstep (i : nat) (c : tasks) : option tasks :=
  t ← ts_tasks c !! i;
  match t_run t with
  | Fin _ => match t_stack t with [] => None | k :: ks => Some (put_task c i ((goes_on t k) <| t_stack := ks |>)) end
  | Trap _ => None
  | Send to m k => Some (put_box (put_task c i (goes_on t k)) to (default [] (ts_boxes c !! to) ++ [m]))
  | Recv k =>
      match ts_boxes c !! Z.of_nat i with
      | Some (m :: q) => Some (put_box (put_task c i (goes_on t (k m))) (Z.of_nat i) q)
      | _ => None
      end
  | Pause n k => Some (put_task c i (goes_on t k))
  | Await k =>
      if (ts_reaped c <? length (filter (fun t => t_exited t = true) (ts_tasks c)))%nat then
        let c := put_task c i (goes_on t k) in
        Some (mktasks (ts_tasks c) (ts_boxes c) (S (ts_reaped c)) (ts_out c))
      else None
  | Show o k => Some (put_out (put_task c i (goes_on t k)) o)
  | Install k => Some (put_task c i ((goes_on t k) <| t_handler := true |>))
  | Cast to m k => Some (on_task (put_task c i (goes_on t k)) to (fun t => t <| t_buffer := m |>))
  | Raise to k => Some (on_task (put_task c i (goes_on t k)) to (fun t => t <| t_pending := true |>))
  | Fetch k => Some (put_task c i (goes_on t (k (t_buffer t))))
  | Look k => Some (put_task c i (goes_on t (k (t_globals t))))
  | Change f k =>
      match f (t_globals t) with
      | Some g => Some (put_task c i ((goes_on t k) <| t_globals := g |>))
      | None => Some (put_task c i (goes_on t (Trap "computeSquares")))
      end
  | Spin test k =>
      match test (t_globals t) with
      | Some true => Some c
      | Some false => Some (put_task c i (goes_on t k))
      | None => Some (put_task c i (goes_on t (Trap "computeSquares")))
      end
  end.

(** Process [i] is scheduled with the signal pending: [handler i] is entered, or
    the kernel's handler prints a line. *)
Definition deliver_signal (handler : nat -> act unit) (i : nat) (c : tasks) : option tasks :=
  t ← ts_tasks c !! i;
  if t_pending t && negb (t_exited t) then
    if t_handler t then Some (put_task c i (t <| t_run := handler i |> <| t_stack := t_run t :: t_stack t |> <| t_pending := false |>))
    else Some (put_out (put_task c i (t <| t_pending := false |>)) (bytes "This is default handler" ++ [10]))
  else None.

Inductive turn := Go (i : nat) | Signal (i : nat).
Definition take_turn (handler : nat -> act unit) (a : turn) (c : tasks) : option tasks :=
  match a with Go i => tstep i c | Signal i => deliver_signal handler i c end.
(** The turn is one more round of a loop that waits for a flag. *)
Definition spins (a : turn) (c : tasks) : bool :=
  match a with
  | Go i => match t_run <$> ts_tasks c !! i, t_globals <$> ts_tasks c !! i with Some (Spin test _), Some g => bool_decide (test g = Some true) | _, _ => false end
  | Signal _ => false
  end.
Fixpoint take_turns (handler : nat -> act unit) (sched : list turn) (c : tasks) : option tasks :=
  match sched with [] => Some c | a :: sched' => c' ← take_turn handler a c; take_turns handler sched' c' end.
(** The turns of a schedule that are not such rounds. *)
Fixpoint work (handler : nat -> act unit) (sched : list turn) (c : tasks) : nat :=
  match sched with
  | [] => O
  | a :: sched' => (if spins a c then 0 else 1) + match take_turn handler a c with Some c' => work handler sched' c' | None => 0 end
  end.
Definition all_exited c : Prop := Forall (fun t => t_exited t = true) (ts_tasks c).
End kernel.

(** ** The program *)

Definition nchild : Z := 8.
Definition size : Z := 1000.

Definition getStartingForI (n nt i : Z) : Z :=
  let divtemp := Z.quot n nt in
  let remtemp := Z.rem n nt in
  let i := i + 1 in
  if i <=? remtemp then (divtemp + 1) * (i - 1) else divtemp * (i - 1) + remtemp.

Definition getOverHeadBlock (n nt i : Z) : Z :=
  let i := i + 1 in
  if i <=? Z.rem n nt then Z.quot n nt + 1 else Z.quot n nt.

(** ** The input *)

Definition schar (b : Z) : Z := if b <? 128 then b else b - 256.
(** [read(fd, &c, 1)]: at the end of the file [c] keeps its value. *)
Definition read_char (c : Z) (cs : list Z) : Z * list Z :=
  match cs with [] => (c, []) | b :: cs' => (schar b, cs') end.
Fixpoint read_array (n : nat) (c : Z) (cs : list Z) : list Z :=
  match n with
  | O => []
  | S n' =>
      let '(c, cs) := read_char c cs in
      let '(c', cs) := read_char c cs in
      (c - 48) :: read_array n' c' cs
  end.

(** [actual_sum] and [sum1]. *)
Definition actual_sum (arr : list Z) : Z := foldl (fun s a => i32 (s + a)) 0 arr.
Definition actual_variance (arr : list Z) : Z :=
  let mean := Z.quot (actual_sum arr) size in
  Z.quot (foldl (fun s a => i32 (s + i32 ((a - mean) * (a - mean)))) 0 arr) size.

(** ** The children *)

(** Process [j] has the number [base + j]; the parent is process 0. *)
Definition hello (base : Z) (j : nat) : act unit :=
  u_change (fun g => cs ← aset (computeSquares g) (base + Z.of_nat j) 1; Some (mkglobals cs (meanA g))) ;;
  a ← u_recv_multi;
  u_change (fun g => Some (mkglobals (computeSquares g) a)).

(** The sum of [f] over the elements [start], ..., [fin - 1]. *)
Definition part_sum (arr : list Z) (start fin : Z) (f : Z -> Z) : act Z :=
  a_range start fin (fun i s => match aget arr i with Some a => Fin (i32 (s + f a)) | None => Trap "arr" end) 0.

(** Without a system call in it, the last loop reads [meanA] once. *)
Definition child (type base : Z) (arr : list Z) (j : Z) : act unit :=
  u_signal ;;
  start ← u_recv;
  fin ← u_recv;
  partial_sum ← part_sum arr start fin id;
  u_sleep 3 ;;
  u_send 0 partial_sum ;;
  if negb (type =? 0) then
    u_spin (fun g => x ← aget (computeSquares g) (base + j); Some (x =? 0)) ;;
    g ← u_look;
    squaredS ← part_sum arr start fin (fun a => i32 ((a - meanA g) * (a - meanA g)));
    u_send 0 squaredS
  else Fin tt.

(** ** The parent *)

Definition sum_text (name : list Z) (s : Z) : list Z := bytes "Sum of array for file " ++ name ++ bytes " is " ++ show_int s ++ [10].
Definition variance_text (name : list Z) (v : Z) : list Z := bytes "Variance of array for file " ++ name ++ bytes " is " ++ show_int v ++ [10].

Definition gather_sum : act Z := a_range 0 nchild (fun _ s => a ← u_recv; Fin (i32 (s + a))) 0.

Section parent.
Context {arith : Arith}.

(** [rec_pids] holds the children in order. *)
Definition parent (type : Z) (name : list Z) : act unit :=
  a_range 0 nchild (fun i _ =>
    let po := getStartingForI size nchild i in
    let fin := po + getOverHeadBlock size nchild i in
    u_send (i + 1) po ;;
    u_send (i + 1) fin) tt ;;
  sum ← gather_sum;
  variance ← (if negb (type =? 0) then
      let mean := Z.quot sum size in
      u_send_multi (seqZ 1 nchild) mean ;;
      square_difference_sum ← gather_sum;
      Fin (of_int (Z.quot square_difference_sum size))
    else Fin (of_int 0));
  a_range 0 nchild (fun _ _ => u_wait) tt ;;
  if type =? 0 then u_print (sum_text name sum)
  else u_print (variance_text name (to_int variance)).

Definition started (x : act unit) (b : Z) : task := mktask x [] (mkglobals (replicate 64 0) 0) false false b.
(** After the forks; [c0] is the initial value of [c], [cs] the file, and [buf]
    what the buffers hold. *)
Definition sums_net (type base : Z) (name : list Z) (c0 : Z) (cs : list Z) (buf : Z -> Z) : tasks :=
  let arr := read_array (Z.to_nat size) c0 cs in
  mktasks (started (parent type name) (buf 0) :: ((fun j => started (child type base arr j) (buf j)) <$> seqZ 1 nchild)) ∅ 0 [].

(** [argv[2]] is not checked for: without it the name is the null pointer. *)
Definition sums_main (base : Z) (argv : list (list Z)) (c0 : Z) (cs : list Z) (buf : Z -> Z) : option tasks :=
  if alen argv <? 2 then Some (mktasks [started (u_print (bytes "Need type and input filename" ++ [10])) (buf 0)] ∅ 0 [])
  else
    type ← argv !! 1%nat;
    name ← argv !! 2%nat;
    Some (sums_net (Ulib.atoi type) base name c0 cs buf).
End parent.
