(* ===== verification/SumsSpec.v ===== *)
(** * The sums are right

    The runs of the programs of [assig1_8.c] are described by how far the parent
    and each child have got; every turn that is not a round of a waiting loop takes
    one of them a step further, and the replies that the children have sent, those
    the parent has added up and those still to come make up the sum over the whole
    array. *)

From S2P Require Import Prelude CString Console User Jacob Sums.
Open Scope Z_scope.

Lemma i32_add a b : i32 (i32 a + b) = i32 (a + b).
Proof.
  assert (H : u32 (i32 a + b) = u32 (a + b)).
  { unfold i32, u32. change (2 ^ 32) with 4294967296. change (2 ^ 31) with 2147483648. destruct (Z.ltb_spec (a mod 4294967296) 2147483648); dlia. }
  unfold i32 at 1 3. by rewrite H.
Qed.

(** ** Sums of parts *)

Definition sum_of (f : Z -> Z) (l : list Z) : Z := foldr (fun a s => f a + s) 0 l.
(** The elements [lo], ..., [lo + n - 1]. *)
Definition chunk (arr : list Z) (lo n : Z) : list Z := take (Z.to_nat n) (drop (Z.to_nat lo) arr).

(** [f i + f (i + 1) + ...], [n] terms. *)
Fixpoint sum_replies (f : Z -> Z) (i : Z) (n : nat) : Z :=
  match n with O => 0 | S n' => f i + sum_replies f (i + 1) n' end.

Section parts.
Implicit Types (f : Z -> Z) (l arr : list Z).

Lemma i32_add_r a b : i32 (a + i32 b) = i32 (a + b).
Proof. rewrite (Z.add_comm a (i32 b)), i32_add. f_equal. lia. Qed.
Lemma i32_i32 a : i32 (i32 a) = i32 a.
Proof. pose proof (i32_add a 0) as H. by rewrite !Z.add_0_r in H. Qed.

Lemma sum_of_app f l l' : sum_of f (l ++ l') = sum_of f l + sum_of f l'.
Proof. induction l as [|a l IH]; cbn; [done|]. unfold sum_of in *. rewrite IH. lia. Qed.

Lemma foldl_i32 f l : forall s, i32 s = s -> foldl (fun s a => i32 (s + f a)) s l = i32 (s + sum_of f l).
Proof.
  induction l as [|a l IH]; intros s Hs; cbn; [by rewrite Z.add_0_r, Hs|]. rewrite IH by apply i32_i32. rewrite i32_add. f_equal. unfold sum_of. lia.
Qed.

(** A child's loop. *)
Lemma part_loop arr f n : forall lo s, 0 <= lo -> lo + Z.of_nat n <= alen arr -> i32 s = s ->
  a_for n lo (fun i s => match aget arr i with Some a => Fin (i32 (s + f a)) | None => Trap "arr" end) s = Fin (i32 (s + sum_of f (chunk arr lo (Z.of_nat n)))).
Proof.
  induction n as [|n IH]; intros lo s Hlo Hhi Hs; cbn [a_for]; [cbn; by rewrite Z.add_0_r, Hs|].
  destruct (aget_is_Some arr lo) as [a Ha]; [lia|]. rewrite Ha. cbn [mbind act_mbind act_bind]. rewrite IH by (lia || apply i32_i32). rewrite i32_add. do 2 f_equal.
  unfold chunk. unfold aget in Ha. destruct (Z.leb_spec 0 lo); [|lia]. rewrite !Nat2Z.id. rewrite (drop_S _ _ _ Ha). cbn. replace (S (Z.to_nat lo)) with (Z.to_nat (lo + 1)) by lia. unfold sum_of. lia.
Qed.

Lemma part_sum_run arr start fin f : 0 <= start <= fin -> fin <= alen arr -> part_sum arr start fin f = Fin (i32 (sum_of f (chunk arr start (fin - start)))).
Proof. intros H1 H2. unfold part_sum, a_range. rewrite part_loop by (done || lia). by rewrite Z2Nat.id by lia. Qed.

Lemma chunk_app arr lo n m : 0 <= lo -> 0 <= n -> 0 <= m -> chunk arr lo (n + m) = chunk arr lo n ++ chunk arr (lo + n) m.
Proof.
  intros Hlo Hn Hm. unfold chunk. rewrite !Z2Nat.inj_add by lia. by rewrite <- drop_drop, take_take_drop.
Qed.

(** The parts of the children add up. *)
Lemma sum_parts arr f k n : 0 <= k -> forall i, 1 <= i -> i32 (sum_replies (fun i => i32 (sum_of f (chunk arr (k * (i - 1)) k))) i n) = i32 (sum_of f (chunk arr (k * (i - 1)) (k * Z.of_nat n))).
Proof.
  intros Hk. induction n as [|n IH]; intros i Hi; cbn [sum_replies]; [by rewrite Z.mul_0_r|]. rewrite i32_add, <- i32_add_r, IH, i32_add_r by lia.
  replace (k * Z.of_nat (S n)) with (k + k * Z.of_nat n) by lia. rewrite chunk_app, sum_of_app by nia. by replace (k * (i - 1) + k) with (k * (i + 1 - 1)) by lia.
Qed.

Lemma chunk_all arr : chunk arr 0 (alen arr) = arr.
Proof. unfold chunk. cbn. apply firstn_all2. unfold alen. lia. Qed.
End parts.

(** ** The runs *)

Section sums.
Context {arith : Arith} (type base : Z) (name arr : list Z) (buf : Z -> Z).
Context (Hlen : alen arr = 1000) (Hbase : type <> 0 -> 0 <= base /\ base + nchild < 64).
Implicit Types (c : tasks) (i acc : Z) (ph n d q j : nat) (phs : list nat).

Definition lo i : Z := 125 * (i - 1).
Definition hi i : Z := 125 * i.
Definition s_reply (f : Z -> Z) i : Z := i32 (sum_of f (chunk arr (lo i) 125)).
Definition s_total (f : Z -> Z) : Z := i32 (sum_replies (s_reply f) 1 8).
Definition s_mean : Z := Z.quot (s_total id) size.
Definition s_square (a : Z) : Z := i32 ((a - s_mean) * (a - s_mean)).

(** *** The children *)

Definition flags0 : list Z := replicate 64 0.
Definition flags1 i : list Z := <[Z.to_nat (base + i) := 1]> flags0.

(** The last part of a child's program, from the waiting loop on. *)
Definition last_sum start fin (g : globals) : act unit :=
  squaredS ← part_sum arr start fin (fun a => i32 ((a - meanA g) * (a - meanA g)));
  u_send 0 squaredS.
Definition flag_zero i (g : globals) : option bool := x ← aget (computeSquares g) (base + i); Some (x =? 0).
Definition c_tail i start fin : act unit :=
  if negb (type =? 0) then Spin (flag_zero i) (Look (last_sum start fin)) else Fin tt.
Definition set_flag i (g : globals) : option globals := cs ← aset (computeSquares g) (base + i) 1; Some (mkglobals cs (meanA g)).
Definition set_mean (a : Z) (g : globals) : option globals := Some (mkglobals (computeSquares g) a).

(** What child [i] does in its phase, and the values of its variables. *)
Definition c_run i ph : act unit :=
  match ph with
  | 0%nat => child type base arr i
  | 1%nat => start ← u_recv; fin ← u_recv; partial_sum ← part_sum arr start fin id; u_sleep 3 ;; u_send 0 partial_sum ;; c_tail i start fin
  | 2%nat => fin ← u_recv; partial_sum ← part_sum arr (lo i) fin id; u_sleep 3 ;; u_send 0 partial_sum ;; c_tail i (lo i) fin
  | 3%nat => Pause 3 (Send 0 (s_reply id i) (c_tail i (lo i) (hi i)))
  | 4%nat => Send 0 (s_reply id i) (c_tail i (lo i) (hi i))
  | 5%nat => c_tail i (lo i) (hi i)
  | 6%nat => Change (set_flag i) (Fetch (fun a => Change (set_mean a) (Fin tt)))
  | 7%nat => Fetch (fun a => Change (set_mean a) (Fin tt))
  | 8%nat => Change (set_mean s_mean) (Fin tt)
  | 9%nat => Fin tt
  | 10%nat => c_tail i (lo i) (hi i)
  | 11%nat => Look (last_sum (lo i) (hi i))
  | 12%nat => Send 0 (s_reply s_square i) (Fin tt)
  | _ => Fin tt
  end.
Definition in_handler ph : bool := (5 <? ph)%nat && (ph <? 10)%nat.
Definition c_globals i ph : globals :=
  mkglobals (if (ph <? 7)%nat then flags0 else flags1 i) (if (ph <? 9)%nat then 0 else s_mean).
Definition c_task i ph (pending : bool) (b : Z) : task :=
  mktask (c_run i ph) (if in_handler ph then [c_tail i (lo i) (hi i)] else []) (c_globals i ph) (0 <? ph)%nat pending b.
Definition last_phase : nat := if type =? 0 then 5 else 13.

(** How many of its two first messages a child has taken. *)
Definition taken ph : nat := match ph with 0%nat | 1%nat => 0 | 2%nat => 1 | _ => 2 end.

(** *** The parent *)

Inductive pstate := PPost d | PSum n acc | PCast q | PRaise q | PSquares n acc | PWait n | PEnd.

Definition s_posts : list (Z * Z) := concat ((fun i => [(i, lo i); (i, hi i)]) <$> seqZ 1 8).
Definition text (sum : Z) (variance : float) : list Z := if type =? 0 then sum_text name sum else variance_text name (to_int variance).
Definition p_wait sum variance n : act unit :=
  a_for (8 - n) (Z.of_nat n) (fun _ _ => u_wait) tt ;; Show (text sum variance) (Fin tt).
Definition p_gather n acc : act Z := a_for (8 - n) (Z.of_nat n) (fun _ s => a ← u_recv; Fin (i32 (s + a))) acc.
Definition p_squares sum n acc : act unit := s ← p_gather n acc; p_wait sum (of_int (Z.quot s size)) 0.
Definition p_multi sum q : act unit :=
  u_send_multi (drop q (seqZ 1 8)) (Z.quot sum size) ;; p_squares sum 0 0.
Definition p_after sum : act unit := if type =? 0 then p_wait sum (of_int 0) 0 else p_multi sum 0.
Definition s_variance : Z := Z.quot (s_total s_square) size.
Definition the_variance : float := if type =? 0 then of_int 0 else of_int s_variance.
Definition p_run (s : pstate) : act unit :=
  match s with
  | PPost d => foldr (fun x k => Send x.1 x.2 k) (sum ← p_gather 0 0; p_after sum) (drop d s_posts)
  | PSum n acc => sum ← p_gather n acc; p_after sum
  | PCast q => p_multi (s_total id) q
  | PRaise q => Raise (Z.of_nat q + 1) (p_multi (s_total id) (S q))
  | PSquares n acc => p_squares (s_total id) n acc
  | PWait n => p_wait (s_total id) the_variance n
  | PEnd => Fin tt
  end.
Definition p_task (s : pstate) : task := mktask (p_run s) [] (mkglobals flags0 0) false false (buf 0).

Definition p_wf (s : pstate) : Prop :=
  match s with
  | PPost d => (d < 16)%nat
  | PSum n _ => (n < 8)%nat
  | PCast q | PRaise q => (q < 8)%nat /\ type <> 0
  | PSquares n _ => (n < 8)%nat /\ type <> 0
  | PWait n => (n <= 8)%nat
  | PEnd => True
  end.

(** What has been done for child [i]: its messages, the mean in its buffer, the
    signal. *)
Definition posted (s : pstate) (i : Z) : nat := match s with PPost d => Nat.min 2 (d - 2 * (Z.to_nat i - 1)) | _ => 2 end.
Definition cast (s : pstate) (i : Z) : bool :=
  match s with
  | PPost _ | PSum _ _ => false
  | PCast q => i <=? Z.of_nat q
  | PRaise q => i <=? Z.of_nat q + 1
  | _ => negb (type =? 0)
  end.
Definition raised (s : pstate) (i : Z) : bool :=
  match s with
  | PPost _ | PSum _ _ => false
  | PCast q | PRaise q => i <=? Z.of_nat q
  | _ => negb (type =? 0)
  end.

(** The replies the parent waits for: the phase after which a child has sent its
    one, how many have been added up and to what, and the values. *)
Definition round (s : pstate) : option (nat * nat * Z * (Z -> Z)) :=
  match s with
  | PPost _ => Some (5%nat, 0%nat, 0, s_reply id)
  | PSum n acc => Some (5%nat, n, acc, s_reply id)
  | PCast _ | PRaise _ => Some (13%nat, 0%nat, 0, s_reply s_square)
  | PSquares n acc => Some (13%nat, n, acc, s_reply s_square)
  | PWait _ | PEnd => None
  end.
Definition round_total (s : pstate) : Z := match s with PPost _ | PSum _ _ => s_total id | _ => s_total s_square end.

Definition p_left (s : pstate) : nat :=
  match s with
  | PPost d => 16 - d + 8 + (if type =? 0 then 9 else 33)
  | PSum n _ => 8 - n + (if type =? 0 then 9 else 33)
  | PCast q => 2 * (8 - q) + 17
  | PRaise q => 2 * (8 - q) - 1 + 17
  | PSquares n _ => 8 - n + 9
  | PWait n => 9 - n
  | PEnd => 0
  end.

(** *** The invariant *)

(** How many have sent their reply, and the sum of the replies to come. *)
Fixpoint replied (th : nat) phs : nat :=
  match phs with [] => O | ph :: phs' => ((if (th <=? ph)%nat then 1 else 0) + replied th phs')%nat end.
Fixpoint to_come (th : nat) (f : Z -> Z) i phs : Z :=
  match phs with [] => 0 | ph :: phs' => (if (th <=? ph)%nat then 0 else f i) + to_come th f (i + 1) phs' end.

Definition box c i : list Z := default [] (ts_boxes c !! i).

Record inv (left : nat) (s : pstate) phs (bufs : nat -> Z) c : Prop := {
  in_wf : p_wf s;
  in_len : length phs = 8%nat;
  in_tasks : length (ts_tasks c) = 9%nat;
  in_parent : ts_tasks c !! 0%nat = Some (p_task s);
  in_child : forall j ph, phs !! j = Some ph -> ts_tasks c !! S j = Some (c_task (Z.of_nat (S j)) ph (raised s (Z.of_nat (S j)) && (ph <=? 5)%nat) (bufs j));
  in_buf : forall j, (j < 8)%nat -> cast s (Z.of_nat (S j)) = true -> bufs j = s_mean;
  in_phase : forall j ph, phs !! j = Some ph -> (ph <= last_phase)%nat /\ (raised s (Z.of_nat (S j)) = false -> (ph <= 5)%nat);
  in_box : forall j ph, phs !! j = Some ph -> (taken ph <= posted s (Z.of_nat (S j)))%nat /\
    box c (Z.of_nat (S j)) = drop (taken ph) (take (posted s (Z.of_nat (S j))) [lo (Z.of_nat (S j)); hi (Z.of_nat (S j))]);
  in_round : forall th n acc f, round s = Some (th, n, acc, f) ->
    (length (box c 0) + n = replied th phs)%nat /\ i32 (acc + foldr Z.add 0 (box c 0) + to_come th f 1 phs) = round_total s;
  in_second : (forall th n acc f, round s = Some (th, n, acc, f) -> th = 13%nat -> Forall (fun ph => 5 <= ph)%nat phs) /\ (round s = None -> Forall (eq last_phase) phs);
  in_reaped : ts_reaped c = match s with PWait n => n | PEnd => 8%nat | _ => 0%nat end;
  in_out : ts_out c = match s with PEnd => text (s_total id) the_variance | _ => [] end;
  in_left : left = (p_left s + sum_list_with (fun ph => last_phase - ph) phs)%nat }.

(** *** Counting replies *)

Lemma replied_le th phs : (replied th phs <= length phs)%nat.
Proof. induction phs as [|ph phs IH]; cbn; [lia|]. destruct (th <=? ph)%nat; lia. Qed.
Lemma replied_all th f phs : replied th phs = length phs -> forall i, to_come th f i phs = 0 /\ Forall (fun ph => th <= ph)%nat phs.
Proof.
  induction phs as [|ph phs IH]; cbn; [done|]. pose proof (replied_le th phs) as H. destruct (Nat.leb_spec th ph) as [Hp|Hp]; [|lia]. intros E i. destruct (IH ltac:(lia) (i + 1)) as [-> IH2]. split; [done|by constructor].
Qed.
Lemma replied_none th f phs : Forall (fun ph => ph < th)%nat phs -> replied th phs = O /\ forall i, to_come th f i phs = sum_replies f i (length phs).
Proof.
  induction 1 as [|ph phs Hp _ [IH1 IH2]]; [done|]. cbn. destruct (Nat.leb_spec th ph); [lia|]. split; [done|]. intros i. by rewrite IH2.
Qed.
Lemma replied_some th phs : (replied th phs < length phs)%nat -> exists j ph, phs !! j = Some ph /\ (ph < th)%nat.
Proof.
  induction phs as [|ph phs IH]; cbn; [lia|]. destruct (Nat.leb_spec th ph) as [Hp|Hp]; intros H; [|by exists O, ph]. destruct IH as (j & ph' & H1 & H2); [lia|]. by exists (S j), ph'.
Qed.
Lemma replied_step th f phs : forall j ph i, phs !! j = Some ph ->
  replied th (<[j := S ph]> phs) = (replied th phs + (if S ph =? th then 1 else 0))%nat /\
  to_come th f i (<[j := S ph]> phs) = to_come th f i phs - (if (S ph =? th)%nat then f (i + Z.of_nat j) else 0).
Proof.
  induction phs as [|ph0 phs IH]; intros [|j] ph i Hj; cbn in Hj; [done..| |].
  - cbn [insert list_insert replied to_come]. injection Hj as ->. change (Z.of_nat 0) with 0. rewrite Z.add_0_r. destruct (Nat.leb_spec th (S ph)), (Nat.leb_spec th ph), (Nat.eqb_spec (S ph) th); lia.
  - change (<[S j := S ph]> (ph0 :: phs)) with (ph0 :: <[j := S ph]> phs). cbn [replied to_come]. destruct (IH j ph (i + 1) Hj) as [-> ->]. replace (i + 1 + Z.of_nat j) with (i + Z.of_nat (S j)) by lia. lia.
Qed.
Lemma left_step m phs : forall j ph, phs !! j = Some ph -> (ph < m)%nat ->
  sum_list_with (fun ph => m - ph)%nat phs = S (sum_list_with (fun ph => m - ph)%nat (<[j := S ph]> phs)).
Proof.
  induction phs as [|ph0 phs IH]; intros [|j] ph Hj Hm; cbn in Hj; [done..| |].
  - cbn. injection Hj as ->. lia.
  - change (<[S j := S ph]> (ph0 :: phs)) with (ph0 :: <[j := S ph]> phs). cbn [sum_list_with]. rewrite (IH j ph Hj Hm). lia.
Qed.

(** *** A child's step *)

Definition c_sent i ph : list Z := match ph with 4%nat => [s_reply id i] | 12%nat => [s_reply s_square i] | _ => [] end.

(** Child [j + 1] has gone on from phase [ph]. *)
Record moved c c' j ph (pending : bool) (b : Z) : Prop := {
  mv_tasks : ts_tasks c' = <[S j := c_task (Z.of_nat (S j)) (S ph) pending b]> (ts_tasks c);
  mv_reaped : ts_reaped c' = ts_reaped c;
  mv_out : ts_out c' = ts_out c;
  mv_sent : box c' 0 = box c 0 ++ c_sent (Z.of_nat (S j)) ph;
  mv_box : box c' (Z.of_nat (S j)) = drop (taken (S ph) - taken ph) (box c (Z.of_nat (S j)));
  mv_other : forall i, i <> 0 -> i <> Z.of_nat (S j) -> box c' i = box c i }.

Lemma box_put c a (q : list Z) i : box (put_box c a q) i = if decide (a = i) then q else box c i.
Proof. unfold box. cbn. destruct (decide (a = i)) as [->|Ha]; [by rewrite lookup_insert_eq|by rewrite lookup_insert_ne]. Qed.

Lemma moved_plain c j ph pending b :
  c_sent (Z.of_nat (S j)) ph = [] -> taken (S ph) = taken ph ->
  moved c (put_task c (S j) (c_task (Z.of_nat (S j)) (S ph) pending b)) j ph pending b.
Proof. intros H1 H2. constructor; try done; [by rewrite H1, app_nil_r|by rewrite H2, Nat.sub_diag]. Qed.

Lemma moved_send c j ph pending b m :
  c_sent (Z.of_nat (S j)) ph = [m] -> taken (S ph) = taken ph ->
  moved c (put_box (put_task c (S j) (c_task (Z.of_nat (S j)) (S ph) pending b)) 0 (box c 0 ++ [m])) j ph pending b.
Proof.
  intros H1 H2. constructor; try done.
  - by rewrite box_put, decide_True, H1.
  - rewrite box_put, decide_False by lia. by rewrite H2, Nat.sub_diag.
  - intros i H3 H4. by rewrite box_put, decide_False.
Qed.

Lemma moved_recv c j ph pending b m (q : list Z) :
  c_sent (Z.of_nat (S j)) ph = [] -> taken (S ph) = S (taken ph) -> box c (Z.of_nat (S j)) = m :: q ->
  moved c (put_box (put_task c (S j) (c_task (Z.of_nat (S j)) (S ph) pending b)) (Z.of_nat (S j)) q) j ph pending b.
Proof.
  intros H1 H2 H3. constructor; try done.
  - rewrite box_put, decide_False by lia. by rewrite H1, app_nil_r.
  - rewrite box_put, decide_True, H2 by done. replace (S (taken ph) - taken ph)%nat with 1%nat by lia. by rewrite H3.
  - intros i H4 H5. by rewrite box_put, decide_False.
Qed.

Lemma part_run i f : 1 <= i <= 8 -> part_sum arr (lo i) (hi i) f = Fin (s_reply f i).
Proof. intros Hi. unfold lo, hi. rewrite part_sum_run by lia. unfold s_reply, lo. by replace (125 * i - 125 * (i - 1)) with 125 by lia. Qed.

Lemma flags_get i : type <> 0 -> 1 <= i <= 8 -> aget flags0 (base + i) = Some 0 /\ aset flags0 (base + i) 1 = Some (flags1 i) /\ aget (flags1 i) (base + i) = Some 1.
Proof.
  intros Ht Hi. destruct (Hbase Ht) as [H1 H2]. unfold nchild in H2. assert (Hl : (Z.to_nat (base + i) < length flags0)%nat) by (unfold flags0; rewrite length_replicate; lia).
  unfold aget, aset, flags1. destruct (Z.leb_spec 0 (base + i)); [|lia]. split; [apply lookup_replicate_2; unfold flags0 in Hl; by rewrite length_replicate in Hl|].
  split; [|by apply list_lookup_insert_eq]. unfold alen. destruct (Z.ltb_spec (base + i) (Z.of_nat (length flags0))); [done|lia].
Qed.

Lemma recv_box c (i : nat) m (q : list Z) : box c (Z.of_nat i) = m :: q -> ts_boxes c !! Z.of_nat i = Some (m :: q).
Proof. unfold box. destruct (ts_boxes c !! Z.of_nat i) as [l|]; [|done]. intros H. by f_equal. Qed.

Ltac plain := match goal with |- moved ?c _ ?j ?ph ?p ?b => exact (moved_plain c j ph p b eq_refl eq_refl) end.

(** In phase [ph], other than the waiting loop, child [j + 1] goes on or waits for a
    message. *)
Lemma child_advance c j ph pending b :
  (j < 8)%nat -> (ph < last_phase)%nat -> ph <> 5%nat ->
  ts_tasks c !! S j = Some (c_task (Z.of_nat (S j)) ph pending b) -> (ph = 7%nat -> b = s_mean) ->
  (ph = 1%nat -> box c (Z.of_nat (S j)) = [] \/ exists l, box c (Z.of_nat (S j)) = lo (Z.of_nat (S j)) :: l) ->
  (ph = 2%nat -> box c (Z.of_nat (S j)) = [] \/ exists l, box c (Z.of_nat (S j)) = hi (Z.of_nat (S j)) :: l) ->
  match tstep (S j) c with
  | Some c' => (moved c c' j ph pending b /\ spins (Go (S j)) c = false) /\ (ph = 1%nat \/ ph = 2%nat -> box c (Z.of_nat (S j)) <> [])
  | None => (ph = 1%nat \/ ph = 2%nat) /\ box c (Z.of_nat (S j)) = []
  end.
Proof.
  intros Hj Hph H5 Ht H7 H1 H2. unfold tstep, spins. rewrite Ht. cbn [mbind option_bind fmap option_fmap option_map].
  assert (Hi : 1 <= Z.of_nat (S j) <= 8) by lia. set (i := Z.of_nat (S j)) in *.
  assert (Htype : (6 <= ph)%nat -> type <> 0) by (unfold last_phase in Hph; destruct (Z.eqb_spec type 0); [lia|done]).
  assert (Hrecv : (ph = 1%nat \/ ph = 2%nat) -> box c i = [] -> match ts_boxes c !! i with Some (_ :: _) => False | _ => True end).
  { intros _. unfold box. by destruct (ts_boxes c !! i) as [[|]|]. }
  destruct ph as [|[|[|[|[|[|[|[|[|[|[|[|[|ph]]]]]]]]]]]]]; [..|unfold last_phase in Hph; destruct (type =? 0); lia];
    cbn [c_task c_run t_run t_stack in_handler Nat.ltb Nat.leb andb t_globals c_globals]; try done.
  - split; [split; [|done]|congruence || lia]. plain.
  - destruct H1 as [H1|[q H1]]; [done| |].
    + specialize (Hrecv ltac:(by left) H1). destruct (ts_boxes c !! i) as [[|]|]; [|done|]; (split; [lia|done]).
    + assert (Hb : ts_boxes c !! i = Some (_ :: q)) by exact (recv_box c (S j) _ q H1). rewrite Hb. split; [split; [|done]|congruence || lia]. exact (moved_recv c j 1 pending b _ q eq_refl eq_refl H1).
  - destruct H2 as [H2|[q H2]]; [done| |].
    + specialize (Hrecv ltac:(by right) H2). destruct (ts_boxes c !! i) as [[|]|]; [|done|]; (split; [lia|done]).
    + assert (Hb : ts_boxes c !! i = Some (_ :: q)) by exact (recv_box c (S j) _ q H2). rewrite Hb. split; [split; [|done]|congruence || lia].
      replace (goes_on _ _) with (c_task i 3 pending b) by (change (c_task i 3 pending b = goes_on (c_task i 2 pending b) (x ← part_sum arr (lo i) (hi i) id; Pause 3 (Send 0 x (c_tail i (lo i) (hi i))))); by rewrite part_run). exact (moved_recv c j 2 pending b _ q eq_refl eq_refl H2).
  - split; [split; [|done]|congruence || lia]. plain.
  - split; [split; [|done]|congruence || lia]. exact (moved_send c j 4 pending b _ eq_refl eq_refl).
  - destruct (flags_get i (Htype ltac:(lia)) Hi) as (_ & Hs & _). unfold set_flag. change (computeSquares (c_globals i 6)) with flags0. rewrite Hs. cbn [mbind option_bind]. split; [split; [|done]|congruence || lia]. plain.
  - rewrite (H7 eq_refl). split; [split; [|done]|congruence || lia]. plain.
  - split; [split; [|done]|congruence || lia]. plain.
  - split; [split; [|done]|congruence || lia]. plain.
  - unfold c_tail. destruct (Z.eqb_spec type 0) as [?|Hn]; [by destruct (Htype ltac:(lia))|]. cbn [negb]. destruct (flags_get i Hn Hi) as (_ & _ & Hg). assert (Hz : flag_zero i (c_globals i 10) = Some false) by (unfold flag_zero; change (computeSquares (c_globals i 10)) with (flags1 i); by rewrite Hg).
    rewrite Hz. rewrite bool_decide_false by done. split; [split; [|done]|congruence || lia]. replace (Look _) with (c_run i 11) by done. plain.
  - split; [split; [|done]|congruence || lia]. replace (goes_on _ _) with (c_task i 12 pending b) by (change (c_task i 12 pending b = goes_on (c_task i 11 pending b) (x ← part_sum arr (lo i) (hi i) s_square; Send 0 x (Fin tt))); by rewrite part_run). plain.
  - split; [split; [|done]|congruence || lia]. exact (moved_send c j 12 pending b _ eq_refl eq_refl).
Qed.

Lemma sum_snoc (l : list Z) a : foldr Z.add 0 (l ++ [a]) = foldr Z.add 0 l + a.
Proof. induction l as [|b l IH]; cbn; [lia|]. rewrite IH. lia. Qed.

Lemma round_sent s phs j ph : p_wf s -> (forall th n acc f, round s = Some (th, n, acc, f) -> th = 13%nat -> Forall (fun ph => 5 <= ph)%nat phs) -> phs !! j = Some ph ->
  (raised s (Z.of_nat (S j)) = false -> (ph <= 5)%nat) -> forall th n acc f, round s = Some (th, n, acc, f) ->
  c_sent (Z.of_nat (S j)) ph = if (S ph =? th)%nat then [f (Z.of_nat (S j))] else [].
Proof.
  intros Hwf H13 Hj Hr th n acc f Hs. specialize (H13 _ _ _ _ Hs).
  destruct s; cbn in Hs; try discriminate Hs; injection Hs as <- <- <- <-.
  1, 2: (specialize (Hr eq_refl); do 6 (destruct ph as [|ph]; [reflexivity|]); lia).
  all: specialize (H13 eq_refl); rewrite Forall_lookup in H13; specialize (H13 _ _ Hj); do 5 (destruct ph as [|ph]; [lia|]); do 8 (destruct ph as [|ph]; [reflexivity|]); reflexivity.
Qed.

(** A child that goes on keeps the invariant. *)
Lemma child_moved left s phs bufs c c' j ph :
  inv left s phs bufs c -> phs !! j = Some ph -> (ph < last_phase)%nat -> (taken (S ph) <= posted s (Z.of_nat (S j)))%nat -> (ph = 5%nat -> raised s (Z.of_nat (S j)) = true) ->
  moved c c' j ph (raised s (Z.of_nat (S j)) && (S ph <=? 5)%nat) (bufs j) ->
  exists left', left = S left' /\ inv left' s (<[j := S ph]> phs) bufs c'.
Proof.
  intros I Hj Hph Htk H5 Hm. pose proof (lookup_lt_Some _ _ _ Hj) as Hlt. pose proof (in_phase _ _ _ _ _ I j ph Hj) as [_ Hr]. destruct (in_second _ _ _ _ _ I) as [H13 Hall].
  exists (p_left s + sum_list_with (fun ph => last_phase - ph) (<[j := S ph]> phs))%nat. split; [rewrite (in_left _ _ _ _ _ I), (left_step _ _ _ _ Hj Hph); lia|].
  constructor.
  - apply I.
  - rewrite length_insert. apply I.
  - rewrite (mv_tasks _ _ _ _ _ _ Hm), length_insert. apply I.
  - rewrite (mv_tasks _ _ _ _ _ _ Hm), list_lookup_insert_ne by done. apply I.
  - intros j' ph' [(<- & <- & _)|(Hn & Hj')]%list_lookup_insert_Some; rewrite (mv_tasks _ _ _ _ _ _ Hm).
    + rewrite list_lookup_insert_eq; [done|]. rewrite (in_tasks _ _ _ _ _ I). rewrite (in_len _ _ _ _ _ I) in Hlt. lia.
    + rewrite list_lookup_insert_ne by congruence. by apply I.
  - apply I.
  - intros j' ph' [(<- & <- & _)|(Hn & Hj')]%list_lookup_insert_Some; [|by apply (in_phase _ _ _ _ _ I)]. split; [lia|]. intros Hr'. specialize (Hr Hr'). destruct (decide (ph = 5%nat)) as [E|E]; [|lia]. by rewrite (H5 E) in Hr'.
  - intros j' ph' [(<- & <- & _)|(Hn & Hj')]%list_lookup_insert_Some.
    + split; [done|]. rewrite (mv_box _ _ _ _ _ _ Hm). destruct (in_box _ _ _ _ _ I _ _ Hj) as [_ ->]. rewrite drop_drop. f_equal. unfold taken. destruct ph as [|[|[|ph]]]; lia.
    + rewrite (mv_other _ _ _ _ _ _ Hm) by lia. by apply I.
  - intros th n acc f Hs. destruct (in_round _ _ _ _ _ I _ _ _ _ Hs) as [HI1 HI2]. destruct (replied_step th f phs j ph 1 Hj) as [-> ->].
    rewrite (mv_sent _ _ _ _ _ _ Hm), (round_sent s phs j ph (in_wf _ _ _ _ _ I) H13 Hj Hr _ _ _ _ Hs). replace (1 + Z.of_nat j) with (Z.of_nat (S j)) by lia. rewrite length_app, <- HI2, <- HI1.
    destruct (Nat.eqb_spec (S ph) th) as [E|E]; cbn; [|rewrite app_nil_r; split; [lia|f_equal; lia]]. split; [lia|]. f_equal. rewrite sum_snoc. lia.
  - split; [intros th n acc f Hs Hth; apply Forall_insert; [by eapply H13|]|intros Hs; exfalso].
    + specialize (H13 _ _ _ _ Hs Hth). rewrite Forall_lookup in H13. specialize (H13 _ _ Hj). lia.
    + specialize (Hall Hs). rewrite Forall_lookup in Hall. specialize (Hall _ _ Hj). lia.
  - rewrite (mv_reaped _ _ _ _ _ _ Hm). apply I.
  - rewrite (mv_out _ _ _ _ _ _ Hm). apply I.
  - done.
Qed.

Lemma raised_cast s i : p_wf s -> raised s i = true -> cast s i = true.
Proof. destruct s; cbn; intros H; rewrite ?Z.leb_le; lia || done. Qed.

(** Where child [j + 1] may be. *)
Lemma child_place left s phs bufs c j : inv left s phs bufs c -> (j < 8)%nat -> exists ph, phs !! j = Some ph.
Proof. intros I Hj. apply lookup_lt_is_Some. by rewrite (in_len _ _ _ _ _ I). Qed.

Lemma task_last i pending b : t_exited (c_task i last_phase pending b) = true.
Proof. unfold t_exited, last_phase, c_task. destruct (type =? 0) eqn:Ht; cbn; [unfold c_tail; by rewrite Ht|done]. Qed.
Lemma exited_stuck c j t : ts_tasks c !! j = Some t -> t_exited t = true -> tstep j c = None.
Proof. unfold t_exited, tstep. intros ->. cbn. destruct (t_run t); try done. by destruct (t_stack t). Qed.

Lemma child_go left s phs bufs c j ph : inv left s phs bufs c -> phs !! j = Some ph ->
  match tstep (S j) c with
  | Some c' => (spins (Go (S j)) c = true /\ c' = c) \/
      (spins (Go (S j)) c = false /\ exists left' phs', left = S left' /\ inv left' s phs' bufs c')
  | None => ph = last_phase \/ (ph < 3)%nat /\ (posted s (Z.of_nat (S j)) < 2)%nat
  end /\ (ph <> 5%nat -> spins (Go (S j)) c = false).
Proof.
  intros I Hj. pose proof (lookup_lt_Some _ _ _ Hj) as Hlt. rewrite (in_len _ _ _ _ _ I) in Hlt. pose proof (in_child _ _ _ _ _ I j ph Hj) as Ht.
  destruct (in_phase _ _ _ _ _ I j ph Hj) as [Hph Hr]. destruct (in_box _ _ _ _ _ I j ph Hj) as [Htk Hbox].
  destruct (decide (ph = last_phase)) as [->|Hne].
  { rewrite (exited_stuck _ _ _ Ht) by apply task_last. split; [by left|]. intros _. unfold spins. rewrite Ht. cbn. unfold last_phase, c_tail. destruct (type =? 0) eqn:E; cbn; [unfold c_tail; by rewrite E|done]. }
  destruct (decide (ph = 5%nat)) as [->|H5].
  { assert (Hn : type <> 0) by (intros E; apply Hne; unfold last_phase; by rewrite E). destruct (flags_get (Z.of_nat (S j)) Hn ltac:(lia)) as [Hg _].
    assert (Hz : flag_zero (Z.of_nat (S j)) (c_globals (Z.of_nat (S j)) 5) = Some true) by (unfold flag_zero; change (computeSquares _) with flags0; by rewrite Hg).
    split; [|done]. unfold tstep, spins. rewrite Ht. cbn [mbind option_bind fmap option_fmap option_map c_task t_run c_run t_globals]. unfold c_tail. destruct (Z.eqb_spec type 0); [done|]. cbn [negb]. rewrite Hz. left. by rewrite bool_decide_true. }
  pose proof (child_advance c j ph (raised s (Z.of_nat (S j)) && (ph <=? 5)%nat) (bufs j) Hlt ltac:(lia) H5 Ht) as Hs. specialize (Hs ltac:(intros ->; apply I, raised_cast; [done|apply I|]; destruct (raised s _); [done|]; specialize (Hr eq_refl); lia)).
  assert (Hl : length (box c (Z.of_nat (S j))) = (Nat.min (posted s (Z.of_nat (S j))) 2 - taken ph)%nat) by (rewrite Hbox, length_drop, length_take; done).
  specialize (Hs ltac:(intros ->; rewrite Hbox; destruct (posted _ _) as [|p]; cbn; eauto) ltac:(intros ->; rewrite Hbox; destruct (posted _ _) as [|[|p]]; cbn; eauto)).
  destruct (tstep (S j) c) as [c'|].
  - destruct Hs as [[Hm Hsp] Hb]. split; [right|done]. split; [done|].
    destruct (child_moved left s phs bufs c c' j ph I Hj) as (left' & H1 & H2); [lia| |done| |by eauto].
    + destruct ph as [|[|[|ph]]]; cbn in *; [lia| | |lia]; specialize (Hb ltac:(lia)); destruct (box c _); cbn in Hl; [done|lia|done|lia].
    + by replace (S ph <=? 5)%nat with (ph <=? 5)%nat by (destruct (Nat.leb_spec ph 5), (Nat.leb_spec (S ph) 5); lia).
  - destruct Hs as [Hs Hb]. rewrite Hb in Hl. cbn in Hl. split; [right; destruct Hs as [-> | ->]; cbn in Hl; lia|]. intros _. unfold spins. rewrite Ht. by destruct Hs as [-> | ->].
Qed.

(** The signal is raised for a child that is in the waiting loop. *)
Lemma child_signal left s phs bufs c j ph : inv left s phs bufs c -> phs !! j = Some ph ->
  match deliver_signal (hello base) (S j) c with
  | Some c' => exists left' phs', left = S left' /\ inv left' s phs' bufs c'
  | None => raised s (Z.of_nat (S j)) = false \/ ph <> 5%nat
  end.
Proof.
  intros I Hj. pose proof (in_child _ _ _ _ _ I j ph Hj) as Ht. destruct (in_phase _ _ _ _ _ I j ph Hj) as [Hph Hr]. destruct (in_second _ _ _ _ _ I) as [H13 Hall].
  unfold deliver_signal. rewrite Ht. cbn [mbind option_bind c_task t_pending t_handler]. destruct (raised s (Z.of_nat (S j))) eqn:E; [|by left]. cbn [andb].
  destruct (Nat.leb_spec ph 5) as [H5|H5]; [|right; lia]. assert (Hn : type <> 0) by (intros E'; destruct s; cbn in E; try rewrite E' in E; try done; by destruct (in_wf _ _ _ _ _ I)).
  assert (ph = 5%nat) as ->.
  { destruct (round s) as [[[[th n] acc] f]|] eqn:Es; [|specialize (Hall eq_refl); rewrite Forall_lookup in Hall; specialize (Hall _ _ Hj); unfold last_phase in Hall; destruct (Z.eqb_spec type 0); lia].
    assert (th = 13%nat) as -> by (destruct s; cbn in E, Es; congruence). specialize (H13 _ _ _ _ eq_refl eq_refl). rewrite Forall_lookup in H13. specialize (H13 _ _ Hj). lia. }
  unfold t_exited. cbn [c_task t_run c_run t_stack]. unfold c_tail at 1. destruct (Z.eqb_spec type 0); [done|]. cbn [negb].
  destruct (child_moved left s phs bufs c (put_task c (S j) (c_task (Z.of_nat (S j)) 6 false (bufs j))) j 5 I Hj) as (left' & H1 & H2); [| | |rewrite E; plain|].
  - unfold last_phase. destruct (Z.eqb_spec type 0); [done|lia].
  - apply (in_box _ _ _ _ _ I _ _ Hj).
  - done.
  - by exists left', (<[j := 6%nat]> phs).
Qed.

(** *** The parent's steps *)

Definition next_post d : pstate := if (d =? 15)%nat then PSum 0 0 else PPost (S d).
Definition next_cast q : pstate := if (q =? 7)%nat then PSquares 0 0 else PCast (S q).
Definition next_sum n acc : pstate := if (n =? 7)%nat then (if type =? 0 then PWait 0 else PCast 0) else PSum (S n) acc.
Definition next_square n acc : pstate := if (n =? 7)%nat then PWait 0 else PSquares (S n) acc.

(** The mailbox and the value of message [d]. *)
Definition post_to d : Z := Z.of_nat (S (d / 2)).
Definition post_value d : Z := if (d mod 2 =? 0)%nat then lo (post_to d) else hi (post_to d).

Lemma run_post d : (d < 16)%nat -> p_run (PPost d) = Send (post_to d) (post_value d) (p_run (next_post d)).
Proof. intros Hd. do 16 (destruct d as [|d]; [reflexivity|]). lia. Qed.
Lemma gather_S n acc : (n < 8)%nat -> p_gather n acc = Recv (fun a => p_gather (S n) (i32 (acc + a))).
Proof. intros Hn. do 8 (destruct n as [|n]; [reflexivity|]). lia. Qed.
Lemma run_sum n acc : (n < 8)%nat -> exists k, p_run (PSum n acc) = Recv k /\ forall a, (n = 7%nat -> i32 (acc + a) = s_total id) -> k a = p_run (next_sum n (i32 (acc + a))).
Proof.
  intros Hn. cbn [p_run]. rewrite gather_S by done. eexists. split; [reflexivity|]. intros a Ha. unfold next_sum. destruct (Nat.eqb_spec n 7) as [->|H]; [|done].
  rewrite (Ha eq_refl). change (p_after (s_total id) = p_run (if type =? 0 then PWait 0 else PCast 0)). unfold p_after.
  destruct (type =? 0) eqn:E; [|done]. cbn [p_run]. unfold the_variance. by rewrite E.
Qed.
Lemma run_square n acc : (n < 8)%nat -> type <> 0 -> exists k, p_run (PSquares n acc) = Recv k /\ forall a, (n = 7%nat -> i32 (acc + a) = s_total s_square) -> k a = p_run (next_square n (i32 (acc + a))).
Proof.
  intros Hn Ht. cbn [p_run]. unfold p_squares. rewrite gather_S by done. eexists. split; [reflexivity|]. intros a Ha. unfold next_square. destruct (Nat.eqb_spec n 7) as [->|H]; [|done].
  rewrite (Ha eq_refl). cbn [p_run]. unfold the_variance. by destruct (Z.eqb_spec type 0).
Qed.
Lemma run_cast q : (q < 8)%nat -> p_run (PCast q) = Cast (Z.of_nat (S q)) s_mean (p_run (PRaise q)).
Proof. intros Hq. do 8 (destruct q as [|q]; [reflexivity|]). lia. Qed.
Lemma run_raise q : (q < 8)%nat -> p_run (PRaise q) = Raise (Z.of_nat (S q)) (p_run (next_cast q)).
Proof. intros Hq. do 8 (destruct q as [|q]; [reflexivity|]). lia. Qed.
Lemma run_wait n : (n < 8)%nat -> p_run (PWait n) = Await (p_run (PWait (S n))).
Proof. intros Hn. do 8 (destruct n as [|n]; [reflexivity|]). lia. Qed.

(** The parent goes on and leaves the children alone. *)
Lemma parent_moved left s s' phs bufs c c' :
  inv left s phs bufs c -> p_wf s' -> ts_tasks c' = <[0%nat := p_task s']> (ts_tasks c) ->
  (forall i, i <> 0 -> box c' i = box c i) ->
  (forall i, 1 <= i <= 8 -> raised s' i = raised s i /\ cast s' i = cast s i /\ posted s' i = posted s i) ->
  (forall th n acc f, round s' = Some (th, n, acc, f) ->
    (length (box c' 0) + n = replied th phs)%nat /\ i32 (acc + foldr Z.add 0 (box c' 0) + to_come th f 1 phs) = round_total s') ->
  ((forall th n acc f, round s' = Some (th, n, acc, f) -> th = 13%nat -> Forall (fun ph => 5 <= ph)%nat phs) /\ (round s' = None -> Forall (eq last_phase) phs)) ->
  ts_reaped c' = match s' with PWait n => n | PEnd => 8%nat | _ => 0%nat end ->
  ts_out c' = match s' with PEnd => text (s_total id) the_variance | _ => [] end ->
  p_left s = S (p_left s') ->
  exists left', left = S left' /\ inv left' s' phs bufs c'.
Proof.
  intros I Hwf Ht Hbox Hsame Hround Hsec Hre Hout Hleft. exists (p_left s' + sum_list_with (fun ph => last_phase - ph) phs)%nat. split; [rewrite (in_left _ _ _ _ _ I); lia|].
  assert (Hj8 : forall j ph, phs !! j = Some ph -> 1 <= Z.of_nat (S j) <= 8) by (intros j ph Hj%lookup_lt_Some; rewrite (in_len _ _ _ _ _ I) in Hj; lia).
  constructor; try done.
  - apply I.
  - rewrite Ht, length_insert. apply I.
  - rewrite Ht, list_lookup_insert_eq; [done|]. rewrite (in_tasks _ _ _ _ _ I). lia.
  - intros j ph Hj. rewrite Ht, list_lookup_insert_ne by done. destruct (Hsame _ (Hj8 _ _ Hj)) as (-> & _). by apply I.
  - intros j Hj. destruct (Hsame (Z.of_nat (S j)) ltac:(lia)) as (_ & -> & _). by apply I.
  - intros j ph Hj. destruct (Hsame _ (Hj8 _ _ Hj)) as (-> & _). by apply I.
  - intros j ph Hj. destruct (Hsame _ (Hj8 _ _ Hj)) as (_ & _ & ->). rewrite Hbox by lia. by apply I.
Qed.

Lemma post_box d (t : nat) : (t <= Nat.min 2 (d - 2 * (Z.to_nat (post_to d) - 1)))%nat ->
  (t <= Nat.min 2 (S d - 2 * (Z.to_nat (post_to d) - 1)))%nat /\
  drop t (take (Nat.min 2 (d - 2 * (Z.to_nat (post_to d) - 1))) [lo (post_to d); hi (post_to d)]) ++ [post_value d] =
  drop t (take (Nat.min 2 (S d - 2 * (Z.to_nat (post_to d) - 1))) [lo (post_to d); hi (post_to d)]).
Proof.
  pose proof (Nat.div_mod_eq d 2) as Hdm. pose proof (Nat.mod_upper_bound d 2 ltac:(done)) as Hm. unfold post_value. assert (Z.to_nat (post_to d) = S (d / 2)) as -> by (unfold post_to; lia). intros Ht.
  destruct (decide (d mod 2 = 0)%nat) as [Hev|Hev].
  - rewrite Hev. replace (d - 2 * (S (d / 2) - 1))%nat with 0%nat in * by lia. replace (S d - 2 * (S (d / 2) - 1))%nat with 1%nat by lia. split; [lia|]. by replace t with 0%nat by lia.
  - replace (d mod 2)%nat with 1%nat by lia. replace (d - 2 * (S (d / 2) - 1))%nat with 1%nat in * by lia. replace (S d - 2 * (S (d / 2) - 1))%nat with 2%nat by lia. split; [lia|]. by destruct t as [|[|t]]; [| |lia].
Qed.

Lemma post_moved left d phs bufs c :
  inv left (PPost d) phs bufs c ->
  exists c', tstep 0 c = Some c' /\ exists left', left = S left' /\ inv left' (next_post d) phs bufs c'.
Proof.
  intros I. pose proof (in_wf _ _ _ _ _ I) as Hd. cbn in Hd. unfold tstep. rewrite (in_parent _ _ _ _ _ I). cbn [mbind option_bind p_task t_run]. rewrite run_post by done. eexists. split; [reflexivity|].
  pose proof (Nat.div_mod_eq d 2) as Hdm. pose proof (Nat.mod_upper_bound d 2 ltac:(done)) as Hm.
  assert (Hp : forall i, 1 <= i <= 8 -> posted (next_post d) i = Nat.min 2 (S d - 2 * (Z.to_nat i - 1))) by (intros i Hi; unfold next_post; destruct (Nat.eqb_spec d 15) as [->|]; cbn [posted]; lia).
  assert (Hr : forall i, raised (next_post d) i = false) by (intros i; unfold next_post; by destruct (d =? 15)%nat).
  assert (Hc : forall i, cast (next_post d) i = false) by (intros i; unfold next_post; by destruct (d =? 15)%nat).
  assert (Hrd : round (next_post d) = round (PPost d)) by (unfold next_post; by destruct (d =? 15)%nat).
  assert (Hrt : round_total (next_post d) = s_total id) by (unfold next_post; by destruct (d =? 15)%nat).
  assert (Hbx : forall i, i <> post_to d -> box (put_box (put_task c 0 (p_task (next_post d))) (post_to d) (box c (post_to d) ++ [post_value d])) i = box c i) by (intros i Hi; by rewrite box_put, decide_False).
  change (goes_on _ _) with (p_task (next_post d)). fold (box c (post_to d)).
  exists (p_left (next_post d) + sum_list_with (fun ph => last_phase - ph) phs)%nat.
  split; [rewrite (in_left _ _ _ _ _ I); unfold next_post; destruct (Nat.eqb_spec d 15) as [->|]; cbn [p_left]; destruct (type =? 0); lia|].
  assert (Hj8 : forall j ph, phs !! j = Some ph -> 1 <= Z.of_nat (S j) <= 8) by (intros j ph Hj%lookup_lt_Some; rewrite (in_len _ _ _ _ _ I) in Hj; lia).
  constructor; try done.
  - unfold next_post. destruct (Nat.eqb_spec d 15); cbn; lia.
  - apply I.
  - cbn. rewrite length_insert. apply I.
  - cbn. rewrite list_lookup_insert_eq; [done|]. rewrite (in_tasks _ _ _ _ _ I). lia.
  - intros j ph Hj. cbn [put_box put_task ts_tasks]. rewrite list_lookup_insert_ne by done. rewrite Hr. exact (in_child _ _ _ _ _ I j ph Hj).
  - intros j _. by rewrite Hc.
  - intros j ph Hj. rewrite Hr. exact (in_phase _ _ _ _ _ I j ph Hj).
  - intros j ph Hj. destruct (in_box _ _ _ _ _ I _ _ Hj) as [H1 H2]. specialize (Hj8 _ _ Hj). rewrite Hp by done. cbn [posted] in H1, H2. destruct (decide (Z.of_nat (S j) = post_to d)) as [E|E].
    + rewrite E in *. rewrite box_put, decide_True, H2 by done. by apply post_box.
    + rewrite Hbx by done. unfold post_to in E. rewrite H2. replace (Nat.min 2 (S d - 2 * (Z.to_nat (Z.of_nat (S j)) - 1))) with (Nat.min 2 (d - 2 * (Z.to_nat (Z.of_nat (S j)) - 1))) by lia. done.
  - rewrite Hrd, Hrt, Hbx by (unfold post_to; lia). apply I.
  - rewrite Hrd. apply I.
  - cbn. rewrite (in_reaped _ _ _ _ _ I). unfold next_post. by destruct (d =? 15)%nat.
  - cbn. rewrite (in_out _ _ _ _ _ I). unfold next_post. by destruct (d =? 15)%nat.
Qed.

(** The multicast: the mean goes into a buffer, and the signal is raised. *)
Lemma cast_moved left q phs bufs c :
  inv left (PCast q) phs bufs c ->
  exists c', tstep 0 c = Some c' /\ exists left' bufs', left = S left' /\ inv left' (PRaise q) phs bufs' c'.
Proof.
  intros I. destruct (in_wf _ _ _ _ _ I) as [Hq Htype]. unfold tstep. rewrite (in_parent _ _ _ _ _ I). cbn [mbind option_bind p_task t_run]. rewrite run_cast by done. eexists. split; [reflexivity|].
  change (goes_on _ _) with (p_task (PRaise q)).
  exists (p_left (PRaise q) + sum_list_with (fun ph => last_phase - ph) phs)%nat, (fun j => if decide (j = q) then s_mean else bufs j).
  split; [rewrite (in_left _ _ _ _ _ I); cbn [p_left]; lia|]. constructor; try apply I.
  - unfold on_task. cbn [ts_tasks put_task]. rewrite length_alter, length_insert. apply I.
  - unfold on_task. cbn [ts_tasks put_task]. rewrite Nat2Z.id, list_lookup_alter_ne by done. rewrite list_lookup_insert_eq; [done|]. rewrite (in_tasks _ _ _ _ _ I). lia.
  - intros j ph Hj. unfold on_task. cbn [ts_tasks put_task]. rewrite Nat2Z.id. pose proof (in_child _ _ _ _ _ I j ph Hj) as Ht. destruct (decide (j = q)) as [->|Hne].
    + rewrite list_lookup_alter_eq, list_lookup_insert_ne, Ht by done. done.
    + rewrite list_lookup_alter_ne, list_lookup_insert_ne by congruence. exact Ht.
  - intros j Hj Hc. cbn beta. destruct (decide (j = q)) as [->|Hne]; [done|]. apply (in_buf _ _ _ _ _ I j Hj). cbn [cast] in Hc |- *. apply Z.leb_le in Hc. apply Z.leb_le. lia.
  - done.
Qed.

Lemma raise_moved left q phs bufs c :
  inv left (PRaise q) phs bufs c ->
  exists c', tstep 0 c = Some c' /\ exists left', left = S left' /\ inv left' (next_cast q) phs bufs c'.
Proof.
  intros I. destruct (in_wf _ _ _ _ _ I) as [Hq Htype]. unfold tstep. rewrite (in_parent _ _ _ _ _ I). cbn [mbind option_bind p_task t_run]. rewrite run_raise by done. eexists. split; [reflexivity|].
  change (goes_on _ _) with (p_task (next_cast q)).
  assert (Hr : forall i, 1 <= i <= 8 -> raised (next_cast q) i = (i <=? Z.of_nat q + 1)).
  { intros i Hi. unfold next_cast. destruct (Nat.eqb_spec q 7) as [->|]; cbn [raised]; [destruct (Z.eqb_spec type 0); [done|]; symmetry; apply Z.leb_le; lia|]. f_equal. lia. }
  assert (Hc : forall i, 1 <= i <= 8 -> cast (next_cast q) i = (i <=? Z.of_nat q + 1)).
  { intros i Hi. rewrite <- Hr by done. unfold next_cast. by destruct (Nat.eqb_spec q 7). }
  assert (Hsame : posted (next_cast q) = posted (PRaise q) /\ round (next_cast q) = round (PRaise q) /\ round_total (next_cast q) = round_total (PRaise q)) by (unfold next_cast; by destruct (q =? 7)%nat).
  destruct Hsame as (Hp & Hrd & Hrt).
  exists (p_left (next_cast q) + sum_list_with (fun ph => last_phase - ph) phs)%nat.
  split; [rewrite (in_left _ _ _ _ _ I); unfold next_cast; destruct (Nat.eqb_spec q 7) as [->|]; cbn [p_left]; lia|].
  assert (Hj8 : forall j ph, phs !! j = Some ph -> 1 <= Z.of_nat (S j) <= 8) by (intros j ph Hj%lookup_lt_Some; rewrite (in_len _ _ _ _ _ I) in Hj; lia).
  constructor; rewrite ?Hp, ?Hrd, ?Hrt; try apply I.
  - unfold next_cast. destruct (Nat.eqb_spec q 7); cbn; split; lia || done.
  - unfold on_task. cbn [ts_tasks put_task]. rewrite length_alter, length_insert. apply I.
  - unfold on_task. cbn [ts_tasks put_task]. rewrite Nat2Z.id, list_lookup_alter_ne by done. rewrite list_lookup_insert_eq; [done|]. rewrite (in_tasks _ _ _ _ _ I). lia.
  - intros j ph Hj. unfold on_task. cbn [ts_tasks put_task]. rewrite Nat2Z.id, Hr by eauto. pose proof (in_child _ _ _ _ _ I j ph Hj) as Ht. destruct (in_phase _ _ _ _ _ I j ph Hj) as [_ H5]. cbn [raised] in Ht, H5. destruct (decide (j = q)) as [->|Hne].
    + rewrite list_lookup_alter_eq, list_lookup_insert_ne, Ht by done. specialize (H5 ltac:(apply Z.leb_gt; lia)). replace (Z.of_nat (S q) <=? Z.of_nat q + 1) with true by (symmetry; apply Z.leb_le; lia). replace (ph <=? 5)%nat with true by (symmetry; by apply Nat.leb_le). done.
    + rewrite list_lookup_alter_ne, list_lookup_insert_ne by congruence. rewrite Ht. do 3 f_equal. destruct (Z.leb_spec (Z.of_nat (S j)) (Z.of_nat q)), (Z.leb_spec (Z.of_nat (S j)) (Z.of_nat q + 1)); lia || done.
  - intros j Hj. rewrite Hc by lia. apply I; done.
  - intros j ph Hj. rewrite Hr by eauto. split; [by apply (in_phase _ _ _ _ _ I _ _ Hj)|]. intros Hf. apply (in_phase _ _ _ _ _ I _ _ Hj). cbn [raised]. apply Z.leb_gt. apply Z.leb_gt in Hf. lia.
  - unfold on_task. cbn [ts_reaped put_task]. rewrite (in_reaped _ _ _ _ _ I). unfold next_cast. by destruct (q =? 7)%nat.
  - unfold on_task. cbn [ts_out put_task]. rewrite (in_out _ _ _ _ _ I). unfold next_cast. by destruct (q =? 7)%nat.
  - done.
Qed.

(** A reply is added up. *)
Lemma reply_added left s phs bufs c th n acc f a (l : list Z) :
  inv left s phs bufs c -> round s = Some (th, n, acc, f) -> box c 0 = a :: l ->
  (length l + S n = replied th phs)%nat /\ i32 (i32 (acc + a) + foldr Z.add 0 l + to_come th f 1 phs) = round_total s /\
  (n = 7%nat -> l = [] /\ i32 (acc + a) = round_total s /\ Forall (fun ph => th <= ph)%nat phs).
Proof.
  intros I Hs Hb. destruct (in_round _ _ _ _ _ I _ _ _ _ Hs) as [H1 H2]. rewrite Hb in H1, H2. cbn [length foldr] in H1, H2.
  assert (H3 : i32 (i32 (acc + a) + foldr Z.add 0 l + to_come th f 1 phs) = round_total s) by (rewrite <- H2, <- Z.add_assoc, i32_add; f_equal; lia).
  split; [lia|]. split; [done|]. intros ->. pose proof (replied_le th phs) as Hle. rewrite (in_len _ _ _ _ _ I) in Hle. destruct l as [|]; [|cbn in H1; lia].
  destruct (replied_all th f phs ltac:(rewrite (in_len _ _ _ _ _ I); cbn in H1; lia) 1) as [H4 H5]. rewrite H4 in H3. cbn [foldr] in H3. rewrite !Z.add_0_r, i32_i32 in H3. done.
Qed.

Lemma parent_recv c s k a (l : list Z) s' : ts_tasks c !! 0%nat = Some (p_task s) -> p_run s = Recv k -> box c 0 = a :: l -> k a = p_run s' ->
  tstep 0 c = Some (put_box (put_task c 0 (p_task s')) 0 l).
Proof.
  intros Ht Hr Hb Hk. unfold tstep. rewrite Ht. cbn [mbind option_bind p_task t_run]. rewrite Hr. pose proof (recv_box c 0 _ _ Hb) as Hb'. change (Z.of_nat 0) with 0 in *. rewrite Hb'. unfold goes_on. cbn [p_task]. by rewrite Hk.
Qed.

Lemma box_kept c t (l : list Z) i : i <> 0 -> box (put_box (put_task c 0 t) 0 l) i = box c i.
Proof. intros Hi. by rewrite box_put, decide_False. Qed.
Lemma box_left c t (l : list Z) : box (put_box (put_task c 0 t) 0 l) 0 = l.
Proof. by rewrite box_put, decide_True. Qed.

Lemma recv_moved left s s' phs bufs c (l : list Z) :
  inv left s phs bufs c -> ts_reaped c = 0%nat -> ts_out c = [] -> p_wf s' ->
  (forall i, 1 <= i <= 8 -> raised s' i = raised s i /\ cast s' i = cast s i /\ posted s' i = posted s i) ->
  (forall th n acc f, round s' = Some (th, n, acc, f) -> (length l + n = replied th phs)%nat /\ i32 (acc + foldr Z.add 0 l + to_come th f 1 phs) = round_total s') ->
  ((forall th n acc f, round s' = Some (th, n, acc, f) -> th = 13%nat -> Forall (fun ph => 5 <= ph)%nat phs) /\ (round s' = None -> Forall (eq last_phase) phs)) ->
  match s' with PSum _ _ | PCast _ | PSquares _ _ | PWait O => True | _ => False end -> p_left s = S (p_left s') ->
  exists left', left = S left' /\ inv left' s' phs bufs (put_box (put_task c 0 (p_task s')) 0 l).
Proof.
  intros I Hre Hout Hwf Hc Hr Hsec Hs' Hl. eapply parent_moved; [exact I|done|reflexivity|intros i Hi; by apply box_kept|done|by rewrite box_left|done|..|done];
    cbn [put_box put_task ts_reaped ts_out]; rewrite ?Hre, ?Hout; destruct s' as [| | | | |[]|]; done.
Qed.

Lemma sum_moved left n acc phs bufs c a (l : list Z) :
  inv left (PSum n acc) phs bufs c -> box c 0 = a :: l ->
  exists c', tstep 0 c = Some c' /\ exists left', left = S left' /\ inv left' (next_sum n (i32 (acc + a))) phs bufs c'.
Proof.
  intros I Hb. pose proof (in_wf _ _ _ _ _ I) as Hn. cbn in Hn. destruct (reply_added _ _ _ _ _ _ _ _ _ _ _ I eq_refl Hb) as (H1 & H2 & H3). cbn [round_total] in H2, H3.
  destruct (run_sum n acc Hn) as (k & Hk & Hk'). eexists. split; [eapply parent_recv; [apply I|exact Hk|exact Hb|apply Hk'; intros E; by apply H3]|].
  apply (recv_moved _ (PSum n acc)); [done|apply I|apply I|..]; unfold next_sum; destruct (Nat.eqb_spec n 7) as [->|E];
    try (destruct (H3 eq_refl) as (-> & _ & H6); rewrite Forall_lookup in H6; destruct (Z.eqb_spec type 0) as [Ht|Ht]); cbn [p_wf]; try done; try lia.
  - intros i Hi. cbn. destruct (Z.eqb_spec type 0); done.
  - intros i Hi. cbn [raised cast posted]. by replace (i <=? Z.of_nat 0) with false by (symmetry; apply Z.leb_gt; lia).
  - intros th n' acc' f Hs. injection Hs as <- <- <- <-. destruct (replied_none 13 (s_reply s_square) phs) as [-> ->].
    { apply Forall_lookup. intros j ph Hj. destruct (in_phase _ _ _ _ _ I j ph Hj) as [_ H5]. specialize (H5 eq_refl). lia. }
    by rewrite (in_len _ _ _ _ _ I).
  - intros th n' acc' f Hs. injection Hs as <- <- <- <-. done.
  - split; [done|]. intros _. apply Forall_lookup. intros j ph Hj. destruct (in_phase _ _ _ _ _ I j ph Hj) as [H5 _]. specialize (H6 _ _ Hj). unfold last_phase in *. destruct (Z.eqb_spec type 0); [lia|done].
  - split; [|done]. intros _ _ _ _ _ _. by apply Forall_lookup.
  - split; [|done]. intros th n' acc' f Hs. injection Hs as <- <- <- <-. done.
  - cbn. destruct (Z.eqb_spec type 0); [lia|done].
  - cbn. destruct (Z.eqb_spec type 0); [done|lia].
  - cbn [p_left]. lia.
Qed.

Lemma square_moved left n acc phs bufs c a (l : list Z) :
  inv left (PSquares n acc) phs bufs c -> box c 0 = a :: l ->
  exists c', tstep 0 c = Some c' /\ exists left', left = S left' /\ inv left' (next_square n (i32 (acc + a))) phs bufs c'.
Proof.
  intros I Hb. destruct (in_wf _ _ _ _ _ I) as [Hn Ht]. destruct (reply_added _ _ _ _ _ _ _ _ _ _ _ I eq_refl Hb) as (H1 & H2 & H3). cbn [round_total] in H2, H3.
  destruct (run_square n acc Hn Ht) as (k & Hk & Hk'). eexists. split; [eapply parent_recv; [apply I|exact Hk|exact Hb|apply Hk'; intros E; by apply H3]|].
  apply (recv_moved _ (PSquares n acc)); [done|apply I|apply I|..]; unfold next_square; destruct (Nat.eqb_spec n 7) as [->|E];
    try (destruct (H3 eq_refl) as (-> & _ & H6); rewrite Forall_lookup in H6); cbn [p_wf]; try done; try lia.
  - intros th n' acc' f Hs. injection Hs as <- <- <- <-. done.
  - split; [done|]. intros _. apply Forall_lookup. intros j ph Hj. destruct (in_phase _ _ _ _ _ I j ph Hj) as [H5 _]. specialize (H6 _ _ Hj). unfold last_phase in *. destruct (Z.eqb_spec type 0); [done|lia].
  - split; [|done]. intros th n' acc' f Hs Hth. by apply (proj1 (in_second _ _ _ _ _ I) _ _ _ _ eq_refl).
  - cbn [p_left]. lia.
Qed.

(** All children have exited. *)
Lemma all_children_exited left s phs bufs c : inv left s phs bufs c -> round s = None -> exists l, ts_tasks c = p_task s :: l /\ length l = 8%nat /\ Forall (fun t => t_exited t = true) l.
Proof.
  intros I Hs. pose proof (in_parent _ _ _ _ _ I) as Hp. pose proof (in_tasks _ _ _ _ _ I) as Hl. destruct (ts_tasks c) as [|t l] eqn:Ht; [done|]. injection Hp as ->. exists l. split; [done|]. split; [by injection Hl|].
  apply Forall_lookup. intros j t Hj. destruct (child_place _ _ _ _ _ j I) as [ph Hph]; [apply lookup_lt_Some in Hj; injection Hl; lia|].
  pose proof (in_child _ _ _ _ _ I j ph Hph) as Hc. rewrite Ht in Hc. change (l !! j = Some (c_task (Z.of_nat (S j)) ph (raised s (Z.of_nat (S j)) && (ph <=? 5)%nat) (bufs j))) in Hc. rewrite Hc in Hj. injection Hj as <-.
  pose proof (proj2 (in_second _ _ _ _ _ I) Hs) as Hall. rewrite Forall_lookup in Hall. rewrite <- (Hall _ _ Hph). apply task_last.
Qed.

Lemma wait_moved left n phs bufs c :
  inv left (PWait n) phs bufs c ->
  exists c', tstep 0 c = Some c' /\ exists left', left = S left' /\ inv left' (if (n =? 8)%nat then PEnd else PWait (S n)) phs bufs c'.
Proof.
  intros I. pose proof (in_wf _ _ _ _ _ I) as Hn. cbn in Hn. assert (Hre : ts_reaped c = n) by apply I. assert (Hout : ts_out c = []) by apply I.
  assert (Hall : Forall (eq last_phase) phs) by (apply I; done). destruct (Nat.eqb_spec n 8) as [->|E].
  - exists (put_out (put_task c 0 (p_task PEnd)) (text (s_total id) the_variance)). split; [unfold tstep; by rewrite (in_parent _ _ _ _ _ I)|].
    eapply parent_moved; [exact I|..]; done || (intros; done) || idtac. cbn [put_out put_task ts_out]. by rewrite Hout.
  - destruct (all_children_exited _ _ _ _ _ I eq_refl) as (l & Hl & Hl8 & Hex). unfold tstep. rewrite (in_parent _ _ _ _ _ I). cbn [mbind option_bind p_task t_run]. rewrite run_wait by lia.
    assert (Hlt : (ts_reaped c < length (filter (fun t => t_exited t = true) (ts_tasks c)))%nat).
    { rewrite Hl. assert (Hf : filter (fun t => t_exited t = true) l = l) by (clear -Hex; induction Hex as [|t l Ht _ IH]; [done|]; rewrite filter_cons_True by done; by rewrite IH).
      rewrite filter_cons, Hf. destruct (decide _); cbn; lia. }
    apply Nat.ltb_lt in Hlt. rewrite Hlt. eexists. split; [reflexivity|]. eapply parent_moved; [exact I|..]; try done.
    + cbn. lia.
    + cbn. by rewrite Hre.
    + cbn [p_left]. lia.
Qed.

(** *** Every turn *)

Definition advances left c' : Prop := exists left' s' phs' bufs', left = S left' /\ inv left' s' phs' bufs' c'.

Lemma parent_go left s phs bufs c : inv left s phs bufs c ->
  match tstep 0 c with
  | Some c' => advances left c'
  | None => s = PEnd \/ exists th n acc f, round s = Some (th, n, acc, f) /\ (forall i, posted s i = 2%nat) /\ box c 0 = [] /\ (th = 13%nat -> forall i, raised s i = true)
  end /\ spins (Go 0) c = false.
Proof.
  intros I. unfold advances. pose proof (in_parent _ _ _ _ _ I) as Hp. pose proof (in_wf _ _ _ _ _ I) as Hwf.
  assert (Hsp : forall x, p_run s = x -> (match x with Spin _ _ => False | _ => True end) -> spins (Go 0) c = false) by (intros x Hx Hn; unfold spins; rewrite Hp; cbn [fmap option_fmap option_map p_task t_run t_globals]; rewrite Hx; by destruct x).
  destruct s as [d|n acc|q|q|n acc|n|].
  - destruct (post_moved _ _ _ _ _ I) as (c' & -> & left' & H1 & H2). split; [by eauto 6|]. eapply Hsp; [by apply run_post|done].
  - destruct (run_sum n acc Hwf) as (k & Hk & _). split; [|by eapply Hsp]. destruct (box c 0) as [|a l] eqn:Hb.
    + unfold tstep. rewrite Hp. cbn [mbind option_bind p_task t_run]. rewrite Hk. unfold box in Hb. change (Z.of_nat 0) with 0. destruct (ts_boxes c !! 0) as [[|]|]; [|done|]; right; exists 5%nat, n, acc, (s_reply id); (split_and!; [done..|discriminate]).
    + destruct (sum_moved _ _ _ _ _ _ _ _ I Hb) as (c' & -> & left' & H1 & H2). by eauto 6.
  - destruct (cast_moved _ _ _ _ _ I) as (c' & -> & left' & bufs' & H1 & H2). split; [by exists left', (PRaise q), phs, bufs'|]. eapply Hsp; [apply run_cast, Hwf|done].
  - destruct (raise_moved _ _ _ _ _ I) as (c' & -> & left' & H1 & H2). split; [by eauto 6|]. eapply Hsp; [apply run_raise, Hwf|done].
  - destruct Hwf as [Hn Ht]. destruct (run_square n acc Hn Ht) as (k & Hk & _). split; [|by eapply Hsp]. destruct (box c 0) as [|a l] eqn:Hb.
    + unfold tstep. rewrite Hp. cbn [mbind option_bind p_task t_run]. rewrite Hk. unfold box in Hb. change (Z.of_nat 0) with 0.
      assert (Hr : forall i, raised (PSquares n acc) i = true) by (intros i; cbn; by destruct (Z.eqb_spec type 0)). destruct (ts_boxes c !! 0) as [[|]|]; [|done|]; right; exists 13%nat, n, acc, (s_reply s_square); (split_and!; done).
    + destruct (square_moved _ _ _ _ _ _ _ _ I Hb) as (c' & -> & left' & H1 & H2). by eauto 6.
  - destruct (wait_moved _ _ _ _ _ I) as (c' & -> & left' & H1 & H2). split; [by eauto 6|]. cbn in Hwf. destruct (decide (n = 8%nat)) as [->|E]; [by eapply Hsp|]. eapply Hsp; [apply run_wait; lia|done].
  - split; [|by eapply Hsp]. unfold tstep. rewrite Hp. by left.
Qed.

Lemma turn_inv left s phs bufs c a c' : inv left s phs bufs c -> take_turn (hello base) a c = Some c' ->
  (spins a c = true /\ c' = c) \/ (spins a c = false /\ advances left c').
Proof.
  intros I Ha. assert (Hj8 : forall j t, ts_tasks c !! S j = Some t -> exists ph, phs !! j = Some ph) by (intros j t Hj%lookup_lt_Some; rewrite (in_tasks _ _ _ _ _ I) in Hj; eapply child_place; [done|lia]).
  destruct a as [[|j]|[|j]]; cbn [take_turn] in Ha.
  - destruct (parent_go _ _ _ _ _ I) as [H1 H2]. rewrite Ha in H1. by right.
  - assert (Ht : exists t, ts_tasks c !! S j = Some t) by (unfold tstep in Ha; destruct (ts_tasks c !! S j); by eauto). destruct Ht as [t Ht]. destruct (Hj8 _ _ Ht) as [ph Hph].
    destruct (child_go _ _ _ _ _ _ _ I Hph) as [H1 _]. rewrite Ha in H1. destruct H1 as [H1|(H1 & left' & phs' & H2 & H3)]; [by left|]. right. split; [done|]. unfold advances. by eauto 6.
  - unfold deliver_signal in Ha. by rewrite (in_parent _ _ _ _ _ I) in Ha.
  - assert (Ht : exists t, ts_tasks c !! S j = Some t) by (unfold deliver_signal in Ha; destruct (ts_tasks c !! S j); by eauto). destruct Ht as [t Ht]. destruct (Hj8 _ _ Ht) as [ph Hph].
    pose proof (child_signal _ _ _ _ _ _ _ I Hph) as H1. rewrite Ha in H1. destruct H1 as (left' & phs' & H2 & H3). right. split; [done|]. unfold advances. by eauto 6.
Qed.

Lemma turns_inv sched : forall left s phs bufs c c', inv left s phs bufs c -> take_turns (hello base) sched c = Some c' ->
  exists left' s' phs' bufs', inv left' s' phs' bufs' c' /\ (work (hello base) sched c + left' = left)%nat.
Proof.
  induction sched as [|a sched IH]; intros left s phs bufs c c' I Hs; cbn in Hs |- *; [injection Hs as <-; by eauto 8|].
  destruct (take_turn (hello base) a c) as [c1|] eqn:Ha; [|done]. cbn in Hs. destruct (turn_inv _ _ _ _ _ _ _ I Ha) as [[-> ->]|(-> & left' & s' & phs' & bufs' & -> & I')]; [by eapply IH|].
  destruct (IH _ _ _ _ _ _ I' Hs) as (left2 & s2 & phs2 & bufs2 & I2 & H2). exists left2, s2, phs2, bufs2. split; [done|lia].
Qed.

(** Before the end somebody can go on. *)
Lemma can_go left s phs bufs c : inv left s phs bufs c -> s = PEnd \/ exists a c', take_turn (hello base) a c = Some c' /\ spins a c = false.
Proof.
  intros I. destruct (parent_go _ _ _ _ _ I) as [Hp Hsp]. destruct (tstep 0 c) as [c'|] eqn:Hst; [right; by exists (Go 0), c'|].
  destruct Hp as [Hp|(th & n & acc & f & Hs & Hpost & Hb & Hr)]; [by left|right]. destruct (in_round _ _ _ _ _ I _ _ _ _ Hs) as [Hc _]. rewrite Hb in Hc. cbn in Hc.
  assert (Hn : (n < 8)%nat) by (pose proof (in_wf _ _ _ _ _ I) as Hwf; destruct s; cbn in Hs, Hwf; try discriminate Hs; injection Hs as <- <- <- <-; lia).
  destruct (replied_some th phs) as (j & ph & Hj & Hph); [rewrite (in_len _ _ _ _ _ I); lia|].
  assert (Hth : th = 5%nat \/ th = 13%nat /\ type <> 0) by (pose proof (in_wf _ _ _ _ _ I) as Hwf; destruct s; cbn in Hs, Hwf; try discriminate Hs; injection Hs as <- <- <- <-; tauto).
  assert (Hlast : ph <> last_phase) by (unfold last_phase; destruct (Z.eqb_spec type 0), Hth as [->|[-> ?]]; lia || done).
  destruct (child_go _ _ _ _ _ _ _ I Hj) as [Hgo Hns]. destruct (decide (ph = 5%nat)) as [->|H5].
  - destruct Hth as [->|[Hth _]]; [lia|]. pose proof (child_signal _ _ _ _ _ _ _ I Hj) as Hsig. destruct (deliver_signal (hello base) (S j) c) as [c'|] eqn:Hd; [by exists (Signal (S j)), c'|]. rewrite (Hr Hth) in Hsig. by destruct Hsig.
  - destruct (tstep (S j) c) as [c'|] eqn:Hgo'; [exists (Go (S j)), c'; split; [done|by apply Hns]|]. rewrite Hpost in Hgo. destruct Hgo as [Hgo|[_ Hgo]]; [done|lia].
Qed.

Lemma sums_start : inv (if type =? 0 then 73 else 161) (PPost 0) (replicate 8 0%nat) (fun j => buf (Z.of_nat (S j)))
  (mktasks (started (parent type name) (buf 0) :: ((fun i => started (child type base arr i) (buf i)) <$> seqZ 1 nchild)) ∅ 0 []).
Proof.
  constructor; try done.
  - cbn; lia.
  - assert (Hp : parent type name = p_run (PPost 0)) by (unfold parent; cbn [p_run]; unfold p_after, p_multi, p_squares, p_wait, text; destruct (type =? 0); reflexivity). cbn [ts_tasks lookup list_lookup]. by rewrite Hp.
  - intros j ph [-> Hj]%lookup_replicate. do 8 (destruct j as [|j]; [done|]). lia.
  - intros j ph [-> Hj]%lookup_replicate. split; [lia|done || lia].
  - intros j ph [-> Hj]%lookup_replicate. split; [cbn; lia|]. do 8 (destruct j as [|j]; [done|]). lia.
  - intros th n acc f Hs. injection Hs as <- <- <- <-. destruct (replied_none 5 (s_reply id) (replicate 8 0%nat)) as [-> ->]; [repeat constructor|]. done.
  - split; [|done]. intros th n acc f Hs. injection Hs as <- <- <- <-. done.
  - unfold p_left, last_phase. by destruct (type =? 0).
Qed.
End sums.

(** ** The results *)

Section results.
Implicit Types (arr cs : list Z).

Lemma s_total_eq arr f : alen arr = 1000 -> s_total arr f = i32 (sum_of f arr).
Proof.
  intros Hl. unfold s_total. etrans; [exact (sum_parts arr f 125 8 ltac:(lia) 1 ltac:(lia))|]. change (125 * (1 - 1)) with 0. change (125 * Z.of_nat 8) with 1000. by rewrite <- Hl, chunk_all.
Qed.

Lemma actual_sum_eq arr : actual_sum arr = i32 (sum_of id arr).
Proof. unfold actual_sum. by rewrite (foldl_i32 id). Qed.

Lemma i32_signed x : - 2 ^ 31 <= x < 2 ^ 31 -> i32 x = x.
Proof.
  intros Hx. unfold i32, u32. change (2 ^ 32) with 4294967296 in *. change (2 ^ 31) with 2147483648 in *. destruct (Z.ltb_spec (x mod 4294967296) 2147483648); dlia.
Qed.

Lemma sum_of_bounds f arr lo hi : Forall (fun a => lo <= f a <= hi) arr -> lo * alen arr <= sum_of f arr <= hi * alen arr.
Proof.
  induction 1 as [|a arr Ha _ IH]; [change (alen (@nil Z)) with 0; cbn; lia|]. rewrite alen_cons. unfold sum_of in *. cbn [foldr]. lia.
Qed.

Lemma sum_of_ext f g arr : Forall (fun a => f a = g a) arr -> sum_of f arr = sum_of g arr.
Proof. induction 1 as [|a arr Ha _ IH]; [done|]. unfold sum_of in *. cbn. by rewrite Ha, IH. Qed.

(** The numbers read. *)
Lemma read_array_ok n : forall c cs, -128 <= c < 128 -> Forall (fun b => 0 <= b < 256) cs ->
  alen (read_array n c cs) = Z.of_nat n /\ Forall (fun a => -176 <= a <= 79) (read_array n c cs).
Proof.
  assert (Hrd : forall c cs, -128 <= c < 128 -> Forall (fun b => 0 <= b < 256) cs -> -128 <= (read_char c cs).1 < 128 /\ Forall (fun b => 0 <= b < 256) (read_char c cs).2).
  { intros c cs Hc Hcs. destruct Hcs as [|b cs Hb Hcs]; [done|]. cbn. split; [|done]. unfold schar. destruct (Z.ltb_spec b 128); lia. }
  induction n as [|n IH]; intros c cs Hc Hcs; [done|]. cbn [read_array]. destruct (Hrd c cs Hc Hcs) as [H1 H2]. destruct (read_char c cs) as [c1 cs1]. cbn in H1, H2.
  destruct (Hrd c1 cs1 H1 H2) as [H3 H4]. destruct (read_char c1 cs1) as [c2 cs2]. cbn in H3, H4. destruct (IH c2 cs2 H3 H4) as [IH1 IH2]. rewrite alen_cons. split; [lia|]. constructor; [lia|done].
Qed.

(** The variance is a number a [float] holds exactly. *)
Lemma variance_range arr : alen arr = 1000 -> Forall (fun a => -176 <= a <= 79) arr -> s_variance arr = actual_variance arr /\ 0 <= s_variance arr < 2 ^ 24.
Proof.
  intros Hl Hb. assert (Hs : -176000 <= sum_of id arr <= 79000) by (pose proof (sum_of_bounds id arr (-176) 79 Hb); lia).
  assert (Hm : s_mean arr = Z.quot (actual_sum arr) size) by (unfold s_mean; by rewrite s_total_eq, actual_sum_eq).
  assert (Hmr : -176 <= s_mean arr <= 79) by (rewrite Hm, actual_sum_eq, i32_signed by lia; unfold size; clear -Hs; dlia).
  assert (Hd : forall a, -176 <= a <= 79 -> 0 <= (a - s_mean arr) * (a - s_mean arr) <= 65025).
  { intros a Ha. generalize dependent (s_mean arr). intros m _ Hm. assert (Hd : -255 <= a - m <= 255) by lia. clear -Hd. generalize dependent (a - m). intros d Hd. nia. }
  assert (Hsq : Forall (fun a => s_square arr a = (a - s_mean arr) * (a - s_mean arr)) arr) by (eapply Forall_impl; [exact Hb|]; cbn; intros a Ha; unfold s_square; apply i32_signed; specialize (Hd a Ha); lia).
  assert (Hsum : 0 <= sum_of (s_square arr) arr <= 65025000).
  { rewrite (sum_of_ext _ _ _ Hsq). pose proof (sum_of_bounds (fun a => (a - s_mean arr) * (a - s_mean arr)) arr 0 65025) as H. rewrite Hl in H. apply H. eapply Forall_impl; [exact Hb|]. cbn. apply Hd. }
  unfold s_variance. rewrite s_total_eq by done. split.
  - unfold actual_variance. cbv zeta. f_equal. rewrite <- Hm. symmetry. apply (foldl_i32 (s_square arr)). done.
  - rewrite i32_signed by lia. unfold size. clear -Hsum. dlia.
Qed.
End results.


(** C16. Sum and variance by eight processes.  The network is the one after the
    forks, with the parent and its eight children; a turn lets one of them make a
    system call or one access to the variables it shares with its handler, or
    delivers the signal of a multicast to it, which enters the handler on top of
    what it was doing.  For every file and every sequence of turns (for the variance
    the process numbers must be below 64): at most 161 turns are anything but one
    more round of a loop that waits for the flag; as long as not all processes have
    exited, one of them has a turn that is not such a round; and when they have,
    what was printed is the sum, or the variance, that the parent's own loops over
    the whole array compute.  Schedules that run waiting loops forever are not
    excluded: a scheduler that is not fair would do that.  A [recv] is one turn, and
    a message is the number it carries. *)
Theorem sums_parallel {arith : Arith} {laws : ArithLaws arith} (type base : Z) (name : list Z) (c0 : Z) (cs : list Z) (buf : Z -> Z) sched c :
  -128 <= c0 < 128 -> Forall (fun b => 0 <= b < 256) cs -> (type <> 0 -> 0 <= base /\ base + nchild < 64) ->
  take_turns (hello base) sched (sums_net type base name c0 cs buf) = Some c ->
  let arr := read_array (Z.to_nat size) c0 cs in
  (work (hello base) sched (sums_net type base name c0 cs buf) <= 161)%nat /\
  ((exists a c', take_turn (hello base) a c = Some c' /\ spins a c = false) \/
    (all_exited c /\ ts_out c = if type =? 0 then sum_text name (actual_sum arr) else variance_text name (actual_variance arr))).
Proof.
  intros Hc Hcs Hb Hp arr. destruct (read_array_ok (Z.to_nat size) c0 cs Hc Hcs) as [Hl Hr]. change (Z.of_nat (Z.to_nat size)) with 1000 in Hl. fold arr in Hl, Hr.
  destruct (turns_inv type base name arr buf Hl Hb sched _ _ _ _ _ _ (sums_start type base name arr buf) Hp) as (left & s & phs & bufs & I & Hw).
  destruct (variance_range arr Hl Hr) as [Hv Hv2]. split; [unfold sums_net; cbv zeta; fold arr; destruct (type =? 0); lia|].
  destruct (can_go type base name arr buf Hl Hb _ _ _ _ _ I) as [->|H2]; [right|by left].
  destruct (all_children_exited _ _ _ _ _ _ _ _ _ _ I eq_refl) as (l & Ht & _ & Hex). split; [unfold all_exited; rewrite Ht; by constructor|].
  rewrite (in_out _ _ _ _ _ _ _ _ _ _ I). unfold text, the_variance. destruct (type =? 0); [by rewrite s_total_eq, actual_sum_eq|]. rewrite int_exact by lia. by rewrite Hv.
Qed.
