(* ===== verification/SumsExamples.v ===== *)
(** * The parallel programs run on files

    IEEE single precision satisfies the laws of the arithmetic.  The input file
    of the Jacobi program asks for a grid of four rows and two processes; the
    output of the processes, scheduled one after the other as far as they can go,
    is the output of one process.  A grid of 35 rows is too large: the children
    block each other ([jacob_blocks]).  The sum programs read a file with the
    digits 5 and 1 in turn: the sum is 3000, the mean 3 and the variance 4; there
    the signals are delivered and then the first process goes that is not in a
    waiting loop. *)

From Stdlib Require Import SpecFloat.
From S2P Require Import Prelude CString Console User Network Kahn Jacob JacobGrid JacobEvents JacobSpec Sums.
From S2P Require Import SumsSpec.
Open Scope Z_scope.

(** ** Single precision

    The arithmetic of IEEE 754, in the format of a C [float]; [ddiv] goes through
    the double format.  A value without an [int] is converted to the smallest one,
    as the processor does. *)
Definition round32 (x : spec_float) : spec_float := match x with S754_finite s m e => binary_round 24 128 s m e | _ => x end.
Definition trunc (x : spec_float) : Z :=
  match x with
  | S754_finite s m e =>
      let v := if 0 <=? e then Zpos m * 2 ^ e else Zpos m / 2 ^ (- e) in
      let v := if s then - v else v in
      if (- 2 ^ 31 <=? v) && (v <? 2 ^ 31) then v else - 2 ^ 31
  | S754_zero _ => 0
  | _ => - 2 ^ 31
  end.
#[export] Instance binary32 : Arith := {|
  float := spec_float;
  of_int n := binary_normalize 24 128 n 0 false;
  to_int := trunc;
  fadd := SFadd 24 128;
  fsub := SFsub 24 128;
  fmul := SFmul 24 128;
  fdiv := SFdiv 24 128;
  ddiv x n := round32 (SFdiv 53 1024 x (binary_normalize 53 1024 n 0 false));
  flt := SFltb;
  fle := SFleb |}.

(** Numbers are ordered by sign, exponent and mantissa. *)
Definition rank (x : spec_float) : option (Z * Z * Z) :=
  match x with
  | S754_nan => None
  | S754_infinity s => Some (if s then -2 else 2, 0, 0)
  | S754_zero _ => Some (0, 0, 0)
  | S754_finite true m e => Some (-1, - e, Zneg m)
  | S754_finite false m e => Some (1, e, Zpos m)
  end.
Definition rank_le (a b : Z * Z * Z) : Prop :=
  let '(c1, e1, m1) := a in let '(c2, e2, m2) := b in c1 < c2 \/ c1 = c2 /\ (e1 < e2 \/ e1 = e2 /\ m1 <= m2).
Definition rank_lt (a b : Z * Z * Z) : Prop :=
  let '(c1, e1, m1) := a in let '(c2, e2, m2) := b in c1 < c2 \/ c1 = c2 /\ (e1 < e2 \/ e1 = e2 /\ m1 < m2).

Lemma compare_rank x y : match rank x, rank y with
  | Some a, Some b => exists c, SFcompare x y = Some c /\ (c = Lt <-> rank_lt a b) /\ (c <> Gt <-> rank_le a b)
  | _, _ => SFcompare x y = None
  end.
Proof.
  destruct x as [s|s| |s m e], y as [s'|s'| |s' m' e']; try destruct s; try destruct s'; cbn [rank SFcompare]; try done;
    try (eexists; split; [reflexivity|]; split; split; (discriminate || intros; unfold rank_lt, rank_le in *; (done || lia))).
  - exists (match e ?= e' with Eq => CompOpp (Pos.compare_cont Eq m m') | Lt => Gt | Gt => Lt end). split; [done|]. change (Pos.compare_cont Eq m m') with (m ?= m')%positive.
    unfold rank_lt, rank_le. destruct (Z.compare_spec e e'), (Pos.compare_spec m m'); cbn; split; split; (discriminate || intros; (done || lia)).
  - exists (match e ?= e' with Eq => Pos.compare_cont Eq m m' | Lt => Lt | Gt => Gt end). split; [done|]. change (Pos.compare_cont Eq m m') with (m ?= m')%positive.
    unfold rank_lt, rank_le. destruct (Z.compare_spec e e'), (Pos.compare_spec m m'); cbn; split; split; (discriminate || intros; (done || lia)).
Qed.

Lemma leb_rank x y : SFleb x y = true <-> exists a b, rank x = Some a /\ rank y = Some b /\ rank_le a b.
Proof.
  pose proof (compare_rank x y) as H. unfold SFleb. destruct (rank x) as [a|]; [destruct (rank y) as [b|]|]; [|by rewrite H; split; [|intros (? & ? & ? & ? & ?)]..].
  destruct H as (c & -> & _ & Hc). split.
  - intros Hb. exists a, b. split_and!; [done|done|]. apply Hc. by destruct c.
  - intros (a' & b' & [= <-] & [= <-] & Hle). apply Hc in Hle. by destruct c.
Qed.
Lemma ltb_rank x y : SFltb x y = true <-> exists a b, rank x = Some a /\ rank y = Some b /\ rank_lt a b.
Proof.
  pose proof (compare_rank x y) as H. unfold SFltb. destruct (rank x) as [a|]; [destruct (rank y) as [b|]|]; [|by rewrite H; split; [|intros (? & ? & ? & ? & ?)]..].
  destruct H as (c & -> & Hc & _). split.
  - intros Hb. exists a, b. split_and!; [done|done|]. apply Hc. by destruct c.
  - intros (a' & b' & [= <-] & [= <-] & Hle). apply Hc in Hle. by destruct c.
Qed.
Lemma num_rank x : SFleb x x = true <-> is_Some (rank x).
Proof.
  rewrite leb_rank. split; [intros (a & _ & -> & _); by eexists|]. intros [a Ha]. exists a, a. split_and!; [done|done|]. destruct a as [[]]. right. split; [done|]. right. lia.
Qed.

(** Integers of at most 24 bits are exact. *)
Lemma digits2_bound p : 2 ^ (Zpos (digits2_pos p) - 1) <= Zpos p < 2 ^ Zpos (digits2_pos p).
Proof.
  induction p as [p IH|p IH|]; [| |done]; cbn [digits2_pos]; rewrite Pos2Z.inj_succ; replace (Z.succ (Zpos (digits2_pos p)) - 1) with (Zpos (digits2_pos p) - 1 + 1) by lia;
    unfold Z.succ; rewrite !Z.pow_add_r by lia; change (2 ^ 1) with 2; lia.
Qed.
Lemma digits2_shift p d : Zpos (digits2_pos (Pos.iter xO p d)) = Zpos (digits2_pos p) + Zpos d.
Proof.
  induction d as [|d IH] using Pos.peano_ind; [cbn; lia|]. rewrite Pos.iter_succ. cbn [digits2_pos]. lia.
Qed.
Lemma shift_value p d : Zpos (Pos.iter xO p d) = Zpos p * 2 ^ Zpos d.
Proof.
  induction d as [|d IH] using Pos.peano_ind; [cbn; lia|]. rewrite Pos.iter_succ, Pos2Z.inj_xO, IH, Pos2Z.inj_succ, Z.pow_succ_r by lia. lia.
Qed.

(** No rounding of a mantissa of 24 bits. *)
Lemma round_exact m e : Zpos (digits2_pos m) = 24 -> -100 <= e <= 0 -> binary_round_aux 24 128 false (Zpos m) e loc_Exact = S754_finite false m e.
Proof.
  intros Hm He. unfold binary_round_aux, shr_fexp. cbn [Zdigits2]. unfold fexp, emin. rewrite Hm.
  replace (Z.max (24 + e - 24) (3 - 128 - 24) - e) with 0 by lia. cbn [shr shr_record_of_loc shr_m loc_of_shr_record round_nearest_even Zdigits2]. rewrite Hm.
  replace (Z.max (24 + e - 24) (3 - 128 - 24) - e) with 0 by lia. cbn [shr shr_m]. by rewrite (proj2 (Z.leb_le e (128 - 24))) by lia.
Qed.

Lemma int_exact32 n : -1 <= n < 2 ^ 24 -> trunc (binary_normalize 24 128 n 0 false) = n.
Proof.
  intros Hn. assert (Hr : forall v, v < 2 ^ 24 -> 0 <= v -> (- 2 ^ 31 <=? v) && (v <? 2 ^ 31) = true) by (intros v H1 H2; by rewrite (proj2 (Z.leb_le _ _)), (proj2 (Z.ltb_lt _ _)) by lia).
  destruct n as [|p|p]; [done| |replace p with 1%positive by lia; done].
  pose proof (digits2_bound p) as Hd. assert (Hp : Zpos (digits2_pos p) <= 24) by (destruct (Z.le_gt_cases (Zpos (digits2_pos p)) 24); [done|]; assert (2 ^ 24 <= 2 ^ (Zpos (digits2_pos p) - 1)) by (apply Z.pow_le_mono_r; lia); lia).
  cbn [binary_normalize]. unfold binary_round. unfold fexp at 1, emin. rewrite !Z.add_0_r. rewrite Z.max_l by lia. unfold shl_align. rewrite Z.sub_0_r.
  destruct (Zpos (digits2_pos p) - 24) as [|d|d] eqn:E; [|lia|].
  - rewrite round_exact by lia. cbn [trunc]. change (0 <=? 0) with true. cbv iota zeta. rewrite Z.mul_1_r. by rewrite Hr by lia.
  - rewrite round_exact; [|rewrite digits2_shift; lia|lia]. cbn [trunc]. rewrite shift_value, (proj2 (Z.leb_gt 0 (Zneg d))) by lia. cbn [Z.opp]. cbv zeta. rewrite Z.div_mul by lia. by rewrite Hr by lia.
Qed.

#[export] Instance binary32_laws : ArithLaws binary32.
Proof.
  split; cbn [fle flt of_int to_int binary32].
  - intros x y. rewrite leb_rank, !num_rank. intros (a & b & -> & -> & _). by split; eexists.
  - intros x y. rewrite ltb_rank, !num_rank. intros (a & b & -> & -> & _). by split; eexists.
  - intros x y Hx Hy. apply num_rank in Hx as [a Ha], Hy as [b Hb]. apply eq_true_iff_eq. rewrite negb_true_iff, <- not_true_iff_false, ltb_rank, leb_rank.
    destruct a as [[c1 e1] m1], b as [[c2 e2] m2]. split; [intros (? & ? & ? & ? & ?) (? & ? & ? & ? & ?)|intros H; eexists _, _; split_and!; [done|done|]]; simplify_eq.
    + unfold rank_lt, rank_le in *. lia.
    + assert (Hn : ~ rank_le (c2, e2, m2) (c1, e1, m1)) by (intros Hle; apply H; eauto 10). unfold rank_lt, rank_le in *. lia.
  - intros x y Hx Hy. apply num_rank in Hx as [a Ha], Hy as [b Hb]. rewrite !leb_rank. destruct a as [[c1 e1] m1], b as [[c2 e2] m2].
    assert (H : rank_le (c1, e1, m1) (c2, e2, m2) \/ rank_le (c2, e2, m2) (c1, e1, m1)) by (unfold rank_le; lia). destruct H; [left|right]; eauto 10.
  - intros x y z. rewrite !leb_rank. intros (a & b & Ha & Hb & H1) (b' & c & Hb' & Hc & H2). simplify_eq. exists a, c. split_and!; [done|done|].
    destruct a as [[]], b as [[]], c as [[]]. unfold rank_le in *. lia.
  - done.
  - apply int_exact32.
Qed.

(** ** The Jacobi program *)


(** Each process in turn goes as far as it can. *)
Fixpoint as_far (fuel : nat) (i : nat) (c : net msg) : net msg :=
  match fuel with
  | O => c
  | S fuel' => match step msg_size i c with Some c' => as_far fuel' i c' | None => c end
  end.
Definition in_turn (times np : nat) (c : net msg) : net msg :=
  Nat.iter times (fun c => fold_left (fun c i => as_far 500 i c) (seq 0 np) c) c.

Definition input (np : string) : list Z := bytes "4" ++ [10] ++ bytes "0.5" ++ [10] ++ bytes "100.0" ++ [10] ++ bytes np ++ [10] ++ bytes "5" ++ [10].
Definition shown (np : string) (times n : nat) : option (list Z * bool) :=
  c ← jacob_main (arith := binary32) (of_int 7) (input np);
  let c := in_turn times n c in
  Some (n_out c, forallb (fun x => match x with Done _ => true | _ => false end) (n_progs c)).

Example jacob_prints : shown "1" 1 1 = shown "2" 20 3 /\
  shown "2" 20 3 = Some (concat ((fun l => bytes l ++ [10]) <$> ["100 100 100 100 "; "100 86 86 100 "; "100 61 61 100 "; "100 0 0 0 "]%string), true).
Proof. split; vm_compute; reflexivity. Qed.

(** With 35 rows a row of ghost values is 528 bytes.  Both children write theirs
    before they read, and the pipes hold 512: no process can go on. *)
Definition both_write : list move := replicate 2 (Network.Go 2) ++ replicate 33 (Network.Go 0) ++ replicate 33 (Network.Go 1).
Example jacob_blocks : exists c0 c, jacob_net (arith := binary32) (of_int 7) 35 (fdiv (of_int 1) (of_int 10)) (of_int 100) 2 6 = Some c0 /\
  play msg_size both_write c0 = Some c /\ (forall i, step msg_size i c = None) /\ ~ all_done c.
Proof.
  assert (H : match jacob_net (arith := binary32) (of_int 7) 35 (fdiv (of_int 1) (of_int 10)) (of_int 100) 2 6 with
    | Some c0 => match play msg_size both_write c0 with
      | Some c => (length (n_progs c) =? 3)%nat && forallb (fun i => match step msg_size i c with None => true | Some _ => false end) (seq 0 3) && negb (forallb Network.done (n_progs c))
      | None => false end
    | None => false end = true) by (vm_compute; reflexivity).
  destruct (jacob_net _ _ _ _ _ _) as [c0|]; [|discriminate H]. destruct (play msg_size both_write c0) as [c|] eqn:Ep; [|discriminate H].
  exists c0, c. split; [reflexivity|]. split; [exact Ep|].
  apply andb_prop in H as [[Hl%Nat.eqb_eq Hs]%andb_prop Hd]. split.
  - intros i. destruct (decide (i < 3)%nat) as [Hi|Hi]; [|unfold step; by rewrite lookup_ge_None_2 by lia].
    rewrite forallb_forall in Hs. specialize (Hs i). destruct (step msg_size i c); [|reflexivity]. discriminate Hs. apply in_seq. lia.
  - intros Ha. unfold all_done in Ha. rewrite negb_true_iff in Hd. apply not_true_iff_false in Hd. apply Hd, forallb_forall. intros x Hx.
    rewrite Forall_forall in Ha. by rewrite (Ha x) by (by apply list_elem_of_In).
Qed.

(** ** The sums *)

Definition digits : list Z := concat (replicate 500 [53; 10; 49; 10]).

(** Signals come first, then the first process that can do more than wait. *)
Definition turns : list turn := (Signal <$> seq 0 9) ++ (Go <$> seq 0 9).
Fixpoint greedy (handler : nat -> act unit) (fuel : nat) (c : tasks) : list turn :=
  match fuel with
  | O => []
  | S fuel' =>
      match list_find (fun a => is_Some (take_turn handler a c) /\ spins a c = false) turns with
      | Some (_, a) => a :: match take_turn handler a c with Some c' => greedy handler fuel' c' | None => [] end
      | None => []
      end
  end.
Definition variance_net : tasks := sums_net (arith := binary32) 1 3 (bytes "arr") 0 digits (fun _ => 0).
(** A child goes through three rounds of its loop before the parent has the mean. *)
Definition first_turns : list turn := take 60 (greedy (hello 3) 200 variance_net) ++ replicate 3 (Go 1).
Definition variance_run : list turn :=
  match take_turns (hello 3) first_turns variance_net with
  | Some c => first_turns ++ greedy (hello 3) 200 c
  | None => []
  end.

Lemma sums_parallel_witness : exists c, take_turns (hello 3) variance_run variance_net = Some c /\ (work (hello 3) variance_run variance_net <= 161)%nat /\
  ((exists a c', take_turn (hello 3) a c = Some c' /\ spins a c = false) \/ (all_exited c /\ ts_out c = bytes "Variance of array for file arr is 4" ++ [10])).
Proof.
  assert (Hplay : match take_turns (hello 3) variance_run variance_net with Some _ => true | None => false end = true) by (vm_compute; reflexivity).
  destruct (take_turns (hello 3) variance_run variance_net) as [c|] eqn:E; [|discriminate]. exists c. split; [reflexivity|].
  destruct (sums_parallel (arith := binary32) 1 3 (bytes "arr") 0 digits (fun _ => 0) variance_run c) as [H1 H2]; [lia| |unfold nchild; lia|exact E|].
  - apply (bool_decide_unpack _). vm_compute. exact I.
  - split; [exact H1|]. replace (bytes "Variance of array for file arr is 4" ++ [10]) with (variance_text (bytes "arr") (actual_variance (read_array (Z.to_nat size) 0 digits))) by (vm_compute; reflexivity). exact H2.
Defined.

(** The whole run, with all of the 161 turns, and that of a sum. *)
Example sums_print :
  (ts_out <$> take_turns (hello 3) variance_run variance_net) = Some (bytes "Variance of array for file arr is 4" ++ [10]) /\
  work (hello 3) variance_run variance_net = 161%nat /\ length variance_run = 164%nat /\
  (let c := sums_net (arith := binary32) 0 3 (bytes "arr") 0 digits (fun _ => 0) in ts_out <$> take_turns (hello 3) (greedy (hello 3) 200 c) c) = Some (bytes "Sum of array for file arr is 3000" ++ [10]).
Proof. split_and!; vm_compute; reflexivity. Qed.

(** A process number above 63: the child's access to [computeSquares] is out of
    bounds. *)
Example sums_overrun :
  let c := sums_net (arith := binary32) 1 60 (bytes "arr") 0 digits (fun _ => 0) in
  match take_turns (hello 60) (greedy (hello 60) 200 c) c with
  | Some c' => existsb (fun t => match t_run t with Trap _ => true | _ => false end) (ts_tasks c') = true /\ ts_out c' = []
  | None => False
  end.
Proof. vm_compute. split; reflexivity. Qed.
